(* ===== verification/_CoqProject ===== *)
-Q . S2P
Prelude.v
CLib.v
Dlist.v
SwapTlsf.v
SwapTlsfInv.v
SwapTlsfOps.v
SwapTlsfProofs.v
SwapTlsfThms.v
NpuTree.v
NpuTreeFacts.v
NpuTreeThms.v
Evaluator.v
EvaluatorThms.v
Registry.v
RegistryThms.v
FileStorage.v
ConfigManager.v
ShmManager.v
ShmFacts.v
RtShm.v
SwapProtocol.v
ShmThms.v
RollbackLog.v
Allocator.v
AllocInv.v
AllocShm.v
AllocProofs.v
AllocRollback.v
AllocPhases.v
AllocRelease.v
AllocThms.v
AllocRecover.v
SwapPool.v
AllocInit.v
AllocInitThms.v
SwapResolver.v
SwapResolverFacts.v
SwapResolverThms.v
SwapReserve.v
Watchdog.v
WatchdogFacts.v
WatchdogThms.v
EnpuManager.v
EnpuManagerThms.v
SwapStall.v
HashMap.v
MemoryTracker.v
MemoryTrackerThms.v
VasLib.v
DynamicBitset.v
ClusterVm.v
ClusterSched.v
ClusterSchedFacts.v
ClusterSchedInv.v
ClusterSchedAlloc.v
ClusterSchedOps.v
ClusterSchedReach.v
ClusterSchedAssign.v
ClusterSchedSelect.v
ClusterSchedThms.v
CoreSched.v
CoreSchedInv.v
CoreSchedFacts.v
CoreSchedThms.v
RtStreams.v
RtStreamsThms.v
VnpuStats.v
VnpuStatsThms.v
RtHooks.v
RtHooksThms.v
RtDevice.v
SwapExec.v
MemHooks.v
SwapExecFacts.v
SwapCycle.v
SwapThms.v
MemHooksThms.v
McsMem.v
McsConfig.v
McsSched.v
