(* ===== verification/Prelude.v ===== *)
(** * Verification of the NPU virtualisation of ubs-virt

    The program (src/ubs-virt-enpu) splits the dies of Ascend NPUs into virtual
    NPUs (vNPUs) for containers.  The manager (enpu-manager) places requests on
    dies, keeps a registry of the allocations with a checkpoint, writes a
    configuration file per container and shares one memory object per die with
    the processes of the containers.  The runtime (vcann-rt) is loaded into
    those processes: it hooks the functions of the device driver, limits the
    memory and the time slices of a process, and moves its memory out when told.
    When the memory of a die is oversubscribed the manager commands an idle vNPU
    to swap its memory out into a common swap buffer.

    A second program (src/virt-awaresched) pins the vCPU threads of virtual
    machines to the CPUs of a host, by clusters.

    ** Files and sources

    Paths are relative to src/ubs-virt-enpu/, core is enpu-manager/core.
    - Prelude, CLib, Dlist: constants, machine integers, list and loop lemmas,
      tactics and hints; securec, strings and doubles (IEEE binary64); linked
      lists over a heap.
    - SwapTlsf (model of core/src/shm_manager.c, the TLSF allocator of the swap
      buffer), SwapTlsfInv, SwapTlsfOps, SwapTlsfProofs,
      SwapTlsfThms: headers on an explicit heap with their pointers, refined to
      a set of regions.  SwapPool: mapping the buffer and giving it back.
    - NpuTree, NpuTreeFacts, NpuTreeThms: core/src/npu_tree.c; DcmiStub:
      dcmi_stub_adapter.c.
    - Evaluator, EvaluatorThms: evaluator.c and evaluator_share.c.
    - Registry, RegistryThms: allocation_registry.c, memory_storage_adapter.c;
      the storage behind the registry is the class [Storage].
    - ConfigManager: config_manager.c.
    - ShmManager, ShmFacts, ShmThms: dies, entries, bitmaps and swap commands of
      core/src/shm_manager.c; RtShm: the other side of the same memory,
      vcann-rt/src/shm_manager.c and npu_manager.c; SwapProtocol: the
      acknowledgements of a command, as a step relation for the interleaved one.
    - RollbackLog, Allocator: rollback_log.c and npu_allocator.c; AllocInv,
      AllocShm, AllocProofs, AllocRollback, AllocPhases,
      AllocRelease, AllocThms, AllocRecover: its invariant [alloc_inv] and its
      theorems; AllocInit, AllocInitThms: creation and initialisation.
    - SwapResolver, SwapResolverFacts, SwapResolverThms, SwapReserve:
      swap_resolver.c and one iteration of swap_resolver_thread.c.
    - Watchdog, WatchdogFacts, WatchdogThms: pod_watchdog.c.
    - EnpuManager, EnpuManagerThms, SwapStall: enpu_manager.c, the composition
      of allocator, resolver and watchdog.
    - HashMap, MemoryTracker, MemoryTrackerThms: vcann-rt/src/utils/hash_map.c
      and vcann-rt/src/memory_tracker.c.
    - CoreSched, CoreSchedInv, CoreSchedFacts, CoreSchedThms: the scheduler of
      vcann-rt/src/core_limiter.c, one step per access to the shared memory.
    - RtStreams, RtStreamsThms: the streams, captures and launch
      statistics of core_limiter.c; VnpuStats, VnpuStatsThms:
      vcann-rt/src/vnpu_stats.c.
    - RtHooks, RtHooksThms: the hooks of vcann-rt/src/ascend on kernels, tasks,
      graphs and events (kernel.c, task.c, graph.c, event.c, hook.c).
    - RtDevice: the driver as the class [Device] with the laws [DeviceLaws], and
      a simulated device that keeps them, used by the witnesses; SwapExec:
      vcann-rt/src/swap_executor.c, swap_hook.c, swap_monitor_thread.c and
      [check_and_swap_out] of npu_manager.c; MemHooks: mem_limiter.c and the
      hooks of ascend/memory.c; SwapExecFacts, SwapCycle: one call,
      one loop and one command; SwapThms, MemHooksThms: the theorems.
    - VasLib, DynamicBitset, ClusterVm, ClusterSched:
      src/virt-awaresched/src/vasd/cluster_sched and the bit set it uses;
      ClusterSchedFacts, ClusterSchedInv, ClusterSchedAlloc, ClusterSchedOps,
      ClusterSchedReach, ClusterSchedAssign,
      ClusterSchedSelect, ClusterSchedThms: its invariant [wf] and theorems.

    ** How the code is modelled

    A C function is a function on explicit state that returns its code and the
    new state.  [None] is undefined behaviour (an index out of range, a shift
    too far, a pointer that is not allocated) or a loop out of fuel; a theorem
    that an operation returns shows that neither happens.  Integers are [Z] with
    the wrap-around of their width written out.  What the operating system, the
    clocks and malloc answer are arguments or records of answers, over which the
    theorems quantify.  Code outside the sources is a class with its documented
    promise: [Securec] (libboundscheck), [Qsort], the device driver as a record
    of answers.  In the manager a lock is held for a whole operation, so
    operations are atomic; the runtime takes no lock on the commands, and the
    end of its acknowledgement is also modelled store by store ([race_step]), as
    are the turns of the core limiter ([sched_step]) and the recording of the
    statistics ([record_step]).  The locks of a swap-in are part of the state of
    the process.  The host of virt-awaresched (threads, cgroup files, topology)
    is an argument of its requests, which are a step relation; the read-only
    request GetAffinityInfo is not among them.

    ** What is shown

    - The swap buffer: allocation and release refine a set of disjoint regions,
      succeed when a large enough block exists, never leave two free neighbours,
      and setting up and tearing down terminate without a leak.
    - The allocator: an allocation happens everywhere or nowhere, a release
      undoes it, any sequence of both keeps registry, tree and shared memory in
      agreement and within the capacity of the dies; recovery and a restart
      rebuild the same state; the manager can release everything.
    - Placement: the evaluator picks a die that can host the request and that
      is least in the order of the strategy, or there is none.
    - Swapping: the victim is chosen as specified, its buffers are reserved all
      or none, a command is completed by exactly the acknowledgements it waits
      for, the watchdog leaves no command waiting for a dead process, and the
      two reports of what is swapped out agree.
    - Swapping in the process: whatever calls of the driver fail, the contents
      of the allocations are kept from a command to the next swap-in; on a
      driver that does not fail every hooked function finds all of them back at
      their addresses, with the counters as before.
    - Memory: no allocating function passes the limit, and the free memory that
      is reported is what can be allocated.
    - Time slices: under every interleaving the balance of a vNPU is what was
      injected less what was granted and charged, one injection per turn; the
      rotation of the owner is fair.  The end of a turn waits for exactly the
      streams that are not captured, captured launches are counted to their
      graph, and the hooks forward each call once and unchanged.
    - virt-awaresched: any sequence of requests keeps the bit maps, counts and
      groups in agreement; an allocation of CPUs happens entirely or not; every
      thread is pinned to a CPU of its own; the chosen node has room when one
      has.
    - Data structures: bitmap and entries, vNPU ids, registry, hash map and
      memory tracker refine finite maps or sets.
    - Faults of the code, each a theorem of its own: among them an
      acknowledgement that completes a newer command, an allocation that
      completes a pending command, a forced swap-in that stops the swapping of
      a die, a buffer the watchdog loses, entries left by a failed save, a partial
      swap-in after which the next command destroys data, and a failed one that
      keeps its locks.

    ** Fuel and bounds

    The loops over the lists of the TLSF allocator take the number of headers
    in the heap as fuel; the lists have no repetition, so this is enough, and
    the theorems show that the operations return.  [hex] takes 8 digits for 32
    bits.  A request for memory is repeated SWAP_OUT_MAX_RETRY = 10 times, as in
    the code.  The loops of virt-awaresched over layers take LAYER_FUEL = 257,
    more than the layers an 8-bit degree can count; the degree stays at most 6.
    The account of the core limiter assumes that at most MAX_DEBT = 2^62
    nanoseconds have been charged in all, so that no sum wraps.  All other loops run over finite
    lists.

    ** Not modelled

    Logging; the file storage adapter (cJSON and files, behind [Storage]); the
    loader of the device driver; the parser of the daemon's configuration; the
    REST interface and the command line; the tmpfs mounts; the second TLSF
    allocator of swap_buffer_manager_tlsf.c, which the manager does not use; in
    vcann-rt the creation and destruction of the objects and threads and the
    initialisation of the process (system calls); the library mcs, a second
    interposition library independent of the manager; the daemon around the
    cluster scheduler of virt-awaresched (sockets, libvirt); and the separate
    programs virt-optimizer and ub-device-manager.  Functions that only free
    memory have no definition. *)

From Stdlib Require Import ZArith Lia.
From stdpp Require Export base gmap sets list strings.
From stdpp Require Import pretty.

#[global] Open Scope Z_scope.

(** The lemmas that discharge the side conditions of the components. *)
Create HintDb enpu.

(** * Return codes (enpu-manager/core/include/common.h) *)

Definition ENPU_SUCCESS : Z := 0.
Definition ENPU_FAIL : Z := -1.
Definition ENPU_INVALID_PARAM : Z := -2.
Definition ENPU_NO_RESOURCE : Z := -3.
Definition ENPU_ALREADY_EXISTS : Z := -4.
Definition ENPU_NOT_FOUND : Z := -5.
(** [ENPU_FAIL] of the runtime (vcann-rt/src/include/common.h), which differs
    from that of the manager. *)
Definition RT_FAIL : Z := 1.

(** * Sizes shared by the components (common.h) *)

Definition MAX_NPU_PER_NODE : Z := 16.
Definition MAX_VNPU_PER_DIE : Z := 128.
Definition HUNDRED_CORE : Z := 100.
Definition VNPU_PRIORITY_NORMAL : Z := 0.
Definition VNPU_PRIORITY_HIGH : Z := 1.
Definition MAX_ALLOC_COUNT : Z := 1024.
Definition MAX_PATH_LEN : Z := 256.
Definition MAX_UUID_LEN : Z := 64.
Definition DIE_ID_LEN : Z := 64.
Definition MAX_NAME_LEN : Z := 32.
Definition SHM_ID_LEN : Z := DIE_ID_LEN.

Definition SCHED_POLICY_FIXED_SHARE : Z := 1.
Definition SCHED_POLICY_ELASTIC : Z := 2.
Definition SCHED_POLICY_BEST_EFFORT : Z := 3.

Definition SWAP_PRIORITY_HIGH : Z := 0.
Definition SWAP_PRIORITY_MEDIUM : Z := 1.
Definition SWAP_PRIORITY_LOW : Z := 2.

(** * Machine integers

    A C integer is a [Z]; an operation that can leave its width is followed
    by the wrap of that width. *)

Definition U64_MOD : Z := 18446744073709551616.
Definition u64 (x : Z) : Z := x mod U64_MOD.
Definition UINT64_MAX : Z := U64_MOD - 1.
Definition is_u64 (x : Z) : Prop := 0 <= x < U64_MOD.

(** Two's complement wrap to [int] (the arithmetic of [atomic_int]). *)
Definition I32_HALF : Z := 2147483648.
Definition i32 (x : Z) : Z := (x + I32_HALF) mod (2 * I32_HALF) - I32_HALF.
Definition is_i32 (x : Z) : Prop := - I32_HALF <= x < I32_HALF.

(** [int64_t] *)
Definition INT64_MIN : Z := - 9223372036854775808.
Definition i64 (x : Z) : Z := (x - INT64_MIN) mod U64_MOD + INT64_MIN.

Lemma U64_MOD_eq : U64_MOD = 2 ^ 64.
Proof. reflexivity. Qed.

(** Linear arithmetic with [/] and [mod] by constants, and with the machine
    bounds unfolded. *)
Ltac zlia := Z.to_euclidean_division_equations; lia.
Ltac unfold_bounds := unfold is_u64, is_i32, UINT64_MAX, U64_MOD, I32_HALF in *.
Ltac mlia := unfold_bounds; lia.
Ltac mzlia := unfold_bounds; zlia.

Lemma u64_small x : is_u64 x -> u64 x = x.
Proof. intros H. apply Z.mod_small. exact H. Qed.

Lemma u64_range x : is_u64 (u64 x).
Proof. apply Z.mod_pos_bound. reflexivity. Qed.

Lemma i32_small x : is_i32 x -> i32 x = x.
Proof. intros H. unfold i32. rewrite Z.mod_small; mlia. Qed.

(** The mask [~((1 << n) - 1)] of a 64-bit word clears the low [n] bits. *)
Definition low_clear (n : Z) : Z := u64 (Z.lnot (Z.ones n)).

Lemma land_low_clear n x :
  0 <= n <= 64 -> is_u64 x -> Z.land x (low_clear n) = 2 ^ n * (x / 2 ^ n).
Proof.
  intros Hn Hx. unfold low_clear, u64, is_u64 in *. rewrite U64_MOD_eq in *.
  assert (E : Z.land x (Z.lnot (Z.ones n) mod 2 ^ 64) = Z.ldiff x (Z.ones n)).
  { rewrite <- Z.land_ones by lia. apply Z.bits_inj'. intros i Hi.
    rewrite !Z.land_spec, Z.ldiff_spec, Z.lnot_spec by lia.
    rewrite (Z.testbit_ones_nonneg 64) by lia.
    destruct (Z.ltb_spec i 64); [rewrite andb_true_r; reflexivity|].
    rewrite (Z.bits_above_log2 x i); [reflexivity|lia|].
    destruct (Z.eq_dec x 0) as [->|]; [simpl; lia|].
    apply Z.log2_lt_pow2; [lia|].
    apply Z.lt_le_trans with (2 ^ 64); [lia|apply Z.pow_le_mono_r; lia]. }
  rewrite E, Z.ldiff_ones_r by lia.
  rewrite Z.shiftl_mul_pow2, Z.shiftr_div_pow2 by lia. lia.
Qed.

(** [(x + a - 1) & ~(a - 1)] for a power of two [a = 2 ^ n]. *)
Definition align_up (n : Z) (x : Z) : Z := Z.land (u64 (x + 2 ^ n - 1)) (low_clear n).

Lemma align_up_eq n x :
  0 <= n <= 64 -> 0 <= x -> x + 2 ^ n - 1 < U64_MOD ->
  align_up n x = 2 ^ n * ((x + 2 ^ n - 1) / 2 ^ n).
Proof.
  intros Hn Hx Hov. unfold align_up.
  assert (0 < 2 ^ n) by (apply Z.pow_pos_nonneg; lia).
  rewrite u64_small by (unfold is_u64; lia).
  apply land_low_clear; [lia|unfold is_u64; lia].
Qed.

(** * Bits of 64-bit words *)

Lemma land_bit m i : 0 <= i -> (Z.land m (2 ^ i) =? 0) = negb (Z.testbit m i).
Proof.
  intros Hi. assert (E : Z.land m (2 ^ i) = if Z.testbit m i then 2 ^ i else 0).
  { apply Z.bits_inj'. intros j Hj. rewrite Z.land_spec, Z.pow2_bits_eqb by lia.
    destruct (Z.eqb_spec i j) as [<-|Hne].
    - rewrite andb_true_r. destruct (Z.testbit m i) eqn:Eb; [by rewrite Z.pow2_bits_true by lia|by rewrite Z.bits_0].
    - rewrite andb_false_r. destruct (Z.testbit m i); [by rewrite Z.pow2_bits_false by lia|by rewrite Z.bits_0]. }
  rewrite E. destruct (Z.testbit m i); simpl; [|done].
  apply Z.eqb_neq. pose proof (Z.pow_pos_nonneg 2 i). lia.
Qed.

Lemma u64_testbit x j : 0 <= j < 64 -> Z.testbit (u64 x) j = Z.testbit x j.
Proof. intros Hj. unfold u64. rewrite U64_MOD_eq, Z.mod_pow2_bits_low by lia. done. Qed.

Lemma is_u64_bits x : 0 <= x -> (forall j, 64 <= j -> Z.testbit x j = false) -> is_u64 x.
Proof.
  intros H0 Hb. unfold is_u64. split; [done|]. rewrite U64_MOD_eq.
  destruct (Z.eq_dec x 0) as [->|]; [done|]. apply Z.log2_lt_pow2; [lia|].
  destruct (Z.lt_ge_cases (Z.log2 x) 64) as [|Hge]; [done|].
  pose proof (Z.bit_log2 x ltac:(lia)) as H. by rewrite Hb in H by done.
Qed.

Lemma is_u64_testbit x j : is_u64 x -> 64 <= j -> Z.testbit x j = false.
Proof.
  intros [H0 H1] Hj. destruct (Z.eq_dec x 0) as [->|]; [apply Z.bits_0|].
  apply Z.bits_above_log2; [done|]. apply Z.lt_le_trans with 64; [|done].
  apply Z.log2_lt_pow2; [lia|]. by rewrite <- U64_MOD_eq.
Qed.

Lemma clear_bit m i j :
  is_u64 m -> 0 <= i < 64 -> 0 <= j ->
  Z.testbit (Z.land m (u64 (Z.lnot (2 ^ i)))) j = Z.testbit m j && negb (j =? i).
Proof.
  intros Hm Hi Hj. rewrite Z.land_spec. destruct (Z.lt_ge_cases j 64) as [Hlt|Hge].
  - rewrite u64_testbit, Z.lnot_spec, Z.pow2_bits_eqb by lia. by rewrite (Z.eqb_sym i j).
  - by rewrite (is_u64_testbit m j).
Qed.

Lemma set_bit m i j : 0 <= i -> 0 <= j -> Z.testbit (Z.lor m (2 ^ i)) j = Z.testbit m j || (j =? i).
Proof. intros Hi Hj. rewrite Z.lor_spec, Z.pow2_bits_eqb by lia. by rewrite (Z.eqb_sym i j). Qed.

Lemma clear_bit_u64 m x : is_u64 m -> is_u64 (Z.land m (u64 x)).
Proof.
  intros Hm. apply is_u64_bits.
  - apply Z.land_nonneg. left. apply Hm.
  - intros j Hj. rewrite Z.land_spec. by rewrite (is_u64_testbit m j).
Qed.

Lemma set_bit_u64 m i : is_u64 m -> 0 <= i < 64 -> is_u64 (Z.lor m (2 ^ i)).
Proof.
  intros Hm Hi. apply is_u64_bits.
  - apply Z.lor_nonneg. split; [apply Hm|]. apply Z.pow_nonneg. lia.
  - intros j Hj. rewrite Z.lor_spec, (is_u64_testbit m j), Z.pow2_bits_false by (done || lia). done.
Qed.

(** Setting a bit that has been cleared restores the word. *)
Lemma set_clear_bit m i :
  is_u64 m -> 0 <= i < 64 -> Z.testbit m i = true -> Z.lor (Z.land m (u64 (Z.lnot (2 ^ i)))) (2 ^ i) = m.
Proof.
  intros Hm Hi Hb. apply Z.bits_inj'. intros j Hj. rewrite set_bit, clear_bit by (done || lia).
  destruct (Z.eqb_spec j i) as [->|]; [by rewrite Hb, orb_true_r|]. by rewrite andb_true_r, orb_false_r.
Qed.

(** Clearing a bit that has been set restores the word. *)
Lemma clear_set_bit m i :
  is_u64 m -> 0 <= i < 64 -> Z.testbit m i = false -> Z.land (Z.lor m (2 ^ i)) (u64 (Z.lnot (2 ^ i))) = m.
Proof.
  intros Hm Hi Hb. apply Z.bits_inj'. intros j Hj.
  rewrite clear_bit, set_bit by (try apply set_bit_u64; done || lia).
  destruct (Z.eqb_spec j i) as [->|]; [by rewrite Hb|]. by rewrite andb_true_r, orb_false_r.
Qed.

(** * Lists of C arrays *)

Lemma NoDup_app_cons_inv {A} (l1 l2 : list A) (x : A) :
  NoDup (l1 ++ x :: l2) -> (x ∉ l1) ∧ (x ∉ l2) ∧ NoDup (l1 ++ l2).
Proof.
  intros H. apply NoDup_app in H as (H1 & H12 & H2).
  apply NoDup_cons in H2 as [Hx H2].
  split; [intros Hin; apply (H12 x Hin); left|]. split; [done|].
  apply NoDup_app. split; [done|]. split; [|done].
  intros y Hy Hy2. apply (H12 y Hy). by right.
Qed.

Lemma NoDup_app_disj {A} (l1 l2 : list A) (x : A) : NoDup (l1 ++ l2) -> x ∈ l1 -> x ∈ l2 -> False.
Proof. intros (_ & H & _)%NoDup_app H1 H2. by apply (H x). Qed.

Lemma head_Some_elem_of {A} (l : list A) (x : A) : head l = Some x -> x ∈ l.
Proof. destruct l; simpl; [done|]. intros [= ->]. left. Qed.

(** A loop whose body may be undefined. *)
Fixpoint ofoldl {A B} (f : A -> B -> option B) (l : list A) (b : B) : option B :=
  match l with [] => Some b | x :: r => b1 ← f x b; ofoldl f r b1 end.

(** The loop returns when each of its steps does: [P todo b] says what holds
    with the elements [todo] still to come. *)
Lemma ofoldl_total {A B} (f : A -> B -> option B) (P : list A -> B -> Prop) l b :
  P l b -> (forall x r b, P (x :: r) b -> exists b1, f x b = Some b1 ∧ P r b1) -> exists b', ofoldl f l b = Some b' ∧ P [] b'.
Proof.
  intros HP Hstep. revert b HP. induction l as [|x l IH]; intros b HP; [by exists b|].
  destruct (Hstep x l b HP) as (b1 & E & HP1). cbn [ofoldl]. rewrite E. exact (IH b1 HP1).
Qed.
