(* ===== verification/CLib.v ===== *)
(** What the sources use of C and of its libraries: bounded strings, the
    securec string functions and [double] arithmetic.

    securec (libboundscheck) is not part of the sources: it is the class
    [Securec], whose laws are the documented results of the two functions on
    arguments that fit and on arguments that do not.  [securec_ref] is an
    implementation of them, used by the examples.

    A [double] is an IEEE binary64 number of [SpecFloat], so that the
    oversubscription arithmetic rounds as the hardware does. *)

From Stdlib Require Import Floats.SpecFloat.
From S2P Require Import Prelude.

(** * Strings *)

(** The first [n] characters, what a bounded buffer keeps of [s]. *)
Definition prefix_of_len (n : nat) (s : string) : string := String.substring 0 n s.

(** [strncmp(a, b, n) == 0] *)
Definition strncmp_eq (n : nat) (a b : string) : bool :=
  bool_decide (prefix_of_len n a = prefix_of_len n b).

(** [s[0] == '\0'] *)
Definition str_empty (s : string) : bool := match s with EmptyString => true | _ => false end.

(** [snprintf_s dst_max count text] and [strncpy_s dst_max src count] return
    the code of the call and what the destination holds afterwards. *)
Class Securec := {
  snprintf_s : nat -> nat -> string -> Z * string;
  strncpy_s : nat -> string -> nat -> Z * string;
  snprintf_s_fits d c s :
    (String.length s <= c)%nat -> (c < d)%nat -> snprintf_s d c s = (Z.of_nat (String.length s), s);
  snprintf_s_truncated d c s :
    (c < String.length s)%nat -> (c < d)%nat -> (snprintf_s d c s).1 = -1;
  strncpy_s_fits d s c :
    (Nat.min (String.length s) c < d)%nat -> strncpy_s d s c = (0, prefix_of_len c s);
}.

(** [strncpy_s(dst, n, src, strnlen(src, n - 1))] *)
Definition copy_str `{Securec} (n : nat) (src : string) : Z * string :=
  strncpy_s n src (Nat.min (String.length src) (n - 1)).

(** * Doubles *)

Abbreviation double := spec_float.

Definition d_of_Z (x : Z) : double := binary_normalize 53 1024 x 0 false.
Definition d_zero : double := S754_zero false.
Definition d_one : double := d_of_Z 1.
Definition d_add : double -> double -> double := SFadd 53 1024.
Definition d_sub : double -> double -> double := SFsub 53 1024.
Definition d_mul : double -> double -> double := SFmul 53 1024.
Definition d_div : double -> double -> double := SFdiv 53 1024.
Definition d_ltb : double -> double -> bool := SFltb.
Definition d_leb : double -> double -> bool := SFleb.
Definition d_eqb : double -> double -> bool := SFeqb.
Definition d_pos (x : double) : bool := d_ltb d_zero x.

(** The integer part, [None] for an infinity or a NaN. *)
Definition d_trunc (x : double) : option Z :=
  match x with
  | S754_zero _ => Some 0
  | S754_finite s m e =>
      let a := if 0 <=? e then Z.pos m * 2 ^ e else Z.pos m / 2 ^ (- e) in
      Some (if s then - a else a)
  | _ => None
  end.

(** [(uint64_t)x], undefined when the integer part is out of range. *)
Definition d_to_u64 (x : double) : option Z :=
  z ← d_trunc x; if (0 <=? z) && (z <? U64_MOD) then Some z else None.

(** * Facts *)

Lemma prefix_of_len_all n s : (String.length s <= n)%nat -> prefix_of_len n s = s.
Proof.
  unfold prefix_of_len. revert n. induction s as [|c s IH]; intros [|n] Hn; simpl in *; try done; [lia|].
  f_equal. apply IH. lia.
Qed.

Lemma prefix_of_len_length n s : String.length (prefix_of_len n s) = Nat.min n (String.length s).
Proof. unfold prefix_of_len. revert n. induction s as [|c s IH]; intros [|n]; simpl; try done. f_equal. apply IH. Qed.

Lemma prefix_of_len_min n s : prefix_of_len (Nat.min (String.length s) n) s = prefix_of_len n s.
Proof. unfold prefix_of_len. revert n. induction s as [|c s IH]; intros [|n]; simpl; try done. f_equal. apply IH. Qed.

Lemma copy_str_eq `{Securec} n src : (0 < n)%nat -> copy_str n src = (0, prefix_of_len (n - 1) src).
Proof.
  intros Hn. unfold copy_str. rewrite strncpy_s_fits by lia. by rewrite prefix_of_len_min.
Qed.

(** * Doubles of integers *)

Lemma digits_iter m k : digits2_pos (Pos.iter xO m k) = (digits2_pos m + k)%positive.
Proof. revert m. induction k as [|k IH] using Pos.peano_ind; intros m; [cbn; lia|]. rewrite Pos.iter_succ. cbn [digits2_pos]. rewrite IH. lia. Qed.

Lemma value_iter m k : Z.pos (Pos.iter xO m k) = Z.pos m * 2 ^ Z.pos k.
Proof.
  revert m. induction k as [|k IH] using Pos.peano_ind; intros m; [cbn [Pos.iter]; lia|].
  rewrite Pos.iter_succ, Pos2Z.inj_succ, Z.pow_succ_r by lia. specialize (IH m). lia.
Qed.

Lemma digits_bound m : 2 ^ (Z.pos (digits2_pos m) - 1) <= Z.pos m < 2 ^ Z.pos (digits2_pos m).
Proof.
  induction m as [m IH|m IH|]; cbn [digits2_pos]; [| |cbn; lia];
    rewrite Pos2Z.inj_succ; replace (Z.succ (Z.pos (digits2_pos m)) - 1) with (Z.succ (Z.pos (digits2_pos m) - 1)) by lia;
    rewrite !Z.pow_succ_r by lia; lia.
Qed.

(** A mantissa of 53 digits is not rounded. *)
Lemma round_aux_exact s m e :
  digits2_pos m = 53%positive -> -1074 <= e <= 971 -> binary_round_aux 53 1024 s (Z.pos m) e loc_Exact = S754_finite s m e.
Proof.
  intros Hd He. unfold binary_round_aux, shr_fexp. cbn [Zdigits2 shr_record_of_loc]. rewrite Hd.
  assert (Hf : fexp 53 1024 (53 + e) - e = 0) by (unfold fexp, emin; lia). rewrite Hf. cbn [shr shr_m loc_of_shr_record shr_r shr_s round_nearest_even].
  cbn [Zdigits2 shr_record_of_loc]. rewrite Hd, Hf. cbn [shr shr_m]. by rewrite (proj2 (Z.leb_le e (1024 - 53))) by lia.
Qed.

Lemma round_int s m : Z.pos m < 2 ^ 53 -> d_trunc (binary_round 53 1024 s m 0) = Some (if s then - Z.pos m else Z.pos m).
Proof.
  intros Hm. pose proof (digits_bound m) as Hb. remember (digits2_pos m) as d eqn:Ed.
  assert (Hd : Z.pos d <= 53). { destruct (Z.le_gt_cases (Z.pos d) 53); [done|]. assert (2 ^ 53 <= 2 ^ (Z.pos d - 1)) by (apply Z.pow_le_mono_r; lia). lia. }
  unfold binary_round, shl_align. rewrite <- Ed. replace (fexp 53 1024 (Z.pos d + 0) - 0) with (Z.pos d - 53) by (unfold fexp, emin; lia).
  destruct (Z.pos d - 53) as [|q|q] eqn:E; [|lia|].
  - rewrite round_aux_exact; [cbn [d_trunc]; rewrite Z.leb_refl, Z.pow_0_r, Z.mul_1_r; by destruct s|lia|lia].
  - rewrite round_aux_exact.
    + cbn [d_trunc]. replace (fexp 53 1024 (Z.pos d + 0)) with (Z.neg q) by (unfold fexp, emin; lia). cbn [Z.leb Z.compare]. change (- Z.neg q) with (Z.pos q).
      rewrite value_iter, Z.div_mul by (apply Z.pow_nonzero; lia). done.
    + rewrite digits_iter, <- Ed. lia.
    + unfold fexp, emin. lia.
Qed.

Lemma d_of_Z_exact n : Z.abs n < 2 ^ 53 -> d_trunc (d_of_Z n) = Some n.
Proof.
  intros Hn. unfold d_of_Z, binary_normalize. destruct n as [|m|m]; [done| |]; rewrite round_int by lia; done.
Qed.

Lemma d_to_u64_exact n : 0 <= n < 2 ^ 53 -> d_to_u64 (d_of_Z n) = Some n.
Proof. intros Hn. unfold d_to_u64. rewrite d_of_Z_exact by lia. cbn. unfold U64_MOD. rewrite (proj2 (Z.leb_le 0 n)), (proj2 (Z.ltb_lt _ _)) by lia. done. Qed.

(** * Rounding of larger integers *)

Lemma shr_1_div x : 0 <= shr_m x -> shr_m (shr_1 x) = shr_m x / 2 ∧ 0 <= shr_m (shr_1 x).
Proof.
  destruct x as [m r s]. cbn [shr_m]. intros Hm. destruct m as [|[p|p|]|]; cbn [shr_1 shr_m]; try done.
  - split; [|lia]. rewrite Pos2Z.inj_xI. apply (Z.div_unique _ _ _ 1); lia.
  - split; [|lia]. rewrite Pos2Z.inj_xO. apply (Z.div_unique _ _ _ 0); lia.
Qed.

Lemma shr_iter_div k : forall x, 0 <= shr_m x -> shr_m (SpecFloat.iter_pos shr_1 k x) = shr_m x / 2 ^ Z.pos k ∧ 0 <= shr_m (SpecFloat.iter_pos shr_1 k x).
Proof.
  induction k as [k IH|k IH|]; intros x Hx; cbn [SpecFloat.iter_pos].
  - destruct (shr_1_div x Hx) as [E0 H0]. destruct (IH _ H0) as [E1 H1]. destruct (IH _ H1) as [E2 H2]. split; [|done].
    rewrite E2, E1, E0, !Z.div_div by lia. f_equal. replace (Z.pos k~1) with (1 + Z.pos k + Z.pos k) by lia. rewrite !Z.pow_add_r by lia. lia.
  - destruct (IH _ Hx) as [E1 H1]. destruct (IH _ H1) as [E2 H2]. split; [|done].
    rewrite E2, E1, Z.div_div by lia. f_equal. replace (Z.pos k~0) with (Z.pos k + Z.pos k) by lia. rewrite !Z.pow_add_r by lia. lia.
  - by apply shr_1_div.
Qed.

Lemma digits_of p n : 2 ^ (n - 1) <= Z.pos p < 2 ^ n -> 0 < n -> Z.pos (digits2_pos p) = n.
Proof.
  intros Hp Hn. pose proof (digits_bound p) as Hb. set (D := Z.pos (digits2_pos p)) in *.
  assert (n - 1 < D) by (apply (Z.pow_lt_mono_r_iff 2); lia). assert (D - 1 < n) by (apply (Z.pow_lt_mono_r_iff 2); lia). lia.
Qed.

Lemma nearest_even_bounds q l : q <= round_nearest_even q l <= q + 1.
Proof. destruct l as [|[]]; cbn; try lia. destruct (Z.even q); lia. Qed.

(** The second normalisation after the rounding of a mantissa. *)
Lemma renormalise r k :
  2 ^ 52 <= r <= 2 ^ 53 -> 0 < k <= 10 -> exists p e, shr_fexp 53 1024 r k loc_Exact = (Build_shr_record (Z.pos p) false false, e) ∧ Z.pos p * 2 ^ e = r * 2 ^ k ∧ 0 <= e <= 11.
Proof.
  intros Hr Hk. destruct r as [|p|]; [lia| |lia]. unfold shr_fexp. cbn [Zdigits2 shr_record_of_loc].
  destruct (Z.eq_dec (Z.pos p) (2 ^ 53)) as [E|E].
  - injection E as ->. change (Z.pos (digits2_pos _)) with 54. replace (fexp 53 1024 (54 + k) - k) with 1 by (unfold fexp, emin; lia). cbn [shr SpecFloat.iter_pos].
    exists (2 ^ 52)%positive, (k + 1). split; [reflexivity|]. split; [|lia]. rewrite Z.pow_add_r by lia. lia.
  - rewrite (digits_of p 53) by lia. replace (fexp 53 1024 (53 + k) - k) with 0 by (unfold fexp, emin; lia). cbn [shr]. exists p, k. split; [done|]. lia.
Qed.

Lemma round_big m : 2 ^ 53 <= Z.pos m < 2 ^ 63 -> exists n, d_trunc (binary_round 53 1024 false m 0) = Some n ∧ Z.abs (n - Z.pos m) <= 1024 ∧ 0 <= n <= 2 ^ 63.
Proof.
  intros Hm. pose proof (digits_bound m) as Hb. set (d := Z.pos (digits2_pos m)) in *.
  assert (Hd : 54 <= d <= 63). { split; [apply Z.lt_pred_le|apply Z.lt_succ_r, Z.lt_pred_lt_succ]; apply (Z.pow_lt_mono_r_iff 2); lia. }
  unfold binary_round, shl_align. fold d. replace (fexp 53 1024 (d + 0) - 0) with (d - 53) by (unfold fexp, emin; lia).
  destruct (d - 53) as [|k|k] eqn:Ek; [lia| |lia]. unfold binary_round_aux, shr_fexp at 1. cbn [Zdigits2 shr_record_of_loc]. fold d.
  replace (fexp 53 1024 (d + 0) - 0) with (Z.pos k) by (unfold fexp, emin; lia). cbn [shr]. rewrite Z.add_0_l.
  destruct (shr_iter_div k (Build_shr_record (Z.pos m) false false)) as [Eq _]; [cbn; lia|]. set (x := SpecFloat.iter_pos shr_1 k _) in *. cbn [shr_m] in Eq.
  set (K := Z.pos k) in *. assert (HK : 0 < 2 ^ K) by lia.
  pose proof (Z.div_mod (Z.pos m) (2 ^ K)) as Hdm. pose proof (Z.mod_pos_bound (Z.pos m) (2 ^ K) HK). rewrite <- Eq in Hdm.
  assert (Hq : 2 ^ 52 <= shr_m x < 2 ^ 53).
  { rewrite Eq. split; [apply Z.div_le_lower_bound|apply Z.div_lt_upper_bound]; try lia; rewrite <- Z.pow_add_r by lia; [replace (K + 52) with (d - 1) by lia|replace (K + 53) with d by lia]; lia. }
  pose proof (nearest_even_bounds (shr_m x) (loc_of_shr_record x)) as Hn. set (r := round_nearest_even _ _) in *.
  destruct (renormalise r K) as (p & e & -> & Ep & He); [lia|lia|]. cbn [shr_m]. rewrite (proj2 (Z.leb_le e (1024 - 53))) by lia. cbn [d_trunc].
  rewrite (proj2 (Z.leb_le 0 e)) by lia. exists (Z.pos p * 2 ^ e). split; [done|]. rewrite Ep.
  assert (2 ^ K <= 2 ^ 10) by (apply Z.pow_le_mono_r; lia). assert (r * 2 ^ K <= 2 ^ 53 * 2 ^ 10) by nia. nia.
Qed.

(** A count of nanoseconds as a [double], and back. *)
Lemma d_of_Z_close n : 0 <= n < 2 ^ 63 -> exists m, d_to_u64 (d_of_Z n) = Some m ∧ Z.abs (m - n) <= 1024 ∧ 0 <= m <= 2 ^ 63.
Proof.
  intros Hn. destruct (Z.lt_ge_cases n (2 ^ 53)) as [Hs|Hs]; [exists n; rewrite d_to_u64_exact by lia; split; [done|lia]|].
  destruct n as [|p|]; [lia| |lia]. destruct (round_big p ltac:(lia)) as (m & E & Hm). exists m. split; [|lia].
  unfold d_to_u64, d_of_Z. cbn [binary_normalize]. rewrite E. cbn [mbind option_bind]. unfold U64_MOD. by rewrite (proj2 (Z.leb_le 0 m)), (proj2 (Z.ltb_lt _ _)) by lia.
Qed.

(** * An implementation of securec *)

Program Definition securec_ref : Securec := {|
  snprintf_s d c s :=
    if bool_decide (String.length s <= c)%nat then (Z.of_nat (String.length s), s) else (-1, prefix_of_len c s);
  strncpy_s d s c := if bool_decide (Nat.min (String.length s) c < d)%nat then (0, prefix_of_len c s) else (22, EmptyString);
|}.
Next Obligation. intros d c s H _. simpl. by rewrite bool_decide_eq_true_2. Qed.
Next Obligation. intros d c s H _. simpl. rewrite bool_decide_eq_false_2 by lia. done. Qed.
Next Obligation. intros d s c H. simpl. by rewrite bool_decide_eq_true_2. Qed.
