(* ===== verification/Dlist.v ===== *)
(** Linked lists over a view of a heap.

    A view gives, for a pointer, the pair (previous, next) of links that the
    object at that pointer holds, [None] when nothing is allocated there.
    [dseg v p ls n] says that the view threads the pointers [ls] in order,
    with [p] before the first and [n] after the last; [sseg] is the same for
    a singly linked list.  The two lemmas that matter are [dseg_unlink] and
    [dseg_link]: the effect of removing and inserting one cell, stated for
    any view that agrees with the old one outside of the touched links. *)

From S2P Require Import Prelude.

Section dlist.
  Context {L : Type} `{EqDecision L}.
  Implicit Types (v : L -> option (option L * option L)) (ls : list L) (p n : option L).

Definition hd_or (n : option L) (ls : list L) : option L :=
  match ls with [] => n | x :: _ => Some x end.
Definition last_or (p : option L) (ls : list L) : option L :=
  match last ls with Some x => Some x | None => p end.

Fixpoint dseg (v : L -> option (option L * option L)) (p : option L) (ls : list L) (n : option L) : Prop :=
  match ls with
  | [] => True
  | l :: r => v l = Some (p, hd_or n r) ∧ dseg v (Some l) r n
  end.

Fixpoint sseg (v : L -> option (option L)) (ls : list L) : Prop :=
  match ls with
  | [] => True
  | l :: r => v l = Some (head r) ∧ sseg v r
  end.

(** What a list operation may change: the links of a neighbour on one side. *)
Definition set_snd (n : option L) (x : option (option L * option L)) :=
  (fun a => (a.1, n)) <$> x.
Definition set_fst (p : option L) (x : option (option L * option L)) :=
  (fun a => (p, a.2)) <$> x.

Lemma hd_or_None ls : hd_or None ls = head ls.
Proof. by destruct ls. Qed.

Lemma last_or_None ls : last_or None ls = last ls.
Proof. unfold last_or. by destruct (last ls). Qed.

Lemma last_or_cons p x ls : last_or p (x :: ls) = last_or (Some x) ls.
Proof. unfold last_or. rewrite last_cons. by destruct (last ls). Qed.

Lemma last_or_snoc p ls x : last_or p (ls ++ [x]) = Some x.
Proof. unfold last_or. by rewrite last_snoc. Qed.

Lemma hd_or_app n l1 l2 : hd_or n (l1 ++ l2) = hd_or (hd_or n l2) l1.
Proof. by destruct l1. Qed.

Lemma dseg_ext v v' p ls n :
  (forall x, x ∈ ls -> v' x = v x) -> dseg v p ls n -> dseg v' p ls n.
Proof.
  revert p. induction ls as [|l r IH]; intros p Hv; [done|]. simpl. intros [H1 H2].
  split; [rewrite Hv by left; done|]. apply IH; [|done]. intros x Hx. apply Hv. by right.
Qed.

Lemma dseg_app v p l1 l2 n :
  dseg v p (l1 ++ l2) n <-> dseg v p l1 (hd_or n l2) ∧ dseg v (last_or p l1) l2 n.
Proof.
  revert p. induction l1 as [|l r IH]; intros p; simpl; [tauto|].
  rewrite IH, hd_or_app, last_or_cons. tauto.
Qed.

Lemma dseg_lookup v l1 l l2 :
  dseg v None (l1 ++ l :: l2) None -> v l = Some (last l1, head l2).
Proof.
  rewrite dseg_app. simpl. rewrite last_or_None, hd_or_None. tauto.
Qed.

Lemma dseg_set_next v v' p ls n n' :
  NoDup ls ->
  (forall x, x ∈ ls -> last ls <> Some x -> v' x = v x) ->
  (forall x, last ls = Some x -> v' x = set_snd n' (v x)) ->
  dseg v p ls n -> dseg v' p ls n'.
Proof.
  induction ls as [|x ls' _] using rev_ind; [done|].
  rewrite last_snoc, !dseg_app. simpl. intros Hnd Hv Hl [H1 [H2 _]].
  apply NoDup_app in Hnd as (_ & Hd & _).
  split; [|split; [|done]].
  - eapply dseg_ext; [|exact H1]. intros y Hy. apply Hv; [set_solver|].
    intros [= ->]. apply (Hd y Hy). set_solver.
  - rewrite (Hl x) by done. by rewrite H2.
Qed.

Lemma dseg_set_prev v v' p p' ls n :
  NoDup ls ->
  (forall x, x ∈ ls -> head ls <> Some x -> v' x = v x) ->
  (forall x, head ls = Some x -> v' x = set_fst p' (v x)) ->
  dseg v p ls n -> dseg v' p' ls n.
Proof.
  destruct ls as [|x r]; [done|]. simpl. intros [Hx Hnd]%NoDup_cons Hv Hh [H1 H2].
  split; [rewrite (Hh x) by done; by rewrite H1|].
  eapply dseg_ext; [|exact H2]. intros y Hy. apply Hv; [by right|]. intros [= ->]. done.
Qed.

(** Removing [l]: its neighbours are linked to each other. *)
Lemma dseg_unlink v v' l1 l l2 :
  NoDup (l1 ++ l :: l2) ->
  (forall x, x <> l -> last l1 <> Some x -> head l2 <> Some x -> v' x = v x) ->
  (forall x, last l1 = Some x -> v' x = set_snd (head l2) (v x)) ->
  (forall x, head l2 = Some x -> v' x = set_fst (last l1) (v x)) ->
  dseg v None (l1 ++ l :: l2) None -> dseg v' None (l1 ++ l2) None.
Proof.
  intros Hnd Hv Hp Hn. rewrite !dseg_app. simpl. rewrite last_or_None, !hd_or_None.
  pose proof (NoDup_app_cons_inv _ _ _ Hnd) as (Hl1 & Hl2 & Hnd12).
  apply NoDup_app in Hnd12 as (Hnd1 & Hd & Hnd2). intros (H1 & _ & H2). split.
  - eapply dseg_set_next; [done| |exact Hp|exact H1].
    intros x Hx Hne. apply Hv; [intros ->; done|done|].
    intros Hh. apply (Hd x Hx). destruct l2; simpl in Hh; [done|]. simplify_eq. left.
  - eapply dseg_set_prev; [done| |exact Hn|exact H2].
    intros x Hx Hne. apply Hv; [intros ->; done| |done].
    intros Hl. apply (Hd x); [by apply last_Some_elem_of|done].
Qed.

(** Inserting [l] between [l1] and [l2]. *)
Lemma dseg_link v v' l1 l l2 :
  NoDup (l1 ++ l2) -> (l ∉ l1 ++ l2) ->
  v' l = Some (last l1, head l2) ->
  (forall x, x <> l -> last l1 <> Some x -> head l2 <> Some x -> v' x = v x) ->
  (forall x, last l1 = Some x -> v' x = set_snd (Some l) (v x)) ->
  (forall x, head l2 = Some x -> v' x = set_fst (Some l) (v x)) ->
  dseg v None (l1 ++ l2) None -> dseg v' None (l1 ++ l :: l2) None.
Proof.
  intros Hnd Hni Hl Hv Hp Hn. rewrite !dseg_app. simpl. rewrite last_or_None, !hd_or_None.
  apply NoDup_app in Hnd as (Hnd1 & Hd & Hnd2). rewrite elem_of_app in Hni.
  intros (H1 & H2). split; [|split; [done|]].
  - eapply dseg_set_next; [done| |exact Hp|exact H1].
    intros x Hx Hne. apply Hv; [intros ->; tauto|done|].
    intros Hh. apply (Hd x Hx). destruct l2; simpl in Hh; [done|]. simplify_eq. left.
  - eapply dseg_set_prev; [done| |exact Hn|exact H2].
    intros x Hx Hne. apply Hv; [intros ->; tauto| |done].
    intros Hlast. apply (Hd x); [by apply last_Some_elem_of|done].
Qed.

Lemma sseg_ext (v v' : L -> option (option L)) ls : (forall x, x ∈ ls -> v' x = v x) -> sseg v ls -> sseg v' ls.
Proof.
  induction ls as [|l r IH]; [done|]. simpl. intros Hv [H1 H2].
  split; [rewrite Hv by left; done|]. apply IH; [|done]. intros x Hx. apply Hv. by right.
Qed.

Lemma sseg_app (v : L -> option (option L)) l1 l2 :
  sseg v (l1 ++ l2) -> sseg v l2.
Proof. induction l1; [done|]. simpl. tauto. Qed.

Lemma sseg_lookup (v : L -> option (option L)) l1 l l2 : sseg v (l1 ++ l :: l2) -> v l = Some (head l2).
Proof. intros H%sseg_app. simpl in H. tauto. Qed.

(** Removing [l] after [x]: the next link of [x] skips [l]. *)
Lemma sseg_unlink (v v' : L -> option (option L)) l1 l l2 :
  NoDup (l1 ++ l :: l2) ->
  (forall x, x <> l -> last l1 <> Some x -> v' x = v x) ->
  (forall x, last l1 = Some x -> v' x = Some (head l2)) ->
  sseg v (l1 ++ l :: l2) -> sseg v' (l1 ++ l2).
Proof.
  induction l1 as [|x r IH]; cbn [app sseg].
  - intros [Hl Hnd]%NoDup_cons Hv _ [_ H2]. eapply sseg_ext; [|exact H2].
    intros y Hy. apply Hv; [intros ->; done|done].
  - intros [Hx Hnd]%NoDup_cons Hv Hp [H1 H2].
    assert (Hxl : x <> l) by (intros ->; clear -Hx; set_solver).
    destruct r as [|y r']; cbn [app sseg head] in *.
    + split; [by apply Hp|]. apply NoDup_cons in Hnd as [Hl Hnd]. eapply sseg_ext; [|exact (proj2 H2)].
      intros y Hy. apply Hv; [intros ->; done|]. intros [= ->]. set_solver.
    + split.
      * rewrite Hv; [done|done|]. rewrite last_cons_cons. intros Hlast%last_Some_elem_of. set_solver.
      * apply IH; [done| |intros z Hz; apply Hp; by rewrite last_cons_cons|done].
        intros z Hz1 Hz2. apply Hv; [done|]. by rewrite last_cons_cons.
Qed.

End dlist.
