(* ===== verification/SwapTlsf.v ===== *)
(** The swap-buffer allocator of enpu-manager/core/src/shm_manager.c
    (lines 1088-1586): the block headers malloc'd by the manager, the global
    [g_tlsf_mgr] and every operation on it.

    The headers are cells of an explicit heap, linked by pointers exactly as
    in the source: [next_free]/[prev_free] thread a block through the free
    list of its size class or through the used list, [prev_phys]/[next_phys]
    through the blocks in address order.  Dereferencing a pointer that is not
    allocated, or walking a list longer than the heap, is [None]: theorems
    that an operation returns [Some] are memory-safety and termination
    theorems. *)

From S2P Require Import Prelude.

Abbreviation loc := positive.

Definition TLSF_ALIGN_LOG2 : Z := 6.
Definition TLSF_ALIGN : Z := 64.
Definition TLSF_MAX_FL : Z := 30.
Definition TLSF_MAX_SL : Z := 16.

(** [struct TLSFBlockHeader]; bit 0 of [blk_size] is the used flag. *)
Record TLSFBlockHeader := mk_block {
  blk_size : Z;
  next_free : option loc;
  prev_free : option loc;
  prev_phys : option loc;
  next_phys : option loc;
  data_offset : Z;
}.

Definition set_blk_size (s : Z) (b : TLSFBlockHeader) : TLSFBlockHeader :=
  mk_block s (next_free b) (prev_free b) (prev_phys b) (next_phys b) (data_offset b).
Definition set_next_free (p : option loc) (b : TLSFBlockHeader) : TLSFBlockHeader :=
  mk_block (blk_size b) p (prev_free b) (prev_phys b) (next_phys b) (data_offset b).
Definition set_prev_free (p : option loc) (b : TLSFBlockHeader) : TLSFBlockHeader :=
  mk_block (blk_size b) (next_free b) p (prev_phys b) (next_phys b) (data_offset b).
Definition set_prev_phys (p : option loc) (b : TLSFBlockHeader) : TLSFBlockHeader :=
  mk_block (blk_size b) (next_free b) (prev_free b) p (next_phys b) (data_offset b).
Definition set_next_phys (p : option loc) (b : TLSFBlockHeader) : TLSFBlockHeader :=
  mk_block (blk_size b) (next_free b) (prev_free b) (prev_phys b) p (data_offset b).

Abbreviation heap_t := (gmap loc TLSFBlockHeader).

(** [TLSFManager]; [free_list] is the array [free_list[30][16]] in memory
    order, so class [(fl, sl)] is entry [fl * 16 + sl]. *)
Record TLSFManager := mk_mgr {
  heap : heap_t;
  initialized : bool;
  free_list : list (option loc);
  used_list : option loc;
  shm_base : Z;
  shm_total_size : Z;
  total_used : Z;
}.

Definition set_heap (h : heap_t) (m : TLSFManager) : TLSFManager :=
  mk_mgr h (initialized m) (free_list m) (used_list m) (shm_base m) (shm_total_size m) (total_used m).
Definition set_free_list (f : list (option loc)) (m : TLSFManager) : TLSFManager :=
  mk_mgr (heap m) (initialized m) f (used_list m) (shm_base m) (shm_total_size m) (total_used m).
Definition set_used_list (u : option loc) (m : TLSFManager) : TLSFManager :=
  mk_mgr (heap m) (initialized m) (free_list m) u (shm_base m) (shm_total_size m) (total_used m).
Definition set_total_used (t : Z) (m : TLSFManager) : TLSFManager :=
  mk_mgr (heap m) (initialized m) (free_list m) (used_list m) (shm_base m) (shm_total_size m) t.

(** A zero-filled [g_tlsf_mgr] (static storage, and after [memset_s]). *)
Definition tlsf_zero : TLSFManager :=
  mk_mgr ∅ false (replicate 480 None) None 0 0 0.

(** What the C library answers to one call: the result of
    [pthread_mutex_lock] and of [malloc], [None] for NULL, otherwise the
    address and the garbage that the size word of the new header holds. *)
Record libc := mk_libc {
  lock_rc : Z;
  malloc_ret : option (loc * Z);
}.

(** * Block headers *)

Definition block_get_size (b : TLSFBlockHeader) : Z := Z.land (blk_size b) (low_clear 1).
Definition block_is_used (b : TLSFBlockHeader) : bool := negb (Z.land (blk_size b) 1 =? 0).
Definition block_set_size (s : Z) (b : TLSFBlockHeader) : TLSFBlockHeader :=
  set_blk_size (Z.lor s (Z.land (blk_size b) 1)) b.
Definition block_mark_as_free (b : TLSFBlockHeader) : TLSFBlockHeader :=
  set_blk_size (Z.land (blk_size b) (low_clear 1)) b.
Definition block_mark_as_used (b : TLSFBlockHeader) : TLSFBlockHeader :=
  set_blk_size (Z.lor (blk_size b) 1) b.

(** A store through a header pointer that the code does not test. *)
Definition store (l : loc) (f : TLSFBlockHeader -> TLSFBlockHeader) (h : heap_t) : option heap_t :=
  b ← h !! l; Some (<[l := f b]> h).

(** The same through a pointer that the code tests against NULL first. *)
Definition store_opt (p : option loc) (f : TLSFBlockHeader -> TLSFBlockHeader) (h : heap_t) : option heap_t :=
  match p with Some l => store l f h | None => Some h end.

(** * Size classes *)

Definition tlsf_calc_fl_sl (size : Z) : Z * Z :=
  let a := align_up TLSF_ALIGN_LOG2 size in
  let align_sz := if a <? TLSF_ALIGN then TLSF_ALIGN else a in
  if align_sz <? 256 then (0, (align_sz - 1) / 16)
  else
    let log2_val := Z.log2 align_sz in
    let fl := log2_val in
    let sl := Z.land (Z.shiftr align_sz (fl - 4)) (TLSF_MAX_SL - 1) in
    (if TLSF_MAX_FL <=? fl then TLSF_MAX_FL - 1 else fl,
     if TLSF_MAX_SL <=? sl then TLSF_MAX_SL - 1 else sl).

Definition class_of (size : Z) : nat :=
  let '(fl, sl) := tlsf_calc_fl_sl size in Z.to_nat (fl * TLSF_MAX_SL + sl).

(** * Free lists and the used list *)

Definition tlsf_insert_free_block (m : TLSFManager) (blk : loc) : option TLSFManager :=
  b ← heap m !! blk;
  let k := class_of (block_get_size b) in
  hd ← free_list m !! k;
  let h1 := <[blk := set_next_free hd (set_prev_free None b)]> (heap m) in
  h2 ← store_opt hd (set_prev_free (Some blk)) h1;
  Some (set_free_list (<[k := Some blk]> (free_list m)) (set_heap h2 m)).

Definition tlsf_remove_free_block (m : TLSFManager) (blk : loc) : option TLSFManager :=
  b ← heap m !! blk;
  let k := class_of (block_get_size b) in
  '(fl, h1) ← match prev_free b with
              | Some p => h ← store p (set_next_free (next_free b)) (heap m); Some (free_list m, h)
              | None => _ ← free_list m !! k; Some (<[k := next_free b]> (free_list m), heap m)
              end;
  b1 ← h1 !! blk;
  h2 ← store_opt (next_free b1) (set_prev_free (prev_free b1)) h1;
  h3 ← store blk (fun b => set_next_free None (set_prev_free None b)) h2;
  Some (set_free_list fl (set_heap h3 m)).

Definition tlsf_insert_used_block (m : TLSFManager) (blk : loc) : option TLSFManager :=
  h ← store blk (set_next_free (used_list m)) (heap m);
  Some (set_used_list (Some blk) (set_heap h m)).

(** The pointer-to-pointer walk of [tlsf_remove_used_block]: [prev] says
    which word [p] points to, [&mgr->used_list] or [&prev->next_free]. *)
Fixpoint remove_used_loop (fuel : nat) (m : TLSFManager) (blk : loc) (prev cur : option loc) :
    option TLSFManager :=
  match cur with
  | None => Some m
  | Some c =>
      match fuel with
      | O => None
      | S n =>
          cb ← heap m !! c;
          if decide (c = blk) then
            m1 ← match prev with
                 | None => Some (set_used_list (next_free cb) m)
                 | Some q => h ← store q (set_next_free (next_free cb)) (heap m); Some (set_heap h m)
                 end;
            h ← store blk (set_next_free None) (heap m1);
            Some (set_heap h m1)
          else remove_used_loop n m blk cur (next_free cb)
      end
  end.

Definition tlsf_remove_used_block (m : TLSFManager) (blk : loc) : option TLSFManager :=
  remove_used_loop (size (heap m)) m blk None (used_list m).

(** [while (cur) { if (p(cur)) return cur; cur = cur->next_free; }] *)
Fixpoint walk (fuel : nat) (h : heap_t) (p : TLSFBlockHeader -> bool) (cur : option loc) :
    option (option loc) :=
  match cur with
  | None => Some None
  | Some c =>
      match fuel with
      | O => None
      | S n => b ← h !! c; if p b then Some (Some c) else walk n h p (next_free b)
      end
  end.

(** The loop nest over [free_list[i][j]], in memory order. *)
Fixpoint walk_classes (h : heap_t) (p : TLSFBlockHeader -> bool) (heads : list (option loc)) :
    option (option loc) :=
  match heads with
  | [] => Some None
  | hd :: rest =>
      r ← walk (size h) h p hd;
      match r with Some l => Some (Some l) | None => walk_classes h p rest end
  end.

Definition tlsf_find_block_by_offset (m : TLSFManager) (offset : Z) : option (option loc) :=
  let p b := data_offset b =? offset in
  r ← walk (size (heap m)) (heap m) p (used_list m);
  match r with
  | Some l => Some (Some l)
  | None => walk_classes (heap m) p (free_list m)
  end.

Definition tlsf_find_block (m : TLSFManager) (size : Z) : option (option loc) :=
  let '(fl, _) := tlsf_calc_fl_sl size in
  walk_classes (heap m) (fun b => size <=? block_get_size b)
    (drop (Z.to_nat (fl * TLSF_MAX_SL)) (free_list m)).

(** * Split, initialise, allocate, free *)

Definition tlsf_split_block (c : libc) (m : TLSFManager) (blk : loc) (need : Z) : option TLSFManager :=
  b ← heap m !! blk;
  let remain := u64 (block_get_size b - need) in
  if remain <? TLSF_ALIGN then Some m
  else
    match malloc_ret c with
    | None => Some m
    | Some (new_blk, junk) =>
        let new_off := u64 (data_offset b + need) in
        let nb := block_mark_as_free
                    (block_set_size remain
                       (mk_block junk None None (Some blk) (next_phys b) new_off)) in
        let h1 := <[new_blk := nb]> (heap m) in
        h2 ← store_opt (next_phys b) (set_prev_phys (Some new_blk)) h1;
        h3 ← store blk (set_next_phys (Some new_blk)) h2;
        h4 ← store blk (block_set_size need) h3;
        tlsf_insert_free_block (set_heap h4 m) new_blk
    end.

(** Returns the code of [tlsf_pool_init] and the manager. *)
Definition tlsf_pool_init (c : libc) (base size : Z) (m : TLSFManager) : option (Z * TLSFManager) :=
  if initialized m then Some (0, m)
  else if negb (lock_rc c =? 0) then Some (-1, m)
  else
    let m1 := mk_mgr (heap m) false (replicate 480 None) None base size 0 in
    match malloc_ret c with
    | None => Some (-1, m1)
    | Some (start_blk, junk) =>
        let sb := block_mark_as_free (block_set_size size (mk_block junk None None None None 0)) in
        m2 ← tlsf_insert_free_block (set_heap (<[start_blk := sb]> (heap m1)) m1) start_blk;
        Some (0, mk_mgr (heap m2) true (free_list m2) (used_list m2) (shm_base m2)
                        (shm_total_size m2) (total_used m2))
    end.

(** Returns the offset, [UINT64_MAX] for failure. *)
Definition tlsf_alloc (c : libc) (size : Z) (m : TLSFManager) : option (Z * TLSFManager) :=
  if negb (initialized m) || (size =? 0) then Some (UINT64_MAX, m)
  else if negb (lock_rc c =? 0) then Some (UINT64_MAX, m)
  else
    let alloc_sz := align_up TLSF_ALIGN_LOG2 size in
    r ← tlsf_find_block m alloc_sz;
    match r with
    | None => Some (UINT64_MAX, m)
    | Some blk =>
        m1 ← tlsf_remove_free_block m blk;
        m2 ← tlsf_split_block c m1 blk alloc_sz;
        h ← store blk block_mark_as_used (heap m2);
        m3 ← tlsf_insert_used_block (set_heap h m2) blk;
        b ← heap m3 !! blk;
        Some (data_offset b, set_total_used (u64 (total_used m3 + block_get_size b)) m3)
    end.

(** The backward merge of [tlsf_free]: the surviving block and the manager. *)
Definition merge_prev (m : TLSFManager) (blk : loc) : option (loc * TLSFManager) :=
  b ← heap m !! blk;
  match prev_phys b with
  | None => Some (blk, m)
  | Some prev =>
      pb ← heap m !! prev;
      if block_is_used pb then Some (blk, m)
      else
        m1 ← tlsf_remove_free_block m prev;
        pb1 ← heap m1 !! prev;
        b1 ← heap m1 !! blk;
        let total := u64 (block_get_size pb1 + block_get_size b1) in
        h2 ← store prev (block_set_size total) (heap m1);
        h3 ← store prev (set_next_phys (next_phys b1)) h2;
        h4 ← store_opt (next_phys b1) (set_prev_phys (Some prev)) h3;
        Some (prev, set_heap (delete blk h4) m1)
  end.

(** The forward merge of [tlsf_free]. *)
Definition merge_next (m : TLSFManager) (blk : loc) : option TLSFManager :=
  b ← heap m !! blk;
  match next_phys b with
  | None => Some m
  | Some next =>
      nb ← heap m !! next;
      if block_is_used nb then Some m
      else
        m1 ← tlsf_remove_free_block m next;
        b1 ← heap m1 !! blk;
        nb1 ← heap m1 !! next;
        let total := u64 (block_get_size b1 + block_get_size nb1) in
        h2 ← store blk (block_set_size total) (heap m1);
        h3 ← store blk (set_next_phys (next_phys nb1)) h2;
        h4 ← store_opt (next_phys nb1) (set_prev_phys (Some blk)) h3;
        Some (set_heap (delete next h4) m1)
  end.

Definition tlsf_free (c : libc) (offset : Z) (m : TLSFManager) : option TLSFManager :=
  if negb (initialized m) || (shm_total_size m <=? offset) then Some m
  else if negb (lock_rc c =? 0) then Some m
  else
    r ← tlsf_find_block_by_offset m offset;
    match r with
    | None => Some m
    | Some blk =>
        b ← heap m !! blk;
        if negb (block_is_used b) then Some m
        else
          m1 ← tlsf_remove_used_block m blk;
          b1 ← heap m1 !! blk;
          let m2 := set_total_used (u64 (total_used m1 - block_get_size b1)) m1 in
          h ← store blk block_mark_as_free (heap m2);
          '(blk', m3) ← merge_prev (set_heap h m2) blk;
          m4 ← merge_next m3 blk';
          tlsf_insert_free_block m4 blk'
    end.

(** [shm_swap_buffer_get_status]: (used, free, total). *)
Definition shm_swap_buffer_get_status (m : TLSFManager) : Z * option (Z * Z * Z) :=
  if negb (initialized m) then (ENPU_FAIL, None)
  else
    let total := shm_total_size m in
    let used := total_used m in
    let free := if used <? total then u64 (total - used) else 0 in
    (ENPU_SUCCESS, Some (used, free, total)).
