(* ===== verification/SwapTlsfInv.v ===== *)
(** Generic facts used by the swap-buffer allocator proofs: the bits of a
    size word, size classes, views of a heap of headers and doubly linked
    lists over a view. *)

From S2P Require Import Prelude SwapTlsf.

(** * Size words *)

Lemma block_get_size_eq b :
  is_u64 (blk_size b) -> block_get_size b = 2 * (blk_size b / 2).
Proof.
  intros H. unfold block_get_size. rewrite (land_low_clear 1) by (done || lia).
  by rewrite Z.pow_1_r.
Qed.

Lemma block_is_used_eq b : block_is_used b = negb (blk_size b mod 2 =? 0).
Proof.
  unfold block_is_used. change 1 with (Z.ones 1) at 1.
  by rewrite Z.land_ones, Z.pow_1_r by lia.
Qed.

Lemma lor_even_bit s r : s mod 2 = 0 -> Z.lor s (Z.land r 1) = s + r mod 2.
Proof.
  intros Hs. change 1 with (Z.ones 1) at 1. rewrite Z.land_ones, Z.pow_1_r by lia.
  pose proof (Z.add_lor_land s (r mod 2)) as E.
  assert (Z.land s (r mod 2) = 0) as H0; [|lia].
  rewrite (Zmod_odd r). destruct (Z.odd r).
  - change 1 with (Z.ones 1). rewrite Z.land_ones by lia. by rewrite Z.pow_1_r.
  - apply Z.land_0_r.
Qed.

(** The attributes of a header that the layout is about. *)
Abbreviation seg := (Z * Z * bool)%type.
Definition seg_of (b : TLSFBlockHeader) : seg := (data_offset b, block_get_size b, block_is_used b).

Lemma raw_mark_free b : is_u64 (blk_size b) -> is_u64 (blk_size (block_mark_as_free b)).
Proof.
  intros H. pose proof (block_get_size_eq b H) as E. unfold block_get_size in E.
  simpl. rewrite E. mzlia.
Qed.

Lemma seg_mark_free b :
  is_u64 (blk_size b) ->
  seg_of (block_mark_as_free b) = (data_offset b, block_get_size b, false).
Proof.
  intros H. pose proof (raw_mark_free b H) as H'. unfold seg_of.
  rewrite block_is_used_eq, (block_get_size_eq (block_mark_as_free b)), !block_get_size_eq by done.
  pose proof (block_get_size_eq b H) as E. unfold block_get_size in E.
  simpl. rewrite E. f_equal; [f_equal; zlia|]. case (Z.eqb_spec); [done|zlia].
Qed.

Lemma lor_one x : 0 <= x -> Z.lor x 1 = 2 * (x / 2) + 1.
Proof.
  intros Hx. pose proof (Z.add_lor_land x 1) as E.
  assert (Z.land x 1 = x mod 2) as Hl.
  { change 1 with (Z.ones 1). rewrite Z.land_ones by lia. by rewrite Z.pow_1_r. }
  pose proof (Z.div_mod x 2 ltac:(lia)). lia.
Qed.

Lemma raw_mark_used b : is_u64 (blk_size b) -> is_u64 (blk_size (block_mark_as_used b)).
Proof.
  intros H. unfold is_u64 in *. simpl. rewrite lor_one by lia. mzlia.
Qed.

Lemma seg_mark_used b :
  is_u64 (blk_size b) ->
  seg_of (block_mark_as_used b) = (data_offset b, block_get_size b, true).
Proof.
  intros H. pose proof (raw_mark_used b H) as H'. unfold seg_of.
  rewrite block_is_used_eq, !block_get_size_eq by done. unfold is_u64 in *.
  simpl. rewrite lor_one by lia. f_equal; [f_equal; zlia|]. case (Z.eqb_spec); [zlia|done].
Qed.

Lemma raw_set_size s b :
  s mod 2 = 0 -> 0 <= s < U64_MOD -> is_u64 (blk_size (block_set_size s b)).
Proof.
  intros Hs Hr. unfold is_u64. simpl. rewrite lor_even_bit by done. mzlia.
Qed.

Lemma seg_set_size s b :
  s mod 2 = 0 -> 0 <= s < U64_MOD ->
  seg_of (block_set_size s b) = (data_offset b, s, block_is_used b).
Proof.
  intros Hs Hr. pose proof (raw_set_size s b Hs Hr) as H'. unfold seg_of.
  rewrite !block_is_used_eq, block_get_size_eq by done. simpl. rewrite lor_even_bit by done.
  f_equal; [f_equal; zlia|]. f_equal. do 2 case Z.eqb_spec; intros; zlia || done.
Qed.

(** * Size classes *)

Lemma calc_fl_sl_range size fl sl :
  tlsf_calc_fl_sl size = (fl, sl) -> 0 <= fl < TLSF_MAX_FL ∧ 0 <= sl < TLSF_MAX_SL.
Proof.
  unfold tlsf_calc_fl_sl, TLSF_MAX_FL, TLSF_MAX_SL, TLSF_ALIGN. intros E.
  set (a := align_up _ _) in *.
  set (z := if a <? 64 then 64 else a) in *.
  assert (64 <= z) by (subst z; destruct (Z.ltb_spec a 64); lia).
  destruct (Z.ltb_spec z 256) as [Hz|Hz].
  - injection E as <- <-. split; [lia|]. split; [apply Z.div_pos; lia|apply Z.div_lt_upper_bound; lia].
  - pose proof (Z.log2_nonneg z).
    assert (0 <= Z.land (z ≫ (Z.log2 z - 4)) (16 - 1)).
    { apply Z.land_nonneg. right. lia. }
    destruct (Z.leb_spec 30 (Z.log2 z)), (Z.leb_spec 16 (Z.land (z ≫ (Z.log2 z - 4)) (16 - 1)));
      injection E as <- <-; lia.
Qed.

Lemma class_of_lt s : (class_of s < 480)%nat.
Proof.
  unfold class_of. destruct (tlsf_calc_fl_sl s) as [fl sl] eqn:E.
  apply calc_fl_sl_range in E. unfold TLSF_MAX_FL, TLSF_MAX_SL in *. lia.
Qed.

Lemma align_up_mono n x y :
  0 <= n <= 64 -> 0 <= x <= y -> y + 2 ^ n - 1 < U64_MOD -> align_up n x <= align_up n y.
Proof.
  intros Hn Hxy Hov. rewrite !align_up_eq by lia.
  assert (0 < 2 ^ n) by (apply Z.pow_pos_nonneg; lia).
  apply Z.mul_le_mono_nonneg_l; [lia|]. apply Z.div_le_mono; lia.
Qed.

Lemma calc_fl_mono x y :
  0 <= x <= y -> y + 63 < U64_MOD -> (tlsf_calc_fl_sl x).1 <= (tlsf_calc_fl_sl y).1.
Proof.
  intros Hxy Hov.
  assert (Ha : align_up TLSF_ALIGN_LOG2 x <= align_up TLSF_ALIGN_LOG2 y)
    by (apply align_up_mono; unfold TLSF_ALIGN_LOG2; lia).
  unfold tlsf_calc_fl_sl, TLSF_ALIGN, TLSF_MAX_FL in *.
  set (ax := align_up _ x) in *. set (ay := align_up _ y) in *.
  set (zx := if ax <? 64 then 64 else ax). set (zy := if ay <? 64 then 64 else ay).
  assert (Hz : zx <= zy) by (subst zx zy; destruct (Z.ltb_spec ax 64), (Z.ltb_spec ay 64); lia).
  pose proof (Z.log2_le_mono _ _ Hz). pose proof (Z.log2_nonneg zy).
  destruct (Z.ltb_spec zx 256), (Z.ltb_spec zy 256); cbn; try lia;
    destruct (Z.leb_spec 30 (Z.log2 zx)), (Z.leb_spec 30 (Z.log2 zy)); lia.
Qed.

(** Every block at least as large as [x] is in a class that the scan of
    [tlsf_find_block] for [x] reaches. *)
Lemma class_of_scanned x y :
  0 <= x <= y -> y + 63 < U64_MOD ->
  (Z.to_nat ((tlsf_calc_fl_sl x).1 * TLSF_MAX_SL) <= class_of y)%nat.
Proof.
  intros Hxy Hov. pose proof (calc_fl_mono x y Hxy Hov). unfold class_of.
  destruct (tlsf_calc_fl_sl y) as [fl sl] eqn:E. cbn in *.
  apply calc_fl_sl_range in E. unfold TLSF_MAX_SL in *. lia.
Qed.

(** The representation invariant of the swap-buffer allocator and the lemmas
    that each step of its operations keeps it.

    [Rep m ph D] ties the pointers of the manager [m] to the ghost list [ph]
    of its blocks in address order, each with its offset, size and used flag:
    the physical links thread [ph], the free list of each size class threads
    exactly the free blocks of that class and the used list exactly the used
    blocks, except for the blocks of [D], which the operation in progress has
    taken out of the lists. *)

From S2P Require Import Dlist.
Definition fview (h : heap_t) (l : loc) : option (option loc * option loc) :=
  (fun b => (prev_free b, next_free b)) <$> h !! l.
Definition pview (h : heap_t) (l : loc) : option (option loc * option loc) :=
  (fun b => (prev_phys b, next_phys b)) <$> h !! l.
Definition nview (h : heap_t) (l : loc) : option (option loc) := next_free <$> h !! l.

(** The part of a header that the free and used lists leave alone. *)
Definition cview (h : heap_t) (l : loc) : option (Z * Z * option loc * option loc) :=
  (fun b => (blk_size b, data_offset b, prev_phys b, next_phys b)) <$> h !! l.

Abbreviation layout := (list (loc * seg)).

Record Phys (h : heap_t) (ph : layout) : Prop := {
  phys_dom : forall l, is_Some (h !! l) <-> l ∈ ph.*1;
  phys_nd : NoDup ph.*1;
  phys_seg : forall l s, (l, s) ∈ ph -> exists b, h !! l = Some b ∧ seg_of b = s ∧ is_u64 (blk_size b);
  phys_links : dseg (pview h) None ph.*1 None;
}.

Record Links (m : TLSFManager) (ph : layout) (us : list loc) (fs : nat -> list loc) (D : list loc) : Prop := {
  links_len : length (free_list m) = 480%nat;
  links_heads : forall k, (k < 480)%nat -> free_list m !! k = Some (head (fs k));
  links_free : forall k, dseg (fview (heap m)) None (fs k) None;
  links_fnd : forall k, NoDup (fs k);
  links_fmem : forall k l, l ∈ fs k <-> exists o s, (l, (o, s, false)) ∈ ph ∧ (l ∉ D) ∧ class_of s = k;
  links_uhead : used_list m = head us;
  links_used : sseg (nview (heap m)) us;
  links_und : NoDup us;
  links_umem : forall l, l ∈ us <-> exists o s, (l, (o, s, true)) ∈ ph ∧ (l ∉ D);
}.

Definition Rep (m : TLSFManager) (ph : layout) (D : list loc) : Prop :=
  Phys (heap m) ph ∧ exists us fs, Links m ph us fs D.

(** The fields that the list operations do not touch. *)
Definition meta (m : TLSFManager) : bool * Z * Z * Z :=
  (initialized m, shm_base m, shm_total_size m, total_used m).

(** A store through a pointer that may be NULL, as a function. *)
Definition alter_opt (f : TLSFBlockHeader -> TLSFBlockHeader) (p : option loc) (h : heap_t) : heap_t :=
  match p with Some l => alter f l h | None => h end.

(** * Views *)

Lemma nview_fview h l : nview h l = snd <$> fview h l.
Proof. unfold nview, fview. by destruct (h !! l). Qed.

Lemma dseg_sseg h p ls : dseg (fview h) p ls None -> sseg (nview h) ls.
Proof.
  revert p. induction ls as [|l r IH]; intros p; [done|]. simpl. intros [H1 H2].
  rewrite nview_fview, H1, hd_or_None. split; [done|]. by eapply IH.
Qed.

Lemma phys_cview h h' ph : (forall l, cview h' l = cview h l) -> Phys h ph -> Phys h' ph.
Proof.
  intros E [Hd Hn Hs Hl]. constructor; [|done| |].
  - intros l. rewrite <- Hd. specialize (E l). unfold cview in E.
    destruct (h !! l), (h' !! l); simpl in *; split; intros [? ?]; eauto; done.
  - intros l s Hin. destruct (Hs l s Hin) as (b & Hb & <- & Hu). specialize (E l).
    unfold cview in E. rewrite Hb in E. destruct (h' !! l) as [b'|]; simplify_eq/=.
    exists b'. split; [done|]. unfold seg_of, block_get_size, block_is_used. split; congruence.
  - eapply dseg_ext; [|exact Hl]. intros l _. specialize (E l). unfold cview, pview in *.
    destruct (h !! l), (h' !! l); simplify_eq/=; congruence.
Qed.

Lemma rep_lookup m ph D l s :
  Rep m ph D -> (l, s) ∈ ph -> exists b, heap m !! l = Some b ∧ seg_of b = s ∧ is_u64 (blk_size b).
Proof. intros [P _]. apply (phys_seg _ _ P). Qed.

Lemma phys_key h ph l s s' : Phys h ph -> (l, s) ∈ ph -> (l, s') ∈ ph -> s = s'.
Proof.
  intros P H1 H2. destruct (phys_seg _ _ P _ _ H1) as (b & Hb & <- & _).
  destruct (phys_seg _ _ P _ _ H2) as (b' & Hb' & <- & _). by simplify_eq.
Qed.

(** A header's physical neighbours are its neighbours in the layout. *)
Lemma phys_neighbours h ph1 l s ph2 :
  Phys h (ph1 ++ (l, s) :: ph2) ->
  exists b, h !! l = Some b ∧ seg_of b = s ∧ is_u64 (blk_size b)
    ∧ prev_phys b = last ph1.*1 ∧ next_phys b = head ph2.*1.
Proof.
  intros P. destruct (phys_seg _ _ P l s) as (b & Hb & Hs & Hu); [set_solver|].
  exists b. pose proof (phys_links _ _ P) as H. rewrite fmap_app in H. simpl in H.
  apply dseg_lookup in H. unfold pview in H. rewrite Hb in H. by simplify_eq/=.
Qed.

(** Only the free links of blocks in a list matter to [Links]. *)
Lemma links_move m m' ph ph' us fs D D' :
  Links m ph us fs D ->
  free_list m' = free_list m -> used_list m' = used_list m ->
  (forall l s, (l, s) ∈ ph -> (l ∉ D) -> fview (heap m') l = fview (heap m) l) ->
  (forall l s, (l, s) ∈ ph ∧ (l ∉ D) <-> (l, s) ∈ ph' ∧ (l ∉ D')) ->
  Links m' ph' us fs D'.
Proof.
  intros [A1 A2 A3 A4 A5 A6 A7 A8 A9] E1 E2 Hv Hm. rewrite <- E1 in *. rewrite <- E2 in *.
  constructor; try done.
  - intros k. eapply dseg_ext; [|apply A3]. intros l (o & s & H1 & H2 & _)%A5. by eapply Hv.
  - intros k l. rewrite A5. split; intros (o & s & H1 & H2 & H3); exists o, s;
      destruct (Hm l (o, s, false)); tauto.
  - eapply sseg_ext; [|apply A7]. intros l (o & s & H1 & H2)%A9.
    rewrite !nview_fview. f_equal. by eapply Hv.
  - intros l. rewrite A9. split; intros (o & s & H); exists o, s; by apply Hm in H || apply Hm.
Qed.

(** * Stores *)

Lemma store_alter l f h : is_Some (h !! l) -> store l f h = Some (alter f l h).
Proof.
  intros [b Hb]. unfold store. rewrite Hb. simpl. f_equal. apply map_eq. intros x.
  destruct (decide (x = l)) as [->|]; by simplify_map_eq.
Qed.

Lemma store_opt_alter p f h :
  (forall l, p = Some l -> is_Some (h !! l)) -> store_opt p f h = Some (alter_opt f p h).
Proof. destruct p; simpl; [|done]. intros H. by apply store_alter, H. Qed.

Lemma insert_alter f l b (h : heap_t) : h !! l = Some b -> <[l := f b]> h = alter f l h.
Proof. intros Hb. pose proof (store_alter l f h (ex_intro _ b Hb)) as H. unfold store in H. rewrite Hb in H. by simplify_eq/=. Qed.

Lemma is_Some_alter_opt f p (h : heap_t) x : is_Some (alter_opt f p h !! x) <-> is_Some (h !! x).
Proof. destruct p as [l|]; simpl; [|done]. by rewrite lookup_alter_is_Some. Qed.

Lemma alter_opt_Some f l h : alter_opt f (Some l) h = alter f l h.
Proof. done. Qed.

Lemma view_alter_opt {A} (proj : TLSFBlockHeader -> A) (g : A -> A) f p h x :
  (forall b, proj (f b) = g (proj b)) ->
  proj <$> (alter_opt f p h !! x) = if decide (p = Some x) then g <$> (proj <$> h !! x) else proj <$> h !! x.
Proof.
  intros Hf. destruct p as [l|]; [|by rewrite decide_False]. rewrite alter_opt_Some.
  destruct (decide (l = x)) as [->|Hne].
  - rewrite decide_True by done. rewrite lookup_alter_eq. destruct (h !! x); simpl; [|done].
    by rewrite Hf.
  - rewrite decide_False by congruence. by rewrite lookup_alter_ne.
Qed.

Lemma view_alter_opt_id {A} (proj : TLSFBlockHeader -> A) f p h x :
  (forall b, proj (f b) = proj b) -> proj <$> (alter_opt f p h !! x) = proj <$> h !! x.
Proof.
  intros Hf. rewrite (view_alter_opt proj id) by done.
  by destruct (decide _), (h !! x).
Qed.

Lemma fview_next n p h x :
  fview (alter_opt (set_next_free n) p h) x
  = if decide (p = Some x) then set_snd n (fview h x) else fview h x.
Proof. by apply view_alter_opt. Qed.

Lemma fview_prev n p h x :
  fview (alter_opt (set_prev_free n) p h) x
  = if decide (p = Some x) then set_fst n (fview h x) else fview h x.
Proof. by apply view_alter_opt. Qed.

Lemma pview_next n p h x :
  pview (alter_opt (set_next_phys n) p h) x
  = if decide (p = Some x) then set_snd n (pview h x) else pview h x.
Proof. by apply view_alter_opt. Qed.

Lemma pview_prev n p h x :
  pview (alter_opt (set_prev_phys n) p h) x
  = if decide (p = Some x) then set_fst n (pview h x) else pview h x.
Proof. by apply view_alter_opt. Qed.

(** * Free lists *)

Lemma links_split m ph us fs D l o s :
  Links m ph us fs D -> (l, (o, s, false)) ∈ ph -> (l ∉ D) ->
  exists l1 l2, fs (class_of s) = l1 ++ l :: l2 ∧ fview (heap m) l = Some (last l1, head l2)
    ∧ (forall x, last l1 = Some x -> is_Some (heap m !! x))
    ∧ (forall x, head l2 = Some x -> is_Some (heap m !! x)).
Proof.
  intros L Hin HD. assert (Hl : l ∈ fs (class_of s)) by (apply (links_fmem _ _ _ _ _ L); eauto).
  apply list_elem_of_split in Hl as (l1 & l2 & E). exists l1, l2. split; [done|].
  pose proof (links_free _ _ _ _ _ L (class_of s)) as Hf. rewrite E in Hf.
  split; [by apply dseg_lookup|].
  assert (Hall : forall x, x ∈ l1 ++ l :: l2 -> is_Some (heap m !! x)).
  { intros x Hx. apply list_elem_of_split in Hx as (y1 & y2 & E'). rewrite E' in Hf.
    apply dseg_lookup in Hf. unfold fview in Hf. destruct (heap m !! x); [eauto|done]. }
  split; intros x Hx; apply Hall.
  - apply last_Some_elem_of in Hx. set_solver.
  - destruct l2; simplify_eq/=. set_solver.
Qed.

(** Linking one block in or out of the list of class [k] keeps every other list. *)
Lemma links_update m m' ph us fs D D' k ls :
  Links m ph us fs D ->
  (k < 480)%nat -> NoDup ls ->
  free_list m' = <[k := head ls]> (free_list m) -> used_list m' = used_list m ->
  dseg (fview (heap m')) None ls None ->
  (forall x, (x ∉ fs k) -> (x ∉ ls) -> fview (heap m') x = fview (heap m) x) ->
  (forall x, x ∈ ls <-> exists o s, (x, (o, s, false)) ∈ ph ∧ (x ∉ D') ∧ class_of s = k) ->
  (forall x s, (x, s) ∈ ph -> (x ∉ fs k) -> (x ∉ ls) -> ((x ∉ D) <-> (x ∉ D'))) ->
  (forall x s1 s2, (x, s1) ∈ ph -> (x, s2) ∈ ph -> s1 = s2) ->
  Links m' ph us (fun j => if decide (j = k) then ls else fs j) D'.
Proof.
  intros [A1 A2 A3 A4 A5 A6 A7 A8 A9] Hk Hnd E1 E2 Hd Hv Hm HD Hkey.
  assert (Hout : forall x o s j, (x, (o, s, false)) ∈ ph -> class_of s = j -> j <> k -> (x ∉ fs k) ∧ (x ∉ ls)).
  { intros x o s j Hx <- Hj. split.
    - intros (o' & s' & Hx' & _ & Hc)%A5. specialize (Hkey _ _ _ Hx Hx'). congruence.
    - intros (o' & s' & Hx' & _ & Hc)%Hm. specialize (Hkey _ _ _ Hx Hx'). congruence. }
  assert (Huout : forall x o s, (x, (o, s, true)) ∈ ph -> (x ∉ fs k) ∧ (x ∉ ls)).
  { intros x o s Hx. split.
    - intros (o' & s' & Hx' & _ & Hc)%A5. specialize (Hkey _ _ _ Hx Hx'). congruence.
    - intros (o' & s' & Hx' & _ & Hc)%Hm. specialize (Hkey _ _ _ Hx Hx'). congruence. }
  constructor.
  - by rewrite E1, length_insert.
  - intros j Hj. rewrite E1. destruct (decide (j = k)) as [->|Hne].
    + rewrite list_lookup_insert_eq by lia. done.
    + rewrite list_lookup_insert_ne by done. by apply A2.
  - intros j. destruct (decide (j = k)) as [->|Hne]; [done|].
    eapply dseg_ext; [|apply A3]. intros x (o & s & H1 & _ & H2)%A5.
    destruct (Hout _ _ _ _ H1 H2 Hne). by apply Hv.
  - intros j. destruct (decide (j = k)); done.
  - intros j x. destruct (decide (j = k)) as [->|Hne]; [apply Hm|]. rewrite A5.
    split; intros (o & s & H1 & H2 & H3); exists o, s; (split; [done|split; [|done]]);
      destruct (Hout _ _ _ _ H1 H3 Hne); by eapply HD.
  - by rewrite E2.
  - eapply sseg_ext; [|apply A7]. intros x (o & s & H1 & _)%A9.
    rewrite !nview_fview. f_equal. destruct (Huout _ _ _ H1). by apply Hv.
  - done.
  - intros x. rewrite A9. split; intros (o & s & H1 & H2); exists o, s; (split; [done|]);
      destruct (Huout _ _ _ H1); by eapply HD.
Qed.

(** The computation of [tlsf_remove_free_block] on a block with known links. *)
Lemma remove_free_eval m l b p n :
  length (free_list m) = 480%nat ->
  heap m !! l = Some b -> prev_free b = p -> next_free b = n -> p <> Some l -> n <> Some l ->
  (forall x, p = Some x -> is_Some (heap m !! x)) ->
  (forall x, n = Some x -> is_Some (heap m !! x)) ->
  tlsf_remove_free_block m l =
    Some (set_free_list
            (match p with Some _ => free_list m | None => <[class_of (block_get_size b) := n]> (free_list m) end)
            (set_heap (alter (fun b => set_next_free None (set_prev_free None b)) l
                        (alter_opt (set_prev_free p) n (alter_opt (set_next_free n) p (heap m)))) m)).
Proof.
  intros Hlen Hb Hp Hn Hpl Hnl Hps Hns. unfold tlsf_remove_free_block. rewrite Hb. simpl. rewrite Hp, Hn.
  set (h1 := alter_opt (set_next_free n) p (heap m)).
  assert (E : match p with
              | Some p0 => h ← store p0 (set_next_free n) (heap m); Some (free_list m, h)
              | None => _ ← free_list m !! class_of (block_get_size b);
                        Some (<[class_of (block_get_size b) := n]> (free_list m), heap m)
              end = Some (match p with Some _ => free_list m
                          | None => <[class_of (block_get_size b) := n]> (free_list m) end, h1)).
  { subst h1. destruct p as [x|]; [rewrite store_alter by (by apply Hps); done|].
    pose proof (class_of_lt (block_get_size b)).
    destruct (lookup_lt_is_Some_2 (free_list m) (class_of (block_get_size b))) as [y Hy]; [lia|].
    by rewrite Hy. }
  rewrite E. cbn [mbind option_bind].
  assert (Hb1 : h1 !! l = Some b).
  { subst h1. destruct p as [x|]; simpl; [|done]. rewrite lookup_alter_ne by congruence. done. }
  rewrite Hb1. cbn [mbind option_bind]. rewrite Hp, Hn.
  rewrite store_opt_alter by (intros x Hx; apply is_Some_alter_opt, Hns, Hx).
  cbn [mbind option_bind]. rewrite store_alter; [done|].
  apply is_Some_alter_opt. by rewrite Hb1.
Qed.

Lemma rep_remove_free m ph D l o s :
  Rep m ph D -> (l, (o, s, false)) ∈ ph -> (l ∉ D) ->
  exists m', tlsf_remove_free_block m l = Some m' ∧ Rep m' ph (l :: D) ∧ meta m' = meta m.
Proof.
  intros [P (us & fs & L)] Hin HD.
  destruct (phys_seg _ _ P _ _ Hin) as (b & Hb & Hseg & _).
  destruct (links_split _ _ _ _ _ _ _ _ L Hin HD) as (l1 & l2 & E & Hv & H1 & H2).
  assert (Hk : class_of (block_get_size b) = class_of s) by (unfold seg_of in Hseg; congruence).
  pose proof (links_fnd _ _ _ _ _ L (class_of s)) as Hnd. rewrite E in Hnd.
  pose proof (NoDup_app_cons_inv _ _ _ Hnd) as (Hl1 & Hl2 & Hnd').
  assert (Hv' := Hv). unfold fview in Hv'. rewrite Hb in Hv'. injection Hv' as Hpb Hnb.
  assert (Hp : last l1 <> Some l) by (intros ?%last_Some_elem_of; done).
  assert (Hn : head l2 <> Some l).
  { destruct l2; simpl; [done|]. intros ?; simplify_eq. apply Hl2. left. }
  eexists. split; [by apply (remove_free_eval m l b (last l1) (head l2)); try done; apply (links_len _ _ _ _ _ L)|].
  set (h' := alter _ l _).
  assert (Hfv : forall x, x <> l -> fview h' x =
     if decide (head l2 = Some x) then set_fst (last l1) (fview (heap m) x)
     else if decide (last l1 = Some x) then set_snd (head l2) (fview (heap m) x) else fview (heap m) x).
  { intros x Hx. subst h'. unfold fview at 1. rewrite lookup_alter_ne by done.
    fold (fview (alter_opt (set_prev_free (last l1)) (head l2)
            (alter_opt (set_next_free (head l2)) (last l1) (heap m))) x).
    rewrite fview_prev, !fview_next. repeat case_decide; try done.
    exfalso. eapply (NoDup_app_disj l1 l2); eauto using last_Some_elem_of, head_Some_elem_of. }
  split; [|done]. split.
  - simpl. eapply phys_cview; [|exact P]. intros x. unfold cview. subst h'.
    rewrite <- (alter_opt_Some _ l). rewrite !view_alter_opt_id; done.
  - exists us, (fun j => if decide (j = class_of s) then l1 ++ l2 else fs j).
    eapply (links_update m _ ph us fs D); [exact L|apply class_of_lt|done| |done| | | | |].
    + simpl. rewrite Hk. destruct l1 as [|x r]; [done|].
      replace (last (x :: r)) with (Some (default x (last r))) by (rewrite last_cons; by destruct (last r)).
      symmetry. apply list_insert_id. rewrite (links_heads _ _ _ _ _ L) by apply class_of_lt. by rewrite E.
    + simpl. eapply dseg_unlink; [exact Hnd| | | |rewrite <- E; apply (links_free _ _ _ _ _ L)].
      * intros x Hx Hx1 Hx2. rewrite Hfv by done. by rewrite !decide_False.
      * intros x Hx. rewrite Hfv by congruence. rewrite (decide_True (P := last l1 = Some x)) by done.
        rewrite decide_False; [done|]. intros Hx2.
        eapply (NoDup_app_disj l1 l2); eauto using last_Some_elem_of, head_Some_elem_of.
      * intros x Hx. rewrite Hfv by congruence. by rewrite decide_True.
    + simpl. intros x Hx _. rewrite E in Hx. rewrite Hfv by set_solver. rewrite !decide_False; [done| |].
      * intros ?%last_Some_elem_of. set_solver.
      * intros ?%head_Some_elem_of. set_solver.
    + intros x. pose proof (links_fmem _ _ _ _ _ L (class_of s) x) as Hm. rewrite E in Hm.
      split.
      * intros Hx. destruct (proj1 Hm) as (o' & s' & Hm1 & Hm2 & Hm3); [set_solver|].
        exists o', s'. split; [done|]. split; [|done]. apply not_elem_of_cons. split; [|done]. set_solver.
      * intros (o' & s' & Hm1 & [Hm2 Hm2']%not_elem_of_cons & Hm3).
        assert (x ∈ l1 ++ l :: l2) by (apply Hm; eauto). set_solver.
    + intros x s' Hx Hnx _. rewrite E in Hnx. rewrite not_elem_of_cons. set_solver.
    + intros x s1 s2. by apply (phys_key _ _ _ _ _ P).
Qed.

Lemma insert_free_eval m l b hd :
  heap m !! l = Some b -> free_list m !! class_of (block_get_size b) = Some hd -> hd <> Some l ->
  (forall x, hd = Some x -> is_Some (heap m !! x)) ->
  tlsf_insert_free_block m l =
    Some (set_free_list (<[class_of (block_get_size b) := Some l]> (free_list m))
            (set_heap (alter_opt (set_prev_free (Some l)) hd
                        (alter (fun b => set_next_free hd (set_prev_free None b)) l (heap m))) m)).
Proof.
  intros Hb Hhd Hne Hs. unfold tlsf_insert_free_block. rewrite Hb. simpl. rewrite Hhd. simpl.
  rewrite (insert_alter (fun b => set_next_free hd (set_prev_free None b)) l b) by done.
  rewrite store_opt_alter; [done|]. intros x Hx.
  rewrite lookup_alter_is_Some. by apply Hs.
Qed.

Lemma rep_insert_free m ph D l o s :
  Rep m ph (l :: D) -> (l, (o, s, false)) ∈ ph -> (l ∉ D) ->
  exists m', tlsf_insert_free_block m l = Some m' ∧ Rep m' ph D ∧ meta m' = meta m.
Proof.
  intros [P (us & fs & L)] Hin HD.
  destruct (phys_seg _ _ P _ _ Hin) as (b & Hb & Hseg & _).
  assert (Hk : class_of (block_get_size b) = class_of s) by (unfold seg_of in Hseg; congruence).
  assert (Hm := fun x => links_fmem _ _ _ _ _ L (class_of s) x).
  set (ls := fs (class_of s)) in *.
  assert (Hl : l ∉ ls) by (intros (? & ? & _ & [? _]%not_elem_of_cons & _)%Hm; done).
  assert (Hhd : forall x, head ls = Some x -> x <> l ∧ is_Some (heap m !! x)).
  { intros x Hx%head_Some_elem_of. split; [set_solver|].
    apply Hm in Hx as (o' & s' & Hx & _). apply (phys_dom _ _ P). apply list_elem_of_fmap. by exists (x, (o', s', false)). }
  eexists. split.
  { apply (insert_free_eval m l b (head ls)); [done| | |intros x Hx; by apply Hhd].
    - rewrite Hk. apply (links_heads _ _ _ _ _ L), class_of_lt.
    - intros Hx. by apply Hhd in Hx as [? _]. }
  set (h' := alter_opt _ _ _).
  assert (Hfv : forall x, fview h' x =
     if decide (x = l) then Some (None, head ls)
     else if decide (head ls = Some x) then set_fst (Some l) (fview (heap m) x) else fview (heap m) x).
  { intros x. subst h'. rewrite fview_prev. destruct (decide (x = l)) as [->|Hx].
    - rewrite decide_False by (intros Hx; by apply Hhd in Hx as [? _]).
      unfold fview. rewrite lookup_alter_eq, Hb. done.
    - unfold fview at 1 2. rewrite lookup_alter_ne by done. done. }
  split; [|done]. split.
  - simpl. eapply phys_cview; [|exact P]. intros x. unfold cview. subst h'.
    rewrite <- (alter_opt_Some _ l). rewrite !view_alter_opt_id; done.
  - exists us, (fun j => if decide (j = class_of s) then l :: ls else fs j).
    eapply (links_update m _ ph us fs (l :: D)); [exact L|apply class_of_lt| | |done| | | | |].
    + constructor; [done|apply (links_fnd _ _ _ _ _ L)].
    + simpl. by rewrite Hk.
    + simpl. eapply (dseg_link (fview (heap m)) _ []); simpl;
        [apply (links_fnd _ _ _ _ _ L)|done|rewrite Hfv; by rewrite decide_True| |done| |apply (links_free _ _ _ _ _ L)].
      * intros x Hx _ Hx2. rewrite Hfv. by rewrite !decide_False.
      * intros x Hx. rewrite Hfv. rewrite decide_False by by apply Hhd. by rewrite decide_True.
    + simpl. intros x Hx [Hxl Hxls]%not_elem_of_cons. rewrite Hfv. rewrite !decide_False; [done| |done].
      intros ?%head_Some_elem_of. done.
    + intros x. rewrite elem_of_cons, Hm. split.
      * intros [->|(o' & s' & H1 & [_ H2]%not_elem_of_cons & H3)]; eauto.
      * intros (o' & s' & H1 & H2 & H3). destruct (decide (x = l)) as [->|]; [by left|].
        right. exists o', s'. by rewrite not_elem_of_cons.
    + intros x s' Hx Hnx [Hxl _]%not_elem_of_cons. rewrite not_elem_of_cons. tauto.
    + intros x s1 s2. by apply (phys_key _ _ _ _ _ P).
Qed.

(** * The used list *)

Lemma rep_insert_used m ph D l o s :
  Rep m ph (l :: D) -> (l, (o, s, true)) ∈ ph -> (l ∉ D) ->
  exists m', tlsf_insert_used_block m l = Some m' ∧ Rep m' ph D ∧ meta m' = meta m.
Proof.
  intros [P (us & fs & L)] Hin HD.
  destruct (phys_seg _ _ P _ _ Hin) as (b & Hb & Hseg & _).
  assert (Hm := fun x => links_umem _ _ _ _ _ L x).
  assert (Hl : l ∉ us) by (intros (? & ? & _ & [? _]%not_elem_of_cons)%Hm; done).
  unfold tlsf_insert_used_block. rewrite store_alter by eauto.
  rewrite (links_uhead _ _ _ _ _ L). simpl.
  eexists. split; [done|]. split; [|done].
  assert (Hfv : forall x, x <> l -> fview (alter (set_next_free (head us)) l (heap m)) x = fview (heap m) x).
  { intros x Hx. unfold fview. by rewrite lookup_alter_ne. }
  split.
  - simpl. eapply phys_cview; [|exact P]. intros x. unfold cview.
    rewrite <- (alter_opt_Some _ l). by rewrite !view_alter_opt_id.
  - destruct L as [A1 A2 A3 A4 A5 A6 A7 A8 A9]. exists (l :: us), fs. constructor; try done; simpl.
    + intros k. eapply dseg_ext; [|apply A3]. intros x (? & ? & _ & [? _]%not_elem_of_cons & _)%A5. by apply Hfv.
    + intros k x. rewrite A5. split; intros (o' & s' & H1 & H2 & H3); exists o', s'; (split; [done|split; [|done]]).
      * by apply not_elem_of_cons in H2 as [_ ?].
      * apply not_elem_of_cons. split; [|done]. intros ->.
        by assert ((o', s', false) = (o, s, true)) by by apply (phys_key _ _ _ _ _ P H1).
    + split; [unfold nview; by rewrite lookup_alter_eq, Hb|]. eapply sseg_ext; [|exact A7].
      intros x Hx. rewrite !nview_fview. f_equal. apply Hfv. by intros ->.
    + by constructor.
    + intros x. rewrite elem_of_cons, A9. split.
      * intros [->|(o' & s' & H1 & [_ H2]%not_elem_of_cons)]; eauto.
      * intros (o' & s' & H1 & H2). destruct (decide (x = l)) as [->|]; [by left|].
        right. exists o', s'. by rewrite not_elem_of_cons.
Qed.

Lemma remove_used_eval fuel m d l1 l l2 :
  sseg (nview (heap m)) (d ++ l1 ++ l :: l2) -> NoDup (d ++ l1 ++ l :: l2) -> (length l1 < fuel)%nat ->
  (forall x, x ∈ d ++ l1 ++ l :: l2 -> is_Some (heap m !! x)) ->
  remove_used_loop fuel m l (last d) (head (l1 ++ l :: l2)) =
    Some (set_heap (alter (set_next_free None) l
                     (alter_opt (set_next_free (head l2)) (last (d ++ l1)) (heap m)))
            (match last (d ++ l1) with None => set_used_list (head l2) m | Some _ => m end)).
Proof.
  revert d fuel. induction l1 as [|x r IH]; intros d [|fuel] Hs Hnd Hf Hdom; try (simpl in *; lia).
  - rewrite app_nil_r. simpl in *.
    pose proof (sseg_lookup _ _ _ _ Hs) as Hv. unfold nview in Hv.
    destruct (heap m !! l) as [b|] eqn:Hb; [|done]. simpl in *. injection Hv as Hv. rewrite Hv.
    rewrite decide_True by done. destruct (last d) as [q|] eqn:Hd; simpl.
    + apply last_Some_elem_of in Hd. rewrite store_alter by (apply Hdom; set_solver). simpl.
      rewrite store_alter; [done|]. rewrite lookup_alter_is_Some. eauto.
    + rewrite store_alter by eauto. done.
  - assert (Hxl : x <> l).
    { intros ->. apply NoDup_app in Hnd as (_ & _ & [Hn _]%NoDup_cons). apply Hn. set_solver. }
    pose proof (sseg_lookup _ _ _ _ Hs) as Hv. unfold nview in Hv. simpl in *.
    destruct (heap m !! x) as [b|] eqn:Hb; [|done]. simpl in *. injection Hv as Hv. rewrite Hv.
    rewrite decide_False by done.
    specialize (IH (d ++ [x]) fuel). rewrite last_snoc, <- !app_assoc in IH. simpl in IH.
    apply IH; [done|done|lia|done].
Qed.

Lemma length_le_size {A} (h : gmap loc A) (ls : list loc) :
  NoDup ls -> (forall x, x ∈ ls -> is_Some (h !! x)) -> (length ls <= size h)%nat.
Proof.
  intros Hnd Hd. rewrite <- (size_list_to_set (C := gset loc) ls) by done.
  rewrite <- (size_dom h). apply subseteq_size. intros x Hx.
  apply elem_of_dom, Hd. by apply elem_of_list_to_set in Hx.
Qed.

Lemma rep_dom m ph D l s : Rep m ph D -> (l, s) ∈ ph -> is_Some (heap m !! l).
Proof. intros HR Hin. destruct (rep_lookup _ _ _ _ _ HR Hin) as (b & Hb & _). eauto. Qed.

Lemma rep_remove_used m ph D l o s :
  Rep m ph D -> (l, (o, s, true)) ∈ ph -> (l ∉ D) ->
  exists m', tlsf_remove_used_block m l = Some m' ∧ Rep m' ph (l :: D) ∧ meta m' = meta m.
Proof.
  intros HR Hin HD. assert (HR' := HR). destruct HR' as [P (us & fs & L)].
  assert (Hm := links_umem _ _ _ _ _ L).
  assert (Hdom : forall x, x ∈ us -> is_Some (heap m !! x)).
  { intros x (o' & s' & Hx & _)%Hm. by eapply rep_dom. }
  assert (Hus : l ∈ us) by (apply Hm; eauto).
  apply list_elem_of_split in Hus as (l1 & l2 & E).
  pose proof (links_und _ _ _ _ _ L) as Hnd. pose proof (links_used _ _ _ _ _ L) as Hs.
  pose proof (length_le_size _ _ Hnd Hdom) as Hlen.
  rewrite E in Hnd, Hs, Hlen, Hdom. rewrite length_app in Hlen. simpl in Hlen.
  pose proof (NoDup_app_cons_inv _ _ _ Hnd) as (Hl1 & Hl2 & Hnd').
  pose proof (remove_used_eval (size (heap m)) m [] l1 l l2 Hs Hnd ltac:(lia) Hdom) as Ev.
  unfold tlsf_remove_used_block. rewrite (links_uhead _ _ _ _ _ L), E. simpl in Ev. rewrite Ev.
  set (h' := alter _ l _). eexists. split; [done|]. split; [|by destruct (last l1)].
  assert (Hfv : forall x, x <> l -> last l1 <> Some x -> fview h' x = fview (heap m) x).
  { intros x Hx Hx1. subst h'. unfold fview at 1. rewrite lookup_alter_ne by done.
    fold (fview (alter_opt (set_next_free (head l2)) (last l1) (heap m)) x).
    rewrite fview_next. by rewrite decide_False. }
  split.
  - simpl. eapply phys_cview; [|exact P]. intros x. unfold cview. subst h'.
    rewrite <- (alter_opt_Some _ l). by rewrite !view_alter_opt_id.
  - destruct L as [A1 A2 A3 A4 A5 A6 A7 A8 A9]. exists (l1 ++ l2), fs.
    assert (Hu : used_list (match last l1 with None => set_used_list (head l2) m | Some _ => m end) = head (l1 ++ l2)).
    { destruct l1 as [|x r]; [done|]. rewrite last_cons. rewrite E in A6. simpl in *. by destruct (last r). }
    assert (Hfl : free_list (match last l1 with None => set_used_list (head l2) m | Some _ => m end) = free_list m)
      by by destruct (last l1).
    constructor; simpl; rewrite ?Hfl; try done.
    + intros k. eapply dseg_ext; [|apply A3]. intros x (o' & s' & Hx & _ & _)%A5.
      assert (Hnu : x ∉ us).
      { intros (o2 & s2 & Hx2 & _)%A9. by assert ((o', s', false) = (o2, s2, true)) by by apply (phys_key _ _ _ _ _ P Hx). }
      rewrite E in Hnu. apply Hfv; [set_solver|]. intros ?%last_Some_elem_of. set_solver.
    + intros k x. rewrite A5. split; intros (o' & s' & H1 & H2 & H3); exists o', s'; (split; [done|split; [|done]]).
      * apply not_elem_of_cons. split; [|done]. intros ->.
        by assert ((o', s', false) = (o, s, true)) by by apply (phys_key _ _ _ _ _ P H1).
      * by apply not_elem_of_cons in H2 as [_ ?].
    + eapply sseg_unlink; [exact Hnd| | |exact Hs].
      * intros x Hx Hx1. rewrite !nview_fview. f_equal. by apply Hfv.
      * intros x Hx. assert (x <> l) by (intros ->; by apply last_Some_elem_of in Hx).
        subst h'. rewrite nview_fview. unfold fview. rewrite lookup_alter_ne by done.
        fold (fview (alter_opt (set_next_free (head l2)) (last l1) (heap m)) x).
        rewrite fview_next, decide_True by done. unfold fview.
        destruct (Hdom x) as [b ->]; [apply last_Some_elem_of in Hx; set_solver|done].
    + intros x. specialize (A9 x). rewrite E in A9. split.
      * intros Hx. destruct (proj1 A9) as (o' & s' & H1 & H2); [set_solver|]. exists o', s'.
        rewrite not_elem_of_cons. set_solver.
      * intros (o' & s' & H1 & [H2 H3]%not_elem_of_cons).
        assert (x ∈ l1 ++ l :: l2) by (apply A9; eauto). set_solver.
Qed.
