(* ===== verification/SwapTlsfOps.v ===== *)
(** The searches of the swap-buffer allocator and its changes of the physical
    chain (marking, splitting, absorbing a neighbour), each shown to return
    and to keep the representation [Rep]. *)

From S2P Require Import Prelude Dlist SwapTlsf SwapTlsfInv.

(** The heap after the block [l], physical successor of [p], is merged into
    [p]; [n] is the physical successor of [l]. *)
Definition absorb_heap (total : Z) (p l : loc) (n : option loc) (h : heap_t) : heap_t :=
  delete l (alter_opt (set_prev_phys (Some p)) n (alter (set_next_phys n) p (alter (block_set_size total) p h))).

(** * Searches *)

Lemma walk_sseg fuel h p ls :
  sseg (nview h) ls -> (length ls <= fuel)%nat ->
  exists r, walk fuel h p (head ls) = Some r ∧
    match r with
    | Some l => l ∈ ls ∧ exists b, h !! l = Some b ∧ p b = true
    | None => forall l b, l ∈ ls -> h !! l = Some b -> p b = false
    end.
Proof.
  revert fuel. induction ls as [|x r IH]; intros fuel Hs Hf.
  - exists None. split; [by destruct fuel|]. intros l b Hl. by apply not_elem_of_nil in Hl.
  - destruct fuel as [|fuel]; [simpl in Hf; lia|]. simpl in *. destruct Hs as [Hx Hs].
    unfold nview in Hx. destruct (h !! x) as [b|] eqn:Hb; [|done]. injection Hx as Hx. simpl.
    destruct (p b) eqn:Hp; [exists (Some x); split; [done|]; split; [by left|eauto]|].
    rewrite Hx. destruct (IH fuel Hs ltac:(lia)) as (r' & -> & Hr). exists r'. split; [done|].
    destruct r' as [l|].
    + destruct Hr as [Hl Hr]. split; [by right|done].
    + intros l b' [->|Hl]%elem_of_cons Hb'; [by simplify_eq|by eapply Hr].
Qed.

Lemma walk_classes_spec h p (fs : nat -> list loc) heads k0 :
  (forall i hd, heads !! i = Some hd -> hd = head (fs (k0 + i)%nat)) ->
  (forall k, sseg (nview h) (fs k) ∧ (length (fs k) <= size h)%nat) ->
  exists r, walk_classes h p heads = Some r ∧
    match r with
    | Some l => (exists k, l ∈ fs k) ∧ exists b, h !! l = Some b ∧ p b = true
    | None => forall k l b, (k0 <= k < k0 + length heads)%nat -> l ∈ fs k -> h !! l = Some b -> p b = false
    end.
Proof.
  revert k0. induction heads as [|hd rest IH]; intros k0 Hh Hfs.
  - exists None. split; [done|]. simpl. lia.
  - simpl. rewrite (Hh 0%nat hd) by done. rewrite Nat.add_0_r.
    destruct (walk_sseg (size h) h p (fs k0)) as (r & -> & Hr); [apply Hfs..|]. simpl.
    destruct r as [l|]; [exists (Some l); split; [done|]; split; [by exists k0; apply Hr|apply Hr]|].
    destruct (IH (S k0)) as (r' & -> & Hr').
    { intros i hd' Hi. rewrite (Hh (S i) hd') by done. f_equal. f_equal. lia. }
    { done. }
    exists r'. split; [done|]. destruct r' as [l|]; [done|].
    intros k l b Hk Hl. destruct (decide (k = k0)) as [->|]; [by apply Hr|].
    apply (Hr' k); [lia|done].
Qed.

Section searches.
  Context (m : TLSFManager) (ph : layout) (D : list loc) (HR : Rep m ph D).

Lemma rep_free_lists us fs :
  Links m ph us fs D -> forall k, sseg (nview (heap m)) (fs k) ∧ (length (fs k) <= size (heap m))%nat.
Proof.
  intros L k. split; [eapply dseg_sseg, (links_free _ _ _ _ _ L)|].
  apply length_le_size; [apply (links_fnd _ _ _ _ _ L)|].
  intros x (o & s & Hx & _)%(links_fmem _ _ _ _ _ L). by eapply rep_dom.
Qed.

Lemma find_block_spec sz :
  exists r, tlsf_find_block m sz = Some r ∧
    match r with
    | Some l => exists o s, (l, (o, s, false)) ∈ ph ∧ (l ∉ D) ∧ sz <= s
    | None => forall l o s, (l, (o, s, false)) ∈ ph -> (l ∉ D) ->
        (Z.to_nat ((tlsf_calc_fl_sl sz).1 * TLSF_MAX_SL) <= class_of s)%nat -> s < sz
    end.
Proof.
  destruct (proj2 HR) as (us & fs & L). unfold tlsf_find_block.
  destruct (tlsf_calc_fl_sl sz) as [fl sl] eqn:Efl. simpl.
  set (k0 := Z.to_nat (fl * TLSF_MAX_SL)).
  edestruct (walk_classes_spec (heap m) (fun b => sz <=? block_get_size b) fs (drop k0 (free_list m)) k0)
    as (r & -> & Hr); [|by eapply rep_free_lists|].
  { intros i hd Hi. rewrite lookup_drop in Hi. pose proof (lookup_lt_Some _ _ _ Hi) as Hlt.
    rewrite (links_len _ _ _ _ _ L) in Hlt. rewrite (links_heads _ _ _ _ _ L) in Hi by done. by simplify_eq. }
  exists r. split; [done|]. destruct r as [l|].
  - destruct Hr as ((k & (o & s & Hin & HD & _)%(links_fmem _ _ _ _ _ L)) & b & Hb & Hp).
    destruct (rep_lookup _ _ _ _ _ HR Hin) as (b' & Hb' & Hs & _). simplify_eq. unfold seg_of in *. simplify_eq.
    eexists _, _. split; [done|]. split; [done|]. by apply Z.leb_le.
  - intros l o s Hin HD Hk. destruct (rep_lookup _ _ _ _ _ HR Hin) as (b & Hb & Hs & _).
    pose proof (class_of_lt s). unfold seg_of in Hs. simplify_eq.
    apply Z.leb_gt. apply (Hr (class_of (block_get_size b)) l b); [|by apply (links_fmem _ _ _ _ _ L); eauto|done].
    rewrite length_drop, (links_len _ _ _ _ _ L). lia.
Qed.

Lemma find_block_by_offset_spec off :
  exists r, tlsf_find_block_by_offset m off = Some r ∧
    match r with
    | Some l => exists s u, (l, (off, s, u)) ∈ ph ∧ (l ∉ D)
    | None => forall l s u, (l, (off, s, u)) ∈ ph -> l ∈ D
    end.
Proof.
  destruct (proj2 HR) as (us & fs & L). unfold tlsf_find_block_by_offset.
  rewrite (links_uhead _ _ _ _ _ L).
  edestruct (walk_sseg (size (heap m)) (heap m) (fun b => data_offset b =? off) us)
    as (r & -> & Hr); [apply (links_used _ _ _ _ _ L)| |].
  { apply length_le_size; [apply (links_und _ _ _ _ _ L)|].
    intros x (o & s & Hx & _)%(links_umem _ _ _ _ _ L). by eapply rep_dom. }
  simpl. destruct r as [l|].
  { exists (Some l). split; [done|].
    destruct Hr as ((o & s & Hin & HD)%(links_umem _ _ _ _ _ L) & b & Hb & Hp%Z.eqb_eq).
    destruct (rep_lookup _ _ _ _ _ HR Hin) as (b' & Hb' & Hs & _). simplify_eq. unfold seg_of in *. simplify_eq. eauto. }
  edestruct (walk_classes_spec (heap m) (fun b => data_offset b =? off) fs (free_list m) 0)
    as (r & -> & Hr'); [|by eapply rep_free_lists|].
  { intros i hd Hi. pose proof (lookup_lt_Some _ _ _ Hi) as Hlt.
    rewrite (links_len _ _ _ _ _ L) in Hlt. rewrite (links_heads _ _ _ _ _ L) in Hi by done. by simplify_eq. }
  exists r. split; [done|]. destruct r as [l|].
  - destruct Hr' as ((k & (o & s & Hin & HD & _)%(links_fmem _ _ _ _ _ L)) & b & Hb & Hp%Z.eqb_eq).
    destruct (rep_lookup _ _ _ _ _ HR Hin) as (b' & Hb' & Hs & _). simplify_eq. unfold seg_of in *. simplify_eq. eauto.
  - intros l s u Hin. destruct (rep_lookup _ _ _ _ _ HR Hin) as (b & Hb & Hs & _).
    destruct (decide (l ∈ D)) as [|HD]; [done|exfalso].
    assert (Ho : data_offset b =? off = true) by (unfold seg_of in Hs; simplify_eq; apply Z.eqb_refl).
    destruct u.
    + specialize (Hr l b). rewrite Hr in Ho; [done| |done]. apply (links_umem _ _ _ _ _ L). eauto.
    + pose proof (class_of_lt s). specialize (Hr' (class_of s) l b). rewrite Hr' in Ho; [done| | |done].
      * rewrite (links_len _ _ _ _ _ L). lia.
      * apply (links_fmem _ _ _ _ _ L). eauto.
Qed.

End searches.

(** * Changes of the physical chain *)

Lemma layout_ne (ph1 ph2 : layout) l s x t :
  NoDup (ph1 ++ (l, s) :: ph2).*1 -> (x, t) ∈ ph1 ++ ph2 -> x <> l.
Proof.
  rewrite fmap_app. simpl. intros (H1 & H2 & _)%NoDup_app_cons_inv Hx ->.
  apply elem_of_app in Hx as [Hx|Hx]; apply (list_elem_of_fmap_2 fst) in Hx; simpl in *; done.
Qed.

Lemma elem_of_mid {A} (l1 l2 : list A) x y : y ∈ l1 ++ x :: l2 <-> y = x \/ y ∈ l1 ++ l2.
Proof. rewrite !elem_of_app, elem_of_cons. tauto. Qed.

Lemma rep_update m ph1 l s s' ph2 D f :
  Rep m (ph1 ++ (l, s) :: ph2) D -> l ∈ D ->
  (forall b, is_u64 (blk_size b) -> seg_of b = s -> seg_of (f b) = s' ∧ is_u64 (blk_size (f b))) ->
  (forall b, (prev_phys (f b), next_phys (f b)) = (prev_phys b, next_phys b)) ->
  Rep (set_heap (alter f l (heap m)) m) (ph1 ++ (l, s') :: ph2) D.
Proof.
  intros [P (us & fs & L)] HD Hf Hp. split.
  - simpl. pose proof (phys_nd _ _ P) as Hnd.
    destruct P as [A1 A2 A3 A4]. rewrite fmap_app in A1, A2, A4. simpl in A1, A2, A4.
    constructor; rewrite ?fmap_app; simpl; [|done| |].
    + intros x. by rewrite lookup_alter_is_Some.
    + intros x t [Hx|Hx]%elem_of_mid.
      * simplify_eq. destruct (A3 l s) as (b & Hb & Hs & Hu); [apply elem_of_mid; by left|].
        exists (f b). rewrite lookup_alter_eq, Hb. destruct (Hf b Hu Hs). done.
      * rewrite lookup_alter_ne by (symmetry; by eapply layout_ne). apply A3. apply elem_of_mid. by right.
    + eapply dseg_ext; [|exact A4]. intros x _. unfold pview. rewrite <- alter_opt_Some.
      by rewrite view_alter_opt_id.
  - exists us, fs. eapply links_move; [exact L|done|done| |].
    + intros x t Hx Hxd. unfold fview. simpl. rewrite lookup_alter_ne; [done|]. by intros ->.
    + intros x t. rewrite !elem_of_mid. split; intros [[?|?] ?]; simplify_eq; tauto.
Qed.

Lemma phys_absorb h ph1 p o s1 l o2 s2 ph2 :
  Phys h (ph1 ++ (p, (o, s1, false)) :: (l, (o2, s2, false)) :: ph2) ->
  (s1 + s2) mod 2 = 0 -> 0 <= s1 + s2 < U64_MOD ->
  Phys (absorb_heap (s1 + s2) p l (head ph2.*1) h) (ph1 ++ (p, (o, s1 + s2, false)) :: ph2).
Proof.
  intros P He Hr. pose proof (phys_nd _ _ P) as Hnd.
  destruct P as [A1 A2 A3 A4]. rewrite fmap_app, !fmap_cons in A1, A2, A4. cbn [fst] in A1, A2, A4.
  pose proof (NoDup_app_cons_inv _ _ _ A2) as (Np1 & Np2 & _).
  assert (E : ph1.*1 ++ p :: l :: ph2.*1 = (ph1.*1 ++ [p]) ++ l :: ph2.*1) by by rewrite <- app_assoc.
  rewrite E in A2, A4. clear E.
  pose proof (NoDup_app_cons_inv (ph1.*1 ++ [p]) ph2.*1 l A2) as (Nl1 & Nl2 & Hnd').
  assert (Hne : forall x, head ph2.*1 = Some x -> x <> l ∧ x <> p).
  { intros x Hx%head_Some_elem_of. split; intros ->; [done|]. apply Np2. by right. }
  assert (Hpl : p <> l) by (intros ->; apply Np2; left).
  constructor; rewrite ?fmap_app, ?fmap_cons; cbn [fst].
  - intros x. unfold absorb_heap. destruct (decide (x = l)) as [->|Hx].
    + rewrite lookup_delete_eq. split; [by intros [? ?]|]. intros H. exfalso. clear - H Nl1 Nl2. set_solver.
    + rewrite lookup_delete_ne by done. rewrite is_Some_alter_opt, !lookup_alter_is_Some, A1. clear - Hx. set_solver.
  - by rewrite <- app_assoc in Hnd'.
  - intros x t Hx.
    assert (x <> l).
    { intros ->. apply (list_elem_of_fmap_2 fst) in Hx. rewrite fmap_app, ?fmap_cons in Hx. cbn [fst] in Hx.
      clear - Hx Nl1 Nl2. set_solver. }
    unfold absorb_heap. rewrite lookup_delete_ne by done.
    assert (E : (fun b => (seg_of b, blk_size b)) <$> (alter_opt (set_prev_phys (Some p)) (head ph2.*1)
        (alter (set_next_phys (head ph2.*1)) p (alter (block_set_size (s1 + s2)) p h)) !! x)
        = (fun b => (seg_of b, blk_size b)) <$> (alter (block_set_size (s1 + s2)) p h !! x)).
    { rewrite <- (alter_opt_Some (set_next_phys _) p). by rewrite !view_alter_opt_id. }
    assert (Ha : exists b, alter (block_set_size (s1 + s2)) p h !! x = Some b ∧ seg_of b = t ∧ is_u64 (blk_size b)).
    { apply elem_of_mid in Hx as [Hx|Hx].
      - simplify_eq. destruct (A3 p (o, s1, false)) as (b & Hb & Hs & Hu); [apply elem_of_mid; by left|].
        exists (block_set_size (s1 + s2) b). rewrite lookup_alter_eq, Hb. split; [done|].
        rewrite seg_set_size by done. split; [unfold seg_of in Hs; congruence|by apply raw_set_size].
      - assert (x <> p).
        { intros ->. apply (list_elem_of_fmap_2 fst) in Hx. rewrite fmap_app, ?fmap_cons in Hx. cbn [fst] in Hx. clear - Hx Np1 Np2. set_solver. }
        rewrite lookup_alter_ne by done. apply A3. clear - Hx. set_solver. }
    destruct Ha as (b & Hb & Hs & Hu). rewrite Hb in E. simpl in E.
    destruct (_ !! x) as [b'|]; [|done]. simpl in E.
    exists b'. split; [done|]. split; congruence.
  - replace (ph1.*1 ++ p :: ph2.*1) with ((ph1.*1 ++ [p]) ++ ph2.*1) by by rewrite <- app_assoc.
    assert (V : forall x, x <> l -> pview (absorb_heap (s1 + s2) p l (head ph2.*1) h) x =
      if decide (head ph2.*1 = Some x) then set_fst (Some p) (pview h x)
      else if decide (Some p = Some x) then set_snd (head ph2.*1) (pview h x) else pview h x).
    { intros x Hx. unfold absorb_heap. unfold pview at 1. rewrite lookup_delete_ne by done.
      match goal with |- context [?g !! x] => fold (pview g x) end.
      rewrite pview_prev. rewrite <- (alter_opt_Some (set_next_phys _) p), pview_next.
      assert (pview (alter (block_set_size (s1 + s2)) p h) x = pview h x) as ->.
      { unfold pview. rewrite <- alter_opt_Some. by rewrite view_alter_opt_id. }
      repeat case_decide; try done. simplify_eq. exfalso. by eapply Hne. }
    eapply dseg_unlink; [exact A2| | | |exact A4]; rewrite last_snoc.
    + intros x Hx1 Hx2 Hx3. rewrite V by done. by rewrite !decide_False.
    + intros x [= <-]. rewrite V by done. rewrite decide_False; [by rewrite decide_True|]. intros Hx. by destruct (Hne _ Hx).
    + intros x Hx. rewrite V by by apply Hne. by rewrite decide_True.
Qed.

Lemma rep_absorb m ph1 p o s1 l o2 s2 ph2 D D' :
  Rep m (ph1 ++ (p, (o, s1, false)) :: (l, (o2, s2, false)) :: ph2) D ->
  (s1 + s2) mod 2 = 0 -> 0 <= s1 + s2 < U64_MOD ->
  p ∈ D -> l ∈ D -> p ∈ D' -> (forall x, x <> l -> x ∈ D <-> x ∈ D') ->
  Rep (set_heap (absorb_heap (s1 + s2) p l (head ph2.*1) (heap m)) m)
    (ph1 ++ (p, (o, s1 + s2, false)) :: ph2) D'.
Proof.
  intros [P (us & fs & L)] He Hr HpD HlD HpD' HD. pose proof (phys_nd _ _ P) as Hnd.
  split; [by eapply phys_absorb|].
  exists us, fs. eapply links_move; [exact L|done|done| |].
  - intros x t Hx Hxd. assert (x <> l ∧ x <> p) as [? ?] by (split; intros ->; done).
    unfold fview, absorb_heap. simpl. rewrite lookup_delete_ne by done.
    rewrite <- (alter_opt_Some (set_next_phys _) p), <- (alter_opt_Some (block_set_size _) p).
    by rewrite !view_alter_opt_id.
  - intros x t. assert (Hout : (x, t) ∈ ph1 ++ ph2 -> x <> l).
    { intros Hx. eapply (layout_ne (ph1 ++ [(p, (o, s1, false))])); rewrite <- app_assoc; [exact Hnd|].
      apply elem_of_mid. by right. }
    rewrite !elem_of_mid. split.
    + intros [[?|[?|?]] ?]; simplify_eq; try done. split; [by right|].
      rewrite <- HD; [done|by apply Hout].
    + intros [[?|Hx] Hd]; simplify_eq; [done|]. rewrite <- HD in Hd by by apply Hout.
      split; [right; by right|done].
Qed.

(** * Splitting *)

Lemma phys_split h ph1 l o s ph2 new need nb :
  Phys h (ph1 ++ (l, (o, s, false)) :: ph2) ->
  h !! new = None -> need mod 2 = 0 -> 0 <= need < U64_MOD ->
  seg_of nb = (o + need, s - need, false) -> is_u64 (blk_size nb) ->
  prev_phys nb = Some l -> next_phys nb = head ph2.*1 ->
  Phys (alter (block_set_size need) l (alter (set_next_phys (Some new)) l
          (alter_opt (set_prev_phys (Some new)) (head ph2.*1) (<[new := nb]> h))))
    (ph1 ++ (l, (o, need, false)) :: (new, (o + need, s - need, false)) :: ph2).
Proof.
  intros P Hnew He Hr Hsn Hun Hpn Hnn. pose proof (phys_nd _ _ P) as Hnd.
  destruct P as [A1 A2 A3 A4]. rewrite fmap_app, !fmap_cons in A1, A2, A4. cbn [fst] in A1, A2, A4.
  pose proof (NoDup_app_cons_inv _ _ _ A2) as (Nl1 & Nl2 & _).
  assert (Hni : new ∉ ph1.*1 ++ l :: ph2.*1).
  { intros Hin%A1. rewrite Hnew in Hin. by destruct Hin. }
  assert (Hln : l <> new) by (intros ->; apply Hni, elem_of_mid; by left).
  assert (Hne : forall x, head ph2.*1 = Some x -> x <> l ∧ x <> new).
  { intros x Hx%head_Some_elem_of. split; intros ->; [done|]. apply Hni, elem_of_mid. right. apply elem_of_app. by right. }
  set (h3 := alter_opt _ _ _).
  constructor; rewrite ?fmap_app, ?fmap_cons; cbn [fst].
  - intros x. subst h3. rewrite !lookup_alter_is_Some, is_Some_alter_opt, lookup_insert_is_Some, A1.
    clear. destruct (decide (x = new)); set_solver.
  - rewrite NoDup_app, !NoDup_cons in *. rewrite not_elem_of_app, not_elem_of_cons in Hni.
    destruct A2 as (B1 & B2 & B3 & B4). destruct Hni as (C1 & C2 & C3).
    split; [done|]. split; [|split; [|split; done]].
    + intros x Hx. specialize (B2 x Hx). clear - B2 C1 Hx. set_solver.
    + rewrite not_elem_of_cons. done.
  - intros x t Hx.
    assert (E : (fun b => (seg_of b, blk_size b)) <$> (alter (set_next_phys (Some new)) l h3 !! x)
        = (fun b => (seg_of b, blk_size b)) <$> (<[new := nb]> h !! x)).
    { subst h3. rewrite <- (alter_opt_Some _ l). by rewrite !view_alter_opt_id. }
    apply elem_of_mid in Hx as [Hx|[Hx|Hx]%elem_of_mid]; simplify_eq.
    + rewrite lookup_insert_ne in E by done.
      destruct (A3 l (o, s, false)) as (b & Hb & Hs & Hu); [apply elem_of_mid; by left|].
      rewrite Hb in E. rewrite lookup_alter_eq. destruct (_ !! l) as [b'|]; [|done]. simpl in E.
      exists (block_set_size need b'). split; [done|]. rewrite seg_set_size by done.
      split; [|by apply raw_set_size]. assert (seg_of b' = (o, s, false)) as E' by congruence.
      unfold seg_of in E'. congruence.
    + rewrite lookup_insert_eq in E. rewrite lookup_alter_ne by done.
      destruct (alter (set_next_phys (Some new)) l h3 !! new) as [b'|]; [|done]. simpl in E.
      exists b'. split; [done|]. split; congruence.
    + assert (x <> l) by by eapply layout_ne.
      assert (x <> new).
      { intros ->. apply (list_elem_of_fmap_2 fst) in Hx. rewrite fmap_app in Hx. apply Hni, elem_of_mid. by right. }
      destruct (A3 x t) as (b & Hb & Hs & Hu); [apply elem_of_mid; by right|].
      rewrite lookup_insert_ne in E by done. rewrite Hb in E. rewrite lookup_alter_ne by done.
      destruct (_ !! x) as [b'|]; [|done]. simpl in E. exists b'. split; [done|]. split; congruence.
  - assert (V : forall x, pview (alter (block_set_size need) l (alter (set_next_phys (Some new)) l h3)) x =
      if decide (x = new) then Some (Some l, head ph2.*1)
      else if decide (head ph2.*1 = Some x) then set_fst (Some new) (pview h x)
      else if decide (Some l = Some x) then set_snd (Some new) (pview h x) else pview h x).
    { intros x. unfold pview at 1. rewrite <- (alter_opt_Some (block_set_size _) l), view_alter_opt_id by done.
      fold (pview (alter (set_next_phys (Some new)) l h3) x).
      rewrite <- (alter_opt_Some _ l), pview_next. subst h3. rewrite pview_prev.
      unfold pview. destruct (decide (x = new)) as [->|Hx].
      - rewrite lookup_insert_eq. rewrite !decide_False; [simpl; congruence| |congruence].
        intros Hx. by destruct (Hne _ Hx).
      - rewrite lookup_insert_ne by done. repeat case_decide; try done. simplify_eq. by edestruct Hne. }
    replace (ph1.*1 ++ l :: new :: ph2.*1) with ((ph1.*1 ++ [l]) ++ new :: ph2.*1) by by rewrite <- app_assoc.
    assert (E : ph1.*1 ++ l :: ph2.*1 = (ph1.*1 ++ [l]) ++ ph2.*1) by by rewrite <- app_assoc.
    rewrite E in A2, A4, Hni. clear E.
    eapply dseg_link; [exact A2|exact Hni| | | | |exact A4]; rewrite ?last_snoc.
    + rewrite V. by rewrite decide_True.
    + intros x Hx1 Hx2 Hx3. rewrite V. by rewrite !decide_False.
    + intros x [= <-]. rewrite V. rewrite decide_False by done.
      rewrite decide_False by (intros Hx; by destruct (Hne _ Hx)). by rewrite decide_True.
    + intros x Hx. rewrite V. rewrite decide_False by by apply Hne. by rewrite decide_True.
Qed.

Lemma rep_split_heap m ph1 l o s ph2 new need nb :
  Rep m (ph1 ++ (l, (o, s, false)) :: ph2) [l] ->
  heap m !! new = None -> need mod 2 = 0 -> 0 <= need < U64_MOD ->
  seg_of nb = (o + need, s - need, false) -> is_u64 (blk_size nb) ->
  prev_phys nb = Some l -> next_phys nb = head ph2.*1 ->
  Rep (set_heap (alter (block_set_size need) l (alter (set_next_phys (Some new)) l
          (alter_opt (set_prev_phys (Some new)) (head ph2.*1) (<[new := nb]> (heap m))))) m)
    (ph1 ++ (l, (o, need, false)) :: (new, (o + need, s - need, false)) :: ph2) [new; l].
Proof.
  intros [P (us & fs & L)] Hnew He Hr Hsn Hun Hpn Hnn. split; [by apply (phys_split _ _ _ o s)|].
  exists us, fs. eapply links_move; [exact L|done|done| |].
  - intros x t Hx Hxd. apply not_elem_of_cons in Hxd as [Hxl _].
    assert (x <> new). { intros ->. destruct (phys_seg _ _ P _ _ Hx) as (b & Hb & _). congruence. }
    unfold fview. simpl. rewrite <- (alter_opt_Some (block_set_size _) l), <- (alter_opt_Some (set_next_phys _) l).
    rewrite !view_alter_opt_id by done. by rewrite lookup_insert_ne by done.
  - intros x t. rewrite !elem_of_mid, !not_elem_of_cons. split.
    + intros [[?|Hx] [? ?]]; simplify_eq. split; [by right; right|]. split; [|done].
      intros ->. destruct (phys_seg _ _ P new t) as (b & Hb & _); [apply elem_of_mid; by right|congruence].
    + intros [[?|[?|Hx]] (? & ? & ?)]; simplify_eq. split; [by right|done].
Qed.

Lemma seg_fresh junk remain p pp np off :
  remain mod 2 = 0 -> 0 <= remain < U64_MOD ->
  let nb := block_mark_as_free (block_set_size remain (mk_block junk p p pp np off)) in
  seg_of nb = (off, remain, false) ∧ is_u64 (blk_size nb).
Proof.
  intros He Hr nb. set (b := mk_block junk p p pp np off) in *.
  pose proof (raw_set_size remain b He Hr) as Hu. pose proof (seg_set_size remain b He Hr) as Hs.
  split; [|by apply raw_mark_free]. unfold nb. rewrite seg_mark_free by done.
  unfold seg_of in Hs. by assert (block_get_size (block_set_size remain b) = remain) as -> by congruence.
Qed.

(** [tlsf_split_block] leaves the block alone when the rest is smaller than
    the alignment or no header can be allocated, and otherwise cuts it. *)
Lemma rep_split c m ph1 l o s ph2 need :
  Rep m (ph1 ++ (l, (o, s, false)) :: ph2) [l] ->
  s mod 2 = 0 -> need mod 2 = 0 -> 0 <= need <= s -> s < U64_MOD -> 0 <= o -> o + s < U64_MOD ->
  (forall new junk, malloc_ret c = Some (new, junk) -> heap m !! new = None) ->
  exists m' ph', tlsf_split_block c m l need = Some m' ∧ Rep m' ph' [l] ∧ meta m' = meta m ∧
    (ph' = ph1 ++ (l, (o, s, false)) :: ph2 ∧ (s - need < 64 \/ malloc_ret c = None)
     \/ 64 <= s - need ∧ exists new,
        ph' = ph1 ++ (l, (o, need, false)) :: (new, (o + need, s - need, false)) :: ph2).
Proof.
  intros HR Hse Hne Hn Hs Ho Hos Hfresh.
  destruct (phys_neighbours _ _ _ _ _ (proj1 HR)) as (b & Hb & Hseg & Hu & _ & Hnx).
  unfold tlsf_split_block. rewrite Hb. simpl.
  assert (block_get_size b = s ∧ data_offset b = o) as [-> Eo] by (unfold seg_of in Hseg; split; congruence).
  rewrite u64_small by mlia. unfold TLSF_ALIGN. destruct (Z.ltb_spec (s - need) 64) as [Hlt|Hge].
  { exists m, (ph1 ++ (l, (o, s, false)) :: ph2). split; [done|]. split; [done|]. split; [done|]. left. auto. }
  destruct (malloc_ret c) as [[new junk]|] eqn:Em.
  2:{ exists m, (ph1 ++ (l, (o, s, false)) :: ph2). split; [done|]. split; [done|]. split; [done|]. left. auto. }
  assert (Hnew : heap m !! new = None) by by eapply Hfresh.
  rewrite Eo, Hnx. rewrite (u64_small (o + need)) by mlia.
  destruct (seg_fresh junk (s - need) None (Some l) (head ph2.*1) (o + need)) as [Hsn Hun]; [zlia|lia|].
  set (nb := block_mark_as_free _) in *.
  pose proof (rep_split_heap m ph1 l o s ph2 new need nb HR Hnew Hne ltac:(lia) Hsn Hun eq_refl eq_refl) as HR'.
  assert (Hl : is_Some ((<[new := nb]> (heap m)) !! l)) by (rewrite lookup_insert_is_Some'; eauto).
  rewrite store_opt_alter.
  2:{ intros x Hx. rewrite lookup_insert_is_Some'. right. apply (phys_dom _ _ (proj1 HR)).
      rewrite fmap_app, fmap_cons. apply elem_of_mid. right. apply elem_of_app. right. by apply head_Some_elem_of. }
  cbn [mbind option_bind].
  rewrite store_alter by by apply is_Some_alter_opt. cbn [mbind option_bind].
  rewrite store_alter by by rewrite lookup_alter_is_Some, is_Some_alter_opt. cbn [mbind option_bind].
  eapply rep_insert_free in HR' as (m' & -> & HR' & Hm').
  - exists m'. eexists. split; [done|]. split; [exact HR'|]. split; [done|]. right. eauto.
  - apply elem_of_mid. right. apply elem_of_mid. by left.
  - intros ->%list_elem_of_singleton. congruence.
Qed.

(** * Merging *)

Lemma merge_prev_used m ph1 l t ph2 D :
  Rep m (ph1 ++ (l, t) :: ph2) D ->
  (forall x o s u, last ph1 = Some (x, (o, s, u)) -> u = true) ->
  merge_prev m l = Some (l, m).
Proof.
  intros HR Hp. destruct (phys_neighbours _ _ _ _ _ (proj1 HR)) as (b & Hb & _ & _ & Hpv & _).
  unfold merge_prev. rewrite Hb. simpl. rewrite Hpv, fmap_last.
  destruct (last ph1) as [[x [[o s] u]]|] eqn:El; [|done]. simpl.
  destruct (rep_lookup _ _ _ x (o, s, u) HR) as (xb & Hxb & Hs & _).
  { apply last_Some_elem_of in El. apply elem_of_app. by left. }
  rewrite Hxb. simpl. rewrite (Hp _ _ _ _ eq_refl) in Hs. unfold seg_of in Hs.
  by assert (block_is_used xb = true) as -> by congruence.
Qed.

Lemma merge_prev_free m ph1 p o1 s1 l o2 s2 ph2 :
  Rep m (ph1 ++ (p, (o1, s1, false)) :: (l, (o2, s2, false)) :: ph2) [l] ->
  (s1 + s2) mod 2 = 0 -> 0 <= s1 + s2 < U64_MOD ->
  exists m', merge_prev m l = Some (p, m')
    ∧ Rep m' (ph1 ++ (p, (o1, s1 + s2, false)) :: ph2) [p] ∧ meta m' = meta m.
Proof.
  intros HR He Hr. pose proof (phys_nd _ _ (proj1 HR)) as Hnd.
  rewrite fmap_app, !fmap_cons in Hnd. apply NoDup_app_cons_inv in Hnd as (_ & Hpl & _).
  assert (E : ph1 ++ (p, (o1, s1, false)) :: (l, (o2, s2, false)) :: ph2
              = (ph1 ++ [(p, (o1, s1, false))]) ++ (l, (o2, s2, false)) :: ph2) by by rewrite <- app_assoc.
  assert (HP := proj1 HR). rewrite E in HP.
  destruct (phys_neighbours _ _ _ _ _ HP) as (b & Hb & _ & _ & Hpv & _).
  unfold merge_prev. rewrite Hb. simpl. rewrite Hpv, fmap_last, last_snoc. simpl.
  destruct (rep_lookup _ _ _ p (o1, s1, false) HR) as (pb & Hpb & Hs & _); [apply elem_of_mid; by left|].
  rewrite Hpb. simpl. assert (block_is_used pb = false) as -> by (unfold seg_of in Hs; congruence).
  destruct (rep_remove_free _ _ _ p o1 s1 HR) as (m1 & -> & HR1 & Hm1).
  { apply elem_of_mid. by left. }
  { rewrite list_elem_of_singleton. intros ->. apply Hpl. left. }
  cbn [mbind option_bind].
  assert (HP1 := proj1 HR1). destruct (phys_neighbours _ _ _ _ _ HP1) as (pb1 & Hpb1 & Hs1 & _ & _ & _).
  rewrite E in HP1. destruct (phys_neighbours _ _ _ _ _ HP1) as (b1 & Hb1 & Hs2 & _ & _ & Hn1).
  rewrite Hpb1, Hb1. cbn [mbind option_bind].
  assert (block_get_size pb1 = s1) as -> by (unfold seg_of in Hs1; congruence).
  assert (block_get_size b1 = s2) as -> by (unfold seg_of in Hs2; congruence).
  rewrite u64_small, Hn1 by done.
  rewrite store_alter by eauto. cbn [mbind option_bind].
  rewrite store_alter by (rewrite lookup_alter_is_Some; eauto). cbn [mbind option_bind].
  rewrite store_opt_alter.
  2:{ intros x Hx%head_Some_elem_of. rewrite !lookup_alter_is_Some. apply (phys_dom _ _ HP1).
      rewrite fmap_app, fmap_cons. apply elem_of_mid. right. apply elem_of_app. by right. }
  cbn [mbind option_bind]. eexists. split; [done|]. split; [|done].
  eapply (rep_absorb _ _ _ _ _ _ _ _ _ [p; l]); [exact HR1|done|done| | | |].
  - by left.
  - right. by left.
  - by left.
  - intros x Hx. rewrite !elem_of_cons. split; [|tauto]. intros [?|[?|?]]; auto. done.
Qed.

Lemma merge_next_used m ph1 l t ph2 D :
  Rep m (ph1 ++ (l, t) :: ph2) D ->
  (forall x o s u, head ph2 = Some (x, (o, s, u)) -> u = true) ->
  merge_next m l = Some m.
Proof.
  intros HR Hp. destruct (phys_neighbours _ _ _ _ _ (proj1 HR)) as (b & Hb & _ & _ & _ & Hnx).
  unfold merge_next. rewrite Hb. simpl. rewrite Hnx.
  destruct ph2 as [|[x [[o s] u]] ph2]; [done|]. simpl in *.
  destruct (rep_lookup _ _ _ x (o, s, u) HR) as (xb & Hxb & Hs & _).
  { apply elem_of_app. right. right. left. }
  rewrite Hxb. simpl. rewrite (Hp _ _ _ _ eq_refl) in Hs. unfold seg_of in Hs.
  by assert (block_is_used xb = true) as -> by congruence.
Qed.

Lemma merge_next_free m ph1 l o1 s1 n o2 s2 ph2 :
  Rep m (ph1 ++ (l, (o1, s1, false)) :: (n, (o2, s2, false)) :: ph2) [l] ->
  (s1 + s2) mod 2 = 0 -> 0 <= s1 + s2 < U64_MOD ->
  exists m', merge_next m l = Some m'
    ∧ Rep m' (ph1 ++ (l, (o1, s1 + s2, false)) :: ph2) [l] ∧ meta m' = meta m.
Proof.
  intros HR He Hr. pose proof (phys_nd _ _ (proj1 HR)) as Hnd.
  rewrite fmap_app, !fmap_cons in Hnd. apply NoDup_app_cons_inv in Hnd as (_ & Hpl & _).
  assert (E : ph1 ++ (l, (o1, s1, false)) :: (n, (o2, s2, false)) :: ph2
              = (ph1 ++ [(l, (o1, s1, false))]) ++ (n, (o2, s2, false)) :: ph2) by by rewrite <- app_assoc.
  destruct (phys_neighbours _ _ _ _ _ (proj1 HR)) as (b & Hb & _ & _ & _ & Hnx).
  unfold merge_next. rewrite Hb. simpl in *. rewrite Hnx.
  destruct (rep_lookup _ _ _ n (o2, s2, false) HR) as (nb & Hnb & Hs & _).
  { apply elem_of_mid. right. apply elem_of_mid. by left. }
  rewrite Hnb. simpl. assert (block_is_used nb = false) as -> by (unfold seg_of in Hs; congruence).
  destruct (rep_remove_free _ _ _ n o2 s2 HR) as (m1 & -> & HR1 & Hm1).
  { apply elem_of_mid. right. apply elem_of_mid. by left. }
  { rewrite list_elem_of_singleton. intros ->. apply Hpl. left. }
  cbn [mbind option_bind].
  assert (HP1 := proj1 HR1). destruct (phys_neighbours _ _ _ _ _ HP1) as (b1 & Hb1 & Hs1 & _ & _ & _).
  rewrite E in HP1. destruct (phys_neighbours _ _ _ _ _ HP1) as (nb1 & Hnb1 & Hs2 & _ & _ & Hn1).
  rewrite Hb1, Hnb1. cbn [mbind option_bind].
  assert (block_get_size b1 = s1) as -> by (unfold seg_of in Hs1; congruence).
  assert (block_get_size nb1 = s2) as -> by (unfold seg_of in Hs2; congruence).
  rewrite u64_small, Hn1 by done.
  rewrite store_alter by eauto. cbn [mbind option_bind].
  rewrite store_alter by (rewrite lookup_alter_is_Some; eauto). cbn [mbind option_bind].
  rewrite store_opt_alter.
  2:{ intros x Hx%head_Some_elem_of. rewrite !lookup_alter_is_Some. apply (phys_dom _ _ HP1).
      rewrite fmap_app, fmap_cons. apply elem_of_mid. right. apply elem_of_app. by right. }
  cbn [mbind option_bind]. eexists. split; [done|]. split; [|done].
  eapply (rep_absorb _ _ _ _ _ _ _ _ _ [n; l]); [exact HR1|done|done| | | |].
  - right. by left.
  - by left.
  - by left.
  - intros x Hx. rewrite !elem_of_cons. split; [|tauto]. intros [?|[?|?]]; auto. done.
Qed.
