(* ===== verification/SwapTlsfProofs.v ===== *)
(** Correctness of the swap-buffer allocator: the layout invariant [Inv], its
    preservation by initialisation, allocation and release, and the
    refinement of the abstract allocator [spec_alloc]/[spec_free], which only
    knows the set of regions handed out. *)

From S2P Require Import Prelude Dlist SwapTlsf SwapTlsfInv SwapTlsfOps.

#[local] Arguments replicate : simpl never.

(** The segments partition [[a, e)] in address order; every offset is a
    multiple of the alignment. *)
Fixpoint tiles (a : Z) (ms : list seg) (e : Z) : Prop :=
  match ms with
  | [] => a = e
  | (o, s, _) :: r => o = a ∧ 0 < s ∧ s mod 2 = 0 ∧ o mod 64 = 0 ∧ tiles (a + s) r e
  end.

(** No two neighbours are both free; [pf] says whether the segment before the
    list is free. *)
Fixpoint coalesced (pf : bool) (ms : list seg) : Prop :=
  match ms with
  | [] => True
  | (_, _, u) :: r => (pf = true -> u = true) ∧ coalesced (negb u) r
  end.

Definition last_free (pf : bool) (ms : list seg) : bool :=
  match last ms with Some (_, _, u) => negb u | None => pf end.

Fixpoint used_sum (ms : list seg) : Z :=
  match ms with [] => 0 | (_, s, u) :: r => (if u then s else 0) + used_sum r end.

Record Shape (m : TLSFManager) (ph : layout) : Prop := {
  shape_rep : Rep m ph [];
  shape_init : initialized m = true;
  shape_size : 2 <= shm_total_size m <= U64_MOD - 64;
  shape_tiles : tiles 0 ph.*2 (2 * (shm_total_size m / 2));
  shape_coalesced : coalesced false ph.*2;
  shape_used : total_used m = used_sum ph.*2;
}.

Definition Inv (m : TLSFManager) : Prop := exists ph, Shape m ph.

(** The regions of the pool that are handed out, and those that are not. *)
Definition used_region (m : TLSFManager) (o s : Z) : Prop :=
  exists l b, heap m !! l = Some b ∧ seg_of b = (o, s, true).
Definition free_region (m : TLSFManager) (o s : Z) : Prop :=
  exists l b, heap m !! l = Some b ∧ seg_of b = (o, s, false).

(** What [malloc] promises: a header it returns is not one of the live ones. *)
Definition malloc_fresh (c : libc) (m : TLSFManager) : Prop :=
  forall l junk, malloc_ret c = Some (l, junk) -> heap m !! l = None.

(** * The abstract allocator *)

Definition disjoint_regions (o1 s1 o2 s2 : Z) : Prop := o1 + s1 <= o2 \/ o2 + s2 <= o1.

Inductive spec_alloc (total : Z) (A : gset (Z * Z)) (size : Z) : Z -> gset (Z * Z) -> Prop :=
  | spec_alloc_ok off s :
      off mod 64 = 0 -> size <= s -> 0 <= off -> off + s <= total ->
      (forall o' s', (o', s') ∈ A -> disjoint_regions off s o' s') ->
      spec_alloc total A size off ({[(off, s)]} ∪ A)
  | spec_alloc_fail : spec_alloc total A size UINT64_MAX A.

Definition spec_free (A : gset (Z * Z)) (off : Z) : gset (Z * Z) := filter (fun r => r.1 <> off) A.

Definition Abs (m : TLSFManager) (A : gset (Z * Z)) : Prop :=
  Inv m ∧ forall o s, (o, s) ∈ A <-> used_region m o s.

(** The two outcomes of a locked allocation. *)
Definition alloc_result (c : libc) (size : Z) (m : TLSFManager) : Prop :=
  let need := align_up TLSF_ALIGN_LOG2 size in
  (tlsf_alloc c size m = Some (UINT64_MAX, m) ∧ forall o s, free_region m o s -> s < need)
  \/ exists ph1 l o s ph2 s' m' ph2', Shape m (ph1 ++ (l, (o, s, false)) :: ph2)
    ∧ tlsf_alloc c size m = Some (o, m') ∧ Shape m' (ph1 ++ (l, (o, s', true)) :: ph2')
    ∧ need <= s' <= s ∧ (s' < need + 64 \/ malloc_ret c = None)
    ∧ (forall t, t.2 = true -> t ∈ ph2'.*2 <-> t ∈ ph2.*2)
    ∧ shm_total_size m' = shm_total_size m.

(** * Layouts *)

Lemma tiles_app a l1 l2 e : tiles a (l1 ++ l2) e <-> exists c, tiles a l1 c ∧ tiles c l2 e.
Proof.
  revert a. induction l1 as [|[[o s] u] r IH]; intros a; simpl.
  - split; [by exists a|]. intros (c & -> & ?). done.
  - rewrite IH. split.
    + intros (? & ? & ? & ? & c & ? & ?). exists c. tauto.
    + intros (c & (? & ? & ? & ? & ?) & ?). eauto 10.
Qed.

Lemma tiles_le a ms e : tiles a ms e -> a <= e.
Proof. revert a. induction ms as [|[[o s] u] r IH]; intros a; simpl; [lia|]. intros (-> & ? & _ & _ & ?%IH). lia. Qed.

Lemma used_sum_app l1 l2 : used_sum (l1 ++ l2) = used_sum l1 + used_sum l2.
Proof. induction l1 as [|[[o s] u] r IH]; simpl; [done|]. rewrite IH. lia. Qed.

Lemma used_sum_bound a ms e : tiles a ms e -> 0 <= used_sum ms <= e - a.
Proof.
  revert a. induction ms as [|[[o s] u] r IH]; intros a; simpl; [lia|].
  intros (-> & ? & _ & _ & H%IH). destruct u; lia.
Qed.

Lemma coalesced_app pf l1 l2 :
  coalesced pf (l1 ++ l2) <-> coalesced pf l1 ∧ coalesced (last_free pf l1) l2.
Proof.
  revert pf. induction l1 as [|[[o s] u] r IH]; intros pf; [simpl; tauto|].
  cbn [app coalesced]. rewrite IH. unfold last_free. rewrite last_cons. destruct (last r) as [[[? ?] ?]|]; tauto.
Qed.

Lemma coalesced_weaken pf ms : coalesced pf ms -> coalesced false ms.
Proof. destruct ms as [|[[o s] u] r]; [done|]. simpl. intros [_ ?]. done. Qed.

Lemma tiles_mid a l1 o s u l2 e :
  tiles a (l1 ++ (o, s, u) :: l2) e ->
  tiles a l1 o ∧ 0 < s ∧ s mod 2 = 0 ∧ o mod 64 = 0 ∧ tiles (o + s) l2 e ∧ a <= o ∧ o + s <= e.
Proof.
  rewrite tiles_app. intros (c & H1 & -> & ? & ? & ? & H2).
  pose proof (tiles_le _ _ _ H1). pose proof (tiles_le _ _ _ H2). repeat split; auto; lia.
Qed.

Lemma tiles_bounds a ms e o s u :
  tiles a ms e -> (o, s, u) ∈ ms -> a <= o ∧ 0 < s ∧ o + s <= e ∧ o mod 64 = 0.
Proof. intros H (l1 & l2 & ->)%list_elem_of_split. apply tiles_mid in H. tauto. Qed.

Lemma tiles_disjoint a l1 o s u l2 e o' s' u' :
  tiles a (l1 ++ (o, s, u) :: l2) e -> (o', s', u') ∈ l1 ++ l2 -> disjoint_regions o s o' s' ∧ o' <> o.
Proof.
  intros (H1 & H2 & _ & _ & H3 & _)%tiles_mid Hin. unfold disjoint_regions.
  apply elem_of_app in Hin as [Hin|Hin].
  - pose proof (tiles_bounds _ _ _ _ _ _ H1 Hin). lia.
  - pose proof (tiles_bounds _ _ _ _ _ _ H3 Hin). lia.
Qed.

Lemma region_iff m ph D o s u :
  Rep m ph D -> (exists l b, heap m !! l = Some b ∧ seg_of b = (o, s, u)) <-> (o, s, u) ∈ ph.*2.
Proof.
  intros HR. rewrite list_elem_of_fmap. split.
  - intros (l & b & Hb & Hs). assert (Hl : l ∈ ph.*1) by (apply (phys_dom _ _ (proj1 HR)); eauto).
    apply list_elem_of_fmap in Hl as ([l' t] & -> & Hin). exists (l', t). split; [|done]. simpl in *.
    destruct (rep_lookup _ _ _ _ _ HR Hin) as (b' & Hb' & <- & _). congruence.
  - intros ([l t] & -> & Hin). destruct (rep_lookup _ _ _ _ _ HR Hin) as (b & Hb & Hs & _). eauto.
Qed.


(** * Allocation *)

Lemma mark_used_layout m ph1 l o s ph2 :
  Rep m (ph1 ++ (l, (o, s, false)) :: ph2) [l] ->
  exists m', (h ← store l block_mark_as_used (heap m); tlsf_insert_used_block (set_heap h m) l) = Some m'
    ∧ Rep m' (ph1 ++ (l, (o, s, true)) :: ph2) [] ∧ meta m' = meta m.
Proof.
  intros HR. rewrite store_alter by (eapply rep_dom; [exact HR|apply elem_of_mid; by left]).
  cbn [mbind option_bind].
  eapply (rep_update _ _ _ _ (o, s, true) _ _ block_mark_as_used) in HR; [|by left| |done].
  - eapply rep_insert_used in HR as (m' & -> & HR & Hm); [by eexists|apply elem_of_mid; by left|].
    apply not_elem_of_nil.
  - intros b Hu Hs. rewrite seg_mark_used by done. unfold seg_of in Hs. simplify_eq. split; [done|].
    by apply raw_mark_used.
Qed.

Lemma rep_set_total_used m t ph D : Rep m ph D -> Rep (set_total_used t m) ph D.
Proof.
  intros [P (us & fs & L)]. split; [done|]. exists us, fs. by eapply links_move; [exact L|..].
Qed.

Lemma meta_eq m m' :
  meta m' = meta m ->
  initialized m' = initialized m ∧ shm_total_size m' = shm_total_size m ∧ total_used m' = total_used m.
Proof. unfold meta. intros. by simplify_eq. Qed.

Lemma alloc_block c m ph1 l o s ph2 size :
  let need := align_up TLSF_ALIGN_LOG2 size in
  Shape m (ph1 ++ (l, (o, s, false)) :: ph2) ->
  (size =? 0) = false -> lock_rc c = 0 -> malloc_fresh c m ->
  tlsf_find_block m need = Some (Some l) -> 0 < need <= s -> need mod 64 = 0 ->
  exists s' m' ph2', tlsf_alloc c size m = Some (o, m') ∧ Shape m' (ph1 ++ (l, (o, s', true)) :: ph2')
    ∧ need <= s' <= s ∧ (s' < need + 64 \/ malloc_ret c = None)
    ∧ (forall t, t.2 = true -> t ∈ ph2'.*2 <-> t ∈ ph2.*2)
    ∧ shm_total_size m' = shm_total_size m.
Proof.
  intros need HS Hz Hlock Hfresh Hfind Hneed Hal. destruct HS as [HR Hi Hsz Ht Hc Hu].
  unfold tlsf_alloc. rewrite Hi, Hz, Hlock. simpl. fold need. rewrite Hfind. cbn [mbind option_bind].
  rewrite fmap_app, fmap_cons in Ht, Hc, Hu. cbn [snd] in Ht, Hc, Hu.
  destruct (tiles_mid _ _ _ _ _ _ _ Ht) as (Ht1 & Hs0 & Hs2 & Ho & Ht2 & Ho0 & Hoe).
  assert (2 * (shm_total_size m / 2) <= shm_total_size m) by zlia.
  destruct (rep_remove_free _ _ _ l o s HR) as (m1 & -> & HR1 & Hm1);
    [apply elem_of_mid; by left|apply not_elem_of_nil|]. cbn [mbind option_bind].
  destruct (rep_split c _ _ _ _ _ _ need HR1) as (m2 & ph' & -> & HR2 & Hm2 & Hcase);
    [done|zlia|lia|lia|lia|lia| |].
  { intros new junk Hmal. specialize (Hfresh _ _ Hmal).
    destruct (heap m1 !! new) eqn:E; [|done]. exfalso.
    assert (is_Some (heap m !! new)) as [? ?]; [|congruence].
    apply (phys_dom _ _ (proj1 HR)), (phys_dom _ _ (proj1 HR1)). eauto. }
  cbn [mbind option_bind].
  assert (exists s' ph2', ph' = ph1 ++ (l, (o, s', false)) :: ph2' ∧ need <= s' <= s
     ∧ (s' < need + 64 \/ malloc_ret c = None) ∧ s' mod 2 = 0
     ∧ (forall t, t.2 = true -> t ∈ ph2'.*2 <-> t ∈ ph2.*2)
     ∧ tiles (o + s') ph2'.*2 (2 * (shm_total_size m / 2)) ∧ coalesced false ph2'.*2 ∧ used_sum ph2'.*2 = used_sum ph2.*2)
    as (s' & ph2' & -> & Hs' & Hmal & Hse & Hin & Ht2' & Hc2' & Hu2').
  { rewrite coalesced_app in Hc. cbn [coalesced negb] in Hc.
    destruct Hcase as [[-> Hcase]|(Hge & new & ->)].
    - exists s, ph2. repeat split; try done; try lia; try tauto.
      + destruct Hcase; [left; lia|by right].
      + eapply coalesced_weaken, Hc.
    - exists need. eexists. split; [done|]. rewrite fmap_cons. cbn [snd tiles coalesced used_sum negb].
      replace (o + need + (s - need)) with (o + s) by lia.
      repeat split; try done; try lia; try zlia; try tauto.
      + intros [->|?]%elem_of_cons; done.
      + intros ?. by right. }
  destruct (mark_used_layout _ _ _ _ _ _ HR2) as (m3 & Em3 & HR3 & Hm3).
  destruct (store l block_mark_as_used (heap m2)) as [h|] eqn:Eh; [|done]. cbn [mbind option_bind] in Em3 |- *.
  rewrite Em3. cbn [mbind option_bind].
  destruct (rep_lookup _ _ _ l (o, s', true) HR3) as (b & -> & Hsb & _); [apply elem_of_mid; by left|]. cbn [mbind option_bind].
  apply meta_eq in Hm1 as (? & ? & ?), Hm2 as (? & ? & ?), Hm3 as (Hi3 & Hz3 & Hu3).
  unfold seg_of in Hsb. injection Hsb as Hb1 Hb2 Hb3. rewrite Hb1, Hb2.
  exists s'. eexists. exists ph2'. split; [done|]. split; [|split; [done|split; [done|split; [done|]]]].
  2:{ simpl. congruence. }
  assert (Htf : tiles 0 (ph1 ++ (l, (o, s', true)) :: ph2').*2 (2 * (shm_total_size m / 2))).
  { rewrite fmap_app, fmap_cons, tiles_app. exists o. cbn [snd tiles]. repeat split; auto; lia. }
  pose proof (used_sum_bound _ _ _ Htf) as Hub.
  assert (Hus : used_sum (ph1 ++ (l, (o, s', true)) :: ph2').*2 = total_used m + s').
  { rewrite Hu, fmap_app, fmap_cons, !used_sum_app. cbn [snd used_sum]. lia. }
  constructor; simpl.
  - by apply rep_set_total_used.
  - congruence.
  - rewrite Hz3. replace (shm_total_size m2) with (shm_total_size m) by congruence. done.
  - rewrite Hz3. replace (shm_total_size m2) with (shm_total_size m) by congruence. done.
  - rewrite fmap_app, fmap_cons, coalesced_app. cbn [snd coalesced negb].
    rewrite coalesced_app in Hc. split; [tauto|]. split; [done|done].
  - rewrite Hus. rewrite u64_small; [congruence|].
    replace (total_used m3) with (total_used m) by congruence. mlia.
Qed.

Lemma align_size size :
  0 < size <= U64_MOD - 64 ->
  let need := align_up TLSF_ALIGN_LOG2 size in
  size <= need < size + 64 ∧ 0 < need ∧ need mod 64 = 0 ∧ need < U64_MOD.
Proof.
  intros H. simpl. unfold TLSF_ALIGN_LOG2. rewrite align_up_eq by mlia.
  change (2 ^ 6) with 64. mzlia.
Qed.

Lemma alloc_cases c size m :
  Inv m -> 0 < size <= U64_MOD - 64 -> lock_rc c = 0 -> malloc_fresh c m -> alloc_result c size m.
Proof.
  intros [ph HS] Hsize Hlock Hfresh. unfold alloc_result.
  destruct (align_size size Hsize) as (Hn1 & Hn2 & Hn3 & Hn4).
  set (need := align_up _ size) in *.
  pose proof (shape_rep _ _ HS) as HR.
  destruct (find_block_spec _ _ _ HR need) as (r & Hfind & Hr).
  assert (Hz : (size =? 0) = false) by (apply Z.eqb_neq; lia).
  destruct r as [l|].
  - right. destruct Hr as (o & s & Hin & _ & Hle).
    apply list_elem_of_split in Hin as (ph1 & ph2 & ->).
    destruct (alloc_block c m ph1 l o s ph2 size HS Hz Hlock Hfresh Hfind ltac:(fold need; lia) Hn3)
      as (s' & m' & ph2' & H). exists ph1, l, o, s, ph2, s', m', ph2'. tauto.
  - left. split.
    + unfold tlsf_alloc. rewrite (shape_init _ _ HS), Hz, Hlock. simpl. fold need. by rewrite Hfind.
    + intros o s Hfr. apply (region_iff _ _ _ _ _ _ HR) in Hfr.
      pose proof (tiles_bounds _ _ _ _ _ _ (shape_tiles _ _ HS) Hfr). pose proof (shape_size _ _ HS).
      apply list_elem_of_fmap in Hfr as ([l t] & Et & Hin). simpl in Et. subst t.
      destruct (Z.lt_ge_cases s need) as [|Hge]; [done|].
      apply (Hr l o s Hin); [apply not_elem_of_nil|]. apply class_of_scanned; [lia|].
      assert (2 * (shm_total_size m / 2) <= shm_total_size m) by zlia. mlia.
Qed.

(** * Release *)

Lemma free_merge_prev m ph1 l o s ph2 e :
  Rep m (ph1 ++ (l, (o, s, false)) :: ph2) [l] ->
  tiles 0 (ph1 ++ (l, (o, s, false)) :: ph2).*2 e -> e < U64_MOD -> coalesced false ph1.*2 ->
  exists l' m' ph1' o' s', merge_prev m l = Some (l', m')
    ∧ Rep m' (ph1' ++ (l', (o', s', false)) :: ph2) [l'] ∧ meta m' = meta m
    ∧ tiles 0 (ph1' ++ (l', (o', s', false)) :: ph2).*2 e
    ∧ coalesced false ph1'.*2 ∧ last_free false ph1'.*2 = false
    ∧ used_sum ph1'.*2 = used_sum ph1.*2
    ∧ (forall t, t.2 = true -> t ∈ ph1'.*2 <-> t ∈ ph1.*2).
Proof.
  intros HR Ht He Hc. destruct (last_free false ph1.*2) eqn:Elf.
  - destruct ph1 as [|[p [[o1 s1] u1]] ph1 _] using rev_ind; [done|].
    unfold last_free in Elf. rewrite fmap_last, last_snoc in Elf. destruct u1; [done|].
    rewrite fmap_app, coalesced_app in Hc. rewrite <- app_assoc in HR, Ht. simpl in HR, Ht.
    assert (Hs := Ht). rewrite fmap_app, !fmap_cons in Hs. cbn [snd] in Hs.
    apply tiles_mid in Hs as (Ht1 & H1 & H2 & H3 & Ht2 & H4 & H5).
    cbn [tiles] in Ht2. destruct Ht2 as (-> & H6 & H7 & H8 & Ht2). pose proof (tiles_le _ _ _ Ht2).
    destruct (merge_prev_free _ _ _ _ _ _ _ _ _ HR) as (m' & Em & HR' & Hm); [zlia|lia|].
    exists p, m', ph1, o1, (s1 + s). split; [done|]. split; [done|]. split; [done|].
    split; [|split; [tauto|split; [|split]]].
    + rewrite fmap_app, fmap_cons, tiles_app. exists o1. cbn [snd tiles].
      rewrite Z.add_assoc. repeat split; auto; [lia|zlia].
    + destruct (last_free false ph1.*2) eqn:E; [|done]. destruct Hc as [_ [Hc _]]. by specialize (Hc eq_refl).
    + rewrite fmap_app, used_sum_app. simpl. lia.
    + intros t Hu. rewrite fmap_app, elem_of_app. split; [tauto|]. intros [?|Ht']; [done|].
      apply list_elem_of_singleton in Ht'. by subst t.
  - exists l, m, ph1, o, s. split.
    { eapply merge_prev_used; [exact HR|]. intros x o1 s1 u Hl. unfold last_free in Elf.
      rewrite fmap_last, Hl in Elf. simpl in Elf. by destruct u. }
    split_and!; done.
Qed.

Lemma free_merge_next m ph1 l o s ph2 e :
  Rep m (ph1 ++ (l, (o, s, false)) :: ph2) [l] ->
  tiles 0 (ph1 ++ (l, (o, s, false)) :: ph2).*2 e -> e < U64_MOD -> coalesced false ph2.*2 ->
  exists m' ph2' s', merge_next m l = Some m'
    ∧ Rep m' (ph1 ++ (l, (o, s', false)) :: ph2') [l] ∧ meta m' = meta m
    ∧ tiles 0 (ph1 ++ (l, (o, s', false)) :: ph2').*2 e
    ∧ coalesced true ph2'.*2 ∧ used_sum ph2'.*2 = used_sum ph2.*2
    ∧ (forall t, t.2 = true -> t ∈ ph2'.*2 <-> t ∈ ph2.*2).
Proof.
  intros HR Ht He Hc. destruct ph2 as [|[n [[o2 s2] []]] ph2].
  - exists m, [], s. split; [by eapply merge_next_used; [exact HR|]|]. done.
  - exists m, ((n, (o2, s2, true)) :: ph2), s. split.
    { eapply merge_next_used; [exact HR|]. intros x ? ? u ?. by simplify_eq/=. }
    cbn [fmap list_fmap coalesced snd] in Hc. split_and!; try done. cbn. tauto.
  - assert (Hs := Ht). rewrite fmap_app, !fmap_cons in Hs. cbn [snd] in Hs.
    apply tiles_mid in Hs as (Ht1 & H1 & H2 & H3 & Ht2 & H4 & H5).
    cbn [tiles] in Ht2. destruct Ht2 as (-> & H6 & H7 & H8 & Ht2). pose proof (tiles_le _ _ _ Ht2).
    destruct (merge_next_free _ _ _ _ _ _ _ _ _ HR) as (m' & Em & HR' & Hm); [zlia|lia|].
    exists m', ph2, (s + s2). split; [done|]. split; [done|]. split; [done|].
    rewrite fmap_cons in Hc. cbn [coalesced snd negb] in Hc.
    split; [|split; [tauto|split]].
    + rewrite fmap_app, fmap_cons, tiles_app. exists o. cbn [snd tiles].
      rewrite Z.add_assoc. repeat split; auto; [lia|zlia].
    + done.
    + intros t Hu. rewrite fmap_cons, elem_of_cons. split; [tauto|]. intros [->|?]; done.
Qed.

Lemma mark_free_layout m ph1 l o s ph2 :
  Rep m (ph1 ++ (l, (o, s, true)) :: ph2) [l] ->
  exists h, store l block_mark_as_free (heap m) = Some h
    ∧ Rep (set_heap h m) (ph1 ++ (l, (o, s, false)) :: ph2) [l].
Proof.
  intros HR. rewrite store_alter by (eapply rep_dom; [exact HR|apply elem_of_mid; by left]).
  eexists. split; [done|].
  eapply (rep_update _ _ _ _ (o, s, false) _ _ block_mark_as_free) in HR; [exact HR|by left| |done].
  intros b Hu Hs. rewrite seg_mark_free by done. unfold seg_of in Hs. simplify_eq. split; [done|].
  by apply raw_mark_free.
Qed.

Lemma find_used_offset m ph1 l o s u ph2 :
  Shape m (ph1 ++ (l, (o, s, u)) :: ph2) -> tlsf_find_block_by_offset m o = Some (Some l).
Proof.
  intros HS. destruct (find_block_by_offset_spec _ _ _ (shape_rep _ _ HS) o) as (r & -> & Hr).
  assert (Hin : (l, (o, s, u)) ∈ ph1 ++ (l, (o, s, u)) :: ph2) by (apply elem_of_mid; by left).
  destruct r as [l'|].
  - destruct Hr as (s' & u' & [?|Hin']%elem_of_mid & _); [by simplify_eq|exfalso].
    apply (list_elem_of_fmap_2 snd) in Hin'. rewrite fmap_app in Hin'.
    pose proof (shape_tiles _ _ HS) as Ht. rewrite fmap_app, fmap_cons in Ht.
    apply (tiles_disjoint _ _ _ _ _ _ _ _ _ _ Ht) in Hin' as [_ ?]. done.
  - apply Hr, not_elem_of_nil in Hin. done.
Qed.

Lemma free_block c m ph1 l o s ph2 :
  Shape m (ph1 ++ (l, (o, s, true)) :: ph2) -> lock_rc c = 0 ->
  exists m' ph', tlsf_free c o m = Some m' ∧ Shape m' ph'
    ∧ (forall t, t.2 = true -> t ∈ ph'.*2 <-> t ∈ (ph1 ++ ph2).*2)
    ∧ shm_total_size m' = shm_total_size m.
Proof.
  intros HS Hlock. pose proof (find_used_offset _ _ _ _ _ _ _ HS) as Hfind.
  destruct HS as [HR Hi Hsz Ht Hc Hu].
  assert (Hmid := Ht). rewrite fmap_app, fmap_cons in Hmid. apply tiles_mid in Hmid as (_ & Hs0 & _ & _ & _ & Ho0 & Hoe).
  assert (2 * (shm_total_size m / 2) <= shm_total_size m) by zlia.
  unfold tlsf_free. rewrite Hi, Hlock. simpl. rewrite (proj2 (Z.leb_gt _ _)) by lia.
  rewrite Hfind. cbn [mbind option_bind].
  assert (Hin : (l, (o, s, true)) ∈ ph1 ++ (l, (o, s, true)) :: ph2) by (apply elem_of_mid; by left).
  destruct (rep_lookup _ _ _ _ _ HR Hin) as (b & -> & Hb & _). cbn [mbind option_bind].
  assert (block_is_used b = true) as -> by (unfold seg_of in Hb; congruence). cbn [negb].
  destruct (rep_remove_used _ _ _ _ _ _ HR Hin) as (m1 & -> & HR1 & Hm1); [apply not_elem_of_nil|].
  cbn [mbind option_bind].
  destruct (rep_lookup _ _ _ _ _ HR1 Hin) as (b1 & -> & Hb1 & _). cbn [mbind option_bind].
  assert (block_get_size b1 = s) as -> by (unfold seg_of in Hb1; congruence).
  apply (rep_set_total_used _ (u64 (total_used m1 - s))) in HR1.
  destruct (mark_free_layout _ _ _ _ _ _ HR1) as (h & Hst & HR2). simpl in Hst. rewrite Hst.
  cbn [mbind option_bind].
  rewrite fmap_app, fmap_cons, coalesced_app in Hc. cbn [coalesced snd negb] in Hc. destruct Hc as (Hc1 & _ & Hc2).
  assert (Ht2 : tiles 0 (ph1 ++ (l, (o, s, false)) :: ph2).*2 (2 * (shm_total_size m / 2))).
  { rewrite fmap_app, fmap_cons, tiles_app in Ht |- *. done. }
  destruct (free_merge_prev _ _ _ _ _ _ _ HR2 Ht2 ltac:(mlia) Hc1)
    as (l' & m3 & ph1' & o' & s' & -> & HR3 & Hm3 & Ht3 & Hc3 & Hlf & Hu3 & Hin3). cbn [mbind option_bind].
  destruct (free_merge_next _ _ _ _ _ _ _ HR3 Ht3 ltac:(mlia) Hc2)
    as (m4 & ph2' & s'' & -> & HR4 & Hm4 & Ht4 & Hc4 & Hu4 & Hin4). cbn [mbind option_bind].
  destruct (rep_insert_free _ _ [] l' o' s'' HR4) as (m5 & -> & HR5 & Hm5);
    [apply elem_of_mid; by left|apply not_elem_of_nil|].
  apply meta_eq in Hm1 as (? & ? & ?), Hm3 as (? & ? & ?), Hm4 as (? & ? & ?), Hm5 as (Hi5 & Hz5 & Hu5). simpl in *.
  assert (Hz : shm_total_size m5 = shm_total_size m) by congruence.
  exists m5, (ph1' ++ (l', (o', s'', false)) :: ph2'). split; [done|]. split; [|split; [|done]].
  - constructor; rewrite ?Hz; try done; [congruence| |].
    + rewrite fmap_app, fmap_cons, coalesced_app. cbn [coalesced snd negb]. by rewrite Hlf.
    + pose proof (used_sum_bound _ _ _ Ht4) as Hb4.
      rewrite fmap_app, fmap_cons, used_sum_app in Hu, Hb4 |- *. cbn [used_sum snd] in *.
      replace (total_used m5) with (u64 (total_used m1 - s)) by congruence.
      rewrite u64_small; [lia|]. mlia.
  - intros t Hut. rewrite !fmap_app, fmap_cons, elem_of_mid, elem_of_app, elem_of_app.
    rewrite Hin3, Hin4 by done. split; [|tauto]. intros [->|?]; done.
Qed.

Lemma free_miss c m off :
  Inv m -> lock_rc c = 0 -> (forall s, ~ used_region m off s) -> tlsf_free c off m = Some m.
Proof.
  intros [ph HS] Hlock Hno. unfold tlsf_free. rewrite (shape_init _ _ HS), Hlock. simpl.
  destruct (Z.leb_spec (shm_total_size m) off); [done|].
  destruct (find_block_by_offset_spec _ _ _ (shape_rep _ _ HS) off) as (r & -> & Hr). simpl.
  destruct r as [l|]; [|done]. destruct Hr as (s & u & Hin & _).
  destruct (rep_lookup _ _ _ _ _ (shape_rep _ _ HS) Hin) as (b & Hb & Hs & _). rewrite Hb. simpl.
  destruct u; [|by assert (block_is_used b = false) as -> by (unfold seg_of in Hs; congruence)].
  exfalso. apply (Hno s). by exists l, b.
Qed.

(** * Initialisation *)

Lemma seg_init junk size :
  0 <= size < U64_MOD ->
  let b := block_mark_as_free (block_set_size size (mk_block junk None None None None 0)) in
  seg_of b = (0, 2 * (size / 2), false) ∧ is_u64 (blk_size b).
Proof.
  intros Hs b. set (b0 := block_set_size size _) in *.
  assert (Hj : Z.land junk 1 = junk mod 2) by (change 1 with (Z.ones 1); rewrite Z.land_ones by lia; done).
  assert (Hhalf : blk_size b0 / 2 = size / 2).
  { subst b0. simpl. rewrite Hj, <- !Z.div2_div, !Z.div2_spec, Z.shiftr_lor.
    rewrite <- (Z.div2_spec (junk mod 2)), Z.div2_div. replace (junk mod 2 / 2) with 0 by zlia.
    by rewrite Z.lor_0_r. }
  assert (Hu : is_u64 (blk_size b0)) by mzlia.
  split; [|by apply raw_mark_free]. unfold b. rewrite seg_mark_free by done.
  rewrite block_get_size_eq, Hhalf by done. done.
Qed.

Lemma init_shape c base size m l junk :
  initialized m = false -> heap m = ∅ -> lock_rc c = 0 -> malloc_ret c = Some (l, junk) ->
  2 <= size <= U64_MOD - 64 ->
  exists m', tlsf_pool_init c base size m = Some (0, m') ∧ Shape m' [(l, (0, 2 * (size / 2), false))]
    ∧ shm_total_size m' = size ∧ shm_base m' = base.
Proof.
  intros Hi Hh Hlock Hmal Hsize. unfold tlsf_pool_init. rewrite Hi, Hlock, Hmal, Hh. simpl.
  destruct (seg_init junk size ltac:(lia)) as [Hs Hu]. set (nb := block_mark_as_free _) in *.
  set (m1 := set_heap _ _).
  assert (HR : Rep m1 [(l, (0, 2 * (size / 2), false))] [l]).
  { split.
    - constructor; simpl.
      + intros x. rewrite lookup_insert_is_Some', list_elem_of_singleton, lookup_empty.
        split; [intros [?|[? ?]]; [done|done]|by left].
      + apply NoDup_singleton.
      + intros x s Hx%list_elem_of_singleton. simplify_eq. exists nb. rewrite lookup_insert_eq. done.
      + split; [|done]. unfold pview. by rewrite lookup_insert_eq.
    - exists [], (fun _ => []). constructor; simpl; try done.
      + intros k Hk. by apply lookup_replicate_2.
      + intros _. constructor.
      + intros k x. split; [by intros ?%not_elem_of_nil|]. intros (o & s & Hx%list_elem_of_singleton & Hn & _).
        simplify_eq. destruct Hn. by left.
      + constructor.
      + intros x. split; [by intros ?%not_elem_of_nil|]. intros (o & s & Hx%list_elem_of_singleton & _). by simplify_eq. }
  destruct (rep_insert_free _ _ [] l 0 (2 * (size / 2)) HR) as (m2 & -> & HR2 & Hm2);
    [by left|apply not_elem_of_nil|]. simpl. eexists. split; [done|].
  unfold meta in Hm2. simpl in Hm2. injection Hm2 as H1 H2 H3 H4. simpl.
  split; [|split; done]. constructor; simpl; rewrite ?H3; try done.
  - destruct HR2 as [P (us & fs & L)]. split; [done|]. exists us, fs. by eapply links_move; [exact L|..].
  - split_and!; try done; zlia.
Qed.
