(* ===== verification/SwapTlsfThms.v ===== *)
(** The properties of the swap-buffer allocator. *)

From S2P Require Import Prelude Dlist SwapTlsf SwapTlsfInv SwapTlsfOps SwapTlsfProofs.

(** The managers that a run of the program can reach: initialisation of an
    empty manager, then any sequence of allocations and releases, with any
    answers of the C library. *)
Inductive Reach : TLSFManager -> Prop :=
  | reach_init c base size m m' l junk :
      initialized m = false -> heap m = ∅ -> malloc_ret c = Some (l, junk) -> lock_rc c = 0 ->
      2 <= size <= U64_MOD - 64 -> tlsf_pool_init c base size m = Some (0, m') -> Reach m'
  | reach_alloc c size m off m' :
      Reach m -> malloc_fresh c m -> 0 <= size <= U64_MOD - 64 ->
      tlsf_alloc c size m = Some (off, m') -> Reach m'
  | reach_free c off m m' : Reach m -> tlsf_free c off m = Some m' -> Reach m'.

(** Concrete library answers and a pool of 4096 bytes for the examples. *)
Definition libc1 : libc := mk_libc 0 (Some (1%positive, 0)).
Definition libc2 : libc := mk_libc 0 (Some (2%positive, 7)).
Definition pool4096 : TLSFManager := default tlsf_zero (snd <$> tlsf_pool_init libc1 0 4096 tlsf_zero).
Definition pool_one : TLSFManager := default tlsf_zero (snd <$> tlsf_alloc libc2 100 pool4096).

Definition pool_back : TLSFManager := default tlsf_zero (tlsf_free libc2 0 pool_one).

(** * From layouts to regions *)

Lemma inv_alloc_outcome c size m :
  Inv m -> 0 < size <= U64_MOD - 64 -> lock_rc c = 0 -> malloc_fresh c m ->
  (tlsf_alloc c size m = Some (UINT64_MAX, m)
     ∧ forall o s, free_region m o s -> s < align_up TLSF_ALIGN_LOG2 size)
  \/ exists off s m', tlsf_alloc c size m = Some (off, m') ∧ Inv m'
    ∧ align_up TLSF_ALIGN_LOG2 size <= s ∧ off mod 64 = 0 ∧ 0 <= off ∧ off + s <= shm_total_size m
    ∧ (exists s0, free_region m off s0 ∧ s <= s0)
    ∧ (forall o' s', used_region m o' s' -> disjoint_regions off s o' s')
    ∧ (forall o' s', used_region m' o' s' <-> (o', s') = (off, s) \/ used_region m o' s')
    ∧ shm_total_size m' = shm_total_size m.
Proof.
  intros HI Hsize Hlock Hfresh.
  destruct (alloc_cases c size m HI Hsize Hlock Hfresh) as
    [?|(ph1 & l & o & s & ph2 & s' & m' & ph2' & HS & Ha & HS' & Hs' & _ & Hin & Htot)]; [by left|right].
  pose proof (shape_rep _ _ HS) as HR. pose proof (shape_rep _ _ HS') as HR'.
  pose proof (shape_tiles _ _ HS) as Ht. rewrite fmap_app, fmap_cons in Ht. cbn [snd] in Ht.
  pose proof (tiles_mid _ _ _ _ _ _ _ Ht) as (_ & H1 & H2 & H3 & _ & H4 & H5).
  assert (2 * (shm_total_size m / 2) <= shm_total_size m) by zlia.
  exists o, s', m'. split; [done|]. split; [by eexists|]. split; [lia|]. split; [done|]. split; [done|].
  split; [lia|]. split; [|split; [|split; [|done]]].
  - exists s. split; [|lia]. apply (region_iff _ _ _ _ _ _ HR). rewrite fmap_app, fmap_cons. apply elem_of_mid. by left.
  - intros o' s'' Hu. apply (region_iff _ _ _ _ _ _ HR) in Hu. rewrite fmap_app, fmap_cons in Hu.
    apply elem_of_mid in Hu as [?|Hu]; [by simplify_eq/=|].
    destruct (tiles_disjoint _ _ _ _ _ _ _ _ _ _ Ht Hu) as [Hd _]. unfold disjoint_regions in *. lia.
  - intros o' s''. unfold used_region. rewrite (region_iff _ _ _ _ _ _ HR), (region_iff _ _ _ _ _ _ HR').
    rewrite !fmap_app, !fmap_cons, !elem_of_mid, !elem_of_app, Hin by done. cbn [snd].
    split; [intros [?|[?|?]]; simplify_eq; auto|intros [?|[?|[?|?]]]; simplify_eq; auto].
Qed.

Lemma inv_free_outcome c off m :
  Inv m -> lock_rc c = 0 ->
  exists m', tlsf_free c off m = Some m' ∧ Inv m'
    ∧ (forall o s, used_region m' o s <-> used_region m o s ∧ o <> off)
    ∧ shm_total_size m' = shm_total_size m.
Proof.
  intros [ph HS] Hlock. pose proof (shape_rep _ _ HS) as HR.
  destruct (decide (Exists (fun t => t.1.1 = off ∧ t.2 = true) ph.*2)) as [Hex|Hno].
  - apply Exists_exists in Hex as ([[o s] u] & Hin & Ho & Hu). simpl in Ho, Hu. subst o u.
    apply list_elem_of_fmap in Hin as ([l t] & Et & Hin). simpl in Et. subst t.
    apply list_elem_of_split in Hin as (ph1 & ph2 & ->).
    destruct (free_block c m ph1 l off s ph2 HS Hlock) as (m' & ph' & Hf & HS' & Hin & Htot).
    exists m'. split; [done|]. split; [by eexists|]. split; [|done].
    intros o' s'. unfold used_region. rewrite (region_iff _ _ _ _ _ _ HR), (region_iff _ _ _ _ _ _ (shape_rep _ _ HS')).
    rewrite Hin by done. pose proof (shape_tiles _ _ HS) as Ht.
    rewrite fmap_app, fmap_cons in Ht. rewrite !fmap_app, fmap_cons, elem_of_mid. cbn [snd] in *. split.
    + intros Hx. split; [by right|]. by destruct (tiles_disjoint _ _ _ _ _ _ _ _ _ _ Ht Hx).
    + intros [[?|?] ?]; [by simplify_eq|done].
  - assert (Hn : forall s, ~ used_region m off s).
    { intros s Hu. apply (region_iff _ _ _ _ _ _ HR) in Hu. apply Hno, Exists_exists. eauto. }
    exists m. split; [apply free_miss; [by eexists|done|done]|]. split; [by eexists|]. split; [|done].
    intros o s. split; [|tauto]. intros Hu. split; [done|]. intros ->. by apply (Hn s).
Qed.

(** Two coalesced layouts of the same pool with the same used segments are
    equal: the free segments are what is left between the used ones. *)
Lemma layout_canonical pf a ms1 ms2 e :
  tiles a ms1 e -> tiles a ms2 e -> coalesced pf ms1 -> coalesced pf ms2 ->
  (forall o s, (o, s, true) ∈ ms1 <-> (o, s, true) ∈ ms2) -> ms1 = ms2.
Proof.
  revert pf a ms2. induction ms1 as [|[[o1 s1] u1] r1 IH]; intros pf a [|[[o2 s2] u2] r2] Ht1 Ht2 Hc1 Hc2 Hin.
  - done.
  - simpl in *. destruct Ht2 as (-> & ? & _ & _ & H%tiles_le). lia.
  - simpl in *. destruct Ht1 as (-> & ? & _ & _ & H%tiles_le). lia.
  - cbn [tiles coalesced] in *. destruct Ht1 as (-> & P1 & _ & _ & Ht1), Ht2 as (-> & P2 & _ & _ & Ht2).
    destruct Hc1 as [_ Hc1], Hc2 as [_ Hc2].
    assert (Hoff : forall o s u, (o, s, u) ∈ r1 -> a + s1 <= o) by (intros ? ? ? Hx; apply (tiles_bounds _ _ _ _ _ _ Ht1) in Hx; lia).
    assert (Hoff2 : forall o s u, (o, s, u) ∈ r2 -> a + s2 <= o) by (intros ? ? ? Hx; apply (tiles_bounds _ _ _ _ _ _ Ht2) in Hx; lia).
    assert (Hhd : u1 = true -> u2 = true ∧ s1 = s2).
    { intros ->. assert (H : (a, s1, true) ∈ (a, s2, u2) :: r2) by (apply Hin; left).
      apply elem_of_cons in H as [?|H]; [by simplify_eq|].
      exfalso. specialize (Hoff2 _ _ _ H). lia. }
    assert (Hhd2 : u2 = true -> u1 = true ∧ s1 = s2).
    { intros ->. assert (H : (a, s2, true) ∈ (a, s1, u1) :: r1) by (apply Hin; left).
      apply elem_of_cons in H as [?|H]; [by simplify_eq|].
      exfalso. specialize (Hoff _ _ _ H). lia. }
    assert (Hgap : forall r s s' ms, 0 < s -> 0 < s' -> s < s' -> tiles (a + s) r e -> tiles (a + s') ms e -> coalesced true r ->
       (forall o t, (o, t, true) ∈ (a, s, false) :: r -> (o, t, true) ∈ (a, s', false) :: ms) -> False).
    { intros r s s' ms ? ? Hlt Hr Hms Hcr Hsub. destruct r as [|[[o3 s3] u3] r]; simpl in *.
      - apply tiles_le in Hms. lia.
      - destruct Hr as (-> & ? & _), Hcr as [Hu _]. specialize (Hu eq_refl). subst u3.
        destruct (proj1 (elem_of_cons _ _ _) (Hsub (a + s) s3 ltac:(right; left))) as [?|Hx]; [by simplify_eq|].
        apply (tiles_bounds _ _ _ _ _ _ Hms) in Hx. lia. }
    assert (u1 = u2 ∧ s1 = s2) as [-> ->].
    { destruct u1; [by destruct (Hhd eq_refl)|]. destruct u2; [by destruct (Hhd2 eq_refl)|]. split; [done|].
      destruct (Z.lt_trichotomy s1 s2) as [Hlt|[?|Hlt]]; [exfalso|done|exfalso].
      - eapply (Hgap r1 s1 s2 r2); eauto. intros. by apply Hin.
      - eapply (Hgap r2 s2 s1 r1); eauto. intros. by apply Hin. }
    f_equal. eapply IH; eauto. intros o s. specialize (Hin o s). rewrite !elem_of_cons in Hin. split; intros Hx.
    + destruct (proj1 Hin (or_intror Hx)) as [?|?]; [|done]. simplify_eq. specialize (Hoff _ _ _ Hx). lia.
    + destruct (proj2 Hin (or_intror Hx)) as [?|?]; [|done]. simplify_eq. specialize (Hoff2 _ _ _ Hx). lia.
Qed.

Lemma reach_inv m : Reach m -> Inv m.
Proof.
  induction 1 as [c base size m m' l junk Hi Hh Hmal Hlock Hsz Hinit|c size m off m' _ IH Hfresh Hsz Ha|c off m m' _ IH Hf].
  - destruct (init_shape c base size m l junk Hi Hh Hlock Hmal Hsz) as (m2 & E & HS & _). simplify_eq. by eexists.
  - destruct (decide (size = 0 \/ lock_rc c <> 0)) as [Hcase|Hcase].
    + unfold tlsf_alloc in Ha. destruct (negb (initialized m) || (size =? 0)) eqn:E; [by simplify_eq|].
      apply orb_false_iff in E as [_ E%Z.eqb_neq]. destruct (Z.eqb_spec (lock_rc c) 0); [tauto|by simplify_eq/=].
    + destruct (inv_alloc_outcome c size m IH) as [[E _]|(o & s & m2 & E & HI & _)]; try done; try lia; by simplify_eq.
  - destruct (decide (lock_rc c = 0)) as [Hl|Hl].
    + destruct (inv_free_outcome c off m IH Hl) as (m2 & E & HI & _). by simplify_eq.
    + unfold tlsf_free in Hf. destruct (negb (initialized m) || _); [by simplify_eq|].
      destruct (Z.eqb_spec (lock_rc c) 0); [done|by simplify_eq/=].
Qed.

Lemma pool4096_reach : Reach pool4096.
Proof. by eapply (reach_init libc1 0 4096 tlsf_zero); vm_compute. Qed.

Lemma pool4096_fresh : malloc_fresh libc2 pool4096.
Proof. intros l junk Hm. vm_compute in Hm. simplify_eq. by vm_compute. Qed.

Lemma pool_back_reach : Reach pool_back.
Proof.
  apply (reach_free libc2 0 pool_one); [|by vm_compute].
  apply (reach_alloc libc2 100 pool4096 0); [exact pool4096_reach|exact pool4096_fresh|mlia|by vm_compute].
Qed.

Lemma pool4096_abs : Abs pool4096 ∅.
Proof.
  split; [apply reach_inv, pool4096_reach|]. intros o s. split; [set_solver|].
  intros (l & b & Hb & Hs). exfalso.
  assert (Hl : heap pool4096 = {[ 1%positive := mk_block 4096 None None None None 0 ]}) by by vm_compute.
  rewrite Hl in Hb. apply lookup_singleton_Some in Hb as [_ <-]. by vm_compute in Hs.
Qed.

(** * Properties *)

(** C1. [tlsf_alloc] implements the abstract allocator: on a manager whose
    used blocks are the regions [A], an allocation of [size] bytes returns
    (without touching unallocated memory and with every loop terminating),
    and either reports failure and leaves the set of regions alone, or
    returns the 64-byte aligned offset of a new region of at least [size]
    bytes inside the pool, disjoint from every region of [A], all of which
    stay as they are. *)
Theorem tlsf_alloc_refines c size m A :
  Abs m A -> 0 < size <= U64_MOD - 64 -> lock_rc c = 0 -> malloc_fresh c m ->
  exists off m' A', tlsf_alloc c size m = Some (off, m') ∧ Abs m' A'
    ∧ spec_alloc (shm_total_size m) A size off A' ∧ shm_total_size m' = shm_total_size m.
Proof.
  intros [HI HA] Hsz Hlock Hfresh. pose proof (align_size size Hsz) as (Hn & _).
  destruct (inv_alloc_outcome c size m HI Hsz Hlock Hfresh)
    as [[E _]|(off & s & m' & E & HI' & Hs & Hal & H0 & Hend & _ & Hdis & Hreg & Htot)].
  - exists UINT64_MAX, m, A. split; [done|]. split; [done|]. split; [constructor|done].
  - exists off, m', ({[(off, s)]} ∪ A). split; [done|]. split; [|split; [|done]].
    + split; [done|]. intros o' s'. rewrite Hreg, <- HA. set_solver.
    + constructor; try lia. intros o' s' ?%HA. by apply Hdis.
Qed.

Lemma tlsf_alloc_refines_witness :
  exists off m' A', tlsf_alloc libc2 100 pool4096 = Some (off, m') ∧ Abs m' A'
    ∧ spec_alloc (shm_total_size pool4096) ∅ 100 off A' ∧ shm_total_size m' = shm_total_size pool4096.
Proof.
  apply (tlsf_alloc_refines libc2 100 pool4096 ∅);
    [exact pool4096_abs|mlia|reflexivity|exact pool4096_fresh].
Defined.

(** C3. [tlsf_free] implements the abstract release: it returns, the region
    that starts at the given offset is no longer handed out, every other
    region is untouched, and an offset at which no region starts changes
    nothing. *)
Theorem tlsf_free_refines c off m A :
  Abs m A -> lock_rc c = 0 ->
  exists m', tlsf_free c off m = Some m' ∧ Abs m' (spec_free A off)
    ∧ shm_total_size m' = shm_total_size m ∧ ((forall s, (off, s) ∉ A) -> m' = m).
Proof.
  intros [HI HA] Hlock. destruct (inv_free_outcome c off m HI Hlock) as (m' & E & HI' & Hreg & Htot).
  exists m'. split; [done|]. split; [|split; [done|]].
  - split; [done|]. intros o s. unfold spec_free. rewrite Hreg, <- HA, elem_of_filter. simpl. tauto.
  - intros Hno. rewrite (free_miss c m off HI Hlock) in E; [by simplify_eq|].
    intros s Hu. by apply (Hno s), HA.
Qed.

Lemma tlsf_free_refines_witness :
  exists m', tlsf_free libc2 0 pool4096 = Some m' ∧ Abs m' (spec_free ∅ 0)
    ∧ shm_total_size m' = shm_total_size pool4096 ∧ ((forall s, (0, s) ∉ (∅ : gset (Z * Z))) -> m' = pool4096).
Proof. apply (tlsf_free_refines libc2 0 pool4096 ∅); [exact pool4096_abs|reflexivity]. Defined.

(** An allocation succeeds exactly when some free region is large enough
    for the rounded size: the search skips no class that could hold one. *)
Theorem tlsf_alloc_complete c size m :
  Inv m -> 0 < size <= U64_MOD - 64 -> lock_rc c = 0 -> malloc_fresh c m ->
  (exists off m', tlsf_alloc c size m = Some (off, m') ∧ off <> UINT64_MAX)
  <-> exists o s, free_region m o s ∧ align_up TLSF_ALIGN_LOG2 size <= s.
Proof.
  intros HI Hsz Hlock Hfresh.
  destruct (inv_alloc_outcome c size m HI Hsz Hlock Hfresh)
    as [[E Hno]|(off & s & m' & E & _ & Hs & Hal & _ & _ & (s0 & Hfr & Hle) & _)].
  - rewrite E. split; [intros (? & ? & ? & ?); by simplify_eq|].
    intros (o & s & Hfr & Hle). specialize (Hno o s Hfr). lia.
  - split; intros _; [exists off, s0; split; [done|lia]|]. exists off, m'. split; [done|].
    unfold UINT64_MAX, U64_MOD. intros ->. by vm_compute in Hal.
Qed.

Lemma tlsf_alloc_complete_witness :
  (exists off m', tlsf_alloc libc2 100 pool4096 = Some (off, m') ∧ off <> UINT64_MAX)
  <-> exists o s, free_region pool4096 o s ∧ align_up TLSF_ALIGN_LOG2 100 <= s.
Proof.
  apply (tlsf_alloc_complete libc2 100 pool4096);
    [apply reach_inv, pool4096_reach|mlia|reflexivity|exact pool4096_fresh].
Defined.

(** C20. No operation of a run is undefined: in every manager reached from
    initialisation by allocations and releases the invariant holds (blocks
    tile the pool, neighbours are coalesced, each block is in exactly the
    list of its class or in the used list, [total_used] is the sum of the
    used sizes), and any further allocation or release returns, whatever the
    mutex and [malloc] answer. *)
Theorem tlsf_reach_safe m :
  Reach m ->
  Inv m ∧ (forall c size, malloc_fresh c m -> 0 <= size <= U64_MOD - 64 -> is_Some (tlsf_alloc c size m))
    ∧ (forall c off, is_Some (tlsf_free c off m)).
Proof.
  intros HR%reach_inv. split; [done|]. split.
  - intros c size Hfresh Hsz. destruct (decide (size = 0 \/ lock_rc c <> 0)) as [Hc|Hc].
    + unfold tlsf_alloc. destruct (Z.eqb_spec size 0); [rewrite orb_true_r; eauto|].
      destruct (negb _ || false); [eauto|]. destruct (Z.eqb_spec (lock_rc c) 0); [tauto|simpl; eauto].
    + destruct (inv_alloc_outcome c size m HR) as [[-> _]|(? & ? & ? & -> & _)]; eauto; lia.
  - intros c off. destruct (decide (lock_rc c = 0)) as [Hl|Hl].
    + destruct (inv_free_outcome c off m HR Hl) as (m' & -> & _). eauto.
    + unfold tlsf_free. destruct (negb _ || _); [eauto|]. destruct (Z.eqb_spec (lock_rc c) 0); [done|simpl; eauto].
Qed.

Lemma tlsf_reach_safe_witness :
  Inv pool4096 ∧ (forall c size, malloc_fresh c pool4096 -> 0 <= size <= U64_MOD - 64 -> is_Some (tlsf_alloc c size pool4096))
    ∧ (forall c off, is_Some (tlsf_free c off pool4096)).
Proof. apply (tlsf_reach_safe pool4096). exact pool4096_reach. Defined.

(** The free space does not depend on history: two reachable managers of
    pools of the same size with the same regions handed out have the same
    free regions.  In particular an allocation followed by its release, or
    the release of everything, restores the free regions of before. *)
Theorem tlsf_free_space_canonical m1 m2 :
  Reach m1 -> Reach m2 -> shm_total_size m1 = shm_total_size m2 ->
  (forall o s, used_region m1 o s <-> used_region m2 o s) ->
  total_used m1 = total_used m2 ∧ forall o s, free_region m1 o s <-> free_region m2 o s.
Proof.
  intros [ph1 S1]%reach_inv [ph2 S2]%reach_inv Htot Hreg.
  pose proof (shape_rep _ _ S1) as R1. pose proof (shape_rep _ _ S2) as R2.
  assert (E : ph1.*2 = ph2.*2).
  { eapply (layout_canonical false 0); [apply (shape_tiles _ _ S1)|rewrite Htot; apply (shape_tiles _ _ S2)
      |apply (shape_coalesced _ _ S1)|apply (shape_coalesced _ _ S2)|].
    intros o s. rewrite <- (region_iff _ _ _ _ _ _ R1), <- (region_iff _ _ _ _ _ _ R2). apply Hreg. }
  split; [by rewrite (shape_used _ _ S1), (shape_used _ _ S2), E|].
  intros o s. unfold free_region. by rewrite (region_iff _ _ _ _ _ _ R1), (region_iff _ _ _ _ _ _ R2), E.
Qed.

Lemma tlsf_free_space_canonical_witness :
  total_used pool_back = total_used pool4096
  ∧ forall o s, free_region pool_back o s <-> free_region pool4096 o s.
Proof.
  apply (tlsf_free_space_canonical pool_back pool4096);
    [exact pool_back_reach|exact pool4096_reach|reflexivity|].
  unfold used_region. assert (heap pool_back = heap pool4096) as -> by (vm_compute; reflexivity). reflexivity.
Defined.

(** A request within 63 bytes of 2^64 wraps to an allocation of nothing:
    on a fresh pool it succeeds, returning offset 0 of a region of length 0. *)
Theorem tlsf_alloc_size_wraps size :
  U64_MOD - 64 < size < U64_MOD ->
  exists m', tlsf_alloc libc2 size pool4096 = Some (0, m') ∧ used_region m' 0 0 ∧ free_region m' 0 4096.
Proof.
  intros Hs. assert (E : align_up TLSF_ALIGN_LOG2 size = 0).
  { unfold align_up, TLSF_ALIGN_LOG2. rewrite land_low_clear by (apply u64_range || lia).
    unfold u64. change (2 ^ 6) with 64. mzlia. }
  unfold tlsf_alloc. rewrite E. assert ((size =? 0) = false) as -> by (apply Z.eqb_neq; mlia).
  destruct (negb (initialized pool4096) || false) eqn:Ei; [by vm_compute in Ei|clear Ei].
  destruct (negb (lock_rc libc2 =? 0)) eqn:El; [by vm_compute in El|clear El].
  eexists. split; [vm_compute; reflexivity|]. split.
  - exists 1%positive. eexists. split; [vm_compute; reflexivity|vm_compute; reflexivity].
  - exists 2%positive. eexists. split; [vm_compute; reflexivity|vm_compute; reflexivity].
Qed.

Lemma tlsf_alloc_size_wraps_witness :
  exists m', tlsf_alloc libc2 UINT64_MAX pool4096 = Some (0, m') ∧ used_region m' 0 0 ∧ free_region m' 0 4096.
Proof. apply (tlsf_alloc_size_wraps UINT64_MAX). mlia. Defined.
