(* ===== verification/NpuTree.v ===== *)
(** The device tree (enpu-manager/core/src/npu_tree.c).

    A node pointer is the index of a leaf in [leaves]; [None] is NULL.  The
    masks of the parents of leaves are kept in [inner], since a leaf only
    ever touches the mask of its parent.  An operation returns [None] where
    the C code is undefined: a shift of 64 bits or more, a write past the end
    of an array, a NULL or dangling node. *)

From stdpp Require Import pretty.
From S2P Require Import Prelude CLib.

Record dcmi_device_info := mk_device_info {
  di_card_id : Z;
  di_device_id : Z;
  di_logic_id : Z;
  di_uuid : string;
  di_total_memory : Z;
  di_total_aicore : Z;
}.

Record dcmi_die_info := mk_die_info {
  dd_phy_id : Z;
  dd_card_id : Z;
  dd_device_id : Z;
  dd_die_id : string;
  dd_shm_id : string;
}.

(** [struct dcmi_adapter]: each function returns its code and its result. *)
Record dcmi_adapter := mk_adapter {
  get_device_count : Z * Z;
  get_device_list : Z -> Z * list Z;
  get_device_info : Z -> Z * dcmi_device_info;
  get_die_info : Z -> Z * dcmi_die_info;
}.

Record vnpu_policy_entry := mk_policy {
  pe_vnpu_id : Z;
  pe_sched_policy : Z;
  pe_vnpu_priority : Z;
}.

Inductive npu_topo_level := NPU_TOPO_SYS | NPU_TOPO_CPU | NPU_TOPO_CARD | NPU_TOPO_DIE.

Record npu_meta := mk_meta {
  meta_id : Z;
  meta_phy_id : Z;
  meta_die_id : string;
  meta_minor_id : Z;
  meta_uuid : string;
  meta_minor_name : string;
  meta_total_memory : Z;
  meta_card_type : string;
}.

Record npu_allocatable := mk_allocatable {
  aicore_quota : Z;
  hbm_quota : Z;
  vnpu_count : Z;
  vnpu_mask : Z;
}.

(** [struct npu_node]; [policies] is the used part of [policy_entries], and
    [policy_alloc] says whether that array has been allocated. *)
Record npu_node := mk_node {
  node_meta : npu_meta;
  allocatable : npu_allocatable;
  policy_alloc : bool;
  policies : list vnpu_policy_entry;
  parent : option Z;
  mask : Z;
  topo_level : npu_topo_level;
}.

Definition set_allocatable (x : npu_allocatable) (n : npu_node) : npu_node :=
  mk_node (node_meta n) x (policy_alloc n) (policies n) (parent n) (mask n) (topo_level n).
Definition set_policies (al : bool) (ps : list vnpu_policy_entry) (n : npu_node) : npu_node :=
  mk_node (node_meta n) (allocatable n) al ps (parent n) (mask n) (topo_level n).

Definition set_vnpu_mask (x : Z) (a : npu_allocatable) : npu_allocatable :=
  mk_allocatable (aicore_quota a) (hbm_quota a) (vnpu_count a) x.
Definition set_vnpu_count (x : Z) (a : npu_allocatable) : npu_allocatable :=
  mk_allocatable (aicore_quota a) (hbm_quota a) x (vnpu_mask a).
Definition set_aicore_quota (x : Z) (a : npu_allocatable) : npu_allocatable :=
  mk_allocatable x (hbm_quota a) (vnpu_count a) (vnpu_mask a).
Definition set_hbm_quota (x : Z) (a : npu_allocatable) : npu_allocatable :=
  mk_allocatable (aicore_quota a) x (vnpu_count a) (vnpu_mask a).

(** [struct npu_tree]; [leaf_count] is the length of [leaves]. *)
Record npu_tree := mk_tree {
  leaves : list npu_node;
  inner : gmap Z Z;
  has_root : bool;
  query_table : list (option nat);
  query_size : Z;
  real_mode : bool;
  tree_initialized : bool;
}.

Definition set_leaves (ls : list npu_node) (t : npu_tree) : npu_tree :=
  mk_tree ls (inner t) (has_root t) (query_table t) (query_size t) (real_mode t) (tree_initialized t).
Definition set_inner (i : gmap Z Z) (t : npu_tree) : npu_tree :=
  mk_tree (leaves t) i (has_root t) (query_table t) (query_size t) (real_mode t) (tree_initialized t).

Definition leaf_count (t : npu_tree) : Z := Z.of_nat (length (leaves t)).

(** The tree of [npu_tree_create]. *)
Definition npu_tree_create : npu_tree :=
  mk_tree [] ∅ false (replicate 16 None) 0 true false.

(** [1ULL << i], undefined for [i >= 64]. *)
Definition shl1 (i : Z) : option Z := if (0 <=? i) && (i <? 64) then Some (Z.shiftl 1 i) else None.

(** * Construction *)

Section init.
  Context `{SC : Securec}.

(** One iteration of the device loop: [inr] is the finished node, [inl true]
    a device to skip, [inl false] an error that ends the initialisation;
    [None] is an undefined shift. *)
Definition make_leaf (calloc_ok : bool) (ad : dcmi_adapter) (logic_id : Z) : option (bool + npu_node) :=
  let '(rc, dev) := get_device_info ad logic_id in
  if negb (rc =? ENPU_SUCCESS) then Some (inl true)
  else if negb calloc_ok then Some (inl false)
  else
    let '(r1, uuid) := copy_str (Z.to_nat MAX_UUID_LEN) (di_uuid dev) in
    if negb (r1 =? 0) then Some (inl false)
    else
      let '(r2, name) := snprintf_s (Z.to_nat MAX_NAME_LEN) (Z.to_nat (MAX_NAME_LEN - 1)) ("Ascend" +:+ pretty logic_id) in
      if r2 <? 0 then Some (inl false)
      else
        let '(r3, card) := strncpy_s (Z.to_nat MAX_NAME_LEN) "Ascend910B" 10 in
        if negb (r3 =? 0) then Some (inl false)
        else
          msk ← shl1 logic_id;
          let '(r4, die) := get_die_info ad logic_id in
          if negb (r4 =? ENPU_SUCCESS) then Some (inl false)
          else
            let '(r5, die_id) := copy_str (Z.to_nat DIE_ID_LEN) (dd_die_id die) in
            if negb (r5 =? 0) then Some (inl false)
            else
              Some (inr (mk_node
                (mk_meta logic_id logic_id die_id logic_id uuid name
                   (u64 (u64 (di_total_memory dev * 1024) * 1024)) card)
                (mk_allocatable (i32 (di_total_aicore dev)) (di_total_memory dev) 0 UINT64_MAX)
                false [] None msk NPU_TOPO_DIE)).

(** [tree->leaves[tree->leaf_count++] = node] and the entry of the query
    table; the array has [MAX_NPU_PER_NODE] slots. *)
Definition push_leaf (logic_id : Z) (n : npu_node) (t : npu_tree) : option npu_tree :=
  if MAX_NPU_PER_NODE <=? leaf_count t then None
  else
    let idx := length (leaves t) in
    let t1 := set_leaves (leaves t ++ [n]) t in
    if logic_id <? MAX_NPU_PER_NODE then
      if logic_id <? 0 then None
      else Some (mk_tree (leaves t1) (inner t1) (has_root t1)
                   (<[Z.to_nat logic_id := Some idx]> (query_table t1)) (query_size t1)
                   (real_mode t1) (tree_initialized t1))
    else Some t1.

Fixpoint init_loop (calloc_ok : Z -> bool) (ad : dcmi_adapter) (ids : list Z) (t : npu_tree) : option (bool * npu_tree) :=
  match ids with
  | [] => Some (true, t)
  | id :: rest =>
      r ← make_leaf (calloc_ok id) ad id;
      match r with
      | inl true => init_loop calloc_ok ad rest t
      | inl false => Some (false, t)
      | inr n => t1 ← push_leaf id n t; init_loop calloc_ok ad rest t1
      end
  end.

(** [npu_tree_init_with_adapter]; [ids_ok], [calloc_ok id] and [root_ok] are
    whether the array of device ids, the node of the device [id] and the root
    can be allocated. *)
Definition npu_tree_init_with_adapter (ids_ok : bool) (calloc_ok : Z -> bool) (root_ok : bool) (ad : dcmi_adapter) (t : npu_tree) :
    option (Z * npu_tree) :=
  if tree_initialized t then Some (ENPU_SUCCESS, t)
  else
    let '(rc, cnt) := get_device_count ad in
    if negb (rc =? ENPU_SUCCESS) || (cnt <=? 0) then Some (ENPU_FAIL, t)
    else
      let device_count := if MAX_NPU_PER_NODE <? cnt then MAX_NPU_PER_NODE else cnt in
      if negb ids_ok then Some (ENPU_FAIL, t)
      else
      let '(rc, ids) := get_device_list ad device_count in
      if negb (rc =? ENPU_SUCCESS) then Some (ENPU_FAIL, t)
      else
        '(ok, t1) ← init_loop calloc_ok ad ids t;
        if negb ok then Some (ENPU_FAIL, t1)
        else Some (ENPU_SUCCESS, mk_tree (leaves t1) (inner t1) root_ok (query_table t1)
                                   (leaf_count t1) (real_mode t1) true).

(** [npu_tree_init]: the same with the driver behind [dcmi_wrapper]. *)
Definition npu_tree_init (wrapper_rc : Z) (ids_ok : bool) (calloc_ok : Z -> bool) (root_ok : bool) (ad : dcmi_adapter) (t : npu_tree) :
    option (Z * npu_tree) :=
  if tree_initialized t then Some (ENPU_SUCCESS, t)
  else if negb (wrapper_rc =? ENPU_SUCCESS) then Some (ENPU_FAIL, t)
  else npu_tree_init_with_adapter ids_ok calloc_ok root_ok ad t.

End init.

(** * Look-ups *)

Definition npu_tree_query (t : npu_tree) (minor_name : string) : option nat :=
  if negb (tree_initialized t) then None
  else fst <$> list_find (fun n => strncmp_eq (Z.to_nat MAX_NAME_LEN) (meta_minor_name (node_meta n)) minor_name) (leaves t).

Definition npu_tree_get_leaf (t : npu_tree) (phy_id : Z) : option nat :=
  if phy_id <? 0 then None
  else if negb (tree_initialized t) then None
  else fst <$> list_find (fun n => meta_phy_id (node_meta n) = phy_id) (leaves t).

(** * Updates *)

Definition vnpu_in_range (vnpu_id : Z) : bool := (0 <=? vnpu_id) && (vnpu_id <? MAX_VNPU_PER_DIE).

(** [node->parent->mask] after [f]. *)
Definition parent_mask (f : Z -> Z) (n : npu_node) (i : gmap Z Z) : option (gmap Z Z) :=
  match parent n with
  | None => Some i
  | Some p => m ← i !! p; Some (<[p := f m]> i)
  end.

Definition npu_tree_mark_occupied (t : npu_tree) (node : option nat) (vnpu_id alloc_aicore alloc_hbm : Z) :
    option (Z * npu_tree) :=
  match node with
  | None => Some (ENPU_INVALID_PARAM, t)
  | Some i =>
      if negb (vnpu_in_range vnpu_id) then Some (ENPU_INVALID_PARAM, t)
      else
        n ← leaves t !! i;
        bit_mask ← shl1 vnpu_id;
        let a := allocatable n in
        if Z.land (vnpu_mask a) bit_mask =? 0 then Some (ENPU_ALREADY_EXISTS, t)
        else
          inr ← parent_mask (fun m => Z.land m (u64 (Z.lnot (mask n)))) n (inner t);
          let a' := mk_allocatable (i32 (aicore_quota a - alloc_aicore)) (u64 (hbm_quota a - alloc_hbm))
                      (i32 (vnpu_count a + 1)) (Z.land (vnpu_mask a) (u64 (Z.lnot bit_mask))) in
          Some (ENPU_SUCCESS, set_inner inr (set_leaves (<[i := set_allocatable a' n]> (leaves t)) t))
  end.

Definition npu_tree_mark_free (t : npu_tree) (node : option nat) (vnpu_id : Z) : option (Z * npu_tree) :=
  match node with
  | None => Some (ENPU_INVALID_PARAM, t)
  | Some i =>
      if negb (vnpu_in_range vnpu_id) then Some (ENPU_INVALID_PARAM, t)
      else
        n ← leaves t !! i;
        bit_mask ← shl1 vnpu_id;
        let a := allocatable n in
        if negb (Z.land (vnpu_mask a) bit_mask =? 0) then Some (ENPU_SUCCESS, t)
        else
          inr ← parent_mask (fun m => Z.lor m (mask n)) n (inner t);
          let a' := set_vnpu_count (i32 (vnpu_count a - 1)) (set_vnpu_mask (Z.lor (vnpu_mask a) bit_mask) a) in
          Some (ENPU_SUCCESS, set_inner inr (set_leaves (<[i := set_allocatable a' n]> (leaves t)) t))
  end.

Definition npu_tree_mark_vnpu_occupied (t : npu_tree) (node : option nat) (vnpu_id : Z) : option (Z * npu_tree) :=
  match node with
  | None => Some (ENPU_INVALID_PARAM, t)
  | Some i =>
      if negb (vnpu_in_range vnpu_id) then Some (ENPU_INVALID_PARAM, t)
      else
        n ← leaves t !! i;
        bit_mask ← shl1 vnpu_id;
        let a := allocatable n in
        if Z.land (vnpu_mask a) bit_mask =? 0 then Some (ENPU_ALREADY_EXISTS, t)
        else
          inr ← parent_mask (fun m => Z.land m (u64 (Z.lnot (mask n)))) n (inner t);
          let a' := set_vnpu_mask (Z.land (vnpu_mask a) (u64 (Z.lnot bit_mask))) a in
          Some (ENPU_SUCCESS, set_inner inr (set_leaves (<[i := set_allocatable a' n]> (leaves t)) t))
  end.

Definition npu_tree_mark_vnpu_free (t : npu_tree) (node : option nat) (vnpu_id : Z) : option (Z * npu_tree) :=
  match node with
  | None => Some (ENPU_INVALID_PARAM, t)
  | Some i =>
      if negb (vnpu_in_range vnpu_id) then Some (ENPU_INVALID_PARAM, t)
      else
        n ← leaves t !! i;
        bit_mask ← shl1 vnpu_id;
        let a := allocatable n in
        if negb (Z.land (vnpu_mask a) bit_mask =? 0) then Some (ENPU_SUCCESS, t)
        else
          inr ← parent_mask (fun m => Z.lor m (mask n)) n (inner t);
          let a' := set_vnpu_mask (Z.lor (vnpu_mask a) bit_mask) a in
          Some (ENPU_SUCCESS, set_inner inr (set_leaves (<[i := set_allocatable a' n]> (leaves t)) t))
  end.

(** [-signed_delta] is undefined for [INT64_MIN]. *)
Definition npu_tree_update_quota (t : npu_tree) (node : option nat) (aicore_delta hbm_delta : Z) : option (Z * npu_tree) :=
  match node with
  | None => Some (ENPU_INVALID_PARAM, t)
  | Some i =>
      n ← leaves t !! i;
      let a := allocatable n in
      let a1 := if aicore_delta =? 0 then a else set_aicore_quota (i32 (aicore_quota a + aicore_delta)) a in
      a2 ← (if hbm_delta =? 0 then Some a1
            else if 0 <=? hbm_delta then Some (set_hbm_quota (u64 (hbm_quota a1 + u64 hbm_delta)) a1)
            else if hbm_delta =? INT64_MIN then None
            else Some (set_hbm_quota (u64 (hbm_quota a1 - u64 (- hbm_delta))) a1));
      Some (ENPU_SUCCESS, set_leaves (<[i := set_allocatable a2 n]> (leaves t)) t)
  end.

Definition npu_tree_attach_policy (calloc_ok : bool) (t : npu_tree) (node : option nat)
    (vnpu_id sched_policy vnpu_priority : Z) : option (Z * npu_tree) :=
  match node with
  | None => Some (ENPU_INVALID_PARAM, t)
  | Some i =>
      if negb (vnpu_in_range vnpu_id) then Some (ENPU_INVALID_PARAM, t)
      else
        n ← leaves t !! i;
        if negb (policy_alloc n) && negb calloc_ok then Some (ENPU_FAIL, t)
        else
          let n1 :=
            if Z.of_nat (length (policies n)) <? MAX_VNPU_PER_DIE then
              set_allocatable (set_vnpu_count (i32 (vnpu_count (allocatable n) + 1)) (allocatable n))
                (set_policies true (policies n ++ [mk_policy vnpu_id sched_policy vnpu_priority]) n)
            else set_policies true (policies n) n in
          Some (ENPU_SUCCESS, set_leaves (<[i := n1]> (leaves t)) t)
  end.

(** The shift of [policy_entries] from the first entry of the vNPU on. *)
Definition npu_tree_detach_policy (t : npu_tree) (node : option nat) (vnpu_id : Z) : option (Z * npu_tree) :=
  match node with
  | None => Some (ENPU_INVALID_PARAM, t)
  | Some i =>
      if negb (vnpu_in_range vnpu_id) then Some (ENPU_INVALID_PARAM, t)
      else
        n ← leaves t !! i;
        match list_find (fun p => pe_vnpu_id p = vnpu_id) (policies n) with
        | None => Some (ENPU_SUCCESS, t)
        | Some (j, _) =>
            let n1 := set_allocatable (set_vnpu_count (i32 (vnpu_count (allocatable n) - 1)) (allocatable n))
                        (set_policies (policy_alloc n) (delete j (policies n)) n) in
            Some (ENPU_SUCCESS, set_leaves (<[i := n1]> (leaves t)) t)
        end
  end.

(** The first [i] from [i0] on, among [n] values, whose bit is set. *)
Fixpoint first_bit (n : nat) (i0 : Z) (m : Z) : option (option Z) :=
  match n with
  | O => Some None
  | S n' => b ← shl1 i0; if Z.land m b =? 0 then first_bit n' (i0 + 1) m else Some (Some i0)
  end.

Definition node_available_vnpu_id (n : npu_node) : option Z :=
  if vnpu_mask (allocatable n) =? 0 then Some ENPU_NO_RESOURCE
  else r ← first_bit (Z.to_nat MAX_VNPU_PER_DIE) 0 (vnpu_mask (allocatable n));
       Some (default ENPU_NO_RESOURCE r).

Definition npu_tree_get_available_vnpu_id (t : npu_tree) (node : option nat) : option Z :=
  match node with
  | None => Some ENPU_INVALID_PARAM
  | Some i => n ← leaves t !! i; node_available_vnpu_id n
  end.

(** * Getters *)

(** The field of a node, or the value for NULL. *)
Definition node_get {A} (null : A) (f : npu_node -> A) (t : npu_tree) (node : option nat) : option A :=
  match node with None => Some null | Some i => f <$> leaves t !! i end.

Definition npu_tree_get_available_aicore := node_get 0 (fun n => u64 (aicore_quota (allocatable n))).
Definition npu_tree_get_available_hbm := node_get 0 (fun n => hbm_quota (allocatable n)).
Definition npu_node_get_available_aicore := node_get (-1) (fun n => aicore_quota (allocatable n)).
Definition npu_node_get_available_hbm := node_get 0 (fun n => hbm_quota (allocatable n)).
Definition npu_node_get_vnpu_count := node_get (-1) (fun n => vnpu_count (allocatable n)).
Definition npu_node_get_phy_id := node_get (-1) (fun n => meta_phy_id (node_meta n)).
Definition npu_node_get_die_id := node_get None (fun n => Some (meta_die_id (node_meta n))).
Definition npu_node_get_minor_id := node_get (-1) (fun n => meta_minor_id (node_meta n)).
Definition npu_node_get_uuid := node_get None (fun n => Some (meta_uuid (node_meta n))).
Definition npu_node_get_total_memory := node_get 0 (fun n => meta_total_memory (node_meta n)).
Definition npu_node_get_topo_level := node_get NPU_TOPO_SYS topo_level.
Definition npu_node_get_parent := node_get None parent.
Definition npu_node_get_card_type := node_get None (fun n => Some (meta_card_type (node_meta n))).
Definition npu_node_get_id := node_get (-1) (fun n => meta_id (node_meta n)).
Definition npu_node_get_minor_name := node_get None (fun n => Some (meta_minor_name (node_meta n))).
Definition npu_node_get_aicore_quota := node_get 0 (fun n => aicore_quota (allocatable n)).
Definition npu_node_get_hbm_quota := node_get 0 (fun n => hbm_quota (allocatable n)).
Definition npu_node_get_vnpu_mask := node_get 0 (fun n => vnpu_mask (allocatable n)).

Fixpoint validate_policies (ps : list vnpu_policy_entry) (sched_policy : Z) : Z :=
  match ps with
  | [] => ENPU_SUCCESS
  | p :: r =>
      if pe_vnpu_priority p =? VNPU_PRIORITY_HIGH then validate_policies r sched_policy
      else if negb (pe_sched_policy p =? sched_policy) then ENPU_FAIL
      else validate_policies r sched_policy
  end.

Definition npu_node_validate_policy (t : npu_tree) (node : option nat) (sched_policy : Z) : option Z :=
  node_get ENPU_INVALID_PARAM (fun n => validate_policies (policies n) sched_policy) t node.

(** The checkpoint functions of the tree are stubs in the source. *)
Definition npu_tree_save_checkpoint (t : npu_tree) : Z := if tree_initialized t then ENPU_SUCCESS else ENPU_FAIL.
Definition npu_tree_load_checkpoint (t : npu_tree) : Z := ENPU_SUCCESS.
