(* ===== verification/NpuTreeFacts.v ===== *)
(** Facts on the device tree: the 64-bit mask of a node as a set of free vNPU
    ids, and the exact effect of each update on the leaf it is given. *)

From stdpp Require Import pretty.
From S2P Require Import Prelude CLib NpuTree.

(** The vNPU id [v] is free on the node. *)
Definition vnpu_free (n : npu_node) (v : Z) : bool := Z.testbit (vnpu_mask (allocatable n)) v.

Record node_wf (n : npu_node) : Prop := {
  wf_mask : is_u64 (vnpu_mask (allocatable n));
  wf_aicore : is_i32 (aicore_quota (allocatable n));
  wf_hbm : is_u64 (hbm_quota (allocatable n));
  wf_policies : (length (policies n) <= 128)%nat;
  wf_count : vnpu_count (allocatable n) = Z.of_nat (length (policies n));
  wf_parent : parent n = None;
}.

Record tree_wf (t : npu_tree) : Prop := {
  wf_leaves : (length (leaves t) <= 16)%nat;
  wf_nodes : Forall node_wf (leaves t);
}.

Definition with_mask (x : Z) (n : npu_node) : npu_node := set_allocatable (set_vnpu_mask x (allocatable n)) n.

(** [update_quota] adds the deltas, with the wrap of each width. *)
Definition with_quota (da dh : Z) (n : npu_node) : npu_node :=
  set_allocatable (set_hbm_quota (u64 (hbm_quota (allocatable n) + dh))
    (set_aicore_quota (i32 (aicore_quota (allocatable n) + da)) (allocatable n))) n.

Definition with_policies (ps : list vnpu_policy_entry) (n : npu_node) : npu_node :=
  set_allocatable (set_vnpu_count (Z.of_nat (length ps)) (allocatable n)) (set_policies true ps n).

(** Two nodes that differ only in whether the policy array is allocated yet
    behave alike; [norm_tree] forgets the difference. *)
Definition norm_node (n : npu_node) : npu_node := set_policies true (policies n) n.
Definition norm_tree (t : npu_tree) : npu_tree := set_leaves (norm_node <$> leaves t) t.

(** * Bits *)

Lemma shl1_eq i : 0 <= i < 64 -> shl1 i = Some (2 ^ i).
Proof.
  intros H. unfold shl1. rewrite (proj2 (Z.leb_le 0 i)), (proj2 (Z.ltb_lt i 64)) by lia. simpl.
  by rewrite Z.shiftl_1_l.
Qed.

Lemma shl1_undefined i : 64 <= i -> shl1 i = None.
Proof. intros H. unfold shl1. rewrite (proj2 (Z.ltb_ge i 64)) by lia. by rewrite andb_false_r. Qed.

(** * Effect of the updates *)

Lemma vnpu_in_range_64 v : 0 <= v < 64 -> vnpu_in_range v = true.
Proof.
  intros H. unfold vnpu_in_range, MAX_VNPU_PER_DIE.
  by rewrite (proj2 (Z.leb_le 0 v)), (proj2 (Z.ltb_lt v 128)) by lia.
Qed.

Lemma mark_vnpu_occupied_eq t i n v :
  leaves t !! i = Some n -> node_wf n -> 0 <= v < 64 ->
  npu_tree_mark_vnpu_occupied t (Some i) v =
    if vnpu_free n v
    then Some (ENPU_SUCCESS, set_leaves (<[i := with_mask (Z.land (vnpu_mask (allocatable n)) (u64 (Z.lnot (2 ^ v)))) n]> (leaves t)) t)
    else Some (ENPU_ALREADY_EXISTS, t).
Proof.
  intros Hi Hwf Hv. unfold npu_tree_mark_vnpu_occupied. rewrite vnpu_in_range_64 by done. simpl.
  rewrite Hi. simpl. rewrite shl1_eq by done. simpl. rewrite land_bit by lia. unfold vnpu_free.
  destruct (Z.testbit _ v); simpl; [|done]. unfold parent_mask. rewrite (wf_parent _ Hwf). simpl.
  by destruct t.
Qed.

Lemma mark_vnpu_free_eq t i n v :
  leaves t !! i = Some n -> node_wf n -> 0 <= v < 64 ->
  npu_tree_mark_vnpu_free t (Some i) v =
    if vnpu_free n v then Some (ENPU_SUCCESS, t)
    else Some (ENPU_SUCCESS, set_leaves (<[i := with_mask (Z.lor (vnpu_mask (allocatable n)) (2 ^ v)) n]> (leaves t)) t).
Proof.
  intros Hi Hwf Hv. unfold npu_tree_mark_vnpu_free. rewrite vnpu_in_range_64 by done. simpl.
  rewrite Hi. simpl. rewrite shl1_eq by done. simpl. rewrite land_bit by lia. unfold vnpu_free.
  destruct (Z.testbit _ v); simpl; [done|]. unfold parent_mask. rewrite (wf_parent _ Hwf). simpl.
  by destruct t.
Qed.

Lemma update_quota_eq t i n da dh :
  leaves t !! i = Some n -> node_wf n -> INT64_MIN < dh < - INT64_MIN ->
  npu_tree_update_quota t (Some i) da dh = Some (ENPU_SUCCESS, set_leaves (<[i := with_quota da dh n]> (leaves t)) t).
Proof.
  intros Hi Hwf Hd. unfold INT64_MIN in Hd. unfold npu_tree_update_quota. rewrite Hi. simpl. unfold with_quota.
  set (a := allocatable n).
  assert (Ea : (if da =? 0 then a else set_aicore_quota (i32 (aicore_quota a + da)) a)
               = set_aicore_quota (i32 (aicore_quota a + da)) a).
  { destruct (Z.eqb_spec da 0) as [->|]; [|done]. rewrite Z.add_0_r, i32_small by apply (wf_aicore _ Hwf).
    by destruct a. }
  rewrite Ea. destruct (Z.eqb_spec dh 0) as [->|].
  { simpl. rewrite Z.add_0_r, u64_small by apply (wf_hbm _ Hwf). by destruct a. }
  assert (Eh : forall x, u64 (x - u64 (- dh)) = u64 (x + dh)).
  { intros x. unfold u64. rewrite Zminus_mod_idemp_r. f_equal. lia. }
  destruct (Z.leb_spec 0 dh); [rewrite (u64_small dh) by mlia; done|].
  rewrite (proj2 (Z.eqb_neq dh INT64_MIN)) by (unfold INT64_MIN; lia). simpl. by rewrite Eh.
Qed.

Lemma attach_policy_eq ok t i n v p pr :
  leaves t !! i = Some n -> node_wf n -> 0 <= v < 128 -> (length (policies n) < 128)%nat ->
  (policy_alloc n = true \/ ok = true) ->
  npu_tree_attach_policy ok t (Some i) v p pr =
    Some (ENPU_SUCCESS, set_leaves (<[i := with_policies (policies n ++ [mk_policy v p pr]) n]> (leaves t)) t).
Proof.
  intros Hi Hwf Hv Hlen Hok. unfold npu_tree_attach_policy.
  assert (vnpu_in_range v = true) as ->.
  { unfold vnpu_in_range, MAX_VNPU_PER_DIE. by rewrite (proj2 (Z.leb_le 0 v)), (proj2 (Z.ltb_lt v 128)) by lia. }
  simpl. rewrite Hi. simpl.
  assert (negb (policy_alloc n) && negb ok = false) as -> by (destruct Hok as [->| ->]; [done|apply andb_false_r]).
  rewrite (proj2 (Z.ltb_lt _ _)) by (unfold MAX_VNPU_PER_DIE; lia).
  unfold with_policies. rewrite (wf_count _ Hwf), length_app. simpl. rewrite i32_small by mlia.
  do 6 f_equal. lia.
Qed.

Lemma attach_policy_oom t i n v p pr :
  leaves t !! i = Some n -> 0 <= v < 128 -> policy_alloc n = false ->
  npu_tree_attach_policy false t (Some i) v p pr = Some (ENPU_FAIL, t).
Proof.
  intros Hi Hv Ha. unfold npu_tree_attach_policy.
  assert (vnpu_in_range v = true) as ->.
  { unfold vnpu_in_range, MAX_VNPU_PER_DIE. by rewrite (proj2 (Z.leb_le 0 v)), (proj2 (Z.ltb_lt v 128)) by lia. }
  simpl. rewrite Hi. simpl. by rewrite Ha.
Qed.

Lemma detach_policy_eq t i n v ps1 q ps2 :
  leaves t !! i = Some n -> node_wf n -> 0 <= v < 128 ->
  policies n = ps1 ++ q :: ps2 -> pe_vnpu_id q = v -> Forall (fun p => pe_vnpu_id p <> v) ps1 ->
  policy_alloc n = true ->
  npu_tree_detach_policy t (Some i) v =
    Some (ENPU_SUCCESS, set_leaves (<[i := with_policies (ps1 ++ ps2) n]> (leaves t)) t).
Proof.
  intros Hi Hwf Hv Hps Hq Hps1 Hal. unfold npu_tree_detach_policy.
  assert (vnpu_in_range v = true) as ->.
  { unfold vnpu_in_range, MAX_VNPU_PER_DIE. by rewrite (proj2 (Z.leb_le 0 v)), (proj2 (Z.ltb_lt v 128)) by lia. }
  simpl. rewrite Hi. simpl.
  assert (list_find (fun p => pe_vnpu_id p = v) (policies n) = Some (length ps1, q)) as ->.
  { apply list_find_Some. rewrite Hps. split; [by rewrite list_lookup_middle|]. split; [done|].
    intros j y Hy Hj. rewrite lookup_app_l in Hy by done. exact (Forall_lookup_1 _ _ _ _ Hps1 Hy). }
  unfold with_policies. rewrite (wf_count _ Hwf), Hal, Hps, delete_middle.
  pose proof (wf_policies _ Hwf) as Hlen. rewrite Hps in Hlen. rewrite !length_app in *. simpl in *.
  rewrite i32_small by mlia. do 6 f_equal. lia.
Qed.

(** * Well-formedness is kept *)

Lemma tree_wf_insert t i n : tree_wf t -> node_wf n -> tree_wf (set_leaves (<[i := n]> (leaves t)) t).
Proof.
  intros [H1 H2] Hn. constructor; simpl; [by rewrite length_insert|]. by apply Forall_insert.
Qed.

Lemma tree_wf_lookup t i n : tree_wf t -> leaves t !! i = Some n -> node_wf n.
Proof. intros [_ H2] Hi. exact (Forall_lookup_1 _ _ _ _ H2 Hi). Qed.

Lemma i32_range x : is_i32 (i32 x).
Proof. unfold is_i32, i32. pose proof (Z.mod_pos_bound (x + I32_HALF) (2 * I32_HALF)). mlia. Qed.

Lemma with_mask_wf x n : node_wf n -> is_u64 x -> node_wf (with_mask x n).
Proof. intros [? ? ? ? ? ?] Hx. by constructor. Qed.

Lemma with_quota_wf da dh n : node_wf n -> node_wf (with_quota da dh n).
Proof. intros [? ? ? ? ? ?]. constructor; simpl; try done; [apply i32_range|apply u64_range]. Qed.

Lemma with_policies_wf ps n : node_wf n -> (length ps <= 128)%nat -> node_wf (with_policies ps n).
Proof. intros [? ? ? ? ? ?] Hx. by constructor. Qed.

#[export] Hint Resolve tree_wf_insert tree_wf_lookup with_mask_wf with_quota_wf with_policies_wf
  clear_bit_u64 set_bit_u64 wf_mask : enpu.

(** * The first free vNPU id *)

Lemma first_bit_spec k i0 m :
  0 <= i0 -> i0 + Z.of_nat k <= 64 ->
  match first_bit k i0 m with
  | None => False
  | Some None => forall j, i0 <= j < i0 + Z.of_nat k -> Z.testbit m j = false
  | Some (Some i) => i0 <= i < i0 + Z.of_nat k ∧ Z.testbit m i = true
                     ∧ forall j, i0 <= j < i -> Z.testbit m j = false
  end.
Proof.
  revert i0. induction k as [|k IH]; intros i0 H0 Hk; simpl; [lia|].
  rewrite shl1_eq by lia. simpl. rewrite land_bit by lia. destruct (Z.testbit m i0) eqn:E; simpl.
  - split; [lia|]. split; [done|lia].
  - specialize (IH (i0 + 1) ltac:(lia) ltac:(lia)). destruct (first_bit k (i0 + 1) m) as [[i|]|]; [| |done].
    + destruct IH as (H1 & H2 & H3). split; [lia|]. split; [done|].
      intros j Hj. destruct (Z.eq_dec j i0) as [->|]; [done|]. apply H3. lia.
    + intros j Hj. destruct (Z.eq_dec j i0) as [->|]; [done|]. apply IH. lia.
Qed.

Lemma first_bit_more k k' i0 m i : first_bit k i0 m = Some (Some i) -> first_bit (k + k') i0 m = Some (Some i).
Proof.
  revert i0. induction k as [|k IH]; intros i0; simpl; [done|]. destruct (shl1 i0); simpl; [|done].
  destruct (Z.land m z =? 0); [apply IH|done].
Qed.

Lemma u64_nonzero_bit m : is_u64 m -> m <> 0 -> exists j, 0 <= j < 64 ∧ Z.testbit m j = true.
Proof.
  intros [H0 H1] Hn. exists (Z.log2 m). split; [|apply Z.bit_log2; lia].
  split; [apply Z.log2_nonneg|]. apply Z.log2_lt_pow2; [lia|]. by rewrite <- U64_MOD_eq.
Qed.

(** The scan returns the least free id, and never shifts by 64 bits or more. *)
Lemma available_vnpu_id_spec n :
  node_wf n ->
  (exists v, node_available_vnpu_id n = Some v ∧ 0 <= v < 64 ∧ vnpu_free n v = true
     ∧ forall j, 0 <= j < v -> vnpu_free n j = false)
  \/ (node_available_vnpu_id n = Some ENPU_NO_RESOURCE ∧ forall j, 0 <= j < 64 -> vnpu_free n j = false).
Proof.
  intros Hwf. unfold node_available_vnpu_id, vnpu_free. set (m := vnpu_mask (allocatable n)).
  destruct (Z.eqb_spec m 0) as [->|Hn].
  { right. split; [done|]. intros j _. apply Z.bits_0. }
  left. destruct (u64_nonzero_bit m (wf_mask _ Hwf) Hn) as (j & Hj & Hb).
  pose proof (first_bit_spec 64 0 m ltac:(lia) ltac:(lia)) as H.
  destruct (first_bit 64 0 m) as [[i|]|] eqn:E; [| |done].
  - apply (first_bit_more 64 64) in E. change (Z.to_nat MAX_VNPU_PER_DIE) with (64 + 64)%nat.
    rewrite E. simpl. exists i. destruct H as (H1 & H2 & H3). split; [done|]. split; [lia|]. done.
  - by rewrite H in Hb by lia.
Qed.
