(* ===== verification/NpuTreeThms.v ===== *)
(** The properties of the device tree: the free vNPU ids of a node as a set,
    and initialisation from a device driver. *)

From stdpp Require Import pretty.
From S2P Require Import Prelude CLib NpuTree NpuTreeFacts.

(** A driver with two devices whose second die cannot be read at first, and
    the same driver once it can. *)
Definition demo_driver (die_ok : bool) : dcmi_adapter :=
  mk_adapter (0, 2) (fun k => (0, take (Z.to_nat k) [0; 1]))
    (fun id => (0, mk_device_info 0 id id "uuid" 65536 100))
    (fun id => (if (id =? 1) && negb die_ok then -1 else 0, mk_die_info id 0 id "die" "die")).
Definition demo_tree : npu_tree :=
  default npu_tree_create (snd <$> npu_tree_init_with_adapter (SC := securec_ref) true (fun _ => true) true (demo_driver true) npu_tree_create).

Section init_spec.
  Context `{SC : Securec}.

(** The leaf of the device [id], when the driver answers for it. *)
Definition leaf_of (ad : dcmi_adapter) (id : Z) : npu_node :=
  let dev := (get_device_info ad id).2 in
  mk_node (mk_meta id id (prefix_of_len 63 (dd_die_id (get_die_info ad id).2)) id
             (prefix_of_len 63 (di_uuid dev)) ("Ascend" +:+ pretty id)
             (u64 (u64 (di_total_memory dev * 1024) * 1024)) "Ascend910B")
    (mk_allocatable (i32 (di_total_aicore dev)) (di_total_memory dev) 0 UINT64_MAX)
    false [] None (2 ^ id) NPU_TOPO_DIE.

Definition answers (ad : dcmi_adapter) (id : Z) : Prop := (get_device_info ad id).1 = ENPU_SUCCESS.
Definition complete (calloc_ok : Z -> bool) (ad : dcmi_adapter) (id : Z) : Prop :=
  calloc_ok id = true ∧ (get_die_info ad id).1 = ENPU_SUCCESS.

#[export] Instance answers_dec ad id : Decision (answers ad id).
Proof. unfold answers. apply _. Defined.
#[export] Instance complete_dec ok ad id : Decision (complete ok ad id).
Proof. unfold complete. apply _. Defined.

(** What the driver must promise for the loop to be defined: at most
    [max_count] devices, numbered from 0 and below 64. *)
Record driver_ok (ad : dcmi_adapter) : Prop := {
  driver_list : forall k, (length (get_device_list ad k).2 <= Z.to_nat k)%nat;
  driver_ids : forall k, Forall (fun id => 0 <= id < 64) (get_device_list ad k).2;
  driver_mem : forall id, is_u64 (di_total_memory (get_device_info ad id).2);
}.

Lemma name_fits id : 0 <= id < 64 -> (String.length ("Ascend" +:+ pretty id) <= 31)%nat.
Proof.
  intros Hid. assert (H : Forall (fun z => (String.length ("Ascend" +:+ pretty z) <= 31)%nat) (Z.of_nat <$> seq 0 64)).
  { apply (bool_decide_unpack _). vm_compute. done. }
  rewrite Forall_forall in H. apply H. apply list_elem_of_fmap. exists (Z.to_nat id).
  split; [lia|]. apply elem_of_seq. lia.
Qed.

Lemma make_leaf_eq ok ad id :
  0 <= id < 64 ->
  make_leaf ok ad id = Some (if negb ((get_device_info ad id).1 =? ENPU_SUCCESS) then inl true
    else if negb ok then inl false
    else if negb ((get_die_info ad id).1 =? ENPU_SUCCESS) then inl false else inr (leaf_of ad id)).
Proof.
  intros Hid. unfold make_leaf, leaf_of. destruct (get_device_info ad id) as [rc dev]. simpl.
  destruct (rc =? ENPU_SUCCESS); simpl; [|done]. destruct ok; simpl; [|done].
  rewrite copy_str_eq by (vm_compute; lia).
  rewrite snprintf_s_fits by (apply name_fits, Hid || (vm_compute; lia)). simpl.
  rewrite strncpy_s_fits by (vm_compute; lia). simpl. rewrite shl1_eq by done. simpl.
  destruct (get_die_info ad id) as [rd die]. simpl. destruct (rd =? ENPU_SUCCESS); simpl; [|done].
  rewrite copy_str_eq by (vm_compute; lia). simpl. done.
Qed.

Lemma leaf_of_wf ad id : driver_ok ad -> node_wf (leaf_of ad id).
Proof.
  intros [_ _ Hm]. constructor; simpl; [mlia|apply i32_range|apply Hm|lia|done|done].
Qed.

Lemma push_leaf_eq id n t :
  (length (leaves t) < 16)%nat -> 0 <= id ->
  exists t', push_leaf id n t = Some t' ∧ leaves t' = leaves t ++ [n]
    ∧ tree_initialized t' = tree_initialized t ∧ inner t' = inner t.
Proof.
  intros Hl Hid. unfold push_leaf, leaf_count. rewrite (proj2 (Z.leb_gt _ _)) by (unfold MAX_NPU_PER_NODE; lia).
  rewrite (proj2 (Z.ltb_ge id 0)) by done. destruct (id <? MAX_NPU_PER_NODE); eexists; by split.
Qed.

(** The loop appends the leaves of the devices that answer, up to the first
    one that cannot be completed. *)
Lemma init_loop_spec ok ad ids t :
  (length (leaves t) + length ids <= 16)%nat -> Forall (fun id => 0 <= id < 64) ids ->
  exists fin t' ds, init_loop ok ad ids t = Some (fin, t')
    ∧ leaves t' = leaves t ++ (leaf_of ad <$> ds) ∧ ds `sublist_of` filter (answers ad) ids
    ∧ tree_initialized t' = tree_initialized t ∧ inner t' = inner t
    ∧ if fin then ds = filter (answers ad) ids ∧ Forall (complete ok ad) ds
      else ~ Forall (complete ok ad) (filter (answers ad) ids).
Proof.
  revert t. induction ids as [|id ids IH]; intros t Hlen Hids.
  { exists true, t, []. simpl. rewrite app_nil_r. split_and!; done. }
  apply Forall_cons in Hids as [Hid Hids]. simpl. rewrite make_leaf_eq by done. simpl.
  destruct (Z.eqb_spec (get_device_info ad id).1 ENPU_SUCCESS) as [Ha|Ha]; simpl.
  2:{ rewrite filter_cons_False by done. apply IH; [simpl in Hlen; lia|done]. }
  rewrite filter_cons_True by done.
  assert (Hstop : ~ complete ok ad id -> exists fin t' ds, Some (false, t) = Some (fin, t')
    ∧ leaves t' = leaves t ++ (leaf_of ad <$> ds) ∧ ds `sublist_of` id :: filter (answers ad) ids
    ∧ tree_initialized t' = tree_initialized t ∧ inner t' = inner t
    ∧ if fin then ds = id :: filter (answers ad) ids ∧ Forall (complete ok ad) ds
      else ~ Forall (complete ok ad) (id :: filter (answers ad) ids)).
  { intros Hc. exists false, t, []. simpl. rewrite app_nil_r. split_and!; try done; [apply sublist_nil_l|].
    intros [? _]%Forall_cons. done. }
  destruct (ok id) eqn:Eok; simpl; [|apply Hstop; intros [? _]; congruence].
  destruct (Z.eqb_spec (get_die_info ad id).1 ENPU_SUCCESS) as [Hd|Hd]; simpl; [|by apply Hstop; intros [_ ?]].
  destruct (push_leaf_eq id (leaf_of ad id) t) as (t1 & -> & Hl1 & Hi1 & Hin1); [simpl in Hlen; lia|lia|]. simpl.
  destruct (IH t1) as (fin & t' & ds & -> & Hl & Hsub & Hi & Hin & Hfin); [|done|].
  { rewrite Hl1, length_app. simpl in *. lia. }
  exists fin, t', (id :: ds). split; [done|]. rewrite Hl, Hl1, <- app_assoc. simpl.
  split_and!; [done|by constructor|congruence|congruence|].
  destruct fin.
  - destruct Hfin as [-> Hall]. split; [done|]. by constructor.
  - intros [_ ?]%Forall_cons. done.
Qed.

End init_spec.

Lemma demo_driver_ok b : driver_ok (demo_driver b).
Proof.
  constructor; simpl.
  - intros k. rewrite length_take. lia.
  - intros k. apply Forall_take. repeat constructor; lia.
  - intros id. mlia.
Qed.

Lemma demo_tree_wf : tree_wf demo_tree.
Proof.
  constructor; [vm_compute; lia|]. repeat constructor; vm_compute; done || lia.
Qed.

(** * Properties *)

(** The vNPU ids of a device behave as a set of free ids: the scan returns
    the least free id or reports that there is none, occupying an id succeeds
    exactly when it is free and removes it alone from the set, releasing an
    id adds it alone, and neither touches another device or any other field
    of this one.  No shift is undefined for ids below 64. *)
Theorem vnpu_ids_refine_set t i n v :
  tree_wf t -> leaves t !! i = Some n -> 0 <= v < 64 ->
  (exists a, npu_tree_get_available_vnpu_id t (Some i) = Some a ∧
     (0 <= a < 64 ∧ vnpu_free n a = true ∧ (forall j, 0 <= j < a -> vnpu_free n j = false)
      \/ a = ENPU_NO_RESOURCE ∧ forall j, 0 <= j < 64 -> vnpu_free n j = false))
  ∧ (if vnpu_free n v
     then exists x, npu_tree_mark_vnpu_occupied t (Some i) v = Some (ENPU_SUCCESS, set_leaves (<[i := with_mask x n]> (leaves t)) t)
            ∧ tree_wf (set_leaves (<[i := with_mask x n]> (leaves t)) t)
            ∧ forall j, 0 <= j -> vnpu_free (with_mask x n) j = vnpu_free n j && negb (j =? v)
     else npu_tree_mark_vnpu_occupied t (Some i) v = Some (ENPU_ALREADY_EXISTS, t))
  ∧ exists x, npu_tree_mark_vnpu_free t (Some i) v = Some (ENPU_SUCCESS, set_leaves (<[i := with_mask x n]> (leaves t)) t)
       ∧ tree_wf (set_leaves (<[i := with_mask x n]> (leaves t)) t)
       ∧ forall j, 0 <= j -> vnpu_free (with_mask x n) j = vnpu_free n j || (j =? v).
Proof.
  intros Hwf Hi Hv. assert (Hn : node_wf n) by eauto with enpu. split; [|split].
  - unfold npu_tree_get_available_vnpu_id. rewrite Hi. simpl.
    destruct (available_vnpu_id_spec n Hn) as [(a & -> & ?)|[-> ?]]; eexists; (split; [done|]); [left|right]; tauto.
  - rewrite (mark_vnpu_occupied_eq t i n v) by done. destruct (vnpu_free n v) eqn:E; [|done].
    eexists. split; [done|]. split; [eauto 10 with enpu|]. intros j Hj. unfold vnpu_free. simpl.
    rewrite clear_bit; eauto with enpu.
  - rewrite (mark_vnpu_free_eq t i n v) by done. destruct (vnpu_free n v) eqn:E.
    + exists (vnpu_mask (allocatable n)).
      assert (with_mask (vnpu_mask (allocatable n)) n = n) as -> by by destruct n as [? []].
      rewrite list_insert_id by done. split; [by destruct t|]. split; [by destruct t|].
      intros j Hj. destruct (Z.eqb_spec j v) as [->|]; [by rewrite E|]. by rewrite orb_false_r.
    + eexists. split; [done|]. split; [eauto 10 with enpu|]. intros j Hj. unfold vnpu_free. simpl. by rewrite set_bit by lia.
Qed.

Lemma vnpu_ids_refine_set_witness :
  exists n, leaves demo_tree !! 0%nat = Some n ∧ vnpu_free n 5 = true ∧
  exists a, npu_tree_get_available_vnpu_id demo_tree (Some 0%nat) = Some a.
Proof.
  destruct (leaves demo_tree !! 0%nat) as [n|] eqn:E; [|by vm_compute in E].
  exists n. split; [done|]. destruct (vnpu_ids_refine_set demo_tree 0 n 5 demo_tree_wf E ltac:(lia)) as [(a & Ha & _) _].
  split; [|by exists a]. vm_compute in E. injection E as <-. reflexivity.
Defined.

Lemma init_outcome `{SC : Securec} calloc_ok root_ok ad cnt :
  driver_ok ad -> get_device_count ad = (ENPU_SUCCESS, cnt) -> 0 < cnt ->
  (get_device_list ad (Z.min cnt 16)).1 = ENPU_SUCCESS ->
  let ds := filter (answers ad) (get_device_list ad (Z.min cnt 16)).2 in
  exists rc t', npu_tree_init_with_adapter true calloc_ok root_ok ad npu_tree_create = Some (rc, t')
    ∧ (rc = ENPU_SUCCESS <-> Forall (complete calloc_ok ad) ds)
    ∧ (rc = ENPU_SUCCESS -> leaves t' = leaf_of ad <$> ds ∧ tree_initialized t' = true ∧ tree_wf t'
         ∧ forall i n v, leaves t' !! i = Some n -> 0 <= v < 64 -> vnpu_free n v = true)
    ∧ (rc <> ENPU_SUCCESS -> rc = ENPU_FAIL ∧ tree_initialized t' = false).
Proof.
  intros Hdr Hc Hpos Hl ds. unfold npu_tree_init_with_adapter. cbn [tree_initialized npu_tree_create].
  rewrite Hc, (proj2 (Z.leb_gt cnt 0)) by done. cbn [negb Z.eqb ENPU_SUCCESS orb].
  assert ((if MAX_NPU_PER_NODE <? cnt then MAX_NPU_PER_NODE else cnt) = Z.min cnt 16) as ->
    by (unfold MAX_NPU_PER_NODE; destruct (Z.ltb_spec 16 cnt); lia).
  pose proof (driver_list _ Hdr (Z.min cnt 16)) as Hlen. pose proof (driver_ids _ Hdr (Z.min cnt 16)) as Hids.
  destruct (get_device_list ad (Z.min cnt 16)) as [rl ids] eqn:El. simpl in Hl, ds. subst rl. simpl.
  simpl in Hlen, Hids.
  destruct (init_loop_spec calloc_ok ad ids npu_tree_create) as (fin & t' & ds' & -> & Hls & _ & Hi & _ & Hfin);
    [simpl; lia|done|]. simpl in Hls. simpl. destruct fin; simpl.
  - destruct Hfin as [-> Hall]. fold ds in Hls, Hall. eexists _, _. split; [done|]. split; [done|]. split; [|done].
    intros _. simpl. split; [done|]. split; [done|]. split.
    + constructor; simpl; rewrite Hls.
      * rewrite length_fmap. etrans; [apply length_filter|]. lia.
      * apply Forall_fmap, Forall_true. intros id. by apply leaf_of_wf.
    + intros i n v Hn Hv. rewrite Hls, list_lookup_fmap in Hn. destruct (ds !! i); simplify_eq/=.
      unfold vnpu_free. change (vnpu_mask _) with (Z.ones 64).
      by rewrite (Z.testbit_ones_nonneg 64 v), (proj2 (Z.ltb_lt v 64)) by lia.
  - fold ds in Hfin. eexists _, _. split; [done|]. split; [by split; [|intros ?; done]|]. split; [done|]. intros _.
    split; [done|]. by rewrite Hi.
Qed.

(** Initialisation when the driver answers for all that it lists. *)
Lemma init_loop_total `{SC : Securec} calloc_ok root_ok ad cnt :
  driver_ok ad -> get_device_count ad = (ENPU_SUCCESS, cnt) -> 0 < cnt ->
  (get_device_list ad (Z.min cnt 16)).1 = ENPU_SUCCESS ->
  let ds := filter (answers ad) (get_device_list ad (Z.min cnt 16)).2 in
  Forall (complete calloc_ok ad) ds ->
  exists t', npu_tree_init_with_adapter true calloc_ok root_ok ad npu_tree_create = Some (ENPU_SUCCESS, t')
    ∧ leaves t' = leaf_of ad <$> ds ∧ tree_initialized t' = true ∧ tree_wf t'
    ∧ forall i n v, leaves t' !! i = Some n -> 0 <= v < 64 -> vnpu_free n v = true.
Proof.
  intros Hdr Hc Hpos Hl ds Hall. destruct (init_outcome calloc_ok root_ok ad cnt Hdr Hc Hpos Hl) as (rc & t' & E & H1 & H2 & _).
  apply H1 in Hall as ->. exists t'. split; [done|]. by apply H2.
Qed.

(** Initialising a fresh tree from a driver that numbers its devices below
    64 never writes past the leaf array or shifts out of range.  It succeeds
    exactly when every device that answers can be completed; the tree then
    has one leaf for each of them, in the order of the driver, with its
    quotas, no vNPU and all 64 vNPU ids free. *)
Theorem npu_tree_init_correct `{SC : Securec} calloc_ok root_ok ad cnt :
  driver_ok ad -> get_device_count ad = (ENPU_SUCCESS, cnt) -> 0 < cnt ->
  (get_device_list ad (Z.min cnt 16)).1 = ENPU_SUCCESS ->
  let ds := filter (answers ad) (get_device_list ad (Z.min cnt 16)).2 in
  exists rc t', npu_tree_init_with_adapter true calloc_ok root_ok ad npu_tree_create = Some (rc, t')
    ∧ (rc = ENPU_SUCCESS <-> Forall (complete calloc_ok ad) ds)
    ∧ (rc = ENPU_SUCCESS -> leaves t' = leaf_of ad <$> ds ∧ tree_initialized t' = true ∧ tree_wf t'
         ∧ forall i n v, leaves t' !! i = Some n -> 0 <= v < 64 -> vnpu_free n v = true)
    ∧ (rc <> ENPU_SUCCESS -> rc = ENPU_FAIL ∧ tree_initialized t' = false).
Proof. apply init_outcome. Qed.

Lemma npu_tree_init_correct_witness :
  let ds := filter (answers (demo_driver true)) (get_device_list (demo_driver true) 2).2 in
  exists rc t', npu_tree_init_with_adapter (SC := securec_ref) true (fun _ => true) true (demo_driver true) npu_tree_create = Some (rc, t')
    ∧ (rc = ENPU_SUCCESS <-> Forall (complete (fun _ => true) (demo_driver true)) ds).
Proof.
  destruct (npu_tree_init_correct (SC := securec_ref) (fun _ => true) true (demo_driver true) 2
              (demo_driver_ok true) eq_refl ltac:(lia) eq_refl) as (rc & t' & H1 & H2 & _).
  exists rc, t'. split; [exact H1|exact H2].
Defined.

(** An initialisation that fails half way keeps the leaves it has already
    added, so that the retry adds the devices again: with two devices and a
    first attempt that cannot read the second die, the tree ends up with
    three leaves, two of them for the device 0. *)
Theorem npu_tree_init_retry_duplicates :
  exists t1 t2, npu_tree_init_with_adapter (SC := securec_ref) true (fun _ => true) true (demo_driver false) npu_tree_create
                = Some (ENPU_FAIL, t1)
    ∧ npu_tree_init_with_adapter (SC := securec_ref) true (fun _ => true) true (demo_driver true) t1 = Some (ENPU_SUCCESS, t2)
    ∧ (fun n => meta_phy_id (node_meta n)) <$> leaves t2 = [0; 0; 1].
Proof. eexists _, _. split; [vm_compute; reflexivity|]. split; vm_compute; reflexivity. Qed.

(** The range test of the tree operations admits ids from 64 to 127, for
    which the shift that builds the bit mask is undefined: none of the four
    operations on the mask has a defined result there. *)
Theorem vnpu_id_shift_undefined t i n v a h :
  leaves t !! i = Some n -> 64 <= v < MAX_VNPU_PER_DIE ->
  vnpu_in_range v = true ∧ npu_tree_mark_vnpu_occupied t (Some i) v = None ∧ npu_tree_mark_vnpu_free t (Some i) v = None
  ∧ npu_tree_mark_occupied t (Some i) v a h = None ∧ npu_tree_mark_free t (Some i) v = None.
Proof.
  intros Hi Hv. unfold MAX_VNPU_PER_DIE in Hv.
  assert (Hr : vnpu_in_range v = true).
  { unfold vnpu_in_range, MAX_VNPU_PER_DIE. by rewrite (proj2 (Z.leb_le 0 v)), (proj2 (Z.ltb_lt v 128)) by lia. }
  unfold npu_tree_mark_vnpu_occupied, npu_tree_mark_vnpu_free, npu_tree_mark_occupied, npu_tree_mark_free.
  by rewrite Hr, Hi, shl1_undefined by lia.
Qed.

Lemma vnpu_id_shift_undefined_witness :
  vnpu_in_range 64 = true ∧ npu_tree_mark_vnpu_occupied demo_tree (Some 0%nat) 64 = None
  ∧ npu_tree_mark_vnpu_free demo_tree (Some 0%nat) 64 = None
  ∧ npu_tree_mark_occupied demo_tree (Some 0%nat) 64 1 1 = None ∧ npu_tree_mark_free demo_tree (Some 0%nat) 64 = None.
Proof.
  eapply (vnpu_id_shift_undefined demo_tree 0 _ 64 1 1); [vm_compute; reflexivity|unfold MAX_VNPU_PER_DIE; lia].
Defined.
