(* ===== verification/Evaluator.v ===== *)
(** The placement evaluators (enpu-manager/core/src/evaluator.c and
    evaluator_share.c).

    Messages are kept as the data they are printed from ([eval_msg]).
    [qsort] is the class [Qsort]: a permutation, sorted when the comparison
    is a total preorder on the elements, with no promise on the order of
    equal elements.  [None] is an undefined conversion of a [double]. *)

From stdpp Require Import sorting.
From S2P Require Import Prelude CLib NpuTree.

Class Qsort := {
  qsort {A} : (A -> A -> Z) -> list A -> list A;
  qsort_perm {A} (cmp : A -> A -> Z) l : qsort cmp l ≡ₚ l;
  qsort_sorted {A} (cmp : A -> A -> Z) l :
    (forall x y, x ∈ l -> y ∈ l -> cmp x y <= 0 \/ cmp y x <= 0) ->
    (forall x y z, x ∈ l -> y ∈ l -> z ∈ l -> cmp x y <= 0 -> cmp y z <= 0 -> cmp x z <= 0) ->
    StronglySorted (fun x y => cmp x y <= 0) (qsort cmp l);
}.

Record eval_request := mk_eval_request {
  er_aicore_quota : Z;
  er_hbm_quota : Z;
  er_hbm_limit : Z;
  er_vnpu_count : Z;
  er_sched_policy : Z;
  er_vnpu_priority : Z;
  er_predicate_phy_id : Z;
  er_oversub_ratio_per_die : list double;
  er_allocated_hbm_limit_per_die : list Z;
}.

Inductive reject_reason :=
  | RejectPhyIdRange
  | RejectNeedsOversub
  | RejectLimitExceedsTotal
  | RejectSumExceeds
  | RejectInsufficient
  | RejectNoSlot.

(** The [last_reject_*] variables. *)
Record last_reject := mk_reject {
  lr_reason : option reject_reason;
  lr_phy_id : Z;
  lr_die_total : Z;
  lr_allocated : Z;
  lr_threshold : Z;
}.
Definition no_reject : last_reject := mk_reject None (-1) 0 0 0.

Inductive eval_msg :=
  | MsgNone
  | MsgAllRejected (r : last_reject)
  | MsgNoCandidate
  | MsgCardPolicy (phy_id policy : Z)
  | MsgAllPolicy (count policy : Z).

Record eval_response := mk_eval_response {
  ev_node : option nat;
  ev_node_count : Z;
  ev_vnpu_id : Z;
  ev_msg : eval_msg;
}.
Definition eval_response0 : eval_response := mk_eval_response None 0 0 MsgNone.

Record share_candidate := mk_candidate {
  sc_node : nat;
  sc_vnpu_id : Z;
  sc_avail_aicore : Z;
  sc_avail_hbm : Z;
  sc_vnpu_count : Z;
  sc_minor_id : Z;
  sc_vnpu_priority : Z;
  sc_policy_ok : bool;
  sc_die_oversub_enabled : bool;
}.

Inductive share_strategy := SHARE_STRATEGY_COMPACT | SHARE_STRATEGY_ANTI_FRAGMENT.

(** * The comparisons, with differences of [int] at their width *)

Definition compare_compact (a b : share_candidate) : Z :=
  if negb (sc_vnpu_count a =? sc_vnpu_count b) then i32 (sc_vnpu_count b - sc_vnpu_count a)
  else if negb (sc_avail_aicore a =? sc_avail_aicore b) then i32 (sc_avail_aicore a - sc_avail_aicore b)
  else i32 (sc_minor_id a - sc_minor_id b).

Definition compare_anti_fragment (a b : share_candidate) : Z :=
  if negb (sc_vnpu_count a =? sc_vnpu_count b) then i32 (sc_vnpu_count a - sc_vnpu_count b)
  else if negb (sc_avail_aicore a =? sc_avail_aicore b) then i32 (sc_avail_aicore b - sc_avail_aicore a)
  else i32 (sc_minor_id a - sc_minor_id b).

Definition compare_load_balance (a b : share_candidate) : Z :=
  if negb (sc_vnpu_count a =? sc_vnpu_count b) then i32 (sc_vnpu_count a - sc_vnpu_count b)
  else if negb (sc_avail_hbm a =? sc_avail_hbm b) then (if sc_avail_hbm a <? sc_avail_hbm b then 1 else -1)
  else i32 (sc_minor_id a - sc_minor_id b).

Definition compare_share_candidates (g_share_strategy : share_strategy) (a b : share_candidate) : Z :=
  if sc_vnpu_priority a =? VNPU_PRIORITY_HIGH then compare_load_balance a b
  else if negb (eqb (sc_die_oversub_enabled a) (sc_die_oversub_enabled b)) then
    (if sc_die_oversub_enabled a then 1 else -1)
  else
    match g_share_strategy with
    | SHARE_STRATEGY_COMPACT => compare_compact a b
    | SHARE_STRATEGY_ANTI_FRAGMENT => compare_anti_fragment a b
    end.

(** * Candidates *)

(** The sum of limits that a die may reach, in MB. *)
Definition die_threshold (ratio : double) (die_hbm_total_mb : Z) : option Z :=
  d_to_u64 (d_mul (d_add d_one ratio) (d_of_Z die_hbm_total_mb)).

(** One iteration of the loop over the leaves: the variables of the last
    rejection and the candidate, if the leaf is one. *)
Definition consider_leaf (req : eval_request) (i : nat) (node : npu_node) (lr : last_reject) :
    option (last_reject * option share_candidate) :=
  let phy_id := meta_phy_id (node_meta node) in
  if (0 <=? er_predicate_phy_id req) && negb (phy_id =? er_predicate_phy_id req) then Some (lr, None)
  else
    let avail_aicore := aicore_quota (allocatable node) in
    let avail_hbm := hbm_quota (allocatable node) in
    if (phy_id <? 0) || (MAX_NPU_PER_NODE <=? phy_id) then
      Some (mk_reject (Some RejectPhyIdRange) phy_id (lr_die_total lr) (lr_allocated lr) (lr_threshold lr), None)
    else
      let die_total := meta_total_memory (node_meta node) / (1024 * 1024) in
      ratio ← er_oversub_ratio_per_die req !! Z.to_nat phy_id;
      let die_oversub_enabled := d_pos ratio in
      if (er_hbm_quota req <? er_hbm_limit req) && negb die_oversub_enabled then
        Some (mk_reject (Some RejectNeedsOversub) phy_id (lr_die_total lr) (lr_allocated lr) (lr_threshold lr), None)
      else if die_total <? er_hbm_limit req then
        Some (mk_reject (Some RejectLimitExceedsTotal) phy_id die_total (lr_allocated lr) (lr_threshold lr), None)
      else
        allocated ← er_allocated_hbm_limit_per_die req !! Z.to_nat phy_id;
        let new_total := u64 (allocated + er_hbm_limit req) in
        threshold ← die_threshold ratio die_total;
        if threshold <? new_total then
          Some (mk_reject (Some RejectSumExceeds) phy_id die_total allocated threshold, None)
        else if (avail_aicore <? er_aicore_quota req) || (avail_hbm <? er_hbm_quota req) then
          Some (mk_reject (Some RejectInsufficient) phy_id (lr_die_total lr) (lr_allocated lr) (lr_threshold lr), None)
        else
          vnpu_id ← node_available_vnpu_id node;
          if vnpu_id <? 0 then
            Some (mk_reject (Some RejectNoSlot) phy_id (lr_die_total lr) (lr_allocated lr) (lr_threshold lr), None)
          else
            Some (lr, Some (mk_candidate i vnpu_id avail_aicore avail_hbm (vnpu_count (allocatable node))
              (meta_minor_id (node_meta node)) (er_vnpu_priority req)
              ((er_vnpu_priority req =? VNPU_PRIORITY_HIGH)
               || (validate_policies (policies node) (er_sched_policy req) =? ENPU_SUCCESS))
              die_oversub_enabled)).

(** The loop, at most [MAX_CANDIDATES] candidates. *)
Fixpoint collect_candidates (req : eval_request) (i : nat) (ls : list npu_node) (room : nat) (lr : last_reject) :
    option (last_reject * list share_candidate) :=
  match ls, room with
  | [], _ | _, O => Some (lr, [])
  | n :: rest, S room' =>
      '(lr1, c) ← consider_leaf req i n lr;
      match c with
      | None => collect_candidates req (S i) rest room lr1
      | Some c => '(lr2, cs) ← collect_candidates req (S i) rest room' lr1; Some (lr2, c :: cs)
      end
  end.

(** * The share evaluator *)

Definition eval_request_ok (req : eval_request) : bool :=
  negb (((er_vnpu_priority req =? VNPU_PRIORITY_NORMAL) && (er_aicore_quota req <=? 0)) || (er_hbm_quota req =? 0))
  && ((er_vnpu_priority req =? VNPU_PRIORITY_NORMAL) || (er_vnpu_priority req =? VNPU_PRIORITY_HIGH))
  && negb ((er_vnpu_priority req =? VNPU_PRIORITY_NORMAL)
           && ((er_sched_policy req <? SCHED_POLICY_FIXED_SHARE) || (SCHED_POLICY_BEST_EFFORT <? er_sched_policy req))).

Definition select (c : share_candidate) (resp : eval_response) : eval_response :=
  mk_eval_response (Some (sc_node c)) 1 (sc_vnpu_id c) (ev_msg resp).
Definition with_msg (m : eval_msg) (resp : eval_response) : eval_response :=
  mk_eval_response (ev_node resp) (ev_node_count resp) (ev_vnpu_id resp) m.

Definition evaluator_share_evaluate `{Qsort} (g_share_strategy : share_strategy) (tree : npu_tree)
    (req : eval_request) (resp : eval_response) : option (Z * eval_response) :=
  if negb (eval_request_ok req) then Some (ENPU_INVALID_PARAM, resp)
  else if negb (tree_initialized tree) then Some (ENPU_FAIL, resp)
  else
    '(lr, candidates) ← collect_candidates req 0 (leaves tree) (Z.to_nat MAX_NPU_PER_NODE) no_reject;
    match candidates with
    | [] =>
        let msg := match lr_reason lr with Some _ => MsgAllRejected lr | None => MsgNoCandidate end in
        Some (ENPU_NO_RESOURCE, with_msg msg resp)
    | c0 :: _ =>
        if 0 <=? er_predicate_phy_id req then
          if negb (sc_policy_ok c0) then
            Some (ENPU_NO_RESOURCE, with_msg (MsgCardPolicy (er_predicate_phy_id req) (er_sched_policy req)) resp)
          else Some (ENPU_SUCCESS, select c0 resp)
        else
          match list_find (fun c => Is_true (sc_policy_ok c)) (qsort (compare_share_candidates g_share_strategy) candidates) with
          | Some (_, c) => Some (ENPU_SUCCESS, select c resp)
          | None =>
              Some (ENPU_NO_RESOURCE,
                    with_msg (MsgAllPolicy (Z.of_nat (length candidates)) (er_sched_policy req)) resp)
          end
    end.

Definition evaluator_share_set_strategy (strategy : Z) : share_strategy :=
  if strategy =? 0 then SHARE_STRATEGY_COMPACT else SHARE_STRATEGY_ANTI_FRAGMENT.

(** * The registry of evaluators, by name *)

Definition MAX_EVALUATORS : nat := 16.

Definition evaluator_registry_register (registry : list string) (name : string) : Z * list string :=
  if bool_decide (MAX_EVALUATORS <= length registry)%nat then (ENPU_FAIL, registry)
  else if bool_decide (name ∈ registry) then (ENPU_FAIL, registry)
  else (ENPU_SUCCESS, registry ++ [name]).

Definition evaluator_registry_get (registry : list string) (name : string) : option nat :=
  fst <$> list_find (fun x => x = name) registry.

(** The strategy that is set and the code of the registration. *)
Definition evaluator_share_init_with_strategy (registry : list string) (strategy : Z) : share_strategy * (Z * list string) :=
  (evaluator_share_set_strategy strategy, evaluator_registry_register registry "share").
