(* ===== verification/EvaluatorThms.v ===== *)
(** Correctness of the share evaluator: the die it selects can host the
    request, a failure means that no die can, and the selected die is a least
    one in the order of the strategy. *)

From stdpp Require Import sorting.
From S2P Require Import Prelude CLib NpuTree NpuTreeFacts NpuTreeThms Evaluator.

(** The die of the leaf [n] can host the request: the conditions in the terms
    of the request, independent of the order in which the code tests them. *)
Definition fits (req : eval_request) (n : npu_node) : Prop :=
  let phy := meta_phy_id (node_meta n) in
  let total := meta_total_memory (node_meta n) / (1024 * 1024) in
  (0 <= er_predicate_phy_id req -> phy = er_predicate_phy_id req) ∧ 0 <= phy < MAX_NPU_PER_NODE
  ∧ (exists ratio allocated threshold,
       er_oversub_ratio_per_die req !! Z.to_nat phy = Some ratio
       ∧ er_allocated_hbm_limit_per_die req !! Z.to_nat phy = Some allocated
       ∧ die_threshold ratio total = Some threshold
       ∧ (er_hbm_quota req < er_hbm_limit req -> d_pos ratio = true)
       ∧ er_hbm_limit req <= total ∧ u64 (allocated + er_hbm_limit req) <= threshold)
  ∧ er_aicore_quota req <= aicore_quota (allocatable n)
  ∧ er_hbm_quota req <= hbm_quota (allocatable n)
  ∧ exists v, 0 <= v < 64 ∧ vnpu_free n v = true.

(** The scheduling policy of the request agrees with the normal-priority
    vNPUs of the die; high priority requests do not take part. *)
Definition policy_fits (req : eval_request) (n : npu_node) : Prop :=
  er_vnpu_priority req = VNPU_PRIORITY_HIGH
  \/ Forall (fun p => pe_vnpu_priority p <> VNPU_PRIORITY_HIGH -> pe_sched_policy p = er_sched_policy req) (policies n).

(** The arithmetic of the evaluator is defined on the leaf. *)
Definition leaf_defined (req : eval_request) (n : npu_node) : Prop :=
  forall ratio, er_oversub_ratio_per_die req !! Z.to_nat (meta_phy_id (node_meta n)) = Some ratio ->
    is_Some (die_threshold ratio (meta_total_memory (node_meta n) / (1024 * 1024))).

Definition request_defined (req : eval_request) : Prop :=
  length (er_oversub_ratio_per_die req) = 16%nat ∧ length (er_allocated_hbm_limit_per_die req) = 16%nat.

(** The die oversubscribes its memory. *)
Definition oversub_die (req : eval_request) (n : npu_node) : bool :=
  match er_oversub_ratio_per_die req !! Z.to_nat (meta_phy_id (node_meta n)) with Some r => d_pos r | None => false end.

Definition candidate_of (req : eval_request) (i : nat) (n : npu_node) : share_candidate :=
  mk_candidate i (default 0 (node_available_vnpu_id n)) (aicore_quota (allocatable n)) (hbm_quota (allocatable n))
    (vnpu_count (allocatable n)) (meta_minor_id (node_meta n)) (er_vnpu_priority req)
    ((er_vnpu_priority req =? VNPU_PRIORITY_HIGH) || (validate_policies (policies n) (er_sched_policy req) =? ENPU_SUCCESS))
    (oversub_die req n).

(** Quotas and ids small enough for differences of [int] to be exact. *)
Definition leaf_small (n : npu_node) : Prop :=
  - 2 ^ 30 <= aicore_quota (allocatable n) < 2 ^ 30 ∧ - 2 ^ 30 <= meta_minor_id (node_meta n) < 2 ^ 30.

(** The order of the strategies, as keys compared lexicographically: for a
    normal vNPU plain dies first, then the fullest (compact) or emptiest
    (anti-fragment) die; for a high priority one the die with fewest vNPUs
    and most memory. *)
Definition share_key (st : share_strategy) (c : share_candidate) : list Z :=
  if sc_vnpu_priority c =? VNPU_PRIORITY_HIGH then [sc_vnpu_count c; - sc_avail_hbm c; sc_minor_id c]
  else
    Z.b2z (sc_die_oversub_enabled c) ::
    match st with
    | SHARE_STRATEGY_COMPACT => [- sc_vnpu_count c; sc_avail_aicore c; sc_minor_id c]
    | SHARE_STRATEGY_ANTI_FRAGMENT => [sc_vnpu_count c; - sc_avail_aicore c; sc_minor_id c]
    end.

Fixpoint lex_le (a b : list Z) : Prop :=
  match a, b with
  | x :: a', y :: b' => x < y \/ x = y ∧ lex_le a' b'
  | [], _ => True
  | _ :: _, [] => False
  end.

Definition candidate_small (c : share_candidate) : Prop :=
  0 <= sc_vnpu_count c <= 128 ∧ - 2 ^ 30 <= sc_avail_aicore c < 2 ^ 30 ∧ - 2 ^ 30 <= sc_minor_id c < 2 ^ 30.

(** Insertion sort, a [qsort] for the examples. *)
Fixpoint insert_by {A} (cmp : A -> A -> Z) (x : A) (l : list A) : list A :=
  match l with [] => [x] | y :: r => if cmp x y <=? 0 then x :: l else y :: insert_by cmp x r end.
Definition sort_by {A} (cmp : A -> A -> Z) (l : list A) : list A := foldr (insert_by cmp) [] l.

Definition demo_request : eval_request :=
  mk_eval_request 20 1024 1024 1 SCHED_POLICY_ELASTIC VNPU_PRIORITY_NORMAL (-1)
    (replicate 16 d_zero) (replicate 16 0).

Lemma insert_by_perm {A} cmp (x : A) l : insert_by cmp x l ≡ₚ x :: l.
Proof.
  induction l as [|y r IH]; simpl; [done|]. destruct (cmp x y <=? 0); [done|]. rewrite IH. apply Permutation_swap.
Qed.

Lemma sort_by_perm {A} (cmp : A -> A -> Z) l : sort_by cmp l ≡ₚ l.
Proof. induction l as [|x r IH]; simpl; [done|]. by rewrite insert_by_perm, IH. Qed.

Lemma insert_by_sorted {A} (cmp : A -> A -> Z) x l :
  (forall y, y ∈ l -> cmp x y <= 0 \/ cmp y x <= 0) ->
  (forall y z, y ∈ l -> z ∈ l -> cmp x y <= 0 -> cmp y z <= 0 -> cmp x z <= 0) ->
  StronglySorted (fun a b => cmp a b <= 0) l -> StronglySorted (fun a b => cmp a b <= 0) (insert_by cmp x l).
Proof.
  intros Htot Htr. induction 1 as [|y r Hs IH Hy]; simpl; [repeat constructor|].
  destruct (Z.leb_spec (cmp x y) 0) as [Hle|Hgt].
  - constructor; [by constructor|]. constructor; [done|]. rewrite Forall_forall in Hy |- *. intros z Hz.
    apply (Htr y z); [left|by right|done|by apply Hy].
  - constructor.
    + apply IH; [intros z Hz; apply Htot; by right|intros a b Ha Hb; apply Htr; by right].
    + rewrite insert_by_perm. constructor; [|done]. destruct (Htot y ltac:(left)); lia.
Qed.

#[export] Program Instance qsort_ref : Qsort := {| qsort A := @sort_by A |}.
Next Obligation. intros A cmp l. apply sort_by_perm. Qed.
Next Obligation.
  intros A cmp l Htot Htr. induction l as [|x r IH]; simpl; [constructor|]. apply insert_by_sorted.
  - intros y Hy. apply Htot; [left|]. rewrite sort_by_perm in Hy. by right.
  - intros y z Hy Hz. rewrite sort_by_perm in Hy, Hz. apply Htr; [left|by right|by right].
  - apply IH; [intros ? ? ? ?; apply Htot; by right|intros ? ? ? ? ? ?; apply Htr; by right].
Qed.

(** * The candidates are the leaves that fit *)

Lemma validate_policies_spec ps p :
  validate_policies ps p = ENPU_SUCCESS
  <-> Forall (fun q => pe_vnpu_priority q <> VNPU_PRIORITY_HIGH -> pe_sched_policy q = p) ps.
Proof.
  induction ps as [|q r IH]; simpl; [split; [constructor|done]|]. rewrite Forall_cons.
  destruct (Z.eqb_spec (pe_vnpu_priority q) VNPU_PRIORITY_HIGH) as [E|E]; [rewrite IH; tauto|].
  destruct (Z.eqb_spec (pe_sched_policy q) p) as [Ep|Ep]; simpl; [rewrite IH; tauto|].
  split; [done|]. intros [H _]. by apply H in E.
Qed.

Lemma candidate_policy_ok req i n : Is_true (sc_policy_ok (candidate_of req i n)) <-> policy_fits req n.
Proof.
  unfold candidate_of, policy_fits. simpl. rewrite orb_True, !Is_true_true, !Z.eqb_eq, validate_policies_spec. done.
Qed.

Lemma consider_leaf_spec req i n lr :
  node_wf n -> request_defined req -> leaf_defined req n ->
  exists lr' oc, consider_leaf req i n lr = Some (lr', oc)
    ∧ match oc with Some c => fits req n ∧ c = candidate_of req i n | None => ~ fits req n end.
Proof.
  intros Hwf [Hl1 Hl2] Hdef. unfold consider_leaf, fits, candidate_of, oversub_die.
  unfold leaf_defined in Hdef. set (phy := meta_phy_id (node_meta n)) in *.
  set (total := meta_total_memory (node_meta n) / (1024 * 1024)) in *.
  destruct ((0 <=? er_predicate_phy_id req) && negb (phy =? er_predicate_phy_id req)) eqn:Epred.
  { apply andb_true_iff in Epred as [?%Z.leb_le ?%negb_true_iff%Z.eqb_neq].
    eexists _, None. split; [done|]. intros (H' & _). by apply H0, H'. }
  assert (Hpred : 0 <= er_predicate_phy_id req -> phy = er_predicate_phy_id req).
  { intros Hp%Z.leb_le. rewrite Hp in Epred. by apply negb_false_iff, Z.eqb_eq in Epred. }
  destruct ((phy <? 0) || (MAX_NPU_PER_NODE <=? phy)) eqn:Erange.
  { eexists _, None. split; [done|]. intros (_ & H' & _). unfold MAX_NPU_PER_NODE in *.
    apply orb_true_iff in Erange as [?%Z.ltb_lt|?%Z.leb_le]; lia. }
  apply orb_false_iff in Erange as [Hr1%Z.ltb_ge Hr2%Z.leb_gt]. unfold MAX_NPU_PER_NODE in Hr2.
  destruct (lookup_lt_is_Some_2 (er_oversub_ratio_per_die req) (Z.to_nat phy)) as [ratio Er]; [lia|].
  destruct (lookup_lt_is_Some_2 (er_allocated_hbm_limit_per_die req) (Z.to_nat phy)) as [allocated Ea]; [lia|].
  destruct (Hdef ratio Er) as [thr Et]. rewrite Er. simpl.
  destruct ((er_hbm_quota req <? er_hbm_limit req) && negb (d_pos ratio)) eqn:Eo.
  { eexists _, None. split; [done|]. intros (_ & _ & (r' & a' & t' & Er' & _ & _ & Ho & _) & _).
    apply andb_true_iff in Eo as [?%Z.ltb_lt Eo%negb_true_iff]. simplify_eq. rewrite Ho in Eo; done. }
  assert (Hov : er_hbm_quota req < er_hbm_limit req -> d_pos ratio = true).
  { intros Ho%Z.ltb_lt. rewrite Ho in Eo. by apply negb_false_iff in Eo. }
  destruct (Z.ltb_spec total (er_hbm_limit req)) as [Htl|Htl].
  { eexists _, None. split; [done|]. intros (_ & _ & (r' & a' & t' & _ & _ & _ & _ & Ho & _) & _). lia. }
  rewrite Ea. simpl. rewrite Et. simpl.
  destruct (Z.ltb_spec thr (u64 (allocated + er_hbm_limit req))) as [Hth|Hth].
  { eexists _, None. split; [done|]. intros (_ & _ & (r' & a' & t' & ? & ? & ? & _ & _ & Ho) & _). simplify_eq. lia. }
  destruct ((aicore_quota (allocatable n) <? er_aicore_quota req) || (hbm_quota (allocatable n) <? er_hbm_quota req)) eqn:Eq.
  { eexists _, None. split; [done|]. intros (_ & _ & _ & ? & ? & _).
    apply orb_true_iff in Eq as [?%Z.ltb_lt|?%Z.ltb_lt]; lia. }
  apply orb_false_iff in Eq as [?%Z.ltb_ge ?%Z.ltb_ge].
  destruct (available_vnpu_id_spec n Hwf) as [(v & -> & Hv & Hf & _)|[-> Hno]]; simpl.
  - rewrite (proj2 (Z.ltb_ge v 0)) by lia. eexists _, (Some _). split; [done|]. split; [|done].
    split_and!; try done; [|by exists v]. by exists ratio, allocated, thr.
  - eexists _, None. split; [done|]. intros (_ & _ & _ & _ & _ & v & Hv & Hf). by rewrite Hno in Hf.
Qed.

Lemma collect_candidates_spec req i0 ls room lr :
  Forall node_wf ls -> request_defined req -> Forall (leaf_defined req) ls -> (length ls <= room)%nat ->
  exists lr' cs, collect_candidates req i0 ls room lr = Some (lr', cs)
    ∧ (forall c, c ∈ cs <-> exists i n, ls !! i = Some n ∧ fits req n ∧ c = candidate_of req (i0 + i) n)
    ∧ (forall c cs', cs = c :: cs' -> exists i n, ls !! i = Some n ∧ fits req n ∧ c = candidate_of req (i0 + i) n
         ∧ forall j m, (j < i)%nat -> ls !! j = Some m -> ~ fits req m).
Proof.
  intros Hwf Hreq Hdef. revert i0 room lr.
  induction ls as [|n ls IH]; intros i0 room lr Hroom.
  { exists lr, []. split; [by destruct room|]. split; [|done]. intros c. split; [by intros ?%not_elem_of_nil|].
    intros (i & n & Hn & _). done. }
  apply Forall_cons in Hwf as [Hn Hwf], Hdef as [Hd Hdef]. destruct room as [|room]; [simpl in Hroom; lia|]. simpl in *.
  destruct (consider_leaf_spec req i0 n lr Hn Hreq Hd) as (lr1 & oc & -> & Hoc). simpl.
  assert (Hsplit : forall c, (exists i m, (n :: ls) !! i = Some m ∧ fits req m ∧ c = candidate_of req (i0 + i) m)
     <-> (fits req n ∧ c = candidate_of req i0 n)
         \/ exists i m, ls !! i = Some m ∧ fits req m ∧ c = candidate_of req (S i0 + i) m).
  { intros c. split.
    - intros ([|i] & m & Hm & Hf & ->); simpl in Hm; [left; simplify_eq; by rewrite Nat.add_0_r|right].
      exists i, m. split; [done|]. split; [done|]. f_equal. lia.
    - intros [[Hf ->]|(i & m & Hm & Hf & ->)]; [exists 0%nat, n; by rewrite Nat.add_0_r|].
      exists (S i), m. split; [done|]. split; [done|]. f_equal. lia. }
  destruct oc as [c|].
  - destruct Hoc as [Hf ->]. destruct (IH Hwf Hdef (S i0) room lr1 ltac:(lia)) as (lr2 & cs & -> & Hcs & _). simpl.
    exists lr2, (candidate_of req i0 n :: cs). split; [done|]. split.
    + intros c. rewrite elem_of_cons, Hcs, Hsplit. split; [intros [->|?]; auto|intros [[_ ->]|?]; auto].
    + intros c cs' [= <- _]. exists 0%nat, n. rewrite Nat.add_0_r. split_and!; try done. lia.
  - destruct (IH Hwf Hdef (S i0) (S room) lr1 ltac:(lia)) as (lr2 & cs & -> & Hcs & Hhd).
    exists lr2, cs. split; [done|]. split.
    + intros c. rewrite Hcs, Hsplit. split; [auto|]. intros [[? _]|?]; done.
    + intros c cs' E. destruct (Hhd c cs' E) as (i & m & Hm & Hf & -> & Hlt). exists (S i), m.
      split; [done|]. split; [done|]. split; [f_equal; lia|]. intros [|j] m' Hj Hm'; simpl in Hm'; [by simplify_eq|].
      apply (Hlt j); [lia|done].
Qed.

(** * The comparison is the lexicographic order of the keys *)

Lemma lex_le_total a b : lex_le a b \/ lex_le b a.
Proof.
  revert b. induction a as [|x a IH]; intros [|y b]; simpl; auto.
  destruct (Z.lt_trichotomy x y) as [?|[->|?]]; [auto| |auto]. destruct (IH b); auto.
Qed.

Lemma lex_le_trans a b c : lex_le a b -> lex_le b c -> lex_le a c.
Proof.
  revert b c. induction a as [|x a IH]; intros [|y b] [|z c]; simpl; try done.
  intros [?|[-> ?]] [?|[-> ?]]; [left; lia|left; lia|left; lia|right; split; [done|by eapply IH]].
Qed.

Lemma compare_key st a b :
  candidate_small a -> candidate_small b -> sc_vnpu_priority a = sc_vnpu_priority b ->
  compare_share_candidates st a b <= 0 <-> lex_le (share_key st a) (share_key st b).
Proof.
  intros (Ha1 & Ha2 & Ha3) (Hb1 & Hb2 & Hb3) Hp. unfold compare_share_candidates, share_key. rewrite <- Hp.
  change (2 ^ 30) with 1073741824 in *.
  destruct (sc_vnpu_priority a =? VNPU_PRIORITY_HIGH).
  { unfold compare_load_balance. simpl. repeat case_match; rewrite ?negb_true_iff, ?negb_false_iff, ?Z.eqb_eq, ?Z.eqb_neq in *;
      rewrite ?i32_small by mlia; repeat match goal with H : (_ <? _) = _ |- _ => apply Z.ltb_lt in H || apply Z.ltb_ge in H end; lia. }
  destruct (sc_die_oversub_enabled a), (sc_die_oversub_enabled b), st; simpl;
    unfold compare_compact, compare_anti_fragment; simpl; try lia;
    repeat case_match; rewrite ?negb_true_iff, ?negb_false_iff, ?Z.eqb_eq, ?Z.eqb_neq in *; rewrite ?i32_small by mlia; lia.
Qed.

Lemma sorted_find_least {A} (R : A -> A -> Prop) (P : A -> Prop) `{forall x, Decision (P x)} l i x :
  (forall y, R y y) -> StronglySorted R l -> list_find P l = Some (i, x) -> forall y, y ∈ l -> P y -> R x y.
Proof.
  intros Hrefl Hs. revert i. induction Hs as [|z l Hs IH Hz]; intros i Hf y Hy HPy; simpl in Hf; [done|].
  destruct (decide (P z)) as [Hpz|Hpz].
  - simplify_eq. apply elem_of_cons in Hy as [->|Hy]; [apply Hrefl|]. rewrite Forall_forall in Hz. by apply Hz.
  - apply fmap_Some in Hf as ([j w] & Hf & E). simplify_eq/=. apply elem_of_cons in Hy as [->|Hy]; [done|].
    by eapply IH.
Qed.

Lemma StronglySorted_impl_in {A} (R R' : A -> A -> Prop) l :
  (forall x y, x ∈ l -> y ∈ l -> R x y -> R' x y) -> StronglySorted R l -> StronglySorted R' l.
Proof.
  intros Himp Hs. induction Hs as [|x l Hs IH Hx]; constructor.
  - apply IH. intros y z Hy Hz. apply Himp; by right.
  - rewrite Forall_forall in Hx |- *. intros y Hy. apply Himp; [left|by right|by apply Hx].
Qed.

Section evaluate.
  Context `{Qsort} (st : share_strategy) (t : npu_tree) (req : eval_request) (resp : eval_response).
  Context (Hwf : tree_wf t) (Hinit : tree_initialized t = true) (Hreq : eval_request_ok req = true)
          (Hdef : request_defined req) (Hleaves : Forall (leaf_defined req) (leaves t)).

(** The candidates of the code, as a list of leaves that fit. *)
Lemma evaluate_unfold :
  exists lr cs, (forall c, c ∈ cs <-> exists i n, leaves t !! i = Some n ∧ fits req n ∧ c = candidate_of req i n)
    ∧ (forall c cs', cs = c :: cs' -> exists i n, leaves t !! i = Some n ∧ fits req n ∧ c = candidate_of req i n
         ∧ forall j m, (j < i)%nat -> leaves t !! j = Some m -> ~ fits req m)
    ∧ evaluator_share_evaluate st t req resp =
      match cs with
      | [] => Some (ENPU_NO_RESOURCE, with_msg (match lr_reason lr with Some _ => MsgAllRejected lr | None => MsgNoCandidate end) resp)
      | c0 :: _ =>
          if 0 <=? er_predicate_phy_id req then
            if negb (sc_policy_ok c0) then
              Some (ENPU_NO_RESOURCE, with_msg (MsgCardPolicy (er_predicate_phy_id req) (er_sched_policy req)) resp)
            else Some (ENPU_SUCCESS, select c0 resp)
          else
            match list_find (fun c => Is_true (sc_policy_ok c)) (qsort (compare_share_candidates st) cs) with
            | Some (_, c) => Some (ENPU_SUCCESS, select c resp)
            | None => Some (ENPU_NO_RESOURCE, with_msg (MsgAllPolicy (Z.of_nat (length cs)) (er_sched_policy req)) resp)
            end
      end.
Proof.
  unfold evaluator_share_evaluate. rewrite Hreq, Hinit. cbn [negb].
  destruct (collect_candidates_spec req 0 (leaves t) (Z.to_nat MAX_NPU_PER_NODE) no_reject) as (lr & cs & -> & Hcs & Hhd);
    [apply Hwf|done|done|apply Hwf|]. exists lr, cs. split; [exact Hcs|]. split; [exact Hhd|]. done.
Qed.

Lemma selected_correct i n c :
  leaves t !! i = Some n -> fits req n -> c = candidate_of req i n -> Is_true (sc_policy_ok c) ->
  ev_node (select c resp) = Some i ∧ policy_fits req n ∧ 0 <= ev_vnpu_id (select c resp) < 64
  ∧ vnpu_free n (ev_vnpu_id (select c resp)) = true
  ∧ (forall j, 0 <= j < ev_vnpu_id (select c resp) -> vnpu_free n j = false).
Proof.
  intros Hn Hf -> Hp. apply candidate_policy_ok in Hp. split; [done|]. split; [done|]. simpl.
  destruct (available_vnpu_id_spec n (tree_wf_lookup _ _ _ Hwf Hn)) as [(v & -> & Hv & Hfree & Hleast)|[_ Hno]]; [done|].
  destruct Hf as (_ & _ & _ & _ & _ & v & Hv & Hfree). by rewrite Hno in Hfree.
Qed.

Lemma selected_least c :
  er_predicate_phy_id req < 0 -> Forall leaf_small (leaves t) ->
  forall cs i, (forall c, c ∈ cs <-> exists i n, leaves t !! i = Some n ∧ fits req n ∧ c = candidate_of req i n) ->
  list_find (fun c => Is_true (sc_policy_ok c)) (qsort (compare_share_candidates st) cs) = Some (i, c) ->
  forall j m, leaves t !! j = Some m -> fits req m -> policy_fits req m ->
  lex_le (share_key st c) (share_key st (candidate_of req j m)).
Proof.
  intros Hpred Hsmall cs i Hcs Hfind j m Hm Hf Hp.
  assert (Hall : forall c, c ∈ cs -> candidate_small c ∧ sc_vnpu_priority c = er_vnpu_priority req).
  { intros c' (k & n & Hn & _ & ->)%Hcs. split; [|done]. destruct (Forall_lookup_1 _ _ _ _ Hsmall Hn) as [? ?].
    pose proof (tree_wf_lookup _ _ _ Hwf Hn) as Hw. pose proof (wf_count _ Hw). pose proof (wf_policies _ Hw).
    unfold candidate_small. simpl. split_and!; lia. }
  assert (Hk : forall x y, x ∈ cs -> y ∈ cs ->
    compare_share_candidates st x y <= 0 <-> lex_le (share_key st x) (share_key st y)).
  { intros x y Hx Hy. destruct (Hall x Hx), (Hall y Hy). apply compare_key; congruence. }
  assert (Hrefl : forall y, lex_le (share_key st y) (share_key st y)).
  { intros y. by destruct (lex_le_total (share_key st y) (share_key st y)). }
  assert (Hs : StronglySorted (fun x y => lex_le (share_key st x) (share_key st y)) (qsort (compare_share_candidates st) cs)).
  { assert (Hs : StronglySorted (fun x y => compare_share_candidates st x y <= 0) (qsort (compare_share_candidates st) cs)).
    { apply qsort_sorted.
      - intros x y Hx Hy. rewrite !Hk by done. apply lex_le_total.
      - intros x y z Hx Hy Hz. rewrite !Hk by done. apply lex_le_trans. }
    assert (Hin : forall x, x ∈ qsort (compare_share_candidates st) cs -> x ∈ cs) by (intros x; by rewrite qsort_perm).
    eapply StronglySorted_impl_in; [|exact Hs]. intros x y Hx Hy. apply Hk; by apply Hin. }
  eapply (sorted_find_least _ _ _ _ _ Hrefl Hs Hfind).
  - rewrite qsort_perm. apply Hcs. by exists j, m.
  - by apply candidate_policy_ok.
Qed.

End evaluate.

(** * Properties *)

Lemma demo_request_defined : request_defined demo_request ∧ Forall (leaf_defined demo_request) (leaves demo_tree).
Proof.
  split; [done|]. repeat constructor; intros r Hr; vm_compute in Hr; simplify_eq; vm_compute; eauto.
Qed.

(** The specification of an evaluation. *)
Lemma share_evaluate_spec `{Qsort} st t req resp :
  tree_wf t -> tree_initialized t = true -> eval_request_ok req = true -> request_defined req ->
  Forall (leaf_defined req) (leaves t) -> NoDup ((fun n => meta_phy_id (node_meta n)) <$> leaves t) ->
  exists rc resp', evaluator_share_evaluate st t req resp = Some (rc, resp') ∧
    (rc = ENPU_SUCCESS ∧ (exists i n, ev_node resp' = Some i ∧ leaves t !! i = Some n ∧ fits req n ∧ policy_fits req n
        ∧ 0 <= ev_vnpu_id resp' < 64 ∧ vnpu_free n (ev_vnpu_id resp') = true
        ∧ forall j, 0 <= j < ev_vnpu_id resp' -> vnpu_free n j = false)
     \/ rc = ENPU_NO_RESOURCE ∧ forall i n, leaves t !! i = Some n -> fits req n -> ~ policy_fits req n).
Proof.
  intros Hwf Hinit Hreq Hdef Hl Hnd.
  destruct (evaluate_unfold st t req resp Hwf Hinit Hreq Hdef Hl) as (lr & cs & Hcs & Hhd & ->).
  destruct cs as [|c0 cs].
  { eexists _, _. split; [done|]. right. split; [done|]. intros i n Hn Hf _.
    eapply not_elem_of_nil, Hcs. by exists i, n. }
  destruct (Hhd c0 cs eq_refl) as (i0 & n0 & Hn0 & Hf0 & -> & Hfirst).
  destruct (Z.leb_spec 0 (er_predicate_phy_id req)) as [Hp|Hp].
  - assert (Hone : forall i n, leaves t !! i = Some n -> fits req n -> n = n0).
    { intros i n Hn Hf. assert (i = i0) as ->; [|congruence].
      eapply (NoDup_lookup _ i i0 (er_predicate_phy_id req) Hnd); rewrite list_lookup_fmap.
      - rewrite Hn. simpl. f_equal. by apply Hf.
      - rewrite Hn0. simpl. f_equal. by apply Hf0. }
    destruct (sc_policy_ok (candidate_of req i0 n0)) eqn:Ep; simpl.
    + eexists _, _. split; [done|]. left. split; [done|]. exists i0, n0.
      destruct (selected_correct t req resp Hwf i0 n0 _ Hn0 Hf0 eq_refl) as (? & ? & ? & ? & ?); [by rewrite Ep|done].
    + eexists _, _. split; [done|]. right. split; [done|]. intros i n Hn Hf Hpol.
      assert (n = n0) as -> by eauto. apply (candidate_policy_ok req i0) in Hpol. by rewrite Ep in Hpol.
  - destruct (list_find _ _) as [[k c]|] eqn:Efind.
    + apply list_find_Some in Efind as (Hk & Hpc & _). apply list_elem_of_lookup_2 in Hk. rewrite qsort_perm in Hk.
      apply Hcs in Hk as (i & n & Hn & Hf & ->). eexists _, _. split; [done|]. left. split; [done|]. exists i, n.
      destruct (selected_correct t req resp Hwf i n _ Hn Hf eq_refl Hpc) as (? & ? & ? & ? & ?). done.
    + eexists _, _. split; [done|]. right. split; [done|]. intros i n Hn Hf Hpol.
      apply list_find_None in Efind. rewrite Forall_forall in Efind.
      apply (Efind (candidate_of req i n)); [|by apply candidate_policy_ok].
      rewrite qsort_perm. apply Hcs. by exists i, n.
Qed.

(** C16. The share evaluator is sound and complete: on a well-formed initialised
    tree with one leaf per device it returns, and it succeeds exactly when
    some die can host the request under a compatible policy.  The die and
    vNPU id it then selects do: the requested card if one was named, enough
    free cores and memory, the limits of the die respected with
    oversubscription counted in double precision, the vNPU id free and least
    on the die. *)
Theorem evaluator_share_correct `{Qsort} st t req resp :
  tree_wf t -> tree_initialized t = true -> eval_request_ok req = true -> request_defined req ->
  Forall (leaf_defined req) (leaves t) -> NoDup ((fun n => meta_phy_id (node_meta n)) <$> leaves t) ->
  exists rc resp', evaluator_share_evaluate st t req resp = Some (rc, resp') ∧
    (rc = ENPU_SUCCESS ∧ (exists i n, ev_node resp' = Some i ∧ leaves t !! i = Some n ∧ fits req n ∧ policy_fits req n
        ∧ 0 <= ev_vnpu_id resp' < 64 ∧ vnpu_free n (ev_vnpu_id resp') = true
        ∧ forall j, 0 <= j < ev_vnpu_id resp' -> vnpu_free n j = false)
     \/ rc = ENPU_NO_RESOURCE ∧ forall i n, leaves t !! i = Some n -> fits req n -> ~ policy_fits req n).
Proof. apply share_evaluate_spec. Qed.

Lemma evaluator_share_correct_witness :
  exists rc resp', evaluator_share_evaluate SHARE_STRATEGY_COMPACT demo_tree demo_request eval_response0 = Some (rc, resp') ∧
    rc = ENPU_SUCCESS.
Proof.
  destruct (evaluator_share_correct SHARE_STRATEGY_COMPACT demo_tree demo_request eval_response0 demo_tree_wf eq_refl eq_refl
    (proj1 demo_request_defined) (proj2 demo_request_defined)) as (rc & resp' & He & _).
  { vm_compute. repeat constructor; set_solver. }
  exists rc, resp'. split; [exact He|]. vm_compute in He. injection He as <- _. reflexivity.
Defined.

(** Without a requested card the selected die is a best one: its key is
    least, in the lexicographic order of the strategy, among all dies that
    could host the request, whatever order [qsort] gives to equal elements. *)
Theorem evaluator_share_best `{Qsort} st t req resp resp' :
  tree_wf t -> tree_initialized t = true -> eval_request_ok req = true -> request_defined req ->
  Forall (leaf_defined req) (leaves t) -> Forall leaf_small (leaves t) -> er_predicate_phy_id req < 0 ->
  evaluator_share_evaluate st t req resp = Some (ENPU_SUCCESS, resp') ->
  exists i n, ev_node resp' = Some i ∧ leaves t !! i = Some n ∧
    forall j m, leaves t !! j = Some m -> fits req m -> policy_fits req m ->
      lex_le (share_key st (candidate_of req i n)) (share_key st (candidate_of req j m)).
Proof.
  intros Hwf Hinit Hreq Hdef Hl Hsmall Hpred.
  destruct (evaluate_unfold st t req resp Hwf Hinit Hreq Hdef Hl) as (lr & cs & Hcs & _ & ->).
  destruct cs as [|c0 cs]; [done|]. rewrite (proj2 (Z.leb_gt 0 _)) by done.
  destruct (list_find _ _) as [[k c]|] eqn:Efind; [|done]. intros [= <-].
  assert (Hk := Efind). apply list_find_Some in Hk as (Hk & _ & _). apply list_elem_of_lookup_2 in Hk.
  rewrite qsort_perm in Hk. apply Hcs in Hk as (i & n & Hn & Hf & ->). exists i, n. split; [done|]. split; [done|].
  intros j m Hm Hfm Hpm. by eapply (selected_least st t req Hwf).
Qed.

Lemma evaluator_share_best_witness :
  exists resp' i n, evaluator_share_evaluate SHARE_STRATEGY_COMPACT demo_tree demo_request eval_response0 = Some (ENPU_SUCCESS, resp')
    ∧ ev_node resp' = Some i ∧ leaves demo_tree !! i = Some n.
Proof.
  destruct (evaluator_share_evaluate SHARE_STRATEGY_COMPACT demo_tree demo_request eval_response0) as [[rc resp']|] eqn:E;
    [|vm_compute in E; discriminate E].
  assert (rc = ENPU_SUCCESS) as -> by (vm_compute in E; injection E as <- _; reflexivity).
  destruct (evaluator_share_best SHARE_STRATEGY_COMPACT demo_tree demo_request eval_response0 resp' demo_tree_wf eq_refl eq_refl
    (proj1 demo_request_defined) (proj2 demo_request_defined)) as (i & n & H1 & H2 & _).
  - repeat constructor; vm_compute; congruence.
  - reflexivity.
  - exact E.
  - exists resp', i, n. done.
Defined.
