(* ===== verification/Registry.v ===== *)
(** The registry of allocations (enpu-manager/core/src/allocation_registry.c)
    and the storage adapters behind it (storage_adapter.c,
    memory_storage_adapter.c).

    A storage adapter is an instance of [Storage]: its state and the two
    functions the registry calls.  [StorageLaws] is what the registry relies
    on to recover what it saved.  [memcpy_s]/[memmove_s] between buffers of
    the right size are plain copies. *)

From S2P Require Import Prelude CLib.

(** [struct allocation] *)
Record allocation := mk_allocation {
  al_pod_uid : string;
  al_container_name : string;
  al_phy_id : Z;
  al_vnpu_id : Z;
  al_die_id : string;
  al_shm_id : string;
  al_aicore_quota : Z;
  al_hbm_quota : Z;
  al_hbm_limit : Z;
  al_sched_policy : Z;
  al_swap_priority : Z;
  al_vnpu_priority : Z;
  al_create_time_ns : Z;
  al_update_time_ns : Z;
  al_swap_offset : Z;
  al_swap_size : Z;
  al_swapped : bool;
}.

#[export] Instance allocation_eq_dec : EqDecision allocation.
Proof. solve_decision. Defined.

Definition set_shm_id (s : string) (a : allocation) : allocation :=
  mk_allocation (al_pod_uid a) (al_container_name a) (al_phy_id a) (al_vnpu_id a) (al_die_id a) s
    (al_aicore_quota a) (al_hbm_quota a) (al_hbm_limit a) (al_sched_policy a) (al_swap_priority a)
    (al_vnpu_priority a) (al_create_time_ns a) (al_update_time_ns a) (al_swap_offset a) (al_swap_size a) (al_swapped a).

(** [storage_adapter_save] and [storage_adapter_load] *)
Class Storage (S : Type) := {
  storage_save : S -> list allocation -> Z * S;
  storage_load : S -> Z * list allocation;
}.

(** What the registry needs of its storage, for lists satisfying [P]. *)
Class StorageLaws (S : Type) `{Storage S} (P : list allocation -> Prop) := {
  storage_load_save s l s' : P l -> storage_save s l = (ENPU_SUCCESS, s') -> storage_load s' = (ENPU_SUCCESS, l);
}.

(** Storage whose saves succeed, from a state in which it is reliable. *)
Class ReliableStorage (S : Type) `{Storage S} := {
  reliable : S -> Prop;
  reliable_save s l : reliable s -> (storage_save s l).1 = ENPU_SUCCESS ∧ reliable (storage_save s l).2;
}.

(** * The in-memory adapter *)

Definition MEMORY_ADAPTER_MAX_CAPACITY : nat := 256.

Record memory_adapter := mk_memory { ma_allocations : list allocation; ma_capacity : nat; ma_malloc_ok : bool }.

Definition memory_storage_adapter_create : memory_adapter := mk_memory [] MEMORY_ADAPTER_MAX_CAPACITY true.

Definition memory_adapter_save (d : memory_adapter) (allocs : list allocation) : Z * memory_adapter :=
  let count := length allocs in
  let grown :=
    if bool_decide (ma_capacity d < count)%nat then
      if ma_malloc_ok d
      then Some (mk_memory (ma_allocations d)
                  (if bool_decide (MEMORY_ADAPTER_MAX_CAPACITY < count)%nat then MEMORY_ADAPTER_MAX_CAPACITY else count)
                  (ma_malloc_ok d))
      else None
    else Some d in
  match grown with
  | None => (ENPU_NO_RESOURCE, d)
  | Some d1 => (ENPU_SUCCESS, mk_memory (take (ma_capacity d1) allocs) (ma_capacity d1) (ma_malloc_ok d1))
  end.

Definition memory_adapter_load (d : memory_adapter) : Z * list allocation := (ENPU_SUCCESS, ma_allocations d).

#[export] Instance memory_storage : Storage memory_adapter :=
  {| storage_save := memory_adapter_save; storage_load := memory_adapter_load |}.

(** * The registry *)

Definition ALLOC_REGISTRY_INIT_CAPACITY : Z := 64.

Section registry.
  Context {S : Type} `{!Storage S}.

Record allocation_registry := mk_registry {
  entries : list allocation;
  capacity : Z;
  adapter : option S;
}.

Definition registry_count (r : allocation_registry) : Z := Z.of_nat (length (entries r)).

Definition allocation_registry_create_with_adapter (a : option S) : allocation_registry :=
  mk_registry [] ALLOC_REGISTRY_INIT_CAPACITY a.

Definition key_matches (pod_uid container_name : string) (a : allocation) : Prop :=
  al_pod_uid a = pod_uid ∧ al_container_name a = container_name.
#[export] Instance key_matches_dec p c a : Decision (key_matches p c a).
Proof. unfold key_matches. apply _. Defined.

Definition find_entry_index (r : allocation_registry) (pod_uid container_name : string) : option nat :=
  fst <$> list_find (key_matches pod_uid container_name) (entries r).

Definition persist_to_adapter (r : allocation_registry) : Z * allocation_registry :=
  match adapter r with
  | None => (ENPU_SUCCESS, r)
  | Some s => let '(rc, s') := storage_save s (entries r) in (rc, mk_registry (entries r) (capacity r) (Some s'))
  end.

(** [malloc_ok]: whether the larger array can be allocated. *)
Definition allocation_registry_register (malloc_ok : bool) (r : allocation_registry) (a : allocation) : Z * allocation_registry :=
  if str_empty (al_pod_uid a) || str_empty (al_container_name a) then (ENPU_INVALID_PARAM, r)
  else
    match find_entry_index r (al_pod_uid a) (al_container_name a) with
    | Some _ => (ENPU_ALREADY_EXISTS, r)
    | None =>
        if MAX_ALLOC_COUNT <=? registry_count r then (ENPU_NO_RESOURCE, r)
        else
          let needs := capacity r <=? registry_count r in
          if needs && negb malloc_ok then (ENPU_NO_RESOURCE, r)
          else
            let cap :=
              if needs then (if MAX_ALLOC_COUNT <? capacity r * 2 then MAX_ALLOC_COUNT else capacity r * 2)
              else capacity r in
            persist_to_adapter (mk_registry (entries r ++ [a]) cap (adapter r))
    end.

Definition allocation_registry_release (r : allocation_registry) (pod_uid container_name : string) : Z * allocation_registry :=
  match find_entry_index r pod_uid container_name with
  | None => (ENPU_NOT_FOUND, r)
  | Some idx => persist_to_adapter (mk_registry (delete idx (entries r)) (capacity r) (adapter r))
  end.

Definition allocation_registry_update_shm_id `{Securec} (r : allocation_registry) (pod_uid container_name new_shm_id : string) :
    Z * allocation_registry :=
  match find_entry_index r pod_uid container_name with
  | None => (ENPU_NOT_FOUND, r)
  | Some idx =>
      let s := (strncpy_s (Z.to_nat DIE_ID_LEN) new_shm_id (Z.to_nat (DIE_ID_LEN - 1))).2 in
      persist_to_adapter (mk_registry (alter (set_shm_id s) idx (entries r)) (capacity r) (adapter r))
  end.

Definition allocation_registry_get (r : allocation_registry) (pod_uid container_name : string) : Z * option allocation :=
  match list_find (key_matches pod_uid container_name) (entries r) with
  | None => (ENPU_NOT_FOUND, None)
  | Some (_, a) => (ENPU_SUCCESS, Some a)
  end.

Definition allocation_registry_list (r : allocation_registry) : Z * list allocation := (ENPU_SUCCESS, entries r).

Definition allocation_registry_get_by_phy_id_vnpu_id (r : allocation_registry) (phy_id vnpu_id : Z) : Z * option allocation :=
  match list_find (fun a => al_phy_id a = phy_id ∧ al_vnpu_id a = vnpu_id) (entries r) with
  | None => (ENPU_NOT_FOUND, None)
  | Some (_, a) => (ENPU_SUCCESS, Some a)
  end.

Definition allocation_registry_list_by_phy_id (r : allocation_registry) (phy_id : Z) : Z * list allocation :=
  (ENPU_SUCCESS, filter (fun a => al_phy_id a = phy_id) (entries r)).

Definition allocation_registry_save (r : allocation_registry) : Z * allocation_registry := persist_to_adapter r.

Definition allocation_registry_recover (malloc_ok : bool) (r : allocation_registry) : Z * allocation_registry :=
  match adapter r with
  | None => (ENPU_INVALID_PARAM, r)
  | Some s =>
      let '(rc, loaded) := storage_load s in
      if negb (rc =? ENPU_SUCCESS) then (rc, r)
      else
        let count := Z.of_nat (length loaded) in
        if (capacity r <? count) && negb malloc_ok then (ENPU_NO_RESOURCE, r)
        else (ENPU_SUCCESS, mk_registry loaded (if capacity r <? count then count else capacity r) (adapter r))
  end.

End registry.
Arguments allocation_registry S : clear implicits.
