(* ===== verification/RegistryThms.v ===== *)
(** Correctness of the registry of allocations: it implements a finite map
    from (pod, container) to allocations, and recovery restores what was
    saved. *)

From S2P Require Import Prelude CLib Registry.

Definition al_key (a : allocation) : string * string := (al_pod_uid a, al_container_name a).

Definition reg_map {S} (r : allocation_registry S) : gmap (string * string) allocation :=
  list_to_map ((fun a => (al_key a, a)) <$> entries r).

Record registry_wf {S} (r : allocation_registry S) : Prop := {
  reg_keys : NoDup (al_key <$> entries r);
  reg_cap : Z.of_nat (length (entries r)) <= capacity r;
  reg_cap_min : 1 <= capacity r <= MAX_ALLOC_COUNT;
}.

(** Storage that refuses every save, for the examples. *)
Inductive broken_storage := Broken.
#[export] Instance broken_is_storage : Storage broken_storage :=
  {| storage_save s _ := (ENPU_FAIL, s); storage_load _ := (ENPU_FAIL, []) |}.

Definition demo_allocation (pod : string) (phy vnpu : Z) : allocation :=
  mk_allocation pod "c" phy vnpu "die" "die" 20 1024 1024 2 1 0 0 0 0 0 false.

(** The memory adapter discharges the laws for at most 256 allocations. *)
#[export] Instance memory_storage_laws : StorageLaws memory_adapter (fun l => (length l <= 256)%nat).
Proof.
  constructor. intros d l d' Hl. simpl. unfold memory_adapter_save, memory_adapter_load, MEMORY_ADAPTER_MAX_CAPACITY.
  case_bool_decide as Hc; [destruct (ma_malloc_ok d); [|done]|]; intros [= <-]; simpl.
  - rewrite bool_decide_eq_false_2 by lia. by rewrite take_ge.
  - by rewrite take_ge by lia.
Qed.

(** It is reliable while it can allocate. *)
Lemma memory_save_reliable d l :
  ma_malloc_ok d = true -> (memory_adapter_save d l).1 = ENPU_SUCCESS ∧ ma_malloc_ok (memory_adapter_save d l).2 = true.
Proof. intros Hd. unfold memory_adapter_save. case_bool_decide; rewrite ?Hd; by simpl. Qed.
#[export] Instance memory_storage_reliable : ReliableStorage memory_adapter :=
  {| reliable d := ma_malloc_ok d = true; reliable_save := memory_save_reliable |}.

(** The registry [r'] is [r] after an update that the storage answered with
    [rc]. *)
Definition persisted {S} `{!Storage S} (r : allocation_registry S) (rc : Z) (r' : allocation_registry S) : Prop :=
  match adapter r with
  | None => rc = ENPU_SUCCESS ∧ adapter r' = None
  | Some s => exists s', storage_save s (entries r') = (rc, s') ∧ adapter r' = Some s'
  end.

Definition reliable_registry {S} `{ReliableStorage S} (r : allocation_registry S) : Prop :=
  from_option reliable True (adapter r).

Lemma persisted_reliable {S} `{ReliableStorage S} (r : allocation_registry S) rc r' :
  reliable_registry r -> persisted r rc r' -> rc = ENPU_SUCCESS ∧ reliable_registry r'.
Proof.
  unfold reliable_registry, persisted. destruct (adapter r) as [s|]; simpl; [|intros _ [-> ->]; done].
  intros Hs (s' & E & ->). simpl. destruct (reliable_save s (entries r') Hs) as [H1 H2]. rewrite E in H1, H2. done.
Qed.

(** * The map behind the list *)

Lemma key_fmap_fst l : ((fun a => (al_key a, a)) <$> l).*1 = al_key <$> l.
Proof. by rewrite <- list_fmap_compose. Qed.

Lemma reg_map_Some {S} (r : allocation_registry S) k a :
  NoDup (al_key <$> entries r) -> reg_map r !! k = Some a <-> a ∈ entries r ∧ al_key a = k.
Proof.
  intros Hnd. unfold reg_map. rewrite <- elem_of_list_to_map by (by rewrite key_fmap_fst).
  rewrite list_elem_of_fmap. split.
  - intros (b & [= -> ->] & Hb). done.
  - intros [Hin <-]. by exists a.
Qed.

Lemma reg_map_None {S} (r : allocation_registry S) k :
  reg_map r !! k = None <-> k ∉ al_key <$> entries r.
Proof. unfold reg_map. by rewrite <- not_elem_of_list_to_map, key_fmap_fst. Qed.

Lemma key_matches_iff p c a : key_matches p c a <-> al_key a = (p, c).
Proof. unfold key_matches, al_key. split; [by intros [-> ->]|]. intros [= -> ->]. done. Qed.

Section laws.
  Context {S : Type} `{!Storage S}.
  Implicit Types r : allocation_registry S.

Lemma find_key r p c :
  registry_wf r ->
  match list_find (key_matches p c) (entries r) with
  | Some (i, a) => reg_map r !! (p, c) = Some a ∧ entries r !! i = Some a
  | None => reg_map r !! (p, c) = None
  end.
Proof.
  intros [Hnd _ _]. destruct (list_find _ _) as [[i a]|] eqn:E.
  - apply list_find_Some in E as (Hi & Hk%key_matches_iff & _). split; [|done].
    apply reg_map_Some; [done|]. split; [by eapply list_elem_of_lookup_2|done].
  - apply list_find_None in E. apply reg_map_None. intros (a & Ha & Hin)%list_elem_of_fmap.
    rewrite Forall_forall in E. by apply (E a Hin), key_matches_iff.
Qed.

Lemma persist_same r rc r' :
  persist_to_adapter r = (rc, r') -> entries r' = entries r ∧ capacity r' = capacity r.
Proof.
  unfold persist_to_adapter. destruct (adapter r); [|by intros [= _ <-]].
  destruct (storage_save _ _). by intros [= _ <-].
Qed.

Lemma persist_saved r cap l rc r' :
  persist_to_adapter (mk_registry l cap (adapter r)) = (rc, r') -> persisted r rc r'.
Proof.
  intros H. unfold persisted. destruct (persist_same _ _ _ H) as [-> _]. unfold persist_to_adapter in H. simpl in *.
  destruct (adapter r) as [s|]; [|by injection H as <- <-]. destruct (storage_save s l) as [rc0 s'] eqn:E.
  injection H as <- <-. by exists s'.
Qed.

Lemma persist_wf r rc r' : persist_to_adapter r = (rc, r') -> registry_wf r -> registry_wf r' ∧ reg_map r' = reg_map r.
Proof.
  intros [E1 E2]%persist_same [? ? ?]. split; [constructor; rewrite ?E1, ?E2; done|]. unfold reg_map. by rewrite E1.
Qed.

Lemma register_entry r a cap :
  registry_wf r -> reg_map r !! al_key a = None ->
  Z.of_nat (length (entries r)) < cap <= MAX_ALLOC_COUNT ->
  let r1 := mk_registry (entries r ++ [a]) cap (adapter r) in
  registry_wf r1 ∧ reg_map r1 = <[al_key a := a]> (reg_map r).
Proof.
  intros [Hnd ? ?] Hnone Hcap r1. apply reg_map_None in Hnone.
  assert (Hwf : registry_wf r1).
  { constructor; simpl; [|rewrite length_app; simpl; lia|lia]. rewrite fmap_app. apply NoDup_app. split; [done|].
    split; [|apply NoDup_singleton]. intros k Hk ->%list_elem_of_singleton. done. }
  split; [done|]. apply map_eq. intros k. destruct (decide (k = al_key a)) as [->|Hne].
  - rewrite lookup_insert_eq. apply reg_map_Some; [apply Hwf|]. split; [|done]. simpl. set_solver.
  - rewrite lookup_insert_ne by done. apply option_eq. intros b. rewrite !reg_map_Some by (done || apply Hwf). simpl.
    rewrite elem_of_app, list_elem_of_singleton. split; [intros [[?| ->] ?]; done|tauto].
Qed.

Lemma release_entry r i a :
  registry_wf r -> entries r !! i = Some a ->
  let r1 := mk_registry (delete i (entries r)) (capacity r) (adapter r) in
  registry_wf r1 ∧ reg_map r1 = delete (al_key a) (reg_map r).
Proof.
  intros [Hnd Hc ?] Hi r1. pose proof (list_elem_of_split_length _ _ _ Hi) as (l1 & l2 & E & Hl).
  assert (Hd : delete i (entries r) = l1 ++ l2) by (rewrite E, Hl; apply delete_middle).
  assert (Hnd' := Hnd). rewrite E, fmap_app, fmap_cons in Hnd'. apply NoDup_app_cons_inv in Hnd' as (N1 & N2 & N3).
  assert (Hwf : registry_wf r1).
  { constructor; simpl; rewrite ?Hd; [by rewrite fmap_app| |done].
    rewrite E, length_app in Hc. rewrite length_app. simpl in Hc. lia. }
  split; [done|]. apply map_eq. intros k. destruct (decide (k = al_key a)) as [->|Hne].
  - rewrite lookup_delete_eq. apply reg_map_None. simpl. rewrite Hd, fmap_app, not_elem_of_app. done.
  - rewrite lookup_delete_ne by done. apply option_eq. intros b. rewrite !reg_map_Some by (done || apply Hwf). simpl.
    rewrite Hd, E, !elem_of_app, elem_of_cons. split; [tauto|]. intros [[?|[ ->|?]] ?]; [auto|done|auto].
Qed.

(** A registration is refused with the registry unchanged, or appends the
    allocation and reports what the storage answers. *)
Lemma register_cases malloc_ok r a rc r' :
  registry_wf r -> allocation_registry_register malloc_ok r a = (rc, r') ->
  (rc <> ENPU_SUCCESS ∧ r' = r)
  \/ (registry_wf r' ∧ entries r' = entries r ++ [a] ∧ reg_map r !! al_key a = None
      ∧ persisted r rc r').
Proof.
  intros Hwf. unfold allocation_registry_register, find_entry_index, registry_count.
  destruct (str_empty _ || str_empty _); [intros [= <- <-]; by left|].
  pose proof (find_key r (al_pod_uid a) (al_container_name a) Hwf) as H. fold (al_key a) in H.
  destruct (list_find _ _) as [[i b]|]; simpl; [intros [= <- <-]; by left|].
  destruct (Z.leb_spec MAX_ALLOC_COUNT (Z.of_nat (length (entries r)))); simpl; [intros [= <- <-]; by left|].
  pose proof (reg_cap_min r Hwf). pose proof (reg_cap r Hwf). unfold MAX_ALLOC_COUNT in *.
  set (needs := capacity r <=? Z.of_nat (length (entries r))). destruct (needs && negb malloc_ok); [intros [= <- <-]; by left|].
  set (cap := if needs then _ else _). assert (Hcap : Z.of_nat (length (entries r)) < cap <= 1024).
  { unfold cap, needs. destruct (Z.leb_spec (capacity r) (Z.of_nat (length (entries r)))); [|lia].
    destruct (Z.ltb_spec 1024 (capacity r * 2)); lia. }
  destruct (register_entry r a cap Hwf H Hcap) as [W _]. intros Hp. right. destruct (persist_wf _ _ _ Hp W) as [W' _].
  destruct (persist_same _ _ _ Hp) as [E _]. split_and!; [done|by rewrite E|done|]. by eapply persist_saved.
Qed.

(** A release removes the entry of its key from the list. *)
Lemma release_cases r p c rc r' :
  registry_wf r -> allocation_registry_release r p c = (rc, r') ->
  match reg_map r !! (p, c) with
  | None => r' = r
  | Some a => exists l1 l2, entries r = l1 ++ a :: l2 ∧ entries r' = l1 ++ l2 ∧ registry_wf r' ∧ persisted r rc r'
  end.
Proof.
  intros Hwf. unfold allocation_registry_release, find_entry_index. pose proof (find_key r p c Hwf) as H.
  destruct (list_find _ _) as [[i b]|]; simpl; [|rewrite H; by intros [= _ <-]].
  destruct H as [-> Hi]. intros Hp. destruct (release_entry r i b Hwf Hi) as [W _]. destruct (persist_wf _ _ _ Hp W) as [W' _].
  destruct (persist_same _ _ _ Hp) as [E _]. pose proof (list_elem_of_split_length _ _ _ Hi) as (l1 & l2 & E1 & Hl).
  exists l1, l2. split; [done|]. split; [|split; [done|by eapply persist_saved]]. rewrite E. simpl. rewrite E1, Hl. apply delete_middle.
Qed.

End laws.

(** * Properties *)

Lemma registry_wf_empty S (s : option S) : registry_wf (allocation_registry_create_with_adapter s).
Proof. constructor; simpl; [constructor|unfold ALLOC_REGISTRY_INIT_CAPACITY; lia|unfold ALLOC_REGISTRY_INIT_CAPACITY, MAX_ALLOC_COUNT; lia]. Qed.

(** The registry implements a finite map keyed by pod and container.  A
    look-up returns the entry of the map; a release removes exactly one key
    and fails exactly when it is absent; a registration is refused with the
    map unchanged for an empty name, an existing key, a full registry (1024
    entries) or a failed allocation, and otherwise adds exactly one key,
    growing the array within its maximum. *)
Theorem registry_refines_map {S} `{!Storage S} (r : allocation_registry S) p c a malloc_ok :
  registry_wf r ->
  allocation_registry_get r p c =
    (match reg_map r !! (p, c) with Some b => (ENPU_SUCCESS, Some b) | None => (ENPU_NOT_FOUND, None) end)
  ∧ (forall rc r', allocation_registry_release r p c = (rc, r') -> registry_wf r' ∧
       match reg_map r !! (p, c) with
       | Some _ => reg_map r' = delete (p, c) (reg_map r)
       | None => rc = ENPU_NOT_FOUND ∧ r' = r
       end)
  ∧ (forall rc r', allocation_registry_register malloc_ok r a = (rc, r') -> registry_wf r' ∧
       if str_empty (al_pod_uid a) || str_empty (al_container_name a) then rc = ENPU_INVALID_PARAM ∧ r' = r
       else match reg_map r !! al_key a with
            | Some _ => rc = ENPU_ALREADY_EXISTS ∧ r' = r
            | None =>
                if (MAX_ALLOC_COUNT <=? registry_count r) || ((capacity r <=? registry_count r) && negb malloc_ok)
                then rc = ENPU_NO_RESOURCE ∧ r' = r
                else reg_map r' = <[al_key a := a]> (reg_map r)
            end).
Proof.
  intros Hwf. split; [|split].
  - unfold allocation_registry_get. pose proof (find_key r p c Hwf) as H.
    destruct (list_find _ _) as [[i b]|]; [by destruct H as [-> _]|by rewrite H].
  - intros rc r'. unfold allocation_registry_release, find_entry_index. pose proof (find_key r p c Hwf) as H.
    destruct (list_find _ _) as [[i b]|]; simpl.
    + destruct H as [H Hi]. rewrite H. intros Hp. destruct (release_entry r i b Hwf Hi) as [W M].
      destruct (persist_wf _ _ _ Hp W) as [W' ->]. split; [done|]. rewrite M.
      by apply (reg_map_Some r) in H as [_ ->]; [|apply Hwf].
    + rewrite H. by intros [= <- <-].
  - intros rc r'. unfold allocation_registry_register, find_entry_index, registry_count.
    destruct (str_empty _ || str_empty _); [by intros [= <- <-]|].
    pose proof (find_key r (al_pod_uid a) (al_container_name a) Hwf) as H. fold (al_key a) in H.
    destruct (list_find _ _) as [[i b]|]; simpl; [destruct H as [-> _]; by intros [= <- <-]|]. rewrite H.
    destruct (Z.leb_spec MAX_ALLOC_COUNT (Z.of_nat (length (entries r)))); simpl; [by intros [= <- <-]|].
    pose proof (reg_cap_min r Hwf). unfold MAX_ALLOC_COUNT in *.
    destruct (Z.leb_spec (capacity r) (Z.of_nat (length (entries r)))) as [Hn|Hn]; simpl.
    + destruct malloc_ok; simpl; [|by intros [= <- <-]]. intros Hp. pose proof (reg_cap r Hwf).
      destruct (register_entry r a (if 1024 <? capacity r * 2 then 1024 else capacity r * 2) Hwf H) as [W M].
      { unfold MAX_ALLOC_COUNT. destruct (Z.ltb_spec 1024 (capacity r * 2)); lia. }
      destruct (persist_wf _ _ _ Hp W) as [W' ->]. done.
    + intros Hp. destruct (register_entry r a (capacity r) Hwf H) as [W M]; [unfold MAX_ALLOC_COUNT; lia|].
      destruct (persist_wf _ _ _ Hp W) as [W' ->]. done.
Qed.

Lemma registry_refines_map_witness :
  allocation_registry_get (allocation_registry_create_with_adapter (Some memory_storage_adapter_create)) "p" "c" = (ENPU_NOT_FOUND, None).
Proof.
  destruct (registry_refines_map (allocation_registry_create_with_adapter (Some memory_storage_adapter_create)) "p" "c"
    (demo_allocation "p" 0 0) true (registry_wf_empty _ _)) as [H _]. exact H.
Defined.

(** A registration whose checkpoint cannot be written reports the error of
    the storage and yet keeps the allocation in the registry, where later
    look-ups find it. *)
Theorem register_kept_when_save_fails {S} `{!Storage S} (r : allocation_registry S) s s' a rc malloc_ok :
  registry_wf r -> adapter r = Some s -> rc <> ENPU_SUCCESS -> storage_save s (entries r ++ [a]) = (rc, s') ->
  al_pod_uid a <> EmptyString -> al_container_name a <> EmptyString -> reg_map r !! al_key a = None ->
  registry_count r < capacity r ->
  exists r', allocation_registry_register malloc_ok r a = (rc, r')
    ∧ allocation_registry_get r' (al_pod_uid a) (al_container_name a) = (ENPU_SUCCESS, Some a).
Proof.
  intros Hwf Ha Hrc Hsave Hp Hc Hnone Hcap. unfold allocation_registry_register, find_entry_index.
  assert (str_empty (al_pod_uid a) || str_empty (al_container_name a) = false) as ->
    by (destruct (al_pod_uid a), (al_container_name a); done).
  pose proof (find_key r (al_pod_uid a) (al_container_name a) Hwf) as H. fold (al_key a) in H. rewrite Hnone in H.
  destruct (list_find _ _) as [[i b]|]; [by destruct H|]. simpl. pose proof (reg_cap_min r Hwf). unfold registry_count in *.
  rewrite (proj2 (Z.leb_gt _ _)) by (unfold MAX_ALLOC_COUNT in *; lia). rewrite (proj2 (Z.leb_gt _ _)) by lia. simpl.
  destruct (register_entry r a (capacity r) Hwf Hnone) as [W M]; [lia|].
  unfold persist_to_adapter. simpl. rewrite Ha, Hsave. eexists. split; [done|].
  pose proof (find_key _ (al_pod_uid a) (al_container_name a) W) as H2.
  unfold allocation_registry_get. simpl in *. destruct (list_find _ _) as [[i b]|]; [|by rewrite M, lookup_insert_eq in H2].
  destruct H2 as [H2 _]. rewrite M in H2. unfold al_key in H2. rewrite lookup_insert_eq in H2. by simplify_eq.
Qed.

Lemma register_kept_when_save_fails_witness :
  exists r', allocation_registry_register true (allocation_registry_create_with_adapter (Some Broken)) (demo_allocation "p" 0 0) = (ENPU_FAIL, r')
    ∧ allocation_registry_get r' "p" "c" = (ENPU_SUCCESS, Some (demo_allocation "p" 0 0)).
Proof.
  apply (register_kept_when_save_fails (allocation_registry_create_with_adapter (Some Broken)) Broken Broken
    (demo_allocation "p" 0 0) ENPU_FAIL true);
    [apply registry_wf_empty|reflexivity|discriminate|reflexivity|discriminate|discriminate|reflexivity|reflexivity].
Defined.

(** The memory adapter reports success for more than 256 allocations and
    stores the first 256 of them. *)
Theorem memory_adapter_truncates allocs :
  exists d, memory_adapter_save memory_storage_adapter_create allocs = (ENPU_SUCCESS, d)
    ∧ memory_adapter_load d = (ENPU_SUCCESS, take 256 allocs).
Proof.
  unfold memory_adapter_save, memory_storage_adapter_create. simpl ma_capacity. simpl ma_malloc_ok.
  case_bool_decide; eexists; by split.
Qed.

(** Recovery restores what was saved: when the storage keeps the laws of
    [StorageLaws], a registry whose last save succeeded and a fresh registry
    that recovers from the same storage hold the same allocations. *)
Theorem registry_save_recover {S} `{!Storage S} P `{!StorageLaws S P} (r r1 : allocation_registry S) s1 :
  registry_wf r -> P (entries r) -> is_Some (adapter r) ->
  allocation_registry_save r = (ENPU_SUCCESS, r1) -> adapter r1 = Some s1 ->
  exists r2, allocation_registry_recover true (allocation_registry_create_with_adapter (Some s1)) = (ENPU_SUCCESS, r2)
    ∧ entries r2 = entries r ∧ registry_wf r2 ∧ reg_map r2 = reg_map r.
Proof.
  intros Hwf HP [s Hs] Hsave Ha. unfold allocation_registry_save, persist_to_adapter in Hsave. rewrite Hs in Hsave.
  destruct (storage_save s (entries r)) as [rc s2] eqn:E. injection Hsave as -> <-. simpl in Ha. injection Ha as <-.
  unfold allocation_registry_recover. simpl. rewrite (storage_load_save _ _ _ HP E). simpl. rewrite andb_false_r.
  eexists. split; [done|]. split; [done|]. split; [|done]. destruct Hwf as [H1 H2 H3].
  unfold ALLOC_REGISTRY_INIT_CAPACITY. constructor; simpl; [done| |];
    destruct (Z.ltb_spec 64 (Z.of_nat (length (entries r)))); unfold MAX_ALLOC_COUNT in *; lia.
Qed.

Lemma registry_save_recover_witness :
  exists r2, allocation_registry_recover true
      (allocation_registry_create_with_adapter (Some (mk_memory [demo_allocation "p" 0 0] 256 true))) = (ENPU_SUCCESS, r2)
    ∧ entries r2 = [demo_allocation "p" 0 0].
Proof.
  destruct (registry_save_recover (fun l => (length l <= 256)%nat)
    (mk_registry [demo_allocation "p" 0 0] 64 (Some memory_storage_adapter_create))
    (mk_registry [demo_allocation "p" 0 0] 64 (Some (mk_memory [demo_allocation "p" 0 0] 256 true)))
    (mk_memory [demo_allocation "p" 0 0] 256 true)) as (r2 & H1 & H2 & _).
  - constructor; simpl; [apply NoDup_singleton|lia|unfold MAX_ALLOC_COUNT; lia].
  - simpl. lia.
  - simpl. eauto.
  - reflexivity.
  - reflexivity.
  - exists r2. split; [exact H1|exact H2].
Defined.
