(* ===== verification/FileStorage.v ===== *)
(** The storage of the registry in a file
    (enpu-manager/core/src/file_storage_adapter.c): the checkpoint is a JSON
    array with one object for each allocation.

    cJSON is not part of the sources: its items are trees, and its printer, its
    parser and its search are the class [CJson] with their documented results.
    The file is a string, and the answers of the C library are a record.  The
    adapter is an instance of [Storage], so that what is proved of the registry
    and of the allocator holds with it. *)

From S2P Require Import Prelude CLib Registry RegistryThms.

(** * JSON *)

Inductive json :=
  | JNull
  | JBool (b : bool)
  | JNumber (x : double)
  | JString (s : string)
  | JArray (l : list json)
  | JObject (l : list (string * json)).

Definition lower_case (s : string) : bool :=
  forallb (fun c => let n := Z.of_N (Ascii.N_of_ascii c) in (n <? 65) || (90 <? n)) (String.list_ascii_of_string s).

(** Integers up to this bound have 15 digits and are printed exactly. *)
Definition JSON_EXACT : Z := 10 ^ 15.

(** A string without a NUL character. *)
Definition c_string (s : string) : bool := forallb (fun c => negb (N.eqb (Ascii.N_of_ascii c) 0)) (String.list_ascii_of_string s).

(** What may be read for an item that was printed: a number of more digits may
    come back as one that is close to it. *)
Inductive reads_as : json -> json -> Prop :=
  | ra_bool b : reads_as (JBool b) (JBool b)
  | ra_string s : c_string s = true -> reads_as (JString s) (JString s)
  | ra_number x y :
      (forall n, d_trunc x = Some n -> Z.abs n <= JSON_EXACT -> y = x) ->
      (forall n, d_to_u64 x = Some n -> exists m, d_to_u64 y = Some m ∧ Z.abs (m - n) * 2 ^ 50 <= n) -> reads_as (JNumber x) (JNumber y)
  | ra_array l l1 : Forall2 reads_as l l1 -> reads_as (JArray l) (JArray l1)
  | ra_object l l1 : Forall2 (fun a b => a.1 = b.1 ∧ reads_as a.2 b.2) l l1 -> reads_as (JObject l) (JObject l1).

(** The items that the adapter prints. *)
Inductive printable : json -> Prop :=
  | pr_bool b : printable (JBool b)
  | pr_string s : c_string s = true -> printable (JString s)
  | pr_number n : - 2 ^ 31 <= n < 2 ^ 63 -> printable (JNumber (d_of_Z n))
  | pr_array l : Forall printable l -> printable (JArray l)
  | pr_object l : Forall (fun kv => printable kv.2) l -> printable (JObject l).

Definition NL : string := String (Ascii.ascii_of_N 10) EmptyString.

Class CJson := {
  cJSON_Print : json -> option string;
  cJSON_Parse : string -> option json;
  cJSON_GetObjectItem : json -> string -> option json;
  valueint : json -> Z;
  cJSON_Parse_empty : cJSON_Parse EmptyString = None;
  cJSON_Parse_Print v text : printable v -> cJSON_Print v = Some text -> exists v1, cJSON_Parse (text +:+ NL) = Some v1 ∧ reads_as v v1;
  cJSON_GetObjectItem_first l k : Forall (fun kv => lower_case kv.1 = true) l -> lower_case k = true ->
    cJSON_GetObjectItem (JObject l) k = (fun x => x.2.2) <$> list_find (fun kv => kv.1 = k) l;
  valueint_small n : is_i32 n -> valueint (JNumber (d_of_Z n)) = n;
}.

Definition valuestring (j : json) : option string := match j with JString s => Some s | _ => None end.
Definition valuedouble (j : json) : double := match j with JNumber x => x | _ => d_zero end.
Definition cJSON_IsTrue (j : json) : bool := match j with JBool true => true | _ => false end.

(** * The adapter *)

(** The answers of the C library.  [fe_partial] is the number of characters that
    reach the file when the write or the closing fails. *)
Record file_env := FileEnv {
  fe_array : bool;
  fe_object : nat -> bool;
  fe_add : nat -> string -> bool;
  fe_mkdir : string -> bool;
  fe_open_w : bool;
  fe_fprintf : bool;
  fe_fclose_w : bool;
  fe_partial : nat;
  fe_open_r : bool;
  fe_seek_end : bool;
  fe_ftell : bool;
  fe_seek_set : bool;
  fe_calloc : bool;
  fe_fread : bool;
  fe_fclose_r : bool;
}.

(** [fa_file] is the content of the file, [None] when there is none. *)
Record file_adapter := FileAdapter { fa_path : string; fa_file : option string; fa_env : file_env }.

Definition set_file (f : option string) (d : file_adapter) : file_adapter := FileAdapter (fa_path d) f (fa_env d).

Section adapter.
Context `{SC : Securec} `{CJ : CJson}.

(** The places of the slashes (character 47) of [s] from [i] on. *)
Fixpoint slashes (i : nat) (s : string) : list nat :=
  match s with
  | EmptyString => []
  | String c rest => (if Ascii.eqb c (Ascii.ascii_of_N 47) then [i] else []) ++ slashes (S i) rest
  end.

(** The directories are made from the root on; [mkdir] says whether one exists
    afterwards. *)
Definition ensure_parent_dir (mkdir : string -> bool) (file_path : string) : Z :=
  let '(rc, tmp) := snprintf_s (Z.to_nat MAX_PATH_LEN) (Z.to_nat MAX_PATH_LEN - 1) file_path in
  if rc <? 0 then ENPU_FAIL
  else
    match last (slashes 0 tmp) with
    | None | Some O => ENPU_SUCCESS
    | Some slash =>
      let parent := prefix_of_len slash tmp in
      let inner := (fun i => prefix_of_len i parent) <$> filter (fun i => (0 < i)%nat) (slashes 0 parent) in
      if forallb mkdir (inner ++ [parent]) then ENPU_SUCCESS else ENPU_FAIL
    end.

Definition alloc_fields (a : allocation) : list (string * json) :=
  let number n := JNumber (d_of_Z n) in
  [ ("pod_uid", JString (al_pod_uid a)); ("container_name", JString (al_container_name a)); ("phy_id", number (al_phy_id a));
    ("vnpu_id", number (al_vnpu_id a)); ("die_id", JString (al_die_id a)); ("shm_id", JString (al_shm_id a));
    ("aicore_quota", number (al_aicore_quota a)); ("hbm_quota", number (al_hbm_quota a)); ("hbm_limit", number (al_hbm_limit a));
    ("sched_policy", number (al_sched_policy a)); ("swap_priority", number (al_swap_priority a)); ("vnpu_priority", number (al_vnpu_priority a));
    ("create_time_ns", number (al_create_time_ns a)); ("update_time_ns", number (al_update_time_ns a));
    ("swap_offset", number (al_swap_offset a)); ("swap_size", number (al_swap_size a)); ("swapped", JBool (al_swapped a)) ].

(** The loop over the allocations; a field that cannot be added is left out. *)
Fixpoint save_items (env : file_env) (i : nat) (allocs : list allocation) : option (list json) :=
  match allocs with
  | [] => Some []
  | a :: rest =>
    if negb (fe_object env i) then None
    else items ← save_items env (S i) rest; Some (JObject (filter (fun kv => fe_add env i kv.1 = true) (alloc_fields a)) :: items)
  end.

Definition file_adapter_save (d : file_adapter) (allocs : list allocation) : Z * file_adapter :=
  let env := fa_env d in
  if str_empty (fa_path d) then (ENPU_FAIL, d)
  else if negb (fe_array env) then (ENPU_NO_RESOURCE, d)
  else
    match save_items env 0 allocs with
    | None => (ENPU_NO_RESOURCE, d)
    | Some items =>
      match cJSON_Print (JArray items) with
      | None => (ENPU_FAIL, d)
      | Some json_str =>
        if negb (ensure_parent_dir (fe_mkdir env) (fa_path d) =? ENPU_SUCCESS) then (ENPU_FAIL, d)
        else if negb (fe_open_w env) then (ENPU_FAIL, d)
        else
          let text := json_str +:+ NL in
          let d1 := set_file (Some (if fe_fprintf env && fe_fclose_w env then text else prefix_of_len (fe_partial env) text)) d in
          if negb (fe_fprintf env) then (ENPU_FAIL, d1) else if negb (fe_fclose_w env) then (ENPU_FAIL, d1) else (ENPU_SUCCESS, d1)
      end
    end.

(** The helpers of [file_adapter_load] on one item of the array. *)
Definition get_string (item : json) (key : string) (n : Z) : option string :=
  match cJSON_GetObjectItem item key with
  | None => Some EmptyString
  | Some j => match valuestring j with
              | None => Some EmptyString
              | Some s => let '(rc, r) := strncpy_s (Z.to_nat n) s (Z.to_nat n - 1) in if rc =? 0 then Some r else None
              end
  end.

Definition get_int (item : json) (key : string) : Z := match cJSON_GetObjectItem item key with None => 0 | Some j => valueint j end.

(** [(uint64_t)item->valuedouble]; [None] when the conversion is undefined. *)
Definition get_u64 (item : json) (key : string) (missing : Z) : option Z :=
  match cJSON_GetObjectItem item key with None => Some missing | Some j => d_to_u64 (valuedouble j) end.

(** [Some (inl tt)]: a copy failed. *)
Definition load_item (item : json) : option (unit + allocation) :=
  match get_string item "pod_uid" MAX_UUID_LEN, get_string item "container_name" MAX_NAME_LEN, get_string item "die_id" DIE_ID_LEN,
        get_string item "shm_id" DIE_ID_LEN with
  | Some pod_uid, Some container_name, Some die_id, Some shm_id =>
    hbm_quota ← get_u64 item "hbm_quota" 0;
    hbm_limit ← get_u64 item "hbm_limit" hbm_quota;
    create_time_ns ← get_u64 item "create_time_ns" 0;
    update_time_ns ← get_u64 item "update_time_ns" 0;
    swap_offset ← get_u64 item "swap_offset" 0;
    swap_size ← get_u64 item "swap_size" 0;
    let vnpu_priority :=
      match cJSON_GetObjectItem item "vnpu_priority" with
      | Some j => if (valueint j =? VNPU_PRIORITY_NORMAL) || (valueint j =? VNPU_PRIORITY_HIGH) then valueint j else VNPU_PRIORITY_NORMAL
      | None => VNPU_PRIORITY_NORMAL
      end in
    let swap_priority :=
      match cJSON_GetObjectItem item "swap_priority" with
      | Some j => if (SWAP_PRIORITY_HIGH <=? valueint j) && (valueint j <=? SWAP_PRIORITY_LOW) then valueint j else SWAP_PRIORITY_MEDIUM
      | None => SWAP_PRIORITY_MEDIUM
      end in
    let swapped := match cJSON_GetObjectItem item "swapped" with Some j => cJSON_IsTrue j | None => false end in
    Some (inr (mk_allocation pod_uid container_name (get_int item "phy_id") (get_int item "vnpu_id") die_id shm_id (get_int item "aicore_quota")
      hbm_quota hbm_limit (get_int item "sched_policy") swap_priority vnpu_priority create_time_ns update_time_ns swap_offset swap_size swapped))
  | _, _, _, _ => Some (inl ())
  end.

Fixpoint load_items (l : list json) : option (option (list allocation)) :=
  match l with
  | [] => Some (Some [])
  | item :: rest =>
    r ← load_item item;
    match r with
    | inl _ => Some None
    | inr a => x ← load_items rest; Some (option_map (cons a) x)
    end
  end.

(** The code and the allocations, as many as are counted. *)
Definition file_adapter_load (d : file_adapter) : option (Z * list allocation) :=
  let env := fa_env d in
  if str_empty (fa_path d) then Some (ENPU_FAIL, [])
  else
    match (if fe_open_r env then fa_file d else None) with
    | None => Some (ENPU_SUCCESS, [])
    | Some text =>
      if negb (fe_seek_end env && fe_ftell env && fe_seek_set env) then Some (ENPU_FAIL, [])
      else if negb (fe_calloc env) then Some (ENPU_NO_RESOURCE, [])
      else if negb (str_empty text) && negb (fe_fread env) then Some (ENPU_FAIL, [])
      else if negb (fe_fclose_r env) then Some (ENPU_FAIL, [])
      else
        let entries_arr :=
          match cJSON_Parse text with
          | Some (JObject l) => cJSON_GetObjectItem (JObject l) "entries"
          | x => x
          end in
        match entries_arr with
        | Some (JArray l) =>
          r ← load_items (take (Z.to_nat MAX_ALLOC_COUNT) l);
          Some (match r with Some as_ => (ENPU_SUCCESS, as_) | None => (ENPU_FAIL, []) end)
        | _ => Some (ENPU_SUCCESS, [])
        end
    end.

(** [calloc] says whether the two objects of the adapter can be allocated. *)
Definition file_storage_adapter_create (calloc : bool) (env : file_env) (file : option string) (path : option string) : option file_adapter :=
  if negb calloc then None else
  match path with
  | None => Some (FileAdapter EmptyString file env)
  | Some s => let '(rc, p) := strncpy_s (Z.to_nat MAX_PATH_LEN) s (Z.to_nat MAX_PATH_LEN - 1) in if rc =? 0 then Some (FileAdapter p file env) else None
  end.

#[export] Instance file_storage : Storage file_adapter :=
  {| storage_save := file_adapter_save; storage_load d := default (ENPU_FAIL, []) (file_adapter_load d) |}.

End adapter.

(** * Reading an allocation back *)

Section facts.
Context `{SC : Securec} `{CJ : CJson}.

(** An allocation that fits into the file: its strings fit their fields, and its
    sizes are short integers. *)
Record storable (a : allocation) : Prop := {
  sb_pod : (String.length (al_pod_uid a) < Z.to_nat MAX_UUID_LEN)%nat ∧ c_string (al_pod_uid a) = true;
  sb_name : (String.length (al_container_name a) < Z.to_nat MAX_NAME_LEN)%nat ∧ c_string (al_container_name a) = true;
  sb_die : (String.length (al_die_id a) < Z.to_nat DIE_ID_LEN)%nat ∧ c_string (al_die_id a) = true;
  sb_shm : (String.length (al_shm_id a) < Z.to_nat DIE_ID_LEN)%nat ∧ c_string (al_shm_id a) = true;
  sb_ints : is_i32 (al_phy_id a) ∧ is_i32 (al_vnpu_id a) ∧ is_i32 (al_aicore_quota a) ∧ is_i32 (al_sched_policy a);
  sb_sizes : 0 <= al_hbm_quota a <= JSON_EXACT ∧ 0 <= al_hbm_limit a <= JSON_EXACT ∧ 0 <= al_swap_offset a <= JSON_EXACT ∧ 0 <= al_swap_size a <= JSON_EXACT;
  sb_vnpu_priority : 0 <= al_vnpu_priority a <= 1;
  sb_swap_priority : 0 <= al_swap_priority a <= 2;
  sb_times : 0 <= al_create_time_ns a < 2 ^ 63 ∧ 0 <= al_update_time_ns a < 2 ^ 63;
}.

(** Two times that differ by less than 16.4 microseconds, and not at all when
    they are short. *)
Definition time_close (t t1 : Z) : Prop := Z.abs (t1 - t) < 16384 ∧ (t <= JSON_EXACT -> t1 = t).

(** The same allocation up to its times. *)
Definition read_back (a a1 : allocation) : Prop :=
  exists t u, a1 = mk_allocation (al_pod_uid a) (al_container_name a) (al_phy_id a) (al_vnpu_id a) (al_die_id a) (al_shm_id a) (al_aicore_quota a)
    (al_hbm_quota a) (al_hbm_limit a) (al_sched_policy a) (al_swap_priority a) (al_vnpu_priority a) t u (al_swap_offset a) (al_swap_size a) (al_swapped a) ∧
    time_close (al_create_time_ns a) t ∧ time_close (al_update_time_ns a) u.

Notation read_fields := (Forall2 (fun a b : string * json => a.1 = b.1 ∧ reads_as a.2 b.2)).

Lemma field_key (l : list (string * json)) k v i :
  NoDup l.*1 -> l !! i = Some (k, v) -> (fun x => x.2.2) <$> list_find (fun kv => kv.1 = k) l = Some v.
Proof.
  intros Hn Hi. rewrite (proj2 (list_find_Some _ l i (k, v))); [done|]. split; [done|]. split; [done|]. intros j [k1 v1] Hj Hlt E. cbn in E. subst k1.
  assert (j = i); [|lia]. apply (NoDup_lookup l.*1 j i k); [done|by rewrite list_lookup_fmap, Hj|by rewrite list_lookup_fmap, Hi].
Qed.

(** The field [i] of the item that is read. *)
Lemma field_read a l1 i k v :
  read_fields (alloc_fields a) l1 -> alloc_fields a !! i = Some (k, v) -> exists v1, cJSON_GetObjectItem (JObject l1) k = Some v1 ∧ reads_as v v1.
Proof.
  intros HF Hi. destruct (Forall2_lookup_l _ _ _ _ _ HF Hi) as ([k1 v1] & Hi1 & Hk & Hv). cbn in Hk, Hv. subst k1. exists v1. split; [|done].
  assert (Hkeys : l1.*1 = (alloc_fields a).*1).
  { clear Hi Hi1 Hv. induction HF as [|x y l l1' [Hx _] _ IH]; [done|]. cbn. by rewrite Hx, IH. }
  assert (Hlow : Forall (fun s => lower_case s = true) (alloc_fields a).*1) by (cbn; repeat constructor).
  rewrite cJSON_GetObjectItem_first.
  - apply (field_key l1 k v1 i); [|done]. rewrite Hkeys. cbn. apply (bool_decide_unpack _). by vm_compute.
  - rewrite <- Hkeys in Hlow. by apply Forall_fmap in Hlow.
  - rewrite Forall_lookup in Hlow. apply (Hlow i). by rewrite list_lookup_fmap, Hi.
Qed.

Lemma field_string a l1 i k s n :
  read_fields (alloc_fields a) l1 -> alloc_fields a !! i = Some (k, JString s) -> (String.length s < Z.to_nat n)%nat -> get_string (JObject l1) k n = Some s.
Proof.
  intros HF Hi Hl. destruct (field_read a l1 i k _ HF Hi) as (v1 & E & Hr). unfold get_string. rewrite E. inversion Hr; subst. cbn [valuestring].
  rewrite strncpy_s_fits by lia. cbn. by rewrite prefix_of_len_all by lia.
Qed.

Lemma field_number a l1 i k n :
  read_fields (alloc_fields a) l1 -> alloc_fields a !! i = Some (k, JNumber (d_of_Z n)) -> Z.abs n <= JSON_EXACT ->
  cJSON_GetObjectItem (JObject l1) k = Some (JNumber (d_of_Z n)).
Proof.
  intros HF Hi Hn. destruct (field_read a l1 i k _ HF Hi) as (v1 & E & Hr). rewrite E. inversion Hr as [| |x y Hx _| |]; subst. f_equal. f_equal.
  apply (Hx n); [|done]. apply d_of_Z_exact. unfold JSON_EXACT in Hn. lia.
Qed.

Lemma field_int a l1 i k n :
  read_fields (alloc_fields a) l1 -> alloc_fields a !! i = Some (k, JNumber (d_of_Z n)) -> is_i32 n -> get_int (JObject l1) k = n.
Proof.
  intros HF Hi Hn. unfold get_int. rewrite (field_number a l1 i k n) by (done || (unfold is_i32, I32_HALF, JSON_EXACT in *; lia)). by apply valueint_small.
Qed.

Lemma field_size a l1 i k n m :
  read_fields (alloc_fields a) l1 -> alloc_fields a !! i = Some (k, JNumber (d_of_Z n)) -> 0 <= n <= JSON_EXACT -> get_u64 (JObject l1) k m = Some n.
Proof.
  intros HF Hi Hn. unfold get_u64. rewrite (field_number a l1 i k n) by (done || lia). cbn [valuedouble]. apply d_to_u64_exact. unfold JSON_EXACT in Hn. lia.
Qed.

Lemma field_time a l1 i k n m :
  read_fields (alloc_fields a) l1 -> alloc_fields a !! i = Some (k, JNumber (d_of_Z n)) -> 0 <= n < 2 ^ 63 ->
  exists t, get_u64 (JObject l1) k m = Some t ∧ time_close n t.
Proof.
  intros HF Hi Hn. destruct (Z.le_gt_cases n JSON_EXACT) as [Hs|Hs].
  { exists n. split; [apply (field_size a l1 i); (done || lia)|]. split; [lia|done]. }
  destruct (field_read a l1 i k _ HF Hi) as (v1 & E & Hr). unfold get_u64. rewrite E. inversion Hr as [| |x y _ Hy| |]; subst. cbn [valuedouble].
  destruct (d_of_Z_close n Hn) as (p & Ep & Hp & Hp2). destruct (Hy p Ep) as (t & Et & Ht). exists t. split; [done|]. split; lia.
Qed.

Lemma load_item_restored a l1 : storable a -> read_fields (alloc_fields a) l1 -> exists a1, load_item (JObject l1) = Some (inr a1) ∧ read_back a a1.
Proof.
  intros [[S1 _] [S2 _] [S3 _] [S4 _] (I1 & I2 & I3 & I4) (Z1 & Z2 & Z3 & Z4) V W (T1 & T2)] HF. unfold load_item.
  rewrite (field_string a l1 0 _ _ _ HF eq_refl S1), (field_string a l1 1 _ _ _ HF eq_refl S2), (field_string a l1 4 _ _ _ HF eq_refl S3), (field_string a l1 5 _ _ _ HF eq_refl S4).
  rewrite (field_size a l1 7 _ _ _ HF eq_refl Z1). cbn [mbind option_bind]. rewrite (field_size a l1 8 _ _ _ HF eq_refl Z2). cbn [mbind option_bind].
  destruct (field_time a l1 12 _ _ 0 HF eq_refl T1) as (t & -> & Ht). destruct (field_time a l1 13 _ _ 0 HF eq_refl T2) as (u & -> & Hu). cbn [mbind option_bind].
  rewrite (field_size a l1 14 _ _ _ HF eq_refl Z3), (field_size a l1 15 _ _ _ HF eq_refl Z4). cbn [mbind option_bind].
  rewrite (field_number a l1 11 _ _ HF eq_refl), (field_number a l1 10 _ _ HF eq_refl) by (unfold JSON_EXACT; lia).
  rewrite !valueint_small by (unfold is_i32, I32_HALF; lia).
  rewrite (field_int a l1 2 _ _ HF eq_refl I1), (field_int a l1 3 _ _ HF eq_refl I2), (field_int a l1 6 _ _ HF eq_refl I3), (field_int a l1 9 _ _ HF eq_refl I4).
  destruct (field_read a l1 16 _ _ HF eq_refl) as (b & Eb & Hb). rewrite Eb. inversion Hb; subst.
  eexists. split; [reflexivity|]. exists t, u. split; [|done].
  assert ((al_vnpu_priority a =? VNPU_PRIORITY_NORMAL) || (al_vnpu_priority a =? VNPU_PRIORITY_HIGH) = true) as -> by (unfold VNPU_PRIORITY_NORMAL, VNPU_PRIORITY_HIGH; lia).
  assert ((SWAP_PRIORITY_HIGH <=? al_swap_priority a) && (al_swap_priority a <=? SWAP_PRIORITY_LOW) = true) as -> by (unfold SWAP_PRIORITY_HIGH, SWAP_PRIORITY_LOW; lia).
  by destruct (al_swapped a).
Qed.

(** The calls of the C library and of cJSON that a save and a load make succeed,
    apart from those that the save reports. *)
Record env_sound (env : file_env) : Prop := {
  es_add i k : fe_add env i k = true;
  es_read : fe_open_r env = true ∧ fe_seek_end env = true ∧ fe_ftell env = true ∧ fe_seek_set env = true ∧ fe_calloc env = true ∧ fe_fread env = true ∧
    fe_fclose_r env = true;
}.

Lemma save_items_all env l : (forall i k, fe_add env i k = true) -> forall i items, save_items env i l = Some items -> items = (fun a => JObject (alloc_fields a)) <$> l.
Proof.
  intros Ha. induction l as [|a l IH]; intros i items; cbn [save_items]; [by intros [= <-]|]. destruct (negb _); [done|].
  destruct (save_items env (S i) l) as [items1|] eqn:E; [|done]. cbn [mbind option_bind]. intros [= <-]. cbn [fmap list_fmap]. f_equal; [|by eapply IH].
  f_equal. generalize (alloc_fields a). intros fs. induction fs as [|[k v] fs IHf]; [done|]. rewrite filter_cons_True by (cbn; done). by rewrite IHf.
Qed.

Lemma alloc_printable a : storable a -> printable (JObject (alloc_fields a)).
Proof.
  intros [[_ S1] [_ S2] [_ S3] [_ S4] (I1 & I2 & I3 & I4) (Z1 & Z2 & Z3 & Z4) V W (T1 & T2)]. unfold is_i32, I32_HALF, JSON_EXACT in *. constructor.
  cbn. repeat (apply List.Forall_cons; [cbn; first [by constructor|constructor; lia]|]). apply List.Forall_nil.
Qed.

Lemma load_items_restored l : forall js, Forall storable l -> Forall2 reads_as ((fun a => JObject (alloc_fields a)) <$> l) js ->
  exists l1, load_items js = Some (Some l1) ∧ Forall2 read_back l l1.
Proof.
  induction l as [|a l IH]; intros js Hs HF; cbn in HF.
  { apply Forall2_nil_inv_l in HF as ->. by exists []. }
  apply Forall2_cons_inv_l in HF as (j & js1 & Hj & HF & ->). apply Forall_cons in Hs as [Ha Hs]. inversion Hj as [| | | |l0 l1 Hr]; subst.
  destruct (load_item_restored a l1 Ha Hr) as (a1 & E & Hra). destruct (IH js1 Hs HF) as (l2 & E2 & H2). exists (a1 :: l2). cbn [load_items]. rewrite E. cbn [mbind option_bind].
  rewrite E2. cbn. split; [done|by constructor].
Qed.

Lemma restored_same a a1 : read_back a a1 -> al_create_time_ns a <= JSON_EXACT -> al_update_time_ns a <= JSON_EXACT -> a1 = a.
Proof. intros (t & u & -> & [_ Ht] & [_ Hu]) H1 H2. rewrite Ht, Hu by done. by destruct a. Qed.

Lemma file_roundtrip d l d1 :
  Forall storable l -> (length l <= Z.to_nat MAX_ALLOC_COUNT)%nat -> env_sound (fa_env d) -> file_adapter_save d l = (ENPU_SUCCESS, d1) ->
  fa_env d1 = fa_env d ∧ exists l1, file_adapter_load d1 = Some (ENPU_SUCCESS, l1) ∧ Forall2 read_back l l1.
Proof.
  intros Hs Hl [Ha (R1 & R2 & R3 & R4 & R5 & R6 & R7)]. unfold file_adapter_save. destruct (str_empty (fa_path d)) eqn:Ep; [done|]. destruct (negb (fe_array _)); [done|].
  destruct (save_items (fa_env d) 0 l) as [items|] eqn:Ei; [|done]. apply save_items_all in Ei as ->; [|done].
  destruct (cJSON_Print _) as [text|] eqn:Et; [|done]. destruct (negb (_ =? _)); [done|]. destruct (negb (fe_open_w _)); [done|].
  destruct (fe_fprintf _); cbn [negb andb]; [|done]. destruct (fe_fclose_w _); cbn [negb]; [|done]. intros [= <-]. split; [done|].
  apply cJSON_Parse_Print in Et as (v1 & Ev & Hr); [|constructor; apply Forall_fmap; eapply Forall_impl; [exact Hs|]; intros a; apply alloc_printable].
  inversion Hr as [| | |l0 js Hj|]; subst. destruct (load_items_restored l js Hs Hj) as (l1 & E1 & H1). exists l1. split; [|done].
  unfold file_adapter_load. cbn [fa_path fa_env fa_file set_file]. rewrite Ep, R1, R2, R3, R4, R5, R6, R7. cbn [negb andb]. rewrite andb_false_r, Ev.
  rewrite take_ge; [by rewrite E1|]. rewrite <- (Forall2_length _ _ _ Hj), length_fmap. done.
Qed.

End facts.

(** * Interfaces *)

(** An adapter whose reads succeed keeps the laws of [StorageLaws], for
    allocations whose times are short as well. *)
Record sound_adapter := SoundAdapter { sa_file : file_adapter; sa_env : env_sound (fa_env sa_file) }.

Section interfaces.
Context `{SC : Securec} `{CJ : CJson}.

Lemma save_env d l : fa_env (file_adapter_save d l).2 = fa_env d.
Proof. unfold file_adapter_save. repeat (case_match; try done). Qed.

Lemma save_sound (d : sound_adapter) l : env_sound (fa_env (file_adapter_save (sa_file d) l).2).
Proof. rewrite save_env. apply sa_env. Qed.

#[export] Instance sound_storage : Storage sound_adapter := {|
  storage_save d l := ((file_adapter_save (sa_file d) l).1, SoundAdapter _ (save_sound d l));
  storage_load d := default (ENPU_FAIL, []) (file_adapter_load (sa_file d)) |}.

Definition short_times (a : allocation) : Prop := al_create_time_ns a <= JSON_EXACT ∧ al_update_time_ns a <= JSON_EXACT.

Lemma restored_all l l1 : Forall short_times l -> Forall2 read_back l l1 -> l1 = l.
Proof.
  intros Ht HF. induction HF as [|a a1 l l1 Ha _ IH]; [done|]. apply Forall_cons in Ht as [[H1 H2] Ht]. by rewrite (restored_same a a1 Ha H1 H2), IH.
Qed.

#[export] Instance sound_storage_laws :
  StorageLaws sound_adapter (fun l => Forall storable l ∧ Forall short_times l ∧ (length l <= Z.to_nat MAX_ALLOC_COUNT)%nat).
Proof.
  constructor. intros d l d1 (Hs & Ht & Hl). cbn. intros [= Hrc <-]. cbn [sa_file].
  destruct (file_roundtrip (sa_file d) l (file_adapter_save (sa_file d) l).2 Hs Hl (sa_env d)) as (_ & l1 & El & HF); [by rewrite <- Hrc, <- surjective_pairing|].
  rewrite El. cbn. by rewrite (restored_all l l1 Ht HF).
Qed.

(** A save succeeds when every call does. *)
Definition writable (d : file_adapter) : Prop :=
  str_empty (fa_path d) = false ∧ fe_array (fa_env d) = true ∧ (forall i, fe_object (fa_env d) i = true) ∧
  ensure_parent_dir (fe_mkdir (fa_env d)) (fa_path d) = ENPU_SUCCESS ∧ fe_open_w (fa_env d) = true ∧ fe_fprintf (fa_env d) = true ∧ fe_fclose_w (fa_env d) = true ∧
  forall v, is_Some (cJSON_Print v).

Lemma save_items_some env l : (forall i, fe_object env i = true) -> forall i, is_Some (save_items env i l).
Proof. intros Ho. induction l as [|a l IH]; intros i; cbn [save_items]; [by eexists|]. rewrite Ho. cbn [negb]. destruct (IH (S i)) as [items ->]. by eexists. Qed.

Lemma file_save_writable d l : writable d -> (file_adapter_save d l).1 = ENPU_SUCCESS ∧ writable (file_adapter_save d l).2.
Proof.
  intros (W1 & W2 & W3 & W4 & W5 & W6 & W7 & W8). unfold file_adapter_save. rewrite W1, W2. cbn [negb]. destruct (save_items_some (fa_env d) l W3 0) as [items ->].
  destruct (W8 (JArray items)) as [text ->]. rewrite W4, W5, W6, W7. cbn. by split.
Qed.

#[export] Instance file_storage_reliable : ReliableStorage file_adapter := {| reliable := writable; reliable_save := file_save_writable |}.

End interfaces.

(** * The checkpoint of the registry *)

(** C28. A checkpoint file restores the registry.  When a save through the file
    adapter has reported success, a new process that recovers from the file
    finds every allocation, in order and equal in all fields but the two times:
    they pass through a double and 15 or 17 digits and come back within 16384
    nanoseconds, and unchanged when they have at most 15 digits. *)
Theorem checkpoint_restores `{SC : Securec} `{CJ : CJson} (r r1 : allocation_registry file_adapter) d d1 :
  registry_wf r -> Forall storable (entries r) -> adapter r = Some d -> env_sound (fa_env d) ->
  allocation_registry_save r = (ENPU_SUCCESS, r1) -> adapter r1 = Some d1 ->
  exists r2, allocation_registry_recover true (allocation_registry_create_with_adapter (Some d1)) = (ENPU_SUCCESS, r2) ∧
    Forall2 read_back (entries r) (entries r2) ∧ registry_wf r2 ∧ (Forall short_times (entries r) -> entries r2 = entries r).
Proof.
  intros Hwf Hs Hd He. unfold allocation_registry_save, persist_to_adapter. rewrite Hd. cbn [storage_save file_storage].
  destruct (file_adapter_save d (entries r)) as [rc d2] eqn:E. intros [= -> <-] [= <-]. destruct Hwf as [H1 H2 H3].
  destruct (file_roundtrip d (entries r) d2 Hs ltac:(unfold MAX_ALLOC_COUNT in *; lia) He E) as (_ & l1 & El & HF).
  unfold allocation_registry_recover. cbn [adapter allocation_registry_create_with_adapter storage_load file_storage]. rewrite El. cbn. rewrite andb_false_r.
  eexists. split; [done|]. split; [done|]. cbn [entries]. split; [|intros Ht; by apply restored_all].
  assert (Hk : al_key <$> l1 = al_key <$> entries r).
  { clear - HF. induction HF as [|a a1 l l1 (t & u & -> & _) _ IH]; [done|]. cbn. by rewrite IH. }
  pose proof (Forall2_length _ _ _ HF) as Hlen. unfold ALLOC_REGISTRY_INIT_CAPACITY, MAX_ALLOC_COUNT in *.
  constructor; cbn [entries capacity]; [by rewrite Hk| |]; unfold MAX_ALLOC_COUNT; destruct (Z.ltb_spec 64 (Z.of_nat (length l1))); lia.
Qed.


(** * A library for the examples *)

#[export] Instance double_eq_dec : EqDecision double.
Proof. solve_decision. Defined.

#[export] Instance json_eq_dec : EqDecision json.
Proof.
  unfold EqDecision, Decision. fix IH 1. intros a b.
  assert (Hl : forall l l1 : list json, {l = l1} + {l <> l1}) by (fix go 1; intros [|x l] [|y l1]; [by left|by right|by right|]; destruct (IH x y) as [->|]; [destruct (go l l1) as [->|]; [by left|right; congruence]|right; congruence]).
  assert (Hf : forall l l1 : list (string * json), {l = l1} + {l <> l1}).
  { fix go 1. intros [|[k x] l] [|[k1 y] l1]; [by left|by right|by right|]. destruct (decide (k = k1)) as [->|]; [|right; congruence].
    destruct (IH x y) as [->|]; [|right; congruence]. destruct (go l l1) as [->|]; [by left|right; congruence]. }
  destruct a as [|b1|x|s|l|l], b as [|b2|y|s1|l1|l1]; try (right; discriminate); [by left|..].
  - destruct (decide (b1 = b2)) as [->|]; [by left|right; congruence].
  - destruct (decide (x = y)) as [->|]; [by left|right; congruence].
  - destruct (decide (s = s1)) as [->|]; [by left|right; congruence].
  - destruct (Hl l l1) as [->|]; [by left|right; congruence].
  - destruct (Hf l l1) as [->|]; [by left|right; congruence].
Defined.

(** Two documents that can be printed; for all others the memory is missing. *)
Definition demo_old : allocation := demo_allocation "p" 0 3.
Definition demo_new : allocation := demo_allocation "q" 0 5.
Definition json_of (l : list allocation) : json := JArray ((fun a => JObject (alloc_fields a)) <$> l).
Definition demo_table : list (json * string) := [(json_of [demo_old], "old"); (json_of [demo_old; demo_new], "new")].

Lemma number_refl n : 0 <= n < 2 ^ 53 -> reads_as (JNumber (d_of_Z n)) (JNumber (d_of_Z n)).
Proof. intros Hn. constructor; [done|]. intros m Hm. exists m. rewrite d_to_u64_exact in Hm by lia. injection Hm as <-. split; [by apply d_to_u64_exact|lia]. Qed.

Lemma demo_reads v text : (v, text) ∈ demo_table -> reads_as v v.
Proof.
  assert (Hd : forall s a, a = demo_allocation s 0 3 ∨ a = demo_allocation s 0 5 -> c_string s = true -> reads_as (JObject (alloc_fields a)) (JObject (alloc_fields a))).
  { intros s a [->| ->] Hs; constructor; cbn; repeat (apply List.Forall2_cons; [split; [done|]; cbn [fst snd al_pod_uid demo_allocation]; first [by constructor|apply number_refl; cbn; lia]|]); apply List.Forall2_nil. }
  unfold demo_table. rewrite !elem_of_cons. intros [E|[E|E]]; [| |by apply elem_of_nil in E]; injection E as -> _; unfold json_of; constructor; cbn [fmap list_fmap].
  - apply List.Forall2_cons; [apply (Hd "p"); [by left|done]|apply List.Forall2_nil].
  - apply List.Forall2_cons; [apply (Hd "p"); [by left|done]|]. apply List.Forall2_cons; [apply (Hd "q"); [by right|done]|apply List.Forall2_nil].
Qed.

Definition ref_print (v : json) : option string := (fun x => x.2.2) <$> list_find (fun e : json * string => e.1 = v) demo_table.
Definition ref_parse (s : string) : option json := (fun x => x.2.1) <$> list_find (fun e : json * string => e.2 +:+ NL = s) demo_table.
Definition ref_get (j : json) (k : string) : option json :=
  match j with JObject l => (fun x => x.2.2) <$> list_find (fun kv : string * json => kv.1 = k) l | _ => None end.
Definition ref_int (j : json) : Z := default 0 (d_trunc (valuedouble j)).

Lemma ref_parse_print v text : printable v -> ref_print v = Some text -> exists v1, ref_parse (text +:+ NL) = Some v1 ∧ reads_as v v1.
Proof.
  intros _ Hp. exists v. apply fmap_Some in Hp as ([i [v1 t1]] & Hf & ->). apply list_find_Some in Hf as (Hi & Hv & _). cbn in Hv. subst v1.
  split; [|by eapply demo_reads, list_elem_of_lookup_2]. destruct i as [|[|i]]; cbn in Hi; [| |done]; injection Hi as <- <-; vm_compute; reflexivity.
Qed.

Lemma ref_int_small n : is_i32 n -> ref_int (JNumber (d_of_Z n)) = n.
Proof. intros Hn. unfold ref_int. cbn [valuedouble]. rewrite d_of_Z_exact; [done|]. unfold is_i32, I32_HALF in Hn. lia. Qed.

Definition cjson_ref : CJson := {|
  cJSON_Print := ref_print; cJSON_Parse := ref_parse; cJSON_GetObjectItem := ref_get; valueint := ref_int;
  cJSON_Parse_empty := eq_refl; cJSON_Parse_Print := ref_parse_print; cJSON_GetObjectItem_first l k _ _ := eq_refl; valueint_small := ref_int_small;
|}.

Definition demo_file_env (disk_full : bool) : file_env :=
  FileEnv true (fun _ => true) (fun _ _ => true) (fun _ => true) true (negb disk_full) true 0 true true true true true true true.

Definition demo_file (disk_full : bool) (file : option string) : file_adapter := FileAdapter "/var/lib/enpu-manager/checkpoint.json" file (demo_file_env disk_full).

Lemma demo_env_sound b : env_sound (demo_file_env b).
Proof. by split. Qed.

Lemma demo_storable s v : s = "p" ∨ s = "q" -> 0 <= v <= 5 -> storable (demo_allocation s 0 v).
Proof. intros [-> | ->] Hv; (split; cbn -[Z.pow Z.le Z.lt]; split_and?; first [done|unfold is_i32, I32_HALF, JSON_EXACT; lia|vm_compute; lia]). Qed.

Lemma checkpoint_restores_witness :
  exists d1 r2, file_adapter_save (SC := securec_ref) (CJ := cjson_ref) (demo_file false None) [demo_old] = (ENPU_SUCCESS, d1) ∧
    allocation_registry_recover (Storage0 := file_storage (SC := securec_ref) (CJ := cjson_ref)) true (allocation_registry_create_with_adapter (Some d1)) = (ENPU_SUCCESS, r2) ∧
    entries r2 = [demo_old].
Proof.
  set (d1 := demo_file false (Some ("old" +:+ NL))).
  destruct (checkpoint_restores (SC := securec_ref) (CJ := cjson_ref) (mk_registry [demo_old] 64 (Some (demo_file false None)))
    (mk_registry [demo_old] 64 (Some d1)) (demo_file false None) d1) as (r2 & E & _ & _ & Ht).
  - constructor; cbn; [apply NoDup_singleton|lia|unfold MAX_ALLOC_COUNT; lia].
  - constructor; [|constructor]. apply demo_storable; [by left|lia].
  - reflexivity.
  - apply demo_env_sound.
  - vm_compute. reflexivity.
  - reflexivity.
  - exists d1, r2. split; [vm_compute; reflexivity|]. split; [exact E|]. apply Ht. constructor; [|constructor]. split; discriminate.
Defined.

