(* ===== verification/ConfigManager.v ===== *)
(** The writer of the per-container configuration files
    (enpu-manager/core/src/config_manager.c).

    The file system is the map [files] from paths to contents; the answers of
    the operating system that the code tests are the record [os].  Existing
    directories are not recorded: [mkdir] answers whether the directory is
    there afterwards, and the results of [rmdir] are ignored by the code. *)

From Stdlib Require Import Ascii.
From stdpp Require Import pretty.
From S2P Require Import Prelude CLib.

Definition MAX_CONFIG_CONTENT_LEN : nat := 1024.
Definition MAX_DIR_PATH_LEN : nat := 512.
Definition CONFIG_BASE_PATH : string := "/etc/enpu/vcann-rt/".
Definition CONFIG_FILE_NAME : string := "npu_info.config".

(** What the operating system answers: [mkdir] returns 0 or EEXIST, [open]
    returns a descriptor, the number of bytes that [write] writes of a text
    ([-1] for an error), [unlink] returns 0 or ENOENT. *)
Record os := mk_os {
  mkdir_ok : string -> bool;
  open_ok : string -> bool;
  write_len : string -> string -> Z;
  unlink_ok : string -> bool;
}.
Definition os_fine : os := mk_os (fun _ => true) (fun _ => true) (fun _ s => Z.of_nat (String.length s)) (fun _ => true).

Abbreviation files := (gmap string string).

Record vnpu_config := mk_vnpu_config {
  cfg_phy_npu_id : Z;
  cfg_vnpu_id : Z;
  cfg_aicore_quota : Z;
  cfg_memory_request : Z;
  cfg_memory_limit : Z;
  cfg_scheduling_policy : Z;
  cfg_vnpu_priority : Z;
  cfg_shm_id : string;
}.

Definition newline : string := String (Ascii.ascii_of_nat 10) EmptyString.

Section config.
  Context `{SC : Securec}.

(** [snprintf_s(buf, n, n - 1, ...)]: the text, when it fits. *)
Definition format (n : nat) (text : string) : option string :=
  let '(rc, s) := snprintf_s n (n - 1) text in if rc <? 0 then None else Some s.

(** [tmp] without the trailing slash. *)
Fixpoint strip_slash (s : string) : string :=
  match s with
  | EmptyString => EmptyString
  | String c EmptyString => if Ascii.eqb c "/"%char then EmptyString else s
  | String c r => String c (strip_slash r)
  end.

(** The directories that [create_dir_recursive] makes for the rest [s] of the
    path after [pre]: the prefixes that end before a slash. *)
Fixpoint slash_prefixes (pre s : string) : list string :=
  match s with
  | EmptyString => []
  | String c r =>
      (if Ascii.eqb c "/"%char then [pre] else []) ++ slash_prefixes (pre +:+ String c EmptyString) r
  end.

(** The loop starts after the first character. *)
Definition dirs_of (path : string) : list string :=
  match strip_slash path with
  | EmptyString => []
  | String c r => slash_prefixes (String c EmptyString) r ++ [String c r]
  end.

Definition create_dir_recursive (o : os) (path : string) : Z :=
  if bool_decide (MAX_DIR_PATH_LEN <= String.length path)%nat then ENPU_INVALID_PARAM
  else
    match format MAX_DIR_PATH_LEN path with
    | None => ENPU_FAIL
    | Some tmp => if forallb (mkdir_ok o) (dirs_of tmp) then ENPU_SUCCESS else ENPU_FAIL
    end.

Definition config_text (c : vnpu_config) : string :=
  "physical-npu-id=" +:+ pretty (cfg_phy_npu_id c) +:+ newline +:+
  "virtual-npu-id=" +:+ pretty (cfg_vnpu_id c) +:+ newline +:+
  "aicore-quota=" +:+ pretty (cfg_aicore_quota c) +:+ newline +:+
  "memory-request=" +:+ pretty (cfg_memory_request c) +:+ newline +:+
  "memory-limit=" +:+ pretty (cfg_memory_limit c) +:+ newline +:+
  "shm-id=" +:+ cfg_shm_id c +:+ newline +:+
  "scheduling-policy=" +:+ pretty (cfg_scheduling_policy c) +:+ newline +:+
  "vnpu_priority=" +:+ pretty (cfg_vnpu_priority c) +:+ newline.

Definition generate_config_content (c : vnpu_config) (max_len : nat) : option string := format max_len (config_text c).

(** A short write removes the file. *)
Definition write_file_content (o : os) (fs : files) (path content : string) : Z * files :=
  if negb (open_ok o path) then (ENPU_FAIL, fs)
  else
    let bytes_written := write_len o path content in
    let fs1 := <[path := prefix_of_len (Z.to_nat bytes_written) content]> fs in
    if negb (bytes_written =? Z.of_nat (String.length content))
    then (ENPU_FAIL, if unlink_ok o path then delete path fs1 else fs1)
    else (ENPU_SUCCESS, fs1).

(** The base path of [config_manager_create]; [None] when it cannot be made. *)
Definition config_manager_create (o : os) (base_path : option string) : option string :=
  let src := match base_path with Some s => if str_empty s then CONFIG_BASE_PATH else s | None => CONFIG_BASE_PATH end in
  p ← format (Z.to_nat MAX_PATH_LEN) src;
  let len := String.length p in
  let p1 :=
    if bool_decide (0 < len)%nat && negb (bool_decide (String.get (len - 1) p = Some "/"%char))
       && bool_decide (len + 1 < Z.to_nat MAX_PATH_LEN)%nat
    then p +:+ "/" else p in
  if create_dir_recursive o p1 =? ENPU_SUCCESS then Some p1 else None.

Definition config_dir (base pod_uid container_name : string) : option string :=
  format MAX_DIR_PATH_LEN (base +:+ pod_uid +:+ "/" +:+ container_name).
Definition config_file (dir : string) : option string := format MAX_DIR_PATH_LEN (dir +:+ "/" +:+ CONFIG_FILE_NAME).

Definition config_manager_write_config (o : os) (base : string) (fs : files) (pod_uid container_name : string) (c : vnpu_config) :
    Z * files :=
  match config_dir base pod_uid container_name with
  | None => (ENPU_FAIL, fs)
  | Some dir =>
      let ret := create_dir_recursive o dir in
      if negb (ret =? ENPU_SUCCESS) then (ret, fs)
      else
        match generate_config_content c MAX_CONFIG_CONTENT_LEN with
        | None => (ENPU_FAIL, fs)
        | Some content =>
            match config_file dir with
            | None => (ENPU_FAIL, fs)
            | Some path => write_file_content o fs path content
            end
        end
  end.

(** [ret] is overwritten by the length that the last [snprintf_s] returns. *)
Definition config_manager_delete_config (o : os) (base : string) (fs : files) (pod_uid container_name : string) : Z * files :=
  match config_dir base pod_uid container_name with
  | None => (ENPU_FAIL, fs)
  | Some dir =>
      match config_file dir with
      | None => (ENPU_FAIL, fs)
      | Some path =>
          let fs1 := if unlink_ok o path then delete path fs else fs in
          let '(ret, _) := snprintf_s MAX_DIR_PATH_LEN (MAX_DIR_PATH_LEN - 1) (base +:+ pod_uid) in
          if ret <? 0 then (ENPU_FAIL, fs1) else (ret, fs1)
      end
  end.

Definition config_manager_get_config_path (base pod_uid container_name : string) (buf_len : Z) : option string :=
  if buf_len <=? 0 then None
  else format (Z.to_nat buf_len) (base +:+ pod_uid +:+ "/" +:+ container_name +:+ "/" +:+ CONFIG_FILE_NAME).

End config.

(** The path of the configuration of a container, when it fits the buffers. *)
Definition config_path (base pod_uid container_name : string) : string :=
  base +:+ pod_uid +:+ "/" +:+ container_name +:+ "/" +:+ CONFIG_FILE_NAME.

Definition paths_fit (base pod_uid container_name : string) : Prop :=
  (String.length (config_path base pod_uid container_name) < 512)%nat.

(** * Facts *)

Section facts.
  Context `{SC : Securec}.

Lemma format_eq n s : (0 < n)%nat -> format n s = if bool_decide (String.length s < n)%nat then Some s else None.
Proof.
  intros Hn. unfold format. case_bool_decide as H.
  - rewrite snprintf_s_fits by lia. by rewrite (proj2 (Z.ltb_ge _ _)) by lia.
  - pose proof (snprintf_s_truncated n (n - 1) s ltac:(lia) ltac:(lia)) as E.
    destruct (snprintf_s n (n - 1) s) as [rc t]. simpl in E. by subst rc.
Qed.

Lemma string_app_assoc (a b c : string) : (a +:+ b) +:+ c = a +:+ b +:+ c.
Proof. induction a as [|x a IH]; [done|]. change (String x ((a +:+ b) +:+ c) = String x (a +:+ b +:+ c)). by rewrite IH. Qed.

Lemma string_length_app (a b : string) : String.length (a +:+ b) = (String.length a + String.length b)%nat.
Proof. induction a as [|x a IH]; [done|]. change (S (String.length (a +:+ b)) = S (String.length a + String.length b)). by rewrite IH. Qed.

Lemma config_paths base p c :
  paths_fit base p c ->
  config_dir base p c = Some (base +:+ p +:+ "/" +:+ c) ∧
  config_file (base +:+ p +:+ "/" +:+ c) = Some (config_path base p c)
  ∧ (String.length (base +:+ p) < 512)%nat ∧ (String.length (base +:+ p +:+ "/" +:+ c) < 512)%nat.
Proof.
  unfold paths_fit, config_path, config_dir, config_file, MAX_DIR_PATH_LEN. rewrite !format_eq by lia. intros H.
  assert (E : (base +:+ p +:+ "/" +:+ c) +:+ "/" +:+ CONFIG_FILE_NAME = base +:+ p +:+ "/" +:+ c +:+ "/" +:+ CONFIG_FILE_NAME)
    by (rewrite !string_app_assoc; done).
  rewrite E. rewrite !string_length_app in *. rewrite !bool_decide_eq_true_2 by (rewrite ?string_length_app; lia).
  split_and!; try done; lia.
Qed.

Lemma write_config_ok o base fs p c cfg :
  paths_fit base p c -> forallb (mkdir_ok o) (dirs_of (base +:+ p +:+ "/" +:+ c)) = true ->
  (String.length (config_text cfg) < 1024)%nat -> open_ok o (config_path base p c) = true -> write_len o (config_path base p c) (config_text cfg) = Z.of_nat (String.length (config_text cfg)) ->
  config_manager_write_config o base fs p c cfg = (ENPU_SUCCESS, <[config_path base p c := config_text cfg]> fs).
Proof.
  intros Hfit Hdirs Htext Hopen Hwrite. destruct (config_paths base p c Hfit) as (E1 & E2 & _ & H4).
  unfold config_manager_write_config. rewrite E1. unfold create_dir_recursive.
  rewrite bool_decide_eq_false_2 by (unfold MAX_DIR_PATH_LEN; lia).
  rewrite format_eq, bool_decide_eq_true_2, Hdirs by (unfold MAX_DIR_PATH_LEN; lia). simpl.
  unfold generate_config_content, MAX_CONFIG_CONTENT_LEN. rewrite format_eq, bool_decide_eq_true_2, E2 by lia.
  unfold write_file_content. rewrite Hopen, Hwrite, Z.eqb_refl. simpl.
  by rewrite Nat2Z.id, prefix_of_len_all.
Qed.

(** A failed write leaves every other file alone. *)
Lemma write_config_frame o base fs p c cfg rc fs' :
  paths_fit base p c -> config_manager_write_config o base fs p c cfg = (rc, fs') ->
  forall path, path <> config_path base p c -> fs' !! path = fs !! path.
Proof.
  intros Hfit H path Hne. destruct (config_paths base p c Hfit) as (E1 & E2 & _ & _).
  unfold config_manager_write_config in H. rewrite E1 in H. destruct (negb _); [by simplify_eq|].
  destruct (generate_config_content _ _); [|by simplify_eq]. rewrite E2 in H. unfold write_file_content in H.
  repeat case_match; simplify_eq; try done; by rewrite ?lookup_delete_ne, ?lookup_insert_ne by congruence.
Qed.

Lemma write_file_cases o fs path content rc fs' :
  write_file_content o fs path content = (rc, fs') ->
  (rc = ENPU_SUCCESS ∧ fs' = <[path := content]> fs)
  \/ (rc <> ENPU_SUCCESS ∧ forall q, q <> path -> fs' !! q = fs !! q).
Proof.
  unfold write_file_content. destruct (negb (open_ok o path)); [intros [= <- <-]; by right|].
  destruct (Z.eqb_spec (write_len o path content) (Z.of_nat (String.length content))) as [E|E]; cbn [negb]; intros [= <- <-].
  - left. split; [done|]. by rewrite E, Nat2Z.id, prefix_of_len_all.
  - right. split; [done|]. intros q Hq. destruct (unlink_ok o path); by rewrite ?lookup_delete_ne, ?lookup_insert_ne by congruence.
Qed.

(** A write succeeds with the text in the file, or fails and touches no other
    file. *)
Lemma write_config_cases o base fs p c cfg rc fs' :
  config_manager_write_config o base fs p c cfg = (rc, fs') ->
  (rc = ENPU_SUCCESS ∧ paths_fit base p c ∧ fs' = <[config_path base p c := config_text cfg]> fs)
  \/ (rc <> ENPU_SUCCESS ∧ forall path, path <> config_path base p c -> fs' !! path = fs !! path).
Proof.
  unfold config_manager_write_config, config_dir, MAX_DIR_PATH_LEN. rewrite format_eq by lia. case_bool_decide as Hd; [|intros [= <- <-]; by right].
  destruct (Z.eqb_spec (create_dir_recursive o (base +:+ p +:+ "/" +:+ c)) ENPU_SUCCESS); cbn [negb]; [|intros [= <- <-]; by right].
  unfold generate_config_content, MAX_CONFIG_CONTENT_LEN. rewrite format_eq by lia. case_bool_decide as Ht; [|intros [= <- <-]; by right].
  unfold config_file, MAX_DIR_PATH_LEN. rewrite format_eq by lia.
  assert (E : (base +:+ p +:+ "/" +:+ c) +:+ "/" +:+ CONFIG_FILE_NAME = config_path base p c) by (unfold config_path; rewrite !string_app_assoc; done).
  rewrite E. case_bool_decide as Hf; [|intros [= <- <-]; by right].
  intros [[-> ->]|[H1 H2]]%write_file_cases; [left; by split_and!|right; by split].
Qed.

(** A deletion touches no other file. *)
Lemma delete_config_frame o base fs p c q :
  q <> config_path base p c -> (config_manager_delete_config o base fs p c).2 !! q = fs !! q.
Proof.
  intros Hq. unfold config_manager_delete_config, config_dir, config_file, MAX_DIR_PATH_LEN. rewrite format_eq by lia.
  case_bool_decide; [|done]. rewrite format_eq by lia. case_bool_decide; [|done].
  assert (E : (base +:+ p +:+ "/" +:+ c) +:+ "/" +:+ CONFIG_FILE_NAME = config_path base p c) by (unfold config_path; rewrite !string_app_assoc; done).
  rewrite E. destruct (snprintf_s _ _ _) as [ret out]. destruct (ret <? 0), (unlink_ok _ _); simpl; by rewrite ?lookup_delete_ne by congruence.
Qed.

Lemma delete_config_eq o base fs p c :
  paths_fit base p c ->
  config_manager_delete_config o base fs p c =
    (Z.of_nat (String.length (base +:+ p)), if unlink_ok o (config_path base p c) then delete (config_path base p c) fs else fs).
Proof.
  intros Hfit. destruct (config_paths base p c Hfit) as (E1 & E2 & H3 & _).
  unfold config_manager_delete_config. rewrite E1, E2, snprintf_s_fits by (unfold MAX_DIR_PATH_LEN; lia).
  by rewrite (proj2 (Z.ltb_ge _ _)) by lia.
Qed.

End facts.

(** * Properties *)

(** Deleting a configuration never reports success: for names that fit the
    path buffers the returned code is the (positive) length of the directory
    path, also when the file could not be removed. *)
Theorem delete_config_never_success `{SC : Securec} o base fs p c :
  paths_fit base p c -> base <> EmptyString ->
  0 < (config_manager_delete_config o base fs p c).1.
Proof.
  intros Hfit Hb. rewrite delete_config_eq by done. simpl. rewrite string_length_app.
  destruct base; [done|]. simpl. lia.
Qed.

Lemma delete_config_never_success_witness :
  0 < (config_manager_delete_config (SC := securec_ref) os_fine CONFIG_BASE_PATH ∅ "pod" "c").1.
Proof.
  apply (delete_config_never_success (SC := securec_ref) os_fine CONFIG_BASE_PATH ∅ "pod" "c");
    [vm_compute; lia|discriminate].
Defined.
