(* ===== verification/ShmManager.v ===== *)
(** The shared-memory manager (enpu-manager/core/src/shm_manager.c, lines
    35-1026 and 1588-1648, and the bitmap functions of shm_manager.h).

    The arrays of the shared structs are lists of their C length; an access
    outside is [None].  The parallel arrays of [vnpu_time_slice_sched] are one
    list of slots.  The mutexes are not data: every function of this file
    takes [mgr->lock] for its whole body, so that each is one atomic step of
    the manager.  A mapping is the object it maps: the die ids of two dies are
    different, so that no object is mapped twice by the manager.  The
    names of the POSIX objects that exist are the explicit set [names]. *)

From stdpp Require Import pretty.
From S2P Require Import Prelude CLib SwapTlsf.

Definition MAGIC_INITIALIZED : Z := 0x495A4547.
Definition MAX_VNPU_SCHED : Z := 100.
Definition SWAP_ACTION_NONE : Z := 0.
Definition SWAP_ACTION_OUT : Z := 1.
Definition SWAP_ACTION_IN : Z := 2.
Definition SWAP_OUT_NONE : Z := 0.
Definition SWAP_OUT_FROM_BORROWED : Z := 1.
Definition SWAP_OUT_FROM_ALL : Z := 2.
Definition SHM_STATE_VERSION : Z := 4.
Definition MAX_PROCESSES_PER_VNPU : Z := 64.

(** * The shared structs *)

Record process_entry := mk_process {
  p_vcann_rt_id : Z;
  p_pid : Z;
  p_swapped : bool;
  p_active : bool;
  p_last_heartbeat_ns : Z;
  p_hbm_used : Z;
  p_swap_offset : Z;
  p_swap_size : Z;
  p_ack_pending_seq : Z;
}.

Record swap_cmd := mk_swap_cmd {
  cmd_target_pod_uid : string;
  cmd_target_vnpu_id : Z;
  cmd_action : Z;
  cmd_completed : bool;
  cmd_refcount : Z;
  cmd_seq : Z;
  cmd_timestamp_ns : Z;
}.

Record swap_out_cmd := mk_swap_out_cmd {
  out_target_vnpu_id : Z;
  out_action : Z;
  out_completed : bool;
}.

Record sched_slot := mk_sched_slot {
  last_alive_time_ns : Z;
  last_kernel_time_ns : Z;
  vnpu_schedule_turn : Z;
  vnpu_core_limit_quota : Z;
  vnpu_priority : Z;
  vnpu_quota_timeslice : Z;
  vnpu_cur_timeslice : Z;
  vnpu_quota_injected_for_turn : Z;
  vnpu_sync_expected : Z;
  vnpu_sync_completed : Z;
  vnpu_turn_max_sync : Z;
  vnpu_timeslice_for_turn : Z;
}.

Record vnpu_time_slice_sched := mk_sched {
  sched_slots : list sched_slot;
  sched_owner : Z;
  sched_magic_number : Z;
  sched_slide_window_len : Z;
  sched_last_slide_window_time_ns : Z;
}.

Record vnpu_shm_entry := mk_entry {
  e_vnpu_id : Z;
  e_hbm_request : Z;
  e_hbm_limit : Z;
  e_hbm_used : Z;
  e_sched_policy : Z;
  e_swap_enabled : bool;
  e_swap_priority : Z;
  e_processes : list process_entry;
}.

(** The two words of [vnpu_bitmap]. *)
Abbreviation bitmap := (Z * Z)%type.

Record shm_state := mk_shm_state {
  st_version : Z;
  st_phy_id : Z;
  st_shm_id : string;
  st_hbm_total : Z;
  st_entries : list vnpu_shm_entry;
  st_bitmap : bitmap;
  st_sched_policy : Z;
  st_initialized : bool;
  st_swap_cmd : swap_cmd;
  st_swap_out_cmd : swap_out_cmd;
  st_next_vcann_rt_id : Z;
}.

Record shm_manager := mk_shm_manager {
  shm_states : list (option shm_state);
  sched_structs : list (option vnpu_time_slice_sched);
  shm_state_count : Z;
  shm_initialized : bool;
}.

(** ** Zero-filled structs and single stores *)

Definition process0 : process_entry := mk_process 0 0 false false 0 0 0 0 0.
Definition processes0 : list process_entry := replicate 64 process0.
Definition entry0 : vnpu_shm_entry := mk_entry 0 0 0 0 0 false 0 processes0.
Definition swap_cmd0 : swap_cmd := mk_swap_cmd EmptyString 0 0 false 0 0 0.
Definition swap_out_cmd0 : swap_out_cmd := mk_swap_out_cmd 0 0 false.

Definition set_p_swap (off sz : Z) (p : process_entry) : process_entry :=
  mk_process (p_vcann_rt_id p) (p_pid p) (p_swapped p) (p_active p) (p_last_heartbeat_ns p) (p_hbm_used p) off sz
    (p_ack_pending_seq p).
Definition set_p_ack (q : Z) (p : process_entry) : process_entry :=
  mk_process (p_vcann_rt_id p) (p_pid p) (p_swapped p) (p_active p) (p_last_heartbeat_ns p) (p_hbm_used p)
    (p_swap_offset p) (p_swap_size p) q.
Definition set_p_swapped (b : bool) (p : process_entry) : process_entry :=
  mk_process (p_vcann_rt_id p) (p_pid p) b (p_active p) (p_last_heartbeat_ns p) (p_hbm_used p)
    (p_swap_offset p) (p_swap_size p) (p_ack_pending_seq p).

Definition set_e_processes (ps : list process_entry) (e : vnpu_shm_entry) : vnpu_shm_entry :=
  mk_entry (e_vnpu_id e) (e_hbm_request e) (e_hbm_limit e) (e_hbm_used e) (e_sched_policy e) (e_swap_enabled e)
    (e_swap_priority e) ps.
Definition set_e_vnpu_id (v : Z) (e : vnpu_shm_entry) : vnpu_shm_entry :=
  mk_entry v (e_hbm_request e) (e_hbm_limit e) (e_hbm_used e) (e_sched_policy e) (e_swap_enabled e)
    (e_swap_priority e) (e_processes e).
Definition set_e_swap_enabled (b : bool) (e : vnpu_shm_entry) : vnpu_shm_entry :=
  mk_entry (e_vnpu_id e) (e_hbm_request e) (e_hbm_limit e) (e_hbm_used e) (e_sched_policy e) b
    (e_swap_priority e) (e_processes e).

Definition set_cmd_completed (b : bool) (c : swap_cmd) : swap_cmd :=
  mk_swap_cmd (cmd_target_pod_uid c) (cmd_target_vnpu_id c) (cmd_action c) b (cmd_refcount c) (cmd_seq c) (cmd_timestamp_ns c).
Definition set_cmd_action (x : Z) (c : swap_cmd) : swap_cmd :=
  mk_swap_cmd (cmd_target_pod_uid c) (cmd_target_vnpu_id c) x (cmd_completed c) (cmd_refcount c) (cmd_seq c) (cmd_timestamp_ns c).
Definition set_cmd_refcount (x : Z) (c : swap_cmd) : swap_cmd :=
  mk_swap_cmd (cmd_target_pod_uid c) (cmd_target_vnpu_id c) (cmd_action c) (cmd_completed c) x (cmd_seq c) (cmd_timestamp_ns c).
Definition set_out_completed (b : bool) (c : swap_out_cmd) : swap_out_cmd :=
  mk_swap_out_cmd (out_target_vnpu_id c) (out_action c) b.
Definition set_out_target (v : Z) (c : swap_out_cmd) : swap_out_cmd :=
  mk_swap_out_cmd v (out_action c) (out_completed c).

Definition set_st_entries (es : list vnpu_shm_entry) (s : shm_state) : shm_state :=
  mk_shm_state (st_version s) (st_phy_id s) (st_shm_id s) (st_hbm_total s) es (st_bitmap s) (st_sched_policy s)
    (st_initialized s) (st_swap_cmd s) (st_swap_out_cmd s) (st_next_vcann_rt_id s).
Definition set_st_bitmap (b : bitmap) (s : shm_state) : shm_state :=
  mk_shm_state (st_version s) (st_phy_id s) (st_shm_id s) (st_hbm_total s) (st_entries s) b (st_sched_policy s)
    (st_initialized s) (st_swap_cmd s) (st_swap_out_cmd s) (st_next_vcann_rt_id s).
Definition set_st_sched_policy (p : Z) (s : shm_state) : shm_state :=
  mk_shm_state (st_version s) (st_phy_id s) (st_shm_id s) (st_hbm_total s) (st_entries s) (st_bitmap s) p
    (st_initialized s) (st_swap_cmd s) (st_swap_out_cmd s) (st_next_vcann_rt_id s).
Definition set_st_hbm_total (h : Z) (s : shm_state) : shm_state :=
  mk_shm_state (st_version s) (st_phy_id s) (st_shm_id s) h (st_entries s) (st_bitmap s) (st_sched_policy s)
    (st_initialized s) (st_swap_cmd s) (st_swap_out_cmd s) (st_next_vcann_rt_id s).
Definition set_st_initialized (b : bool) (s : shm_state) : shm_state :=
  mk_shm_state (st_version s) (st_phy_id s) (st_shm_id s) (st_hbm_total s) (st_entries s) (st_bitmap s) (st_sched_policy s)
    b (st_swap_cmd s) (st_swap_out_cmd s) (st_next_vcann_rt_id s).
Definition set_st_cmds (c : swap_cmd) (o : swap_out_cmd) (s : shm_state) : shm_state :=
  mk_shm_state (st_version s) (st_phy_id s) (st_shm_id s) (st_hbm_total s) (st_entries s) (st_bitmap s) (st_sched_policy s)
    (st_initialized s) c o (st_next_vcann_rt_id s).

Definition set_state (phy_id : Z) (s : shm_state) (m : shm_manager) : shm_manager :=
  mk_shm_manager (<[Z.to_nat phy_id := Some s]> (shm_states m)) (sched_structs m) (shm_state_count m) (shm_initialized m).
Definition set_sched (phy_id : Z) (s : vnpu_time_slice_sched) (m : shm_manager) : shm_manager :=
  mk_shm_manager (shm_states m) (<[Z.to_nat phy_id := Some s]> (sched_structs m)) (shm_state_count m) (shm_initialized m).

(** * The bitmap of allocated vNPUs *)

(** [vnpu_bitmap[idx]]; the array has two words. *)
Definition bitmap_word (b : bitmap) (idx : Z) : option Z :=
  if idx =? 0 then Some b.1 else if idx =? 1 then Some b.2 else None.
Definition bitmap_update (f : Z -> Z) (b : bitmap) (idx : Z) : option bitmap :=
  if idx =? 0 then Some (f b.1, b.2) else if idx =? 1 then Some (b.1, f b.2) else None.

(** [(bitmap[v / 64] >> (v % 64)) & 1] *)
Definition bitmap_bit (b : bitmap) (v : Z) : option bool :=
  w ← bitmap_word b (v / 64); Some (negb (Z.land (Z.shiftr w (v mod 64)) 1 =? 0)).

Definition vnpu_id_in_die (v : Z) : bool := (0 <=? v) && (v <? MAX_VNPU_PER_DIE).

Definition vnpu_bitmap_test (b : bitmap) (v : Z) : bool :=
  if negb (vnpu_id_in_die v) then false else default false (bitmap_bit b v).
Definition vnpu_bitmap_set (b : bitmap) (v : Z) : bitmap :=
  if negb (vnpu_id_in_die v) then b
  else default b (bitmap_update (fun w => Z.lor w (Z.shiftl 1 (v mod 64))) b (v / 64)).
Definition vnpu_bitmap_clear (b : bitmap) (v : Z) : bitmap :=
  if negb (vnpu_id_in_die v) then b
  else default b (bitmap_update (fun w => Z.land w (u64 (Z.lnot (Z.shiftl 1 (v mod 64))))) b (v / 64)).

(** * Creation of the shared objects *)

(** What the operating system answers to one creation: each call's success,
    and the scheduling object that already exists under the name, if any. *)
Record shm_os := mk_shm_os {
  so_truncate_ok : bool;
  so_mmap_ok : bool;
  so_sched_open_ok : bool;
  so_sched_existing : option vnpu_time_slice_sched;
  so_sched_mmap_ok : bool;
  so_sched_reopen_ok : bool;
  so_sched_truncate_ok : bool;
  so_sched_remap_ok : bool;
}.
Definition shm_os_fine : shm_os := mk_shm_os true true true None true true true true.

Section create.
  Context `{SC : Securec}.

(** The code and what [buf] holds. *)
Definition shm_id_format_standardize (phy_id : Z) (die_id_str : string) (buf_len : Z) : Z * string :=
  if (phy_id <? 0) || (buf_len <=? 0) then (ENPU_INVALID_PARAM, EmptyString)
  else
    let '(written, s) := snprintf_s (Z.to_nat buf_len) (Z.to_nat (buf_len - 1)) ("/die-" +:+ pretty phy_id +:+ "-" +:+ die_id_str) in
    if (written <? 0) || (buf_len <=? written) then (ENPU_FAIL, s) else (ENPU_SUCCESS, s).

Definition sched_slot0 : sched_slot := mk_sched_slot 0 0 0 0 VNPU_PRIORITY_NORMAL 0 0 0xFF 0 0 0 0.
Definition sched_new : vnpu_time_slice_sched := mk_sched (replicate 100 sched_slot0) (-1) MAGIC_INITIALIZED 0 0.

(** The code and the mapped object. *)
Definition shm_struct_init (o : shm_os) : Z * option vnpu_time_slice_sched :=
  if negb (so_sched_open_ok o) then (ENPU_FAIL, None)
  else
    let fresh := if so_sched_truncate_ok o && so_sched_remap_ok o then (ENPU_SUCCESS, Some sched_new) else (ENPU_FAIL, None) in
    match so_sched_existing o with
    | None => fresh
    | Some s =>
        if negb (so_sched_mmap_ok o) then (ENPU_FAIL, None)
        else if sched_magic_number s =? MAGIC_INITIALIZED then (ENPU_SUCCESS, Some s)
        else if negb (so_sched_reopen_ok o) then (ENPU_FAIL, None)
        else fresh
    end.

Definition shm_state_name (phy_id : Z) (die_id : string) : string := "/shm_state-" +:+ pretty phy_id +:+ "-" +:+ die_id.

(** [shm_open] with O_EXCL fails when the name exists.  The names after the
    call: a failure after the creation unlinks it. *)
Definition shm_state_posix_shm_create (o : shm_os) (names : gset string) (phy_id : Z) (die_id : string) :
    option shm_state * gset string :=
  if phy_id <? 0 then (None, names)
  else
    let '(ret, shm_name) := snprintf_s 128 127 (shm_state_name phy_id die_id) in
    if ret <? 0 then (None, names)
    else if bool_decide (shm_name ∈ names) then (None, names)
    else if negb (so_truncate_ok o && so_mmap_ok o) then (None, names)
    else
      let '(r, shm_id) := copy_str (Z.to_nat DIE_ID_LEN) die_id in
      if negb (r =? 0) then (None, names)
      else (Some (mk_shm_state SHM_STATE_VERSION phy_id shm_id 0 (replicate 128 entry0) (0, 0) (-1) false
                    swap_cmd0 swap_out_cmd0 1),
            {[shm_name]} ∪ names).

Definition shm_state_posix_shm_destroy (names : gset string) (phy_id : Z) (die_id : string) : Z * gset string :=
  if phy_id <? 0 then (ENPU_INVALID_PARAM, names)
  else
    let '(ret, shm_name) := snprintf_s 128 127 (shm_state_name phy_id die_id) in
    if ret <? 0 then (ENPU_FAIL, names) else (ENPU_SUCCESS, names ∖ {[shm_name]}).

Definition shm_manager_create : shm_manager := mk_shm_manager (replicate 16 None) (replicate 16 None) 0 true.

Definition shm_manager_get_sched_struct (m : shm_manager) (phy_id : Z) : option vnpu_time_slice_sched :=
  if (phy_id <? 0) || (MAX_NPU_PER_NODE <=? phy_id) then None else mjoin (sched_structs m !! Z.to_nat phy_id).

Definition shm_manager_get_state (m : shm_manager) (phy_id : Z) : option shm_state :=
  if (phy_id <? 0) || (MAX_NPU_PER_NODE <=? phy_id) then None else mjoin (shm_states m !! Z.to_nat phy_id).

(** The result of [shm_manager_get_or_create_shm]: code, [shm_id_out],
    manager, names. *)
Definition shm_manager_get_or_create_shm (o : shm_os) (m : shm_manager) (names : gset string) (phy_id : Z) (die_id : string)
    (shm_id_out_len : Z) : Z * string * shm_manager * gset string :=
  if (phy_id <? 0) || (MAX_NPU_PER_NODE <=? phy_id) then (ENPU_INVALID_PARAM, EmptyString, m, names)
  else
    let out (s : shm_state) : Z * string :=
      if 0 <? shm_id_out_len
      then snprintf_s (Z.to_nat shm_id_out_len) (Z.to_nat (shm_id_out_len - 1)) (st_shm_id s) else (0, EmptyString) in
    match shm_manager_get_state m phy_id with
    | Some s => let '(ret, id) := out s in if ret <? 0 then (ENPU_FAIL, id, m, names) else (ENPU_SUCCESS, id, m, names)
    | None =>
        let '(os, names1) := shm_state_posix_shm_create o names phy_id die_id in
        match os with
        | None => (ENPU_FAIL, EmptyString, m, names1)
        | Some s =>
            let '(ret, id) := out s in
            if ret <? 0 then (ENPU_FAIL, id, m, (shm_state_posix_shm_destroy names1 (st_phy_id s) (st_shm_id s)).2)
            else
              let m1 := mk_shm_manager (<[Z.to_nat phy_id := Some (set_st_initialized true s)]> (shm_states m))
                          (sched_structs m) (shm_state_count m + 1) (shm_initialized m) in
              let m2 := match (shm_struct_init o).2 with Some sc => set_sched phy_id sc m1 | None => m1 end in
              (ENPU_SUCCESS, id, m2, names1)
        end
    end.

(** One die of [shm_manager_destroy]: a scheduling object is unmapped and
    unlinked only when no vNPU is left, the state object always.
    [None]: [shm_states[i]->shm_id] is read also when the state is NULL. *)
Definition destroy_die (names : gset string) (st : option shm_state) (sched : option vnpu_time_slice_sched) :
    option (gset string) :=
  match sched, st with
  | Some _, None => None
  | _, None => Some names
  | _, Some s => Some ((shm_state_posix_shm_destroy names (st_phy_id s) (st_shm_id s)).2)
  end.

Fixpoint destroy_dies (names : gset string) (sts : list (option shm_state)) (scheds : list (option vnpu_time_slice_sched)) :
    option (gset string) :=
  match sts, scheds with
  | st :: sts', sc :: scheds' => names1 ← destroy_die names st sc; destroy_dies names1 sts' scheds'
  | _, _ => Some names
  end.

Definition shm_manager_destroy (m : shm_manager) (names : gset string) : option (Z * gset string) :=
  names1 ← destroy_dies names (shm_states m) (sched_structs m); Some (ENPU_SUCCESS, names1).

End create.

(** * vNPU entries *)

(** The common frame of the operations: take the lock, look the die up,
    ENPU_NOT_FOUND when it has no state. *)
Definition with_state (m : shm_manager) (phy_id : Z) (f : shm_state -> option (Z * shm_state)) : option (Z * shm_manager) :=
  if phy_id <? 0 then Some (ENPU_INVALID_PARAM, m)
  else
    match shm_manager_get_state m phy_id with
    | None => Some (ENPU_NOT_FOUND, m)
    | Some s => '(rc, s') ← f s; Some (rc, set_state phy_id s' m)
    end.

(** [state->entries[v]] and a store to it. *)
Definition entry_at (s : shm_state) (v : Z) : option vnpu_shm_entry := if v <? 0 then None else st_entries s !! Z.to_nat v.
Definition put_entry (v : Z) (e : vnpu_shm_entry) (s : shm_state) : shm_state :=
  set_st_entries (<[Z.to_nat v := e]> (st_entries s)) s.

Definition shm_manager_register_vnpu (m : shm_manager) (phy_id vnpu_id aicore_quota sched_policy : Z) : option (Z * shm_manager) :=
  if vnpu_id <? 0 then Some (ENPU_INVALID_PARAM, m)
  else if MAX_VNPU_PER_DIE <=? vnpu_id then Some (ENPU_INVALID_PARAM, m)
  else
    with_state m phy_id (fun s =>
      if negb (st_initialized s) then Some (ENPU_FAIL, s)
      else
        b ← bitmap_bit (st_bitmap s) vnpu_id;
        if (b : bool) then Some (ENPU_ALREADY_EXISTS, s)
        else if negb (st_sched_policy s =? -1) && negb (st_sched_policy s =? sched_policy) then Some (ENPU_INVALID_PARAM, s)
        else
          let s1 := if st_sched_policy s =? -1 then set_st_sched_policy sched_policy s else s in
          _ ← entry_at s1 vnpu_id;
          let e := mk_entry vnpu_id 0 0 0 sched_policy false 0 processes0 in
          Some (ENPU_SUCCESS, set_st_bitmap (vnpu_bitmap_set (st_bitmap s1) vnpu_id) (put_entry vnpu_id e s1))).

(** There is no upper check of [vnpu_id]: the word [vnpu_id / 64] of the
    bitmap is read as it is. *)
Definition shm_manager_unregister_vnpu (m : shm_manager) (phy_id vnpu_id : Z) : option (Z * shm_manager) :=
  if vnpu_id <? 0 then Some (ENPU_INVALID_PARAM, m)
  else
    with_state m phy_id (fun s =>
      b ← bitmap_bit (st_bitmap s) vnpu_id;
      if negb b then Some (ENPU_NOT_FOUND, s)
      else
        e ← entry_at s vnpu_id;
        let s1 := set_st_bitmap (vnpu_bitmap_clear (st_bitmap s) vnpu_id) (put_entry vnpu_id (set_e_vnpu_id (-1) e) s) in
        Some (ENPU_SUCCESS,
              if ((st_bitmap s1).1 =? 0) && ((st_bitmap s1).2 =? 0) then set_st_sched_policy (-1) s1 else s1)).

Definition shm_manager_add_entry (m : shm_manager) (phy_id : Z) (e : vnpu_shm_entry) : option (Z * shm_manager) :=
  let vnpu_id := e_vnpu_id e in
  if negb (vnpu_id_in_die vnpu_id) then Some (ENPU_INVALID_PARAM, m)
  else
    with_state m phy_id (fun s =>
      b ← bitmap_bit (st_bitmap s) vnpu_id;
      if (b : bool) then Some (ENPU_ALREADY_EXISTS, s)
      else
        _ ← entry_at s vnpu_id;
        Some (ENPU_SUCCESS, set_st_bitmap (vnpu_bitmap_set (st_bitmap s) vnpu_id) (put_entry vnpu_id e s))).

Definition shm_manager_remove_entry (m : shm_manager) (phy_id vnpu_id : Z) : option (Z * shm_manager) :=
  if vnpu_id <? 0 then Some (ENPU_INVALID_PARAM, m)
  else if MAX_VNPU_PER_DIE <=? vnpu_id then Some (ENPU_INVALID_PARAM, m)
  else
    with_state m phy_id (fun s =>
      b ← bitmap_bit (st_bitmap s) vnpu_id;
      if negb b then Some (ENPU_NOT_FOUND, s)
      else
        e ← entry_at s vnpu_id;
        Some (ENPU_SUCCESS,
              set_st_bitmap (vnpu_bitmap_clear (st_bitmap s) vnpu_id) (put_entry vnpu_id (set_e_vnpu_id (-1) e) s))).

Definition shm_manager_init_state (m : shm_manager) (phy_id hbm_total : Z) : option (Z * shm_manager) :=
  with_state m phy_id (fun s =>
    Some (ENPU_SUCCESS,
          set_st_cmds (set_cmd_completed true (st_swap_cmd s)) (set_out_completed true (st_swap_out_cmd s))
            (set_st_hbm_total hbm_total s))).

Definition find_entry (s : shm_state) (vnpu_id : Z) : option vnpu_shm_entry :=
  if negb (vnpu_id_in_die vnpu_id) then None
  else if vnpu_bitmap_test (st_bitmap s) vnpu_id then entry_at s vnpu_id else None.

(** A query of an entry: the code and the answer, when there is one. *)
Definition query_entry {A} (m : shm_manager) (phy_id vnpu_id : Z) (f : vnpu_shm_entry -> A) : Z * option A :=
  if (phy_id <? 0) || (vnpu_id <? 0) then (ENPU_INVALID_PARAM, None)
  else
    match shm_manager_get_state m phy_id with
    | None => (ENPU_NOT_FOUND, None)
    | Some s =>
        match find_entry s vnpu_id with
        | None => (ENPU_NOT_FOUND, None)
        | Some e => (ENPU_SUCCESS, Some (f e))
        end
    end.

(** The offset and the size are ignored by the code. *)
Definition shm_manager_set_swap_state (m : shm_manager) (phy_id vnpu_id offset size : Z) : Z * option unit :=
  query_entry m phy_id vnpu_id (fun _ => tt).

(** The loop over the processes: (swapped, offset, size). *)
Definition swap_state_step (acc : bool * Z * Z) (p : process_entry) : bool * Z * Z :=
  let '(swapped, offset, size) := acc in
  (if p_active p && negb (p_swapped p) then false else swapped,
   if (offset =? 0) && negb (p_swap_size p =? 0) then p_swap_offset p else offset,
   u64 (size + p_swap_size p)).
Definition shm_manager_get_swap_state (m : shm_manager) (phy_id vnpu_id : Z) : Z * option (bool * Z * Z) :=
  query_entry m phy_id vnpu_id (fun e => foldl swap_state_step (true, 0, 0) (e_processes e)).

(** Some process is active, and all active ones are swapped out. *)
Definition all_swapped (ps : list process_entry) : bool :=
  let active := filter (fun p => Is_true (p_active p)) ps in
  bool_decide (0 < length active)%nat
  && bool_decide (length (filter (fun p => Is_true (p_swapped p)) active) = length active).
Definition shm_manager_get_vnpu_all_swapped (m : shm_manager) (phy_id vnpu_id : Z) : Z * option bool :=
  query_entry m phy_id vnpu_id (fun e => all_swapped (e_processes e)).
Definition shm_manager_get_vnpu_swapped (m : shm_manager) (phy_id vnpu_id : Z) : Z * option bool :=
  shm_manager_get_vnpu_all_swapped m phy_id vnpu_id.

Definition shm_manager_set_swap_enabled (m : shm_manager) (phy_id vnpu_id : Z) (enabled : bool) : option (Z * shm_manager) :=
  if vnpu_id <? 0 then Some (ENPU_INVALID_PARAM, m)
  else
    with_state m phy_id (fun s =>
      match find_entry s vnpu_id with
      | None => Some (ENPU_NOT_FOUND, s)
      | Some e => Some (ENPU_SUCCESS, put_entry vnpu_id (set_e_swap_enabled enabled e) s)
      end).
Definition shm_manager_get_swap_enabled (m : shm_manager) (phy_id vnpu_id : Z) : Z * option bool :=
  query_entry m phy_id vnpu_id e_swap_enabled.

(** * Swap commands *)

(** The marker that an active process owes the ack of command [seq]. *)
Definition mark_ack (seq : Z) (p : process_entry) : process_entry := if p_active p then set_p_ack seq p else p.
Definition active_count (ps : list process_entry) : nat := length (filter (fun p => Is_true (p_active p)) ps).

(** [now] is [time(NULL)]. *)
Definition shm_manager_write_swap_cmd `{SC : Securec} (m : shm_manager) (phy_id : Z) (pod_uid : string)
    (vnpu_id action to_swap_out now : Z) : option (Z * shm_manager) :=
  if negb (vnpu_id_in_die vnpu_id) then Some (ENPU_INVALID_PARAM, m)
  else if (action <? SWAP_ACTION_NONE) || (SWAP_ACTION_IN <? action) then Some (ENPU_INVALID_PARAM, m)
  else
    with_state m phy_id (fun s =>
      let c := st_swap_cmd s in
      let '(ret, uid) := snprintf_s (Z.to_nat MAX_UUID_LEN) (Z.to_nat (MAX_UUID_LEN - 1)) pod_uid in
      if ret <? 0
      then Some (ENPU_FAIL,
                 set_st_cmds (mk_swap_cmd uid (cmd_target_vnpu_id c) (cmd_action c) (cmd_completed c) (cmd_refcount c)
                                (cmd_seq c) (cmd_timestamp_ns c)) (st_swap_out_cmd s) s)
      else
        let out := if to_swap_out =? SWAP_OUT_NONE then st_swap_out_cmd s else set_out_target vnpu_id (st_swap_out_cmd s) in
        let stamp := u64 (u64 now * 1000000000) in
        if action =? SWAP_ACTION_OUT then
          e ← entry_at s vnpu_id;
          let seq := u64 (cmd_seq c + 1) in
          let count := Z.of_nat (active_count (e_processes e)) in
          Some (ENPU_SUCCESS,
                set_st_cmds (mk_swap_cmd uid vnpu_id action (count =? 0) count seq stamp) out
                  (put_entry vnpu_id (set_e_processes (mark_ack seq <$> e_processes e) e) s))
        else
          Some (ENPU_SUCCESS, set_st_cmds (mk_swap_cmd uid vnpu_id action false (cmd_refcount c) (cmd_seq c) stamp) out s)).

(** The code and (pod uid, vNPU id, action, completed). *)
Definition shm_manager_read_swap_cmd `{SC : Securec} (m : shm_manager) (phy_id : Z) : Z * option (string * Z * Z * bool) :=
  if phy_id <? 0 then (ENPU_INVALID_PARAM, None)
  else
    match shm_manager_get_state m phy_id with
    | None => (ENPU_NOT_FOUND, None)
    | Some s =>
        let c := st_swap_cmd s in
        let '(ret, uid) := snprintf_s (Z.to_nat MAX_UUID_LEN) (Z.to_nat (MAX_UUID_LEN - 1)) (cmd_target_pod_uid c) in
        if ret <? 0 then (ENPU_FAIL, None)
        else (ENPU_SUCCESS, Some (uid, cmd_target_vnpu_id c, cmd_action c, cmd_completed c))
    end.

Definition swap_cmd_has_pending_ack_locked (s : shm_state) (vnpu_id seq : Z) : bool :=
  match find_entry s vnpu_id with
  | None => false
  | Some e => existsb (fun p => p_ack_pending_seq p =? seq) (e_processes e)
  end.

Definition swap_cmd_mark_completed_locked (s : shm_state) : shm_state :=
  let c := set_cmd_action SWAP_ACTION_NONE (set_cmd_completed true (st_swap_cmd s)) in
  let o := st_swap_out_cmd s in
  set_st_cmds c (if cmd_target_vnpu_id c =? out_target_vnpu_id o then set_out_completed true o else o) s.

Definition shm_manager_ack_swap_cmd (m : shm_manager) (phy_id : Z) : option (Z * shm_manager) :=
  with_state m phy_id (fun s => Some (ENPU_SUCCESS, swap_cmd_mark_completed_locked s)).

Definition slot_in_range (slot : Z) : bool := (0 <=? slot) && (slot <? MAX_PROCESSES_PER_VNPU).

(** [state->entries[v].processes[slot]] and a store to it. *)
Definition process_at (s : shm_state) (v slot : Z) : option process_entry :=
  e ← entry_at s v; if slot <? 0 then None else e_processes e !! Z.to_nat slot.
Definition put_process (v slot : Z) (p : process_entry) (s : shm_state) : shm_state :=
  match entry_at s v with
  | None => s
  | Some e => put_entry v (set_e_processes (<[Z.to_nat slot := p]> (e_processes e)) e) s
  end.

Definition shm_manager_proxy_ack_process (m : shm_manager) (phy_id vnpu_id slot : Z) : option (Z * shm_manager) :=
  if phy_id <? 0 then Some (ENPU_INVALID_PARAM, m)
  else if negb (vnpu_id_in_die vnpu_id) || negb (slot_in_range slot) then Some (ENPU_INVALID_PARAM, m)
  else
    with_state m phy_id (fun s =>
      if negb (cmd_action (st_swap_cmd s) =? SWAP_ACTION_OUT) then Some (ENPU_SUCCESS, s)
      else
        let seq := cmd_seq (st_swap_cmd s) in
        if seq =? 0 then Some (ENPU_SUCCESS, s)
        else
          p ← process_at s vnpu_id slot;
          let s1 := put_process vnpu_id slot (set_p_ack 0 p) s in
          if negb (p_ack_pending_seq p =? seq) then Some (ENPU_SUCCESS, s1)
          else
            let s2 := set_st_cmds (set_cmd_refcount (i32 (cmd_refcount (st_swap_cmd s1) - 1)) (st_swap_cmd s1))
                        (st_swap_out_cmd s1) s1 in
            Some (ENPU_SUCCESS,
                  if swap_cmd_has_pending_ack_locked s2 vnpu_id seq then s2 else swap_cmd_mark_completed_locked s2)).

Definition shm_manager_try_complete_swap_cmd (m : shm_manager) (phy_id : Z) : option (Z * shm_manager) :=
  with_state m phy_id (fun s =>
    let c := st_swap_cmd s in
    if cmd_completed c || negb (cmd_action c =? SWAP_ACTION_OUT) then Some (ENPU_SUCCESS, s)
    else if (cmd_seq c =? 0) || negb (vnpu_id_in_die (cmd_target_vnpu_id c)) then Some (ENPU_SUCCESS, s)
    else if swap_cmd_has_pending_ack_locked s (cmd_target_vnpu_id c) (cmd_seq c) then Some (ENPU_SUCCESS, s)
    else Some (ENPU_SUCCESS, swap_cmd_mark_completed_locked s)).

(** * Swap buffers of the processes *)

Definition shm_swap_buffer_alloc_offset (c : libc) (size : Z) (t : TLSFManager) : option (Z * TLSFManager) := tlsf_alloc c size t.
Definition shm_swap_buffer_free_offset (c : libc) (offset size : Z) (t : TLSFManager) : option TLSFManager := tlsf_free c offset t.

Definition shm_alloc_per_process (c : libc) (s : shm_state) (t : TLSFManager) (vnpu_id slot size : Z) :
    option (Z * shm_state * TLSFManager) :=
  if negb (vnpu_id_in_die vnpu_id) || negb (slot_in_range slot) then Some (-1, s, t)
  else
    p ← process_at s vnpu_id slot;
    if negb (p_active p) then Some (-1, s, t)
    else
      '(off, t1) ← shm_swap_buffer_alloc_offset c size t;
      if off =? UINT64_MAX then Some (-1, s, t1)
      else Some (0, put_process vnpu_id slot (set_p_swap off size p) s, t1).

Definition shm_free_per_process (c : libc) (s : shm_state) (t : TLSFManager) (vnpu_id slot : Z) :
    option (Z * shm_state * TLSFManager) :=
  if negb (vnpu_id_in_die vnpu_id) || negb (slot_in_range slot) then Some (-1, s, t)
  else
    p ← process_at s vnpu_id slot;
    if p_swap_size p =? 0 then Some (0, s, t)
    else
      t1 ← shm_swap_buffer_free_offset c (p_swap_offset p) (p_swap_size p) t;
      Some (0, put_process vnpu_id slot (set_p_swap 0 0 p) s, t1).

(** The vNPU-wide allocation is deprecated and always refused. *)
Definition shm_alloc (s : shm_state) (vnpu_id size : Z) : Z := -1.

Fixpoint free_slots (c : Z -> libc) (s : shm_state) (t : TLSFManager) (vnpu_id : Z) (slots : list Z) :
    option (shm_state * TLSFManager) :=
  match slots with
  | [] => Some (s, t)
  | slot :: rest =>
      '(_, s1, t1) ← shm_free_per_process (c slot) s t vnpu_id slot;
      free_slots c s1 t1 vnpu_id rest
  end.

(** [c slot] is what the C library answers while the slot is freed. *)
Definition shm_free (c : Z -> libc) (s : shm_state) (t : TLSFManager) (vnpu_id : Z) : option (Z * shm_state * TLSFManager) :=
  if negb (vnpu_id_in_die vnpu_id) then Some (-1, s, t)
  else '(s1, t1) ← free_slots c s t vnpu_id (seqZ 0 MAX_PROCESSES_PER_VNPU); Some (0, s1, t1).
