(* ===== verification/ShmFacts.v ===== *)
(** Facts of the shared-memory manager: the arrays keep their lengths, the
    bitmap is a set of vNPU ids, and the entries of a die are a finite map
    from vNPU ids. *)

From S2P Require Import Prelude CLib SwapTlsf ShmManager.

(** The shape that the C declarations give to the structs. *)
Definition entry_wf (e : vnpu_shm_entry) : Prop := length (e_processes e) = 64%nat.
Record shm_wf (s : shm_state) : Prop := {
  wf_entries : length (st_entries s) = 128%nat;
  wf_processes : Forall entry_wf (st_entries s);
  wf_word0 : is_u64 (st_bitmap s).1;
  wf_word1 : is_u64 (st_bitmap s).2;
}.
Definition sched_wf (s : vnpu_time_slice_sched) : Prop := length (sched_slots s) = 100%nat.
Record mgr_wf (m : shm_manager) : Prop := {
  wf_states : length (shm_states m) = 16%nat;
  wf_scheds : length (sched_structs m) = 16%nat;
  wf_state phy s : shm_manager_get_state m phy = Some s -> shm_wf s;
  wf_sched phy s : shm_manager_get_sched_struct m phy = Some s -> sched_wf s;
}.

(** The entries of a die, as a map. *)
Definition die_map (m : shm_manager) (phy v : Z) : option vnpu_shm_entry := s ← shm_manager_get_state m phy; find_entry s v.

(** * The bitmap *)

Lemma in_die_spec v : vnpu_id_in_die v = true <-> 0 <= v < 128.
Proof. unfold vnpu_id_in_die, MAX_VNPU_PER_DIE. rewrite andb_true_iff, Z.leb_le, Z.ltb_lt. lia. Qed.

Lemma in_die_not v : vnpu_id_in_die v = false <-> ~ 0 <= v < 128.
Proof. rewrite <- in_die_spec. by destruct (vnpu_id_in_die v). Qed.

Lemma shift_bit w i : 0 <= i -> negb (Z.land (Z.shiftr w i) 1 =? 0) = Z.testbit w i.
Proof.
  intros Hi. change 1 with (2 ^ 0). rewrite land_bit by lia. by rewrite negb_involutive, Z.shiftr_spec, Z.add_0_l by lia.
Qed.

(** The word and the bit of an id. *)
Lemma word_cases v : 0 <= v < 128 -> (v / 64 = 0 ∧ v mod 64 = v ∧ v < 64) \/ (v / 64 = 1 ∧ v mod 64 = v - 64 ∧ 64 <= v).
Proof. intros H. destruct (Z.lt_ge_cases v 64); [left|right]; zlia. Qed.

Definition bit_of (b : bitmap) (v : Z) : bool := if v <? 64 then Z.testbit b.1 v else Z.testbit b.2 (v - 64).

Lemma bitmap_bit_eq b v : 0 <= v < 128 -> bitmap_bit b v = Some (bit_of b v).
Proof.
  intros H. unfold bitmap_bit, bitmap_word, bit_of. destruct (word_cases v H) as [(E1 & E2 & E3)|(E1 & E2 & E3)]; rewrite E1, E2; simpl.
  - by rewrite (proj2 (Z.ltb_lt v 64)), shift_bit by lia.
  - by rewrite (proj2 (Z.ltb_ge v 64)), shift_bit by lia.
Qed.

Lemma bitmap_test_eq b v : vnpu_bitmap_test b v = vnpu_id_in_die v && bit_of b v.
Proof.
  unfold vnpu_bitmap_test. destruct (vnpu_id_in_die v) eqn:E; [|done]. simpl. apply in_die_spec in E.
  by rewrite bitmap_bit_eq.
Qed.

Lemma bitmap_set_eq b v :
  0 <= v < 128 -> vnpu_bitmap_set b v = if v <? 64 then (Z.lor b.1 (2 ^ v), b.2) else (b.1, Z.lor b.2 (2 ^ (v - 64))).
Proof.
  intros H. unfold vnpu_bitmap_set. rewrite (proj2 (in_die_spec v) H). simpl. unfold bitmap_update.
  destruct (word_cases v H) as [(E1 & E2 & E3)|(E1 & E2 & E3)]; rewrite E1, E2; simpl; rewrite Z.shiftl_1_l.
  - by rewrite (proj2 (Z.ltb_lt v 64)).
  - by rewrite (proj2 (Z.ltb_ge v 64)).
Qed.

Lemma bitmap_clear_eq b v :
  0 <= v < 128 ->
  vnpu_bitmap_clear b v =
    if v <? 64 then (Z.land b.1 (u64 (Z.lnot (2 ^ v))), b.2) else (b.1, Z.land b.2 (u64 (Z.lnot (2 ^ (v - 64))))).
Proof.
  intros H. unfold vnpu_bitmap_clear. rewrite (proj2 (in_die_spec v) H). cbn [negb]. unfold bitmap_update.
  destruct (word_cases v H) as [(E1 & E2 & E3)|(E1 & E2 & E3)]; rewrite E1, E2; cbn [Z.eqb default]; rewrite Z.shiftl_1_l.
  - by rewrite (proj2 (Z.ltb_lt v 64)).
  - by rewrite (proj2 (Z.ltb_ge v 64)).
Qed.

Lemma bitmap_test_set b v w :
  0 <= v < 128 -> vnpu_bitmap_test (vnpu_bitmap_set b v) w = (w =? v) || vnpu_bitmap_test b w.
Proof.
  intros H. rewrite !bitmap_test_eq. destruct (vnpu_id_in_die w) eqn:Ew; simpl.
  - apply in_die_spec in Ew. rewrite bitmap_set_eq by done. unfold bit_of.
    destruct (Z.ltb_spec v 64), (Z.ltb_spec w 64); simpl; rewrite ?set_bit by lia.
    + by rewrite orb_comm.
    + by rewrite (proj2 (Z.eqb_neq w v)) by lia.
    + by rewrite (proj2 (Z.eqb_neq w v)) by lia.
    + rewrite orb_comm. f_equal. apply eq_true_iff_eq. rewrite !Z.eqb_eq. lia.
  - apply in_die_not in Ew. by rewrite (proj2 (Z.eqb_neq w v)) by lia.
Qed.

Lemma bitmap_test_clear b v w :
  is_u64 b.1 -> is_u64 b.2 -> 0 <= v < 128 ->
  vnpu_bitmap_test (vnpu_bitmap_clear b v) w = negb (w =? v) && vnpu_bitmap_test b w.
Proof.
  intros H1 H2 H. rewrite !bitmap_test_eq. destruct (vnpu_id_in_die w) eqn:Ew; simpl; [|by rewrite andb_false_r].
  apply in_die_spec in Ew. rewrite bitmap_clear_eq by done. unfold bit_of.
  destruct (Z.ltb_spec v 64), (Z.ltb_spec w 64); cbn [fst snd]; rewrite ?clear_bit by (done || lia).
  - by rewrite andb_comm.
  - by rewrite (proj2 (Z.eqb_neq w v)) by lia.
  - by rewrite (proj2 (Z.eqb_neq w v)) by lia.
  - rewrite andb_comm. do 2 f_equal. apply eq_true_iff_eq. rewrite !Z.eqb_eq. lia.
Qed.

Lemma bitmap_clear_set b v :
  is_u64 b.1 -> is_u64 b.2 -> 0 <= v < 128 -> vnpu_bitmap_test b v = false ->
  vnpu_bitmap_clear (vnpu_bitmap_set b v) v = b.
Proof.
  intros H1 H2 H. rewrite bitmap_test_eq, (proj2 (in_die_spec v) H). cbn [andb]. unfold bit_of. intros Hb.
  rewrite bitmap_set_eq, bitmap_clear_eq by done. destruct b as [b0 b1]. cbn [fst snd] in *.
  destruct (Z.ltb_spec v 64); cbn [fst snd]; by rewrite clear_set_bit by (done || lia).
Qed.

Lemma bitmap_set_u64 b v :
  0 <= v < 128 -> is_u64 b.1 -> is_u64 b.2 -> is_u64 (vnpu_bitmap_set b v).1 ∧ is_u64 (vnpu_bitmap_set b v).2.
Proof. intros H H1 H2. rewrite bitmap_set_eq by done. destruct (Z.ltb_spec v 64); simpl; split; try done; apply set_bit_u64; done || lia. Qed.

Lemma bitmap_clear_u64 b v :
  0 <= v < 128 -> is_u64 b.1 -> is_u64 b.2 -> is_u64 (vnpu_bitmap_clear b v).1 ∧ is_u64 (vnpu_bitmap_clear b v).2.
Proof. intros H H1 H2. rewrite bitmap_clear_eq by done. destruct (Z.ltb_spec v 64); cbn [fst snd]; split; try done; by apply clear_bit_u64. Qed.

(** * Entries of one die *)

Lemma entry_at_wf s v : shm_wf s -> 0 <= v < 128 -> exists e, entry_at s v = Some e ∧ entry_wf e.
Proof.
  intros Hwf Hv. unfold entry_at. rewrite (proj2 (Z.ltb_ge v 0)) by lia.
  destruct (lookup_lt_is_Some_2 (st_entries s) (Z.to_nat v)) as [e He]; [rewrite (wf_entries _ Hwf); lia|].
  exists e. split; [done|]. exact (Forall_lookup_1 _ _ _ _ (wf_processes _ Hwf) He).
Qed.

Lemma entry_at_put s v e w : shm_wf s -> 0 <= v < 128 -> 0 <= w -> entry_at (put_entry v e s) w = if decide (w = v) then Some e else entry_at s w.
Proof.
  intros Hwf Hv Hw. unfold entry_at, put_entry. rewrite (proj2 (Z.ltb_ge w 0)) by lia. simpl.
  destruct (decide (w = v)) as [->|Hne].
  - apply list_lookup_insert_eq. rewrite (wf_entries _ Hwf). lia.
  - apply list_lookup_insert_ne. lia.
Qed.

Lemma put_entry_wf s v e : shm_wf s -> entry_wf e -> shm_wf (put_entry v e s).
Proof.
  intros [H1 H2 H3 H4] He. constructor; simpl; [by rewrite length_insert|by apply Forall_insert|done|done].
Qed.

Lemma set_bitmap_wf s b : shm_wf s -> is_u64 b.1 -> is_u64 b.2 -> shm_wf (set_st_bitmap b s).
Proof. intros [H1 H2 H3 H4] Hb1 Hb2. by constructor. Qed.

Lemma set_cmds_wf s c o : shm_wf s -> shm_wf (set_st_cmds c o s).
Proof. intros [H1 H2 H3 H4]. by constructor. Qed.

Lemma set_hbm_wf s h : shm_wf s -> shm_wf (set_st_hbm_total h s).
Proof. intros [H1 H2 H3 H4]. by constructor. Qed.

#[export] Hint Resolve put_entry_wf set_bitmap_wf set_cmds_wf set_hbm_wf wf_word0 wf_word1 : enpu.

(** The entry is in the map exactly when its bit is set. *)
Lemma find_entry_is_Some s v : shm_wf s -> is_Some (find_entry s v) <-> vnpu_bitmap_test (st_bitmap s) v = true.
Proof.
  intros Hwf. unfold find_entry. rewrite bitmap_test_eq. destruct (vnpu_id_in_die v) eqn:Ev; simpl; [|by split; [intros [? ?]|]].
  apply in_die_spec in Ev. destruct (bit_of _ v); [|by split; [intros [? ?]|]].
  destruct (entry_at_wf s v Hwf Ev) as (e & -> & _). by split; [|eexists].
Qed.

Lemma find_entry_add s v e w :
  shm_wf s -> 0 <= v < 128 ->
  find_entry (set_st_bitmap (vnpu_bitmap_set (st_bitmap s) v) (put_entry v e s)) w
  = if decide (w = v) then Some e else find_entry s w.
Proof.
  intros Hwf Hv. unfold find_entry. simpl. destruct (vnpu_id_in_die w) eqn:Ew; simpl.
  - apply in_die_spec in Ew. rewrite bitmap_test_set by done.
    change (entry_at (set_st_bitmap ?b ?s) w) with (entry_at s w). rewrite entry_at_put by (done || lia).
    destruct (decide (w = v)) as [->|Hne]; [by rewrite Z.eqb_refl|]. by rewrite (proj2 (Z.eqb_neq w v)).
  - apply in_die_not in Ew. destruct (decide (w = v)); [lia|done].
Qed.

Lemma find_entry_remove s v e w :
  shm_wf s -> 0 <= v < 128 ->
  find_entry (set_st_bitmap (vnpu_bitmap_clear (st_bitmap s) v) (put_entry v e s)) w
  = if decide (w = v) then None else find_entry s w.
Proof.
  intros Hwf Hv. unfold find_entry. simpl. destruct (vnpu_id_in_die w) eqn:Ew; simpl; [|by destruct (decide _)].
  apply in_die_spec in Ew. rewrite bitmap_test_clear by (done || eauto with enpu).
  change (entry_at (set_st_bitmap ?b ?s) w) with (entry_at s w). rewrite entry_at_put by (done || lia).
  destruct (decide (w = v)) as [->|Hne]; [by rewrite Z.eqb_refl|]. by rewrite (proj2 (Z.eqb_neq w v)).
Qed.

(** * The dies of the manager *)

Lemma get_state_range m phy s : shm_manager_get_state m phy = Some s -> 0 <= phy < 16.
Proof.
  unfold shm_manager_get_state, MAX_NPU_PER_NODE. destruct (Z.ltb_spec phy 0); [done|]. destruct (Z.leb_spec 16 phy); [done|]. lia.
Qed.

Lemma get_state_set m phy s phy' :
  length (shm_states m) = 16%nat -> 0 <= phy < 16 ->
  shm_manager_get_state (set_state phy s m) phy' = if decide (phy' = phy) then Some s else shm_manager_get_state m phy'.
Proof.
  intros Hl Hp. unfold shm_manager_get_state, MAX_NPU_PER_NODE. simpl.
  destruct (decide (phy' = phy)) as [->|Hne].
  - rewrite (proj2 (Z.ltb_ge phy 0)), (proj2 (Z.leb_gt 16 phy)) by lia. simpl. by rewrite list_lookup_insert_eq by lia.
  - destruct (Z.ltb_spec phy' 0); [done|]. destruct (Z.leb_spec 16 phy'); [done|]. simpl.
    by rewrite list_lookup_insert_ne by lia.
Qed.

Lemma set_state_wf m phy s : mgr_wf m -> 0 <= phy < 16 -> shm_wf s -> mgr_wf (set_state phy s m).
Proof.
  intros Hwf Hp Hs. constructor; simpl.
  - by rewrite length_insert, (wf_states _ Hwf).
  - apply (wf_scheds _ Hwf).
  - intros phy' s'. rewrite get_state_set by (done || apply (wf_states _ Hwf)).
    destruct (decide _); [by intros [= <-]|apply (wf_state _ Hwf)].
  - intros phy' s'. apply (wf_sched _ Hwf).
Qed.

(** The result of an operation that updates the state of a die. *)
Lemma with_state_eq m phy s f :
  shm_manager_get_state m phy = Some s -> with_state m phy f = '(rc, s') ← f s; Some (rc, set_state phy s' m).
Proof.
  intros Hs. pose proof (get_state_range _ _ _ Hs). unfold with_state. by rewrite (proj2 (Z.ltb_ge phy 0)), Hs by lia.
Qed.

Lemma set_state_same m phy s : shm_manager_get_state m phy = Some s -> set_state phy s m = m.
Proof.
  intros Hs. pose proof (get_state_range _ _ _ Hs) as Hp. unfold shm_manager_get_state, MAX_NPU_PER_NODE in Hs.
  rewrite (proj2 (Z.ltb_ge phy 0)), (proj2 (Z.leb_gt 16 phy)) in Hs by lia. cbn [orb] in Hs.
  destruct m as [sts scs c i]. unfold set_state. simpl in *. destruct (sts !! Z.to_nat phy) as [os|] eqn:E; [|done].
  simpl in Hs. subst os. by rewrite list_insert_id.
Qed.

Lemma die_map_set m phy s phy' v :
  mgr_wf m -> 0 <= phy < 16 ->
  die_map (set_state phy s m) phy' v = if decide (phy' = phy) then find_entry s v else die_map m phy' v.
Proof.
  intros Hwf Hp. unfold die_map. rewrite get_state_set by (done || apply (wf_states _ Hwf)). by destruct (decide _).
Qed.

(** The state that [add_entry] and [remove_entry] leave. *)
Definition add_vnpu (e : vnpu_shm_entry) (s : shm_state) : shm_state :=
  set_st_bitmap (vnpu_bitmap_set (st_bitmap s) (e_vnpu_id e)) (put_entry (e_vnpu_id e) e s).
Definition drop_vnpu (v : Z) (e : vnpu_shm_entry) (s : shm_state) : shm_state :=
  set_st_bitmap (vnpu_bitmap_clear (st_bitmap s) v) (put_entry v (set_e_vnpu_id (-1) e) s).

Lemma add_vnpu_wf e s : shm_wf s -> entry_wf e -> 0 <= e_vnpu_id e < 128 -> shm_wf (add_vnpu e s).
Proof.
  intros Hs He Hv. destruct (bitmap_set_u64 (st_bitmap s) (e_vnpu_id e) Hv) as [H1 H2]; [eauto with enpu..|].
  unfold add_vnpu. eauto with enpu.
Qed.

Lemma drop_vnpu_wf v e s : shm_wf s -> entry_wf e -> 0 <= v < 128 -> shm_wf (drop_vnpu v e s).
Proof.
  intros Hs He Hv. destruct (bitmap_clear_u64 (st_bitmap s) v Hv) as [H1 H2]; [eauto with enpu..|].
  unfold drop_vnpu. eauto with enpu.
Qed.

Lemma add_entry_eq m phy s e :
  shm_manager_get_state m phy = Some s -> shm_wf s -> 0 <= e_vnpu_id e < 128 ->
  shm_manager_add_entry m phy e =
    if vnpu_bitmap_test (st_bitmap s) (e_vnpu_id e) then Some (ENPU_ALREADY_EXISTS, m)
    else Some (ENPU_SUCCESS, set_state phy (add_vnpu e s) m).
Proof.
  intros Hs Hwf Hv. unfold shm_manager_add_entry. rewrite (proj2 (in_die_spec _) Hv). cbn [negb].
  rewrite (with_state_eq m phy s) by done. rewrite bitmap_bit_eq, bitmap_test_eq, (proj2 (in_die_spec _) Hv) by done.
  cbn [mbind option_bind andb]. destruct (bit_of _ _); [simpl; by rewrite set_state_same|].
  destruct (entry_at_wf s (e_vnpu_id e) Hwf Hv) as (e0 & -> & _). done.
Qed.

Lemma remove_entry_eq m phy s v e :
  shm_manager_get_state m phy = Some s -> shm_wf s -> 0 <= v < 128 -> entry_at s v = Some e ->
  shm_manager_remove_entry m phy v =
    if vnpu_bitmap_test (st_bitmap s) v then Some (ENPU_SUCCESS, set_state phy (drop_vnpu v e s) m)
    else Some (ENPU_NOT_FOUND, m).
Proof.
  intros Hs Hwf Hv He. unfold shm_manager_remove_entry, MAX_VNPU_PER_DIE.
  rewrite (proj2 (Z.ltb_ge v 0)), (proj2 (Z.leb_gt 128 v)) by lia.
  rewrite (with_state_eq m phy s) by done. rewrite bitmap_bit_eq, bitmap_test_eq, (proj2 (in_die_spec _) Hv) by done.
  cbn [mbind option_bind andb]. destruct (bit_of _ _); simpl; [|by rewrite set_state_same].
  by rewrite He.
Qed.

(** * Processes of an entry *)

Lemma slot_range_spec i : slot_in_range i = true <-> 0 <= i < 64.
Proof. unfold slot_in_range, MAX_PROCESSES_PER_VNPU. rewrite andb_true_iff, Z.leb_le, Z.ltb_lt. lia. Qed.

Lemma find_entry_at s v e : find_entry s v = Some e -> 0 <= v < 128 ∧ vnpu_bitmap_test (st_bitmap s) v = true ∧ entry_at s v = Some e.
Proof.
  unfold find_entry. destruct (vnpu_id_in_die v) eqn:E; [|done]. simpl. apply in_die_spec in E.
  by destruct (vnpu_bitmap_test _ _).
Qed.

Lemma entry_at_entry_wf s v e : shm_wf s -> entry_at s v = Some e -> entry_wf e.
Proof. intros Hwf. unfold entry_at. destruct (v <? 0); [done|]. apply (Forall_lookup_1 _ _ _ _ (wf_processes _ Hwf)). Qed.

Lemma process_at_wf s v e i : shm_wf s -> entry_at s v = Some e -> 0 <= i < 64 -> exists p, process_at s v i = Some p ∧ e_processes e !! Z.to_nat i = Some p.
Proof.
  intros Hwf He Hi. unfold process_at. rewrite He. simpl. rewrite (proj2 (Z.ltb_ge i 0)) by lia.
  destruct (lookup_lt_is_Some_2 (e_processes e) (Z.to_nat i)) as [p Hp]; [|by exists p].
  rewrite (entry_at_entry_wf s v e Hwf He). lia.
Qed.

Lemma find_entry_put s v e0 e w :
  shm_wf s -> find_entry s v = Some e0 -> find_entry (put_entry v e s) w = if decide (w = v) then Some e else find_entry s w.
Proof.
  intros Hwf H. destruct (find_entry_at _ _ _ H) as (Hv & Ht & _). unfold find_entry.
  change (st_bitmap (put_entry v e s)) with (st_bitmap s). destruct (vnpu_id_in_die w) eqn:Ew; simpl.
  - apply in_die_spec in Ew. rewrite entry_at_put by (done || lia). destruct (decide (w = v)) as [->|]; [by rewrite Ht|done].
  - apply in_die_not in Ew. destruct (decide (w = v)); [lia|done].
Qed.

Lemma put_process_eq s v e i p :
  entry_at s v = Some e -> put_process v i p s = put_entry v (set_e_processes (<[Z.to_nat i := p]> (e_processes e)) e) s.
Proof. intros He. unfold put_process. by rewrite He. Qed.

Lemma put_process_wf s v i p : shm_wf s -> shm_wf (put_process v i p s).
Proof.
  intros Hwf. unfold put_process. destruct (entry_at s v) as [e|] eqn:He; [|done]. apply put_entry_wf; [done|].
  unfold entry_wf. simpl. rewrite length_insert. exact (entry_at_entry_wf s v e Hwf He).
Qed.

#[export] Hint Resolve put_process_wf : enpu.

(** * Creation of the state of a die *)

Lemma get_sched_range m phy s : shm_manager_get_sched_struct m phy = Some s -> 0 <= phy < 16.
Proof.
  unfold shm_manager_get_sched_struct, MAX_NPU_PER_NODE. destruct (Z.ltb_spec phy 0); [done|]. destruct (Z.leb_spec 16 phy); [done|]. lia.
Qed.

Lemma get_sched_set m phy s phy' :
  length (sched_structs m) = 16%nat -> 0 <= phy < 16 ->
  shm_manager_get_sched_struct (set_sched phy s m) phy' = if decide (phy' = phy) then Some s else shm_manager_get_sched_struct m phy'.
Proof.
  intros Hl Hp. unfold shm_manager_get_sched_struct, MAX_NPU_PER_NODE. simpl.
  destruct (decide (phy' = phy)) as [->|Hne].
  - rewrite (proj2 (Z.ltb_ge phy 0)), (proj2 (Z.leb_gt 16 phy)) by lia. simpl. by rewrite list_lookup_insert_eq by lia.
  - destruct (Z.ltb_spec phy' 0); [done|]. destruct (Z.leb_spec 16 phy'); [done|]. simpl.
    by rewrite list_lookup_insert_ne by lia.
Qed.

Lemma set_sched_wf m phy s : mgr_wf m -> 0 <= phy < 16 -> sched_wf s -> mgr_wf (set_sched phy s m).
Proof.
  intros Hwf Hp Hs. constructor; simpl.
  - apply (wf_states _ Hwf).
  - by rewrite length_insert, (wf_scheds _ Hwf).
  - intros phy' s'. apply (wf_state _ Hwf).
  - intros phy' s'. rewrite get_sched_set by (done || apply (wf_scheds _ Hwf)).
    destruct (decide _); [by intros [= <-]|apply (wf_sched _ Hwf)].
Qed.

Lemma sched_new_wf : sched_wf sched_new.
Proof. reflexivity. Qed.

Lemma lookup_join_replicate {A} n k : mjoin (replicate n (@None A) !! k) = None.
Proof. destruct (replicate n None !! k) as [os|] eqn:E; [|done]. by apply lookup_replicate in E as [-> _]. Qed.

Lemma shm_manager_create_wf : mgr_wf shm_manager_create.
Proof.
  constructor; [done|done| |]; intros phy s.
  - unfold shm_manager_get_state. destruct (_ || _); [done|]. cbn [shm_states shm_manager_create]. by rewrite lookup_join_replicate.
  - unfold shm_manager_get_sched_struct. destruct (_ || _); [done|]. cbn [sched_structs shm_manager_create]. by rewrite lookup_join_replicate.
Qed.

(** The state that a creation leaves: no vNPU, no command. *)
Definition state_new (phy : Z) (die : string) : shm_state :=
  mk_shm_state SHM_STATE_VERSION phy die 0 (replicate 128 entry0) (0, 0) (-1) false swap_cmd0 swap_out_cmd0 1.

Lemma state_new_wf phy die b : shm_wf (set_st_initialized b (state_new phy die)).
Proof.
  constructor; [reflexivity| |done|done]. cbn [st_entries set_st_initialized state_new]. apply Forall_replicate. reflexivity.
Qed.

Lemma state_new_empty phy die b v : find_entry (set_st_initialized b (state_new phy die)) v = None.
Proof.
  unfold find_entry. destruct (vnpu_id_in_die v) eqn:Ev; [|done]. cbn [negb]. rewrite bitmap_test_eq, Ev. unfold bit_of. simpl.
  destruct (v <? 64); by rewrite Z.bits_0.
Qed.

Section create_facts.
  Context `{SC : Securec}.

Lemma posix_create_spec o names phy die st names' :
  shm_state_posix_shm_create o names phy die = (Some st, names') ->
  st = state_new phy (prefix_of_len 63 die) ∧ exists nm, (nm ∉ names) ∧ names' = {[nm]} ∪ names.
Proof.
  unfold shm_state_posix_shm_create. destruct (phy <? 0); [done|]. destruct (snprintf_s 128 127 _) as [ret nm].
  destruct (ret <? 0); [done|]. case_bool_decide; [done|]. destruct (negb _); [done|].
  rewrite copy_str_eq by (unfold DIE_ID_LEN; lia). simpl. intros [= <- <-]. split; [done|]. by exists nm.
Qed.

(** A call that fails leaves the manager as it was; one that succeeds leaves
    the states of the other dies alone, keeps an existing state, and gives a
    die without one an empty state. *)
Lemma get_or_create_spec o m names phy die len rc id m' names' :
  mgr_wf m -> from_option sched_wf True (so_sched_existing o) ->
  shm_manager_get_or_create_shm o m names phy die len = (rc, id, m', names') ->
  mgr_wf m' ∧ (rc <> ENPU_SUCCESS -> m' = m)
  ∧ (rc = ENPU_SUCCESS -> is_Some (shm_manager_get_state m' phy)
       ∧ (is_Some (shm_manager_get_state m phy) -> m' = m ∧ names' = names)
       ∧ (shm_manager_get_state m phy = None ->
            shm_manager_get_state m' phy = Some (set_st_initialized true (state_new phy (prefix_of_len 63 die))))
       ∧ forall phy', phy' <> phy -> shm_manager_get_state m' phy' = shm_manager_get_state m phy'
                                   ∧ shm_manager_get_sched_struct m' phy' = shm_manager_get_sched_struct m phy').
Proof.
  intros Hwf Hex. unfold shm_manager_get_or_create_shm, MAX_NPU_PER_NODE.
  destruct (Z.ltb_spec phy 0) as [|Hp0]; [by intros [= <- _ <- _]|]. destruct (Z.leb_spec 16 phy) as [|Hp1]; [by intros [= <- _ <- _]|].
  cbn [orb]. destruct (shm_manager_get_state m phy) as [s|] eqn:Hs.
  { destruct (if 0 <? len then _ else _) as [ret out]. destruct (ret <? 0); intros [= <- _ <- <-]; split_and!; try done. }
  destruct (shm_state_posix_shm_create o names phy die) as [[st|] names1] eqn:Ec; [|by intros [= <- _ <- _]].
  apply posix_create_spec in Ec as [-> _].
  destruct (if 0 <? len then _ else _) as [ret out]. destruct (ret <? 0); [by intros [= <- _ <- _]|]. intros [= <- _ <- <-].
  set (m1 := mk_shm_manager _ _ _ _).
  assert (Hget : forall m2, shm_states m2 = shm_states m1 -> forall phy', shm_manager_get_state m2 phy' =
    if decide (phy' = phy) then Some (set_st_initialized true (state_new phy (prefix_of_len 63 die))) else shm_manager_get_state m phy').
  { intros m2 E phy'. unfold shm_manager_get_state at 1. rewrite E. apply get_state_set; [apply (wf_states _ Hwf)|lia]. }
  assert (H1 : mgr_wf m1).
  { constructor; simpl; [by rewrite length_insert, (wf_states _ Hwf)|apply (wf_scheds _ Hwf)| |intros ? ?; apply (wf_sched _ Hwf)].
    intros phy' s'. rewrite (Hget m1 eq_refl). destruct (decide _); [intros [= <-]; apply state_new_wf|apply (wf_state _ Hwf)]. }
  assert (Hsc : from_option sched_wf True (shm_struct_init o).2).
  { unfold shm_struct_init. repeat case_match; simpl in *; done || apply sched_new_wf. }
  assert (Hfin : forall m2, m2 = match (shm_struct_init o).2 with Some sc => set_sched phy sc m1 | None => m1 end ->
    mgr_wf m2 ∧ shm_states m2 = shm_states m1
    ∧ forall phy', phy' <> phy -> shm_manager_get_sched_struct m2 phy' = shm_manager_get_sched_struct m phy').
  { intros m2 ->. destruct (shm_struct_init o).2 as [sc|]; [|done]. split; [by apply set_sched_wf|]. split; [done|].
    intros phy' Hne. rewrite get_sched_set by (apply (wf_scheds _ H1) || lia). by rewrite decide_False. }
  destruct (Hfin _ eq_refl) as (Hw2 & Est & Hsched). split; [done|]. split; [done|]. intros _.
  rewrite (Hget _ Est), decide_True by done. split_and!; [done|by intros [? ?]|done|].
  intros phy' Hne. split; [by rewrite (Hget _ Est), decide_False|by apply Hsched].
Qed.

End create_facts.

(** * A decision procedure for the shape *)

Definition u64b (x : Z) : bool := (0 <=? x) && (x <? U64_MOD).
Definition shm_wfb (s : shm_state) : bool :=
  bool_decide (length (st_entries s) = 128%nat) && forallb (fun e => bool_decide (length (e_processes e) = 64%nat)) (st_entries s)
  && u64b (st_bitmap s).1 && u64b (st_bitmap s).2.
Definition mgr_wfb (m : shm_manager) : bool :=
  bool_decide (length (shm_states m) = 16%nat) && bool_decide (length (sched_structs m) = 16%nat)
  && forallb (from_option shm_wfb true) (shm_states m)
  && forallb (from_option (fun s => bool_decide (length (sched_slots s) = 100%nat)) true) (sched_structs m).

Lemma u64b_sound x : u64b x = true -> is_u64 x.
Proof. unfold u64b, is_u64. rewrite andb_true_iff, Z.leb_le, Z.ltb_lt. done. Qed.

Lemma shm_wfb_sound s : shm_wfb s = true -> shm_wf s.
Proof.
  unfold shm_wfb. rewrite !andb_true_iff, bool_decide_eq_true, forallb_forall. intros (((H1 & H2) & H3) & H4).
  constructor; [done| |by apply u64b_sound..]. apply Forall_forall. intros e He. apply list_elem_of_In, H2 in He.
  by apply bool_decide_eq_true in He.
Qed.

Lemma forallb_join {A} (f : A -> bool) l k x : forallb (from_option f true) l = true -> mjoin (l !! k) = Some x -> f x = true.
Proof.
  rewrite forallb_forall. intros H Hk. destruct (l !! k) as [o|] eqn:E; [|done]. simpl in Hk. subst o.
  apply list_elem_of_lookup_2, list_elem_of_In, H in E. exact E.
Qed.

Lemma mgr_wfb_sound m : mgr_wfb m = true -> mgr_wf m.
Proof.
  unfold mgr_wfb. rewrite !andb_true_iff, !bool_decide_eq_true. intros (((H1 & H2) & H3) & H4).
  constructor; [done|done| |]; intros phy s.
  - unfold shm_manager_get_state. destruct (_ || _); [done|]. intros Hs. exact (shm_wfb_sound _ (forallb_join _ _ _ _ H3 Hs)).
  - unfold shm_manager_get_sched_struct. destruct (_ || _); [done|]. intros Hs.
    apply (forallb_join _ _ _ _ H4) in Hs. by apply bool_decide_eq_true in Hs.
Qed.

(** The id that a successful call writes out. *)
Lemma get_or_create_id `{SC : Securec} o m names phy die rc id m' names' s :
  shm_manager_get_or_create_shm o m names phy die SHM_ID_LEN = (rc, id, m', names') -> rc = ENPU_SUCCESS -> mgr_wf m ->
  shm_manager_get_state m' phy = Some s -> (String.length (st_shm_id s) < 64)%nat -> id = st_shm_id s.
Proof.
  unfold shm_manager_get_or_create_shm, MAX_NPU_PER_NODE.
  destruct (Z.ltb_spec phy 0) as [|Hp0]; [by intros [= <- _ _ _]|]. destruct (Z.leb_spec 16 phy) as [|Hp1]; [by intros [= <- _ _ _]|].
  cbn [orb]. change (0 <? SHM_ID_LEN) with true. cbn iota. change (Z.to_nat SHM_ID_LEN) with 64%nat. change (Z.to_nat (SHM_ID_LEN - 1)) with 63%nat.
  destruct (shm_manager_get_state m phy) as [s0|] eqn:Hs0.
  - destruct (snprintf_s 64 63 (st_shm_id s0)) as [ret out] eqn:E. destruct (ret <? 0); intros [= <- <- <- <-] Hrc Hwf Hs Hl; [done|].
    rewrite Hs0 in Hs. injection Hs as ->. rewrite snprintf_s_fits in E by lia. by injection E as _ <-.
  - destruct (shm_state_posix_shm_create o names phy die) as [[st|] names1] eqn:Ec; [|by intros [= <- _ _ _]].
    apply posix_create_spec in Ec as [-> _]. destruct (snprintf_s 64 63 _) as [ret out] eqn:E.
    destruct (ret <? 0); [by intros [= <- _ _ _]|]. intros [= <- <- <- <-] _ Hwf Hs Hl.
    assert (Es : s = set_st_initialized true (state_new phy (prefix_of_len 63 die))).
    { set (m1 := mk_shm_manager _ _ _ _) in Hs. assert (Hg : forall m2, shm_states m2 = shm_states m1 -> shm_manager_get_state m2 phy
          = Some (set_st_initialized true (state_new phy (prefix_of_len 63 die)))).
      { intros m2 E2. unfold shm_manager_get_state. rewrite E2. unfold m1, MAX_NPU_PER_NODE. simpl.
        rewrite (proj2 (Z.ltb_ge phy 0)), (proj2 (Z.leb_gt 16 phy)) by lia. simpl.
        by rewrite list_lookup_insert_eq by (rewrite (wf_states _ Hwf); lia). }
      rewrite Hg in Hs; [by injection Hs|]. by destruct (shm_struct_init o).2. }
    subst s. simpl in *. rewrite snprintf_s_fits in E by lia. by injection E as _ <-.
Qed.
