(* ===== verification/RtShm.v ===== *)
(** The process side of the shared state: vcann-rt/src/shm_manager.c (lines
    116-367) and the registration of a process in vcann-rt/src/npu_manager.c
    (lines 260-331).

    The processes map the same [shm_state] as the manager and take no lock.
    Each function is given here as the sequence of its loads and stores run
    without interference; the interleavings of the ack are in the step
    relation of SwapProtocol. *)

From S2P Require Import Prelude CLib SwapTlsf ShmManager.

Definition MB_TO_B : Z := 1048576.

Definition shm_get_entry (s : shm_state) (vnpu_id : Z) : option vnpu_shm_entry :=
  if negb (vnpu_id_in_die vnpu_id) then None
  else if negb (vnpu_bitmap_test (st_bitmap s) vnpu_id) then None
  else entry_at s vnpu_id.

Definition set_e_hbm_request (x : Z) (e : vnpu_shm_entry) : vnpu_shm_entry :=
  mk_entry (e_vnpu_id e) x (e_hbm_limit e) (e_hbm_used e) (e_sched_policy e) (e_swap_enabled e) (e_swap_priority e) (e_processes e).
Definition set_e_hbm_used (x : Z) (e : vnpu_shm_entry) : vnpu_shm_entry :=
  mk_entry (e_vnpu_id e) (e_hbm_request e) (e_hbm_limit e) x (e_sched_policy e) (e_swap_enabled e) (e_swap_priority e) (e_processes e).

Definition shm_update_hbm_request (s : shm_state) (vnpu_id request_quota : Z) : Z * shm_state :=
  match shm_get_entry s vnpu_id with
  | None => (RT_FAIL, s)
  | Some e => (ENPU_SUCCESS, put_entry vnpu_id (set_e_hbm_request request_quota e) s)
  end.
Definition shm_update_used (s : shm_state) (vnpu_id used : Z) : Z * shm_state :=
  match shm_get_entry s vnpu_id with
  | None => (RT_FAIL, s)
  | Some e => (ENPU_SUCCESS, put_entry vnpu_id (set_e_hbm_used used e) s)
  end.

(** * Free memory of the die *)

(** The entries of the allocated vNPUs, in the order of the loops. *)
Definition live_entries (s : shm_state) : list vnpu_shm_entry := omap (find_entry s) (seqZ 0 MAX_VNPU_PER_DIE).

Definition dynamic_free_step (acc : Z * Z) (e : vnpu_shm_entry) : Z * Z :=
  let '(total_used, total_hbm_request) := acc in
  let used := e_hbm_used e in
  let hbm_request := u64 (e_hbm_request e * MB_TO_B) in
  (if hbm_request <? used then u64 (u64 (total_used + used) - hbm_request) else total_used,
   u64 (total_hbm_request + hbm_request)).

Definition shm_get_dynamic_free (s : shm_state) : Z :=
  let '(total_used, total_hbm_request) := foldl dynamic_free_step (0, 0) (live_entries s) in
  if st_hbm_total s <=? total_hbm_request then 0
  else if total_used <? u64 (st_hbm_total s - total_hbm_request)
       then u64 (u64 (st_hbm_total s - total_hbm_request) - total_used) else 0.

Definition shm_get_hbm_request_free (s : shm_state) : Z :=
  let total := foldl (fun acc e => u64 (acc + u64 (e_hbm_request e * MB_TO_B))) 0 (live_entries s) in
  if total <? st_hbm_total s then u64 (st_hbm_total s - total) else 0.

(** * Swap commands *)

(** (vNPU id, action) *)
Definition shm_check_swap_cmd (s : shm_state) : Z * Z := (cmd_target_vnpu_id (st_swap_cmd s), cmd_action (st_swap_cmd s)).

Definition shm_ack_swap_cmd (s : shm_state) : shm_state := swap_cmd_mark_completed_locked s.

Definition shm_swap_ack_done (s : shm_state) (vnpu_id seq : Z) : option bool :=
  if negb (vnpu_id_in_die vnpu_id) then Some false
  else if seq =? 0 then Some true
  else e ← entry_at s vnpu_id; Some (negb (existsb (fun p => p_ack_pending_seq p =? seq) (e_processes e))).

Definition swap_cmd_finish_if_epoch (s : shm_state) (vnpu_id seq : Z) : option shm_state :=
  if negb (cmd_seq (st_swap_cmd s) =? seq) then Some s
  else if negb (cmd_action (st_swap_cmd s) =? SWAP_ACTION_OUT) then Some s
  else
    done ← shm_swap_ack_done s vnpu_id seq;
    if negb done then Some s
    else if negb (cmd_seq (st_swap_cmd s) =? seq) then Some s
    else Some (shm_ack_swap_cmd s).

Definition shm_try_ack_swap_cmd (s : shm_state) (vnpu_id slot seq : Z) : option (Z * shm_state) :=
  if negb (vnpu_id_in_die vnpu_id) || negb (slot_in_range slot) || (seq =? 0) then Some (-1, s)
  else
    p ← process_at s vnpu_id slot;
    let s1 := put_process vnpu_id slot (set_p_ack 0 p) s in
    if negb (p_ack_pending_seq p =? seq) then Some (-1, s1)
    else
      let prev := cmd_refcount (st_swap_cmd s1) in
      let s2 := set_st_cmds (set_cmd_refcount (i32 (prev - 1)) (st_swap_cmd s1)) (st_swap_out_cmd s1) s1 in
      s3 ← swap_cmd_finish_if_epoch s2 vnpu_id seq;
      Some (if 0 <? prev then prev - 1 else 0, s3).

Definition shm_set_process_swapped (s : shm_state) (vnpu_id slot : Z) (swapped : bool) : option shm_state :=
  if negb (vnpu_id_in_die vnpu_id) || negb (slot_in_range slot) then Some s
  else p ← process_at s vnpu_id slot; Some (put_process vnpu_id slot (set_p_swapped swapped p) s).
Definition shm_get_process_swapped (s : shm_state) (vnpu_id slot : Z) : option bool :=
  if negb (vnpu_id_in_die vnpu_id) || negb (slot_in_range slot) then Some false
  else p ← process_at s vnpu_id slot; Some (p_swapped p).

(** No active process is left on the device, also for an empty vNPU. *)
Definition shm_get_vnpu_all_swapped (s : shm_state) (vnpu_id : Z) : option bool :=
  if negb (vnpu_id_in_die vnpu_id) then Some false
  else e ← entry_at s vnpu_id; Some (forallb (fun p => negb (p_active p && negb (p_swapped p))) (e_processes e)).

(** * Registration of a process *)

Definition set_st_next_id (x : Z) (s : shm_state) : shm_state :=
  mk_shm_state (st_version s) (st_phy_id s) (st_shm_id s) (st_hbm_total s) (st_entries s) (st_bitmap s) (st_sched_policy s)
    (st_initialized s) (st_swap_cmd s) (st_swap_out_cmd s) x.

(** The code, the slot, and the [cmd_seq] that the process has seen.  [pid]
    and [now] are the answers of the operating system. *)
Definition register_to_shm_state (pid now : Z) (s : shm_state) (vnpu_id : Z) : option (Z * option (nat * Z) * shm_state) :=
  if negb (vnpu_id_in_die vnpu_id) then Some (RT_FAIL, None, s)
  else
    let id0 := st_next_vcann_rt_id s in
    let '(rt_id, next) := if id0 <=? 0 then (1, 2) else (id0, i32 (id0 + 1)) in
    let s1 := set_st_next_id next s in
    e ← entry_at s1 vnpu_id;
    match list_find (fun p => ~ Is_true (p_active p)) (e_processes e) with
    | None => Some (RT_FAIL, None, s1)
    | Some (slot, _) =>
        Some (ENPU_SUCCESS, Some (slot, cmd_seq (st_swap_cmd s1)),
              put_process vnpu_id (Z.of_nat slot) (mk_process rt_id pid false true now 0 0 0 0) s1)
    end.

Definition deactivate (p : process_entry) : process_entry :=
  mk_process (p_vcann_rt_id p) (p_pid p) false false (p_last_heartbeat_ns p) 0 (p_swap_offset p) (p_swap_size p)
    (p_ack_pending_seq p).

Definition unregister_from_shm_state (s : shm_state) (vnpu_id slot : Z) : option shm_state :=
  if negb (vnpu_id_in_die vnpu_id) || negb (slot_in_range slot) then Some s
  else
    e ← entry_at s vnpu_id;
    p ← process_at s vnpu_id slot;
    let used := if 0 <? p_hbm_used p then u64 (e_hbm_used e - p_hbm_used p) else e_hbm_used e in
    Some (put_entry vnpu_id
            (set_e_hbm_used used (set_e_processes (<[Z.to_nat slot := deactivate p]> (e_processes e)) e)) s).
