(* ===== verification/SwapProtocol.v ===== *)
(** The swap-out command protocol between the manager and the processes:
    a command is completed by exactly the acks it waits for.

    A command marks every active process of the target vNPU with its sequence
    number; each process clears its mark when it has swapped out (RtShm), or
    the watchdog clears it for a process that died (ShmManager). *)

From S2P Require Import Prelude CLib SwapTlsf ShmManager ShmFacts RtShm.

(** An ack of a slot, by its process or by the watchdog. *)
Inductive ack := AckSelf (slot : Z) | AckProxy (slot : Z).
Definition ack_slot (a : ack) : Z := match a with AckSelf i | AckProxy i => i end.

Definition ack_step (m : shm_manager) (phy v seq : Z) (a : ack) : option shm_manager :=
  match a with
  | AckSelf slot =>
      s ← shm_manager_get_state m phy;
      '(_, s') ← shm_try_ack_swap_cmd s v slot seq; Some (set_state phy s' m)
  | AckProxy slot => '(_, m') ← shm_manager_proxy_ack_process m phy v slot; Some m'
  end.

Fixpoint run_acks (m : shm_manager) (phy v seq : Z) (l : list ack) : option shm_manager :=
  match l with [] => Some m | a :: r => m1 ← ack_step m phy v seq a; run_acks m1 phy v seq r end.

(** The slots of the active processes. *)
Definition active_slots (ps : list process_entry) : gset nat :=
  list_to_set (fst <$> filter (fun ip => Is_true (p_active ip.2)) (imap pair ps)).

(** The command [q] to the vNPU [v] still waits for exactly the slots [P]. *)
Record Owes (s : shm_state) (v q : Z) (P : gset nat) : Prop := {
  ow_wf : shm_wf s;
  ow_range : 0 <= v < 128;
  ow_q : 0 < q < U64_MOD;
  ow_entry : exists e, find_entry s v = Some e
    ∧ forall i p, e_processes e !! i = Some p -> p_ack_pending_seq p = q <-> i ∈ P;
  ow_dom : forall i, i ∈ P -> (i < 64)%nat;
  ow_seq : cmd_seq (st_swap_cmd s) = q;
  ow_ref : cmd_refcount (st_swap_cmd s) = Z.of_nat (size P);
  ow_done : cmd_completed (st_swap_cmd s) = bool_decide (P = ∅);
  ow_act : P <> ∅ -> cmd_action (st_swap_cmd s) = SWAP_ACTION_OUT;
}.

(** The store of the ack: the mark is cleared, and the count decremented when
    the slot owed the command. *)
Definition clear_mark (v i : Z) (p : process_entry) (s : shm_state) : shm_state := put_process v i (set_p_ack 0 p) s.
Definition decr_ref (s : shm_state) : shm_state :=
  set_st_cmds (set_cmd_refcount (i32 (cmd_refcount (st_swap_cmd s) - 1)) (st_swap_cmd s)) (st_swap_out_cmd s) s.

(** * The interleaved end of an ack

    [swap_cmd_finish_if_epoch] and [shm_ack_swap_cmd] as the single loads and
    stores that they perform on the shared state. *)

Inductive rt_pc := RtSeq | RtAction | RtScan | RtSeqAgain | RtStoreCompleted | RtStoreAction | RtStoreOut | RtDone.

Definition rt_exec (v q : Z) (s : shm_state) (pc : rt_pc) : option (shm_state * rt_pc) :=
  let c := st_swap_cmd s in
  let o := st_swap_out_cmd s in
  match pc with
  | RtSeq => Some (s, if cmd_seq c =? q then RtAction else RtDone)
  | RtAction => Some (s, if cmd_action c =? SWAP_ACTION_OUT then RtScan else RtDone)
  | RtScan => done ← shm_swap_ack_done s v q; Some (s, if (done : bool) then RtSeqAgain else RtDone)
  | RtSeqAgain => Some (s, if cmd_seq c =? q then RtStoreCompleted else RtDone)
  | RtStoreCompleted => Some (set_st_cmds (set_cmd_completed true c) o s, RtStoreAction)
  | RtStoreAction => Some (set_st_cmds (set_cmd_action SWAP_ACTION_NONE c) o s, RtStoreOut)
  | RtStoreOut =>
      Some (set_st_cmds c (if cmd_target_vnpu_id c =? out_target_vnpu_id o then set_out_completed true o else o) s, RtDone)
  | RtDone => Some (s, RtDone)
  end.

(** One process in that code, against the manager: the watchdog completes a
    command that nobody owes, the resolver issues the next one once the
    current one is completed. *)
Inductive race_step `{SC : Securec} (phy v q : Z) : shm_manager * rt_pc -> shm_manager * rt_pc -> Prop :=
  | race_rt m s pc s' pc' :
      shm_manager_get_state m phy = Some s -> rt_exec v q s pc = Some (s', pc') ->
      race_step phy v q (m, pc) (set_state phy s' m, pc')
  | race_watchdog m pc rc m' :
      shm_manager_try_complete_swap_cmd m phy = Some (rc, m') -> race_step phy v q (m, pc) (m', pc)
  | race_resolver m s pc pod v' flag now m' :
      shm_manager_get_state m phy = Some s -> cmd_completed (st_swap_cmd s) = true ->
      shm_manager_write_swap_cmd m phy pod v' SWAP_ACTION_OUT flag now = Some (ENPU_SUCCESS, m') ->
      race_step phy v q (m, pc) (m', pc).

(** * Slots *)

Lemma elem_of_active_slots ps i : i ∈ active_slots ps <-> exists p, ps !! i = Some p ∧ p_active p = true.
Proof.
  unfold active_slots. rewrite elem_of_list_to_set, list_elem_of_fmap. split.
  - intros ([j p] & -> & H). apply list_elem_of_filter in H as [Ha H]. apply elem_of_lookup_imap in H as (j' & p' & [= -> ->] & H).
    exists p'. split; [done|]. by apply Is_true_true.
  - intros (p & H & Ha). exists (i, p). split; [done|]. apply list_elem_of_filter. split; [by apply Is_true_true|].
    apply elem_of_lookup_imap. eauto.
Qed.

Lemma size_active_slots ps : size (active_slots ps) = active_count ps.
Proof.
  unfold active_slots, active_count. rewrite size_list_to_set.
  - rewrite length_fmap.
    enough (H : forall (k : nat), length (filter (fun ip : nat * process_entry => Is_true (p_active ip.2)) (imap (fun i p => ((k + i)%nat, p)) ps))
                         = length (filter (fun p => Is_true (p_active p)) ps)) by exact (H 0%nat).
    induction ps as [|p ps IH]; intros k; [done|]. rewrite imap_cons, !filter_cons. simpl.
    assert (E : imap ((fun i p => ((k + i)%nat, p)) ∘ S) ps = imap (fun i p => ((S k + i)%nat, p)) ps)
      by (apply imap_ext; intros; simpl; f_equal; lia).
    rewrite E. destruct (decide (Is_true (p_active p))); cbn [length]; by rewrite (IH (S k)).
  - apply NoDup_fmap_fst.
    + intros i p1 p2 [_ H1]%list_elem_of_filter [_ H2]%list_elem_of_filter.
      apply elem_of_lookup_imap in H1 as (? & ? & [= <- <-] & H1). apply elem_of_lookup_imap in H2 as (? & ? & [= <- <-] & H2). congruence.
    + apply NoDup_filter. apply NoDup_alt. intros i j [a b]. rewrite !list_lookup_imap.
      intros (? & ? & [= <- <-])%fmap_Some (? & ? & [= <- <-])%fmap_Some. done.
Qed.

(** * One ack *)

Lemma owes_size s v q P : Owes s v q P -> (size P <= 64)%nat.
Proof.
  intros H. assert (P ⊆ set_seq 0 64) as Hsub by (intros i Hi; apply elem_of_set_seq; pose proof (ow_dom _ _ _ _ H i Hi); lia).
  apply subseteq_size in Hsub. rewrite size_set_seq in Hsub. done.
Qed.

(** What is left to wait for after the mark of a slot is cleared. *)
Lemma pending_spec s v q P : Owes s v q P -> swap_cmd_has_pending_ack_locked s v q = negb (bool_decide (P = ∅)).
Proof.
  intros H. destruct (ow_entry _ _ _ _ H) as (e & He & Hm). unfold swap_cmd_has_pending_ack_locked. rewrite He.
  destruct (find_entry_at _ _ _ He) as (_ & _ & Hat). pose proof (entry_at_entry_wf _ _ _ (ow_wf _ _ _ _ H) Hat) as Hlen.
  case_bool_decide as HP; simpl.
  - subst P. apply not_true_iff_false. rewrite existsb_exists. intros (p & Hp & Hq%Z.eqb_eq).
    apply list_elem_of_In, list_elem_of_lookup in Hp as [i Hi]. apply (Hm i p Hi) in Hq. set_solver.
  - apply set_choose_L in HP as [i Hi]. pose proof (ow_dom _ _ _ _ H i Hi).
    destruct (lookup_lt_is_Some_2 (e_processes e) i) as [p Hp]; [rewrite Hlen; lia|].
    apply existsb_exists. exists p. split; [apply list_elem_of_In, list_elem_of_lookup; eauto|].
    apply Z.eqb_eq. by apply (Hm i p Hp).
Qed.

Lemma clear_mark_marks s v q P i p :
  Owes s v q P -> 0 <= i < 64 -> process_at s v i = Some p ->
  exists e, find_entry (clear_mark v i p s) v = Some e
    ∧ (forall j p, e_processes e !! j = Some p -> p_ack_pending_seq p = q <-> j ∈ P ∖ {[Z.to_nat i]})
    ∧ (p_ack_pending_seq p = q <-> Z.to_nat i ∈ P).
Proof.
  intros H Hi Hp. destruct (ow_entry _ _ _ _ H) as (e & He & Hm). pose proof (ow_wf _ _ _ _ H) as Hwf.
  destruct (find_entry_at _ _ _ He) as (_ & _ & Hat). pose proof (entry_at_entry_wf _ _ _ Hwf Hat) as Hlen.
  destruct (process_at_wf s v e i Hwf Hat Hi) as (p' & Hp' & Hl). rewrite Hp in Hp'. injection Hp' as <-.
  exists (set_e_processes (<[Z.to_nat i := set_p_ack 0 p]> (e_processes e)) e). unfold clear_mark.
  rewrite (put_process_eq s v e), (find_entry_put s v e) by done. rewrite decide_True by done. split; [done|]. split; [|by apply Hm].
  intros j pj Hj. simpl in Hj. destruct (decide (j = Z.to_nat i)) as [->|Hne].
  - rewrite list_lookup_insert_eq in Hj by (rewrite Hlen; lia). injection Hj as <-. simpl.
    pose proof (ow_q _ _ _ _ H). split; [lia|set_solver].
  - rewrite list_lookup_insert_ne in Hj by done. rewrite (Hm j pj Hj). set_solver.
Qed.

Lemma set_cmds_find c o s v : find_entry (set_st_cmds c o s) v = find_entry s v.
Proof. reflexivity. Qed.

Lemma put_process_cmds v i p s : st_swap_cmd (put_process v i p s) = st_swap_cmd s ∧ st_swap_out_cmd (put_process v i p s) = st_swap_out_cmd s.
Proof. unfold put_process. by destruct (entry_at s v). Qed.

(** A slot that does not owe the command leaves the rest alone. *)
Lemma owes_not_member s v q P i p :
  Owes s v q P -> 0 <= i < 64 -> process_at s v i = Some p -> p_ack_pending_seq p <> q ->
  Owes (clear_mark v i p s) v q (P ∖ {[Z.to_nat i]}).
Proof.
  intros H Hi Hp Hne. destruct (clear_mark_marks s v q P i p H Hi Hp) as (e & He & Hm & Hiff).
  assert (P ∖ {[Z.to_nat i]} = P) as EP by (apply set_eq; intros j; rewrite elem_of_difference, elem_of_singleton; naive_solver).
  rewrite EP in *. destruct (put_process_cmds v i (set_p_ack 0 p) s) as [Ec Eo]. destruct H.
  unfold clear_mark in *. constructor; rewrite ?Ec; try done; [eauto with enpu|by exists e].
Qed.

(** A slot that owes it is taken out of the set; the command is completed
    when it was the last one. *)
Lemma owes_member s v q P i p :
  Owes s v q P -> 0 <= i < 64 -> process_at s v i = Some p -> p_ack_pending_seq p = q ->
  let s2 := decr_ref (clear_mark v i p s) in
  let P' := P ∖ {[Z.to_nat i]} in
  swap_cmd_has_pending_ack_locked s2 v q = negb (bool_decide (P' = ∅))
  ∧ Owes (if swap_cmd_has_pending_ack_locked s2 v q then s2 else swap_cmd_mark_completed_locked s2) v q P'.
Proof.
  intros H Hi Hp Hq s2 P'. destruct (clear_mark_marks s v q P i p H Hi Hp) as (e & He & Hm & Hiff).
  assert (Hin : Z.to_nat i ∈ P) by by apply Hiff.
  assert (Hsz : size P = S (size P')).
  { unfold P'. rewrite size_difference by set_solver. rewrite size_singleton.
    assert (size P <> 0%nat) by (intros E0; apply size_empty_inv in E0; set_solver). lia. }
  pose proof (owes_size _ _ _ _ H) as Hle.
  destruct (put_process_cmds v i (set_p_ack 0 p) s) as [Ec Eo].
  assert (Eref : cmd_refcount (st_swap_cmd s2) = Z.of_nat (size P')).
  { unfold s2, decr_ref, clear_mark. simpl. rewrite Ec, (ow_ref _ _ _ _ H), Hsz. rewrite i32_small; unfold is_i32, I32_HALF; lia. }
  assert (Hpend : swap_cmd_has_pending_ack_locked s2 v q = negb (bool_decide (P' = ∅))).
  { (* the marks of the new entry, read as in [pending_spec] *)
    assert (Howe : Owes (set_st_cmds (mk_swap_cmd EmptyString 0 SWAP_ACTION_OUT (bool_decide (P' = ∅)) (Z.of_nat (size P')) q 0)
                           (st_swap_out_cmd s2) s2) v q P').
    { destruct H. constructor; simpl; try done; [|by exists e|intros j Hj; apply ow_dom0; set_solver].
      apply set_cmds_wf. unfold s2, decr_ref, clear_mark. eauto with enpu. }
    exact (pending_spec _ _ _ _ Howe). }
  split; [done|]. rewrite Hpend. case_bool_decide as HP'; cbn [negb].
  - destruct H. constructor; try (simpl; unfold clear_mark; rewrite ?Ec; done); [|by exists e|intros j Hj; set_solver|exact Eref|by rewrite bool_decide_eq_true_2].
    unfold swap_cmd_mark_completed_locked, s2, decr_ref, clear_mark. eauto with enpu.
  - assert (HP : P <> ∅) by set_solver. pose proof (ow_act _ _ _ _ H HP) as Hact. pose proof (ow_done _ _ _ _ H) as Hd.
    rewrite bool_decide_eq_false_2 in Hd by done.
    destruct H. constructor; try (simpl; unfold clear_mark; rewrite ?Ec; done); [|by exists e|intros j Hj; apply ow_dom0; set_solver|exact Eref|simpl; unfold clear_mark; by rewrite Ec, bool_decide_eq_false_2].
    unfold s2, decr_ref, clear_mark. eauto with enpu.
Qed.

Lemma ack_done_spec s v q e :
  find_entry s v = Some e -> q <> 0 -> shm_swap_ack_done s v q = Some (negb (swap_cmd_has_pending_ack_locked s v q)).
Proof.
  intros He Hq. destruct (find_entry_at _ _ _ He) as (Hv & _ & Hat). unfold shm_swap_ack_done, swap_cmd_has_pending_ack_locked.
  by rewrite (proj2 (in_die_spec v) Hv), (proj2 (Z.eqb_neq q 0) Hq), He, Hat.
Qed.

(** The ack of a process, and the ack of the watchdog. *)
Lemma try_ack_owes s v q P i :
  Owes s v q P -> 0 <= i < 64 -> exists r s', shm_try_ack_swap_cmd s v i q = Some (r, s') ∧ Owes s' v q (P ∖ {[Z.to_nat i]}).
Proof.
  intros H Hi. destruct (ow_entry _ _ _ _ H) as (e & He & _). destruct (find_entry_at _ _ _ He) as (Hv & _ & Hat).
  destruct (process_at_wf s v e i (ow_wf _ _ _ _ H) Hat Hi) as (p & Hp & _). pose proof (ow_q _ _ _ _ H) as Hq.
  unfold shm_try_ack_swap_cmd. rewrite (proj2 (in_die_spec v) Hv), (proj2 (slot_range_spec i) Hi), (proj2 (Z.eqb_neq q 0)) by lia.
  cbn [negb orb]. rewrite Hp. cbn [mbind option_bind]. fold (clear_mark v i p s). fold (decr_ref (clear_mark v i p s)).
  destruct (Z.eqb_spec (p_ack_pending_seq p) q) as [E|E]; cbn [negb]; [|eexists _, _; split; [done|by apply owes_not_member]].
  destruct (owes_member s v q P i p H Hi Hp E) as [Hpend Howe]. set (s2 := decr_ref (clear_mark v i p s)) in *.
  assert (HP : P <> ∅) by (destruct (clear_mark_marks s v q P i p H Hi Hp) as (? & ? & ? & Hiff); apply Hiff in E; set_solver).
  assert (Eact : cmd_action (st_swap_cmd s2) = SWAP_ACTION_OUT ∧ cmd_seq (st_swap_cmd s2) = q).
  { unfold s2, decr_ref, clear_mark. simpl. destruct (put_process_cmds v i (set_p_ack 0 p) s) as [-> _].
    split; [by apply (ow_act _ _ _ _ H)|apply (ow_seq _ _ _ _ H)]. }
  destruct Eact as [Eact Eseq].
  destruct (clear_mark_marks s v q P i p H Hi Hp) as (e2 & He2 & _ & _).
  unfold swap_cmd_finish_if_epoch. rewrite Eseq, Eact, Z.eqb_refl. cbn [negb Z.eqb].
  rewrite (ack_done_spec s2 v q e2) by (done || lia). cbn [mbind option_bind negb].
  destruct (swap_cmd_has_pending_ack_locked s2 v q); cbn [negb mbind option_bind]; eexists _, _; by split.
Qed.

Lemma proxy_ack_owes m phy s v q P i :
  shm_manager_get_state m phy = Some s -> Owes s v q P -> 0 <= i < 64 ->
  exists s', shm_manager_proxy_ack_process m phy v i = Some (ENPU_SUCCESS, set_state phy s' m) ∧ Owes s' v q (P ∖ {[Z.to_nat i]}).
Proof.
  intros Hs H Hi. destruct (ow_entry _ _ _ _ H) as (e & He & Hm). destruct (find_entry_at _ _ _ He) as (Hv & _ & Hat).
  destruct (process_at_wf s v e i (ow_wf _ _ _ _ H) Hat Hi) as (p & Hp & Hl). pose proof (ow_q _ _ _ _ H) as Hq.
  pose proof (get_state_range _ _ _ Hs). unfold shm_manager_proxy_ack_process.
  rewrite (proj2 (Z.ltb_ge phy 0)), (proj2 (in_die_spec v) Hv), (proj2 (slot_range_spec i) Hi) by lia. cbn [negb orb].
  rewrite (with_state_eq m phy s) by done.
  destruct (Z.eqb_spec (cmd_action (st_swap_cmd s)) SWAP_ACTION_OUT) as [Ea|Ea]; cbn [negb].
  2:{ assert (P = ∅) as -> by (destruct (decide (P = ∅)) as [|HP]; [done|]; by apply (ow_act _ _ _ _ H) in HP).
      exists s. split; [done|]. by replace (∅ ∖ {[Z.to_nat i]}) with (∅ : gset nat) by set_solver. }
  rewrite (ow_seq _ _ _ _ H), (proj2 (Z.eqb_neq q 0)) by lia. rewrite Hp. cbn [mbind option_bind].
  fold (clear_mark v i p s). fold (decr_ref (clear_mark v i p s)).
  destruct (Z.eqb_spec (p_ack_pending_seq p) q) as [E|E]; cbn [negb].
  - destruct (owes_member s v q P i p H Hi Hp E) as [_ Howe]. eexists. by split; [done|].
  - eexists. split; [done|]. by apply owes_not_member.
Qed.

Lemma run_acks_owes m phy s v q P l :
  mgr_wf m -> shm_manager_get_state m phy = Some s -> Owes s v q P -> Forall (fun a => 0 <= ack_slot a < 64) l ->
  exists m' s', run_acks m phy v q l = Some m' ∧ mgr_wf m' ∧ shm_manager_get_state m' phy = Some s'
    ∧ Owes s' v q (P ∖ list_to_set (Z.to_nat ∘ ack_slot <$> l)).
Proof.
  intros Hwf Hs H Hl. revert m s P Hwf Hs H. induction Hl as [|a l Ha Hl IH]; intros m s P Hwf Hs H; cbn [run_acks].
  - exists m, s. split_and!; try done. by replace (P ∖ list_to_set _) with P by set_solver.
  - assert (exists s1, ack_step m phy v q a = Some (set_state phy s1 m) ∧ Owes s1 v q (P ∖ {[Z.to_nat (ack_slot a)]})) as (s1 & -> & H1).
    { destruct a as [i|i]; simpl in *.
      - destruct (try_ack_owes s v q P i H Ha) as (r & s1 & E & H1). exists s1. rewrite Hs. simpl. by rewrite E.
      - destruct (proxy_ack_owes m phy s v q P i Hs H Ha) as (s1 & E & H1). exists s1. by rewrite E. }
    pose proof (get_state_range _ _ _ Hs) as Hp. cbn [mbind option_bind].
    destruct (IH (set_state phy s1 m) s1 (P ∖ {[Z.to_nat (ack_slot a)]})) as (m' & s' & E & Hm' & Hs' & H').
    + apply set_state_wf; [done..|apply (ow_wf _ _ _ _ H1)].
    + rewrite get_state_set by (done || apply (wf_states _ Hwf)). by rewrite decide_True.
    + done.
    + exists m', s'. split_and!; try done. rewrite fmap_cons, list_to_set_cons.
      by replace (P ∖ ({[_]} ∪ _)) with (P ∖ {[Z.to_nat (ack_slot a)]} ∖ list_to_set (Z.to_nat ∘ ack_slot <$> l)) by set_solver.
Qed.

(** * Writing a command *)

Lemma write_out_owes `{SC : Securec} m phy s v e pod flag now :
  mgr_wf m -> shm_manager_get_state m phy = Some s -> find_entry s v = Some e -> (String.length pod < 64)%nat ->
  0 <= cmd_seq (st_swap_cmd s) < U64_MOD - 1 ->
  Forall (fun p => p_ack_pending_seq p <= cmd_seq (st_swap_cmd s)) (e_processes e) ->
  exists s', shm_manager_write_swap_cmd m phy pod v SWAP_ACTION_OUT flag now = Some (ENPU_SUCCESS, set_state phy s' m)
    ∧ Owes s' v (cmd_seq (st_swap_cmd s) + 1) (active_slots (e_processes e))
    ∧ forall w, find_entry s' w = if decide (w = v) then Some (set_e_processes (mark_ack (cmd_seq (st_swap_cmd s) + 1) <$> e_processes e) e)
                                  else find_entry s w.
Proof.
  intros Hwf Hs He Hpod Hseq Hold. destruct (find_entry_at _ _ _ He) as (Hv & Ht & Hat).
  pose proof (wf_state _ Hwf _ _ Hs) as Hsw. pose proof (entry_at_entry_wf _ _ _ Hsw Hat) as Hlen.
  unfold shm_manager_write_swap_cmd. rewrite (proj2 (in_die_spec v) Hv). simpl negb. cbn iota.
  change ((SWAP_ACTION_OUT <? SWAP_ACTION_NONE) || (SWAP_ACTION_IN <? SWAP_ACTION_OUT)) with false. cbn iota.
  rewrite (with_state_eq m phy s) by done. rewrite snprintf_s_fits by (unfold MAX_UUID_LEN; lia).
  rewrite (proj2 (Z.ltb_ge _ 0)) by lia. change (SWAP_ACTION_OUT =? SWAP_ACTION_OUT) with true. cbn iota.
  rewrite Hat. cbn [mbind option_bind]. rewrite u64_small by (unfold is_u64; lia). set (q := cmd_seq (st_swap_cmd s) + 1).
  eexists. split; [done|]. set (es := set_e_processes _ e).
  assert (Hmarks : forall i p, e_processes es !! i = Some p -> p_ack_pending_seq p = q <-> i ∈ active_slots (e_processes e)).
  { intros i p Hp. unfold es in Hp. simpl in Hp. rewrite list_lookup_fmap in Hp. apply fmap_Some in Hp as (p0 & Hp0 & ->).
    rewrite elem_of_active_slots. unfold mark_ack. destruct (p_active p0) eqn:Ea; simpl.
    - split; [intros _; by exists p0|done].
    - pose proof (Forall_lookup_1 _ _ _ _ Hold Hp0) as Hle. simpl in Hle. split; [unfold q; lia|].
      intros (p1 & H1 & H2). congruence. }
  split; [|intros w; by rewrite set_cmds_find, (find_entry_put s v e)].
  constructor; try (simpl; lia || done).
  - apply set_cmds_wf, put_entry_wf; [done|]. unfold es, entry_wf. simpl. by rewrite length_fmap.
  - exists es. split; [|done]. rewrite set_cmds_find, (find_entry_put s v e) by done. by rewrite decide_True.
  - intros i (p & Hp & _)%elem_of_active_slots. apply lookup_lt_Some in Hp. by rewrite Hlen in Hp.
  - simpl. by rewrite size_active_slots.
  - simpl. rewrite <- size_active_slots. case_bool_decide as HP.
    + by rewrite HP, size_empty.
    + apply Z.eqb_neq. intros E. apply HP. apply leibniz_equiv, size_empty_inv. lia.
Qed.
