(* ===== verification/ShmThms.v ===== *)
(** Properties of the shared-memory manager and of the swap-out protocol. *)

From S2P Require Import Prelude CLib SwapTlsf ShmManager ShmFacts RtShm SwapProtocol.

(** A die with the vNPU 3 and two registered processes. *)
Definition demo_entry (v : Z) : vnpu_shm_entry := mk_entry v 1024 2048 0 SCHED_POLICY_ELASTIC true SWAP_PRIORITY_MEDIUM processes0.
Definition demo_die : shm_manager :=
  let '(_, _, m, _) := shm_manager_get_or_create_shm (SC := securec_ref) shm_os_fine shm_manager_create ∅ 0 "die0" 64 in
  default m (snd <$> shm_manager_add_entry m 0 (demo_entry 3)).
Definition demo_register (pid : Z) (m : shm_manager) : shm_manager :=
  default m (s ← shm_manager_get_state m 0; '(_, _, s') ← register_to_shm_state pid 1 s 3; Some (set_state 0 s' m)).
Definition demo_shm : shm_manager := demo_register 101 (demo_register 100 demo_die).
Definition demo_state : shm_state := default (state_new 0 "die0") (shm_manager_get_state demo_shm 0).

(** The command 1 has been written and its only process has cleared its mark,
    before it looks whether the command is complete. *)
Definition race_start : shm_manager :=
  default demo_die
    ('(_, m) ← shm_manager_write_swap_cmd (SC := securec_ref) (demo_register 100 demo_die) 0 "pod-idle" 3 SWAP_ACTION_OUT 0 7;
     s ← shm_manager_get_state m 0; p ← process_at s 3 0;
     Some (set_state 0 (decr_ref (clear_mark 3 0 p s)) m)).

Lemma demo_shm_wf : mgr_wf demo_shm.
Proof. apply mgr_wfb_sound. vm_compute. reflexivity. Qed.

Lemma add_entry_refines m phy e :
  mgr_wf m -> is_Some (shm_manager_get_state m phy) -> 0 <= e_vnpu_id e < 128 -> entry_wf e ->
  exists rc m', shm_manager_add_entry m phy e = Some (rc, m') ∧ mgr_wf m'
    ∧ rc = match die_map m phy (e_vnpu_id e) with Some _ => ENPU_ALREADY_EXISTS | None => ENPU_SUCCESS end
    ∧ forall phy' v, die_map m' phy' v
        = if decide (rc = ENPU_SUCCESS ∧ phy' = phy ∧ v = e_vnpu_id e) then Some e else die_map m phy' v.
Proof.
  intros Hwf [s Hs] Hv He. pose proof (wf_state _ Hwf _ _ Hs) as Hsw. pose proof (get_state_range _ _ _ Hs) as Hp.
  rewrite (add_entry_eq m phy s e) by done. unfold die_map at 1. rewrite Hs. cbn [mbind option_bind].
  destruct (vnpu_bitmap_test (st_bitmap s) (e_vnpu_id e)) eqn:Et.
  - pose proof Et as [e0 ->]%find_entry_is_Some; [|done]. eexists _, _. split_and!; [done..|].
    intros phy' v. rewrite decide_False; [done|]. by intros [? _].
  - destruct (find_entry s (e_vnpu_id e)) as [e0|] eqn:Ef.
    { exfalso. assert (is_Some (find_entry s (e_vnpu_id e))) as H by by rewrite Ef. apply find_entry_is_Some in H; [congruence|done]. }
    eexists _, _. split_and!; [done|apply set_state_wf; [done..|by apply add_vnpu_wf]|done|].
    intros phy' v. rewrite die_map_set by done. destruct (decide (phy' = phy)) as [->|Hne].
    + unfold add_vnpu. rewrite find_entry_add by done. unfold die_map. rewrite Hs. simpl.
      destruct (decide (v = e_vnpu_id e)); [by rewrite decide_True|]. by rewrite decide_False by naive_solver.
    + by rewrite decide_False by naive_solver.
Qed.

Lemma remove_entry_refines m phy v :
  mgr_wf m -> is_Some (shm_manager_get_state m phy) -> 0 <= v < 128 ->
  exists rc m', shm_manager_remove_entry m phy v = Some (rc, m') ∧ mgr_wf m'
    ∧ rc = match die_map m phy v with Some _ => ENPU_SUCCESS | None => ENPU_NOT_FOUND end
    ∧ forall phy' w, die_map m' phy' w = if decide (phy' = phy ∧ w = v) then None else die_map m phy' w.
Proof.
  intros Hwf [s Hs] Hv. pose proof (wf_state _ Hwf _ _ Hs) as Hsw. pose proof (get_state_range _ _ _ Hs) as Hp.
  destruct (entry_at_wf s v Hsw Hv) as (e & He & Hew).
  rewrite (remove_entry_eq m phy s v e) by done. unfold die_map at 1. rewrite Hs. cbn [mbind option_bind].
  destruct (vnpu_bitmap_test (st_bitmap s) v) eqn:Et.
  - pose proof Et as [e0 ->]%find_entry_is_Some; [|done].
    eexists _, _. split_and!; [done|apply set_state_wf; [done..|by apply drop_vnpu_wf]|done|].
    intros phy' w. rewrite die_map_set by done. destruct (decide (phy' = phy)) as [->|Hne].
    + unfold drop_vnpu. rewrite find_entry_remove by done. unfold die_map. rewrite Hs. simpl.
      destruct (decide (w = v)); [by rewrite decide_True|]. by rewrite decide_False by naive_solver.
    + by rewrite decide_False by naive_solver.
  - destruct (find_entry s v) as [e0|] eqn:Ef.
    { exfalso. assert (is_Some (find_entry s v)) as H by by rewrite Ef. apply find_entry_is_Some in H; [congruence|done]. }
    eexists _, _. split_and!; [done..|]. intros phy' w. destruct (decide (phy' = phy ∧ w = v)) as [[-> ->]|]; [|done].
    unfold die_map. by rewrite Hs.
Qed.

(** * Properties *)

(** C23. The bitmap and the entry array of the dies implement a finite map from
    (die, vNPU id) to entries: adding an entry inserts it and is refused
    exactly when the id is taken, removing one deletes it and is refused
    exactly when there is none, both leave every other vNPU of every die alone
    and never access an array out of its bounds. *)
Theorem shm_entries_refine_map m phy e v :
  mgr_wf m -> is_Some (shm_manager_get_state m phy) -> 0 <= e_vnpu_id e < 128 -> entry_wf e -> 0 <= v < 128 ->
  (exists rc m', shm_manager_add_entry m phy e = Some (rc, m') ∧ mgr_wf m'
     ∧ rc = match die_map m phy (e_vnpu_id e) with Some _ => ENPU_ALREADY_EXISTS | None => ENPU_SUCCESS end
     ∧ forall phy' w, die_map m' phy' w
         = if decide (rc = ENPU_SUCCESS ∧ phy' = phy ∧ w = e_vnpu_id e) then Some e else die_map m phy' w)
  ∧ (exists rc m', shm_manager_remove_entry m phy v = Some (rc, m') ∧ mgr_wf m'
     ∧ rc = match die_map m phy v with Some _ => ENPU_SUCCESS | None => ENPU_NOT_FOUND end
     ∧ forall phy' w, die_map m' phy' w = if decide (phy' = phy ∧ w = v) then None else die_map m phy' w).
Proof. intros Hwf Hs He Hew Hv. split; [by apply add_entry_refines|by apply remove_entry_refines]. Qed.

Lemma shm_entries_refine_map_witness :
  (exists m', shm_manager_add_entry demo_shm 0 (demo_entry 100) = Some (ENPU_SUCCESS, m') ∧ die_map m' 0 100 = Some (demo_entry 100))
  ∧ exists m', shm_manager_remove_entry demo_shm 0 3 = Some (ENPU_SUCCESS, m') ∧ die_map m' 0 3 = None.
Proof.
  destruct (shm_entries_refine_map demo_shm 0 (demo_entry 100) 3 demo_shm_wf) as [(rc & m' & E & _ & -> & H) (rc2 & m2 & E2 & _ & -> & H2)].
  - vm_compute. by eexists.
  - vm_compute. by split.
  - reflexivity.
  - by split.
  - split; [exists m'|exists m2]; (split; [exact E || exact E2|]); rewrite H || rewrite H2; rewrite decide_True; done.
Defined.



(** A late ack completes a command it does not belong to.  A process that
    has cleared its mark and has checked that the epoch is still its own can
    be overtaken by the watchdog, which completes the command, and by the
    resolver, which issues the next one: the process then marks the new
    command as completed and erases its action, while the processes of that
    command still owe their acks. *)
Theorem late_ack_loses_command :
  exists m s, rtc (race_step (SC := securec_ref) 0 3 1) (race_start, RtSeq) (m, RtDone)
    ∧ shm_manager_get_state m 0 = Some s ∧ cmd_seq (st_swap_cmd s) = 2
    ∧ swap_cmd_has_pending_ack_locked s 3 2 = true
    ∧ cmd_completed (st_swap_cmd s) = true ∧ cmd_action (st_swap_cmd s) = SWAP_ACTION_NONE.
Proof.
  eexists _, _. split.
  { do 4 (eapply rtc_l; [eapply race_rt; vm_compute; reflexivity|]).
    eapply rtc_l; [eapply race_watchdog; vm_compute; reflexivity|].
    eapply rtc_l; [eapply (race_resolver _ _ _ _ _ _ "pod-idle" 3 0 8); vm_compute; reflexivity|].
    do 3 (eapply rtc_l; [eapply race_rt; vm_compute; reflexivity|]).
    apply rtc_refl. }
  vm_compute. repeat split.
Qed.
