(* ===== verification/RollbackLog.v ===== *)
(** The allocator's state (enpu-manager/core/internal/npu_allocator_internal.h)
    and its rollback log (enpu-manager/core/src/rollback_log.c).

    [a_files], [a_names] and [a_tlsf] are the state outside the struct that
    the allocator works on: the configuration files, the names of the shared
    state objects and the swap buffer.  The configuration manager is its base
    path. *)

From S2P Require Import Prelude CLib SwapTlsf NpuTree Evaluator Registry ConfigManager ShmManager.

Definition MAX_STEPS : Z := 16.

Inductive rollback_step_type :=
  | STEP_MARK_OCCUPIED
  | STEP_UPDATE_QUOTA
  | STEP_ATTACH_POLICY
  | STEP_CREATE_SHM
  | STEP_WRITE_CONFIG
  | STEP_SAVE_CHECKPOINT.

Record rollback_step := mk_step {
  rs_type : rollback_step_type;
  rs_phy_id : Z;
  rs_vnpu_id : Z;
  rs_aicore_delta : Z;
  rs_hbm_delta : Z;
  rs_sched_policy : Z;
  rs_pod_uid : string;
  rs_container_name : string;
  rs_shm_id : string;
}.

(** The used part of the array [steps]. *)
Abbreviation rollback_log := (list rollback_step).

Section allocator.
  Context {S : Type}.

Record npu_allocator := mk_allocator {
  a_tree : npu_tree;
  a_config_base : string;
  a_files : files;
  a_shm : shm_manager;
  a_names : gset string;
  a_tlsf : TLSFManager;
  a_registry : allocation_registry S;
  a_log : rollback_log;
  a_evaluators : list string;
  a_evaluator_name : string;
  a_strategy : share_strategy;
  a_oversub : list double;
}.

Definition set_a_tree (t : npu_tree) (a : npu_allocator) : npu_allocator :=
  mk_allocator t (a_config_base a) (a_files a) (a_shm a) (a_names a) (a_tlsf a) (a_registry a) (a_log a)
    (a_evaluators a) (a_evaluator_name a) (a_strategy a) (a_oversub a).
Definition set_a_files (f : files) (a : npu_allocator) : npu_allocator :=
  mk_allocator (a_tree a) (a_config_base a) f (a_shm a) (a_names a) (a_tlsf a) (a_registry a) (a_log a)
    (a_evaluators a) (a_evaluator_name a) (a_strategy a) (a_oversub a).
Definition set_a_shm (m : shm_manager) (a : npu_allocator) : npu_allocator :=
  mk_allocator (a_tree a) (a_config_base a) (a_files a) m (a_names a) (a_tlsf a) (a_registry a) (a_log a)
    (a_evaluators a) (a_evaluator_name a) (a_strategy a) (a_oversub a).
Definition set_a_names (n : gset string) (a : npu_allocator) : npu_allocator :=
  mk_allocator (a_tree a) (a_config_base a) (a_files a) (a_shm a) n (a_tlsf a) (a_registry a) (a_log a)
    (a_evaluators a) (a_evaluator_name a) (a_strategy a) (a_oversub a).
Definition set_a_tlsf (t : TLSFManager) (a : npu_allocator) : npu_allocator :=
  mk_allocator (a_tree a) (a_config_base a) (a_files a) (a_shm a) (a_names a) t (a_registry a) (a_log a)
    (a_evaluators a) (a_evaluator_name a) (a_strategy a) (a_oversub a).
Definition set_a_registry (r : allocation_registry S) (a : npu_allocator) : npu_allocator :=
  mk_allocator (a_tree a) (a_config_base a) (a_files a) (a_shm a) (a_names a) (a_tlsf a) r (a_log a)
    (a_evaluators a) (a_evaluator_name a) (a_strategy a) (a_oversub a).
Definition set_a_log (l : rollback_log) (a : npu_allocator) : npu_allocator :=
  mk_allocator (a_tree a) (a_config_base a) (a_files a) (a_shm a) (a_names a) (a_tlsf a) (a_registry a) l
    (a_evaluators a) (a_evaluator_name a) (a_strategy a) (a_oversub a).

(** * Appending *)

Definition rollback_log_append `{SC : Securec} (log : rollback_log) (ty : rollback_step_type)
    (phy_id vnpu_id aicore_delta hbm_delta sched_policy : Z) (pod_uid container_name shm_id : string) : Z * rollback_log :=
  if MAX_STEPS <=? Z.of_nat (length log) then (ENPU_FAIL, log)
  else
    let '(r1, p) := strncpy_s (Z.to_nat MAX_UUID_LEN) pod_uid (Z.to_nat (MAX_UUID_LEN - 1)) in
    if negb (r1 =? 0) then (ENPU_FAIL, log)
    else
      let '(r2, c) := strncpy_s (Z.to_nat MAX_NAME_LEN) container_name (Z.to_nat (MAX_NAME_LEN - 1)) in
      if negb (r2 =? 0) then (ENPU_FAIL, log)
      else
        let '(r3, s) := strncpy_s (Z.to_nat SHM_ID_LEN) shm_id (Z.to_nat (SHM_ID_LEN - 1)) in
        if negb (r3 =? 0) then (ENPU_FAIL, log)
        else (ENPU_SUCCESS, log ++ [mk_step ty phy_id vnpu_id aicore_delta hbm_delta sched_policy p c s]).

(** * Undoing one step *)

(** An operation of the tree on the allocator. *)
Definition on_tree (a : npu_allocator) (r : option (Z * npu_tree)) : option (Z * npu_allocator) :=
  '(rc, t) ← r; Some (rc, set_a_tree t a).

Definition rollback_mark_occupied (a : npu_allocator) (step : rollback_step) (node : option nat) : option (Z * npu_allocator) :=
  match node with
  | None => Some (ENPU_NOT_FOUND, a)
  | Some _ => on_tree a (npu_tree_mark_vnpu_free (a_tree a) node (rs_vnpu_id step))
  end.

(** The negations are those of [int32_t] and [int64_t]. *)
Definition rollback_update_quota (a : npu_allocator) (step : rollback_step) (node : option nat) : option (Z * npu_allocator) :=
  match node with
  | None => Some (ENPU_NOT_FOUND, a)
  | Some _ =>
      if (rs_aicore_delta step =? - I32_HALF) || (rs_hbm_delta step =? INT64_MIN) then None
      else on_tree a (npu_tree_update_quota (a_tree a) node (- rs_aicore_delta step) (- rs_hbm_delta step))
  end.

Definition rollback_attach_policy (a : npu_allocator) (step : rollback_step) (node : option nat) : option (Z * npu_allocator) :=
  match node with
  | None => Some (ENPU_NOT_FOUND, a)
  | Some _ => on_tree a (npu_tree_detach_policy (a_tree a) node (rs_vnpu_id step))
  end.

Definition rollback_create_shm (a : npu_allocator) (step : rollback_step) : option (Z * npu_allocator) :=
  if str_empty (rs_shm_id step) then Some (ENPU_INVALID_PARAM, a)
  else '(rc, m) ← shm_manager_remove_entry (a_shm a) (rs_phy_id step) (rs_vnpu_id step); Some (rc, set_a_shm m a).

Definition rollback_write_config `{SC : Securec} (o : os) (a : npu_allocator) (step : rollback_step) : option (Z * npu_allocator) :=
  if str_empty (rs_pod_uid step) || str_empty (rs_container_name step) then Some (ENPU_INVALID_PARAM, a)
  else
    let '(rc, fs) := config_manager_delete_config o (a_config_base a) (a_files a) (rs_pod_uid step) (rs_container_name step) in
    Some (rc, set_a_files fs a).

Definition rollback_save_checkpoint `{!Storage S} (a : npu_allocator) (step : rollback_step) : option (Z * npu_allocator) :=
  if str_empty (rs_pod_uid step) || str_empty (rs_container_name step) then Some (ENPU_INVALID_PARAM, a)
  else
    let '(rc, r) := allocation_registry_release (a_registry a) (rs_pod_uid step) (rs_container_name step) in
    Some (rc, set_a_registry r a).

Definition rollback_one `{SC : Securec} `{!Storage S} (o : os) (a : npu_allocator) (step : rollback_step) : option (Z * npu_allocator) :=
  let node := npu_tree_get_leaf (a_tree a) (rs_phy_id step) in
  match rs_type step with
  | STEP_MARK_OCCUPIED => rollback_mark_occupied a step node
  | STEP_UPDATE_QUOTA => rollback_update_quota a step node
  | STEP_ATTACH_POLICY => rollback_attach_policy a step node
  | STEP_CREATE_SHM => rollback_create_shm a step
  | STEP_WRITE_CONFIG => rollback_write_config o a step
  | STEP_SAVE_CHECKPOINT => rollback_save_checkpoint a step
  end.

(** The loop over the steps, the last one first, with the number of failed
    ones. *)
Fixpoint rollback_loop `{SC : Securec} `{!Storage S} (o : os) (a : npu_allocator) (steps : list rollback_step) (failed : Z) :
    option (Z * npu_allocator) :=
  match steps with
  | [] => Some (failed, a)
  | step :: rest =>
      '(rc, a1) ← rollback_one o a step;
      rollback_loop o a1 rest (if rc =? ENPU_SUCCESS then failed else failed + 1)
  end.

Definition rollback_log_rollback `{SC : Securec} `{!Storage S} (o : os) (a : npu_allocator) : option (Z * npu_allocator) :=
  '(failed, a1) ← rollback_loop o a (reverse (a_log a)) 0;
  Some (if 0 <? failed then ENPU_FAIL else ENPU_SUCCESS, set_a_log [] a1).

End allocator.
Arguments npu_allocator S : clear implicits.
