(* ===== verification/Allocator.v ===== *)
(** The allocator (enpu-manager/core/src/npu_allocator.c).

    Each function of the source is one definition, the long
    [npu_allocator_allocate] one definition per phase, each calling the next.
    Error messages are kept as the data they are printed from ([alloc_msg]).
    The allocator's lock is held for the whole of each operation. *)

From stdpp Require Import pretty.
From S2P Require Import Prelude CLib SwapTlsf NpuTree Evaluator Registry ConfigManager ShmManager RollbackLog.

(** [struct alloc_request], the fields that the allocator reads. *)
Record alloc_request := mk_alloc_request {
  rq_pod_uid : string;
  rq_container_name : string;
  rq_aicore_quota : Z;
  rq_hbm_quota : Z;
  rq_hbm_limit : Z;
  rq_sched_policy : Z;
  rq_swap_priority : Z;
  rq_vnpu_priority : Z;
  rq_predicate_phy_id : Z;
}.

Inductive alloc_msg :=
  | MNone
  | MPriority (priority : Z)
  | MAicorePositive (quota : Z)
  | MAicoreLimit (quota : Z)
  | MFixedZero
  | MFixedOversub (req lim : Z)
  | MRequestAboveLimit (req lim policy : Z)
  | MBadPolicy (policy : Z)
  | MNoCard (phy_id : Z)
  | MExists (pod container : string) (phy_id vnpu_id : Z)
  | MNoEvaluator (quota : Z)
  | MOom
  | MNoNode
  | MEvaluator (msg : eval_msg) (name : string)
  | MCardInsufficient (phy_id : Z)
  | MBadVnpu (vnpu_id : Z)
  | MStep (step : rollback_step_type) (phy_id vnpu_id ret : Z).

Record alloc_response := mk_alloc_response {
  r_phy_id : Z;
  r_vnpu_id : Z;
  r_pod_uid : string;
  r_container_name : string;
  r_die_id : string;
  r_shm_id : string;
  r_aicore_quota : Z;
  r_hbm_quota : Z;
  r_hbm_limit : Z;
  r_sched_policy : Z;
  r_vnpu_priority : Z;
  r_minor_name : string;
  r_result : Z;
  r_error : alloc_msg;
}.
Definition alloc_response0 : alloc_response :=
  mk_alloc_response 0 0 EmptyString EmptyString EmptyString EmptyString 0 0 0 0 0 EmptyString 0 MNone.

Definition fail_resp (rc : Z) (msg : alloc_msg) (r : alloc_response) : alloc_response :=
  mk_alloc_response (r_phy_id r) (r_vnpu_id r) (r_pod_uid r) (r_container_name r) (r_die_id r) (r_shm_id r) (r_aicore_quota r)
    (r_hbm_quota r) (r_hbm_limit r) (r_sched_policy r) (r_vnpu_priority r) (r_minor_name r) rc msg.
Definition set_r_error (msg : alloc_msg) (r : alloc_response) : alloc_response := fail_resp (r_result r) msg r.
Definition set_r_shm_id (s : string) (r : alloc_response) : alloc_response :=
  mk_alloc_response (r_phy_id r) (r_vnpu_id r) (r_pod_uid r) (r_container_name r) (r_die_id r) s (r_aicore_quota r)
    (r_hbm_quota r) (r_hbm_limit r) (r_sched_policy r) (r_vnpu_priority r) (r_minor_name r) (r_result r) (r_error r).

Definition set_rq_names (pod container : string) (q : alloc_request) : alloc_request :=
  mk_alloc_request pod container (rq_aicore_quota q) (rq_hbm_quota q) (rq_hbm_limit q) (rq_sched_policy q)
    (rq_swap_priority q) (rq_vnpu_priority q) (rq_predicate_phy_id q).

(** The answers of the environment to one call. *)
Record alloc_env := mk_alloc_env {
  ae_nodes_ok : bool;
  ae_policy_ok : bool;
  ae_shm_os : shm_os;
  ae_libc : Z -> libc;
  ae_os : os;
  ae_malloc_ok : bool;
  ae_time : Z;
  ae_clock_ns : Z;
}.

Definition CHAR_BIT : Z := 8.
Definition vnpu_id_is_valid (v : Z) : bool := (0 <=? v) && (v <? 8 * CHAR_BIT) && (v <? MAX_VNPU_SCHED) && (v <? MAX_VNPU_PER_DIE).

(** [-(int64_t)x], undefined for [INT64_MIN]. *)
Definition neg_i64 (x : Z) : option Z := if i64 x =? INT64_MIN then None else Some (- i64 x).

(** The code, (request, limit) and the message. *)
Definition parse_hbm_request_limit (q : alloc_request) : Z * (Z * Z) * alloc_msg :=
  let user_req := rq_hbm_quota q in
  let user_lim := rq_hbm_limit q in
  let policy := rq_sched_policy q in
  if policy =? SCHED_POLICY_FIXED_SHARE then
    if user_req =? 0 then (ENPU_INVALID_PARAM, (0, 0), MFixedZero)
    else if negb (user_req =? user_lim) then (ENPU_INVALID_PARAM, (0, 0), MFixedOversub user_req user_lim)
    else (ENPU_SUCCESS, (user_req, user_lim), MNone)
  else if (policy =? SCHED_POLICY_ELASTIC) || (policy =? SCHED_POLICY_BEST_EFFORT) then
    if user_lim <? user_req then (ENPU_INVALID_PARAM, (0, 0), MRequestAboveLimit user_req user_lim policy)
    else (ENPU_SUCCESS, (user_req, user_lim), MNone)
  else (ENPU_INVALID_PARAM, (0, 0), MBadPolicy policy).

Definition share_strategy_from_str (s : string) : Z := if strncmp_eq 13 s "anti-fragment" then 1 else 0.

Definition build_shm_entry (vnpu_id hbm_request hbm_limit sched_policy swap_priority : Z) (swap_enabled : bool) : vnpu_shm_entry :=
  mk_entry vnpu_id hbm_request hbm_limit 0 sched_policy swap_enabled swap_priority processes0.

(** A store to a slot of the scheduling object. *)
Definition sched_store (f : sched_slot -> sched_slot) (vnpu_id : Z) (s : vnpu_time_slice_sched) : option vnpu_time_slice_sched :=
  if vnpu_id <? 0 then None
  else x ← sched_slots s !! Z.to_nat vnpu_id;
       Some (mk_sched (<[Z.to_nat vnpu_id := f x]> (sched_slots s)) (sched_owner s) (sched_magic_number s)
               (sched_slide_window_len s) (sched_last_slide_window_time_ns s)).
Definition set_slot_priority (p : Z) (x : sched_slot) : sched_slot :=
  mk_sched_slot (last_alive_time_ns x) (last_kernel_time_ns x) (vnpu_schedule_turn x) (vnpu_core_limit_quota x) p
    (vnpu_quota_timeslice x) (vnpu_cur_timeslice x) (vnpu_quota_injected_for_turn x) (vnpu_sync_expected x)
    (vnpu_sync_completed x) (vnpu_turn_max_sync x) (vnpu_timeslice_for_turn x).
Definition set_slot_alive (t : Z) (x : sched_slot) : sched_slot :=
  mk_sched_slot t (last_kernel_time_ns x) (vnpu_schedule_turn x) (vnpu_core_limit_quota x) (vnpu_priority x)
    (vnpu_quota_timeslice x) (vnpu_cur_timeslice x) (vnpu_quota_injected_for_turn x) (vnpu_sync_expected x)
    (vnpu_sync_completed x) (vnpu_turn_max_sync x) (vnpu_timeslice_for_turn x).
Definition set_slot_kernel (t : Z) (x : sched_slot) : sched_slot :=
  mk_sched_slot (last_alive_time_ns x) t (vnpu_schedule_turn x) (vnpu_core_limit_quota x) (vnpu_priority x)
    (vnpu_quota_timeslice x) (vnpu_cur_timeslice x) (vnpu_quota_injected_for_turn x) (vnpu_sync_expected x)
    (vnpu_sync_completed x) (vnpu_turn_max_sync x) (vnpu_timeslice_for_turn x).

(** The same through [shm_manager_get_sched_struct], which may be NULL. *)
Definition with_sched (m : shm_manager) (phy_id vnpu_id : Z) (f : sched_slot -> sched_slot) : option shm_manager :=
  match shm_manager_get_sched_struct m phy_id with
  | None => Some m
  | Some s => s' ← sched_store f vnpu_id s; Some (set_sched phy_id s' m)
  end.

Definition set_alive_time_now (now_ns : Z) (m : shm_manager) (phy_id vnpu_id : Z) : option shm_manager :=
  with_sched m phy_id vnpu_id (set_slot_alive now_ns).

Section allocator.
  Context `{SC : Securec} {S : Type} `{!Storage S}.

Abbreviation allocator := (npu_allocator S).

(** [shm_free] on the state of a die. *)
Definition free_on_die (c : Z -> libc) (a : allocator) (phy_id : Z) (s : shm_state) (vnpu_id : Z) : option allocator :=
  '(_, s1, t1) ← shm_free c s (a_tlsf a) vnpu_id;
  Some (set_a_tlsf t1 (set_a_shm (set_state phy_id s1 (a_shm a)) a)).

(** * Shared memory of a vNPU *)

(** The code, [shm_id_out] and the allocator. *)
Definition shm_apply_vnpu_locked (env : alloc_env) (a : allocator) (phy_id : Z) (die_id : string) (hbm_total : Z)
    (entry : vnpu_shm_entry) (priority : Z) (shm_id_out_len : Z) : option (Z * string * allocator) :=
  let len := if 0 <? shm_id_out_len then shm_id_out_len else SHM_ID_LEN in
  let '(ret, shm_id, m, names) := shm_manager_get_or_create_shm (ae_shm_os env) (a_shm a) (a_names a) phy_id die_id len in
  let a1 := set_a_names names (set_a_shm m a) in
  if negb (ret =? ENPU_SUCCESS) then Some (ret, shm_id, a1)
  else
    '(_, m1) ← shm_manager_init_state (a_shm a1) phy_id hbm_total;
    let a2 := set_a_shm m1 a1 in
    a3 ← match shm_manager_get_state (a_shm a2) phy_id with
         | Some s =>
             if vnpu_bitmap_test (st_bitmap s) (e_vnpu_id entry) then
               a' ← free_on_die (ae_libc env) a2 phy_id s (e_vnpu_id entry);
               '(_, m2) ← shm_manager_remove_entry (a_shm a') phy_id (e_vnpu_id entry);
               Some (set_a_shm m2 a')
             else Some a2
         | None => Some a2
         end;
    '(ret, m3) ← shm_manager_add_entry (a_shm a3) phy_id entry;
    let a4 := set_a_shm m3 a3 in
    if negb (ret =? ENPU_SUCCESS) then Some (ret, shm_id, a4)
    else
      m4 ← with_sched (a_shm a4) phy_id (e_vnpu_id entry) (set_slot_priority (priority mod 256));
      m5 ← set_alive_time_now (ae_clock_ns env) m4 phy_id (e_vnpu_id entry);
      Some (ENPU_SUCCESS, shm_id, set_a_shm m5 a4).

Definition shm_release_vnpu_locked (c : Z -> libc) (a : allocator) (phy_id vnpu_id : Z) : option (Z * allocator) :=
  if (phy_id <? 0) || (MAX_NPU_PER_NODE <=? phy_id) then Some (ENPU_INVALID_PARAM, a)
  else if (vnpu_id <? 0) || (MAX_VNPU_PER_DIE <=? vnpu_id) then Some (ENPU_INVALID_PARAM, a)
  else
    match shm_manager_get_state (a_shm a) phy_id with
    | None => Some (ENPU_SUCCESS, a)
    | Some s =>
        if negb (vnpu_bitmap_test (st_bitmap s) vnpu_id) then Some (ENPU_SUCCESS, a)
        else
          a1 ← free_on_die c a phy_id s vnpu_id;
          '(ret, m) ← shm_manager_remove_entry (a_shm a1) phy_id vnpu_id;
          let a2 := set_a_shm m a1 in
          if negb (ret =? ENPU_SUCCESS) then Some (ret, a2)
          else
            m1 ← with_sched (a_shm a2) phy_id vnpu_id
                   (fun x => set_slot_priority VNPU_PRIORITY_NORMAL (set_slot_kernel 0 (set_slot_alive 0 x)));
            Some (ENPU_SUCCESS, set_a_shm m1 a2)
    end.

(** * Allocation, from the last phase to the first *)

Definition alloc_outcome : Type := Z * alloc_request * alloc_response * allocator.

Definition log_step (ty : rollback_step_type) (phy vnpu da dh policy : Z) (pod container shm_id : string) (a : allocator) : allocator :=
  set_a_log (rollback_log_append (a_log a) ty phy vnpu da dh policy pod container shm_id).2 a.

(** Roll back, set the message and return [ret]. *)
Definition roll_back (env : alloc_env) (ty : rollback_step_type) (phy vnpu ret : Z) (req : alloc_request) (resp : alloc_response)
    (a : allocator) : option alloc_outcome :=
  '(_, a1) ← rollback_log_rollback (ae_os env) a;
  Some (ret, req, fail_resp ret (MStep ty phy vnpu ret) resp, a1).

Definition alloc_copy (n : Z) (src : string) : string := (copy_str (Z.to_nat n) src).2.

(** Lines 849-883: the response and the registration. *)
Definition alloc_register (env : alloc_env) (a : allocator) (req : alloc_request) (resp : alloc_response)
    (al : allocation) (uuid : string) : option alloc_outcome :=
  let resp1 := mk_alloc_response (al_phy_id al) (al_vnpu_id al) (alloc_copy MAX_UUID_LEN (al_pod_uid al))
                 (alloc_copy MAX_NAME_LEN (al_container_name al)) (alloc_copy DIE_ID_LEN (al_die_id al))
                 (alloc_copy SHM_ID_LEN (al_shm_id al)) (al_aicore_quota al) (al_hbm_quota al) (al_hbm_limit al)
                 (al_sched_policy al) (al_vnpu_priority al) (alloc_copy MAX_NAME_LEN uuid) ENPU_SUCCESS (r_error resp) in
  let '(ret, reg) := allocation_registry_register (ae_malloc_ok env) (a_registry a) al in
  let a1 := set_a_registry reg a in
  if negb (ret =? ENPU_SUCCESS) then
    roll_back env STEP_SAVE_CHECKPOINT (al_phy_id al) (al_vnpu_id al) ret req resp1 a1
  else
    Some (ENPU_SUCCESS, req, resp1,
          log_step STEP_SAVE_CHECKPOINT (al_phy_id al) (al_vnpu_id al) 0 0 0 (rq_pod_uid req) (rq_container_name req) EmptyString a1).

(** Lines 811-847: the record of the registry and the configuration file. *)
Definition alloc_config (env : alloc_env) (a : allocator) (req : alloc_request) (resp : alloc_response)
    (al : allocation) (node : npu_node) : option alloc_outcome :=
  let reg_al := mk_allocation (alloc_copy MAX_UUID_LEN (rq_pod_uid req)) (alloc_copy MAX_NAME_LEN (rq_container_name req))
                  (meta_phy_id (node_meta node)) (al_vnpu_id al) (alloc_copy DIE_ID_LEN (meta_die_id (node_meta node)))
                  (alloc_copy SHM_ID_LEN (r_shm_id resp)) (al_aicore_quota al) (al_hbm_quota al) (al_hbm_limit al)
                  (al_sched_policy al) (al_swap_priority al) (al_vnpu_priority al) (al_create_time_ns al) 0 0 0 false in
  let cfg := mk_vnpu_config (al_phy_id reg_al) (al_vnpu_id reg_al) (al_aicore_quota reg_al) (al_hbm_quota reg_al)
               (al_hbm_limit reg_al) (al_sched_policy reg_al) (al_vnpu_priority reg_al) (alloc_copy SHM_ID_LEN (al_shm_id reg_al)) in
  let '(ret, fs) := config_manager_write_config (ae_os env) (a_config_base a) (a_files a) (rq_pod_uid req) (rq_container_name req) cfg in
  let a1 := set_a_files fs a in
  if negb (ret =? ENPU_SUCCESS) then
    roll_back env STEP_WRITE_CONFIG (al_phy_id reg_al) (al_vnpu_id al) ret req resp a1
  else
    alloc_register env
      (log_step STEP_WRITE_CONFIG (al_phy_id reg_al) (al_vnpu_id al) 0 0 0 (rq_pod_uid req) (rq_container_name req) EmptyString a1)
      req resp reg_al (meta_uuid (node_meta node)).

(** Lines 788-809: the cleared response and the shared memory. *)
Definition alloc_shm (env : alloc_env) (a : allocator) (req : alloc_request) (al : allocation) (node : npu_node) : option alloc_outcome :=
  let phy := meta_phy_id (node_meta node) in
  let resp := alloc_response0 in
  ratio ← (if phy <? 0 then None else a_oversub a !! Z.to_nat phy);
  let entry := build_shm_entry (al_vnpu_id al) (al_hbm_quota al) (al_hbm_limit al) (al_sched_policy al) (al_swap_priority al)
                 (d_pos ratio) in
  '(ret, shm_id, a1) ← shm_apply_vnpu_locked env a phy (al_die_id al) (meta_total_memory (node_meta node)) entry
                         (al_vnpu_priority al) SHM_ID_LEN;
  let resp1 := set_r_shm_id shm_id resp in
  if negb (ret =? ENPU_SUCCESS) then roll_back env STEP_CREATE_SHM phy (al_vnpu_id al) ret req resp1 a1
  else
    alloc_config env (log_step STEP_CREATE_SHM phy (al_vnpu_id al) 0 0 0 EmptyString EmptyString shm_id a1) req resp1 al node.

(** Lines 749-786: the three updates of the tree. *)
Definition alloc_place (env : alloc_env) (a : allocator) (req : alloc_request) (resp : alloc_response) (al : allocation)
    (i : nat) (node : npu_node) : option alloc_outcome :=
  let phy := meta_phy_id (node_meta node) in
  let v := al_vnpu_id al in
  let a0 := set_a_log [] a in
  '(ret, t1) ← npu_tree_mark_vnpu_occupied (a_tree a0) (Some i) v;
  if negb (ret =? ENPU_SUCCESS) then
    Some (ret, req, fail_resp ret (MStep STEP_MARK_OCCUPIED phy v ret) resp, set_a_tree t1 a0)
  else
    let a1 := log_step STEP_MARK_OCCUPIED phy v 0 0 0 EmptyString EmptyString EmptyString (set_a_tree t1 a0) in
    let da := - al_aicore_quota al in
    dh ← neg_i64 (al_hbm_quota al);
    '(ret, t2) ← npu_tree_update_quota (a_tree a1) (Some i) da dh;
    let a2 := set_a_tree t2 a1 in
    if negb (ret =? ENPU_SUCCESS) then roll_back env STEP_UPDATE_QUOTA phy v ret req resp a2
    else
      let a3 := log_step STEP_UPDATE_QUOTA phy v da dh 0 EmptyString EmptyString EmptyString a2 in
      '(ret, t3) ← npu_tree_attach_policy (ae_policy_ok env) (a_tree a3) (Some i) v (al_sched_policy al) (al_vnpu_priority al);
      let a4 := set_a_tree t3 a3 in
      if negb (ret =? ENPU_SUCCESS) then roll_back env STEP_ATTACH_POLICY phy v ret req resp a4
      else
        alloc_shm env (log_step STEP_ATTACH_POLICY phy v 0 0 (al_sched_policy al) EmptyString EmptyString EmptyString a4)
          req al node.

(** Lines 705-747: the chosen die and id, default names, the allocation. *)
Definition alloc_chosen (env : alloc_env) (a : allocator) (req : alloc_request) (resp : alloc_response)
    (aicore hbm_request hbm_limit : Z) (ev : eval_response) : option alloc_outcome :=
  match ev_node ev with
  | None => Some (ENPU_FAIL, req, fail_resp ENPU_FAIL MNoNode resp, a)
  | Some i =>
      node ← leaves (a_tree a) !! i;
      let phy := meta_phy_id (node_meta node) in
      let v := ev_vnpu_id ev in
      if negb (vnpu_id_is_valid v) then Some (ENPU_INVALID_PARAM, req, fail_resp ENPU_INVALID_PARAM (MBadVnpu v) resp, a)
      else
        let pod := if str_empty (rq_pod_uid req)
                   then (snprintf_s (Z.to_nat MAX_UUID_LEN) (Z.to_nat (MAX_UUID_LEN - 1)) ("pod-" +:+ pretty phy)).2
                   else rq_pod_uid req in
        let container := if str_empty (rq_container_name req)
                   then (snprintf_s (Z.to_nat MAX_NAME_LEN) (Z.to_nat (MAX_NAME_LEN - 1))
                           ("container-" +:+ pretty phy +:+ "-" +:+ pretty v)).2
                   else rq_container_name req in
        let req1 := set_rq_names pod container req in
        let prio := rq_swap_priority req in
        let al := mk_allocation (alloc_copy MAX_UUID_LEN pod) (alloc_copy MAX_NAME_LEN container) 0 v
                    (alloc_copy DIE_ID_LEN (meta_die_id (node_meta node))) EmptyString aicore hbm_request hbm_limit
                    (rq_sched_policy req)
                    (if (SWAP_PRIORITY_HIGH <=? prio) && (prio <=? SWAP_PRIORITY_LOW) then prio else SWAP_PRIORITY_MEDIUM)
                    (rq_vnpu_priority req) (u64 (u64 (ae_time env) * 1000000000)) 0 0 0 false in
        alloc_place env a req1 resp al i node
  end.

(** The sum of the limits of the vNPUs of a die, lines 671-677. *)
Definition hbm_limit_sum (s : shm_state) : Z :=
  foldl (fun sum v => if vnpu_bitmap_test (st_bitmap s) v
                      then match entry_at s v with Some e => u64 (sum + e_hbm_limit e) | None => sum end else sum)
    0 (seqZ 0 MAX_VNPU_PER_DIE).
Definition allocated_limits (m : shm_manager) : list Z :=
  (fun phy => match shm_manager_get_state m phy with Some s => hbm_limit_sum s | None => 0 end) <$> seqZ 0 MAX_NPU_PER_NODE.

Definition pick_evaluator (a : allocator) : option string :=
  let target := if str_empty (a_evaluator_name a) then "share" else a_evaluator_name a in
  snd <$> list_find (fun name => name = target) (a_evaluators a).

(** Lines 649-664: the request to the evaluator. *)
Definition build_eval_request (a : allocator) (req : alloc_request) (hbm_request hbm_limit : Z) : eval_request :=
  let q := rq_aicore_quota req in
  mk_eval_request (if HUNDRED_CORE <? q then HUNDRED_CORE else q) hbm_request hbm_limit
    (if HUNDRED_CORE <? q then q / HUNDRED_CORE else 1) (rq_sched_policy req) (rq_vnpu_priority req)
    (rq_predicate_phy_id req) (a_oversub a) (allocated_limits (a_shm a)).

(** Lines 638-703: pick the evaluator and run it. *)
Definition alloc_evaluate `{!Qsort} (env : alloc_env) (a : allocator) (req : alloc_request) (resp : alloc_response)
    (hbm_request hbm_limit : Z) : option alloc_outcome :=
  match pick_evaluator a with
  | None => Some (ENPU_INVALID_PARAM, req, fail_resp ENPU_INVALID_PARAM (MNoEvaluator (rq_aicore_quota req)) resp, a)
  | Some name =>
      if negb (ae_nodes_ok env) then Some (ENPU_FAIL, req, fail_resp ENPU_FAIL MOom resp, a)
      else
        let er := build_eval_request a req hbm_request hbm_limit in
        '(ret, ev) ← evaluator_share_evaluate (a_strategy a) (a_tree a) er eval_response0;
        if negb (ret =? ENPU_SUCCESS) then
          let msg := match ev_msg ev with
                     | MsgNone => if (0 <=? rq_predicate_phy_id req) && (ret =? ENPU_NO_RESOURCE)
                                  then MCardInsufficient (rq_predicate_phy_id req) else MEvaluator MsgNone name
                     | m => MEvaluator m name
                     end in
          Some (ret, req, fail_resp ret msg resp, a)
        else alloc_chosen env a req resp (er_aicore_quota er) hbm_request hbm_limit ev
  end.

(** Lines 565-603: the checks of the request, [inl] the code and the message,
    [inr] the memory request and its limit; with the request, which gets the
    values of a high priority vNPU. *)
Definition check_request (a : allocator) (req : alloc_request) : alloc_request * ((Z * alloc_msg) + (Z * Z)) :=
  let prio := rq_vnpu_priority req in
  if negb (prio =? VNPU_PRIORITY_NORMAL) && negb (prio =? VNPU_PRIORITY_HIGH) then (req, inl (ENPU_INVALID_PARAM, MPriority prio))
  else if negb (prio =? VNPU_PRIORITY_HIGH) && (rq_aicore_quota req <=? 0) then
    (req, inl (ENPU_INVALID_PARAM, MAicorePositive (rq_aicore_quota req)))
  else
    let req1 := if prio =? VNPU_PRIORITY_HIGH
                then mk_alloc_request (rq_pod_uid req) (rq_container_name req) 0 (rq_hbm_quota req) (rq_hbm_limit req)
                       SCHED_POLICY_BEST_EFFORT (rq_swap_priority req) prio (rq_predicate_phy_id req)
                else req in
    if HUNDRED_CORE <? rq_aicore_quota req1 then (req1, inl (ENPU_INVALID_PARAM, MAicoreLimit (rq_aicore_quota req1)))
    else
      let '(ret, (hbm_request, hbm_limit), msg) := parse_hbm_request_limit req1 in
      if negb (ret =? ENPU_SUCCESS) then (req1, inl (ret, msg))
      else if (0 <=? rq_predicate_phy_id req1) && (leaf_count (a_tree a) <=? rq_predicate_phy_id req1)
      then (req1, inl (ENPU_NOT_FOUND, MNoCard (rq_predicate_phy_id req1)))
      else (req1, inr (hbm_request, hbm_limit)).

(** Lines 618-636: the answer for an allocation that exists already. *)
Definition existing_response (e : allocation) (resp : alloc_response) : alloc_response :=
  mk_alloc_response (al_phy_id e) (al_vnpu_id e) (alloc_copy MAX_UUID_LEN (al_pod_uid e))
    (alloc_copy MAX_NAME_LEN (al_container_name e)) (alloc_copy DIE_ID_LEN (al_die_id e)) (alloc_copy SHM_ID_LEN (al_shm_id e))
    (al_aicore_quota e) (al_hbm_quota e) (al_hbm_limit e) (al_sched_policy e) (al_vnpu_priority e) (r_minor_name resp)
    ENPU_ALREADY_EXISTS (MExists (al_pod_uid e) (al_container_name e) (al_phy_id e) (al_vnpu_id e)).

Definition npu_allocator_allocate `{!Qsort} (env : alloc_env) (a : allocator) (req : alloc_request) (resp : alloc_response) :
    option alloc_outcome :=
  match check_request a req with
  | (req1, inl (rc, msg)) => Some (rc, req1, fail_resp rc msg resp, a)
  | (req1, inr (hbm_request, hbm_limit)) =>
      let resp1 := set_r_error MNone resp in
      let p := rq_predicate_phy_id req1 in
      if (0 <=? p) && bool_decide (npu_tree_get_leaf (a_tree a) p = None) then
        Some (ENPU_FAIL, req1, fail_resp ENPU_FAIL (MNoCard p) resp1, a)
      else
        match (allocation_registry_get (a_registry a) (rq_pod_uid req1) (rq_container_name req1)).2 with
        | Some e => Some (ENPU_ALREADY_EXISTS, req1, existing_response e resp1, a)
        | None => alloc_evaluate env a req1 resp1 hbm_request hbm_limit
        end
  end.

(** * Release *)

Definition npu_allocator_release (env : alloc_env) (a : allocator) (pod_uid container_name : string) : option (Z * allocator) :=
  match (allocation_registry_get (a_registry a) pod_uid container_name).2 with
  | None => Some (ENPU_NOT_FOUND, a)
  | Some al =>
      let v := al_vnpu_id al in
      a1 ← match npu_tree_get_leaf (a_tree a) (al_phy_id al) with
           | None => Some a
           | Some i =>
               node ← leaves (a_tree a) !! i;
               bit_mask ← shl1 v;
               a0 ← (if negb (Z.land (vnpu_mask (allocatable node)) bit_mask =? 0) then Some a
                     else
                       '(_, t1) ← npu_tree_detach_policy (a_tree a) (Some i) v;
                       '(_, t2) ← npu_tree_update_quota t1 (Some i) (al_aicore_quota al) (i64 (al_hbm_quota al));
                       '(_, t3) ← npu_tree_mark_vnpu_free t2 (Some i) v;
                       Some (set_a_tree t3 a));
               '(_, a') ← shm_release_vnpu_locked (ae_libc env) a0 (al_phy_id al) v;
               Some a'
           end;
      let '(_, fs) := config_manager_delete_config (ae_os env) (a_config_base a1) (a_files a1) pod_uid container_name in
      let a2 := set_a_files fs a1 in
      let '(_, reg) := allocation_registry_release (a_registry a2) pod_uid container_name in
      Some (ENPU_SUCCESS, set_a_registry reg a2)
  end.

Definition npu_allocator_release_by_vnpu (env : alloc_env) (a : allocator) (phy_id vnpu_id : Z) : option (Z * allocator) :=
  if (vnpu_id <? 0) || (MAX_VNPU_PER_DIE <=? vnpu_id) then Some (ENPU_INVALID_PARAM, a)
  else
    match list_find (fun al => al_phy_id al = phy_id ∧ al_vnpu_id al = vnpu_id) (allocation_registry_list (a_registry a)).2 with
    | None => Some (ENPU_NOT_FOUND, a)
    | Some (_, al) =>
        npu_allocator_release env a (alloc_copy MAX_UUID_LEN (al_pod_uid al)) (alloc_copy MAX_NAME_LEN (al_container_name al))
    end.

Definition npu_allocator_release_external_vnpu (env : alloc_env) (a : allocator) (phy_id vnpu_id : Z) : option (Z * allocator) :=
  if (phy_id <? 0) || (MAX_NPU_PER_NODE <=? phy_id) then Some (ENPU_INVALID_PARAM, a)
  else if (vnpu_id <? 0) || (MAX_VNPU_PER_DIE <=? vnpu_id) then Some (ENPU_INVALID_PARAM, a)
  else shm_release_vnpu_locked (ae_libc env) a phy_id vnpu_id.

(** * Recovery *)

Definition config_of (al : allocation) (shm_id : string) : vnpu_config :=
  mk_vnpu_config (al_phy_id al) (al_vnpu_id al) (al_aicore_quota al) (al_hbm_quota al) (al_hbm_limit al) (al_sched_policy al)
    (al_vnpu_priority al) (alloc_copy SHM_ID_LEN shm_id).

(** Lines 1028-1038: the entry of a recovered vNPU. *)
Definition restore_entry (al : allocation) (hbm_total : Z) (a : allocator) : option allocator :=
  let phy := al_phy_id al in
  let v := al_vnpu_id al in
  match shm_manager_get_state (a_shm a) phy with
  | None => Some a
  | Some _ =>
      '(_, m) ← shm_manager_init_state (a_shm a) phy hbm_total;
      s ← shm_manager_get_state m phy;
      e ← entry_at s v;
      let e' := mk_entry v (al_hbm_quota al) (al_hbm_limit al) 0 (al_sched_policy al) true (al_swap_priority al) (e_processes e) in
      Some (set_a_shm (set_state phy (set_st_bitmap (vnpu_bitmap_set (st_bitmap s) v) (put_entry v e' s)) m) a)
  end.

(** One iteration of the loop: whether the allocation counts as recovered.
    [env] answers for this allocation. *)
Definition recover_one (env : alloc_env) (a : allocator) (al : allocation) : option (bool * allocator) :=
  let phy := al_phy_id al in
  let v := al_vnpu_id al in
  if negb (vnpu_id_is_valid v) then Some (false, a)
  else
    match npu_tree_get_leaf (a_tree a) phy with
    | None => Some (false, a)
    | Some i =>
        node ← leaves (a_tree a) !! i;
        '(_, t1) ← npu_tree_mark_vnpu_occupied (a_tree a) (Some i) v;
        dh ← neg_i64 (al_hbm_quota al);
        '(_, t2) ← npu_tree_update_quota t1 (Some i) (- al_aicore_quota al) dh;
        '(_, t3) ← npu_tree_attach_policy (ae_policy_ok env) t2 (Some i) v (al_sched_policy al) (al_vnpu_priority al);
        let a1 := set_a_tree t3 a in
        let '(ret, _, m, names) :=
          shm_manager_get_or_create_shm (ae_shm_os env) (a_shm a1) (a_names a1) phy (al_die_id al) SHM_ID_LEN in
        let a2 := set_a_names names (set_a_shm m a1) in
        if negb (ret =? ENPU_SUCCESS) then Some (false, a2)
        else
          m1 ← with_sched (a_shm a2) phy v (set_slot_priority (al_vnpu_priority al mod 256));
          a3 ← restore_entry al (meta_total_memory (node_meta node)) (set_a_shm m1 a2);
          let '(rc, fs) := config_manager_write_config (ae_os env) (a_config_base a3) (a_files a3) (al_pod_uid al)
                             (al_container_name al) (config_of al (al_shm_id al)) in
          Some (rc =? ENPU_SUCCESS, set_a_files fs a3)
    end.

Fixpoint recover_loop (env : allocation -> alloc_env) (a : allocator) (allocs : list allocation) : option (Z * allocator) :=
  match allocs with
  | [] => Some (0, a)
  | al :: rest =>
      '(ok, a1) ← recover_one (env al) a al;
      '(n, a2) ← recover_loop env a1 rest;
      Some (if (ok : bool) then n + 1 else n, a2)
  end.

(** The code, and the number of recovered allocations that is logged. *)
Definition npu_allocator_recover (env : allocation -> alloc_env) (a : allocator) : option (Z * Z * allocator) :=
  '(n, a1) ← recover_loop env a (allocation_registry_list (a_registry a)).2; Some (ENPU_SUCCESS, n, a1).

Definition npu_allocator_checkpoint (a : allocator) : Z * allocator :=
  let '(ret, reg) := allocation_registry_save (a_registry a) in (ret, set_a_registry reg a).

(** * Queries *)

Definition query_matches (phy_id : Z) (pod container : string) (al : allocation) : bool :=
  negb ((0 <=? phy_id) && negb (al_phy_id al =? phy_id))
  && negb (negb (str_empty pod) && negb (bool_decide (al_pod_uid al = pod)))
  && negb (negb (str_empty container) && negb (bool_decide (al_container_name al = container))).

Definition npu_allocator_query_allocations (a : allocator) (phy_id : Z) (pod container : string) : Z * list allocation :=
  if (0 <=? phy_id) && (leaf_count (a_tree a) <=? phy_id) then (ENPU_INVALID_PARAM, [])
  else (ENPU_SUCCESS, take (Z.to_nat MAX_ALLOC_COUNT)
                        (filter (fun al => Is_true (query_matches phy_id pod container al)) (allocation_registry_list (a_registry a)).2)).

(** [phy_id] is compared with the index of the leaf. *)
Definition npu_allocator_query_devices (a : allocator) (phy_id : Z) : list (npu_meta * npu_allocatable) :=
  if (0 <=? phy_id) && (leaf_count (a_tree a) <=? phy_id) then []
  else
    (fun n => (node_meta n, allocatable n)) ∘ snd <$>
      filter (fun ip : nat * npu_node => phy_id < 0 \/ Z.of_nat ip.1 = phy_id) (imap pair (leaves (a_tree a))).

(** * Swap state and capacities *)

Definition npu_allocator_get_swap_state (a : allocator) (phy_id vnpu_id : Z) : Z * option (bool * Z * Z) :=
  shm_manager_get_swap_state (a_shm a) phy_id vnpu_id.

Definition npu_allocator_clear_swap (env : alloc_env) (a : allocator) (phy_id vnpu_id : Z) : option (Z * allocator) :=
  a1 ← match shm_manager_get_state (a_shm a) phy_id with
       | Some s => free_on_die (ae_libc env) a phy_id s vnpu_id
       | None => Some a
       end;
  Some ((shm_manager_set_swap_state (a_shm a1) phy_id vnpu_id 0 0).1, a1).

Definition npu_allocator_write_swap_cmd (now : Z) (a : allocator) (phy_id : Z) (pod_uid : string) (vnpu_id action to_swap_out : Z) :
    option (Z * allocator) :=
  '(ret, m) ← shm_manager_write_swap_cmd (a_shm a) phy_id pod_uid vnpu_id action to_swap_out now; Some (ret, set_a_shm m a).

(** [last_kernel_time_ns] has [MAX_VNPU_SCHED] elements. *)
Definition npu_allocator_get_last_kernel_time_ns (a : allocator) (phy_id vnpu_id : Z) : option (Z * option Z) :=
  if (vnpu_id <? 0) || (MAX_VNPU_PER_DIE <=? vnpu_id) then Some (ENPU_INVALID_PARAM, None)
  else
    match shm_manager_get_sched_struct (a_shm a) phy_id with
    | None => Some (ENPU_NOT_FOUND, None)
    | Some s => x ← sched_slots s !! Z.to_nat vnpu_id; Some (ENPU_SUCCESS, Some (last_kernel_time_ns x))
    end.

Definition npu_allocator_get_shm_state (a : allocator) (phy_id : Z) : option shm_state := shm_manager_get_state (a_shm a) phy_id.

Definition npu_allocator_get_total_hbm_mb (a : allocator) : Z :=
  foldl (fun sum n => u64 (sum + meta_total_memory (node_meta n) / (1024 * 1024))) 0 (leaves (a_tree a)).

Definition npu_allocator_get_per_die_hbm_mb (a : allocator) (max_count : Z) : option (list Z) :=
  if max_count <=? 0 then None
  else
    let fill := if max_count <? MAX_NPU_PER_NODE then max_count else MAX_NPU_PER_NODE in
    Some (foldl (fun out n =>
            let phy := meta_phy_id (node_meta n) in
            if (0 <=? phy) && (phy <? fill)
            then <[Z.to_nat phy := meta_total_memory (node_meta n) / (1024 * 1024)]> out else out)
          (replicate (Z.to_nat fill) 0) (leaves (a_tree a))).

Definition npu_allocator_set_oversub_ratio (a : allocator) (die_index : Z) (ratio : double) : Z * allocator :=
  if (die_index <? 0) || (MAX_NPU_PER_NODE <=? die_index) then (ENPU_INVALID_PARAM, a)
  else (ENPU_SUCCESS,
        mk_allocator (a_tree a) (a_config_base a) (a_files a) (a_shm a) (a_names a) (a_tlsf a) (a_registry a) (a_log a)
          (a_evaluators a) (a_evaluator_name a) (a_strategy a) (<[Z.to_nat die_index := ratio]> (a_oversub a))).

Definition npu_allocator_get_oversub_ratio (a : allocator) (die_index : Z) : option double :=
  if (die_index <? 0) || (MAX_NPU_PER_NODE <=? die_index) then Some d_zero else a_oversub a !! Z.to_nat die_index.

End allocator.
