(* ===== verification/AllocInv.v ===== *)
(** The consistency of the allocator: the registry, the device tree and the
    shared memory describe the same set of vNPUs, and the free cores and
    memory of a die are its capacity less what its vNPUs have been given. *)

From S2P Require Import Prelude CLib SwapTlsf SwapTlsfProofs SwapTlsfThms NpuTree NpuTreeFacts Evaluator EvaluatorThms Registry RegistryThms ConfigManager ShmManager ShmFacts RollbackLog Allocator.

Definition phy_of (n : npu_node) : Z := meta_phy_id (node_meta n).
Definition al_slot (al : allocation) : Z * Z := (al_phy_id al, al_vnpu_id al).
Definition on_die (phy : Z) (l : list allocation) : list allocation := filter (fun al => al_phy_id al = phy) l.
Definition sum_of (f : allocation -> Z) (l : list allocation) : Z := foldr (fun al s => f al + s) 0 l.

(** The cores and the memory (MB) of each die. *)
Record capacities := mk_capacities { cap_aicore : Z -> Z; cap_hbm : Z -> Z }.

(** The leaf [n] holds exactly the vNPUs [als]. *)
Record leaf_holds (C : capacities) (n : npu_node) (als : list allocation) : Prop := {
  lh_ids v : 0 <= v < 64 -> vnpu_free n v = false <-> v ∈ al_vnpu_id <$> als;
  lh_policies : pe_vnpu_id <$> policies n ≡ₚ al_vnpu_id <$> als;
  lh_aicore : aicore_quota (allocatable n) + sum_of al_aicore_quota als = cap_aicore C (phy_of n);
  lh_aicore_free : 0 <= aicore_quota (allocatable n);
  lh_hbm : hbm_quota (allocatable n) + sum_of al_hbm_quota als = cap_hbm C (phy_of n);
}.

(** A device that can be allocated on. *)
Record leaf_ok (C : capacities) (ratios : list double) (n : npu_node) : Prop := {
  lo_phy : 0 <= phy_of n < 16;
  lo_die : meta_die_id (node_meta n) <> EmptyString;
  lo_aicore : cap_aicore C (phy_of n) < I32_HALF;
  lo_hbm : cap_hbm C (phy_of n) < - INT64_MIN;
  lo_threshold r : ratios !! Z.to_nat (phy_of n) = Some r -> is_Some (die_threshold r (meta_total_memory (node_meta n) / (1024 * 1024)));
  lo_policies : policies n <> [] -> policy_alloc n = true;
}.

Definition alloc_ok (al : allocation) : Prop :=
  0 <= al_vnpu_id al < 64 ∧ 0 <= al_aicore_quota al ∧ 0 <= al_hbm_quota al.

(** The swap buffer is a pool in one of its reachable shapes, or there is none. *)
Definition tlsf_ok (t : TLSFManager) : Prop := Inv t \/ initialized t = false.

Record shm_ok (m : shm_manager) : Prop := {
  so_wf : mgr_wf m;
  so_ids phy s : shm_manager_get_state m phy = Some s -> st_shm_id s <> EmptyString ∧ (String.length (st_shm_id s) < 64)%nat;
}.

Record alloc_inv {S} (C : capacities) (a : npu_allocator S) : Prop := {
  inv_tree : tree_wf (a_tree a);
  inv_init : tree_initialized (a_tree a) = true;
  inv_phys : NoDup (phy_of <$> leaves (a_tree a));
  inv_leaf_ok : Forall (leaf_ok C (a_oversub a)) (leaves (a_tree a));
  inv_oversub : length (a_oversub a) = 16%nat;
  inv_reg : registry_wf (a_registry a);
  inv_shm : shm_ok (a_shm a);
  inv_tlsf : tlsf_ok (a_tlsf a);
  inv_allocs : Forall alloc_ok (entries (a_registry a));
  inv_on_leaf al : al ∈ entries (a_registry a) -> al_phy_id al ∈ phy_of <$> leaves (a_tree a);
  inv_slots : NoDup (al_slot <$> entries (a_registry a));
  inv_holds i n : leaves (a_tree a) !! i = Some n -> leaf_holds C n (on_die (phy_of n) (entries (a_registry a)));
  inv_shm_map phy v : is_Some (die_map (a_shm a) phy v) <-> (phy, v) ∈ al_slot <$> entries (a_registry a);
}.

(** * Sums and dies *)

Lemma sum_of_app f l1 l2 : sum_of f (l1 ++ l2) = sum_of f l1 + sum_of f l2.
Proof. induction l1 as [|al l1 IH]; simpl; [done|]. rewrite IH. lia. Qed.

Lemma sum_of_nonneg f l : Forall (fun al => 0 <= f al) l -> 0 <= sum_of f l.
Proof. induction 1; simpl; lia. Qed.

Lemma sum_of_middle f l1 al l2 : sum_of f (l1 ++ al :: l2) = f al + sum_of f (l1 ++ l2).
Proof. rewrite !sum_of_app. simpl. lia. Qed.

Lemma on_die_app phy l1 l2 : on_die phy (l1 ++ l2) = on_die phy l1 ++ on_die phy l2.
Proof. apply filter_app. Qed.

Lemma on_die_cons_same phy al l : al_phy_id al = phy -> on_die phy (al :: l) = al :: on_die phy l.
Proof. intros H. unfold on_die. by rewrite filter_cons_True. Qed.

Lemma on_die_cons_other phy al l : al_phy_id al <> phy -> on_die phy (al :: l) = on_die phy l.
Proof. intros H. unfold on_die. by rewrite filter_cons_False. Qed.

Lemma elem_of_on_die phy al l : al ∈ on_die phy l <-> al_phy_id al = phy ∧ al ∈ l.
Proof. unfold on_die. by rewrite list_elem_of_filter. Qed.

(** Ids of one die, from the slots of all. *)
Lemma slot_on_die phy v l : (phy, v) ∈ al_slot <$> l <-> v ∈ al_vnpu_id <$> on_die phy l.
Proof.
  rewrite !list_elem_of_fmap. split.
  - intros (al & [= -> ->] & Hin). exists al. split; [done|]. by apply elem_of_on_die.
  - intros (al & -> & [<- Hin]%elem_of_on_die). by exists al.
Qed.

(** * A leaf gains and loses a vNPU *)

Lemma forall_alloc_ok_sums l : Forall alloc_ok l -> 0 <= sum_of al_aicore_quota l ∧ 0 <= sum_of al_hbm_quota l.
Proof.
  intros H. split; apply sum_of_nonneg; apply (Forall_impl _ _ _ H); unfold alloc_ok; tauto.
Qed.

Definition place_node (al : allocation) (n : npu_node) : npu_node :=
  with_policies (policies n ++ [mk_policy (al_vnpu_id al) (al_sched_policy al) (al_vnpu_priority al)])
    (with_quota (- al_aicore_quota al) (- al_hbm_quota al)
       (with_mask (Z.land (vnpu_mask (allocatable n)) (u64 (Z.lnot (2 ^ al_vnpu_id al)))) n)).

Definition unplace_node (al : allocation) (ps : list vnpu_policy_entry) (n : npu_node) : npu_node :=
  with_mask (Z.lor (vnpu_mask (allocatable n)) (2 ^ al_vnpu_id al))
    (with_quota (al_aicore_quota al) (al_hbm_quota al) (with_policies ps n)).

Lemma leaf_holds_place C n als al :
  node_wf n -> leaf_holds C n als -> alloc_ok al -> vnpu_free n (al_vnpu_id al) = true ->
  al_aicore_quota al <= aicore_quota (allocatable n) -> al_hbm_quota al <= hbm_quota (allocatable n) ->
  leaf_holds C (place_node al n) (als ++ [al]).
Proof.
  intros Hwf [H1 H2 H3 H4 H5] (Hv & Ha & Hh) Hfree Hle1 Hle2. pose proof (wf_aicore _ Hwf). pose proof (wf_hbm _ Hwf).
  constructor; simpl.
  - intros v Hv'. unfold vnpu_free. simpl. rewrite clear_bit by (done || lia || apply (wf_mask _ Hwf)).
    rewrite fmap_app, elem_of_app, <- (H1 v Hv'). unfold vnpu_free. simpl. rewrite list_elem_of_singleton.
    destruct (Z.eqb_spec v (al_vnpu_id al)) as [->|Hne]; simpl.
    + rewrite andb_false_r. tauto.
    + rewrite andb_true_r. tauto.
  - rewrite !fmap_app. simpl. by rewrite H2.
  - rewrite sum_of_app. simpl. rewrite i32_small by mlia. unfold phy_of in *. simpl. lia.
  - rewrite i32_small by mlia. lia.
  - rewrite sum_of_app. simpl. rewrite u64_small by mlia. unfold phy_of in *. simpl. lia.
Qed.

Lemma leaf_holds_unplace C n l1 al l2 ps1 q ps2 :
  node_wf n -> leaf_holds C n (l1 ++ al :: l2) -> Forall alloc_ok (l1 ++ al :: l2) -> NoDup (al_vnpu_id <$> l1 ++ al :: l2) ->
  cap_aicore C (phy_of n) < I32_HALF -> cap_hbm C (phy_of n) < - INT64_MIN ->
  policies n = ps1 ++ q :: ps2 -> pe_vnpu_id q = al_vnpu_id al ->
  leaf_holds C (unplace_node al (ps1 ++ ps2) n) (l1 ++ l2).
Proof.
  intros Hwf [H1 H2 H3 H4 H5] Hok Hnd Hc1 Hc2 Hps Hq. pose proof (wf_aicore _ Hwf). pose proof (wf_hbm _ Hwf) as Hhw.
  assert (Hal : alloc_ok al) by (eapply Forall_forall; [exact Hok|]; set_solver). destruct Hal as (Hv & Ha & Hh).
  assert (Hrest : Forall alloc_ok (l1 ++ l2)) by (rewrite Forall_app, Forall_cons in Hok; rewrite Forall_app; tauto).
  destruct (forall_alloc_ok_sums _ Hrest) as [Hs1 Hs2]. rewrite !sum_of_middle in H3, H5. unfold INT64_MIN in Hc2.
  constructor; simpl.
  - intros v Hv'. unfold vnpu_free. simpl. rewrite set_bit by lia. fold (vnpu_free n v).
    rewrite fmap_app, fmap_cons in Hnd. apply NoDup_app_cons_inv in Hnd as (N1 & N2 & _).
    rewrite orb_false_iff, (H1 v Hv'), !fmap_app, fmap_cons, !elem_of_app, elem_of_cons.
    destruct (Z.eqb_spec v (al_vnpu_id al)) as [->|Hne]; [|naive_solver]. split; [by intros [_ ?]|]. tauto.
  - rewrite Hps, !fmap_app, !fmap_cons, Hq in H2. rewrite !fmap_app.
    apply (Permutation_cons_inv (a := al_vnpu_id al)). rewrite <- (Permutation_middle (pe_vnpu_id <$> ps1)) in H2.
    by rewrite <- (Permutation_middle (al_vnpu_id <$> l1)) in H2.
  - rewrite i32_small by (unfold is_i32, is_u64 in *; lia). unfold phy_of in *. simpl. lia.
  - rewrite i32_small by (unfold is_i32, is_u64 in *; lia). lia.
  - rewrite u64_small by (unfold is_u64, U64_MOD in *; lia). unfold phy_of in *. simpl. lia.
Qed.

Lemma place_node_wf al n :
  node_wf n -> alloc_ok al -> (length (policies n) < 128)%nat -> node_wf (place_node al n).
Proof.
  intros Hwf (Hv & _) Hl. unfold place_node. apply with_policies_wf; [|simpl; rewrite length_app; simpl; lia].
  apply with_quota_wf, with_mask_wf; [done|]. apply clear_bit_u64, (wf_mask _ Hwf).
Qed.

Lemma unplace_node_wf al ps n : node_wf n -> alloc_ok al -> (length ps <= 128)%nat -> node_wf (unplace_node al ps n).
Proof.
  intros Hwf (Hv & _) Hl. unfold unplace_node. apply with_mask_wf; [by apply with_quota_wf, with_policies_wf|].
  apply set_bit_u64; [apply (wf_mask _ Hwf)|lia].
Qed.

(** At most 64 vNPUs, so that a policy fits. *)
Lemma leaf_holds_length C n als :
  leaf_holds C n als -> Forall alloc_ok als -> NoDup (al_vnpu_id <$> als) -> (length (policies n) <= 64)%nat.
Proof.
  intros H Hok Hnd. rewrite <- (length_fmap pe_vnpu_id), (lh_policies _ _ _ H).
  assert (Hsub : (al_vnpu_id <$> als) ⊆ seqZ 0 64).
  { intros v (al & -> & Hin)%list_elem_of_fmap. apply elem_of_seqZ. rewrite Forall_forall in Hok.
    destruct (Hok al Hin) as (? & _). lia. }
  pose proof (submseteq_length _ _ (NoDup_submseteq _ _ Hnd Hsub)) as Hl. by rewrite length_seqZ in Hl.
Qed.

(** * Finding the leaf of a die *)

Lemma get_leaf_eq t i n :
  tree_initialized t = true -> NoDup (phy_of <$> leaves t) -> leaves t !! i = Some n -> 0 <= phy_of n ->
  npu_tree_get_leaf t (phy_of n) = Some i.
Proof.
  intros Hi Hnd Hn Hp. unfold npu_tree_get_leaf. rewrite (proj2 (Z.ltb_ge _ 0)), Hi by done. cbn [negb].
  destruct (list_find (fun n0 => meta_phy_id (node_meta n0) = phy_of n) (leaves t)) as [[j m]|] eqn:E; simpl.
  - apply list_find_Some in E as (Hj & Hm & _). f_equal.
    eapply (NoDup_lookup (phy_of <$> leaves t) j i (phy_of n)); [done|by rewrite list_lookup_fmap, Hj; simpl; f_equal|by rewrite list_lookup_fmap, Hn].
  - apply list_find_None in E. exfalso. rewrite Forall_forall in E. by apply (E n); [eapply list_elem_of_lookup_2|].
Qed.

Lemma get_leaf_inv t phy i :
  npu_tree_get_leaf t phy = Some i -> exists n, leaves t !! i = Some n ∧ phy_of n = phy.
Proof.
  unfold npu_tree_get_leaf. destruct (phy <? 0); [done|]. destruct (negb _); [done|].
  destruct (list_find _ _) as [[j m]|] eqn:E; [|done]. intros [= <-]. apply list_find_Some in E as (Hj & Hm & _). by exists m.
Qed.

(** Updating a leaf keeps the devices. *)
Lemma insert_leaf_phys t i n n' :
  leaves t !! i = Some n -> phy_of n' = phy_of n -> phy_of <$> <[i := n']> (leaves t) = phy_of <$> leaves t.
Proof. intros Hn E. rewrite list_fmap_insert, E. apply list_insert_id. by rewrite list_lookup_fmap, Hn. Qed.
