(* ===== verification/AllocShm.v ===== *)
(** The steps of an allocation and their inverses: each step of the rollback
    log undoes the update that appended it. *)

From S2P Require Import Prelude CLib SwapTlsf SwapTlsfProofs SwapTlsfThms NpuTree NpuTreeFacts Evaluator EvaluatorThms Registry RegistryThms ConfigManager ShmManager ShmFacts RollbackLog Allocator AllocInv.

Definition put_leaf (i : nat) (n : npu_node) (t : npu_tree) : npu_tree := set_leaves (<[i := n]> (leaves t)) t.

Definition occupy (v : Z) (n : npu_node) : npu_node :=
  with_mask (Z.land (vnpu_mask (allocatable n)) (u64 (Z.lnot (2 ^ v)))) n.

(** * Leaves *)

Lemma put_leaf_put i n n' t : put_leaf i n (put_leaf i n' t) = put_leaf i n t.
Proof. unfold put_leaf, set_leaves. simpl. by rewrite list_insert_insert_eq. Qed.

Lemma put_leaf_lookup i n n0 t : leaves t !! i = Some n0 -> leaves (put_leaf i n t) !! i = Some n.
Proof. intros H. simpl. apply list_lookup_insert_eq. by apply lookup_lt_Some in H. Qed.

Lemma put_leaf_same i n t : leaves t !! i = Some n -> put_leaf i n t = t.
Proof. intros H. unfold put_leaf, set_leaves. rewrite list_insert_id by done. by destruct t. Qed.

Lemma get_leaf_put t i n n' :
  tree_initialized t = true -> NoDup (phy_of <$> leaves t) -> leaves t !! i = Some n -> 0 <= phy_of n -> phy_of n' = phy_of n ->
  npu_tree_get_leaf (put_leaf i n' t) (phy_of n) = Some i.
Proof.
  intros Hi Hnd Hn Hp E. rewrite <- E in Hp |- *. apply get_leaf_eq; [done| |by eapply put_leaf_lookup|done].
  simpl. by erewrite insert_leaf_phys.
Qed.

Lemma occupy_free v n : node_wf n -> 0 <= v < 64 -> vnpu_free n v = true ->
  node_wf (occupy v n) ∧ vnpu_free (occupy v n) v = false ∧ with_mask (Z.lor (vnpu_mask (allocatable (occupy v n))) (2 ^ v)) (occupy v n) = n.
Proof.
  intros Hwf Hv Hf. pose proof (wf_mask _ Hwf) as Hm. split; [|split].
  - apply with_mask_wf; [done|]. by apply clear_bit_u64.
  - unfold vnpu_free, occupy. simpl. rewrite clear_bit by (done || lia). by rewrite Z.eqb_refl, andb_false_r.
  - unfold occupy, with_mask. simpl. rewrite set_clear_bit by done. by destruct n as [? [] ? ? ? ? ?].
Qed.

Lemma i32_add_sub x d : is_i32 x -> i32 (i32 (x + d) + - d) = x.
Proof. intros H. unfold i32, is_i32, I32_HALF in *. zlia. Qed.

Lemma u64_add_sub x d : is_u64 x -> u64 (u64 (x + d) + - d) = x.
Proof. intros H. unfold u64, is_u64, U64_MOD in *. zlia. Qed.

Lemma with_quota_undo da dh n : node_wf n -> with_quota (- da) (- dh) (with_quota da dh n) = n.
Proof.
  intros Hwf. unfold with_quota. simpl. rewrite i32_add_sub by apply (wf_aicore _ Hwf). rewrite u64_add_sub by apply (wf_hbm _ Hwf).
  by destruct n as [? [] ? ? ? ? ?].
Qed.

Lemma with_quota_policies da dh ps n : with_policies ps (with_quota da dh n) = with_quota da dh (with_policies ps n).
Proof. reflexivity. Qed.

Lemma with_policies_same n : node_wf n -> with_policies (policies n) n = norm_node n.
Proof.
  intros Hwf. unfold with_policies, norm_node. rewrite <- (wf_count _ Hwf). by destruct n as [? [] ? ? ? ? ?].
Qed.

Lemma norm_tree_put i n t : leaves t !! i = Some n -> norm_tree (put_leaf i (norm_node n) t) = norm_tree t.
Proof.
  intros H. unfold norm_tree, put_leaf, set_leaves. simpl. f_equal. rewrite list_fmap_insert.
  change (norm_node (norm_node n)) with (norm_node n). apply list_insert_id. by rewrite list_lookup_fmap, H.
Qed.

(** * Undoing the updates of the tree *)

Section undo.
  Context `{SC : Securec} {S : Type} `{!Storage S}.
  Implicit Types a : npu_allocator S.

(** A leaf of the tree and its place, the hypotheses of every step. *)
Record at_leaf (t : npu_tree) (i : nat) (n : npu_node) : Prop := {
  at_init : tree_initialized t = true;
  at_phys : NoDup (phy_of <$> leaves t);
  at_lookup : leaves t !! i = Some n;
  at_phy : 0 <= phy_of n;
  at_wf : node_wf n;
}.

Lemma undo_mark o a t i n st :
  at_leaf t i n -> a_tree a = put_leaf i (occupy (rs_vnpu_id st) n) t -> rs_type st = STEP_MARK_OCCUPIED -> rs_phy_id st = phy_of n ->
  0 <= rs_vnpu_id st < 64 -> vnpu_free n (rs_vnpu_id st) = true ->
  rollback_one o a st = Some (ENPU_SUCCESS, set_a_tree t a).
Proof.
  intros [H1 H2 H3 H4 H5] Ht Ety Ephy Hv Hf. destruct (occupy_free _ _ H5 Hv Hf) as (Hw & Hno & Heq).
  unfold rollback_one. rewrite Ety, Ephy, Ht, (get_leaf_put t i n) by done. unfold rollback_mark_occupied, on_tree.
  rewrite Ht, (mark_vnpu_free_eq _ i (occupy (rs_vnpu_id st) n)) by (done || by eapply put_leaf_lookup). rewrite Hno.
  cbn [mbind option_bind]. rewrite Heq. change (set_leaves (<[i := n]> ?l) ?t) with (put_leaf i n t).
  by rewrite put_leaf_put, put_leaf_same.
Qed.

Lemma undo_quota o a t i n n1 st :
  at_leaf t i n -> phy_of n1 = phy_of n -> node_wf n1 ->
  a_tree a = put_leaf i (with_quota (rs_aicore_delta st) (rs_hbm_delta st) n1) t ->
  rs_type st = STEP_UPDATE_QUOTA -> rs_phy_id st = phy_of n -> - I32_HALF < rs_aicore_delta st ->
  INT64_MIN < rs_hbm_delta st < - INT64_MIN ->
  rollback_one o a st = Some (ENPU_SUCCESS, set_a_tree (put_leaf i n1 t) a).
Proof.
  intros [H1 H2 H3 H4 H5] Ep Hn1 Ht Ety Ephy Ha Hh. unfold rollback_one. rewrite Ety, Ephy, Ht, (get_leaf_put t i n) by done.
  unfold rollback_update_quota, on_tree. rewrite (proj2 (Z.eqb_neq _ _)), (proj2 (Z.eqb_neq _ INT64_MIN)) by lia. cbn [orb].
  rewrite Ht, (update_quota_eq _ i (with_quota (rs_aicore_delta st) (rs_hbm_delta st) n1))
    by ((by eapply put_leaf_lookup) || (by apply with_quota_wf) || (unfold INT64_MIN in *; lia)).
  cbn [mbind option_bind]. rewrite with_quota_undo by done. change (set_leaves (<[i := n1]> ?l) ?t) with (put_leaf i n1 t).
  by rewrite put_leaf_put.
Qed.

Lemma undo_policy o a t i n n2 p st :
  at_leaf t i n -> phy_of n2 = phy_of n -> node_wf n2 -> (length (policies n2) < 128)%nat ->
  a_tree a = put_leaf i (with_policies (policies n2 ++ [p]) n2) t ->
  rs_type st = STEP_ATTACH_POLICY -> rs_phy_id st = phy_of n -> 0 <= rs_vnpu_id st < 128 -> pe_vnpu_id p = rs_vnpu_id st ->
  (rs_vnpu_id st ∉ pe_vnpu_id <$> policies n2) ->
  rollback_one o a st = Some (ENPU_SUCCESS, set_a_tree (put_leaf i (with_policies (policies n2) n2) t) a).
Proof.
  intros [H1 H2 H3 H4 H5] Ep Hn2 Hlen Ht Ety Ephy Hv Hp Hnin. unfold rollback_one. rewrite Ety, Ephy, Ht, (get_leaf_put t i n) by done.
  unfold rollback_attach_policy, on_tree.
  rewrite Ht, (detach_policy_eq _ i (with_policies (policies n2 ++ [p]) n2) _ (policies n2) p []).
  - cbn [mbind option_bind]. rewrite app_nil_r.
    change (with_policies (policies n2) (with_policies (policies n2 ++ [p]) n2)) with (with_policies (policies n2) n2).
    change (set_leaves (<[i := ?x]> ?l) ?t) with (put_leaf i x t). by rewrite put_leaf_put.
  - by eapply put_leaf_lookup.
  - apply with_policies_wf; [done|]. rewrite length_app. simpl. lia.
  - done.
  - done.
  - done.
  - apply Forall_forall. intros q Hq E. apply Hnin, list_elem_of_fmap. by exists q.
  - done.
Qed.

End undo.

(** The shared memory of a vNPU: what [shm_apply_vnpu_locked] and
    [shm_release_vnpu_locked] do to the map of entries. *)

(** * Preservation of the shape *)

Lemma shm_ok_set m phy s s' :
  shm_ok m -> shm_manager_get_state m phy = Some s -> shm_wf s' -> st_shm_id s' = st_shm_id s -> shm_ok (set_state phy s' m).
Proof.
  intros [Hwf Hid] Hs Hw E. pose proof (get_state_range _ _ _ Hs) as Hp. constructor; [by apply set_state_wf|].
  intros phy' s0. rewrite get_state_set by (done || apply (wf_states _ Hwf)). destruct (decide _) as [->|]; [|apply Hid].
  intros [= <-]. rewrite E. by apply (Hid phy).
Qed.

Lemma with_sched_spec m phy v f :
  mgr_wf m -> 0 <= v < 100 -> exists m', with_sched m phy v f = Some m' ∧ mgr_wf m' ∧ shm_states m' = shm_states m.
Proof.
  intros Hwf Hv. unfold with_sched. destruct (shm_manager_get_sched_struct m phy) as [s|] eqn:Hs; [|by exists m].
  pose proof (wf_sched _ Hwf _ _ Hs) as Hl. unfold sched_store. rewrite (proj2 (Z.ltb_ge v 0)) by lia.
  destruct (lookup_lt_is_Some_2 (sched_slots s) (Z.to_nat v)) as [x Hx]; [rewrite Hl; lia|]. rewrite Hx. cbn [mbind option_bind].
  eexists. split; [done|]. split; [|done]. apply set_sched_wf; [done|by eapply get_sched_range|].
  unfold sched_wf. simpl. by rewrite length_insert.
Qed.

Lemma same_states_get m m' phy : shm_states m' = shm_states m -> shm_manager_get_state m' phy = shm_manager_get_state m phy.
Proof. intros E. unfold shm_manager_get_state. by rewrite E. Qed.

Lemma same_states_map m m' phy v : shm_states m' = shm_states m -> die_map m' phy v = die_map m phy v.
Proof. intros E. unfold die_map. by rewrite (same_states_get _ _ _ E). Qed.

Lemma same_states_ok m m' : shm_ok m -> mgr_wf m' -> shm_states m' = shm_states m -> shm_ok m'.
Proof. intros [_ Hid] Hwf E. constructor; [done|]. intros phy s. rewrite (same_states_get _ _ _ E). apply Hid. Qed.

Lemma die_map_none_bit m phy s v : shm_wf s -> shm_manager_get_state m phy = Some s -> die_map m phy v = None -> vnpu_bitmap_test (st_bitmap s) v = false.
Proof.
  intros Hwf Hs H. unfold die_map in H. rewrite Hs in H. simpl in H. apply not_true_iff_false. intros Ht.
  apply find_entry_is_Some in Ht as [e He]; [|done]. congruence.
Qed.

Lemma init_state_eq m phy s total :
  shm_manager_get_state m phy = Some s ->
  exists s', shm_manager_init_state m phy total = Some (ENPU_SUCCESS, set_state phy s' m)
    ∧ st_bitmap s' = st_bitmap s ∧ st_entries s' = st_entries s ∧ st_shm_id s' = st_shm_id s.
Proof. intros Hs. unfold shm_manager_init_state. rewrite (with_state_eq m phy s) by done. eexists. by split. Qed.

Lemma same_entries_find s s' v : st_bitmap s' = st_bitmap s -> st_entries s' = st_entries s -> find_entry s' v = find_entry s v.
Proof. intros E1 E2. unfold find_entry, entry_at. by rewrite E1, E2. Qed.

Lemma same_entries_wf s s' : shm_wf s -> st_bitmap s' = st_bitmap s -> st_entries s' = st_entries s -> shm_wf s'.
Proof. intros [H1 H2 H3 H4] E1 E2. constructor; rewrite ?E1, ?E2; done. Qed.

(** Removing an entry, also from a die that does not have it. *)
Lemma remove_entry_ok m phy v :
  shm_ok m -> is_Some (shm_manager_get_state m phy) -> 0 <= v < 128 ->
  exists rc m', shm_manager_remove_entry m phy v = Some (rc, m') ∧ shm_ok m'
    ∧ forall phy' w, die_map m' phy' w = if decide (phy' = phy ∧ w = v) then None else die_map m phy' w.
Proof.
  intros Hok [s Hs] Hv. pose proof (so_wf _ Hok) as Hwf. pose proof (wf_state _ Hwf _ _ Hs) as Hsw.
  pose proof (get_state_range _ _ _ Hs) as Hp. destruct (entry_at_wf s v Hsw Hv) as (e & He & Hew).
  rewrite (remove_entry_eq m phy s v e) by done. destruct (vnpu_bitmap_test (st_bitmap s) v) eqn:Hb.
  - eexists _, _. split; [done|]. split; [eapply shm_ok_set; [done|done|by apply drop_vnpu_wf|done]|].
    intros phy' w. rewrite die_map_set by done. destruct (decide (phy' = phy)) as [->|Hne]; [|by rewrite decide_False by naive_solver].
    unfold drop_vnpu. rewrite find_entry_remove by done. destruct (decide (w = v)) as [->|]; [by rewrite decide_True|].
    rewrite decide_False by naive_solver. unfold die_map. by rewrite Hs.
  - eexists _, _. split; [done|]. split; [done|]. intros phy' w. destruct (decide _) as [[-> ->]|]; [|done].
    unfold die_map. rewrite Hs. simpl. apply eq_None_not_Some. rewrite find_entry_is_Some by done. congruence.
Qed.

Section shm.
  Context `{SC : Securec} {S : Type} `{!Storage S}.
  Implicit Types a : npu_allocator S.

(** * Applying an entry to a die that does not have the id *)

Lemma get_or_create_ok env a phy die rc id m names :
  shm_ok (a_shm a) -> from_option sched_wf True (so_sched_existing (ae_shm_os env)) -> die <> EmptyString ->
  shm_manager_get_or_create_shm (ae_shm_os env) (a_shm a) (a_names a) phy die SHM_ID_LEN = (rc, id, m, names) ->
  shm_ok m ∧ (forall phy' v, die_map m phy' v = die_map (a_shm a) phy' v)
  ∧ (rc = ENPU_SUCCESS -> id <> EmptyString ∧ (String.length id < 64)%nat ∧ is_Some (shm_manager_get_state m phy)).
Proof.
  intros Hok Hex Hdie E. pose proof Hok as [Hwf Hid].
  destruct (get_or_create_spec _ _ _ _ _ _ _ _ _ _ Hwf Hex E) as (Hwm & Hfail & Hsucc).
  destruct (decide (rc = ENPU_SUCCESS)) as [Hrc|Hrc]; [|rewrite (Hfail Hrc); by split_and!].
  destruct (Hsucc Hrc) as ([s Hs] & Hold & Hnew & Hoth).
  assert (Hidm : forall phy' s', shm_manager_get_state m phy' = Some s' -> st_shm_id s' <> EmptyString ∧ (String.length (st_shm_id s') < 64)%nat).
  { intros phy' s' Hs'. destruct (decide (phy' = phy)) as [->|Hne]; [|rewrite (proj1 (Hoth _ Hne)) in Hs'; by apply Hid in Hs'].
    destruct (shm_manager_get_state (a_shm a) phy) as [s0|] eqn:E0.
    - destruct (Hold (mk_is_Some _ _ eq_refl)) as [-> _]. by apply (Hid phy).
    - rewrite (Hnew eq_refl) in Hs'. injection Hs' as <-. simpl. rewrite prefix_of_len_length. split; [|lia].
      by destruct die. }
  split; [by constructor|]. split.
  - intros phy' v. unfold die_map. destruct (decide (phy' = phy)) as [->|Hne]; [|by rewrite (proj1 (Hoth _ Hne))].
    destruct (shm_manager_get_state (a_shm a) phy) as [s0|] eqn:E0.
    + destruct (Hold (mk_is_Some _ _ eq_refl)) as [-> _]. by rewrite E0.
    + rewrite (Hnew eq_refl). simpl. by rewrite state_new_empty.
  - intros _. destruct (Hidm _ _ Hs) as [H1 H2]. rewrite (get_or_create_id _ _ _ _ _ _ _ _ _ _ E Hrc Hwf Hs H2). split_and!; [done..|by exists s].
Qed.

Lemma shm_apply_spec env a phy die total e prio :
  shm_ok (a_shm a) -> from_option sched_wf True (so_sched_existing (ae_shm_os env)) -> die <> EmptyString ->
  0 <= e_vnpu_id e < 64 -> entry_wf e -> die_map (a_shm a) phy (e_vnpu_id e) = None ->
  exists rc id m names,
    shm_apply_vnpu_locked env a phy die total e prio SHM_ID_LEN = Some (rc, id, set_a_names names (set_a_shm m a)) ∧ shm_ok m ∧
    (rc = ENPU_SUCCESS ∧ id <> EmptyString ∧ (String.length id < 64)%nat ∧ is_Some (shm_manager_get_state m phy)
       ∧ (forall phy' v, die_map m phy' v = if decide (phy' = phy ∧ v = e_vnpu_id e) then Some e else die_map (a_shm a) phy' v)
     \/ rc <> ENPU_SUCCESS ∧ forall phy' v, die_map m phy' v = die_map (a_shm a) phy' v).
Proof.
  intros Hok Hex Hdie Hv He Hnone. unfold shm_apply_vnpu_locked. change (if 0 <? SHM_ID_LEN then SHM_ID_LEN else SHM_ID_LEN) with SHM_ID_LEN.
  destruct (shm_manager_get_or_create_shm _ _ _ _ _ _) as [[[rc id] m] names] eqn:E.
  destruct (get_or_create_ok _ _ _ _ _ _ _ _ Hok Hex Hdie E) as (Hokm & Hmap & Hsucc).
  destruct (Z.eqb_spec rc ENPU_SUCCESS) as [->|Hrc]; cbn [negb]; [|by eexists _, _, _, _; split; [done|]; split; [done|]; right].
  destruct (Hsucc eq_refl) as (Hid1 & Hid2 & [s Hs]). cbn [a_shm set_a_shm set_a_names].
  destruct (init_state_eq m phy s total Hs) as (s1 & -> & E1 & E2 & E3). cbn [mbind option_bind a_shm set_a_shm set_a_names].
  pose proof (so_wf _ Hokm) as Hwm. pose proof (get_state_range _ _ _ Hs) as Hp. pose proof (wf_state _ Hwm _ _ Hs) as Hsw.
  assert (Hs1w : shm_wf s1) by by eapply same_entries_wf.
  assert (Hok1 : shm_ok (set_state phy s1 m)) by by eapply shm_ok_set.
  assert (Hget1 : shm_manager_get_state (set_state phy s1 m) phy = Some s1)
    by (rewrite get_state_set by (done || apply (wf_states _ Hwm)); by rewrite decide_True).
  assert (Hmap1 : forall phy' v, die_map (set_state phy s1 m) phy' v = die_map (a_shm a) phy' v).
  { intros phy' v. rewrite die_map_set by done. destruct (decide _) as [->|]; [|apply Hmap].
    rewrite (same_entries_find s s1) by done. rewrite <- Hmap. unfold die_map. by rewrite Hs. }
  assert (Hbit : vnpu_bitmap_test (st_bitmap s1) (e_vnpu_id e) = false)
    by (eapply (die_map_none_bit (set_state phy s1 m) phy); [done|done|by rewrite Hmap1]).
  rewrite Hget1, Hbit. cbn [mbind option_bind a_shm set_a_shm set_a_names].
  rewrite (add_entry_eq _ phy s1 e Hget1 Hs1w) by lia. rewrite Hbit. cbn [mbind option_bind negb a_shm set_a_shm set_a_names].
  set (m3 := set_state phy (add_vnpu e s1) (set_state phy s1 m)).
  assert (Hok3 : shm_ok m3) by (eapply shm_ok_set; [done|done|apply add_vnpu_wf; done || lia|done]).
  change (ENPU_SUCCESS =? ENPU_SUCCESS) with true. cbn [negb].
  destruct (with_sched_spec m3 phy (e_vnpu_id e) (set_slot_priority (prio mod 256)) (so_wf _ Hok3)) as (m4 & -> & Hw4 & Es4); [lia|].
  cbn [mbind option_bind]. unfold set_alive_time_now.
  destruct (with_sched_spec m4 phy (e_vnpu_id e) (set_slot_alive (ae_clock_ns env)) Hw4) as (m5 & -> & Hw5 & Es5); [lia|].
  cbn [mbind option_bind]. eexists _, _, m5, names. split; [done|].
  assert (Es : shm_states m5 = shm_states m3) by congruence.
  split; [by apply (same_states_ok m3)|]. left. split_and!; try done.
  - rewrite (same_states_get _ _ _ Es). unfold m3.
    rewrite get_state_set by (done || by apply (wf_states _ (so_wf _ Hok1))). rewrite decide_True by done. eauto.
  - intros phy' v. rewrite (same_states_map _ _ _ _ Es). unfold m3. rewrite die_map_set by (done || apply (so_wf _ Hok1)).
    destruct (decide (phy' = phy)) as [->|Hne].
    + unfold add_vnpu. rewrite find_entry_add by (done || lia). rewrite <- Hmap1. unfold die_map. rewrite Hget1. simpl.
      destruct (decide (v = e_vnpu_id e)); [by rewrite decide_True|]. by rewrite decide_False by naive_solver.
    + rewrite decide_False by naive_solver. apply Hmap1.
Qed.

(** * Releasing a vNPU *)

Lemma tlsf_free_total c off t : tlsf_ok t -> exists t', tlsf_free c off t = Some t' ∧ tlsf_ok t'.
Proof.
  intros [HI|Hn].
  - destruct (Z.eq_dec (lock_rc c) 0) as [Hl|Hl].
    + destruct (inv_free_outcome c off t HI Hl) as (t' & -> & H & _). exists t'. split; [done|by left].
    + unfold tlsf_free. rewrite (proj2 (Z.eqb_neq (lock_rc c) 0)) by done. cbn [negb].
      exists t. split; [by destruct (_ || _)|by left].
  - exists t. unfold tlsf_free. rewrite Hn. split; [done|by right].
Qed.

(** What freeing the buffers of a vNPU keeps of the state of the die. *)
Record same_die (v : Z) (s s' : shm_state) : Prop := {
  sd_wf : shm_wf s';
  sd_bitmap : st_bitmap s' = st_bitmap s;
  sd_id : st_shm_id s' = st_shm_id s;
  sd_cmd : st_swap_cmd s' = st_swap_cmd s;
  sd_find w : w <> v -> find_entry s' w = find_entry s w;
}.

Lemma same_die_trans v s1 s2 s3 : same_die v s1 s2 -> same_die v s2 s3 -> same_die v s1 s3.
Proof.
  intros [A1 A2 A3 A5 A4] [B1 B2 B3 B5 B4]. constructor; [done|congruence|congruence|congruence|]. intros w Hw. by rewrite B4, A4.
Qed.

Lemma put_process_same_die v i p s : shm_wf s -> 0 <= v < 128 -> same_die v s (put_process v i p s).
Proof.
  intros Hwf Hv. destruct (entry_at_wf s v Hwf Hv) as (e & He & _). constructor.
  - by apply put_process_wf.
  - by rewrite (put_process_eq s v e).
  - by rewrite (put_process_eq s v e).
  - by rewrite (put_process_eq s v e).
  - intros w Hw. rewrite (put_process_eq s v e) by done. unfold find_entry. change (st_bitmap (put_entry ?a ?b s)) with (st_bitmap s).
    destruct (vnpu_id_in_die w) eqn:Ew; [|done]. apply in_die_spec in Ew. cbn [negb].
    rewrite entry_at_put by (done || lia). by rewrite decide_False.
Qed.

Lemma free_slots_spec c v slots s t :
  shm_wf s -> tlsf_ok t -> 0 <= v < 128 -> Forall (fun i => 0 <= i < 64) slots ->
  exists s' t', free_slots c s t v slots = Some (s', t') ∧ same_die v s s' ∧ tlsf_ok t'.
Proof.
  intros Hwf Ht Hv Hsl. revert s t Hwf Ht. induction Hsl as [|i slots Hi Hsl IH]; intros s t Hwf Ht.
  - exists s, t. by split_and!.
  - cbn [free_slots]. unfold shm_free_per_process. rewrite (proj2 (in_die_spec v) Hv), (proj2 (slot_range_spec i) Hi). cbn [negb orb].
    destruct (entry_at_wf s v Hwf Hv) as (e & He & _). destruct (process_at_wf s v e i Hwf He Hi) as (p & -> & _). cbn [mbind option_bind].
    destruct (p_swap_size p =? 0); cbn [mbind option_bind]; [by apply IH|]. unfold shm_swap_buffer_free_offset.
    destruct (tlsf_free_total (c i) (p_swap_offset p) t Ht) as (t1 & -> & Ht1). cbn [mbind option_bind].
    pose proof (put_process_same_die v i (set_p_swap 0 0 p) s Hwf Hv) as Hsd.
    destruct (IH _ t1 (sd_wf _ _ _ Hsd) Ht1) as (s' & t' & E & Hsd' & Ht'). exists s', t'. split; [done|]. split; [|done].
    by eapply same_die_trans.
Qed.

Lemma shm_free_spec c v s t :
  shm_wf s -> tlsf_ok t -> 0 <= v < 128 -> exists s' t', shm_free c s t v = Some (0, s', t') ∧ same_die v s s' ∧ tlsf_ok t'.
Proof.
  intros Hwf Ht Hv. unfold shm_free. rewrite (proj2 (in_die_spec v) Hv). cbn [negb].
  destruct (free_slots_spec c v (seqZ 0 MAX_PROCESSES_PER_VNPU) s t) as (s' & t' & -> & ? & ?); [done..| |by exists s', t'].
  apply Forall_forall. intros i Hi. apply elem_of_seqZ in Hi. unfold MAX_PROCESSES_PER_VNPU in Hi. lia.
Qed.

Lemma set_same a : set_a_tlsf (a_tlsf a) (set_a_shm (a_shm a) a) = a.
Proof. by destruct a. Qed.

Lemma shm_release_spec c a phy v :
  shm_ok (a_shm a) -> tlsf_ok (a_tlsf a) -> 0 <= phy < 16 -> 0 <= v < 64 ->
  exists rc m t, shm_release_vnpu_locked c a phy v = Some (rc, set_a_tlsf t (set_a_shm m a)) ∧ shm_ok m ∧ tlsf_ok t
    ∧ forall phy' w, die_map m phy' w = if decide (phy' = phy ∧ w = v) then None else die_map (a_shm a) phy' w.
Proof.
  intros Hok Ht Hp Hv. pose proof (so_wf _ Hok) as Hwf. unfold shm_release_vnpu_locked, MAX_NPU_PER_NODE, MAX_VNPU_PER_DIE.
  rewrite (proj2 (Z.ltb_ge phy 0)), (proj2 (Z.leb_gt 16 phy)), (proj2 (Z.ltb_ge v 0)), (proj2 (Z.leb_gt 128 v)) by lia. cbn [orb].
  assert (Hnone : die_map (a_shm a) phy v = None -> exists rc m t, Some (ENPU_SUCCESS, a) = Some (rc, set_a_tlsf t (set_a_shm m a)) ∧ shm_ok m ∧ tlsf_ok t
    ∧ forall phy' w, die_map m phy' w = if decide (phy' = phy ∧ w = v) then None else die_map (a_shm a) phy' w).
  { intros Hn. exists ENPU_SUCCESS, (a_shm a), (a_tlsf a). rewrite set_same. split_and!; try done. intros phy' w.
    destruct (decide _) as [[-> ->]|]; done. }
  destruct (shm_manager_get_state (a_shm a) phy) as [s|] eqn:Hs; [|apply Hnone; unfold die_map; by rewrite Hs].
  pose proof (wf_state _ Hwf _ _ Hs) as Hsw. destruct (vnpu_bitmap_test (st_bitmap s) v) eqn:Hbit; cbn [negb].
  2:{ apply Hnone. unfold die_map. rewrite Hs. simpl. apply eq_None_not_Some. rewrite find_entry_is_Some by done. congruence. }
  unfold free_on_die. destruct (shm_free_spec c v s (a_tlsf a) Hsw Ht) as (s1 & t1 & -> & Hsd & Ht1); [lia|].
  cbn [mbind option_bind a_shm set_a_shm set_a_tlsf]. set (m1 := set_state phy s1 (a_shm a)).
  assert (Hok1 : shm_ok m1) by (eapply shm_ok_set; [done|done|apply (sd_wf _ _ _ Hsd)|apply (sd_id _ _ _ Hsd)]).
  assert (Hg1 : shm_manager_get_state m1 phy = Some s1)
    by (unfold m1; rewrite get_state_set by (done || apply (wf_states _ Hwf)); by rewrite decide_True).
  destruct (entry_at_wf s1 v (sd_wf _ _ _ Hsd)) as (e & He & Hew); [lia|].
  rewrite (remove_entry_eq m1 phy s1 v e Hg1 (sd_wf _ _ _ Hsd)) by (done || lia). rewrite (sd_bitmap _ _ _ Hsd), Hbit.
  cbn [mbind option_bind a_shm set_a_shm set_a_tlsf]. change (ENPU_SUCCESS =? ENPU_SUCCESS) with true. cbn [negb].
  set (m2 := set_state phy (drop_vnpu v e s1) m1).
  assert (Hok2 : shm_ok m2) by (eapply shm_ok_set; [done|done|apply drop_vnpu_wf; [apply (sd_wf _ _ _ Hsd)|done|lia]|done]).
  destruct (with_sched_spec m2 phy v (fun x => set_slot_priority VNPU_PRIORITY_NORMAL (set_slot_kernel 0 (set_slot_alive 0 x))) (so_wf _ Hok2))
    as (m3 & -> & Hw3 & Es); [lia|]. cbn [mbind option_bind].
  eexists _, m3, t1. split; [done|]. split; [by apply (same_states_ok m2)|]. split; [done|].
  intros phy' w. rewrite (same_states_map _ _ _ _ Es). unfold m2. rewrite die_map_set by (done || apply (so_wf _ Hok1)).
  destruct (decide (phy' = phy)) as [->|Hne].
  - unfold drop_vnpu. rewrite find_entry_remove by (apply (sd_wf _ _ _ Hsd) || lia).
    destruct (decide (w = v)) as [->|Hw]; [by rewrite decide_True|]. rewrite decide_False by naive_solver.
    rewrite (sd_find _ _ _ Hsd) by done. unfold die_map. by rewrite Hs.
  - rewrite decide_False by naive_solver. unfold m1. rewrite die_map_set by done. by rewrite decide_False.
Qed.

End shm.
