(* ===== verification/AllocProofs.v ===== *)
(** An allocation either adds one vNPU everywhere or leaves everything as it
    was; a release takes it out everywhere. *)

From stdpp Require Import pretty.
From S2P Require Import Prelude CLib SwapTlsf SwapTlsfProofs SwapTlsfThms NpuTree NpuTreeFacts Evaluator EvaluatorThms Registry RegistryThms ConfigManager ShmManager ShmFacts RollbackLog Allocator AllocInv AllocShm.

(** The names of a request fit their arrays. *)
Definition names_fit (req : alloc_request) : Prop :=
  (String.length (rq_pod_uid req) < 64)%nat ∧ (String.length (rq_container_name req) < 32)%nat.

(** An existing scheduling object has the size of the struct. *)
Definition env_ok (env : alloc_env) : Prop := from_option sched_wf True (so_sched_existing (ae_shm_os env)).

Section records.
  Context {S : Type}.

(** Nothing but the allocation flag of a policy array and the state objects
    of dies without vNPUs may differ; files other than [path] are the same. *)
Record kept (a0 a : npu_allocator S) (path : string) : Prop := {
  k_tree : a_tree a = a_tree a0 \/ exists i n, leaves (a_tree a0) !! i = Some n ∧ a_tree a = put_leaf i (norm_node n) (a_tree a0);
  k_registry : a_registry a = a_registry a0;
  k_shm : shm_ok (a_shm a);
  k_map phy v : die_map (a_shm a) phy v = die_map (a_shm a0) phy v;
  k_tlsf : a_tlsf a = a_tlsf a0;
  k_oversub : a_oversub a = a_oversub a0;
  k_files q : q <> path -> a_files a !! q = a_files a0 !! q;
}.

(** The shared-memory entry of an allocation. *)
Definition entry_of (oversub : bool) (al : allocation) : vnpu_shm_entry :=
  build_shm_entry (al_vnpu_id al) (al_hbm_quota al) (al_hbm_limit al) (al_sched_policy al) (al_swap_priority al) oversub.

(** The allocation [al] has been added to tree, registry and shared memory,
    there with the entry [e]. *)
Record placed (a0 : npu_allocator S) (al : allocation) (e : vnpu_shm_entry) (a : npu_allocator S) : Prop := {
  pl_tree : exists i n, leaves (a_tree a0) !! i = Some n ∧ phy_of n = al_phy_id al ∧ a_tree a = put_leaf i (place_node al n) (a_tree a0)
    ∧ vnpu_free n (al_vnpu_id al) = true ∧ al_aicore_quota al <= aicore_quota (allocatable n) ∧ al_hbm_quota al <= hbm_quota (allocatable n);
  pl_ok : alloc_ok al;
  pl_entries : entries (a_registry a) = entries (a_registry a0) ++ [al];
  pl_reg : registry_wf (a_registry a);
  pl_shm : shm_ok (a_shm a);
  pl_map phy v : die_map (a_shm a) phy v = if decide (phy = al_phy_id al ∧ v = al_vnpu_id al) then Some e else die_map (a_shm a0) phy v;
  pl_tlsf : a_tlsf a = a_tlsf a0;
  pl_oversub : a_oversub a = a_oversub a0;
}.

(** The same by an allocation, with its configuration file. *)
Record gained `{SC : Securec} (a0 : npu_allocator S) (al : allocation) (a : npu_allocator S) : Prop := {
  g_tree : exists i n, leaves (a_tree a0) !! i = Some n ∧ phy_of n = al_phy_id al ∧ a_tree a = put_leaf i (place_node al n) (a_tree a0)
    ∧ vnpu_free n (al_vnpu_id al) = true ∧ al_aicore_quota al <= aicore_quota (allocatable n) ∧ al_hbm_quota al <= hbm_quota (allocatable n);
  g_ok : alloc_ok al;
  g_entries : entries (a_registry a) = entries (a_registry a0) ++ [al];
  g_reg : registry_wf (a_registry a);
  g_shm : shm_ok (a_shm a);
  g_map : exists b, forall phy v, die_map (a_shm a) phy v
    = if decide (phy = al_phy_id al ∧ v = al_vnpu_id al) then Some (entry_of b al) else die_map (a_shm a0) phy v;
  g_tlsf : a_tlsf a = a_tlsf a0;
  g_oversub : a_oversub a = a_oversub a0;
  g_file : a_files a = <[config_path (a_config_base a0) (al_pod_uid al) (al_container_name al) := config_text (config_of al (al_shm_id al))]> (a_files a0);
}.

End records.

Section inv.
  Context {S : Type} (C : capacities).
  Implicit Types a : npu_allocator S.

Lemma norm_node_holds n als : leaf_holds C n als -> leaf_holds C (norm_node n) als.
Proof. intros [H1 H2 H3 H4 H5]. by constructor. Qed.

Lemma norm_node_wf n : node_wf n -> node_wf (norm_node n).
Proof. intros [? ? ? ? ? ?]. by constructor. Qed.

Lemma kept_inv a0 a path : alloc_inv C a0 -> kept a0 a path -> alloc_inv C a.
Proof.
  intros Hinv [Kt Ke Ks Km Kl Ko _]. destruct Hinv as [inv_tree0 inv_init0 inv_phys0 inv_leaf_ok0 inv_oversub0 inv_reg0 inv_shm0 inv_tlsf0 inv_allocs0 inv_on_leaf0 inv_slots0 inv_holds0 inv_shm_map0].
  assert (Hw := wf_nodes _ inv_tree0).
  destruct Kt as [Et|(i & n & Hn & Et)].
  { constructor; rewrite ?Et, ?Ke, ?Kl, ?Ko; try done. intros phy v. by rewrite Km. }
  assert (Hphys : phy_of <$> leaves (a_tree a) = phy_of <$> leaves (a_tree a0)) by (rewrite Et; by apply (insert_leaf_phys _ _ n)).
  constructor; rewrite ?Hphys, ?Ke, ?Kl, ?Ko; try done.
  - rewrite Et. apply tree_wf_insert; [done|]. apply norm_node_wf. exact (Forall_lookup_1 _ _ _ _ Hw Hn).
  - by rewrite Et.
  - rewrite Et. apply Forall_insert; [done|]. pose proof (Forall_lookup_1 _ _ _ _ inv_leaf_ok0 Hn) as [? ? ? ? ? ?]. by constructor.
  - intros j m. rewrite Et. simpl. intros [(<- & <- & _)|(Hne & Hm)]%list_lookup_insert_Some; [|by apply (inv_holds0 j)].
    change (phy_of (norm_node n)) with (phy_of n). apply norm_node_holds. by apply (inv_holds0 i).
  - intros phy v. by rewrite Km.
Qed.

(** The ids of one die are distinct. *)
Lemma on_die_NoDup phy l : NoDup (al_slot <$> l) -> NoDup (al_vnpu_id <$> on_die phy l).
Proof.
  induction l as [|al l IH]; [constructor|]. rewrite fmap_cons, NoDup_cons. intros [Hn Hnd].
  destruct (decide (al_phy_id al = phy)) as [E|E].
  - rewrite on_die_cons_same, fmap_cons, NoDup_cons by done. split; [|by apply IH].
    intros Hin. apply Hn. unfold al_slot at 1. rewrite E. by apply slot_on_die.
  - rewrite on_die_cons_other by done. by apply IH.
Qed.

Lemma on_die_ok phy l : Forall alloc_ok l -> Forall alloc_ok (on_die phy l).
Proof. intros H. rewrite Forall_forall in *. intros al [_ Hin]%elem_of_on_die. by apply H. Qed.

(** A die holds at most 64 policies. *)
Lemma inv_policies a i n : alloc_inv C a -> leaves (a_tree a) !! i = Some n -> (length (policies n) <= 64)%nat.
Proof.
  intros H Hn. eapply leaf_holds_length; [exact (inv_holds _ _ H _ _ Hn)| |].
  - apply on_die_ok, (inv_allocs _ _ H).
  - apply on_die_NoDup, (inv_slots _ _ H).
Qed.

(** A free id is not in the registry, in the shared memory or among the
    policies of the die. *)
Lemma inv_free_id a i n v :
  alloc_inv C a -> leaves (a_tree a) !! i = Some n -> 0 <= v < 64 -> vnpu_free n v = true ->
  ((phy_of n, v) ∉ al_slot <$> entries (a_registry a)) ∧ die_map (a_shm a) (phy_of n) v = None
  ∧ (v ∉ pe_vnpu_id <$> policies n).
Proof.
  intros H Hn Hv Hf. pose proof (inv_holds _ _ H _ _ Hn) as Hh.
  assert (Hnin : v ∉ al_vnpu_id <$> on_die (phy_of n) (entries (a_registry a))).
  { intros Hin. apply (lh_ids _ _ _ Hh v Hv) in Hin. congruence. }
  split_and!.
  - by rewrite slot_on_die.
  - apply eq_None_not_Some. rewrite (inv_shm_map _ _ H), slot_on_die. done.
  - by rewrite (lh_policies _ _ _ Hh).
Qed.

Lemma placed_inv a0 al e a : alloc_inv C a0 -> placed a0 al e a -> alloc_inv C a.
Proof.
  intros Hinv [(i & n & Hn & Hphy & Et & Hfree & Hq1 & Hq2) Gok Ge Gr Gs Gm Gl Go].
  pose proof (inv_policies a0 i n Hinv Hn) as Hlen. destruct Gok as (Gv & Ga & Gh) eqn:Eok. clear Eok.
  destruct (inv_free_id a0 i n (al_vnpu_id al) Hinv Hn Gv Hfree) as (Hslot & _ & _). rewrite Hphy in Hslot.
  destruct Hinv as [inv_tree0 inv_init0 inv_phys0 inv_leaf_ok0 inv_oversub0 inv_reg0 inv_shm0 inv_tlsf0 inv_allocs0 inv_on_leaf0 inv_slots0 inv_holds0 inv_shm_map0].
  assert (Hw := wf_nodes _ inv_tree0). pose proof (Forall_lookup_1 _ _ _ _ Hw Hn) as Hnw.
  assert (Hphys : phy_of <$> leaves (a_tree a) = phy_of <$> leaves (a_tree a0)) by (rewrite Et; by apply (insert_leaf_phys _ _ n)).
  constructor; rewrite ?Hphys, ?Ge, ?Gl, ?Go; try done.
  - rewrite Et. apply tree_wf_insert; [done|]. apply place_node_wf; [done|done|lia].
  - by rewrite Et.
  - rewrite Et. apply Forall_insert; [done|]. pose proof (Forall_lookup_1 _ _ _ _ inv_leaf_ok0 Hn) as [? ? ? ? ? ?]. by constructor.
  - apply Forall_app. split; [done|]. by constructor.
  - intros al' [Hin| ->%list_elem_of_singleton]%elem_of_app; [by apply inv_on_leaf0|]. rewrite <- Hphy.
    apply list_elem_of_fmap. exists n. split; [done|]. by eapply list_elem_of_lookup_2.
  - rewrite fmap_app. apply NoDup_app. split; [done|]. split; [|apply NoDup_singleton].
    intros x Hx ->%list_elem_of_singleton. done.
  - intros j m. rewrite Et, on_die_app. simpl. intros [(<- & <- & _)|(Hne & Hm)]%list_lookup_insert_Some.
    + change (phy_of (place_node al n)) with (phy_of n). rewrite (on_die_cons_same _ al []) by done.
      apply leaf_holds_place; try done. by apply (inv_holds0 i).
    + rewrite (on_die_cons_other _ al []); [simpl; rewrite app_nil_r; by apply (inv_holds0 j)|].
      intros E. apply Hne. apply (NoDup_lookup (phy_of <$> leaves (a_tree a0)) i j (phy_of n) inv_phys0);
        rewrite list_lookup_fmap; [by rewrite Hn|rewrite Hm; simpl; congruence].
  - intros phy v. rewrite Gm, fmap_app. change (al_slot <$> [al]) with [(al_phy_id al, al_vnpu_id al)].
    rewrite elem_of_app, list_elem_of_singleton.
    destruct (decide _) as [[-> ->]|Hno]; [split; [auto|done]|]. rewrite inv_shm_map0. split; [auto|].
    intros [?|[= -> ->]]; [done|]. by destruct Hno.
Qed.

Lemma gained_placed `{SC : Securec} a0 al a : gained a0 al a -> exists b, placed a0 al (entry_of b al) a.
Proof. intros [? ? ? ? ? [b ?] ? ? ?]. exists b. by constructor. Qed.

Lemma gained_inv `{SC : Securec} a0 al a : alloc_inv C a0 -> gained a0 al a -> alloc_inv C a.
Proof. intros H [b Hp]%gained_placed. by eapply placed_inv. Qed.

End inv.
