(* ===== verification/AllocRollback.v ===== *)
(** The rollback of a failed allocation, after any number of its steps. *)

From stdpp Require Import pretty.
From S2P Require Import Prelude CLib SwapTlsf SwapTlsfProofs SwapTlsfThms NpuTree NpuTreeFacts Evaluator EvaluatorThms Registry RegistryThms ConfigManager ShmManager ShmFacts RollbackLog Allocator AllocInv AllocShm AllocProofs.

Section rollback.
  Context `{SC : Securec} {S : Type} `{!Storage S} (C : capacities).
  Implicit Types a : npu_allocator S.

(** The steps that an allocation appends. *)
Definition s_mark (phy v : Z) : rollback_step := mk_step STEP_MARK_OCCUPIED phy v 0 0 0 EmptyString EmptyString EmptyString.
Definition s_quota (phy v da dh : Z) : rollback_step := mk_step STEP_UPDATE_QUOTA phy v da dh 0 EmptyString EmptyString EmptyString.
Definition s_attach (phy v policy : Z) : rollback_step := mk_step STEP_ATTACH_POLICY phy v 0 0 policy EmptyString EmptyString EmptyString.
Definition s_shm (phy v : Z) (id : string) : rollback_step := mk_step STEP_CREATE_SHM phy v 0 0 0 EmptyString EmptyString id.
Definition s_config (phy v : Z) (pod container : string) : rollback_step := mk_step STEP_WRITE_CONFIG phy v 0 0 0 pod container EmptyString.

Definition tree_steps (phy : Z) (al : allocation) : rollback_log :=
  [s_mark phy (al_vnpu_id al); s_quota phy (al_vnpu_id al) (- al_aicore_quota al) (- al_hbm_quota al);
   s_attach phy (al_vnpu_id al) (al_sched_policy al)].

(** A die and an id that the evaluator can have chosen for [al]. *)
Record chosen (a0 : npu_allocator S) (i : nat) (n : npu_node) (al : allocation) : Prop := {
  ch_leaf : leaves (a_tree a0) !! i = Some n;
  ch_ok : alloc_ok al;
  ch_free : vnpu_free n (al_vnpu_id al) = true;
  ch_aicore : al_aicore_quota al <= aicore_quota (allocatable n);
  ch_hbm : al_hbm_quota al <= hbm_quota (allocatable n);
}.

Lemma log_step_eq ty phy v da dh pol pod container id a :
  (length (a_log a) < 16)%nat -> (String.length pod < 64)%nat -> (String.length container < 32)%nat -> (String.length id < 64)%nat ->
  log_step ty phy v da dh pol pod container id a = set_a_log (a_log a ++ [mk_step ty phy v da dh pol pod container id]) a.
Proof.
  intros H1 H2 H3 H4. unfold log_step, rollback_log_append, MAX_STEPS, MAX_UUID_LEN, MAX_NAME_LEN, SHM_ID_LEN, DIE_ID_LEN.
  rewrite (proj2 (Z.leb_gt _ _)) by lia. rewrite !strncpy_s_fits by lia. simpl.
  by rewrite !prefix_of_len_all by lia.
Qed.

Lemma chosen_at a0 i n al : alloc_inv C a0 -> chosen a0 i n al -> at_leaf (a_tree a0) i n.
Proof.
  intros H [Hn _ _ _ _]. constructor; [apply (inv_init _ _ H)|apply (inv_phys _ _ H)|done| |].
  - pose proof (Forall_lookup_1 _ _ _ _ (inv_leaf_ok _ _ H) Hn) as [? _ _ _ _ _]. lia.
  - exact (Forall_lookup_1 _ _ _ _ (wf_nodes _ (inv_tree _ _ H)) Hn).
Qed.

(** The quotas of a chosen allocation are in the ranges of their types. *)
Lemma chosen_bounds a0 i n al :
  alloc_inv C a0 -> chosen a0 i n al -> 0 <= al_aicore_quota al < I32_HALF ∧ 0 <= al_hbm_quota al < - INT64_MIN.
Proof.
  intros H [Hn (Hv & Ha & Hh) Hf H1 H2]. pose proof (inv_holds _ _ H _ _ Hn) as Hh'.
  pose proof (Forall_lookup_1 _ _ _ _ (inv_leaf_ok _ _ H) Hn) as [_ _ Hc1 Hc2 _ _].
  destruct (forall_alloc_ok_sums _ (on_die_ok (phy_of n) _ (inv_allocs _ _ H))) as [Hs1 Hs2].
  pose proof (lh_aicore _ _ _ Hh'). pose proof (lh_hbm _ _ _ Hh'). lia.
Qed.

Lemma rollback_mark_only o a a0 i n al f :
  alloc_inv C a0 -> chosen a0 i n al -> a_tree a = put_leaf i (occupy (al_vnpu_id al) n) (a_tree a0) ->
  rollback_loop o a [s_mark (phy_of n) (al_vnpu_id al)] f = Some (f, set_a_tree (a_tree a0) a).
Proof.
  intros H Hc Ht. cbn [rollback_loop]. destruct Hc as [Hn (Hv & Ha & Hh) Hf H1 H2] eqn:E.
  rewrite (undo_mark o a (a_tree a0) i n) by (done || by eapply chosen_at). done.
Qed.

Lemma rollback_two o a a0 i n al n1 f :
  alloc_inv C a0 -> chosen a0 i n al -> node_wf n1 -> phy_of n1 = phy_of n ->
  a_tree a = put_leaf i (with_quota (- al_aicore_quota al) (- al_hbm_quota al) n1) (a_tree a0) ->
  rollback_loop o a [s_quota (phy_of n) (al_vnpu_id al) (- al_aicore_quota al) (- al_hbm_quota al); s_mark (phy_of n) (al_vnpu_id al)] f
  = rollback_loop o (set_a_tree (put_leaf i n1 (a_tree a0)) a) [s_mark (phy_of n) (al_vnpu_id al)] f.
Proof.
  intros H Hc Hn1 Hp Ht. cbn [rollback_loop]. pose proof (chosen_bounds _ _ _ _ H Hc) as [? ?].
  rewrite (undo_quota o a (a_tree a0) i n n1) by (done || (by eapply chosen_at) || (simpl; unfold I32_HALF, INT64_MIN in *; lia)).
  done.
Qed.

(** After the three updates of the tree: the leaf is back, with its policy
    array allocated. *)
Lemma rollback_tree o a a0 i n al f :
  alloc_inv C a0 -> chosen a0 i n al -> a_tree a = put_leaf i (place_node al n) (a_tree a0) ->
  rollback_loop o a (reverse (tree_steps (phy_of n) al)) f = Some (f, set_a_tree (put_leaf i (norm_node n) (a_tree a0)) a).
Proof.
  intros H Hc Ht. pose proof (chosen_at _ _ _ _ H Hc) as Hat. pose proof (at_wf _ _ _ Hat) as Hnw.
  destruct (ch_ok _ _ _ _ Hc) as (Hv & Ha & Hh). pose proof (ch_free _ _ _ _ Hc) as Hf. pose proof (ch_leaf _ _ _ _ Hc) as Hn.
  destruct (occupy_free _ _ Hnw Hv Hf) as (How & _ & _). pose proof (inv_policies C _ _ _ H Hn) as Hlen.
  destruct (inv_free_id C _ _ _ _ H Hn Hv Hf) as (_ & _ & Hnin).
  change (reverse (tree_steps (phy_of n) al)) with
    [s_attach (phy_of n) (al_vnpu_id al) (al_sched_policy al);
     s_quota (phy_of n) (al_vnpu_id al) (- al_aicore_quota al) (- al_hbm_quota al); s_mark (phy_of n) (al_vnpu_id al)].
  set (n2 := with_quota (- al_aicore_quota al) (- al_hbm_quota al) (occupy (al_vnpu_id al) n)).
  assert (Estep : rollback_one o a (s_attach (phy_of n) (al_vnpu_id al) (al_sched_policy al))
    = Some (ENPU_SUCCESS, set_a_tree (put_leaf i (with_policies (policies n2) n2) (a_tree a0)) a)).
  { eapply undo_policy; [done|done|by apply with_quota_wf|simpl; lia|exact Ht|done|done|simpl; lia|done|done]. }
  change (rollback_loop o a (?s :: ?r) f) with ('(rc, a1) ← rollback_one o a s; rollback_loop o a1 r (if rc =? ENPU_SUCCESS then f else f + 1)).
  rewrite Estep. cbn [mbind option_bind]. change (ENPU_SUCCESS =? ENPU_SUCCESS) with true. cbn iota.
  set (a1 := set_a_tree _ a). set (no := with_policies (policies n) (occupy (al_vnpu_id al) n)).
  rewrite (rollback_two o a1 a0 i n al no) by (done || (apply with_policies_wf; [done|lia])).
  cbn [rollback_loop].
  (* the leaf under the mark is [norm_node n] *)
  assert (Hat' : at_leaf (put_leaf i (norm_node n) (a_tree a0)) i (norm_node n)).
  { destruct Hat as [A1 A2 A3 A4 A5]. constructor; [done|simpl; by erewrite insert_leaf_phys|by eapply put_leaf_lookup|done|by apply norm_node_wf]. }
  assert (Ho : occupy (al_vnpu_id al) (norm_node n) = no).
  { unfold no. rewrite <- (with_policies_same n Hnw). reflexivity. }
  rewrite (undo_mark o _ (put_leaf i (norm_node n) (a_tree a0)) i (norm_node n)); [done|done| |done|done|done|done].
  simpl. by rewrite Ho, put_leaf_put.
Qed.

(** An allocator between the updates of the tree and the registration. *)
Record midway (a0 : npu_allocator S) (i : nat) (n : npu_node) (al : allocation) (a : npu_allocator S) : Prop := {
  mw_tree : a_tree a = put_leaf i (place_node al n) (a_tree a0);
  mw_reg : a_registry a = a_registry a0;
  mw_tlsf : a_tlsf a = a_tlsf a0;
  mw_oversub : a_oversub a = a_oversub a0;
  mw_base : a_config_base a = a_config_base a0;
  mw_shm : shm_ok (a_shm a);
}.

Lemma loop_cons o a s r f :
  rollback_loop o a (s :: r) f
  = '(rc, a1) ← rollback_one o a s; rollback_loop o a1 r (if rc =? ENPU_SUCCESS then f else f + 1).
Proof. reflexivity. Qed.

(** The tree steps alone. *)
Lemma rollback_from_tree o a a0 i n al path :
  alloc_inv C a0 -> chosen a0 i n al -> midway a0 i n al a -> a_log a = tree_steps (phy_of n) al ->
  (forall phy v, die_map (a_shm a) phy v = die_map (a_shm a0) phy v) ->
  (forall q, q <> path -> a_files a !! q = a_files a0 !! q) ->
  exists rc a', rollback_log_rollback o a = Some (rc, a') ∧ kept a0 a' path.
Proof.
  intros H Hc [M1 M2 M3 M4 M5 M6] Hlog Hmap Hf. unfold rollback_log_rollback. rewrite Hlog, (rollback_tree o a a0 i n al) by done.
  cbn [mbind option_bind]. eexists _, _. split; [done|]. constructor; simpl; try done.
  - right. exists i, n. split; [apply (ch_leaf _ _ _ _ Hc)|done].
Qed.

(** With the shared memory. *)
Lemma rollback_shm_step o a phy v id :
  shm_ok (a_shm a) -> is_Some (shm_manager_get_state (a_shm a) phy) -> 0 <= v < 128 -> id <> EmptyString ->
  exists rc m, rollback_one o a (s_shm phy v id) = Some (rc, set_a_shm m a) ∧ shm_ok m
    ∧ forall phy' w, die_map m phy' w = if decide (phy' = phy ∧ w = v) then None else die_map (a_shm a) phy' w.
Proof.
  intros Hok Hs Hv Hid. destruct (remove_entry_ok _ _ _ Hok Hs Hv) as (rc & m & E & Hm & Hd). exists rc, m. split; [|done].
  unfold rollback_one. simpl. unfold rollback_create_shm. simpl. destruct (str_empty id) eqn:Ee; [by destruct id|]. by rewrite E.
Qed.

Definition with_vnpu (m0 : shm_manager) (phy v : Z) (e : vnpu_shm_entry) (m : shm_manager) : Prop :=
  forall phy' w, die_map m phy' w = if decide (phy' = phy ∧ w = v) then Some e else die_map m0 phy' w.

Lemma rollback_from_shm o a a0 i n al e id path f rest :
  alloc_inv C a0 -> chosen a0 i n al -> midway a0 i n al a -> id <> EmptyString ->
  is_Some (shm_manager_get_state (a_shm a) (phy_of n)) -> with_vnpu (a_shm a0) (phy_of n) (al_vnpu_id al) e (a_shm a) ->
  (forall q, q <> path -> a_files a !! q = a_files a0 !! q) -> rest = s_shm (phy_of n) (al_vnpu_id al) id :: reverse (tree_steps (phy_of n) al) ->
  exists f' a', rollback_loop o a rest f = Some (f', a') ∧ kept a0 a' path.
Proof.
  intros H Hc [M1 M2 M3 M4 M5 M6] Hid Hs Hw Hf ->. destruct (ch_ok _ _ _ _ Hc) as (Hv & _).
  destruct (rollback_shm_step o a (phy_of n) (al_vnpu_id al) id M6 Hs ltac:(lia) Hid) as (rc & m & E & Hm & Hd).
  rewrite loop_cons, E. cbn [mbind option_bind]. rewrite (rollback_tree o _ a0 i n al) by done.
  eexists _, _. split; [done|]. destruct (inv_free_id C _ _ _ _ H (ch_leaf _ _ _ _ Hc) Hv (ch_free _ _ _ _ Hc)) as (_ & Hnone & _).
  constructor; simpl; try done.
  - right. exists i, n. split; [apply (ch_leaf _ _ _ _ Hc)|done].
  - intros phy v. rewrite Hd, Hw. destruct (decide _) as [[-> ->]|]; done.
Qed.

Lemma rollback_config_step o a phy v pod container :
  paths_fit (a_config_base a) pod container -> pod <> EmptyString -> container <> EmptyString ->
  exists rc fs, rollback_one o a (s_config phy v pod container) = Some (rc, set_a_files fs a)
    ∧ forall q, q <> config_path (a_config_base a) pod container -> fs !! q = a_files a !! q.
Proof.
  intros Hfit Hp Hc. unfold rollback_one. simpl. unfold rollback_write_config. simpl.
  destruct (str_empty pod) eqn:E1; [by destruct pod|]. destruct (str_empty container) eqn:E2; [by destruct container|]. cbn [orb].
  rewrite delete_config_eq by done. eexists _, _. split; [done|]. intros q Hq. destruct (unlink_ok _ _); [|done].
  by rewrite lookup_delete_ne by congruence.
Qed.

Lemma kept_clear_log a0 a path : kept a0 a path -> kept a0 (set_a_log [] a) path.
Proof. intros [? ? ? ? ? ? ?]. by constructor. Qed.

(** [roll_back] with the log of each phase. *)
Lemma roll_back_tree env ty v ret req resp a a0 i n al path :
  alloc_inv C a0 -> chosen a0 i n al -> midway a0 i n al a -> a_log a = tree_steps (phy_of n) al ->
  (forall phy v, die_map (a_shm a) phy v = die_map (a_shm a0) phy v) ->
  (forall q, q <> path -> a_files a !! q = a_files a0 !! q) ->
  exists a', roll_back env ty (phy_of n) v ret req resp a
    = Some (ret, req, fail_resp ret (MStep ty (phy_of n) v ret) resp, a') ∧ kept a0 a' path.
Proof.
  intros H Hc Hm Hlog Hmap Hf. destruct (rollback_from_tree (ae_os env) a a0 i n al path) as (rc & a' & E & K); [done..|].
  exists a'. split; [|done]. unfold roll_back. by rewrite E.
Qed.

Lemma roll_back_shm env ty v ret req resp a a0 i n al e id path :
  alloc_inv C a0 -> chosen a0 i n al -> midway a0 i n al a -> id <> EmptyString ->
  is_Some (shm_manager_get_state (a_shm a) (phy_of n)) -> with_vnpu (a_shm a0) (phy_of n) (al_vnpu_id al) e (a_shm a) ->
  (forall q, q <> path -> a_files a !! q = a_files a0 !! q) ->
  a_log a = tree_steps (phy_of n) al ++ [s_shm (phy_of n) (al_vnpu_id al) id] ->
  exists a', roll_back env ty (phy_of n) v ret req resp a
    = Some (ret, req, fail_resp ret (MStep ty (phy_of n) v ret) resp, a') ∧ kept a0 a' path.
Proof.
  intros H Hc Hm Hid Hs Hw Hf Hlog. unfold roll_back, rollback_log_rollback. rewrite Hlog, reverse_snoc.
  destruct (rollback_from_shm (ae_os env) a a0 i n al e id path 0 _ H Hc Hm Hid Hs Hw Hf eq_refl) as (f' & a' & -> & K).
  cbn [mbind option_bind]. eexists. split; [done|]. by apply kept_clear_log.
Qed.

Lemma roll_back_config env ty v ret req resp a a0 i n al e id pod container :
  alloc_inv C a0 -> chosen a0 i n al -> midway a0 i n al a -> id <> EmptyString ->
  is_Some (shm_manager_get_state (a_shm a) (phy_of n)) -> with_vnpu (a_shm a0) (phy_of n) (al_vnpu_id al) e (a_shm a) ->
  paths_fit (a_config_base a0) pod container -> pod <> EmptyString -> container <> EmptyString ->
  (forall q, q <> config_path (a_config_base a0) pod container -> a_files a !! q = a_files a0 !! q) ->
  a_log a = tree_steps (phy_of n) al ++ [s_shm (phy_of n) (al_vnpu_id al) id; s_config (phy_of n) (al_vnpu_id al) pod container] ->
  exists a', roll_back env ty (phy_of n) v ret req resp a
    = Some (ret, req, fail_resp ret (MStep ty (phy_of n) v ret) resp, a') ∧ kept a0 a' (config_path (a_config_base a0) pod container).
Proof.
  intros H Hc Hm Hid Hs Hw Hfit Hp Hcn Hf Hlog. unfold roll_back, rollback_log_rollback.
  rewrite Hlog, reverse_app. cbn [app reverse rev_append].
  change (reverse [s_shm (phy_of n) (al_vnpu_id al) id; s_config (phy_of n) (al_vnpu_id al) pod container])
    with [s_config (phy_of n) (al_vnpu_id al) pod container; s_shm (phy_of n) (al_vnpu_id al) id]. cbn [app].
  rewrite loop_cons. rewrite <- (mw_base _ _ _ _ _ Hm) in Hfit, Hf |- *.
  destruct (rollback_config_step (ae_os env) a (phy_of n) (al_vnpu_id al) pod container Hfit Hp Hcn) as (rc & fs & -> & Hfs).
  cbn [mbind option_bind]. set (a1 := set_a_files fs a).
  assert (Hm1 : midway a0 i n al a1) by (destruct Hm; by constructor).
  destruct (rollback_from_shm (ae_os env) a1 a0 i n al e id (config_path (a_config_base a) pod container)
    (if rc =? ENPU_SUCCESS then 0 else 0 + 1) (s_shm (phy_of n) (al_vnpu_id al) id :: reverse (tree_steps (phy_of n) al)) H Hc Hm1 Hid Hs Hw)
    as (f' & a' & E & K); [|done|].
  - intros q Hq. simpl. rewrite Hfs by done. by apply Hf.
  - rewrite E. cbn [mbind option_bind]. eexists. split; [done|]. by apply kept_clear_log.
Qed.

End rollback.
