(* ===== verification/AllocPhases.v ===== *)
(** The phases of [npu_allocator_allocate], from the last to the first: each
    one ends with the vNPU added everywhere, or with nothing added. *)

From stdpp Require Import pretty.
From S2P Require Import Prelude CLib SwapTlsf SwapTlsfProofs SwapTlsfThms NpuTree NpuTreeFacts Evaluator EvaluatorThms Registry RegistryThms ConfigManager ShmManager ShmFacts RollbackLog Allocator AllocInv AllocShm AllocProofs AllocRollback.

(** The response of a successful allocation describes it. *)
Definition describes (resp : alloc_response) (al : allocation) : Prop :=
  r_phy_id resp = al_phy_id al ∧ r_vnpu_id resp = al_vnpu_id al ∧ r_aicore_quota resp = al_aicore_quota al
  ∧ r_hbm_quota resp = al_hbm_quota al ∧ r_hbm_limit resp = al_hbm_limit al.

(** The allocation is what was asked for, under the names of the request. *)
Definition answers_request (req : alloc_request) (al : allocation) : Prop :=
  al_pod_uid al = rq_pod_uid req ∧ al_container_name al = rq_container_name req
  ∧ al_hbm_quota al = rq_hbm_quota req ∧ al_hbm_limit al = rq_hbm_limit req ∧ al_sched_policy al = rq_sched_policy req
  ∧ al_vnpu_priority al = rq_vnpu_priority req ∧ al_aicore_quota al = rq_aicore_quota req.

Section phases.
  Context `{SC : Securec} {S : Type} `{!Storage S} `{!ReliableStorage S} (C : capacities).
  Implicit Types a : npu_allocator S.

(** The two outcomes of an allocation that started in [a0]. *)
Definition outcome (a0 : npu_allocator S) (req : alloc_request) (r : option (@alloc_outcome S)) : Prop :=
  exists rc resp a, r = Some (rc, req, resp, a) ∧ r_result resp = rc ∧ reliable_registry (a_registry a) ∧
    ((rc = ENPU_SUCCESS ∧ exists al, gained a0 al a ∧ describes resp al ∧ answers_request req al)
     \/ (rc <> ENPU_SUCCESS ∧ kept a0 a (config_path (a_config_base a0) (rq_pod_uid req) (rq_container_name req)))).

Lemma outcome_kept a0 a req rc msg resp :
  reliable_registry (a_registry a0) -> rc <> ENPU_SUCCESS ->
  kept a0 a (config_path (a_config_base a0) (rq_pod_uid req) (rq_container_name req)) ->
  outcome a0 req (Some (rc, req, fail_resp rc msg resp, a)).
Proof.
  intros Hrel Hrc K. eexists _, _, _. split; [done|]. split; [done|]. split; [by rewrite (k_registry _ _ _ K)|]. right. by split.
Qed.

Lemma alloc_copy_all n s : 0 < n -> Z.of_nat (String.length s) < n -> alloc_copy n s = s.
Proof. intros Hn Hl. unfold alloc_copy. rewrite copy_str_eq by lia. simpl. apply prefix_of_len_all. lia. Qed.

Lemma register_phase env a req resp al uuid a0 i n b id :
  alloc_inv C a0 -> reliable_registry (a_registry a0) -> chosen a0 i n al -> midway a0 i n al a -> id <> EmptyString -> al_phy_id al = phy_of n ->
  is_Some (shm_manager_get_state (a_shm a) (phy_of n)) -> with_vnpu (a_shm a0) (phy_of n) (al_vnpu_id al) (entry_of b al) (a_shm a) ->
  names_fit req -> rq_pod_uid req <> EmptyString -> rq_container_name req <> EmptyString -> answers_request req al ->
  paths_fit (a_config_base a0) (rq_pod_uid req) (rq_container_name req) ->
  a_files a = <[config_path (a_config_base a0) (al_pod_uid al) (al_container_name al) := config_text (config_of al (al_shm_id al))]> (a_files a0) ->
  a_log a = tree_steps (phy_of n) al ++ [s_shm (phy_of n) (al_vnpu_id al) id;
              s_config (phy_of n) (al_vnpu_id al) (rq_pod_uid req) (rq_container_name req)] ->
  outcome a0 req (alloc_register env a req resp al uuid).
Proof.
  intros H Hrel Hc Hm Hid Hphy Hs Hw [Hn1 Hn2] Hp Hcn Hans Hfit Hfile Hlog. unfold alloc_register.
  destruct (allocation_registry_register _ _ _) as [rc reg] eqn:E. rewrite (mw_reg _ _ _ _ _ Hm) in E.
  destruct (register_cases _ _ _ _ _ (inv_reg _ _ H) E) as [[Hrc ->]|(Hwf & Hent & _ & Hrc)].
  - rewrite (proj2 (Z.eqb_neq rc ENPU_SUCCESS)) by done. cbn [negb]. rewrite Hphy. set (resp1 := mk_alloc_response _ _ _ _ _ _ _ _ _ _ _ _ _ _).
    assert (Hm1 : midway a0 i n al (set_a_registry (a_registry a0) a)) by (destruct Hm; by constructor).
    destruct (roll_back_config C env STEP_SAVE_CHECKPOINT (al_vnpu_id al) rc req resp1 (set_a_registry (a_registry a0) a) a0 i n al (entry_of b al) id
      (rq_pod_uid req) (rq_container_name req)) as (a' & E' & K); try done.
    + intros q Hq. simpl. destruct Hans as (E1 & E2 & _). rewrite E1, E2 in Hfile. rewrite Hfile. by rewrite lookup_insert_ne by congruence.
    + rewrite E'. by apply outcome_kept.
  - destruct (persisted_reliable _ _ _ Hrel Hrc) as [-> Hrel'].
    change (ENPU_SUCCESS =? ENPU_SUCCESS) with true. cbn [negb]. eexists _, _, _. split; [done|]. split; [done|].
    split; [by rewrite log_step_eq by (simpl; rewrite ?Hlog; simpl; lia)|]. left. split; [done|].
    exists al. split; [|by split]. destruct Hm as [M1 M2 M3 M4 M5 M6]. destruct Hc as [C1 C2 C3 C4 C5].
    rewrite log_step_eq by (simpl; rewrite ?Hlog; simpl; lia). constructor; simpl; try done.
    + exists i, n. by split_and!.
    + exists b. rewrite Hphy. exact Hw.
Qed.

Lemma config_phase env a req resp al node a0 i n b :
  alloc_inv C a0 -> reliable_registry (a_registry a0) -> chosen a0 i n al -> midway a0 i n al a -> node_meta node = node_meta n ->
  r_shm_id resp <> EmptyString -> r_result resp = 0 ->
  is_Some (shm_manager_get_state (a_shm a) (phy_of n)) -> with_vnpu (a_shm a0) (phy_of n) (al_vnpu_id al) (entry_of b al) (a_shm a) ->
  names_fit req -> rq_pod_uid req <> EmptyString -> rq_container_name req <> EmptyString -> answers_request req al ->
  a_files a = a_files a0 -> a_log a = tree_steps (phy_of n) al ++ [s_shm (phy_of n) (al_vnpu_id al) (r_shm_id resp)] ->
  outcome a0 req (alloc_config env a req resp al node).
Proof.
  intros H Hrel Hc Hm Hnode Hid Hres Hs Hw Hnf Hp Hcn Hans Hfile Hlog. unfold alloc_config. rewrite Hnode. fold (phy_of n).
  set (reg_al := mk_allocation _ _ _ _ _ _ _ _ _ _ _ _ _ _ _ _ _). rewrite (mw_base _ _ _ _ _ Hm), Hfile.
  destruct (config_manager_write_config _ _ _ _ _ _) as [rc fs] eqn:E. destruct Hnf as [Hn1 Hn2] eqn:Enf. clear Enf.
  assert (Ep : al_pod_uid reg_al = rq_pod_uid req) by (apply alloc_copy_all; unfold MAX_UUID_LEN; lia).
  assert (Ec : al_container_name reg_al = rq_container_name req) by (apply alloc_copy_all; unfold MAX_NAME_LEN; lia).
  destruct (write_config_cases _ _ _ _ _ _ _ _ E) as [(-> & Hfit & ->)|(Hrc & Hfr)].
  - change (ENPU_SUCCESS =? ENPU_SUCCESS) with true. cbn [negb]. change (al_phy_id reg_al) with (phy_of n).
    rewrite log_step_eq by (simpl; rewrite ?Hlog; simpl; done || lia).
    apply (register_phase env _ req resp reg_al _ a0 i n b (r_shm_id resp)); try done.
    + destruct Hc; by constructor.
    + destruct Hm; by constructor.
    + destruct Hans as (_ & _ & E1 & E2 & E3 & E4 & E5). split_and!; done.
    + simpl a_files. by rewrite Ep, Ec.
    + simpl. rewrite Hlog. by rewrite <- app_assoc.
  - rewrite (proj2 (Z.eqb_neq rc ENPU_SUCCESS)) by done. cbn [negb]. change (al_phy_id reg_al) with (phy_of n).
    destruct (roll_back_shm C env STEP_WRITE_CONFIG (al_vnpu_id al) rc req resp (set_a_files fs a) a0 i n al (entry_of b al) (r_shm_id resp)
      (config_path (a_config_base a0) (rq_pod_uid req) (rq_container_name req))) as (a' & E' & K); try done.
    + destruct Hm; by constructor.
    + rewrite E'. by apply outcome_kept.
Qed.

Lemma shm_phase env a req al a0 i n :
  alloc_inv C a0 -> reliable_registry (a_registry a0) -> env_ok env -> chosen a0 i n al -> midway a0 i n al a ->
  a_shm a = a_shm a0 -> al_die_id al = alloc_copy DIE_ID_LEN (meta_die_id (node_meta n)) ->
  names_fit req -> rq_pod_uid req <> EmptyString -> rq_container_name req <> EmptyString -> answers_request req al ->
  a_files a = a_files a0 -> a_log a = tree_steps (phy_of n) al ->
  outcome a0 req (alloc_shm env a req al n).
Proof.
  intros H Hrel Henv Hc Hm Hshm Hdie Hnf Hp Hcn Hans Hfile Hlog. unfold alloc_shm. fold (phy_of n). destruct (ch_ok _ _ _ _ Hc) as (Hv & _).
  pose proof (Forall_lookup_1 _ _ _ _ (inv_leaf_ok _ _ H) (ch_leaf _ _ _ _ Hc)) as [Hphy Hd _ _ _ _].
  rewrite (proj2 (Z.ltb_ge (phy_of n) 0)), (mw_oversub _ _ _ _ _ Hm) by lia.
  destruct (lookup_lt_is_Some_2 (a_oversub a0) (Z.to_nat (phy_of n))) as [ratio Hr]; [rewrite (inv_oversub _ _ H); lia|].
  rewrite Hr. cbn [mbind option_bind]. fold (entry_of (d_pos ratio) al).
  destruct (inv_free_id C _ _ _ _ H (ch_leaf _ _ _ _ Hc) Hv (ch_free _ _ _ _ Hc)) as (_ & Hnone & _).
  assert (Hd' : al_die_id al <> EmptyString).
  { rewrite Hdie. unfold alloc_copy. rewrite copy_str_eq by (unfold DIE_ID_LEN; lia). simpl.
    by destruct (meta_die_id (node_meta n)). }
  destruct (shm_apply_spec env a (phy_of n) (al_die_id al) (meta_total_memory (node_meta n)) (entry_of (d_pos ratio) al) (al_vnpu_priority al))
    as (rc & id & m & names & -> & Hok & Hcases); try done.
  { apply (mw_shm _ _ _ _ _ Hm). }
  { by rewrite Hshm. }
  cbn [mbind option_bind]. set (a1 := set_a_names names (set_a_shm m a)).
  assert (Hm1 : midway a0 i n al a1) by (destruct Hm; by constructor).
  destruct Hcases as [(-> & Hid1 & Hid2 & Hs & Hw)|(Hrc & Hmap)].
  - change (ENPU_SUCCESS =? ENPU_SUCCESS) with true. cbn [negb].
    rewrite log_step_eq by (simpl; rewrite ?Hlog; simpl; done || lia).
    apply (config_phase env _ req _ al n a0 i n (d_pos ratio)); try done.
    + destruct Hm1; by constructor.
    + intros phy' w. simpl. rewrite Hw, Hshm. done.
    + simpl. by rewrite Hlog.
  - rewrite (proj2 (Z.eqb_neq rc ENPU_SUCCESS)) by done. cbn [negb].
    destruct (roll_back_tree C env STEP_CREATE_SHM (al_vnpu_id al) rc req (set_r_shm_id id alloc_response0) a1 a0 i n al
      (config_path (a_config_base a0) (rq_pod_uid req) (rq_container_name req))) as (a' & E' & K); try done.
    + intros phy v. simpl. by rewrite Hmap, Hshm.
    + intros q _. simpl. by rewrite Hfile.
    + rewrite E'. by apply outcome_kept.
Qed.

Lemma neg_i64_eq x : 0 <= x < - INT64_MIN -> neg_i64 x = Some (- x).
Proof.
  intros H. unfold neg_i64, i64, INT64_MIN, U64_MOD in *. rewrite Z.mod_small by lia.
  rewrite (proj2 (Z.eqb_neq _ _)) by lia. f_equal. lia.
Qed.

(** A failure with the tree back as it was. *)
Lemma kept_tree a0 a path :
  alloc_inv C a0 -> a_tree a = a_tree a0 -> a_registry a = a_registry a0 -> a_shm a = a_shm a0 -> a_tlsf a = a_tlsf a0 ->
  a_oversub a = a_oversub a0 -> a_files a = a_files a0 -> kept a0 a path.
Proof.
  intros H E1 E2 E3 E4 E5 E6. constructor; rewrite ?E2, ?E3, ?E6; try done; [by left|apply (inv_shm _ _ H)].
Qed.

Lemma place_phase env req resp al a0 i n :
  alloc_inv C a0 -> reliable_registry (a_registry a0) -> env_ok env -> chosen a0 i n al -> al_die_id al = alloc_copy DIE_ID_LEN (meta_die_id (node_meta n)) ->
  names_fit req -> rq_pod_uid req <> EmptyString -> rq_container_name req <> EmptyString -> answers_request req al ->
  outcome a0 req (alloc_place env a0 req resp al i n).
Proof.
  intros H Hrel Henv Hc Hdie Hnf Hp Hcn Hans. unfold alloc_place. fold (phy_of n).
  pose proof (chosen_at C _ _ _ _ H Hc) as Hat. pose proof (at_wf _ _ _ Hat) as Hnw. pose proof (at_lookup _ _ _ Hat) as Hn.
  destruct (ch_ok _ _ _ _ Hc) as (Hv & _). pose proof (inv_policies C _ _ _ H Hn) as Hlen.
  destruct (chosen_bounds C _ _ _ _ H Hc) as [_ Hb]. change (a_tree (set_a_log [] a0)) with (a_tree a0).
  rewrite (mark_vnpu_occupied_eq _ i n), (ch_free _ _ _ _ Hc) by done. cbn [mbind option_bind].
  change (ENPU_SUCCESS =? ENPU_SUCCESS) with true. cbn [negb]. fold (occupy (al_vnpu_id al) n).
  change (set_leaves (<[i := ?x]> (leaves (a_tree a0))) (a_tree a0)) with (put_leaf i x (a_tree a0)).
  rewrite neg_i64_eq by done. cbn [mbind option_bind]. rewrite log_step_eq by (simpl; lia).
  destruct (occupy_free _ _ Hnw Hv (ch_free _ _ _ _ Hc)) as (How & _ & _). cbn [a_tree set_a_log set_a_tree].
  rewrite (update_quota_eq _ i (occupy (al_vnpu_id al) n)) by ((by eapply put_leaf_lookup) || done || (unfold INT64_MIN in *; lia)).
  cbn [mbind option_bind]. change (ENPU_SUCCESS =? ENPU_SUCCESS) with true. cbn [negb].
  set (n2 := with_quota (- al_aicore_quota al) (- al_hbm_quota al) (occupy (al_vnpu_id al) n)).
  change (set_leaves (<[i := n2]> ?l) ?t) with (put_leaf i n2 t). rewrite put_leaf_put.
  rewrite log_step_eq by (simpl; lia). cbn [a_tree set_a_log set_a_tree].
  destruct (decide (policy_alloc n2 = true \/ ae_policy_ok env = true)) as [Hok|Hno].
  - rewrite (attach_policy_eq _ _ i n2) by ((by eapply put_leaf_lookup) || (by apply with_quota_wf) || done || (simpl; lia)).
    cbn [mbind option_bind]. change (ENPU_SUCCESS =? ENPU_SUCCESS) with true. cbn [negb].
    change (set_leaves (<[i := ?x]> (leaves ?t)) ?t) with (put_leaf i x t). rewrite put_leaf_put, log_step_eq by (simpl; lia).
    apply (shm_phase env _ req al a0 i n); try done. constructor; try done. apply (inv_shm _ _ H).
  - assert (ae_policy_ok env = false /\ policy_alloc n2 = false) as [-> Hpa].
    { destruct (ae_policy_ok env), (policy_alloc n2); [naive_solver..|done]. }
    rewrite (attach_policy_oom _ i n2) by ((by eapply put_leaf_lookup) || done || lia).
    cbn [mbind option_bind]. change (ENPU_FAIL =? ENPU_SUCCESS) with false. cbn [negb].
    unfold roll_back, rollback_log_rollback. cbn [a_log set_a_log set_a_tree app].
    change (reverse [mk_step STEP_MARK_OCCUPIED ?p ?v 0 0 0 EmptyString EmptyString EmptyString; mk_step STEP_UPDATE_QUOTA ?p ?v ?d ?h 0 EmptyString EmptyString EmptyString])
      with [s_quota p v d h; s_mark p v].
    rewrite (rollback_two C _ _ a0 i n al (occupy (al_vnpu_id al) n)) by done.
    rewrite (rollback_mark_only C _ _ a0 i n al) by done. cbn [mbind option_bind].
    apply outcome_kept; [done|done|]. by apply kept_tree.
Qed.

(** * The default names *)

Lemma pretty_small_check : Forall (fun x => (String.length (pretty x) <= 2)%nat) (seqZ 0 64).
Proof. apply (bool_decide_unpack _). vm_compute. exact I. Qed.

Lemma pretty_small x : 0 <= x < 64 -> (String.length (pretty x) <= 2)%nat.
Proof. intros H. pose proof pretty_small_check as Hf. rewrite Forall_forall in Hf. apply Hf, elem_of_seqZ. lia. Qed.

Lemma default_name_eq n s : (String.length s <= n)%nat -> (snprintf_s (Datatypes.S n) n s).2 = s.
Proof. intros H. rewrite snprintf_s_fits by lia. done. Qed.

Lemma str_empty_false s : str_empty s = false -> s <> EmptyString.
Proof. by destruct s. Qed.

(** The names of the request, defaulted for the chosen die and id. *)
Definition named (phy v : Z) (req : alloc_request) : alloc_request :=
  set_rq_names (if str_empty (rq_pod_uid req) then "pod-" +:+ pretty phy else rq_pod_uid req)
    (if str_empty (rq_container_name req) then "container-" +:+ pretty phy +:+ "-" +:+ pretty v else rq_container_name req) req.

Lemma named_fit phy v req :
  0 <= phy < 16 -> 0 <= v < 64 -> names_fit req ->
  names_fit (named phy v req) ∧ rq_pod_uid (named phy v req) <> EmptyString ∧ rq_container_name (named phy v req) <> EmptyString.
Proof.
  intros Hp Hv [H1 H2]. pose proof (pretty_small phy ltac:(lia)). pose proof (pretty_small v Hv).
  unfold names_fit, named. simpl. destruct (str_empty (rq_pod_uid req)) eqn:E1, (str_empty (rq_container_name req)) eqn:E2;
    rewrite ?string_length_app; simpl; split_and!; try done; try (apply str_empty_false; done);
    rewrite ?string_length_app; simpl; lia.
Qed.

Lemma chosen_phase env req resp aicore a0 ev i n :
  alloc_inv C a0 -> reliable_registry (a_registry a0) -> env_ok env -> names_fit req -> ev_node ev = Some i -> leaves (a_tree a0) !! i = Some n ->
  0 <= ev_vnpu_id ev < 64 -> vnpu_free n (ev_vnpu_id ev) = true -> 0 <= aicore <= aicore_quota (allocatable n) ->
  0 <= rq_hbm_quota req <= hbm_quota (allocatable n) -> aicore = rq_aicore_quota req ->
  outcome a0 (named (phy_of n) (ev_vnpu_id ev) req) (alloc_chosen env a0 req resp aicore (rq_hbm_quota req) (rq_hbm_limit req) ev).
Proof.
  intros H Hrel Henv Hnf Hi Hn Hv Hfree Ha Hh Haq. unfold alloc_chosen. rewrite Hi, Hn. cbn [mbind option_bind]. fold (phy_of n).
  pose proof (Forall_lookup_1 _ _ _ _ (inv_leaf_ok _ _ H) Hn) as [Hphy _ _ _ _ _].
  assert (vnpu_id_is_valid (ev_vnpu_id ev) = true) as ->.
  { unfold vnpu_id_is_valid, CHAR_BIT, MAX_VNPU_SCHED, MAX_VNPU_PER_DIE.
    rewrite (proj2 (Z.leb_le 0 _)) by lia. by rewrite !(proj2 (Z.ltb_lt _ _)) by lia. }
  cbn [negb]. destruct (named_fit (phy_of n) (ev_vnpu_id ev) req Hphy Hv Hnf) as (Hnf' & Hp & Hcn).
  pose proof (pretty_small (phy_of n) ltac:(lia)). pose proof (pretty_small (ev_vnpu_id ev) Hv).
  change (Z.to_nat MAX_UUID_LEN) with 64%nat. change (Z.to_nat (MAX_UUID_LEN - 1)) with 63%nat.
  change (Z.to_nat MAX_NAME_LEN) with 32%nat. change (Z.to_nat (MAX_NAME_LEN - 1)) with 31%nat.
  rewrite !default_name_eq by (rewrite ?string_length_app; simpl; rewrite ?string_length_app; simpl; lia).
  fold (named (phy_of n) (ev_vnpu_id ev) req). apply place_phase; try done.
  - constructor; simpl; try done; [|lia|lia]. split_and!; simpl; lia.
  - unfold answers_request. simpl. destruct Hnf' as [? ?].
    rewrite !alloc_copy_all by (unfold MAX_UUID_LEN, MAX_NAME_LEN in *; simpl in *; lia). split_and!; done.
Qed.

(** A failure that changed nothing. *)
Lemma outcome_refused a0 rc req resp msg :
  alloc_inv C a0 -> reliable_registry (a_registry a0) -> rc <> ENPU_SUCCESS -> outcome a0 req (Some (rc, req, fail_resp rc msg resp, a0)).
Proof.
  intros H Hrel Hrc. apply outcome_kept; [done|done|]. by apply kept_tree.
Qed.

Lemma inv_evaluator `{QS : !Qsort} a0 req hreq hlim resp :
  alloc_inv C a0 -> eval_request_ok (build_eval_request a0 req hreq hlim) = true ->
  exists rc resp', evaluator_share_evaluate (a_strategy a0) (a_tree a0) (build_eval_request a0 req hreq hlim) resp = Some (rc, resp') ∧
    (rc = ENPU_SUCCESS ∧ (exists i n, ev_node resp' = Some i ∧ leaves (a_tree a0) !! i = Some n
        ∧ fits (build_eval_request a0 req hreq hlim) n ∧ policy_fits (build_eval_request a0 req hreq hlim) n
        ∧ 0 <= ev_vnpu_id resp' < 64 ∧ vnpu_free n (ev_vnpu_id resp') = true
        ∧ forall j, 0 <= j < ev_vnpu_id resp' -> vnpu_free n j = false)
     \/ rc = ENPU_NO_RESOURCE ∧ forall i n, leaves (a_tree a0) !! i = Some n ->
          fits (build_eval_request a0 req hreq hlim) n -> ~ policy_fits (build_eval_request a0 req hreq hlim) n).
Proof.
  intros Hi Hok. apply share_evaluate_spec; [apply (inv_tree _ _ Hi)|apply (inv_init _ _ Hi)|done| | |apply (inv_phys _ _ Hi)].
  - split; [apply (inv_oversub _ _ Hi)|]. change (length (allocated_limits (a_shm a0)) = 16%nat). unfold allocated_limits. by rewrite length_fmap, length_seqZ.
  - apply (Forall_impl _ _ _ (inv_leaf_ok _ _ Hi)). intros n [_ _ _ _ Ht _] r Hr. by apply Ht.
Qed.

Lemma evaluate_phase `{QS : !Qsort} env req resp a0 :
  alloc_inv C a0 -> reliable_registry (a_registry a0) -> env_ok env -> names_fit req -> 0 <= rq_aicore_quota req <= 100 -> 0 <= rq_hbm_quota req ->
  exists req', (req' = req \/ exists phy v, req' = named phy v req) ∧
  outcome a0 req' (alloc_evaluate env a0 req resp (rq_hbm_quota req) (rq_hbm_limit req)).
Proof.
  intros H Hrel Henv Hnf Ha Hh. unfold alloc_evaluate. destruct (pick_evaluator a0) as [name|]; [|exists req; split; [by left|by apply outcome_refused]].
  destruct (ae_nodes_ok env); cbn [negb]; [|exists req; split; [by left|by apply outcome_refused]].
  destruct (eval_request_ok (build_eval_request a0 req (rq_hbm_quota req) (rq_hbm_limit req))) eqn:Eok.
  2:{ unfold evaluator_share_evaluate. rewrite Eok. cbn [negb mbind option_bind]. exists req. split; [by left|by apply outcome_refused]. }
  destruct (inv_evaluator a0 req _ _ eval_response0 H Eok) as (rc & ev & -> & [(-> & i & n & Hi & Hn & Hf & _ & Hv & Hfree & _)|(-> & _)]).
  - cbn [mbind option_bind]. change (ENPU_SUCCESS =? ENPU_SUCCESS) with true. cbn [negb].
    exists (named (phy_of n) (ev_vnpu_id ev) req). split; [right; by eexists _, _|].
    assert (Eq : er_aicore_quota (build_eval_request a0 req (rq_hbm_quota req) (rq_hbm_limit req)) = rq_aicore_quota req).
    { simpl. unfold HUNDRED_CORE. by rewrite (proj2 (Z.ltb_ge _ _)) by lia. }
    unfold fits in Hf. rewrite Eq in Hf. destruct Hf as (_ & _ & _ & Hf1 & Hf2 & _). simpl in Hf2.
    apply (chosen_phase env req resp _ a0 ev i n); try done; lia.
  - cbn [mbind option_bind]. exists req. split; [by left|by apply outcome_refused].
Qed.

Lemma check_request_ok a req req1 hreq hlim :
  check_request a req = (req1, inr (hreq, hlim)) ->
  hreq = rq_hbm_quota req ∧ hlim = rq_hbm_limit req ∧ 0 <= rq_aicore_quota req1 <= 100
  ∧ rq_pod_uid req1 = rq_pod_uid req ∧ rq_container_name req1 = rq_container_name req
  ∧ rq_hbm_quota req1 = rq_hbm_quota req ∧ rq_hbm_limit req1 = rq_hbm_limit req ∧ rq_vnpu_priority req1 = rq_vnpu_priority req
  ∧ (rq_vnpu_priority req <> VNPU_PRIORITY_HIGH ->
       rq_aicore_quota req1 = rq_aicore_quota req ∧ rq_sched_policy req1 = rq_sched_policy req).
Proof.
  unfold check_request, parse_hbm_request_limit, HUNDRED_CORE.
  destruct (Z.eqb_spec (rq_vnpu_priority req) VNPU_PRIORITY_HIGH) as [Ep|Ep]; simpl; repeat case_match; simpl; intros; simplify_eq/=; try done;
    rewrite ?orb_false_iff, ?Z.ltb_ge, ?Z.leb_gt in *; rewrite ?andb_false_r, ?andb_true_r in *; split_and!; try done; try lia.
Qed.

Lemma check_request_fail a req req1 rc msg : check_request a req = (req1, inl (rc, msg)) -> rc <> ENPU_SUCCESS.
Proof.
  unfold check_request, parse_hbm_request_limit. repeat case_match; intros; simplify_eq/=; done.
Qed.

End phases.
