(* ===== verification/AllocRelease.v ===== *)
(** The release of an allocation: the vNPU leaves the tree, the shared memory,
    the registry and the file system together. *)

From S2P Require Import Prelude CLib SwapTlsf SwapTlsfProofs SwapTlsfThms NpuTree NpuTreeFacts Evaluator EvaluatorThms Registry RegistryThms ConfigManager ShmManager ShmFacts RollbackLog Allocator AllocInv AllocShm AllocProofs.

Section release.
  Context {S : Type} (C : capacities).
  Implicit Types a : npu_allocator S.

(** The allocation [al] has been taken out. *)
Record lost (a0 : npu_allocator S) (al : allocation) (a : npu_allocator S) (path : string) : Prop := {
  l_tree : exists i n ps1 q ps2, leaves (a_tree a0) !! i = Some n ∧ phy_of n = al_phy_id al ∧ policies n = ps1 ++ q :: ps2
    ∧ pe_vnpu_id q = al_vnpu_id al ∧ Forall (fun p => pe_vnpu_id p <> al_vnpu_id al) ps1
    ∧ a_tree a = put_leaf i (unplace_node al (ps1 ++ ps2) n) (a_tree a0);
  l_entries : exists l1 l2, entries (a_registry a0) = l1 ++ al :: l2 ∧ entries (a_registry a) = l1 ++ l2;
  l_reg : registry_wf (a_registry a);
  l_shm : shm_ok (a_shm a);
  l_map phy v : die_map (a_shm a) phy v = if decide (phy = al_phy_id al ∧ v = al_vnpu_id al) then None else die_map (a_shm a0) phy v;
  l_tlsf : tlsf_ok (a_tlsf a);
  l_oversub : a_oversub a = a_oversub a0;
  l_files q : q <> path -> a_files a !! q = a_files a0 !! q;
}.

Lemma on_die_middle phy l1 al l2 :
  on_die phy (l1 ++ al :: l2) = on_die phy l1 ++ (if decide (al_phy_id al = phy) then al :: on_die phy l2 else on_die phy l2).
Proof. by rewrite on_die_app. Qed.

Lemma Forall_middle {A} (P : A -> Prop) l1 x l2 : Forall P (l1 ++ x :: l2) -> P x ∧ Forall P (l1 ++ l2).
Proof. rewrite !Forall_app, Forall_cons. tauto. Qed.

Lemma lost_leaf a0 al i n ps1 q ps2 l1 l2 :
  alloc_inv C a0 -> leaves (a_tree a0) !! i = Some n -> phy_of n = al_phy_id al -> policies n = ps1 ++ q :: ps2 ->
  pe_vnpu_id q = al_vnpu_id al -> entries (a_registry a0) = l1 ++ al :: l2 ->
  leaf_holds C (unplace_node al (ps1 ++ ps2) n) (on_die (phy_of n) (l1 ++ l2)).
Proof.
  intros H Hn Hphy Hps Hq Hent. pose proof (inv_holds _ _ H _ _ Hn) as Hh. rewrite Hent, on_die_middle, decide_True in Hh by done.
  pose proof (on_die_ok (phy_of n) _ (inv_allocs _ _ H)) as Hok. rewrite Hent, on_die_middle, decide_True in Hok by done.
  pose proof (on_die_NoDup (phy_of n) _ (inv_slots _ _ H)) as Hnd. rewrite Hent, on_die_middle, decide_True in Hnd by done.
  pose proof (Forall_lookup_1 _ _ _ _ (inv_leaf_ok _ _ H) Hn) as [_ _ Hc1 Hc2 _ _]. rewrite on_die_app.
  eapply leaf_holds_unplace; try done. exact (Forall_lookup_1 _ _ _ _ (wf_nodes _ (inv_tree _ _ H)) Hn).
Qed.

Lemma lost_inv a0 al a path : alloc_inv C a0 -> lost a0 al a path -> alloc_inv C a.
Proof.
  intros Hinv [(i & n & ps1 & q & ps2 & Hn & Hphy & Hps & Hq & Hfst & Et) (l1 & l2 & E0 & E1) Lr Ls Lm Lt Lo _].
  pose proof (lost_leaf a0 al i n ps1 q ps2 l1 l2 Hinv Hn Hphy Hps Hq E0) as Hleaf.
  destruct Hinv as [inv_tree0 inv_init0 inv_phys0 inv_leaf_ok0 inv_oversub0 inv_reg0 inv_shm0 inv_tlsf0 inv_allocs0 inv_on_leaf0 inv_slots0 inv_holds0 inv_shm_map0].
  pose proof (Forall_lookup_1 _ _ _ _ (wf_nodes _ inv_tree0) Hn) as Hnw. rewrite E0 in *.
  destruct (Forall_middle _ _ _ _ inv_allocs0) as [Hal Hrest].
  assert (Hphys : phy_of <$> leaves (a_tree a) = phy_of <$> leaves (a_tree a0)) by (rewrite Et; by apply (insert_leaf_phys _ _ n)).
  constructor; rewrite ?Hphys, ?E1, ?Lo; try done.
  - rewrite Et. apply tree_wf_insert; [done|]. apply unplace_node_wf; [done|done|].
    pose proof (wf_policies _ Hnw) as Hl. rewrite Hps, length_app in Hl. simpl in Hl. rewrite length_app. lia.
  - by rewrite Et.
  - rewrite Et. apply Forall_insert; [done|]. pose proof (Forall_lookup_1 _ _ _ _ inv_leaf_ok0 Hn) as [? ? ? ? ? ?]. by constructor.
  - intros al' Hin. apply inv_on_leaf0. apply elem_of_app. apply elem_of_app in Hin as [?|?]; [by left|right; by right].
  - rewrite fmap_app, fmap_cons in inv_slots0. apply NoDup_app_cons_inv in inv_slots0 as (_ & _ & ?). by rewrite fmap_app.
  - intros j m. rewrite Et. simpl. intros [(<- & <- & _)|(Hne & Hm)]%list_lookup_insert_Some; [done|].
    specialize (inv_holds0 j m Hm). rewrite on_die_middle, decide_False in inv_holds0; [by rewrite on_die_app|].
    intros E. apply Hne. apply (NoDup_lookup (phy_of <$> leaves (a_tree a0)) i j (phy_of n) inv_phys0);
      rewrite list_lookup_fmap; [by rewrite Hn|rewrite Hm; simpl; congruence].
  - intros phy v. rewrite Lm. rewrite fmap_app, fmap_cons in inv_slots0. apply NoDup_app_cons_inv in inv_slots0 as (N1 & N2 & _).
    destruct (decide _) as [[-> ->]|Hno].
    + rewrite fmap_app, elem_of_app. fold (al_slot al). split; [by intros [? ?]|]. naive_solver.
    + rewrite inv_shm_map0, !fmap_app, fmap_cons, !elem_of_app, elem_of_cons. split; [|tauto].
      intros [?|[[= -> ->]|?]]; [by left| |by right]. by destruct Hno.
Qed.

End release.

Section release_op.
  Context `{SC : Securec} {S : Type} `{!Storage S} (C : capacities).
  Implicit Types a : npu_allocator S.

(** The policy of an allocation, as the search of the detach finds it. *)
Lemma policy_split n v : v ∈ pe_vnpu_id <$> policies n ->
  exists ps1 q ps2, policies n = ps1 ++ q :: ps2 ∧ pe_vnpu_id q = v ∧ Forall (fun p => pe_vnpu_id p <> v) ps1.
Proof.
  induction (policies n) as [|p ps IH]; [by intros ?%not_elem_of_nil|]. rewrite fmap_cons. intros Hin.
  destruct (decide (pe_vnpu_id p = v)) as [E|E]; [by exists [], p, ps|].
  apply elem_of_cons in Hin as [->|Hin]; [done|]. destruct (IH Hin) as (ps1 & q & ps2 & -> & Hq & Hf).
  exists (p :: ps1), q, ps2. split_and!; [done..|by constructor].
Qed.

(** What the tree does for a release. *)
Lemma release_tree a0 al i n :
  alloc_inv C a0 -> al ∈ entries (a_registry a0) -> leaves (a_tree a0) !! i = Some n -> phy_of n = al_phy_id al ->
  exists ps1 q ps2, policies n = ps1 ++ q :: ps2 ∧ pe_vnpu_id q = al_vnpu_id al ∧ Forall (fun p => pe_vnpu_id p <> al_vnpu_id al) ps1
  ∧ ('(_, t1) ← npu_tree_detach_policy (a_tree a0) (Some i) (al_vnpu_id al);
     '(_, t2) ← npu_tree_update_quota t1 (Some i) (al_aicore_quota al) (i64 (al_hbm_quota al));
     '(_, t3) ← npu_tree_mark_vnpu_free t2 (Some i) (al_vnpu_id al);
     Some (set_a_tree t3 a0)) = Some (set_a_tree (put_leaf i (unplace_node al (ps1 ++ ps2) n) (a_tree a0)) a0)
  ∧ vnpu_free n (al_vnpu_id al) = false.
Proof.
  intros H Hin Hn Hphy. pose proof (inv_holds _ _ H _ _ Hn) as Hh. pose proof (inv_policies C _ _ _ H Hn) as Hlen.
  assert (Hmem : al ∈ on_die (phy_of n) (entries (a_registry a0))) by (by apply elem_of_on_die).
  assert (Hid : al_vnpu_id al ∈ al_vnpu_id <$> on_die (phy_of n) (entries (a_registry a0))) by (apply list_elem_of_fmap; eauto).
  pose proof (on_die_ok (phy_of n) _ (inv_allocs _ _ H)) as Hok.
  destruct (Forall_forall alloc_ok (on_die (phy_of n) (entries (a_registry a0)))) as [Hall _]. destruct (Hall Hok al Hmem) as (Hv & Ha & Hb).
  assert (Hocc := proj2 (lh_ids _ _ _ Hh _ Hv) Hid). rewrite <- (lh_policies _ _ _ Hh) in Hid.
  destruct (policy_split _ _ Hid) as (ps1 & q & ps2 & Hps & Hq & Hf). exists ps1, q, ps2. do 3 (split; [done|]). split; [|done].
  pose proof (Forall_lookup_1 _ _ _ _ (wf_nodes _ (inv_tree _ _ H)) Hn) as Hnw.
  pose proof (Forall_lookup_1 _ _ _ _ (inv_leaf_ok _ _ H) Hn) as [_ _ _ Hc2 _ Hpa].
  assert (Hbig : al_hbm_quota al < - INT64_MIN).
  { pose proof (lh_hbm _ _ _ Hh) as E. apply list_elem_of_split in Hmem as (k1 & k2 & Ek). rewrite Ek in E, Hok.
    destruct (Forall_middle _ _ _ _ Hok) as [_ Hr]. destruct (forall_alloc_ok_sums _ Hr) as [_ Hs]. rewrite sum_of_middle in E.
    pose proof (wf_hbm _ Hnw) as [? _]. lia. }
  rewrite (detach_policy_eq _ i n _ ps1 q ps2) by (done || lia || (apply Hpa; rewrite Hps; by destruct ps1)).
  cbn [mbind option_bind]. set (n1 := with_policies (ps1 ++ ps2) n). change (set_leaves (<[i := n1]> ?l) ?t) with (put_leaf i n1 t).
  assert (Hw1 : node_wf n1).
  { apply with_policies_wf; [done|]. rewrite Hps, length_app in Hlen. simpl in Hlen. rewrite length_app. lia. }
  assert (i64 (al_hbm_quota al) = al_hbm_quota al) as ->.
  { unfold i64, INT64_MIN, U64_MOD in *. rewrite Z.mod_small by lia. lia. }
  rewrite (update_quota_eq _ i n1) by ((by eapply put_leaf_lookup) || done || (unfold INT64_MIN in *; lia)).
  cbn [mbind option_bind]. set (n2 := with_quota _ _ n1). change (set_leaves (<[i := n2]> ?l) ?t) with (put_leaf i n2 t).
  rewrite put_leaf_put, (mark_vnpu_free_eq _ i n2) by ((by eapply put_leaf_lookup) || (by apply with_quota_wf) || done).
  assert (vnpu_free n2 (al_vnpu_id al) = false) as -> by exact Hocc. cbn [mbind option_bind].
  change (set_leaves (<[i := ?x]> (leaves ?t)) ?t) with (put_leaf i x t). by rewrite put_leaf_put.
Qed.

Lemma registry_get_eq a p c :
  registry_wf (a_registry a) -> (allocation_registry_get (a_registry a) p c).2 = reg_map (a_registry a) !! (p, c).
Proof.
  intros Hwf. unfold allocation_registry_get. pose proof (find_key _ p c Hwf) as H. destruct (list_find _ _) as [[i al]|]; [|done].
  by destruct H as [-> _].
Qed.

Lemma release_spec env a0 p c al :
  alloc_inv C a0 -> reg_map (a_registry a0) !! (p, c) = Some al ->
  exists a', npu_allocator_release env a0 p c = Some (ENPU_SUCCESS, a') ∧ lost a0 al a' (config_path (a_config_base a0) p c)
    ∧ exists rc, persisted (a_registry a0) rc (a_registry a').
Proof.
  intros H Hal. unfold npu_allocator_release. rewrite registry_get_eq, Hal by apply (inv_reg _ _ H).
  assert (Hin : al ∈ entries (a_registry a0)) by (by apply reg_map_Some in Hal as [? _]; [|apply (inv_reg _ _ H)]).
  destruct (proj1 (list_elem_of_fmap _ _ _) (inv_on_leaf _ _ H al Hin)) as (n & Hphy & Hnin).
  apply list_elem_of_lookup in Hnin as [i Hn]. pose proof (Forall_lookup_1 _ _ _ _ (inv_leaf_ok _ _ H) Hn) as [Hp16 _ _ _ _ _].
  pose proof (proj1 (Forall_forall alloc_ok _) (inv_allocs _ _ H) al Hin) as (Hv & _).
  rewrite Hphy. rewrite (get_leaf_eq _ i n) by (apply (inv_init _ _ H) || apply (inv_phys _ _ H) || done || lia).
  rewrite Hn, shl1_eq by done. cbn [mbind option_bind].
  destruct (release_tree a0 al i n H Hin Hn ltac:(done)) as (ps1 & q & ps2 & Hps & Hq & Hf & Etree & Hocc).
  rewrite land_bit by lia. fold (vnpu_free n (al_vnpu_id al)). rewrite Hocc. cbn [negb]. rewrite Etree. cbn [mbind option_bind].
  set (a1 := set_a_tree _ a0).
  destruct (shm_release_spec (ae_libc env) a1 (phy_of n) (al_vnpu_id al) (inv_shm _ _ H) (inv_tlsf _ _ H) Hp16 Hv) as (rc & m & t & -> & Hm & Ht & Hmap).
  cbn [mbind option_bind]. set (a2 := set_a_tlsf t (set_a_shm m a1)).
  destruct (config_manager_delete_config _ _ _ p c) as [rc2 fs] eqn:Efs.
  destruct (allocation_registry_release _ p c) as [rc3 reg] eqn:Ereg.
  eexists. split; [done|]. pose proof (release_cases _ _ _ _ _ (inv_reg _ _ H) Ereg) as Hr. rewrite Hal in Hr.
  destruct Hr as (l1 & l2 & E1 & E2 & Hw & Hpers). split; [|by exists rc3]. constructor; simpl; try done.
  - exists i, n, ps1, q, ps2. split_and!; try done.
  - by exists l1, l2.
  - intros phy v. rewrite Hmap. by rewrite Hphy.
  - intros q' Hq'. change fs with (rc2, fs).2. rewrite <- Efs. by apply delete_config_frame.
Qed.

End release_op.
