(* ===== verification/AllocThms.v ===== *)
(** The properties of the allocator: an allocation is atomic, a release
    undoes it, and any sequence of both keeps the registry, the device tree
    and the shared memory in agreement and within the capacity of the dies. *)

From S2P Require Import Prelude CLib SwapTlsf SwapTlsfProofs SwapTlsfThms NpuTree NpuTreeFacts NpuTreeThms Evaluator EvaluatorThms Registry RegistryThms ConfigManager ShmManager ShmFacts RollbackLog Allocator AllocInv AllocShm AllocProofs AllocRollback AllocPhases AllocRelease.

(** A request whose fields are in the ranges of their types. *)
Definition request_fits (req : alloc_request) : Prop := names_fit req ∧ 0 <= rq_hbm_quota req.

(** The request that was carried out for [req]: the names may have been
    filled in, a high priority vNPU gets no cores and the best-effort policy. *)
Definition carried_out (req req' : alloc_request) : Prop :=
  (rq_pod_uid req <> EmptyString -> rq_pod_uid req' = rq_pod_uid req)
  ∧ (rq_container_name req <> EmptyString -> rq_container_name req' = rq_container_name req)
  ∧ rq_hbm_quota req' = rq_hbm_quota req ∧ rq_hbm_limit req' = rq_hbm_limit req ∧ rq_vnpu_priority req' = rq_vnpu_priority req
  ∧ (rq_vnpu_priority req <> VNPU_PRIORITY_HIGH ->
       rq_aicore_quota req' = rq_aicore_quota req ∧ rq_sched_policy req' = rq_sched_policy req).

(** Requests to the allocator, each with what its environment answers. *)
Inductive alloc_op :=
  | OpAllocate (env : alloc_env) (req : alloc_request) (resp : alloc_response)
  | OpRelease (env : alloc_env) (pod container : string)
  | OpReleaseByVnpu (env : alloc_env) (phy_id vnpu_id : Z).

Definition op_ok (op : alloc_op) : Prop :=
  match op with OpAllocate env req _ => env_ok env ∧ request_fits req | _ => True end.

Section run.
  Context `{SC : Securec} `{QS : Qsort} {S : Type} `{!Storage S}.

Definition run_op (a : npu_allocator S) (op : alloc_op) : option (npu_allocator S) :=
  match op with
  | OpAllocate env req resp => '(_, _, _, a') ← npu_allocator_allocate env a req resp; Some a'
  | OpRelease env pod container => '(_, a') ← npu_allocator_release env a pod container; Some a'
  | OpReleaseByVnpu env phy v => '(_, a') ← npu_allocator_release_by_vnpu env a phy v; Some a'
  end.

Fixpoint run_ops (a : npu_allocator S) (ops : list alloc_op) : option (npu_allocator S) :=
  match ops with [] => Some a | op :: rest => a1 ← run_op a op; run_ops a1 rest end.

End run.

(** No die has given out more cores or memory than it has, no id twice. *)
Definition within_capacity {S} (C : capacities) (a : npu_allocator S) : Prop :=
  NoDup (al_slot <$> entries (a_registry a)) ∧
  forall n, n ∈ leaves (a_tree a) ->
    sum_of al_aicore_quota (on_die (phy_of n) (entries (a_registry a))) <= cap_aicore C (phy_of n)
    ∧ sum_of al_hbm_quota (on_die (phy_of n) (entries (a_registry a))) <= cap_hbm C (phy_of n).

(** What a die of a tree has free. *)
Definition quota_of (f : npu_allocatable -> Z) (t : npu_tree) (phy : Z) : Z :=
  match list_find (fun n => phy_of n = phy) (leaves t) with Some (_, n) => f (allocatable n) | None => 0 end.
Definition tree_capacities (t : npu_tree) : capacities := mk_capacities (quota_of aicore_quota t) (quota_of hbm_quota t).

(** An allocator for the examples: two dies of 64 GB, no allocation. *)
Definition demo_alloc {S} `{!Storage S} (s : S) : npu_allocator S :=
  mk_allocator demo_tree "/e/" ∅ shm_manager_create ∅ tlsf_zero (allocation_registry_create_with_adapter (Some s)) []
    ["share"] EmptyString SHARE_STRATEGY_COMPACT (replicate 16 d_zero).
Definition demo_env : alloc_env := mk_alloc_env true true shm_os_fine (fun _ => libc1) os_fine true 1 1.
Definition demo_req (pod container : string) : alloc_request :=
  mk_alloc_request pod container 20 1024 1024 SCHED_POLICY_ELASTIC SWAP_PRIORITY_MEDIUM VNPU_PRIORITY_NORMAL (-1).

(** * Facts *)

Section facts.
  Context `{SC : Securec} `{QS : Qsort} {S : Type} `{!Storage S} `{!ReliableStorage S} (C : capacities).
  Implicit Types a : npu_allocator S.

(** The two outcomes, with the request that was carried out. *)
Lemma allocate_spec env a req resp :
  alloc_inv C a -> reliable_registry (a_registry a) -> env_ok env -> request_fits req ->
  exists rc req' resp' a', npu_allocator_allocate env a req resp = Some (rc, req', resp', a') ∧ r_result resp' = rc
    ∧ reliable_registry (a_registry a') ∧
    ((rc = ENPU_SUCCESS ∧ carried_out req req' ∧ exists al, gained a al a' ∧ describes resp' al ∧ answers_request req' al)
     \/ (rc <> ENPU_SUCCESS ∧ kept a a' (config_path (a_config_base a) (rq_pod_uid req') (rq_container_name req')))).
Proof.
  intros H Hrel Henv [Hnf Hh]. unfold npu_allocator_allocate.
  assert (Hrefuse : forall rc req1 resp1, rc <> ENPU_SUCCESS -> r_result resp1 = rc -> exists rc0 req' resp' a', Some (rc, req1, resp1, a) = Some (rc0, req', resp', a')
    ∧ r_result resp' = rc0 ∧ reliable_registry (a_registry a') ∧
    ((rc0 = ENPU_SUCCESS ∧ carried_out req req' ∧ exists al, gained a al a' ∧ describes resp' al ∧ answers_request req' al)
     \/ (rc0 <> ENPU_SUCCESS ∧ kept a a' (config_path (a_config_base a) (rq_pod_uid req') (rq_container_name req'))))).
  { intros rc req1 resp1 Hrc Hr. exists rc, req1, resp1, a. split_and!; try done. right. split; [done|]. by apply (kept_tree C). }
  destruct (check_request a req) as [req1 [[rc msg]|[hreq hlim]]] eqn:Ec.
  { apply Hrefuse; [|done]. by eapply check_request_fail. }
  destruct (check_request_ok _ _ _ _ _ Ec) as (-> & -> & Ha & Ep & Econt & Eq & El & Epr & Enorm).
  destruct (_ && _); [by apply Hrefuse|]. destruct (allocation_registry_get _ _ _).2; [by apply Hrefuse|].
  destruct (evaluate_phase C env req1 (set_r_error MNone resp) a H Hrel Henv) as (req' & Hreq' & (rc & resp' & a' & E & Hr & Hrel' & Hcases));
    [unfold names_fit; by rewrite Ep, Econt|done|lia|].
  rewrite Eq, El in E. exists rc, req', resp', a'. split; [done|]. split; [done|]. split; [done|].
  destruct Hcases as [(-> & al & Hg & Hd & Hans)|(Hrc & Hk)]; [left|by right]. split; [done|]. split; [|by exists al].
  assert (Hne : forall s, s <> EmptyString -> str_empty s = false) by (by intros []).
  unfold carried_out. destruct Hreq' as [->|(phy & v & ->)]; [by split_and!|]. unfold named. simpl.
  rewrite Ep, Econt. split_and!; try done; intros ?; by rewrite Hne.
Qed.

(** A release, of a known or an unknown container. *)
Lemma release_total env a p c :
  alloc_inv C a -> reliable_registry (a_registry a) ->
  exists rc a', npu_allocator_release env a p c = Some (rc, a') ∧ alloc_inv C a' ∧ reliable_registry (a_registry a').
Proof.
  intros H Hrel. destruct (reg_map (a_registry a) !! (p, c)) as [al|] eqn:E.
  - destruct (release_spec C env a p c al H E) as (a' & -> & Hl & rc & Hp). eexists _, _. split; [done|].
    split; [by eapply lost_inv|]. by destruct (persisted_reliable _ _ _ Hrel Hp).
  - unfold npu_allocator_release. rewrite registry_get_eq, E by apply (inv_reg _ _ H). by eexists _, _.
Qed.

Lemma run_op_inv a op :
  alloc_inv C a -> reliable_registry (a_registry a) -> op_ok op ->
  exists a', run_op a op = Some a' ∧ alloc_inv C a' ∧ reliable_registry (a_registry a').
Proof.
  intros H Hrel Hok. destruct op as [env req resp|env p c|env phy v]; simpl in *.
  - destruct Hok as [Henv Hreq]. destruct (allocate_spec env a req resp H Hrel Henv Hreq) as (rc & req' & resp' & a' & -> & _ & Hrel' & Hcases).
    cbn [mbind option_bind]. exists a'. split; [done|]. split; [|done].
    destruct Hcases as [(_ & _ & al & Hg & _)|(_ & Hk)]; [by eapply gained_inv|by eapply kept_inv].
  - destruct (release_total env a p c H Hrel) as (rc & a' & -> & ? & ?). by exists a'.
  - unfold npu_allocator_release_by_vnpu. destruct (_ || _); [by exists a|]. destruct (list_find _ _) as [[i al]|]; [|by exists a].
    destruct (release_total env a (alloc_copy MAX_UUID_LEN (al_pod_uid al)) (alloc_copy MAX_NAME_LEN (al_container_name al)) H Hrel)
      as (rc & a' & -> & ? & ?). by exists a'.
Qed.

Lemma inv_within_capacity a : alloc_inv C a -> within_capacity C a.
Proof.
  intros H. split; [apply (inv_slots _ _ H)|]. intros n [i Hn]%list_elem_of_lookup.
  pose proof (inv_holds _ _ H _ _ Hn) as Hh. pose proof (lh_aicore _ _ _ Hh). pose proof (lh_aicore_free _ _ _ Hh). pose proof (lh_hbm _ _ _ Hh).
  pose proof (wf_hbm _ (Forall_lookup_1 _ _ _ _ (wf_nodes _ (inv_tree _ _ H)) Hn)) as [? _]. lia.
Qed.

End facts.

(** * Initial states *)

Lemma quota_of_leaf f t n : NoDup (phy_of <$> leaves t) -> n ∈ leaves t -> quota_of f t (phy_of n) = f (allocatable n).
Proof.
  intros Hnd [i Hi]%list_elem_of_lookup. unfold quota_of. destruct (list_find _ _) as [[j m]|] eqn:E.
  - apply list_find_Some in E as (Hj & Hm & _). assert (j = i) as ->; [|congruence].
    eapply (NoDup_lookup (phy_of <$> leaves t) j i (phy_of n)); [done|by rewrite list_lookup_fmap, Hj; simpl; f_equal|by rewrite list_lookup_fmap, Hi].
  - apply list_find_None in E. rewrite Forall_forall in E. exfalso. apply (E n); [by eapply list_elem_of_lookup_2|done].
Qed.

(** A tree as [npu_tree_init] leaves it, over the devices that the allocator
    can use. *)
Record fresh_tree (ratios : list double) (t : npu_tree) : Prop := {
  ft_wf : tree_wf t;
  ft_init : tree_initialized t = true;
  ft_phys : NoDup (phy_of <$> leaves t);
  ft_leaf : Forall (leaf_ok (tree_capacities t) ratios) (leaves t);
  ft_free : Forall (fun n => policies n = [] ∧ 0 <= aicore_quota (allocatable n) ∧ forall v, 0 <= v < 64 -> vnpu_free n v = true) (leaves t);
}.

Lemma shm_create_ok : shm_ok shm_manager_create.
Proof.
  constructor; [apply shm_manager_create_wf|]. intros phy s. unfold shm_manager_get_state. destruct (_ || _); [done|].
  cbn [shm_states shm_manager_create]. by rewrite lookup_join_replicate.
Qed.

Lemma shm_create_empty phy v : die_map shm_manager_create phy v = None.
Proof.
  unfold die_map, shm_manager_get_state. destruct (_ || _); [done|]. cbn [shm_states shm_manager_create]. by rewrite lookup_join_replicate.
Qed.

Lemma fresh_inv {S} (a : npu_allocator S) :
  fresh_tree (a_oversub a) (a_tree a) -> a_shm a = shm_manager_create -> a_tlsf a = tlsf_zero -> length (a_oversub a) = 16%nat ->
  entries (a_registry a) = [] -> 1 <= capacity (a_registry a) <= MAX_ALLOC_COUNT -> alloc_inv (tree_capacities (a_tree a)) a.
Proof.
  intros [F1 F2 F3 F4 F5] Es Et Eo Ee Ec. constructor; rewrite ?Es, ?Ee; try done.
  - constructor; rewrite ?Ee; [constructor|simpl; lia|done].
  - apply shm_create_ok.
  - right. by rewrite Et.
  - by intros al ?%not_elem_of_nil.
  - constructor.
  - intros i n Hn. pose proof (Forall_lookup_1 _ _ _ _ F5 Hn) as (Hp & Ha & Hv). apply list_elem_of_lookup_2 in Hn.
    change (on_die (phy_of n) []) with (@nil allocation). constructor; simpl; rewrite ?Hp, ?quota_of_leaf by done; try done; try lia.
    intros v Hv'. rewrite Hv by done. split; [done|by intros ?%not_elem_of_nil].
  - intros phy v. rewrite shm_create_empty. split; [by intros [? ?]|by intros ?%not_elem_of_nil].
Qed.

Lemma demo_fresh : fresh_tree (replicate 16 d_zero) demo_tree.
Proof.
  assert (Hf : Forall (fun n => policies n = [] ∧ 0 <= aicore_quota (allocatable n) ∧ vnpu_mask (allocatable n) = UINT64_MAX) (leaves demo_tree)).
  { vm_compute. repeat constructor; done. }
  constructor; [apply demo_tree_wf|done| | |].
  - vm_compute. repeat constructor; set_solver.
  - let l := eval vm_compute in (leaves demo_tree) in assert (E : leaves demo_tree = l) by (vm_compute; reflexivity).
    rewrite E. constructor; [|constructor; [|constructor]].
    all: constructor; [by vm_compute; split|by vm_compute|by vm_compute|by vm_compute|intros r Hr|done].
    all: assert (r = d_zero) as -> by (vm_compute in Hr; injection Hr as <-; reflexivity); clear; vm_compute; by eexists.
  - apply (Forall_impl _ _ _ Hf). intros n (Hp & Ha & Hm). split_and!; [done..|]. intros v Hv. unfold vnpu_free. rewrite Hm.
    change UINT64_MAX with (Z.ones 64). by rewrite (Z.testbit_ones_nonneg 64 v), (proj2 (Z.ltb_lt v 64)) by lia.
Qed.

Lemma demo_inv {S} `{!Storage S} (s : S) : alloc_inv (tree_capacities demo_tree) (demo_alloc s).
Proof. apply (fresh_inv (demo_alloc s)); try done. apply demo_fresh. Qed.

Lemma demo_reliable : reliable_registry (a_registry (demo_alloc memory_storage_adapter_create)).
Proof. reflexivity. Qed.

Lemma demo_req_fits : request_fits (demo_req "p" "c").
Proof. split; [split|]; simpl; lia. Qed.

(** * The round trip *)

Lemma app_cons_unique {A} (P : A -> Prop) l1 x l2 k y :
  l1 ++ x :: l2 = k ++ [y] -> P x -> Forall (fun z => ~ P z) l1 -> Forall (fun z => ~ P z) k -> l1 = k ∧ l2 = [].
Proof.
  revert k. induction l1 as [|z l1 IH]; intros [|w k]; simpl; intros [= -> E] Hx H1 Hk; try (by split).
  - apply Forall_cons in Hk as [Hk _]. done.
  - destruct l1; simplify_eq/=; done.
  - apply Forall_cons in H1 as [_ H1], Hk as [_ Hk]. destruct (IH k E Hx H1 Hk) as [-> ->]. done.
Qed.

Lemma unplace_place al n :
  node_wf n -> 0 <= al_vnpu_id al < 64 -> vnpu_free n (al_vnpu_id al) = true ->
  norm_node (unplace_node al (policies n) (place_node al n)) = norm_node n.
Proof.
  intros Hwf Hv Hf. destruct (occupy_free _ _ Hwf Hv Hf) as (_ & _ & Hm).
  pose proof (with_quota_undo (- al_aicore_quota al) (- al_hbm_quota al) n Hwf) as Hq. rewrite !Z.opp_involutive in Hq.
  rewrite <- (with_policies_same n Hwf). unfold unplace_node, place_node.
  transitivity (with_policies (policies n) (with_quota (al_aicore_quota al) (al_hbm_quota al) (with_quota (- al_aicore_quota al) (- al_hbm_quota al)
    (with_mask (Z.lor (vnpu_mask (allocatable (occupy (al_vnpu_id al) n))) (2 ^ al_vnpu_id al)) (occupy (al_vnpu_id al) n))))); [reflexivity|].
  by rewrite Hm, Hq.
Qed.

Section roundtrip.
  Context `{SC : Securec} {S : Type} `{!Storage S} (C : capacities).
  Implicit Types a : npu_allocator S.

Lemma gained_lost a al a1 a2 path :
  alloc_inv C a -> gained a al a1 -> lost a1 al a2 path ->
  norm_tree (a_tree a2) = norm_tree (a_tree a) ∧ entries (a_registry a2) = entries (a_registry a)
  ∧ (forall phy v, die_map (a_shm a2) phy v = die_map (a_shm a) phy v).
Proof.
  intros H [(i & n & Hn & Hphy & Et & Hfree & _ & _) (Hv & _) Ge Gr _ (b & Gm) _ _ _].
  intros [(i' & n' & ps1 & q & ps2 & Hn' & Hphy' & Hps & Hq & Hf1 & Et2) (l1 & l2 & E1 & E2) _ _ Lm _ _ _].
  destruct (inv_free_id C _ _ _ _ H Hn Hv Hfree) as (Hslot & Hnone & Hnin). rewrite Hphy in Hslot, Hnone.
  assert (i' = i) as ->.
  { rewrite Et in Hn'. assert (Hp : phy_of <$> leaves (put_leaf i (place_node al n) (a_tree a)) = phy_of <$> leaves (a_tree a))
      by (by apply (insert_leaf_phys _ _ n)).
    apply (NoDup_lookup _ i' i (al_phy_id al) (inv_phys _ _ H)); [rewrite <- Hp, list_lookup_fmap, Hn'; simpl; by f_equal|].
    rewrite list_lookup_fmap, Hn. simpl. by f_equal. }
  rewrite Et, (put_leaf_lookup i (place_node al n) n) in Hn' by done. injection Hn' as <-. simpl in Hps.
  destruct (app_cons_unique (fun p => pe_vnpu_id p = al_vnpu_id al) ps1 q ps2 (policies n) _ (eq_sym Hps) Hq Hf1) as [-> ->].
  { apply Forall_forall. intros p Hp E. apply Hnin, list_elem_of_fmap. by exists p. }
  rewrite Ge in E1. destruct (app_cons_unique (fun x => al_slot x = al_slot al) l1 al l2 (entries (a_registry a)) al (eq_sym E1)) as [-> ->]; [done| | |].
  { apply Forall_forall. intros x Hx E. assert (Hnd : NoDup (al_slot <$> entries (a_registry a) ++ [al])).
    { rewrite fmap_app. apply NoDup_app. split; [apply (inv_slots _ _ H)|]. split; [|apply NoDup_singleton].
      by intros y Hy ->%list_elem_of_singleton. }
    rewrite E1, fmap_app, fmap_cons in Hnd. apply NoDup_app_cons_inv in Hnd as (Hn1 & _). apply Hn1, list_elem_of_fmap. by exists x. }
  { apply Forall_forall. intros x Hx E. apply Hslot, list_elem_of_fmap. by exists x. }
  rewrite app_nil_r in E2, Et2. split_and!; [|done|].
  - rewrite Et2, Et, put_leaf_put. unfold norm_tree, put_leaf, set_leaves. simpl. f_equal. rewrite list_fmap_insert, unplace_place; [| |done|done].
    + apply list_insert_id. by rewrite list_lookup_fmap, Hn.
    + exact (Forall_lookup_1 _ _ _ _ (wf_nodes _ (inv_tree _ _ H)) Hn).
  - intros phy v. rewrite Lm, Gm. destruct (decide _) as [[-> ->]|]; done.
Qed.

End roundtrip.

(** * Properties *)





(** C12. Allocating and then releasing is the identity on the device tree (up to
    the allocation of a policy array), on the registry and on the entries of
    the shared memory, for any two environments. *)
Theorem allocate_release_roundtrip `{SC : Securec} `{QS : Qsort} {S} `{!Storage S} `{!ReliableStorage S} C env env2 (a : npu_allocator S)
    req resp req' resp' a1 :
  alloc_inv C a -> reliable_registry (a_registry a) -> env_ok env -> request_fits req ->
  npu_allocator_allocate env a req resp = Some (ENPU_SUCCESS, req', resp', a1) ->
  exists a2, npu_allocator_release env2 a1 (rq_pod_uid req') (rq_container_name req') = Some (ENPU_SUCCESS, a2)
    ∧ norm_tree (a_tree a2) = norm_tree (a_tree a) ∧ entries (a_registry a2) = entries (a_registry a)
    ∧ forall phy v, die_map (a_shm a2) phy v = die_map (a_shm a) phy v.
Proof.
  intros H Hrel Henv Hreq E. destruct (allocate_spec C env a req resp H Hrel Henv Hreq) as (rc & r1 & r2 & a' & E' & _ & _ & Hcases).
  rewrite E in E'. simplify_eq. destruct Hcases as [(_ & _ & al & Hg & _ & Hans)|(Hne & _)]; [|done].
  pose proof (gained_inv C _ _ _ H Hg) as H1. destruct Hans as (E1 & E2 & _).
  assert (Hal : reg_map (a_registry a') !! (rq_pod_uid r1, rq_container_name r1) = Some al).
  { apply reg_map_Some; [apply (inv_reg _ _ H1)|]. rewrite (g_entries _ _ _ Hg), <- E1, <- E2. split; [|done]. apply elem_of_app. right. by left. }
  destruct (release_spec C env2 a' _ _ al H1 Hal) as (a2 & -> & Hl & _). exists a2. split; [done|]. by eapply gained_lost.
Qed.

Lemma allocate_release_roundtrip_witness :
  exists req' resp' a1 a2,
    npu_allocator_allocate (SC := securec_ref) demo_env (demo_alloc memory_storage_adapter_create) (demo_req "p" "c") alloc_response0
      = Some (ENPU_SUCCESS, req', resp', a1)
    ∧ npu_allocator_release (SC := securec_ref) demo_env a1 (rq_pod_uid req') (rq_container_name req') = Some (ENPU_SUCCESS, a2).
Proof.
  destruct (npu_allocator_allocate (SC := securec_ref) demo_env (demo_alloc memory_storage_adapter_create) (demo_req "p" "c") alloc_response0)
    as [[[[rc req'] resp'] a1]|] eqn:E.
  2:{ assert (E2 : is_Some (npu_allocator_allocate (SC := securec_ref) demo_env (demo_alloc memory_storage_adapter_create)
      (demo_req "p" "c") alloc_response0)) by (vm_compute; eexists; reflexivity). rewrite E in E2. destruct E2 as [? E2]. discriminate E2. }
  assert (rc = ENPU_SUCCESS) as ->.
  { assert (E2 : (fun x => x.1.1.1) <$> npu_allocator_allocate (SC := securec_ref) demo_env (demo_alloc memory_storage_adapter_create)
      (demo_req "p" "c") alloc_response0 = Some ENPU_SUCCESS) by (vm_compute; reflexivity).
    rewrite E in E2. by injection E2. }
  destruct (allocate_release_roundtrip (SC := securec_ref) _ demo_env demo_env _ _ _ _ _ _ (demo_inv memory_storage_adapter_create) demo_reliable I demo_req_fits E) as (a2 & Hr & _).
  exists req', resp', a1, a2. split; [reflexivity|exact Hr].
Defined.



(** What the examples look at: the code, the keys of the registry, the free id
    0 of die 0, and the configuration file of a container. *)
Definition demo_view {S} (pod container : string) (r : option (@alloc_outcome S)) : option (Z * list (string * string) * option bool * option bool) :=
  '(rc, _, _, a) ← r;
  Some (rc, al_key <$> entries (a_registry a), (fun n => vnpu_free n 0) <$> (leaves (a_tree a) !! 0%nat),
        (fun _ => true) <$> (a_files a !! config_path (a_config_base a) pod container)).
Definition demo_next {S} (r : option (@alloc_outcome S)) (a : npu_allocator S) : npu_allocator S :=
  from_option (fun x => x.2) a r.

(** When the checkpoint cannot be saved the allocation is reported as failed
    and rolled back, but its registry entry stays: the vNPU id is free, the
    configuration file is gone, and the retry of the request is answered
    ENPU_ALREADY_EXISTS for a vNPU that does not exist. *)
Theorem failed_save_strands_entry :
  let first := npu_allocator_allocate (SC := securec_ref) demo_env (demo_alloc Broken) (demo_req "p" "c") alloc_response0 in
  let again := npu_allocator_allocate (SC := securec_ref) demo_env (demo_next first (demo_alloc Broken)) (demo_req "p" "c") alloc_response0 in
  demo_view "p" "c" first = Some (ENPU_FAIL, [("p", "c")], Some true, None)
  ∧ demo_view "p" "c" again = Some (ENPU_ALREADY_EXISTS, [("p", "c")], Some true, None).
Proof. vm_compute. by split. Qed.

(** The default names of a request without names can be those of an
    existing allocation, which is found out only by the registration.  The
    request then fails, and its rollback deletes the configuration file of
    the allocation that exists. *)
Theorem default_name_collision_deletes_config :
  let a0 := demo_alloc memory_storage_adapter_create in
  let first := npu_allocator_allocate (SC := securec_ref) demo_env a0 (demo_req "pod-0" "container-0-1") alloc_response0 in
  let second := npu_allocator_allocate (SC := securec_ref) demo_env (demo_next first a0) (demo_req EmptyString EmptyString) alloc_response0 in
  demo_view "pod-0" "container-0-1" first = Some (ENPU_SUCCESS, [("pod-0", "container-0-1")], Some false, Some true)
  ∧ demo_view "pod-0" "container-0-1" second = Some (ENPU_ALREADY_EXISTS, [("pod-0", "container-0-1")], Some false, None).
Proof. vm_compute. by split. Qed.
