(* ===== verification/AllocRecover.v ===== *)
(** Recovery after a restart: from a fresh tree, empty shared memory and the
    allocations of the checkpoint, [npu_allocator_recover] rebuilds the state
    that the allocator had before. *)

From Stdlib Require Import Ascii.
From stdpp Require Import pretty.
From S2P Require Import Prelude CLib SwapTlsf SwapTlsfProofs SwapTlsfThms NpuTree NpuTreeFacts NpuTreeThms Evaluator EvaluatorThms Registry RegistryThms ConfigManager ShmManager ShmFacts RollbackLog Allocator AllocInv AllocShm AllocProofs AllocRollback AllocPhases AllocRelease AllocThms.

(** The allocator with the first allocations only in its registry. *)
Definition with_entries {S} (l : list allocation) (a : npu_allocator S) : npu_allocator S :=
  set_a_registry (mk_registry l (capacity (a_registry a)) (adapter (a_registry a))) a.

(** No state object exists for a die that the manager has not mapped. *)
Definition names_clean (m : shm_manager) (names : gset string) : Prop :=
  forall phy die, 0 <= phy < 16 -> shm_manager_get_state m phy = None -> (shm_state_name phy die ∉ names).

(** What one iteration needs of its environment. *)
Definition recover_env_ok (env : alloc_env) : Prop :=
  env_ok env ∧ ae_policy_ok env = true ∧ so_truncate_ok (ae_shm_os env) = true ∧ so_mmap_ok (ae_shm_os env) = true.

(** The die of an allocation is named as a device is. *)
Definition die_named (al : allocation) : Prop := al_die_id al <> EmptyString ∧ (String.length (al_die_id al) < 64)%nat.

(** The entry that a recovery writes: what the allocation says, nothing used. *)
Definition entry_restores (e : vnpu_shm_entry) (al : allocation) : Prop :=
  e_vnpu_id e = al_vnpu_id al ∧ e_hbm_request e = al_hbm_quota al ∧ e_hbm_limit e = al_hbm_limit al ∧ e_hbm_used e = 0
  ∧ e_sched_policy e = al_sched_policy al ∧ e_swap_priority e = al_swap_priority al.

(** Allocations that fit the dies of a tree, as those of a consistent
    allocator do. *)
Record fitting (C : capacities) (phys : list Z) (l : list allocation) : Prop := {
  fit_ok : Forall alloc_ok l;
  fit_named : Forall die_named l;
  fit_leaf al : al ∈ l -> al_phy_id al ∈ phys;
  fit_slots : NoDup (al_slot <$> l);
  fit_keys : NoDup (al_key <$> l);
  fit_aicore phy : phy ∈ phys -> sum_of al_aicore_quota (on_die phy l) <= cap_aicore C phy;
  fit_hbm phy : phy ∈ phys -> sum_of al_hbm_quota (on_die phy l) <= cap_hbm C phy;
}.

Lemma inv_fitting {S} C (a : npu_allocator S) :
  alloc_inv C a -> Forall die_named (entries (a_registry a)) -> fitting C (phy_of <$> leaves (a_tree a)) (entries (a_registry a)).
Proof.
  intros H Hn. destruct (inv_within_capacity C a H) as [Hs Hc].
  constructor; [apply (inv_allocs _ _ H)|done|apply (inv_on_leaf _ _ H)|done|apply (reg_keys _ (inv_reg _ _ H))| |].
  all: intros phy (n & -> & Hin)%list_elem_of_fmap; by apply Hc.
Qed.

(** * The names of the state objects *)

Fixpoint upto_dash (s : string) : string :=
  match s with
  | EmptyString => EmptyString
  | String c r => if bool_decide (c = "-"%char) then EmptyString else String c (upto_dash r)
  end.

Lemma upto_dash_pretty phy x : 0 <= phy < 16 -> upto_dash (pretty phy +:+ "-" +:+ x) = pretty phy.
Proof.
  intros H. assert (Hin : phy ∈ seqZ 0 16) by (apply elem_of_seqZ; lia). revert Hin.
  let l := eval vm_compute in (seqZ 0 16) in change (seqZ 0 16) with l.
  rewrite !elem_of_cons. intros Hin. repeat destruct Hin as [->|Hin]; try reflexivity. by apply not_elem_of_nil in Hin.
Qed.

Lemma shm_state_name_inj phy1 phy2 d1 d2 :
  0 <= phy1 < 16 -> 0 <= phy2 < 16 -> shm_state_name phy1 d1 = shm_state_name phy2 d2 -> phy1 = phy2.
Proof.
  intros H1 H2 E. apply (inj (String.append "/shm_state-")) in E.
  apply (inj pretty). rewrite <- (upto_dash_pretty phy1 d1), <- (upto_dash_pretty phy2 d2) by done. by rewrite E.
Qed.

Section recover.
  Context `{SC : Securec} {S : Type} `{!Storage S} (C : capacities).
  Implicit Types a : npu_allocator S.

Lemma posix_create_ok o names phy die :
  0 <= phy < 16 -> (String.length die < 64)%nat -> so_truncate_ok o = true -> so_mmap_ok o = true -> (shm_state_name phy die ∉ names) ->
  shm_state_posix_shm_create o names phy die = (Some (state_new phy die), {[shm_state_name phy die]} ∪ names).
Proof.
  intros Hp Hd Ht Hm Hn. unfold shm_state_posix_shm_create. rewrite (proj2 (Z.ltb_ge phy 0)) by lia.
  pose proof (pretty_small phy ltac:(lia)) as Hps.
  assert (Hl : (String.length (shm_state_name phy die) <= 127)%nat).
  { unfold shm_state_name. rewrite !string_length_app. change (String.length "/shm_state-") with 11%nat. change (String.length "-") with 1%nat. lia. }
  rewrite snprintf_s_fits by lia. rewrite (proj2 (Z.ltb_ge _ 0)), bool_decide_eq_false_2, Ht, Hm by (done || lia). cbn [andb negb].
  rewrite copy_str_eq by (unfold DIE_ID_LEN; lia). change (Z.to_nat DIE_ID_LEN - 1)%nat with 63%nat.
  by rewrite prefix_of_len_all by lia.
Qed.

Lemma get_or_create_success o m names phy die :
  shm_ok m -> names_clean m names -> from_option sched_wf True (so_sched_existing o) -> so_truncate_ok o = true -> so_mmap_ok o = true ->
  0 <= phy < 16 -> (String.length die < 64)%nat ->
  exists id m' names', shm_manager_get_or_create_shm o m names phy die SHM_ID_LEN = (ENPU_SUCCESS, id, m', names') ∧ names_clean m' names'.
Proof.
  intros Hok Hcl Hex Ht Hm Hp Hd.
  destruct (shm_manager_get_or_create_shm o m names phy die SHM_ID_LEN) as [[[rc id] m'] names'] eqn:E.
  assert (Hrc : rc = ENPU_SUCCESS ∧ (shm_manager_get_state m phy = None -> names' = {[shm_state_name phy die]} ∪ names)).
  { unfold shm_manager_get_or_create_shm, MAX_NPU_PER_NODE in E. rewrite (proj2 (Z.ltb_ge phy 0)), (proj2 (Z.leb_gt 16 phy)) in E by lia.
    cbn [orb] in E. change (0 <? SHM_ID_LEN) with true in E. cbn iota in E.
    change (Z.to_nat SHM_ID_LEN) with 64%nat in E. change (Z.to_nat (SHM_ID_LEN - 1)) with 63%nat in E.
    destruct (shm_manager_get_state m phy) as [s|] eqn:Hs.
    - destruct (so_ids _ Hok _ _ Hs) as [_ Hl]. rewrite snprintf_s_fits in E by lia. rewrite (proj2 (Z.ltb_ge _ 0)) in E by lia. by injection E as <- <- <- <-.
    - rewrite posix_create_ok in E by (done || by apply Hcl). rewrite snprintf_s_fits in E by (simpl; lia).
      rewrite (proj2 (Z.ltb_ge _ 0)) in E by lia. by injection E as <- <- <- <-. }
  destruct Hrc as [-> Hnames]. destruct (get_or_create_spec _ _ _ _ _ _ _ _ _ _ (so_wf _ Hok) Hex E) as (_ & _ & Hsucc).
  destruct (Hsucc eq_refl) as (Hsome & Hold & Hnew & Hoth). exists id, m', names'. split; [done|].
  intros phy' die' Hp' Hnone. destruct (decide (phy' = phy)) as [->|Hne]; [by rewrite Hnone in Hsome; destruct Hsome|].
  rewrite (proj1 (Hoth _ Hne)) in Hnone. pose proof (Hcl phy' die' Hp' Hnone) as Hni.
  destruct (shm_manager_get_state m phy) as [s|] eqn:Hs; [by destruct (Hold (mk_is_Some _ _ eq_refl)) as [_ ->]|].
  rewrite Hnames by done. intros [E1%elem_of_singleton|]%elem_of_union; [|done]. by apply Hne, (shm_state_name_inj _ _ die' die).
Qed.

Lemma restore_entry_spec al total a :
  shm_ok (a_shm a) -> is_Some (shm_manager_get_state (a_shm a) (al_phy_id al)) -> 0 <= al_vnpu_id al < 64 ->
  exists m e, restore_entry al total a = Some (set_a_shm m a) ∧ shm_ok m ∧ entry_restores e al
    ∧ (forall phy, is_Some (shm_manager_get_state m phy) <-> is_Some (shm_manager_get_state (a_shm a) phy))
    ∧ forall phy v, die_map m phy v = if decide (phy = al_phy_id al ∧ v = al_vnpu_id al) then Some e else die_map (a_shm a) phy v.
Proof.
  intros Hok [s Hs] Hv. set (phy := al_phy_id al) in *. unfold restore_entry. fold phy. rewrite Hs.
  destruct (init_state_eq _ phy s total Hs) as (s1 & -> & E1 & E2 & E3). cbn [mbind option_bind].
  pose proof (so_wf _ Hok) as Hwf. pose proof (get_state_range _ _ _ Hs) as Hp. pose proof (wf_state _ Hwf _ _ Hs) as Hsw.
  assert (Hs1w : shm_wf s1) by by eapply same_entries_wf. assert (Hok1 : shm_ok (set_state phy s1 (a_shm a))) by by eapply shm_ok_set.
  assert (Hget1 : shm_manager_get_state (set_state phy s1 (a_shm a)) phy = Some s1)
    by (rewrite get_state_set by (done || apply (wf_states _ Hwf)); by rewrite decide_True).
  rewrite Hget1. cbn [mbind option_bind]. destruct (entry_at_wf s1 (al_vnpu_id al) Hs1w ltac:(lia)) as (e0 & -> & He0). cbn [mbind option_bind].
  set (e := mk_entry _ _ _ _ _ _ _ _). set (s2 := set_st_bitmap _ _). assert (Es2 : s2 = add_vnpu e s1) by done.
  exists (set_state phy s2 (set_state phy s1 (a_shm a))), e. split; [done|].
  assert (Hs2w : shm_wf s2) by (rewrite Es2; apply add_vnpu_wf; [done|done|simpl; lia]).
  split; [by eapply shm_ok_set|]. split; [by split_and!|]. pose proof (so_wf _ Hok1) as Hwf1. split.
  - intros phy'. rewrite !get_state_set by (lia || apply (wf_states _ Hwf1) || apply (wf_states _ Hwf)).
    destruct (decide _) as [->|]; [rewrite Hs; split; eauto|done].
  - intros phy' v. rewrite die_map_set by done. destruct (decide (phy' = phy)) as [->|Hne].
    + rewrite Es2. unfold add_vnpu. rewrite find_entry_add by (done || simpl; lia). change (e_vnpu_id e) with (al_vnpu_id al).
      destruct (decide (v = al_vnpu_id al)); [by rewrite decide_True|]. rewrite decide_False by naive_solver.
      rewrite (same_entries_find s s1) by done. unfold die_map. by rewrite Hs.
    + rewrite decide_False by naive_solver. rewrite die_map_set by done. by rewrite decide_False.
Qed.

(** The entries of the shared memory describe the allocations. *)
Definition restored (l : list allocation) (m : shm_manager) : Prop :=
  forall al, al ∈ l -> exists e, die_map m (al_phy_id al) (al_vnpu_id al) = Some e ∧ entry_restores e al.

(** What the recovered allocator has in common with the one it started as. *)
Record same_base (a a' : npu_allocator S) : Prop := {
  sb_registry : a_registry a' = a_registry a;
  sb_phys : phy_of <$> leaves (a_tree a') = phy_of <$> leaves (a_tree a);
}.

Lemma recover_leaf a l al :
  alloc_inv C (with_entries l a) -> alloc_ok al -> al_phy_id al ∈ phy_of <$> leaves (a_tree a) -> (al_slot al ∉ al_slot <$> l) ->
  sum_of al_aicore_quota (on_die (al_phy_id al) l) + al_aicore_quota al <= cap_aicore C (al_phy_id al) ->
  sum_of al_hbm_quota (on_die (al_phy_id al) l) + al_hbm_quota al <= cap_hbm C (al_phy_id al) ->
  exists i n, phy_of n = al_phy_id al ∧ chosen (with_entries l a) i n al.
Proof.
  intros H Hok Hin Hslot Ha Hh. apply list_elem_of_fmap in Hin as (n & Hphy & Hin). apply list_elem_of_lookup in Hin as [i Hn].
  exists i, n. split; [done|]. pose proof (inv_holds _ _ H i n Hn) as Hl. simpl in Hl. rewrite Hphy in Ha, Hh.
  pose proof (lh_aicore _ _ _ Hl). pose proof (lh_hbm _ _ _ Hl). destruct Hok as (Hv & Hq) eqn:E.
  constructor; [done|done| |lia|lia]. destruct (vnpu_free n (al_vnpu_id al)) eqn:Ef; [done|]. exfalso. apply Hslot.
  unfold al_slot at 1. rewrite Hphy. apply slot_on_die. by apply (lh_ids _ _ _ Hl).
Qed.

Lemma recover_one_spec env a l al :
  alloc_inv C (with_entries l a) -> names_clean (a_shm a) (a_names a) -> recover_env_ok env -> die_named al ->
  (exists i n, phy_of n = al_phy_id al ∧ chosen (with_entries l a) i n al) -> NoDup (al_key <$> l ++ [al]) ->
  Z.of_nat (length (l ++ [al])) <= capacity (a_registry a) ->
  exists b a' e, recover_one env a al = Some (b, a') ∧ placed (with_entries l a) al e (with_entries (l ++ [al]) a')
    ∧ entry_restores e al ∧ names_clean (a_shm a') (a_names a') ∧ same_base a a'.
Proof.
  intros H Hcl (Henv & Hpol & Htr & Hmm) [Hd1 Hd2] (i & n & Hphy & Hc) Hkeys Hcap.
  pose proof (chosen_at C _ _ _ _ H Hc) as Hat. destruct Hat as [A1 A2 A3 A4 A5] eqn:Eat. clear Eat. simpl in A1, A2, A3.
  destruct (ch_ok _ _ _ _ Hc) as (Hv & _). destruct (chosen_bounds C _ _ _ _ H Hc) as [_ Hb].
  pose proof (inv_policies C _ _ _ H (ch_leaf _ _ _ _ Hc)) as Hlen.
  pose proof (Forall_lookup_1 _ _ _ _ (inv_leaf_ok _ _ H) (ch_leaf _ _ _ _ Hc)) as [Hp16 _ _ _ _ _].
  unfold recover_one. assert (vnpu_id_is_valid (al_vnpu_id al) = true) as ->.
  { unfold vnpu_id_is_valid, CHAR_BIT, MAX_VNPU_SCHED, MAX_VNPU_PER_DIE.
    rewrite (proj2 (Z.leb_le 0 _)) by lia. by rewrite !(proj2 (Z.ltb_lt _ _)) by lia. }
  cbn [negb]. rewrite <- Hphy, (get_leaf_eq _ i n), A3 by done. cbn [mbind option_bind].
  rewrite (mark_vnpu_occupied_eq _ i n), (ch_free _ _ _ _ Hc) by done. cbn [mbind option_bind]. fold (occupy (al_vnpu_id al) n).
  change (set_leaves (<[i := ?x]> (leaves (a_tree a))) (a_tree a)) with (put_leaf i x (a_tree a)).
  rewrite neg_i64_eq by done. cbn [mbind option_bind]. destruct (occupy_free _ _ A5 Hv (ch_free _ _ _ _ Hc)) as (How & _ & _).
  rewrite (update_quota_eq _ i (occupy (al_vnpu_id al) n)) by ((by eapply put_leaf_lookup) || done || (unfold INT64_MIN in *; lia)).
  cbn [mbind option_bind]. set (n2 := with_quota (- al_aicore_quota al) (- al_hbm_quota al) (occupy (al_vnpu_id al) n)).
  change (set_leaves (<[i := n2]> ?l) ?t) with (put_leaf i n2 t). rewrite put_leaf_put.
  rewrite (attach_policy_eq _ _ i n2) by ((by eapply put_leaf_lookup) || (by apply with_quota_wf) || (by right) || (simpl; lia)).
  cbn [mbind option_bind]. change (set_leaves (<[i := ?x]> (leaves ?t)) ?t) with (put_leaf i x t). rewrite put_leaf_put.
  cbn [a_shm a_names set_a_tree]. rewrite Hphy in Hp16 |- *.
  destruct (get_or_create_success (ae_shm_os env) (a_shm a) (a_names a) (al_phy_id al) (al_die_id al)) as (id & m & names & E & Hcl1);
    [apply (inv_shm _ _ H)|done..|]. rewrite E.
  destruct (get_or_create_ok env a (al_phy_id al) (al_die_id al) _ _ _ _ (inv_shm _ _ H) Henv Hd1 E) as (Hokm & Hmap & Hsucc).
  destruct (Hsucc eq_refl) as (_ & _ & Hsome). change (ENPU_SUCCESS =? ENPU_SUCCESS) with true. cbn [negb a_shm a_names set_a_shm set_a_names].
  destruct (with_sched_spec m (al_phy_id al) (al_vnpu_id al) (set_slot_priority (al_vnpu_priority al mod 256)) (so_wf _ Hokm)) as (m1 & -> & Hw1 & Es1); [lia|].
  cbn [mbind option_bind]. set (a3 := set_a_shm m1 _).
  destruct (restore_entry_spec al (meta_total_memory (node_meta n)) a3) as (m2 & e & -> & Hok2 & Hent & Hst & Hmap2);
    [by apply (same_states_ok m)|simpl; by rewrite (same_states_get _ _ _ Es1)|done|].
  cbn [mbind option_bind]. destruct (config_manager_write_config _ _ _ _ _ _) as [rc fs]. eexists _, _, e. split; [done|].
  split; [|split; [done|split; [|constructor; [done|simpl; by apply (insert_leaf_phys _ _ n)]]]].
  - constructor; simpl; try done.
    + exists i, n. split_and!; try done; [apply (ch_free _ _ _ _ Hc)|apply (ch_aicore _ _ _ _ Hc)|apply (ch_hbm _ _ _ _ Hc)].
    + apply (ch_ok _ _ _ _ Hc).
    + constructor; simpl; [done|done|apply (reg_cap_min _ (inv_reg _ _ H))].
    + intros phy v. rewrite Hmap2. simpl. by rewrite (same_states_map _ _ _ _ Es1), Hmap.
  - intros phy die Hp Hnone. simpl. apply Hcl1; [done|]. simpl in Hnone. apply eq_None_not_Some. intros Hs.
    rewrite <- (same_states_get _ _ _ Es1) in Hs. apply (Hst phy) in Hs. rewrite Hnone in Hs. by destruct Hs.
Qed.

(** Sums of a part are at most sums of the whole. *)
Lemma fitting_next phys l al rest :
  fitting C phys (l ++ al :: rest) ->
  alloc_ok al ∧ die_named al ∧ al_phy_id al ∈ phys ∧ (al_slot al ∉ al_slot <$> l) ∧ NoDup (al_key <$> l ++ [al])
  ∧ sum_of al_aicore_quota (on_die (al_phy_id al) l) + al_aicore_quota al <= cap_aicore C (al_phy_id al)
  ∧ sum_of al_hbm_quota (on_die (al_phy_id al) l) + al_hbm_quota al <= cap_hbm C (al_phy_id al).
Proof.
  intros [F1 F2 F3 F4 F5 F6 F7]. assert (Hin : al ∈ l ++ al :: rest) by (apply elem_of_app; right; by left).
  pose proof (F3 al Hin) as Hphy. specialize (F6 _ Hphy). specialize (F7 _ Hphy).
  rewrite on_die_middle, decide_True, sum_of_middle, sum_of_app in F6, F7 by done.
  pose proof (on_die_ok (al_phy_id al) _ (proj2 (Forall_middle _ _ _ _ F1))) as Hr. rewrite on_die_app in Hr. apply Forall_app in Hr as [_ Hr].
  destruct (forall_alloc_ok_sums _ Hr) as [Hs1 Hs2]. rewrite !Forall_forall in F1, F2.
  rewrite fmap_app, fmap_cons in F4. apply NoDup_app_cons_inv in F4 as (Hn1 & _).
  split_and!; [by apply F1|by apply F2|done|done| |lia|lia].
  rewrite cons_middle, app_assoc, fmap_app in F5. by apply NoDup_app in F5 as (? & _).
Qed.

Lemma restored_placed a l al e a' :
  (al_slot al ∉ al_slot <$> l) -> placed (with_entries l a) al e (with_entries (l ++ [al]) a') -> entry_restores e al ->
  restored l (a_shm a) -> restored (l ++ [al]) (a_shm a').
Proof.
  intros Hs Hp He Hr. pose proof (pl_map _ _ _ _ Hp) as Hm. simpl in Hm. intros x [Hx| ->%list_elem_of_singleton]%elem_of_app.
  - destruct (Hr x Hx) as (ex & E & Hex). exists ex. split; [|done]. rewrite <- E, Hm.
    rewrite decide_False; [done|]. intros [E1 E2]. apply Hs, list_elem_of_fmap. exists x. split; [|done]. unfold al_slot. by rewrite E1, E2.
  - exists e. split; [|done]. rewrite Hm. by rewrite decide_True.
Qed.

Lemma recover_loop_spec env rest l a :
  alloc_inv C (with_entries l a) -> names_clean (a_shm a) (a_names a) -> (forall al, recover_env_ok (env al)) ->
  fitting C (phy_of <$> leaves (a_tree a)) (l ++ rest) -> Z.of_nat (length (l ++ rest)) <= capacity (a_registry a) -> restored l (a_shm a) ->
  exists k a', recover_loop env a rest = Some (k, a') ∧ alloc_inv C (with_entries (l ++ rest) a') ∧ same_base a a' ∧ restored (l ++ rest) (a_shm a').
Proof.
  revert l a. induction rest as [|al rest IH]; intros l a H Hcl Henv Hfit Hcap Hr.
  { exists 0, a. rewrite app_nil_r. by split_and!. }
  destruct (fitting_next _ _ _ _ Hfit) as (Hok & Hd & Hphy & Hslot & Hkeys & Ha & Hh). rewrite length_app in Hcap. simpl in Hcap.
  destruct (recover_one_spec (env al) a l al H Hcl (Henv al) Hd) as (b & a1 & e & E & Hpl & He & Hcl1 & Hb); [by apply recover_leaf|done|rewrite length_app; simpl; lia|].
  pose proof Hb as [Er Ep]. destruct (IH (l ++ [al]) a1) as (k & a' & E' & H' & [Er' Ep'] & Hr'); [|done|done| | |by eapply restored_placed|].
  - by eapply placed_inv.
  - rewrite <- app_assoc, Ep. done.
  - rewrite Er, !length_app. simpl. lia.
  - simpl. rewrite E. cbn [mbind option_bind]. rewrite E'. cbn [mbind option_bind]. eexists _, a'. split; [done|].
    rewrite <- app_assoc in H', Hr'. split; [done|]. split; [|done]. constructor; congruence.
Qed.

End recover.

Lemma with_entries_same {S} (a : npu_allocator S) : with_entries (entries (a_registry a)) a = a.
Proof. by destruct a as [? ? ? ? ? ? [? ? ?] ? ? ? ? ?]. Qed.

(** Two leaves offer the same. *)
Definition same_offer (n n' : npu_node) : Prop :=
  aicore_quota (allocatable n) = aicore_quota (allocatable n') ∧ hbm_quota (allocatable n) = hbm_quota (allocatable n')
  ∧ forall v, 0 <= v < 64 -> vnpu_free n v = vnpu_free n' v.

Lemma leaf_holds_same C n n' als : leaf_holds C n als -> leaf_holds C n' als -> phy_of n = phy_of n' -> same_offer n n'.
Proof.
  intros [A1 _ A3 _ A5] [B1 _ B3 _ B5] E. rewrite E in *. split_and!; [lia|lia|]. intros v Hv. specialize (A1 v Hv). specialize (B1 v Hv).
  destruct (vnpu_free n v), (vnpu_free n' v); try done; exfalso.
  - assert (true = false) by (apply A1, B1; done). done.
  - assert (true = false) by (apply B1, A1; done). done.
Qed.

(** * Properties *)

Lemma recover_spec `{SC : Securec} {S S'} `{!Storage S} C (old : npu_allocator S') (a : npu_allocator S) env :
  alloc_inv C old -> Forall die_named (entries (a_registry old)) ->
  alloc_inv C (with_entries [] a) -> entries (a_registry a) = entries (a_registry old) -> registry_wf (a_registry a) ->
  phy_of <$> leaves (a_tree a) = phy_of <$> leaves (a_tree old) -> names_clean (a_shm a) (a_names a) -> (forall al, recover_env_ok (env al)) ->
  exists k a', npu_allocator_recover env a = Some (ENPU_SUCCESS, k, a') ∧ alloc_inv C a' ∧ a_registry a' = a_registry a
    ∧ restored (entries (a_registry old)) (a_shm a')
    ∧ forall n n', n ∈ leaves (a_tree old) -> n' ∈ leaves (a_tree a') -> phy_of n = phy_of n' -> same_offer n n'.
Proof.
  intros Hold Hnamed H Hent Hwf Hphys Hcl Henv. pose proof (inv_fitting C old Hold Hnamed) as Hfit. rewrite <- Hphys in Hfit.
  destruct (recover_loop_spec C env (entries (a_registry a)) [] a H Hcl Henv) as (k & a' & E & H' & [Er Ep] & Hr).
  { by rewrite Hent. } { apply (reg_cap _ Hwf). } { by intros al ?%not_elem_of_nil. }
  simpl in H', Hr. rewrite <- Er, with_entries_same in H'.
  unfold npu_allocator_recover. simpl. rewrite E. cbn [mbind option_bind]. exists k, a'. rewrite Hent in Hr. split_and!; try done.
  intros n n' [i Hn]%list_elem_of_lookup [j Hn']%list_elem_of_lookup Hp. pose proof (inv_holds _ _ Hold _ _ Hn) as A.
  pose proof (inv_holds _ _ H' _ _ Hn') as B. rewrite Er, Hent, <- Hp in B. by eapply leaf_holds_same.
Qed.

(** C6. Recovery restores the allocator after a restart.  Take a consistent
    allocator [old], and a new one over the same devices with a fresh tree,
    empty shared memory and the allocations of [old] loaded from the
    checkpoint.  When the shared objects can be created, recovering returns
    without undefined behaviour and gives a consistent allocator again:
    every die offers the same cores, memory and vNPU ids as before the
    restart, and every allocation has its entry in the shared memory. *)
Theorem recover_restores `{SC : Securec} {S S'} `{!Storage S} C (old : npu_allocator S') (a : npu_allocator S) env :
  alloc_inv C old -> Forall die_named (entries (a_registry old)) ->
  alloc_inv C (with_entries [] a) -> entries (a_registry a) = entries (a_registry old) -> registry_wf (a_registry a) ->
  phy_of <$> leaves (a_tree a) = phy_of <$> leaves (a_tree old) -> names_clean (a_shm a) (a_names a) -> (forall al, recover_env_ok (env al)) ->
  exists k a', npu_allocator_recover env a = Some (ENPU_SUCCESS, k, a') ∧ alloc_inv C a' ∧ a_registry a' = a_registry a
    ∧ restored (entries (a_registry old)) (a_shm a')
    ∧ forall n n', n ∈ leaves (a_tree old) -> n' ∈ leaves (a_tree a') -> phy_of n = phy_of n' -> same_offer n n'.
Proof. apply recover_spec. Qed.

(** The allocator of the examples after one allocation, and restarted. *)
Definition demo_one : npu_allocator memory_adapter :=
  let a := demo_alloc memory_storage_adapter_create in
  demo_next (npu_allocator_allocate (SC := securec_ref) demo_env a (demo_req "p" "c") alloc_response0) a.
Definition demo_restarted : npu_allocator memory_adapter :=
  set_a_registry (a_registry demo_one) (demo_alloc memory_storage_adapter_create).

Lemma demo_one_inv : alloc_inv (tree_capacities demo_tree) demo_one.
Proof.
  destruct (allocate_spec (SC := securec_ref) (tree_capacities demo_tree) demo_env _ (demo_req "p" "c") alloc_response0
    (demo_inv memory_storage_adapter_create) demo_reliable I demo_req_fits) as (rc & req' & resp' & a' & E & _ & _ & Hcases).
  unfold demo_one. rewrite E. simpl. destruct Hcases as [(_ & _ & al & Hg & _)|(_ & Hk)].
  - eapply gained_inv; [apply demo_inv|exact Hg].
  - eapply kept_inv; [apply demo_inv|exact Hk].
Qed.

Lemma demo_one_named : Forall die_named (entries (a_registry demo_one)).
Proof.
  assert (E : al_die_id <$> entries (a_registry demo_one) = ["die"]) by (vm_compute; reflexivity).
  apply Forall_forall. intros al Hin. assert (Hd : al_die_id al ∈ al_die_id <$> entries (a_registry demo_one)) by (apply list_elem_of_fmap; exists al; split; [reflexivity|exact Hin]).
  rewrite E in Hd. apply list_elem_of_singleton in Hd. unfold die_named. rewrite Hd. clear. simpl. split; [done|lia].
Qed.

Lemma demo_restarted_inv : alloc_inv (tree_capacities demo_tree) (with_entries [] demo_restarted).
Proof.
  apply (fresh_inv (with_entries [] demo_restarted)); [apply demo_fresh|reflexivity..|].
  exact (reg_cap_min _ (inv_reg _ _ demo_one_inv)).
Qed.

Lemma recover_restores_witness :
  length (entries (a_registry demo_one)) = 1%nat ∧
  exists k a', npu_allocator_recover (SC := securec_ref) (fun _ => demo_env) demo_restarted = Some (ENPU_SUCCESS, k, a')
    ∧ restored (entries (a_registry demo_one)) (a_shm a').
Proof.
  split; [vm_compute; reflexivity|].
  destruct (recover_restores (SC := securec_ref) _ demo_one demo_restarted (fun _ => demo_env) demo_one_inv demo_one_named demo_restarted_inv eq_refl)
    as (k & a' & E & _ & _ & Hr & _).
  - unfold demo_restarted. cbn [a_registry set_a_registry]. exact (inv_reg _ _ demo_one_inv).
  - vm_compute. reflexivity.
  - intros phy die _ _. apply not_elem_of_empty.
  - intros al. split_and!; reflexivity || exact I.
  - exists k, a'. split; [exact E|exact Hr].
Defined.
