(* ===== verification/SwapPool.v ===== *)
(** The life of the swap buffer (shm_manager.c, lines 1412-1556): mapping the
    shared object and setting up the pool, and giving both back.

    The shared object [SHM_SWAP_BUFFER_NAME] is its size, [None] when it does
    not exist. *)

From S2P Require Import Prelude CLib Dlist SwapTlsf SwapTlsfInv SwapTlsfOps SwapTlsfProofs SwapTlsfThms.

Definition SHM_SWAP_BUFFER_NAME : string := "/shm_swap_buffer".

(** [struct swap_buffer_manager] *)
Record swap_buffer_manager := mk_swap_buffer_manager { sb_buffer_size : Z; sb_base : Z }.

(** The answers of the system; [po_mmap] is the address of the mapping. *)
Record pool_os := mk_pool_os {
  po_calloc_ok : bool;
  po_mutex_ok : bool;
  po_open_ok : bool;
  po_fstat_ok : bool;
  po_truncate_ok : bool;
  po_mmap : option Z;
  po_libc : libc;
}.

(** The manager, the shared object and the pool afterwards. *)
Definition shm_swap_buffer_init `{SC : Securec} (o : pool_os) (size : Z) (obj : option Z) (t : TLSFManager) :
    option (option swap_buffer_manager * option Z * TLSFManager) :=
  if size =? 0 then Some (None, obj, t)
  else if negb (po_calloc_ok o) then Some (None, obj, t)
  else if negb (po_mutex_ok o) then Some (None, obj, t)
  else if (snprintf_s 128 127 SHM_SWAP_BUFFER_NAME).1 <? 0 then Some (None, obj, t)
  else if negb (po_open_ok o) then Some (None, obj, t)
  else
    let st_size := default 0 obj in
    if negb (po_fstat_ok o) then Some (None, None, t)
    else if (st_size =? 0) && negb (po_truncate_ok o) then Some (None, None, t)
    else if negb (st_size =? 0) && negb (st_size =? size) then Some (None, Some st_size, t)
    else
      match po_mmap o with
      | None => Some (None, None, t)
      | Some base =>
          '(ret, t1) ← tlsf_pool_init (po_libc o) base size t;
          if negb (ret =? 0) then Some (None, None, t1) else Some (Some (mk_swap_buffer_manager size base), Some size, t1)
      end.

(** The loop that frees the headers of a list: the next pointer is read before
    the header is freed; reading or freeing a header that is not allocated is
    undefined. *)
Fixpoint free_chain (fuel : nat) (cur : option loc) (h : heap_t) : option heap_t :=
  match cur, fuel with
  | None, _ => Some h
  | Some _, O => None
  | Some l, S n => b ← h !! l; free_chain n (next_free b) (delete l h)
  end.

Definition shm_swap_buffer_deinit `{SC : Securec} (obj : option Z) (t : TLSFManager) : option (Z * option Z * TLSFManager) :=
  if negb (initialized t) then Some (ENPU_SUCCESS, obj, t)
  else
    h1 ← free_chain (size (heap t)) (used_list t) (heap t);
    h2 ← ofoldl (fun hd h => free_chain (size h) hd h) (free_list t) h1;
    let ret := (snprintf_s 128 127 SHM_SWAP_BUFFER_NAME).1 in
    let t1 := mk_mgr h2 false (replicate 480 None) None 0 0 0 in
    if ret <? 0 then Some (ENPU_FAIL, obj, t1) else Some (ENPU_SUCCESS, None, t1).

(** * Facts *)

Lemma delete_all_lookup (ls : list loc) (h : heap_t) l : foldr delete h ls !! l = if decide (l ∈ ls) then None else h !! l.
Proof.
  induction ls as [|x ls IH]; cbn [foldr]; [by rewrite decide_False by apply not_elem_of_nil|].
  destruct (decide (l = x)) as [->|Hne].
  - rewrite lookup_delete_eq, decide_True by left. done.
  - rewrite lookup_delete_ne, IH by done. destruct (decide (l ∈ ls)); [by rewrite decide_True by (by right)|].
    rewrite decide_False; [done|]. by intros [|]%elem_of_cons.
Qed.

Lemma delete_all_comm (ls : list loc) (h : heap_t) x : foldr delete (delete x h) ls = delete x (foldr delete h ls).
Proof. induction ls as [|y ls IH]; simpl; [done|]. by rewrite IH, delete_delete. Qed.

Lemma free_chain_eq ls h fuel :
  sseg (nview h) ls -> NoDup ls -> (length ls <= fuel)%nat -> free_chain fuel (head ls) h = Some (foldr delete h ls).
Proof.
  revert h fuel. induction ls as [|l ls IH]; intros h fuel Hs Hnd Hf; [by destruct fuel|].
  destruct fuel as [|fuel]; [simpl in Hf; lia|]. cbn [sseg] in Hs. destruct Hs as [Hl Hs]. apply NoDup_cons in Hnd as [Hni Hnd].
  unfold nview in Hl. cbn [head free_chain]. destruct (h !! l) as [b|] eqn:Hb; [|done]. cbn [mbind option_bind]. injection Hl as ->.
  rewrite IH; [cbn [foldr]; by rewrite delete_all_comm| |done|simpl in Hf; lia].
  eapply sseg_ext; [|exact Hs]. intros x Hx. unfold nview. rewrite lookup_delete_ne; [done|]. by intros ->.
Qed.

(** A list that lies in a heap is not longer than it. *)
Lemma chain_length ls (h : heap_t) : sseg (nview h) ls -> NoDup ls -> (length ls <= size h)%nat.
Proof.
  intros Hs Hnd. rewrite <- (size_list_to_set (C := gset loc)) by done. rewrite <- size_dom. apply subseteq_size.
  intros l Hl%elem_of_list_to_set. apply elem_of_dom. clear Hnd. induction ls as [|x ls IH]; [by apply elem_of_nil in Hl|].
  cbn [sseg] in Hs. destruct Hs as [Hx Hs]. apply elem_of_cons in Hl as [->|Hl]; [|by apply IH].
  unfold nview in Hx. destruct (h !! x); [by eexists|done].
Qed.

(** Freeing the lists [fs k] of the classes from [k0] on. *)
Lemma free_classes_eq (fs : nat -> list loc) heads k0 h :
  (forall k hd, heads !! k = Some hd -> hd = head (fs (k0 + k)%nat)) ->
  (forall k, (k < length heads)%nat -> sseg (nview h) (fs (k0 + k)%nat)) -> (forall k, NoDup (fs k)) ->
  (forall j k l, l ∈ fs j -> l ∈ fs k -> j = k) ->
  exists h', ofoldl (fun hd h => free_chain (size h) hd h) heads h = Some h'
    ∧ (forall l k, (k < length heads)%nat -> l ∈ fs (k0 + k)%nat -> h' !! l = None)
    ∧ forall l, (forall k, (k < length heads)%nat -> (l ∉ fs (k0 + k)%nat)) -> h' !! l = h !! l.
Proof.
  revert k0 h. induction heads as [|hd heads IH]; intros k0 h Hh Hs Hnd Hdis.
  - exists h. split; [done|]. split; [|done]. intros l k Hk. simpl in Hk. lia.
  - cbn [ofoldl]. pose proof (Hh 0%nat hd eq_refl) as ->. rewrite Nat.add_0_r.
    assert (Hs0 : sseg (nview h) (fs k0)) by (rewrite <- (Nat.add_0_r k0); apply Hs; simpl; lia).
    rewrite (free_chain_eq (fs k0)) by (done || apply Hnd || apply chain_length; done || apply Hnd). cbn [mbind option_bind].
    destruct (IH (S k0) (foldr delete h (fs k0))) as (h' & -> & Hgone & Hkept); [| |done|done|].
    + intros k x Hk. rewrite (Hh (S k) x Hk). do 2 f_equal. lia.
    + intros k Hk. replace (S k0 + k)%nat with (k0 + S k)%nat by lia. eapply sseg_ext; [|apply Hs; simpl; lia].
      intros x Hx. unfold nview. rewrite delete_all_lookup, decide_False; [done|]. intros Hx'. specialize (Hdis _ _ _ Hx Hx'). lia.
    + exists h'. split; [done|]. split.
      * intros l [|k] Hk Hin; [|apply (Hgone l k); [simpl in Hk; lia|by replace (S k0 + k)%nat with (k0 + S k)%nat by lia]].
        rewrite Nat.add_0_r in Hin. rewrite Hkept; [by rewrite delete_all_lookup, decide_True|].
        intros k' _ Hin'. specialize (Hdis _ _ _ Hin Hin'). lia.
      * intros l Hno. rewrite Hkept, delete_all_lookup, decide_False; [done| |].
        -- rewrite <- (Nat.add_0_r k0). apply Hno. simpl. lia.
        -- intros k Hk. replace (S k0 + k)%nat with (k0 + S k)%nat by lia. apply Hno. simpl. lia.
Qed.

(** * The pool *)

Lemma deinit_zero `{SC : Securec} obj t : Inv t -> shm_swap_buffer_deinit obj t = Some (ENPU_SUCCESS, None, tlsf_zero).
Proof.
  intros [ph HS]. destruct (shape_rep _ _ HS) as [P (us & fs & L)]. unfold shm_swap_buffer_deinit. rewrite (shape_init _ _ HS). cbn [negb].
  rewrite (links_uhead _ _ _ _ _ L). rewrite (free_chain_eq us) by (apply (links_used _ _ _ _ _ L) || apply (links_und _ _ _ _ _ L) ||
    (apply chain_length; [apply (links_used _ _ _ _ _ L)|apply (links_und _ _ _ _ _ L)])). cbn [mbind option_bind].
  assert (Hflag : forall l o s u o' s' u', (l, (o, s, u)) ∈ ph -> (l, (o', s', u')) ∈ ph -> s = s' ∧ u = u')
    by (intros l o s u o' s' u' H1 H2; pose proof (phys_key _ _ _ _ _ P H1 H2); naive_solver).
  destruct (free_classes_eq fs (free_list t) 0 (foldr delete (heap t) us)) as (h2 & -> & Hgone & Hkept).
  - intros k hd Hk. assert (Hlt : (k < 480)%nat) by (rewrite <- (links_len _ _ _ _ _ L); by eapply lookup_lt_Some).
    rewrite (links_heads _ _ _ _ _ L k Hlt) in Hk. by injection Hk as <-.
  - intros k Hk. eapply sseg_ext; [|eapply dseg_sseg, (links_free _ _ _ _ _ L)]. intros l (o & s & Hin & _)%(links_fmem _ _ _ _ _ L).
    unfold nview. rewrite delete_all_lookup, decide_False; [done|]. intros (o' & s' & Hin' & _)%(links_umem _ _ _ _ _ L).
    by destruct (Hflag _ _ _ _ _ _ _ Hin Hin').
  - apply (links_fnd _ _ _ _ _ L).
  - intros j k l (o & s & Hin & _ & <-)%(links_fmem _ _ _ _ _ L) (o' & s' & Hin' & _ & <-)%(links_fmem _ _ _ _ _ L).
    by destruct (Hflag _ _ _ _ _ _ _ Hin Hin') as [-> _].
  - cbn [mbind option_bind]. rewrite snprintf_s_fits by (simpl; lia). change (_ <? 0) with false. cbn iota. unfold tlsf_zero. do 3 f_equal.
    apply map_empty. intros l. destruct (heap t !! l) as [b|] eqn:Hb.
    + assert (Hl : l ∈ ph.*1) by (apply (phys_dom _ _ P); by eexists). apply list_elem_of_fmap in Hl as ([? [[o s] u]] & -> & Hin). cbn [fst] in *.
      destruct u.
      * rewrite Hkept; [rewrite delete_all_lookup, decide_True; [done|]; apply (links_umem _ _ _ _ _ L); exists o, s; split; [done|apply not_elem_of_nil]|].
        intros k _ (o' & s' & Hin' & _)%(links_fmem _ _ _ _ _ L). by destruct (Hflag _ _ _ _ _ _ _ Hin Hin').
      * apply (Hgone _ (class_of s)); [rewrite (links_len _ _ _ _ _ L); apply class_of_lt|]. apply (links_fmem _ _ _ _ _ L).
        exists o, s. split; [done|]. split; [apply not_elem_of_nil|done].
    + rewrite Hkept; [rewrite delete_all_lookup; by destruct (decide _)|]. intros k _ (o & s & Hin & _)%(links_fmem _ _ _ _ _ L).
      destruct (phys_seg _ _ P _ _ Hin) as (b & Hb' & _). congruence.
Qed.

(** C32. The swap buffer can be set up and given back.  On a fresh pool, with a
    size between 2 and 2^64 - 64 and a shared object that is new or has that
    size, the initialisation maps it and leaves a pool that satisfies the
    invariant, when the calls to the system succeed.  From any pool that
    satisfies the invariant, in particular after any allocations and releases,
    giving it back terminates: it frees every header exactly once, reads none
    after it is freed, leaves none behind, removes the shared object and resets
    the pool to its fresh state. *)
Theorem swap_pool_lifecycle `{SC : Securec} o size obj base :
  po_calloc_ok o = true -> po_mutex_ok o = true -> po_open_ok o = true -> po_fstat_ok o = true -> po_truncate_ok o = true ->
  po_mmap o = Some base -> lock_rc (po_libc o) = 0 -> is_Some (malloc_ret (po_libc o)) ->
  2 <= size <= U64_MOD - 64 -> (default 0 obj = 0 \/ default 0 obj = size) ->
  (exists t, shm_swap_buffer_init o size obj tlsf_zero = Some (Some (mk_swap_buffer_manager size base), Some size, t) ∧ Reach t)
  ∧ forall t obj', Inv t -> shm_swap_buffer_deinit obj' t = Some (ENPU_SUCCESS, None, tlsf_zero).
Proof.
  intros H1 H2 H3 H4 H5 Hm Hl [[l junk] Ha] Hsz Hobj. split; [|intros t obj'; apply deinit_zero].
  destruct (init_shape (po_libc o) base size tlsf_zero l junk) as (t & Ht & _); [done..|].
  exists t. split; [|by eapply (reach_init (po_libc o) base size tlsf_zero)]. unfold shm_swap_buffer_init. rewrite (proj2 (Z.eqb_neq size 0)) by lia. rewrite H1, H2, H3, H4, H5.
  rewrite snprintf_s_fits by (simpl; lia). cbn [fst negb]. rewrite (proj2 (Z.ltb_ge (Z.of_nat _) 0)) by lia. rewrite andb_false_r.
  assert (Hcase : negb (default 0 obj =? 0) && negb (default 0 obj =? size) = false).
  { destruct Hobj as [-> | ->]; [done|]. by rewrite Z.eqb_refl, andb_false_r. }
  rewrite Hcase, Hm, Ht. done.
Qed.

Definition pool_os_fine : pool_os := mk_pool_os true true true true true (Some 0) libc1.

Lemma swap_pool_lifecycle_witness :
  exists t, shm_swap_buffer_init (SC := securec_ref) pool_os_fine 4096 None tlsf_zero = Some (Some (mk_swap_buffer_manager 4096 0), Some 4096, t)
    ∧ shm_swap_buffer_deinit (SC := securec_ref) (Some 4096) t = Some (ENPU_SUCCESS, None, tlsf_zero).
Proof.
  destruct (swap_pool_lifecycle (SC := securec_ref) pool_os_fine 4096 None 0) as [(t & E & HR) Hd]; try reflexivity.
  - by eexists.
  - mlia.
  - by left.
  - exists t. split; [exact E|]. apply Hd, reach_inv, HR.
Defined.
