(* ===== verification/AllocInit.v ===== *)
(** Creating and initialising the allocator (npu_allocator.c, lines 143-368):
    the devices are read from the driver, the registry from its storage, and
    the allocations of the checkpoint are recovered.  First the stub of the
    device driver (enpu-manager/core/src/dcmi_stub_adapter.c): an adapter that
    answers for a configured number of identical devices.

    The storage adapter of the checkpoint file is the argument [ie_storage]. *)

From Stdlib Require Import Ascii.
From stdpp Require Import pretty.
From S2P Require Import Prelude CLib NpuTree.

(** [struct dcmi_stub_config]; the fields are [int]. *)
Record dcmi_stub_config := mk_stub_config { device_count : Z; total_memory_mb : Z; stub_total_aicore : Z }.

(** [uint32_t] *)
Definition u32 (x : Z) : Z := x mod 4294967296.

(** * The conversions of [printf] that the stub uses *)

Fixpoint zeros (n : nat) : string := match n with O => EmptyString | S k => String "0" (zeros k) end.
Definition zero_pad (n : nat) (s : string) : string := zeros (n - String.length s) +:+ s.

Definition hex_digit (d : Z) : ascii :=
  match String.get (Z.to_nat d) "0123456789abcdef" with Some c => c | None => "0"%char end.
Fixpoint hex_fuel (fuel : nat) (x : Z) (acc : string) : string :=
  match fuel with
  | O => acc
  | S k => let acc1 := String (hex_digit (x mod 16)) acc in if x / 16 =? 0 then acc1 else hex_fuel k (x / 16) acc1
  end.
(** A 32-bit number has at most eight digits. *)
Definition hex (x : Z) : string := hex_fuel 8 (u32 x) EmptyString.

Section stub.
  Context `{SC : Securec}.

Definition stub_get_device_count (config : dcmi_stub_config) : Z * Z := (ENPU_SUCCESS, device_count config).

Definition stub_get_device_list (config : dcmi_stub_config) (max_count : Z) : Z * list Z :=
  (ENPU_SUCCESS, seqZ 0 (if max_count <? device_count config then max_count else device_count config)).

Definition stub_in_range (config : dcmi_stub_config) (logic_id : Z) : bool := (0 <=? logic_id) && (logic_id <? device_count config).

Definition device_info0 : dcmi_device_info := mk_device_info 0 0 0 EmptyString 0 0.
Definition stub_get_device_info (config : dcmi_stub_config) (logic_id : Z) : Z * dcmi_device_info :=
  if negb (stub_in_range config logic_id) then (ENPU_INVALID_PARAM, device_info0)
  else
    let '(ret, uuid) := snprintf_s (Z.to_nat MAX_UUID_LEN) (Z.to_nat (MAX_UUID_LEN - 1))
                          ("stub-npu-" +:+ pretty logic_id +:+ "-" +:+ zero_pad 4 (hex logic_id)) in
    let info := mk_device_info (logic_id / 4) (logic_id mod 4) logic_id uuid (u64 (total_memory_mb config)) (u32 (stub_total_aicore config)) in
    if ret <? 0 then (ENPU_FAIL, info) else (ENPU_SUCCESS, info).

Definition die_info0 : dcmi_die_info := mk_die_info 0 0 0 EmptyString EmptyString.
Definition stub_get_die_info (config : dcmi_stub_config) (logic_id : Z) : Z * dcmi_die_info :=
  if negb (stub_in_range config logic_id) then (ENPU_INVALID_PARAM, die_info0)
  else
    let '(ret, die_id) := snprintf_s (Z.to_nat DIE_ID_LEN) (Z.to_nat (DIE_ID_LEN - 1))
                            ("14422CC3-2040D918-27A73226-80B40A0A-BB1000" +:+ zero_pad 2 (pretty logic_id)) in
    if ret <? 0 then (ENPU_FAIL, mk_die_info logic_id (logic_id / 4) (logic_id mod 4) die_id EmptyString)
    else
      let '(ret, shm_id) := snprintf_s (Z.to_nat DIE_ID_LEN) (Z.to_nat (DIE_ID_LEN - 1)) die_id in
      (if ret <? 0 then ENPU_FAIL else ENPU_SUCCESS, mk_die_info logic_id (logic_id / 4) (logic_id mod 4) die_id shm_id).

(** (total, used, free), in bytes. *)
Definition stub_get_memory_info (config : dcmi_stub_config) (logic_id : Z) : Z * option (Z * Z * Z) :=
  if negb (stub_in_range config logic_id) then (ENPU_INVALID_PARAM, None)
  else
    let total_bytes := u64 (u64 (u64 (total_memory_mb config) * 1024) * 1024) in
    let used_bytes := 1024 * 1024 in
    (ENPU_SUCCESS, Some (total_bytes, used_bytes, u64 (total_bytes - used_bytes))).

(** (number of cores, size of the memory) *)
Definition stub_get_chip_info (config : dcmi_stub_config) (logic_id : Z) : Z * option (Z * Z) :=
  if negb (stub_in_range config logic_id) then (ENPU_INVALID_PARAM, None)
  else (ENPU_SUCCESS, Some (u32 (stub_total_aicore config), u32 (total_memory_mb config))).

(** The functions that the tree calls. *)
Definition dcmi_adapter_create_stub (malloc_ok : bool) (config : dcmi_stub_config) : option dcmi_adapter :=
  if negb malloc_ok then None
  else Some (mk_adapter (stub_get_device_count config) (stub_get_device_list config) (stub_get_device_info config) (stub_get_die_info config)).

End stub.

(** * The allocator *)

From S2P Require Import SwapTlsf Evaluator Registry ConfigManager ShmManager RollbackLog Allocator.
(** [struct allocator_config] *)
Record allocator_config := mk_allocator_config {
  ac_config_base_path : string;
  ac_checkpoint_path : string;
  ac_evaluator_name : string;
  ac_share_strategy : string;
  ac_use_dcmi_stub : bool;
  ac_dcmi_stub : dcmi_stub_config;
}.

(** The allocator between [create] and [init]: no manager, no storage. *)
Record created := mk_created {
  cr_tree : npu_tree;
  cr_entries : list allocation;
  cr_checkpoint_path : string;
  cr_config_base_path : string;
  cr_share_strategy : string;
  cr_evaluator_name : string;
  cr_use_dcmi_stub : bool;
  cr_dcmi_stub : dcmi_stub_config;
}.

(** What the environment answers to [init].  [ie_wrapper] is the code of
    [dcmi_wrapper_init] and the driver behind it. *)
Record init_env (S : Type) := mk_init_env {
  ie_eval_ok : bool;
  ie_stub_ok : bool;
  ie_wrapper : Z * dcmi_adapter;
  ie_ids_ok : bool;
  ie_calloc_ok : Z -> bool;
  ie_root_ok : bool;
  ie_os : os;
  ie_shm_ok : bool;
  ie_storage : option S;
  ie_registry_ok : bool;
  ie_malloc_ok : bool;
  ie_recover : allocation -> alloc_env;
}.
Arguments ie_eval_ok {S}. Arguments ie_stub_ok {S}. Arguments ie_wrapper {S}. Arguments ie_ids_ok {S}. Arguments ie_calloc_ok {S}.
Arguments ie_root_ok {S}. Arguments ie_os {S}. Arguments ie_shm_ok {S}. Arguments ie_storage {S}. Arguments ie_registry_ok {S}.
Arguments ie_malloc_ok {S}. Arguments ie_recover {S}.

(** The parts of the process that outlive an allocator: the files, the shared
    objects of the system and the pool of swap buffers. *)
Record host := mk_host { h_files : files; h_names : gset string; h_tlsf : TLSFManager }.

Section init.
  Context `{SC : Securec} {S : Type} `{!Storage S}.

(** [ok]: whether the tree, the allocator, its mutex, the evaluators, the
    registry and the log can be created. *)
Definition npu_allocator_create (ok : bool) (config : allocator_config) : option created :=
  if negb ok then None
  else Some (mk_created npu_tree_create []
               (alloc_copy MAX_PATH_LEN (ac_checkpoint_path config)) (alloc_copy MAX_PATH_LEN (ac_config_base_path config))
               (alloc_copy MAX_NAME_LEN (ac_share_strategy config)) (alloc_copy MAX_NAME_LEN (ac_evaluator_name config))
               (ac_use_dcmi_stub config) (ac_dcmi_stub config)).

(** The devices, from the stub or from the driver. *)
Definition init_tree (env : init_env S) (c : created) : option (Z * npu_tree) :=
  if tree_initialized (cr_tree c) then Some (ENPU_SUCCESS, cr_tree c)
  else if cr_use_dcmi_stub c then
    match dcmi_adapter_create_stub (ie_stub_ok env) (cr_dcmi_stub c) with
    | None => Some (ENPU_FAIL, cr_tree c)
    | Some ad => npu_tree_init_with_adapter (ie_ids_ok env) (ie_calloc_ok env) (ie_root_ok env) ad (cr_tree c)
    end
  else npu_tree_init (ie_wrapper env).1 (ie_ids_ok env) (ie_calloc_ok env) (ie_root_ok env) (ie_wrapper env).2 (cr_tree c).

(** Old checkpoints hold another [shm_id]: the configuration and the registry
    are rewritten with the die. *)
Definition migrate_one (o : os) (a : npu_allocator S) (al : allocation) : npu_allocator S :=
  if str_empty (al_die_id al) then a
  else if strncmp_eq (Z.to_nat DIE_ID_LEN) (al_shm_id al) (al_die_id al) then a
  else
    let '(rc, fs) := config_manager_write_config o (a_config_base a) (a_files a) (al_pod_uid al) (al_container_name al) (config_of al (al_die_id al)) in
    let a1 := set_a_files fs a in
    if negb (rc =? ENPU_SUCCESS) then a1
    else set_a_registry (allocation_registry_update_shm_id (a_registry a1) (al_pod_uid al) (al_container_name al) (al_die_id al)).2 a1.

Definition npu_allocator_init (env : init_env S) (h : host) (c : created) : option (Z * option (npu_allocator S)) :=
  if negb (ie_eval_ok env) then Some (ENPU_FAIL, None)
  else
    '(ret, tree) ← init_tree env c;
    if negb (ret =? ENPU_SUCCESS) then Some (ret, None)
    else
      let '(strategy, (_, evals)) := evaluator_share_init_with_strategy [] (share_strategy_from_str (cr_share_strategy c)) in
      let evaluators := match evaluator_registry_get evals "share" with Some _ => ["share"] | None => [] end in
      match config_manager_create (ie_os env) (Some (cr_config_base_path c)) with
      | None => Some (ENPU_FAIL, None)
      | Some base =>
          if negb (ie_shm_ok env) then Some (ENPU_FAIL, None)
          else
            match ie_storage env with
            | None => Some (ENPU_FAIL, None)
            | Some storage =>
                if negb (ie_registry_ok env) then Some (ENPU_FAIL, None)
                else
                  let r0 := foldl (fun r al => (allocation_registry_register (ie_malloc_ok env) r al).2)
                              (allocation_registry_create_with_adapter (Some storage)) (cr_entries c) in
                  let r1 := (allocation_registry_recover (ie_malloc_ok env) r0).2 in
                  let a := mk_allocator tree base (h_files h) shm_manager_create (h_names h) (h_tlsf h) r1 []
                             evaluators (cr_evaluator_name c) strategy (replicate 16 d_zero) in
                  let a1 := foldl (migrate_one (ie_os env)) a (allocation_registry_list r1).2 in
                  '(_, _, a2) ← npu_allocator_recover (ie_recover env) a1;
                  Some (ENPU_SUCCESS, Some a2)
            end
      end.

End init.
