(* ===== verification/AllocInitThms.v ===== *)
(** Initialisation: a restarted allocator has the allocations, the shared
    memory and the free resources that the one before had. *)

From stdpp Require Import pretty.
From S2P Require Import Prelude CLib SwapTlsf SwapTlsfProofs SwapTlsfThms NpuTree NpuTreeFacts NpuTreeThms Evaluator EvaluatorThms Registry RegistryThms ConfigManager ShmManager ShmFacts RollbackLog Allocator AllocInv AllocShm AllocThms AllocRecover AllocInit.

(** * The devices *)

(** The devices [ds] of a driver fit the arrays and counters of the manager. *)
Record devices_fit (ad : dcmi_adapter) (ds : list Z) : Prop := {
  df_nodup : NoDup ds;
  df_range : Forall (fun id => 0 <= id < 16) ds;
  df_die id : id ∈ ds -> dd_die_id (get_die_info ad id).2 <> EmptyString;
  df_aicore id : id ∈ ds -> 0 <= i32 (di_total_aicore (get_device_info ad id).2);
  df_memory id : id ∈ ds -> di_total_memory (get_device_info ad id).2 < - INT64_MIN;
  df_threshold id : id ∈ ds -> is_Some (die_threshold d_zero (u64 (u64 (di_total_memory (get_device_info ad id).2 * 1024) * 1024) / (1024 * 1024)));
}.

Lemma prefix_nonempty n s : s <> EmptyString -> prefix_of_len (Datatypes.S n) s <> EmptyString.
Proof. destruct s; [done|]. unfold prefix_of_len. by destruct n. Qed.

(** What a die offers when nothing is allocated. *)
Definition driver_capacities (ad : dcmi_adapter) (ds : list Z) : capacities := tree_capacities (set_leaves (leaf_of ad <$> ds) npu_tree_create).

Lemma same_capacities t ad (ds : list Z) : leaves t = leaf_of ad <$> ds -> tree_capacities t = driver_capacities ad ds.
Proof. intros E. unfold driver_capacities, tree_capacities, quota_of. by rewrite E. Qed.

Lemma leaf_phys ad (ds : list Z) : phy_of <$> (leaf_of ad <$> ds) = ds.
Proof. rewrite <- list_fmap_compose. rewrite <- (list_fmap_id ds) at 2. by apply list_fmap_ext. Qed.

Lemma driver_fresh_tree ad (ds : list Z) t :
  devices_fit ad ds -> tree_wf t -> tree_initialized t = true -> leaves t = leaf_of ad <$> ds ->
  (forall i n v, leaves t !! i = Some n -> 0 <= v < 64 -> vnpu_free n v = true) -> fresh_tree (replicate 16 d_zero) t.
Proof.
  intros [D1 D2 D3 D4 D5 D6] Hwf Hinit Hls Hfree.
  assert (Hnd : NoDup (phy_of <$> leaves t)) by (by rewrite Hls, leaf_phys).
  constructor; [done..| |].
  - rewrite Forall_forall. intros n Hn. assert (Hn' := Hn). rewrite Hls in Hn. apply list_elem_of_fmap in Hn as (id & -> & Hid).
    rewrite Forall_forall in D2. specialize (D2 id Hid).
    constructor.
    + exact D2.
    + by apply prefix_nonempty, D3.
    + cbn [cap_aicore tree_capacities]. rewrite quota_of_leaf by done. pose proof (i32_range (di_total_aicore (get_device_info ad id).2)) as [_ ?]. cbn. done.
    + cbn [cap_hbm tree_capacities]. rewrite quota_of_leaf by done. by apply D5.
    + intros r Hr. apply lookup_replicate in Hr as [-> _]. by apply D6.
    + done.
  - rewrite Forall_forall. intros n Hn. assert (Hn' := Hn). rewrite Hls in Hn. apply list_elem_of_fmap in Hn as (id & -> & Hid).
    split; [done|]. split; [by apply D4|]. apply list_elem_of_lookup in Hn' as (i & Hi). intros v Hv. by eapply Hfree.
Qed.

(** * The restart *)

Section restart.
  Context `{SC : Securec} {S : Type} `{!Storage S}.

(** The driver that [init] reads. *)
Definition driver_of (env : init_env S) (c : created) : option dcmi_adapter :=
  if cr_use_dcmi_stub c then dcmi_adapter_create_stub (ie_stub_ok env) (cr_dcmi_stub c)
  else if (ie_wrapper env).1 =? ENPU_SUCCESS then Some (ie_wrapper env).2 else None.

(** The calls of [init] to the system succeed. *)
Record env_serves (env : init_env S) (storage : S) : Prop := {
  es_eval : ie_eval_ok env = true;
  es_ids : ie_ids_ok env = true;
  es_calloc id : ie_calloc_ok env id = true;
  es_shm : ie_shm_ok env = true;
  es_registry : ie_registry_ok env = true;
  es_malloc : ie_malloc_ok env = true;
  es_storage : ie_storage env = Some storage;
  es_recover al : recover_env_ok (ie_recover env al);
}.

(** The driver answers, and [ds] are the devices that it answers for. *)
Record driver_serves (ad : dcmi_adapter) (ds : list Z) : Prop := {
  ds_ok : driver_ok ad;
  ds_list : exists cnt, get_device_count ad = (ENPU_SUCCESS, cnt) ∧ 0 < cnt ∧ (get_device_list ad (Z.min cnt 16)).1 = ENPU_SUCCESS
              ∧ ds = filter (answers ad) (get_device_list ad (Z.min cnt 16)).2;
  ds_die : Forall (fun id => (get_die_info ad id).1 = ENPU_SUCCESS) ds;
  ds_fit : devices_fit ad ds;
}.

(** The checkpoint names the shared memory by the die, as the code does now. *)
Definition current_format (al : allocation) : Prop := strncmp_eq (Z.to_nat DIE_ID_LEN) (al_shm_id al) (al_die_id al) = true.

Lemma init_tree_spec env s c ad ds :
  env_serves env s -> cr_tree c = npu_tree_create -> driver_of env c = Some ad -> driver_serves ad ds ->
  exists t, init_tree env c = Some (ENPU_SUCCESS, t) ∧ leaves t = leaf_of ad <$> ds ∧ fresh_tree (replicate 16 d_zero) t.
Proof.
  intros [] Hc Hd [Hok (cnt & Hcnt & Hpos & Hlist & ->) Hdie Hfit].
  destruct (init_loop_total (ie_calloc_ok env) (ie_root_ok env) ad cnt Hok Hcnt Hpos Hlist) as (t & E & Hls & Hinit & Hwf & Hfree).
  { apply (Forall_impl _ _ _ Hdie). by split. }
  exists t. split; [|split; [done|by eapply driver_fresh_tree]].
  unfold init_tree, driver_of in *. rewrite Hc. cbn [tree_initialized npu_tree_create]. rewrite es_ids0. destruct (cr_use_dcmi_stub c); [by rewrite Hd|].
  unfold npu_tree_init. cbn [tree_initialized npu_tree_create]. destruct ((ie_wrapper env).1 =? ENPU_SUCCESS); [|done]. cbn [negb]. by injection Hd as ->.
Qed.

Lemma migrate_none o (a : npu_allocator S) als : Forall current_format als -> foldl (migrate_one o) a als = a.
Proof.
  induction 1 as [|al als Hal _ IH]; [done|]. cbn [foldl]. unfold migrate_one at 2. rewrite Hal. by destruct (str_empty (al_die_id al)).
Qed.

(** The registry as it is loaded. *)
Lemma recover_loaded (storage : S) l :
  storage_load storage = (ENPU_SUCCESS, l) ->
  exists cap, (allocation_registry_recover true (allocation_registry_create_with_adapter (Some storage))).2 = mk_registry l cap (Some storage)
    ∧ Z.of_nat (length l) <= cap ∧ 1 <= cap ∧ (Z.of_nat (length l) <= MAX_ALLOC_COUNT -> cap <= MAX_ALLOC_COUNT).
Proof.
  intros E. unfold allocation_registry_recover. cbn [adapter allocation_registry_create_with_adapter]. rewrite E.
  change (negb (ENPU_SUCCESS =? ENPU_SUCCESS)) with false. cbn iota. rewrite andb_false_r. cbn [snd].
  eexists. split; [reflexivity|]. cbn [capacity allocation_registry_create_with_adapter]. unfold ALLOC_REGISTRY_INIT_CAPACITY, MAX_ALLOC_COUNT.
  destruct (Z.ltb_spec 64 (Z.of_nat (length l))); lia.
Qed.

(** The allocator that recovery starts from. *)
Definition loaded (env : init_env S) (h : host) (c : created) (t : npu_tree) (base : string) (r : allocation_registry S) : npu_allocator S :=
  mk_allocator t base (h_files h) shm_manager_create (h_names h) (h_tlsf h) r [] ["share"] (cr_evaluator_name c)
    (evaluator_share_set_strategy (share_strategy_from_str (cr_share_strategy c))) (replicate 16 d_zero).

Lemma init_eq env s h c t base l :
  env_serves env s -> cr_entries c = [] -> init_tree env c = Some (ENPU_SUCCESS, t) ->
  config_manager_create (ie_os env) (Some (cr_config_base_path c)) = Some base ->
  storage_load s = (ENPU_SUCCESS, l) -> Forall current_format l ->
  exists cap, Z.of_nat (length l) <= cap ∧ 1 <= cap ∧ (Z.of_nat (length l) <= MAX_ALLOC_COUNT -> cap <= MAX_ALLOC_COUNT)
    ∧ npu_allocator_init env h c =
      ('(_, _, a2) ← npu_allocator_recover (ie_recover env) (loaded env h c t base (mk_registry l cap (Some s))); Some (ENPU_SUCCESS, Some a2)).
Proof.
  intros [] Hce Ht Hb Hl Hf. destruct (recover_loaded s l Hl) as (cap & E & Hcap). exists cap.
  destruct Hcap as (H1 & H2 & H3). split; [done|]. split; [done|]. split; [done|].
  unfold npu_allocator_init. rewrite es_eval0, Ht. cbn [negb mbind option_bind]. change (negb (ENPU_SUCCESS =? ENPU_SUCCESS)) with false. cbn iota.
  rewrite Hb, es_shm0, es_storage0, es_registry0, es_malloc0, Hce. cbn [negb foldl]. rewrite E. cbn [allocation_registry_list snd entries].
  unfold evaluator_share_init_with_strategy.
  change (evaluator_registry_register [] "share") with (ENPU_SUCCESS, ["share"]). cbn iota beta.
  change (evaluator_registry_get ["share"] "share") with (Some 0%nat). cbn iota.
  rewrite migrate_none by done. done.
Qed.

End restart.


Definition restart_config : allocator_config := mk_allocator_config "/e/" "/c" "share" "compact" false (mk_stub_config 0 0 0).
Definition restart_storage : memory_adapter := mk_memory (entries (a_registry demo_one)) 256 true.
Definition restart_env : init_env memory_adapter :=
  mk_init_env _ true true (ENPU_SUCCESS, demo_driver true) true (fun _ => true) true os_fine true (Some restart_storage) true true (fun _ => demo_env).

Lemma demo_driver_serves : driver_serves (demo_driver true) [0; 1].
Proof.
  constructor; [apply demo_driver_ok|exists 2; split; [reflexivity|]; split; [lia|]; split; reflexivity|repeat constructor|].
  constructor.
  - repeat constructor; set_solver.
  - repeat constructor; lia.
  - done.
  - intros id _. vm_compute. discriminate.
  - intros id _. vm_compute. reflexivity.
  - intros id _. vm_compute. by eexists.
Qed.


(** * The stub driver *)

Lemma filter_all {A} (P : A -> Prop) `{!forall x, Decision (P x)} l : Forall P l -> filter P l = l.
Proof. induction 1 as [|x l Hx _ IH]; [done|]. by rewrite filter_cons_True, IH. Qed.

Section stub_facts.
  Context `{SC : Securec}.

Definition stub_uuid (id : Z) : string := "stub-npu-" +:+ pretty id +:+ "-" +:+ zero_pad 4 (hex id).
Definition stub_die (id : Z) : string := "14422CC3-2040D918-27A73226-80B40A0A-BB1000" +:+ zero_pad 2 (pretty id).

Lemma stub_names id : 0 <= id < 16 -> (String.length (stub_uuid id) <= 63)%nat ∧ (String.length (stub_die id) <= 63)%nat ∧ stub_die id <> EmptyString.
Proof.
  intros Hid. assert (H : forallb (fun id => bool_decide (String.length (stub_uuid id) <= 63)%nat && bool_decide (String.length (stub_die id) <= 63)%nat
    && negb (str_empty (stub_die id))) (seqZ 0 16) = true) by (vm_compute; reflexivity).
  rewrite forallb_forall in H. specialize (H id). rewrite !andb_true_iff, !bool_decide_eq_true in H.
  destruct H as [[H1 H2] H3]; [apply list_elem_of_In, elem_of_seqZ; lia|]. split; [done|]. split; [done|]. by destruct (stub_die id).
Qed.

Lemma stub_dies_distinct id id' : 0 <= id < 16 -> 0 <= id' < 16 -> stub_die id = stub_die id' -> id = id'.
Proof.
  intros H H' E. assert (Hnd : NoDup (stub_die <$> seqZ 0 16)) by (apply (bool_decide_unpack _); vm_compute; done).
  assert (Hl : forall x, 0 <= x < 16 -> (stub_die <$> seqZ 0 16) !! Z.to_nat x = Some (stub_die x)).
  { intros x Hx. rewrite list_lookup_fmap, lookup_seqZ_lt by lia. simpl. do 2 f_equal. lia. }
  pose proof (NoDup_lookup _ _ _ _ Hnd (Hl id H) (eq_trans (Hl id' H') (f_equal Some (eq_sym E)))). lia.
Qed.

Lemma stub_device_eq config id :
  0 <= id < 16 -> id < device_count config ->
  stub_get_device_info config id = (ENPU_SUCCESS, mk_device_info (id / 4) (id mod 4) id (stub_uuid id) (u64 (total_memory_mb config)) (u32 (stub_total_aicore config)))
  ∧ stub_get_die_info config id = (ENPU_SUCCESS, mk_die_info id (id / 4) (id mod 4) (stub_die id) (stub_die id)).
Proof.
  intros Hid Hlt. destruct (stub_names id Hid) as (H1 & H2 & _). unfold stub_get_device_info, stub_get_die_info, stub_in_range.
  rewrite (proj2 (Z.leb_le 0 id)), (proj2 (Z.ltb_lt id _)) by lia. cbn [andb negb].
  fold (stub_uuid id) (stub_die id).
  rewrite !snprintf_s_fits by (done || (vm_compute; lia)). rewrite !(proj2 (Z.ltb_ge (Z.of_nat _) 0)) by lia. done.
Qed.

End stub_facts.

(** The stub is a driver as the manager expects one: with a configured number
    of devices between 1 and 16, sizes that are not negative and a memory size
    for which the threshold of the evaluator is defined, it lists exactly the
    devices 0, 1, ..., answers for each of them with the configured cores and
    memory, and gives them pairwise distinct die names. *)
Theorem stub_serves `{SC : Securec} config ad :
  dcmi_adapter_create_stub true config = Some ad -> 0 < device_count config <= 16 ->
  0 <= stub_total_aicore config < I32_HALF -> 0 <= total_memory_mb config < I32_HALF ->
  is_Some (die_threshold d_zero (total_memory_mb config)) ->
  driver_serves ad (seqZ 0 (device_count config))
  ∧ (forall id, 0 <= id < device_count config ->
       di_total_memory (get_device_info ad id).2 = total_memory_mb config ∧ di_total_aicore (get_device_info ad id).2 = stub_total_aicore config)
  ∧ forall id id', 0 <= id < device_count config -> 0 <= id' < device_count config ->
       dd_die_id (get_die_info ad id).2 = dd_die_id (get_die_info ad id').2 -> id = id'.
Proof.
  intros [= <-] Hcnt Hai Hmem Hth. set (n := device_count config) in *. cbn [get_device_info get_die_info].
  assert (Hdev : forall id, 0 <= id < n -> stub_get_device_info config id = (ENPU_SUCCESS, mk_device_info (id / 4) (id mod 4) id (stub_uuid id) (total_memory_mb config) (stub_total_aicore config))
    ∧ stub_get_die_info config id = (ENPU_SUCCESS, mk_die_info id (id / 4) (id mod 4) (stub_die id) (stub_die id))).
  { intros id Hid. destruct (stub_device_eq config id) as [-> ->]; [lia|unfold n in Hid; lia|].
    rewrite u64_small by mlia. unfold u32. rewrite (Z.mod_small (stub_total_aicore config)) by mlia. done. }
  assert (Hin : forall id, id ∈ seqZ 0 n -> 0 <= id < n) by (intros id Hid%elem_of_seqZ; lia).
  split; [|split].
  - constructor; cbn [get_device_info get_die_info get_device_count get_device_list].
    + constructor; cbn [get_device_info get_die_info get_device_count get_device_list].
      * intros k. cbn. rewrite length_seqZ. fold n. destruct (Z.ltb_spec k n); lia.
      * intros k. apply Forall_forall. intros id Hid%elem_of_seqZ. destruct (Z.ltb_spec k (device_count config)); unfold n in *; lia.
      * intros id. unfold stub_get_device_info. destruct (negb _); [cbn; mlia|]. destruct (snprintf_s _ _ _) as [ret ?]. destruct (ret <? 0); apply u64_range.
    + exists n. split; [done|]. split; [lia|]. split; [done|]. cbn. rewrite Z.min_l by lia. fold n.
      rewrite Z.ltb_irrefl. symmetry. apply filter_all, Forall_forall. intros id Hid%Hin. unfold answers. cbn. by rewrite (proj1 (Hdev id Hid)).
    + apply Forall_forall. intros id Hid%Hin. by rewrite (proj2 (Hdev id Hid)).
    + constructor; cbn [get_device_info get_die_info].
      * apply NoDup_seqZ.
      * apply Forall_forall. intros id Hid%Hin. lia.
      * intros id Hid%Hin. rewrite (proj2 (Hdev id Hid)). apply stub_names. lia.
      * intros id Hid%Hin. rewrite (proj1 (Hdev id Hid)). cbn. rewrite i32_small by mlia. lia.
      * intros id Hid%Hin. rewrite (proj1 (Hdev id Hid)). cbn. unfold INT64_MIN. mlia.
      * intros id Hid%Hin. rewrite (proj1 (Hdev id Hid)). cbn [snd di_total_memory]. rewrite (u64_small (total_memory_mb config * 1024)) by mlia. rewrite u64_small by mlia.
        replace (total_memory_mb config * 1024 * 1024 / (1024 * 1024)) with (total_memory_mb config); [done|].
        rewrite <- Z.mul_assoc, Z.div_mul by lia. done.
  - intros id Hid. by rewrite (proj1 (Hdev id Hid)).
  - intros id id' H H'. rewrite (proj2 (Hdev id H)), (proj2 (Hdev id' H')). cbn. apply stub_dies_distinct; lia.
Qed.

Lemma stub_serves_witness :
  exists ad, dcmi_adapter_create_stub (SC := securec_ref) true (mk_stub_config 2 65536 100) = Some ad ∧ driver_serves ad [0; 1].
Proof.
  eexists. split; [reflexivity|].
  destruct (stub_serves (SC := securec_ref) (mk_stub_config 2 65536 100) _ eq_refl) as [H _]; [cbn; lia|vm_compute; by split|vm_compute; by split|vm_compute; by eexists|].
  exact H.
Defined.
