(* ===== verification/SwapResolver.v ===== *)
(** The swap resolver (enpu-manager/core/src/swap_resolver.c and the loop of
    swap_resolver_thread.c): when the memory of a die runs high it picks an
    idle vNPU, reserves swap buffers for its processes and tells them to swap
    out.

    The states of the dies and the swap-buffer pool are those of the
    allocator.  The C library may answer a [malloc] depending on the slot and
    on what is allocated. *)

From S2P Require Import Prelude CLib SwapTlsf NpuTree Evaluator Registry ConfigManager ShmManager RollbackLog Allocator.

Definition SWAP_BUFFER_ALIGN_LOG2 : Z := 12.

Inductive watermark_level := WATERMARK_NORMAL | WATERMARK_PRE_SWAP.

(** [struct swap_candidate]; its [swap_enabled] is never written. *)
Record swap_candidate := mk_swap_candidate {
  cand_phy_id : Z;
  cand_shm_id : string;
  cand_vnpu_id : Z;
  cand_sched_policy : Z;
  cand_swap_priority : Z;
  cand_last_kernel_time_ns : Z;
  cand_hbm_used : Z;
  cand_swapped : bool;
  cand_swappable : bool;
}.

Record swap_resolver := mk_resolver {
  pre_swap_threshold : double;
  idle_threshold_ns : Z;
  last_usage_ratio : list double;
  is_usage_logged : list bool;
}.

Definition swap_resolver_create (allocator_ok buf_mgr_ok calloc_ok : bool) (threshold : double) (idle_ns : Z) : option swap_resolver :=
  if negb allocator_ok || negb buf_mgr_ok then None
  else if d_ltb threshold d_zero || d_ltb d_one threshold then None
  else if negb calloc_ok then None
  else Some (mk_resolver threshold idle_ns (replicate 16 d_zero) (replicate 16 false)).

(** The loops read both words of the bitmap first and pick one by [idx]. *)
Definition bitmap_has (b : bitmap) (v : Z) : bool :=
  negb (Z.land (Z.shiftr (if v / 64 =? 0 then b.1 else b.2) (v mod 64)) 1 =? 0).

Section resolver.
  Context `{SC : Securec} {S : Type} `{!Storage S}.

Abbreviation allocator := (npu_allocator S).

Definition hbm_used_sum (s : shm_state) : Z :=
  foldl (fun sum v => if bitmap_has (st_bitmap s) v
                      then match entry_at s v with Some e => u64 (sum + e_hbm_used e) | None => sum end else sum)
    0 (seqZ 0 MAX_VNPU_PER_DIE).

Definition swap_resolver_check_watermark (r : swap_resolver) (a : allocator) (phy_id : Z) : option (watermark_level * swap_resolver) :=
  if phy_id <? 0 then Some (WATERMARK_NORMAL, r)
  else
    match npu_allocator_get_shm_state a phy_id with
    | None => Some (WATERMARK_NORMAL, r)
    | Some s =>
        let total_used := hbm_used_sum s in
        if st_hbm_total s =? 0 then Some (WATERMARK_NORMAL, r)
        else
          let usage_ratio := d_div (d_of_Z total_used) (d_of_Z (st_hbm_total s)) in
          last ← last_usage_ratio r !! Z.to_nat phy_id;
          logged ← is_usage_logged r !! Z.to_nat phy_id;
          let r1 := if negb (d_eqb last usage_ratio) || negb logged
                    then mk_resolver (pre_swap_threshold r) (idle_threshold_ns r) (<[Z.to_nat phy_id := usage_ratio]> (last_usage_ratio r))
                           (<[Z.to_nat phy_id := true]> (is_usage_logged r))
                    else r in
          Some (if d_leb (pre_swap_threshold r) usage_ratio then WATERMARK_PRE_SWAP else WATERMARK_NORMAL, r1)
    end.

(** * Choosing a vNPU *)

(** One vNPU as a candidate; [Some None]: the copy of the name failed. *)
Definition candidate_at (a : allocator) (phy_id : Z) (s : shm_state) (to_swap_out v : Z) : option (option swap_candidate) :=
  e ← entry_at s v;
  let hbm_used := e_hbm_used e in
  let swappable :=
    if e_hbm_request e =? e_hbm_limit e then false
    else negb ((to_swap_out =? SWAP_OUT_FROM_BORROWED) && (hbm_used <=? u64 (u64 (e_hbm_request e * 1024) * 1024))) in
  let swapped := default true (shm_manager_get_vnpu_swapped (a_shm a) phy_id v).2 in
  '(_, last) ← npu_allocator_get_last_kernel_time_ns a phy_id v;
  let '(ret, shm_id) := snprintf_s (Z.to_nat DIE_ID_LEN) (Z.to_nat (DIE_ID_LEN - 1)) (st_shm_id s) in
  if ret <? 0 then Some None
  else Some (Some (mk_swap_candidate phy_id shm_id v (e_sched_policy e) (e_swap_priority e) (default 0 last) hbm_used swapped swappable)).

(** The first loop, for at most [room] candidates; [Some None]: ENPU_FAIL. *)
Fixpoint collect_models (a : allocator) (phy_id : Z) (s : shm_state) (to_swap_out : Z) (vs : list Z) (room : nat) :
    option (option (list swap_candidate)) :=
  match vs, room with
  | [], _ | _, O => Some (Some [])
  | v :: rest, Datatypes.S room' =>
      if negb (bitmap_has (st_bitmap s) v) then collect_models a phy_id s to_swap_out rest room
      else
        c ← candidate_at a phy_id s to_swap_out v;
        match c with
        | None => Some None
        | Some c => r ← collect_models a phy_id s to_swap_out rest room'; Some (match r with Some l => Some (c :: l) | None => None end)
        end
  end.

(** The index of the first candidate with the greatest kernel time. *)
Fixpoint newest_index (i : nat) (cs : list swap_candidate) (best : nat) (best_time : Z) : nat :=
  match cs with
  | [] => best
  | c :: rest =>
      if best_time <? cand_last_kernel_time_ns c then newest_index (Datatypes.S i) rest i (cand_last_kernel_time_ns c)
      else newest_index (Datatypes.S i) rest best best_time
  end.

(** The second step: the newest candidate is overwritten by the last one. *)
Definition drop_newest (cs : list swap_candidate) : list swap_candidate :=
  match cs with
  | [] => []
  | c :: rest =>
      let newest := newest_index 1 rest 0 (cand_last_kernel_time_ns c) in
      let cs1 := match last cs with Some l => <[newest := l]> cs | None => cs end in
      take (length cs - 1) cs1
  end.

Definition idle_candidate (c : swap_candidate) : bool :=
  negb (cand_hbm_used c =? 0) && negb (cand_swapped c) && cand_swappable c.

Definition swap_resolver_get_idle_models (a : allocator) (phy_id max_count to_swap_out : Z) : option (Z * list swap_candidate) :=
  if (phy_id <? 0) || (max_count <=? 0) then Some (ENPU_FAIL, [])
  else
    match npu_allocator_get_shm_state a phy_id with
    | None => Some (ENPU_NOT_FOUND, [])
    | Some s =>
        cs ← collect_models a phy_id s to_swap_out (seqZ 0 MAX_VNPU_PER_DIE) (Z.to_nat max_count);
        match cs with
        | None => Some (ENPU_FAIL, [])
        | Some cs => Some (ENPU_SUCCESS, filter (fun c => Is_true (idle_candidate c)) (drop_newest cs))
        end
    end.

(** The loop of the selection: the highest swap priority, then the oldest
    kernel. *)
Definition better (c best : swap_candidate) : bool :=
  (cand_swap_priority best <? cand_swap_priority c)
  || ((cand_swap_priority c =? cand_swap_priority best) && (cand_last_kernel_time_ns c <? cand_last_kernel_time_ns best)).
Definition swap_resolver_select_candidate_from_list (cs : list swap_candidate) : Z * option swap_candidate :=
  match cs with
  | [] => (ENPU_NOT_FOUND, None)
  | c :: rest => (ENPU_SUCCESS, Some (foldl (fun best c => if better c best then c else best) c rest))
  end.

(** * The swap-out command *)

(** The slots of [allocated_mask]. *)
Definition mask_slots (mask : Z) : list Z :=
  filter (fun j => Is_true (negb (Z.land (Z.shiftr mask j) 1 =? 0))) (seqZ 0 MAX_PROCESSES_PER_VNPU).

(** The loop that reserves the buffers.  [cf] answers the frees of the
    rollback. *)
Fixpoint reserve_slots (c : Z -> TLSFManager -> libc) (cf : Z -> libc) (s : shm_state) (t : TLSFManager) (v : Z) (slots : list Z) (mask : Z) :
    option (Z * shm_state * TLSFManager) :=
  match slots with
  | [] => Some (ENPU_SUCCESS, s, t)
  | i :: rest =>
      p ← process_at s v i;
      if negb (p_active p) then reserve_slots c cf s t v rest mask
      else if p_swapped p then reserve_slots c cf s t v rest mask
      else if p_hbm_used p =? 0 then reserve_slots c cf s t v rest mask
      else
        let aligned := align_up SWAP_BUFFER_ALIGN_LOG2 (p_hbm_used p) in
        '(ret, s1, t1) ← shm_alloc_per_process (c i t) s t v i aligned;
        if negb (ret =? ENPU_SUCCESS) then
          '(s2, t2) ← free_slots cf s1 t1 v (mask_slots mask);
          Some (ret, s2, t2)
        else reserve_slots c cf s1 t1 v rest (Z.lor mask (Z.shiftl 1 i))
  end.

(** [c] and [cf] as above, [now] is [time(NULL)]. *)
Definition swap_resolver_write_swap_command (c : Z -> TLSFManager -> libc) (cf : Z -> libc) (now : Z) (a : allocator) (phy_id : Z)
    (pod_uid : string) (vnpu_id action to_swap_out : Z) : option (Z * allocator) :=
  if (phy_id <? 0) || (vnpu_id <? 0) then Some (ENPU_FAIL, a)
  else if (action <? SWAP_ACTION_NONE) || (SWAP_ACTION_IN <? action) then Some (ENPU_FAIL, a)
  else if action =? SWAP_ACTION_OUT then
    match npu_allocator_get_shm_state a phy_id with
    | None => Some (ENPU_NOT_FOUND, a)
    | Some s =>
        if negb (cmd_completed (st_swap_cmd s)) then Some (ENPU_SUCCESS, a)
        else
          bit ← bitmap_bit (st_bitmap s) vnpu_id;
          if negb bit then Some (ENPU_NOT_FOUND, a)
          else
            e ← entry_at s vnpu_id;
            if bool_decide (active_count (e_processes e) = 0%nat) then Some (ENPU_SUCCESS, a)
            else
              '(ret, s1, t1) ← reserve_slots c cf s (a_tlsf a) vnpu_id (seqZ 0 MAX_PROCESSES_PER_VNPU) 0;
              let a1 := set_a_tlsf t1 (set_a_shm (set_state phy_id s1 (a_shm a)) a) in
              if negb (ret =? ENPU_SUCCESS) then Some (ret, a1)
              else npu_allocator_write_swap_cmd now a1 phy_id pod_uid vnpu_id action to_swap_out
    end
  else npu_allocator_write_swap_cmd now a phy_id pod_uid vnpu_id action to_swap_out.

(** * After the command *)

Fixpoint swap_in_slots (cf : Z -> libc) (s : shm_state) (t : TLSFManager) (v : Z) (slots : list Z) : option (shm_state * TLSFManager) :=
  match slots with
  | [] => Some (s, t)
  | i :: rest =>
      p ← process_at s v i;
      if p_active p && negb (p_swapped p) && negb (p_swap_size p =? 0) then
        '(_, s1, t1) ← shm_free_per_process (cf i) s t v i;
        swap_in_slots cf s1 t1 v rest
      else swap_in_slots cf s t v rest
  end.

Fixpoint swap_in_vnpus (cf : Z -> Z -> libc) (b : bitmap) (s : shm_state) (t : TLSFManager) (vs : list Z) : option (shm_state * TLSFManager) :=
  match vs with
  | [] => Some (s, t)
  | v :: rest =>
      if bitmap_has b v then '(s1, t1) ← swap_in_slots (cf v) s t v (seqZ 0 MAX_PROCESSES_PER_VNPU); swap_in_vnpus cf b s1 t1 rest
      else swap_in_vnpus cf b s t rest
  end.

Definition swap_resolver_check_and_swap_in (cf : Z -> Z -> libc) (a : allocator) (phy_id : Z) : option (Z * allocator) :=
  match npu_allocator_get_shm_state a phy_id with
  | None => Some (ENPU_SUCCESS, a)
  | Some s =>
      if negb (cmd_completed (st_swap_cmd s)) then Some (ENPU_SUCCESS, a)
      else
        '(s1, t1) ← swap_in_vnpus cf (st_bitmap s) s (a_tlsf a) (seqZ 0 MAX_VNPU_PER_DIE);
        Some (ENPU_SUCCESS, set_a_tlsf t1 (set_a_shm (set_state phy_id s1 (a_shm a)) a))
  end.

Definition set_out_action (x : Z) (c : swap_out_cmd) : swap_out_cmd := mk_swap_out_cmd (out_target_vnpu_id c) x (out_completed c).

(** [flag]: what the out parameter holds before the call. *)
Definition swap_resolver_check_enpu_swap_out (a : allocator) (phy_id flag : Z) : Z * Z * allocator :=
  match npu_allocator_get_shm_state a phy_id with
  | None => (ENPU_SUCCESS, flag, a)
  | Some s =>
      let x := out_action (st_swap_out_cmd s) in
      (ENPU_SUCCESS, x,
       if negb (x =? SWAP_OUT_NONE)
       then set_a_shm (set_state phy_id (set_st_cmds (st_swap_cmd s) (set_out_action SWAP_OUT_NONE (st_swap_out_cmd s)) s) (a_shm a)) a
       else a)
  end.

Definition swap_resolver_is_swap_pending (a : allocator) (phy_id : Z) : bool :=
  if phy_id <? 0 then false
  else match npu_allocator_get_shm_state a phy_id with None => false | Some s => negb (cmd_completed (st_swap_cmd s)) end.

(** * One iteration of the thread of a die *)

Record resolver_env := mk_resolver_env {
  re_alloc : Z -> TLSFManager -> libc;
  re_free : Z -> libc;
  re_swap_in : Z -> Z -> libc;
  re_time : Z;
}.

Definition swap_resolver_thread_step (env : resolver_env) (r : swap_resolver) (a : allocator) (phy_id : Z) : option (swap_resolver * allocator) :=
  if swap_resolver_is_swap_pending a phy_id then Some (r, a)
  else
    '(_, a1) ← swap_resolver_check_and_swap_in (re_swap_in env) a phy_id;
    '(level, r1) ← swap_resolver_check_watermark r a1 phy_id;
    let '(_, to_swap_out, a2) := swap_resolver_check_enpu_swap_out a1 phy_id SWAP_OUT_NONE in
    let pre_swap := match level with WATERMARK_PRE_SWAP => true | WATERMARK_NORMAL => false end in
    if pre_swap || negb (to_swap_out =? SWAP_OUT_NONE) then
      '(ret, candidates) ← swap_resolver_get_idle_models a2 phy_id MAX_VNPU_SCHED to_swap_out;
      if negb (ret =? ENPU_SUCCESS) || bool_decide (candidates = []) then Some (r1, a2)
      else
        match (swap_resolver_select_candidate_from_list candidates).2 with
        | None => Some (r1, a2)
        | Some selected =>
            '(_, a3) ← swap_resolver_write_swap_command (re_alloc env) (re_free env) (re_time env) a2 phy_id "pod-idle"
                         (cand_vnpu_id selected) SWAP_ACTION_OUT to_swap_out;
            Some (r1, a3)
        end
    else Some (r1, a2).

End resolver.
