(* ===== verification/SwapResolverFacts.v ===== *)
(** The choice of the vNPU that is swapped out: facts on the candidates of
    the resolver. *)

From S2P Require Import Prelude CLib SwapTlsf NpuTree Evaluator Registry ConfigManager ShmManager ShmFacts RollbackLog Allocator SwapResolver.

(** * The bitmap, as the loops of the resolver read it *)

Lemma bitmap_has_test b v : 0 <= v < 128 -> bitmap_has b v = vnpu_bitmap_test b v.
Proof.
  intros H. rewrite bitmap_test_eq, (proj2 (in_die_spec v) H). cbn [andb]. pose proof (bitmap_bit_eq b v H) as E.
  unfold bitmap_bit, bitmap_word in E. unfold bitmap_has. destruct (word_cases v H) as [(E1 & _)|(E1 & _)]; rewrite E1 in *; simpl in *; congruence.
Qed.

(** * Dropping the newest candidate *)

Lemma newest_index_spec pre c0 cs :
  (exists c, pre !! c0 = Some c ∧ forall c', c' ∈ pre -> cand_last_kernel_time_ns c' <= cand_last_kernel_time_ns c) ->
  exists c, (pre ++ cs) !! newest_index (length pre) cs c0 (from_option cand_last_kernel_time_ns 0 (pre !! c0)) = Some c
    ∧ forall c', c' ∈ pre ++ cs -> cand_last_kernel_time_ns c' <= cand_last_kernel_time_ns c.
Proof.
  revert pre c0. induction cs as [|x cs IH]; intros pre c0 (c & Hc & Hmax).
  - exists c. rewrite app_nil_r. rewrite Hc. done.
  - rewrite Hc. simpl. specialize (IH (pre ++ [x])). rewrite length_app in IH. simpl in IH. rewrite Nat.add_1_r, <- app_assoc in IH.
    destruct (Z.ltb_spec (cand_last_kernel_time_ns c) (cand_last_kernel_time_ns x)) as [Hlt|Hge].
    + assert (Hx : (pre ++ [x]) !! length pre = Some x) by (by rewrite lookup_app_r, Nat.sub_diag by lia).
      specialize (IH (length pre)). rewrite Hx in IH. apply IH. exists x. split; [done|].
      intros c' [Hin| ->%list_elem_of_singleton]%elem_of_app; [|lia]. specialize (Hmax c' Hin). lia.
    + assert (Hx : (pre ++ [x]) !! c0 = Some c) by (by apply lookup_app_l_Some).
      specialize (IH c0). rewrite Hx in IH. apply IH. exists c. split; [done|].
      intros c' [Hin| ->%list_elem_of_singleton]%elem_of_app; [by apply Hmax|lia].
Qed.

(** Overwriting an element by the last one and dropping the last one removes
    the element. *)
Lemma overwrite_last {A} (cs : list A) i c :
  cs !! i = Some c ->
  exists rest, cs ≡ₚ c :: rest ∧ take (length cs - 1) (match last cs with Some l => <[i := l]> cs | None => cs end) ≡ₚ rest.
Proof.
  intros Hi. destruct cs as [|y cs'] using rev_ind; [done|]. clear IHcs'. rewrite last_snoc, length_app. simpl.
  rewrite Nat.add_sub. destruct (decide (i = length cs')) as [->|Hne].
  - rewrite lookup_app_r, Nat.sub_diag in Hi by lia. simpl in Hi. injection Hi as ->. exists cs'.
    split; [by rewrite Permutation_app_comm|]. rewrite insert_app_r_alt, Nat.sub_diag by lia. by rewrite take_app_length.
  - assert (Hlt : (i < length cs')%nat) by (apply lookup_lt_Some in Hi; rewrite length_app in Hi; simpl in Hi; lia).
    rewrite lookup_app_l in Hi by done. rewrite insert_app_l by done.
    rewrite take_app_le by (rewrite length_insert; lia). rewrite take_ge by (rewrite length_insert; lia).
    pose proof (list_elem_of_split_length _ _ _ Hi) as (l1 & l2 & -> & ->). exists (l1 ++ y :: l2).
    split; [rewrite <- app_assoc; simpl; solve_Permutation|].
    rewrite insert_app_r_alt, Nat.sub_diag by lia. done.
Qed.

Lemma drop_newest_spec cs :
  cs <> [] -> exists c, (forall c', c' ∈ cs -> cand_last_kernel_time_ns c' <= cand_last_kernel_time_ns c)
    ∧ exists rest, cs ≡ₚ c :: rest ∧ drop_newest cs ≡ₚ rest.
Proof.
  destruct cs as [|c0 cs]; [done|]. intros _.
  destruct (newest_index_spec [c0] 0 cs) as (c & Hc & Hmax).
  { exists c0. split; [done|]. intros c' ->%list_elem_of_singleton. lia. }
  exists c. split; [done|]. simpl in Hc. destruct (overwrite_last (c0 :: cs) _ c Hc) as (rest & H1 & H2). exists rest. by split.
Qed.

(** * The candidates *)

Section candidates.
  Context `{SC : Securec} {S : Type} `{!Storage S}.

(** The time of the last kernel of a vNPU; 0 without a scheduling object. *)
Definition kernel_time (m : shm_manager) (phy v : Z) : Z :=
  match shm_manager_get_sched_struct m phy with
  | Some s => match sched_slots s !! Z.to_nat v with Some x => last_kernel_time_ns x | None => 0 end
  | None => 0
  end.

(** The vNPU may be swapped out at all. *)
Definition swappable (to_swap_out : Z) (e : vnpu_shm_entry) : bool :=
  negb (e_hbm_request e =? e_hbm_limit e)
  && negb ((to_swap_out =? SWAP_OUT_FROM_BORROWED) && (e_hbm_used e <=? u64 (u64 (e_hbm_request e * 1024) * 1024))).

(** The vNPU holds memory of the device that may be swapped out. *)
Definition idle (to_swap_out : Z) (e : vnpu_shm_entry) : bool :=
  negb (e_hbm_used e =? 0) && negb (all_swapped (e_processes e)) && swappable to_swap_out e.

(** The candidate that the first loop builds of a live vNPU. *)
Definition model_of (m : shm_manager) (phy : Z) (s : shm_state) (to_swap_out v : Z) : option swap_candidate :=
  e ← find_entry s v;
  Some (mk_swap_candidate phy (st_shm_id s) v (e_sched_policy e) (e_swap_priority e) (kernel_time m phy v) (e_hbm_used e)
          (all_swapped (e_processes e)) (swappable to_swap_out e)).

Lemma model_id m phy s to v c : model_of m phy s to v = Some c -> cand_vnpu_id c = v.
Proof. unfold model_of. destruct (find_entry s v); simpl; [|done]. by intros [= <-]. Qed.

Lemma model_idle m phy s to v c e : find_entry s v = Some e -> model_of m phy s to v = Some c -> idle_candidate c = idle to e.
Proof. intros He. unfold model_of. rewrite He. cbn [mbind option_bind]. by intros [= <-]. Qed.

Context (a : npu_allocator S) (phy : Z) (s : shm_state).
Hypothesis Hwf : mgr_wf (a_shm a).
Hypothesis Hs : shm_manager_get_state (a_shm a) phy = Some s.
Hypothesis Hid : (String.length (st_shm_id s) < 64)%nat.

Lemma candidate_at_eq to v e : find_entry s v = Some e -> v < 100 -> candidate_at a phy s to v = Some (model_of (a_shm a) phy s to v).
Proof.
  intros He Hv. destruct (find_entry_at s v e He) as (Hr & _ & Ha). destruct (get_state_range _ _ _ Hs) as [Hp _].
  unfold candidate_at, model_of. rewrite Ha, He. cbn [mbind option_bind].
  unfold shm_manager_get_vnpu_swapped, shm_manager_get_vnpu_all_swapped, query_entry.
  rewrite (proj2 (Z.ltb_ge phy 0)), (proj2 (Z.ltb_ge v 0)) by lia. cbn [orb]. rewrite Hs, He. cbn [snd default from_option].
  unfold npu_allocator_get_last_kernel_time_ns, kernel_time, MAX_VNPU_PER_DIE.
  rewrite (proj2 (Z.ltb_ge v 0)), (proj2 (Z.leb_gt 128 v)) by lia. cbn [orb].
  rewrite snprintf_s_fits by (unfold DIE_ID_LEN; lia).
  assert (Hsw : (if e_hbm_request e =? e_hbm_limit e then false
    else negb ((to =? SWAP_OUT_FROM_BORROWED) && (e_hbm_used e <=? u64 (u64 (e_hbm_request e * 1024) * 1024)))) = swappable to e).
  { unfold swappable. by destruct (e_hbm_request e =? e_hbm_limit e). }
  destruct (shm_manager_get_sched_struct (a_shm a) phy) as [sc|] eqn:Hsc; cbn [mbind option_bind]; rewrite Hsw.
  - pose proof (wf_sched _ Hwf _ _ Hsc) as Hl. red in Hl. destruct (lookup_lt_is_Some_2 (sched_slots sc) (Z.to_nat v)) as [x Hx]; [lia|].
    rewrite Hx. cbn [mbind option_bind]. rewrite (proj2 (Z.ltb_ge (Z.of_nat _) 0)) by lia. done.
  - rewrite (proj2 (Z.ltb_ge (Z.of_nat _) 0)) by lia. done.
Qed.

Lemma find_entry_bit v : 0 <= v < 128 -> is_Some (find_entry s v) <-> bitmap_has (st_bitmap s) v = true.
Proof. intros H. rewrite bitmap_has_test by done. apply find_entry_is_Some. exact (wf_state _ Hwf _ _ Hs). Qed.

Lemma collect_models_eq to vs room :
  Forall (fun v => 0 <= v < 128 ∧ (is_Some (find_entry s v) -> v < 100)) vs ->
  (length (omap (model_of (a_shm a) phy s to) vs) <= room)%nat ->
  collect_models a phy s to vs room = Some (Some (omap (model_of (a_shm a) phy s to) vs)).
Proof.
  intros Hvs. revert room. induction Hvs as [|v vs [Hr Hv] Hvs IH]; intros room Hlen; [done|].
  pose proof (find_entry_bit v Hr) as Hb. cbn [omap list_omap] in Hlen |- *.
  destruct (find_entry s v) as [e|] eqn:He.
  - assert (Hm : is_Some (model_of (a_shm a) phy s to v)) by (unfold model_of; rewrite He; by eexists).
    destruct Hm as [c Hm]. rewrite Hm in Hlen |- *. destruct room as [|room]; simpl in Hlen; [lia|]. simpl.
    rewrite (proj1 Hb) by done. cbn [negb]. rewrite (candidate_at_eq to v e) by auto. rewrite Hm. cbn [mbind option_bind].
    rewrite (IH room (le_S_n _ _ Hlen)). done.
  - assert (Hm : model_of (a_shm a) phy s to v = None) by (unfold model_of; by rewrite He). rewrite Hm in Hlen |- *.
    assert (bitmap_has (st_bitmap s) v = false) as Hf.
    { destruct (bitmap_has (st_bitmap s) v); [|done]. by destruct (proj2 Hb eq_refl). }
    specialize (IH room Hlen). destruct room as [|room]; simpl.
    + apply Nat.le_0_r, nil_length_inv in Hlen. do 2 f_equal. symmetry. exact Hlen.
    + rewrite Hf. exact IH.
Qed.

End candidates.

(** * A die for the examples *)

Definition ex_process (pid heartbeat used : Z) (swapped : bool) (off size : Z) : process_entry :=
  mk_process pid pid swapped true heartbeat used off size 0.
Definition ex_entry (v used priority : Z) (ps : list process_entry) : vnpu_shm_entry :=
  mk_entry v 1024 2048 used 0 true priority (ps ++ replicate (64 - length ps) process0).
Definition ex_state (es : list vnpu_shm_entry) : shm_state :=
  foldl (fun s e => add_vnpu e s) (set_st_initialized true (state_new 0 "die0")) es.
Definition ex_sched (times : list Z) : vnpu_time_slice_sched :=
  mk_sched ((fun t => mk_sched_slot t t 0 0 VNPU_PRIORITY_NORMAL 0 0 0xFF 0 0 0 0) <$> (times ++ replicate (100 - length times) 0))
    (-1) MAGIC_INITIALIZED 0 0.
Definition ex_mgr (times : list Z) (s : shm_state) : shm_manager := set_sched 0 (ex_sched times) (set_state 0 s shm_manager_create).

Lemma live_below s n :
  forallb (fun v => implb (vnpu_bitmap_test (st_bitmap s) v) (v <? n)) (seqZ 0 128) = true ->
  forall v, is_Some (find_entry s v) -> v < n.
Proof.
  rewrite forallb_forall. intros H v [e (Hr & Hb & _)%find_entry_at]. specialize (H v). rewrite Hb in H. cbn [implb] in H.
  apply Z.ltb_lt, H. apply list_elem_of_In, elem_of_seqZ. lia.
Qed.
