(* ===== verification/SwapResolverThms.v ===== *)
(** Theorems of the swap resolver: which vNPU is chosen. *)

From S2P Require Import Prelude CLib SwapTlsf NpuTree Evaluator Registry RegistryThms ConfigManager ShmManager ShmFacts RollbackLog Allocator AllocThms SwapResolver SwapResolverFacts.

(** * The victim *)

Definition dominates (b c : swap_candidate) : Prop :=
  cand_swap_priority c < cand_swap_priority b
  \/ (cand_swap_priority c = cand_swap_priority b ∧ cand_last_kernel_time_ns b <= cand_last_kernel_time_ns c).

Lemma dominates_trans x y z : dominates x y -> dominates y z -> dominates x z.
Proof. unfold dominates. lia. Qed.

Lemma select_fold cs c0 :
  let b := foldl (fun best c => if better c best then c else best) c0 cs in
  b ∈ c0 :: cs ∧ forall c, c ∈ c0 :: cs -> dominates b c.
Proof.
  revert c0. induction cs as [|x cs IH]; intros c0; simpl.
  - split; [left|]. intros c ->%list_elem_of_singleton. right. lia.
  - destruct (IH (if better x c0 then x else c0)) as [Hin Hdom].
    assert (Hx : forall c, c = c0 \/ c = x -> dominates (if better x c0 then x else c0) c).
    { unfold better, dominates. intros c [-> | ->];
        destruct (Z.ltb_spec (cand_swap_priority c0) (cand_swap_priority x)), (Z.eqb_spec (cand_swap_priority x) (cand_swap_priority c0)),
          (Z.ltb_spec (cand_last_kernel_time_ns x) (cand_last_kernel_time_ns c0)); simpl; lia. }
    split.
    + apply elem_of_cons in Hin as [-> |Hin]; [destruct (better x c0); [right; left|left]|right; by right].
    + intros c Hc. rewrite !elem_of_cons in Hc. destruct Hc as [-> |[-> |Hc]].
      * eapply dominates_trans; [apply Hdom; left|apply Hx; by left].
      * eapply dominates_trans; [apply Hdom; left|apply Hx; by right].
      * apply Hdom. by right.
Qed.

(** The vNPUs that a round may pick: the idle ones, [newest] apart. *)
Definition eligible (s : shm_state) (to newest v : Z) : Prop :=
  v <> newest ∧ exists e, find_entry s v = Some e ∧ idle to e = true.

(** [newest] is a live vNPU whose last kernel is not older than that of any
    other live one. *)
Definition newest_live (m : shm_manager) (phy : Z) (s : shm_state) (newest : Z) : Prop :=
  is_Some (find_entry s newest) ∧ forall v, is_Some (find_entry s v) -> kernel_time m phy v <= kernel_time m phy newest.

(** [v] has the highest swap priority of the eligible vNPUs and the oldest
    kernel among those. *)
Definition best_victim (m : shm_manager) (phy : Z) (s : shm_state) (to newest v : Z) : Prop :=
  eligible s to newest v ∧
  forall w ev ew, find_entry s v = Some ev -> find_entry s w = Some ew -> eligible s to newest w ->
    e_swap_priority ew < e_swap_priority ev
    \/ (e_swap_priority ew = e_swap_priority ev ∧ kernel_time m phy v <= kernel_time m phy w).

(** All candidates of a die. *)
Abbreviation models_of a phy s to := (omap (model_of (a_shm a) phy s to) (seqZ 0 MAX_VNPU_PER_DIE)).

Section victim.
  Context `{SC : Securec} {S : Type} `{!Storage S}.
  Context (a : npu_allocator S) (phy : Z) (s : shm_state) (to : Z).
  Abbreviation models := (models_of a phy s to).
  Hypothesis Hwf : mgr_wf (a_shm a).
  Hypothesis Hs : shm_manager_get_state (a_shm a) phy = Some s.
  Hypothesis Hname : (String.length (st_shm_id s) < 64)%nat.
  Hypothesis Hlive : forall v, is_Some (find_entry s v) -> v < 100.

Lemma model_in c : c ∈ models <-> model_of (a_shm a) phy s to (cand_vnpu_id c) = Some c.
Proof.
  rewrite list_elem_of_omap. split.
  - intros (v & _ & Hv). by rewrite (model_id _ _ _ _ _ _ Hv).
  - intros Hc. exists (cand_vnpu_id c). split; [|done]. apply elem_of_seqZ.
    unfold model_of in Hc. destruct (find_entry s (cand_vnpu_id c)) eqn:E; [|done]. by destruct (find_entry_at _ _ _ E) as [? _].
Qed.

Lemma models_ids_NoDup vs : NoDup vs -> NoDup (cand_vnpu_id <$> omap (model_of (a_shm a) phy s to) vs).
Proof.
  induction 1 as [|v vs Hv _ IH]; [constructor|]. cbn [omap list_omap].
  destruct (model_of (a_shm a) phy s to v) as [c|] eqn:E; [|exact IH]. cbn [fmap list_fmap]. constructor; [|exact IH].
  rewrite (model_id _ _ _ _ _ _ E). intros (c' & -> & (w & Hw & Hc')%list_elem_of_omap)%list_elem_of_fmap.
  by rewrite (model_id _ _ _ _ _ _ Hc') in Hv.
Qed.

Lemma models_length : (length models <= 100)%nat.
Proof.
  rewrite <- (length_fmap cand_vnpu_id). rewrite <- (length_seqZ 0 100 : length (seqZ 0 100) = 100%nat).
  apply submseteq_length, NoDup_submseteq; [apply models_ids_NoDup, NoDup_seqZ|].
  intros v (c & -> & Hc%model_in)%list_elem_of_fmap. apply elem_of_seqZ.
  unfold model_of in Hc. destruct (find_entry s (cand_vnpu_id c)) eqn:E; [|done].
  destruct (find_entry_at _ _ _ E) as [? _]. specialize (Hlive _ (ex_intro _ _ E)). lia.
Qed.

Lemma get_idle_models_eq :
  swap_resolver_get_idle_models a phy MAX_VNPU_SCHED to =
  Some (ENPU_SUCCESS, filter (fun c => Is_true (idle_candidate c)) (drop_newest models)).
Proof.
  destruct (get_state_range _ _ _ Hs) as [Hp _]. unfold swap_resolver_get_idle_models, npu_allocator_get_shm_state, MAX_VNPU_SCHED.
  rewrite (proj2 (Z.ltb_ge phy 0)) by lia. change (100 <=? 0) with false. cbn [orb]. rewrite Hs.
  assert (Hall : Forall (fun v => 0 <= v < 128 ∧ (is_Some (find_entry s v) -> v < 100)) (seqZ 0 MAX_VNPU_PER_DIE)).
  { apply Forall_forall. intros v Hv%elem_of_seqZ. split; [unfold MAX_VNPU_PER_DIE in Hv; lia|exact (Hlive v)]. }
  rewrite (collect_models_eq a phy s Hwf Hs Hname to _ (Z.to_nat 100) Hall models_length).
  reflexivity.
Qed.

Lemma model_fields v e : find_entry s v = Some e -> exists c, model_of (a_shm a) phy s to v = Some c
  ∧ cand_vnpu_id c = v ∧ cand_swap_priority c = e_swap_priority e ∧ cand_last_kernel_time_ns c = kernel_time (a_shm a) phy v
  ∧ idle_candidate c = idle to e.
Proof. intros He. unfold model_of. rewrite He. cbn [mbind option_bind]. eexists. split; [reflexivity|done]. Qed.

Lemma model_entry c : c ∈ models -> exists e, find_entry s (cand_vnpu_id c) = Some e ∧ cand_swap_priority c = e_swap_priority e
  ∧ cand_last_kernel_time_ns c = kernel_time (a_shm a) phy (cand_vnpu_id c) ∧ idle_candidate c = idle to e.
Proof.
  intros Hc%model_in. destruct (find_entry s (cand_vnpu_id c)) as [e|] eqn:E; [|unfold model_of in Hc; by rewrite E in Hc].
  destruct (model_fields _ _ E) as (c' & Hc' & _ & H). rewrite Hc in Hc'. injection Hc' as <-. by exists e.
Qed.

(** What the round picks from, once the newest vNPU is dropped. *)
Lemma idle_list newest rest :
  models ≡ₚ newest :: rest ->
  forall v, v ∈ cand_vnpu_id <$> filter (fun c => Is_true (idle_candidate c)) rest <-> eligible s to (cand_vnpu_id newest) v.
Proof.
  intros Hp v. assert (Hnd : NoDup (cand_vnpu_id <$> newest :: rest)).
  { rewrite <- Hp. apply models_ids_NoDup, NoDup_seqZ. }
  cbn [fmap list_fmap] in Hnd. apply NoDup_cons in Hnd as [Hnew Hnd]. rewrite list_elem_of_fmap. split.
  - intros (c & -> & [Hi Hc]%list_elem_of_filter). split.
    + intros E. apply Hnew. rewrite <- E. apply list_elem_of_fmap. by exists c.
    + destruct (model_entry c) as (e & He & _ & _ & Hie); [rewrite Hp; by right|]. exists e. split; [done|].
      rewrite <- Hie. by apply Is_true_true.
  - intros (Hne & e & He & Hi). destruct (model_fields v e He) as (c & Hc & Hid & _ & _ & Hic). exists c. split; [done|].
    apply list_elem_of_filter. split; [by rewrite Hic, Hi|].
    assert (Hin : c ∈ models) by (apply model_in; by rewrite Hid). rewrite Hp in Hin.
    apply elem_of_cons in Hin as [-> |Hin]; [by rewrite Hid in Hne|done].
Qed.

Lemma select_best newest cs :
  (forall c, c ∈ cs -> c ∈ models) ->
  (forall v, v ∈ cand_vnpu_id <$> cs <-> eligible s to newest v) ->
  match (swap_resolver_select_candidate_from_list cs).2 with
  | None => forall v, ~ eligible s to newest v
  | Some c => best_victim (a_shm a) phy s to newest (cand_vnpu_id c)
  end.
Proof using Type.
  intros Hsub Hel. destruct cs as [|c0 cs]; simpl.
  - intros v Hv. apply Hel in Hv. by apply elem_of_nil in Hv.
  - destruct (select_fold cs c0) as [Hin Hdom]. set (b := foldl _ _ _) in *.
    destruct (model_entry b (Hsub _ Hin)) as (eb & Heb & Hpb & Htb & _). split.
    + apply Hel, list_elem_of_fmap. by exists b.
    + intros w ev ew Hev Hew Hw%Hel. apply list_elem_of_fmap in Hw as (c & -> & Hc).
      destruct (model_entry c (Hsub _ Hc)) as (ec & Hec & Hpc & Htc & _). specialize (Hdom c Hc). unfold dominates in Hdom.
      rewrite Heb in Hev. rewrite Hec in Hew. injection Hev as <-. injection Hew as <-. clear Hname. lia.
Qed.

End victim.

(** C19. In a round on a die whose vNPUs have ids below 100, the candidates of
    the resolver are exactly the live vNPUs that hold memory, are not wholly
    swapped out, have borrowed or may borrow (and, when only borrowed memory is
    asked for, use more than they requested), without the one whose last
    kernel is the newest; each of them appears once.  The selection then
    returns the one with the highest swap priority and, among these, the
    oldest kernel; it returns none only when no vNPU is eligible. *)
Theorem swap_victim_correct `{SC : Securec} {S : Type} `{!Storage S} (a : npu_allocator S) phy s to :
  mgr_wf (a_shm a) -> shm_manager_get_state (a_shm a) phy = Some s -> (String.length (st_shm_id s) < 64)%nat ->
  (forall v, is_Some (find_entry s v) -> v < 100) ->
  exists cs, swap_resolver_get_idle_models a phy MAX_VNPU_SCHED to = Some (ENPU_SUCCESS, cs)
    ∧ NoDup (cand_vnpu_id <$> cs)
    ∧ ((cs = [] ∧ forall v, find_entry s v = None)
       \/ exists newest, newest_live (a_shm a) phy s newest
            ∧ (forall v, v ∈ cand_vnpu_id <$> cs <-> eligible s to newest v)
            ∧ match (swap_resolver_select_candidate_from_list cs).2 with
              | None => forall v, ~ eligible s to newest v
              | Some c => best_victim (a_shm a) phy s to newest (cand_vnpu_id c)
              end).
Proof.
  intros Hwf Hs Hname Hlive. eexists. split; [exact (get_idle_models_eq a phy s to Hwf Hs Hname Hlive)|].
  pose proof (models_ids_NoDup a phy s to (seqZ 0 MAX_VNPU_PER_DIE) (NoDup_seqZ 0 MAX_VNPU_PER_DIE)) as Hnd.
  destruct (decide (models_of a phy s to = [])) as [E|Hne].
  - rewrite E. split; [constructor|]. left. split; [reflexivity|]. intros v. destruct (find_entry s v) as [e|] eqn:He; [|done].
    destruct (model_fields a phy s to v e He) as (c & Hc & Hid & _).
    assert (Hin : c ∈ models_of a phy s to) by (apply model_in; by rewrite Hid). rewrite E in Hin. by apply elem_of_nil in Hin.
  - destruct (drop_newest_spec _ Hne) as (c & Hmax & rest & Hp & Hd). set (cs := filter _ _).
    assert (Hcs : cs ≡ₚ filter (fun c => Is_true (idle_candidate c)) rest) by (unfold cs; by rewrite Hd).
    assert (Hel : forall v, v ∈ cand_vnpu_id <$> cs <-> eligible s to (cand_vnpu_id c) v).
    { intros v. rewrite Hcs. exact (idle_list a phy s to c rest Hp v). }
    split.
    { rewrite Hcs. rewrite Hp in Hnd. apply NoDup_cons in Hnd as [_ Hnd]. apply (sublist_NoDup _ _ Hnd), fmap_sublist, sublist_filter. }
    right. exists (cand_vnpu_id c). split; [|split; [exact Hel|]].
    + destruct (model_entry a phy s to c) as (e & He & _ & Ht & _); [rewrite Hp; by left|]. split; [by exists e|].
      intros v [ev Hev]. destruct (model_fields a phy s to v ev Hev) as (c' & Hc' & Hid & _ & Ht' & _).
      rewrite <- Ht, <- Ht'. apply Hmax, model_in. by rewrite Hid.
    + apply (select_best a phy s to (cand_vnpu_id c) cs); [|exact Hel]. intros c' Hc'. rewrite Hcs in Hc'. rewrite Hp. right. by apply list_elem_of_filter in Hc' as [_ ?].
Qed.

(** Three vNPUs: the second has the newest kernel, the third is the one to
    swap out. *)
Definition victim_demo : npu_allocator memory_adapter :=
  set_a_shm (ex_mgr [10; 30; 20]
    (ex_state [ex_entry 0 4096 1 [ex_process 7 0 4096 false 0 0]; ex_entry 1 4096 9 [ex_process 8 0 4096 false 0 0];
                 ex_entry 2 4096 2 [ex_process 9 0 4096 false 0 0]])) (demo_alloc memory_storage_adapter_create).

Lemma swap_victim_correct_witness :
  exists s cs newest, shm_manager_get_state (a_shm victim_demo) 0 = Some s
    ∧ swap_resolver_get_idle_models (SC := securec_ref) victim_demo 0 MAX_VNPU_SCHED SWAP_OUT_NONE = Some (ENPU_SUCCESS, cs)
    ∧ newest_live (a_shm victim_demo) 0 s newest ∧ cand_vnpu_id <$> (swap_resolver_select_candidate_from_list cs).2 = Some 2.
Proof.
  destruct (shm_manager_get_state (a_shm victim_demo) 0) as [s|] eqn:Hs; [|vm_compute in Hs; discriminate Hs].
  destruct (swap_victim_correct (SC := securec_ref) victim_demo 0 s SWAP_OUT_NONE) as (cs & E & _ & Hcases).
  - apply mgr_wfb_sound. vm_compute. reflexivity.
  - exact Hs.
  - vm_compute in Hs. injection Hs as <-. cbn. lia.
  - apply live_below. vm_compute in Hs. injection Hs as <-. vm_compute. reflexivity.
  - assert (E2 : (fun r => (cand_vnpu_id <$> r.2, cand_vnpu_id <$> (swap_resolver_select_candidate_from_list r.2).2))
      <$> swap_resolver_get_idle_models (SC := securec_ref) victim_demo 0 MAX_VNPU_SCHED SWAP_OUT_NONE = Some ([0; 2], Some 2)) by (vm_compute; reflexivity).
    rewrite E in E2. cbn [fmap option_fmap option_map snd] in E2. injection E2 as E2 E3.
    exists s, cs. destruct Hcases as [[-> _]|(newest & Hn & _)]; [discriminate E2|]. exists newest.
    split; [reflexivity|]. split; [exact E|]. split; [exact Hn|exact E3].
Defined.
