(* ===== verification/SwapReserve.v ===== *)
(** The swap buffers that a swap-out command reserves: all that the processes
    of the vNPU need, or none.

    The buffers reserved so far are a finite map from slots to regions of the
    pool; the processes of the vNPU are the original ones with these buffers
    written in. *)

From S2P Require Import Prelude CLib SwapTlsf SwapTlsfInv SwapTlsfOps SwapTlsfProofs SwapTlsfThms ShmManager ShmFacts RtShm SwapProtocol.
From S2P Require Import NpuTree Evaluator EvaluatorThms Registry ConfigManager RegistryThms RollbackLog Allocator AllocThms SwapResolver SwapResolverFacts.

(** * Regions of the pool *)

Lemma inv_used_disjoint m o s o' s' :
  Inv m -> used_region m o s -> used_region m o' s' -> (o, s) <> (o', s') -> disjoint_regions o s o' s'.
Proof.
  intros [ph HS] H1 H2 Hne. pose proof (shape_rep _ _ HS) as HR. pose proof (shape_tiles _ _ HS) as Ht.
  unfold used_region in H1, H2. rewrite (region_iff _ _ _ _ _ _ HR) in H1. rewrite (region_iff _ _ _ _ _ _ HR) in H2.
  apply list_elem_of_split in H1 as (l1 & l2 & E). rewrite E in Ht, H2.
  assert (Hin : (o', s', true) ∈ l1 ++ l2).
  { apply elem_of_app in H2 as [H2|[H2|H2]%elem_of_cons]; [apply elem_of_app; by left|congruence|apply elem_of_app; by right]. }
  by destruct (tiles_disjoint _ _ _ _ _ _ _ _ _ _ Ht Hin).
Qed.

Lemma inv_used_bounds m o s : Inv m -> used_region m o s -> 0 < s ∧ o <> UINT64_MAX.
Proof.
  intros [ph HS] H1. pose proof (shape_tiles _ _ HS) as Ht. unfold used_region in H1. rewrite (region_iff _ _ _ _ _ _ (shape_rep _ _ HS)) in H1.
  destruct (tiles_bounds _ _ _ _ _ _ Ht H1) as (_ & Hs & _ & Hal). split; [done|]. intros ->. by vm_compute in Hal.
Qed.

Lemma inv_used_offset m o s s' : Inv m -> used_region m o s -> used_region m o s' -> s = s'.
Proof.
  intros HI H1 H2. destruct (decide (s = s')) as [|Hne]; [done|].
  pose proof (inv_used_disjoint m o s o s' HI H1 H2 ltac:(congruence)) as Hd. unfold disjoint_regions in Hd.
  destruct (inv_used_bounds _ _ _ HI H1), (inv_used_bounds _ _ _ HI H2). lia.
Qed.

(** * The processes with the buffers reserved so far *)

Definition needs_buffer (p : process_entry) : bool := p_active p && negb (p_swapped p) && negb (p_hbm_used p =? 0).
Definition buffer_size (p : process_entry) : Z := align_up SWAP_BUFFER_ALIGN_LOG2 (p_hbm_used p).

(** A process that needs a buffer holds none, and uses no more than the
    address space can round up. *)
Definition ready (p : process_entry) : Prop :=
  needs_buffer p = true -> p_swap_offset p = 0 ∧ p_swap_size p = 0 ∧ 0 < p_hbm_used p <= U64_MOD - 4096.

Lemma buffer_size_bounds p : 0 < p_hbm_used p <= U64_MOD - 4096 -> p_hbm_used p <= buffer_size p <= U64_MOD - 64.
Proof.
  intros H. unfold buffer_size, SWAP_BUFFER_ALIGN_LOG2. rewrite align_up_eq by mlia. change (2 ^ 12) with 4096. mzlia.
Qed.

Abbreviation regions := (gmap Z (Z * Z)).

Definition with_buffer (r : option (Z * Z)) (p : process_entry) : process_entry :=
  match r with Some (off, _) => set_p_swap off (buffer_size p) p | None => p end.
Definition with_buffers (D : regions) (ps : list process_entry) : list process_entry :=
  imap (fun k p => with_buffer (D !! Z.of_nat k) p) ps.

Lemma with_buffers_lookup D ps i : 0 <= i -> with_buffers D ps !! Z.to_nat i = with_buffer (D !! i) <$> ps !! Z.to_nat i.
Proof. intros Hi. unfold with_buffers. rewrite list_lookup_imap, Z2Nat.id by done. done. Qed.

Lemma with_buffers_length D ps : length (with_buffers D ps) = length ps.
Proof. apply length_imap. Qed.

Lemma with_buffers_empty ps : with_buffers ∅ ps = ps.
Proof. apply list_eq. intros k. unfold with_buffers. rewrite list_lookup_imap. rewrite lookup_empty. by destruct (ps !! k). Qed.

Lemma with_buffers_insert D ps i p r :
  0 <= i -> ps !! Z.to_nat i = Some p -> <[Z.to_nat i := with_buffer (Some r) p]> (with_buffers D ps) = with_buffers (<[i := r]> D) ps.
Proof.
  intros Hi Hp. apply list_eq. intros k. unfold with_buffers at 2. rewrite list_lookup_imap.
  destruct (decide (k = Z.to_nat i)) as [->|Hne].
  - rewrite Z2Nat.id, lookup_insert_eq, Hp by done. rewrite list_lookup_insert_eq; [done|].
    rewrite with_buffers_length. by eapply lookup_lt_Some.
  - rewrite list_lookup_insert_ne, lookup_insert_ne by (lia || done). unfold with_buffers. by rewrite list_lookup_imap.
Qed.

Lemma with_buffers_delete D ps i p :
  0 <= i -> ps !! Z.to_nat i = Some p -> <[Z.to_nat i := p]> (with_buffers D ps) = with_buffers (delete i D) ps.
Proof.
  intros Hi Hp. apply list_eq. intros k. unfold with_buffers at 2. rewrite list_lookup_imap.
  destruct (decide (k = Z.to_nat i)) as [->|Hne].
  - rewrite Z2Nat.id, lookup_delete_eq, Hp by done. rewrite list_lookup_insert_eq; [done|].
    rewrite with_buffers_length. by eapply lookup_lt_Some.
  - rewrite list_lookup_insert_ne, lookup_delete_ne by (lia || done). unfold with_buffers. by rewrite list_lookup_imap.
Qed.

(** * The loop *)

Section reserve.
  Context (s0 : shm_state) (v : Z) (e0 : vnpu_shm_entry) (t0 : TLSFManager).
  Hypothesis Hwf : shm_wf s0.
  Hypothesis Hv : 0 <= v < 128.
  Hypothesis He0 : entry_at s0 v = Some e0.
  Hypothesis Hready : Forall ready (e_processes e0).

(** The die with the buffers of [D]. *)
Definition die_with (D : regions) : shm_state := put_entry v (set_e_processes (with_buffers D (e_processes e0)) e0) s0.

(** [D] are the buffers reserved so far, [t] is the pool. *)
Record reserved (D : regions) (t : TLSFManager) : Prop := {
  res_inv : Inv t;
  res_used o s : used_region t o s <-> used_region t0 o s \/ exists i, D !! i = Some (o, s);
  res_inj i j o s s' : D !! i = Some (o, s) -> D !! j = Some (o, s') -> i = j;
  res_new i o s s' : D !! i = Some (o, s) -> ~ used_region t0 o s';
  res_need i o s : D !! i = Some (o, s) ->
    0 <= i ∧ exists p, e_processes e0 !! Z.to_nat i = Some p ∧ needs_buffer p = true ∧ buffer_size p <= s;
}.

Lemma die_with_empty : die_with ∅ = s0.
Proof.
  unfold die_with. rewrite with_buffers_empty. destruct e0 as [a b c d e f g h] eqn:E. unfold set_e_processes, put_entry. simpl.
  unfold entry_at in He0. rewrite list_insert_id; [by destruct s0|]. destruct (v <? 0); done.
Qed.

Lemma die_with_entry D : entry_at (die_with D) v = Some (set_e_processes (with_buffers D (e_processes e0)) e0).
Proof. unfold die_with. rewrite entry_at_put by (done || lia). by rewrite decide_True. Qed.

Lemma slot_lookup i : 0 <= i < 64 -> exists p, e_processes e0 !! Z.to_nat i = Some p ∧ ready p.
Proof.
  intros Hi. pose proof (entry_at_entry_wf _ _ _ Hwf He0) as Hl. red in Hl.
  destruct (lookup_lt_is_Some_2 (e_processes e0) (Z.to_nat i)) as [p Hp]; [lia|]. exists p. split; [done|].
  rewrite Forall_lookup in Hready. by eapply Hready.
Qed.

Lemma die_with_process D i p :
  0 <= i -> e_processes e0 !! Z.to_nat i = Some p -> process_at (die_with D) v i = Some (with_buffer (D !! i) p).
Proof.
  intros Hi Hp. unfold process_at. rewrite die_with_entry. cbn [mbind option_bind]. rewrite (proj2 (Z.ltb_ge i 0)) by lia.
  cbn [e_processes set_e_processes]. rewrite with_buffers_lookup by lia. by rewrite Hp.
Qed.

Lemma die_with_put D D' i p :
  <[Z.to_nat i := p]> (with_buffers D (e_processes e0)) = with_buffers D' (e_processes e0) -> put_process v i p (die_with D) = die_with D'.
Proof.
  intros E. rewrite (put_process_eq _ _ _ _ _ (die_with_entry D)). cbn [e_processes set_e_processes]. rewrite E.
  unfold die_with, put_entry, set_st_entries, set_e_processes. cbn. by rewrite list_insert_insert_eq.
Qed.

Lemma reserved_empty : Inv t0 -> reserved ∅ t0.
Proof.
  intros HI. constructor; try done; intros *; try by rewrite lookup_empty.
  split; [by left|intros [?|[i Hi]]; [done|by rewrite lookup_empty in Hi]].
Qed.

Lemma reserved_insert D t i p off sz t' :
  reserved D t -> D !! i = None -> 0 <= i -> e_processes e0 !! Z.to_nat i = Some p -> needs_buffer p = true -> buffer_size p <= sz ->
  0 < sz -> Inv t' -> (forall o s, used_region t o s -> disjoint_regions off sz o s) ->
  (forall o s, used_region t' o s <-> (o, s) = (off, sz) \/ used_region t o s) -> reserved (<[i := (off, sz)]> D) t'.
Proof.
  intros HR Hno Hi Hp Hn Hsz Hpos HI Hdis Hreg.
  assert (Hoff : forall o s, used_region t o s -> o <> off).
  { intros o s Hu ->. specialize (Hdis off s Hu). destruct (inv_used_bounds _ _ _ (res_inv _ _ HR) Hu). unfold disjoint_regions in Hdis. lia. }
  assert (Hold : forall j o s, D !! j = Some (o, s) -> o <> off) by (intros j o s Hj; eapply Hoff, (res_used _ _ HR); eauto).
  constructor; [done| | | |].
  - intros o s. rewrite Hreg, (res_used _ _ HR). split.
    + intros [E|[H|[j Hj]]]; [right; exists i; by rewrite lookup_insert_eq, E|by left|right; exists j].
      rewrite lookup_insert_ne; [done|]. intros <-. by rewrite Hno in Hj.
    + intros [H|[j Hj]]; [auto|]. apply lookup_insert_Some in Hj as [[_ E]|[_ Hj]]; [by left|eauto].
  - intros j k o s s' Hj Hk. apply lookup_insert_Some in Hj as [[<- E]|[Hij Hj]], Hk as [[<- E']|[Hik Hk]]; simplify_eq; try done.
    + by destruct (Hold _ _ _ Hk).
    + by destruct (Hold _ _ _ Hj).
    + by eapply (res_inj _ _ HR).
  - intros j o s s' Hj Hu. apply lookup_insert_Some in Hj as [[<- E]|[_ Hj]]; [|by eapply (res_new _ _ HR)].
    simplify_eq. eapply Hoff; [|done]. apply (res_used _ _ HR). by left.
  - intros j o s Hj. apply lookup_insert_Some in Hj as [[<- E]|[_ Hj]]; [simplify_eq|by eapply (res_need _ _ HR)]. split; [done|]. by exists p.
Qed.

Lemma reserved_delete D t i off sz t' :
  reserved D t -> D !! i = Some (off, sz) -> Inv t' ->
  (forall o s, used_region t' o s <-> used_region t o s ∧ o <> off) -> reserved (delete i D) t'.
Proof.
  intros HR Hi HI Hreg. constructor; [done| | | |].
  - intros o s. rewrite Hreg, (res_used _ _ HR). split.
    + intros [[H|[j Hj]] Hne]; [by left|right; exists j]. rewrite lookup_delete_ne; [done|]. intros <-. congruence.
    + intros [H|[j [Hij Hj]%lookup_delete_Some]].
      * split; [by left|]. intros ->. by apply (res_new _ _ HR _ _ _ s Hi).
      * split; [right; by exists j|]. intros ->. by apply Hij, (res_inj _ _ HR _ _ _ _ _ Hi Hj).
  - intros j k o s s' [_ Hj]%lookup_delete_Some [_ Hk]%lookup_delete_Some. by eapply (res_inj _ _ HR).
  - intros j o s s' [_ Hj]%lookup_delete_Some. by eapply (res_new _ _ HR).
  - intros j o s [_ Hj]%lookup_delete_Some. by eapply (res_need _ _ HR).
Qed.

Lemma reserve_one c D t i p :
  reserved D t -> D !! i = None -> 0 <= i < 64 -> e_processes e0 !! Z.to_nat i = Some p -> ready p -> needs_buffer p = true ->
  lock_rc c = 0 -> malloc_fresh c t ->
  shm_alloc_per_process c (die_with D) t v i (buffer_size p) = Some (-1, die_with D, t)
  \/ exists off sz t', shm_alloc_per_process c (die_with D) t v i (buffer_size p) = Some (0, die_with (<[i := (off, sz)]> D), t')
       ∧ reserved (<[i := (off, sz)]> D) t'.
Proof.
  intros HR Hno Hi Hp Hr Hn Hl Hf. destruct (Hr Hn) as (_ & _ & Hused). pose proof (buffer_size_bounds p Hused) as Hb.
  unfold shm_alloc_per_process. rewrite (proj2 (in_die_spec v) Hv), (proj2 (slot_range_spec i) Hi). cbn [negb orb].
  rewrite (die_with_process D i p) by (done || lia). rewrite Hno. cbn [mbind option_bind with_buffer].
  assert (Ha : p_active p = true) by (unfold needs_buffer in Hn; by destruct (p_active p)). rewrite Ha. cbn [negb].
  unfold shm_swap_buffer_alloc_offset.
  destruct (inv_alloc_outcome c (buffer_size p) t (res_inv _ _ HR)) as [[-> _]|(off & sz & t' & -> & HI & Hsz & Hal & _ & _ & _ & Hdis & Hreg & _)];
    [lia|done|done| |]; cbn [mbind option_bind]; [by left|right].
  pose proof (align_size (buffer_size p) ltac:(lia)) as (Hge & _). cbv zeta in Hge.
  destruct (Z.eqb_spec off UINT64_MAX) as [->|_]; [by vm_compute in Hal|].
  exists off, sz, t'. split; [|eapply reserved_insert; eauto; lia].
  do 2 f_equal. f_equal. apply die_with_put. exact (with_buffers_insert D _ i p (off, sz) (proj1 Hi) Hp).
Qed.

Lemma free_one c D t i :
  reserved D t -> is_Some (D !! i) -> lock_rc c = 0 -> i < 64 ->
  exists t', shm_free_per_process c (die_with D) t v i = Some (0, die_with (delete i D), t') ∧ reserved (delete i D) t'.
Proof.
  intros HR [[off sz] Hi] Hl Hlt. destruct (res_need _ _ HR _ _ _ Hi) as (H0 & p & Hp & Hn & Hsz).
  destruct (slot_lookup i) as (p' & Hp' & Hr); [lia|]. rewrite Hp in Hp'. injection Hp' as <-.
  destruct (Hr Hn) as (Ho & Hs & Hused). pose proof (buffer_size_bounds p Hused) as Hb.
  unfold shm_free_per_process. rewrite (proj2 (in_die_spec v) Hv), (proj2 (slot_range_spec i)) by lia. cbn [negb orb].
  rewrite (die_with_process D i p) by (done || lia). rewrite Hi. cbn [mbind option_bind with_buffer].
  cbn [p_swap_size p_swap_offset set_p_swap]. rewrite (proj2 (Z.eqb_neq (buffer_size p) 0)) by lia. unfold shm_swap_buffer_free_offset.
  destruct (inv_free_outcome c off t (res_inv _ _ HR) Hl) as (t' & -> & HI & Hreg & _). cbn [mbind option_bind].
  exists t'. split; [|by eapply reserved_delete]. do 3 f_equal. apply die_with_put.
  rewrite <- (with_buffers_delete D _ i p) by done. f_equal. destruct p; simpl in *. by subst.
Qed.

Lemma undo cf slots D t :
  reserved D t -> NoDup slots -> (forall i, i ∈ slots <-> is_Some (D !! i)) -> (forall i, i ∈ slots -> i < 64) ->
  (forall i, lock_rc (cf i) = 0) -> exists t', free_slots cf (die_with D) t v slots = Some (s0, t') ∧ reserved ∅ t'.
Proof.
  intros HR Hnd Hdom Hlt Hl. revert D t HR Hdom. induction Hnd as [|i slots Hni Hnd IH]; intros D t HR Hdom.
  - assert (D = ∅) as ->.
    { apply map_empty. intros i. destruct (D !! i) eqn:E; [|done]. exfalso. eapply not_elem_of_nil, Hdom. by eexists. }
    exists t. rewrite die_with_empty. by split.
  - cbn [free_slots]. destruct (free_one (cf i) D t i HR) as (t1 & -> & HR1); [apply Hdom; by left|done|apply Hlt; by left|].
    cbn [mbind option_bind]. apply IH; [|done|].
    + intros j Hj. apply Hlt. by right.
    + intros j. rewrite lookup_delete_is_Some, <- Hdom, elem_of_cons. split; [|naive_solver].
      intros Hj. split; [|by right]. by intros ->.
Qed.

(** [allocated_mask] has the bits of the reserved slots. *)
Definition mask_of (D : regions) (mask : Z) : Prop := forall j, 0 <= j < 64 -> Z.testbit mask j = bool_decide (is_Some (D !! j)).

Lemma mask_of_empty : mask_of ∅ 0.
Proof. intros j _. rewrite Z.bits_0, lookup_empty, bool_decide_eq_false_2; [done|]. by intros []. Qed.

Lemma mask_of_insert D mask i r : mask_of D mask -> 0 <= i < 64 -> mask_of (<[i := r]> D) (Z.lor mask (Z.shiftl 1 i)).
Proof.
  intros Hm Hi j Hj. rewrite Z.lor_spec, Z.shiftl_1_l, Z.pow2_bits_eqb, (Hm j Hj) by lia.
  destruct (Z.eqb_spec i j) as [->|Hne].
  - rewrite orb_true_r, lookup_insert_eq. symmetry. by apply bool_decide_eq_true_2.
  - by rewrite orb_false_r, lookup_insert_ne.
Qed.

Lemma mask_slots_spec D t mask i : reserved D t -> mask_of D mask -> i ∈ mask_slots mask <-> is_Some (D !! i).
Proof.
  intros HR Hm. unfold mask_slots. rewrite list_elem_of_filter, elem_of_seqZ. unfold MAX_PROCESSES_PER_VNPU.
  split.
  - intros [Hb Hi]. rewrite shift_bit in Hb by lia. rewrite (Hm i) in Hb by lia. by apply bool_decide_unpack in Hb.
  - intros Hs. destruct Hs as [[o s] Ho] eqn:E. destruct (res_need _ _ HR _ _ _ Ho) as (H0 & p & Hp & _).
    apply lookup_lt_Some in Hp. pose proof (entry_at_entry_wf _ _ _ Hwf He0) as Hl. red in Hl.
    split; [|lia]. rewrite shift_bit, (Hm i) by lia. by apply bool_decide_pack.
Qed.

Lemma reserve_loop c cf slots mask D t :
  (forall i t, lock_rc (c i t) = 0 ∧ malloc_fresh (c i t) t) -> (forall i, lock_rc (cf i) = 0) ->
  NoDup slots -> Forall (fun i => 0 <= i < 64) slots -> reserved D t -> mask_of D mask -> (forall i, i ∈ slots -> D !! i = None) ->
  (exists t', reserve_slots c cf (die_with D) t v slots mask = Some (-1, s0, t') ∧ reserved ∅ t')
  \/ exists D' t', reserve_slots c cf (die_with D) t v slots mask = Some (ENPU_SUCCESS, die_with D', t') ∧ reserved D' t' ∧ D ⊆ D'
       ∧ forall i p, i ∈ slots -> e_processes e0 !! Z.to_nat i = Some p -> needs_buffer p = true -> is_Some (D' !! i).
Proof.
  intros Hc Hcf Hnd. revert mask D t. induction Hnd as [|i slots Hni Hnd IH]; intros mask D t Hr HR Hm Hno.
  { right. exists D, t. split; [done|]. split; [done|]. split; [done|]. intros i p Hi. by apply elem_of_nil in Hi. }
  apply Forall_cons in Hr as [Hi Hr]. destruct (slot_lookup i Hi) as (p & Hp & Hready_p). pose proof (Hno i (list_elem_of_here _ _)) as Hnone.
  cbn [reserve_slots]. rewrite (die_with_process D i p) by (done || lia). rewrite Hnone. cbn [mbind option_bind with_buffer].
  assert (Hskip : needs_buffer p = false ->
    (exists t', reserve_slots c cf (die_with D) t v slots mask = Some (-1, s0, t') ∧ reserved ∅ t')
    \/ exists D' t', reserve_slots c cf (die_with D) t v slots mask = Some (ENPU_SUCCESS, die_with D', t') ∧ reserved D' t' ∧ D ⊆ D'
       ∧ forall j p, j ∈ i :: slots -> e_processes e0 !! Z.to_nat j = Some p -> needs_buffer p = true -> is_Some (D' !! j)).
  { intros Hn. destruct (IH mask D t Hr HR Hm) as [H|(D' & t' & E & HR' & Hsub & Hall)]; [intros j Hj; apply Hno; by right|by left|].
    right. exists D', t'. split; [done|]. split; [done|]. split; [done|].
    intros j q [->|Hj]%elem_of_cons Hq Hnq; [|by eapply Hall]. rewrite Hp in Hq. injection Hq as <-. by rewrite Hn in Hnq. }
  destruct (p_active p) eqn:Ha; [|apply Hskip; unfold needs_buffer; by rewrite Ha].
  destruct (p_swapped p) eqn:Hsw; [apply Hskip; unfold needs_buffer; by rewrite Ha, Hsw|].
  destruct (p_hbm_used p =? 0) eqn:Hz; [apply Hskip; unfold needs_buffer; by rewrite Ha, Hsw, Hz|].
  clear Hskip. cbn [negb]. change (align_up SWAP_BUFFER_ALIGN_LOG2 (p_hbm_used p)) with (buffer_size p).
  assert (Hn : needs_buffer p = true) by (unfold needs_buffer; by rewrite Ha, Hsw, Hz).
  destruct (Hc i t) as [Hl Hf].
  destruct (reserve_one (c i t) D t i p HR Hnone Hi Hp Hready_p Hn Hl Hf) as [->|(off & sz & t1 & -> & HR1)]; cbn [mbind option_bind].
  - left. change (negb (-1 =? ENPU_SUCCESS)) with true. cbn iota.
    destruct (undo cf (mask_slots mask) D t HR) as (t' & -> & HR'); [apply NoDup_filter, NoDup_seqZ| | |done|cbn [mbind option_bind]; eauto].
    + intros j. by apply (mask_slots_spec D t).
    + intros j [_ Hj]%list_elem_of_filter. apply elem_of_seqZ in Hj. unfold MAX_PROCESSES_PER_VNPU in Hj. lia.
  - change (negb (0 =? ENPU_SUCCESS)) with false. cbn iota.
    destruct (IH (Z.lor mask (Z.shiftl 1 i)) _ t1 Hr HR1) as [H|(D' & t' & E & HR' & Hsub & Hall)].
    + by apply mask_of_insert.
    + intros j Hj. rewrite lookup_insert_ne; [apply Hno; by right|]. by intros ->.
    + by left.
    + right. exists D', t'. split; [done|]. split; [done|]. split; [etransitivity; [by apply (insert_subseteq D i (off, sz))|exact Hsub]|].
      intros j q [->|Hj]%elem_of_cons Hq Hnq; [|by eapply Hall]. exists (off, sz). eapply lookup_weaken; [|exact Hsub]. apply lookup_insert_eq.
Qed.

End reserve.

(** * The command *)

Lemma with_buffer_marks r p :
  p_active (with_buffer r p) = p_active p ∧ p_ack_pending_seq (with_buffer r p) = p_ack_pending_seq p.
Proof. by destruct r as [[? ?]|]. Qed.

Lemma with_buffers_active D ps : active_slots (with_buffers D ps) = active_slots ps.
Proof.
  apply set_eq. intros i. rewrite !elem_of_active_slots. unfold with_buffers. split.
  - intros (p & H & Ha). rewrite list_lookup_imap in H. apply fmap_Some in H as (q & Hq & ->). exists q. split; [done|].
    by rewrite (proj1 (with_buffer_marks _ q)) in Ha.
  - intros (p & Hp & Ha). eexists. rewrite list_lookup_imap, Hp. split; [reflexivity|]. by rewrite (proj1 (with_buffer_marks _ p)).
Qed.

Lemma with_buffers_acks D ps q :
  Forall (fun p => p_ack_pending_seq p <= q) ps -> Forall (fun p => p_ack_pending_seq p <= q) (with_buffers D ps).
Proof.
  rewrite !Forall_lookup. intros H i p Hp. unfold with_buffers in Hp. rewrite list_lookup_imap in Hp.
  apply fmap_Some in Hp as (p0 & Hp0 & ->). rewrite (proj2 (with_buffer_marks _ p0)). by eapply H.
Qed.

(** [D] gives every process that needs one, and no other, a buffer of the
    pool that is large enough and overlaps no other buffer. *)
Record buffers_for (t t' : TLSFManager) (ps : list process_entry) (D : regions) : Prop := {
  bf_exact i p : ps !! i = Some p -> is_Some (D !! Z.of_nat i) <-> needs_buffer p = true;
  bf_size i p o z : ps !! i = Some p -> D !! Z.of_nat i = Some (o, z) -> p_hbm_used p <= buffer_size p <= z;
  bf_used o z : used_region t' o z <-> used_region t o z \/ exists i, D !! i = Some (o, z);
  bf_disjoint i o z o' z' : D !! i = Some (o, z) -> used_region t o' z' \/ (exists j, j <> i ∧ D !! j = Some (o', z')) ->
    disjoint_regions o z o' z';
}.

Lemma reserved_buffers t e D t' :
  length (e_processes e) = 64%nat -> Forall ready (e_processes e) -> reserved e t D t' ->
  (forall i p, i ∈ seqZ 0 MAX_PROCESSES_PER_VNPU -> e_processes e !! Z.to_nat i = Some p -> needs_buffer p = true -> is_Some (D !! i)) ->
  buffers_for t t' (e_processes e) D.
Proof.
  intros Hlen Hready HR Hall. constructor.
  - intros i p Hp. pose proof (lookup_lt_Some _ _ _ Hp) as Hi. split.
    + intros [[o z] Ho]. destruct (res_need _ _ _ _ HR _ _ _ Ho) as (_ & q & Hq & Hn & _). rewrite Nat2Z.id, Hp in Hq. by injection Hq as <-.
    + apply Hall; [apply elem_of_seqZ; unfold MAX_PROCESSES_PER_VNPU; lia|by rewrite Nat2Z.id].
  - intros i p o z Hp Ho. destruct (res_need _ _ _ _ HR _ _ _ Ho) as (_ & q & Hq & Hn & Hz). rewrite Nat2Z.id, Hp in Hq. injection Hq as <-.
    pose proof (Forall_lookup_1 _ _ _ _ Hready Hp Hn) as (_ & _ & Hu). pose proof (buffer_size_bounds p Hu). lia.
  - apply (res_used _ _ _ _ HR).
  - intros i o z o' z' Ho Hcase. apply (inv_used_disjoint t'); [apply (res_inv _ _ _ _ HR)|apply (res_used _ _ _ _ HR); eauto| |].
    + apply (res_used _ _ _ _ HR). destruct Hcase as [?|(j & _ & ?)]; eauto.
    + intros [= <- <-]. destruct Hcase as [Hu|(j & Hne & Hj)]; [by eapply (res_new _ _ _ _ HR)|].
      by apply Hne, (res_inj _ _ _ _ HR _ _ _ _ _ Hj Ho).
Qed.

Section command.
  Context `{SC : Securec} {S : Type} `{!Storage S}.
  Context (now : Z) (a : npu_allocator S) (phy : Z) (s : shm_state) (v : Z) (e : vnpu_shm_entry).
  Hypothesis Hwf : mgr_wf (a_shm a).
  Hypothesis Hs : shm_manager_get_state (a_shm a) phy = Some s.
  Hypothesis He : find_entry s v = Some e.
  Hypothesis Hseq : 0 <= cmd_seq (st_swap_cmd s) < U64_MOD - 1.
  Hypothesis Hold : Forall (fun p => p_ack_pending_seq p <= cmd_seq (st_swap_cmd s)) (e_processes e).

(** The command when the buffers are there. *)
Lemma command_written D t' pod flag :
  (String.length pod < 64)%nat ->
  exists s', npu_allocator_write_swap_cmd now (set_a_tlsf t' (set_a_shm (set_state phy (die_with s v e D) (a_shm a)) a)) phy pod v SWAP_ACTION_OUT flag
      = Some (ENPU_SUCCESS, set_a_tlsf t' (set_a_shm (set_state phy s' (a_shm a)) a))
    ∧ Owes s' v (cmd_seq (st_swap_cmd s) + 1) (active_slots (e_processes e))
    ∧ find_entry s' v = Some (set_e_processes (mark_ack (cmd_seq (st_swap_cmd s) + 1) <$> with_buffers D (e_processes e)) e)
    ∧ forall w, w <> v -> find_entry s' w = find_entry s w.
Proof.
  intros Hpod. destruct (find_entry_at _ _ _ He) as (Hv & _ & Hat). pose proof (wf_state _ Hwf _ _ Hs) as Hsw.
  pose proof (get_state_range _ _ _ Hs) as Hp. set (s1 := die_with s v e D). set (e1 := set_e_processes (with_buffers D (e_processes e)) e).
  assert (Hfind : forall w, find_entry s1 w = if decide (w = v) then Some e1 else find_entry s w) by (intros w; by apply (find_entry_put s v e)).
  assert (Hwf1 : mgr_wf (set_state phy s1 (a_shm a))).
  { apply set_state_wf; [done..|]. apply put_entry_wf; [done|]. unfold entry_wf. cbn. rewrite with_buffers_length. by eapply entry_at_entry_wf. }
  destruct (write_out_owes (set_state phy s1 (a_shm a)) phy s1 v e1 pod flag now) as (s' & E & HO & Hf); [done| | |done|done| |].
  - rewrite get_state_set by (done || apply (wf_states _ Hwf)). by rewrite decide_True.
  - rewrite Hfind. by rewrite decide_True.
  - by apply with_buffers_acks.
  - exists s'. unfold npu_allocator_write_swap_cmd. cbn [a_shm set_a_shm set_a_tlsf]. rewrite E. cbn [mbind option_bind].
    split; [|split; [|split]].
    + do 2 f_equal. unfold set_a_shm, set_a_tlsf. cbn. f_equal. unfold set_state. cbn. by rewrite list_insert_insert_eq.
    + cbn [e1 e_processes set_e_processes] in HO. by rewrite with_buffers_active in HO.
    + rewrite Hf, decide_True by done. done.
    + intros w Hw. rewrite Hf, decide_False by done. by rewrite Hfind, decide_False.
Qed.

End command.

(** C7. A swap-out command reserves the buffers of all processes of the vNPU or
    of none.  When the previous command of the die is completed, some process
    of the live vNPU is active, and the active processes that are not swapped
    out hold no buffer, then the resolver either fails and leaves the shared
    memory and the regions of the pool as they were (the buffers reserved
    before the failure are given back); or it succeeds: exactly the active
    processes that are not swapped out and use memory get a buffer at least
    as large as the memory they use, disjoint from all other regions in use,
    no other vNPU changes, and the command waits for exactly the active
    processes. *)
Theorem swap_out_all_or_nothing `{SC : Securec} {S : Type} `{!Storage S} c cf now (a : npu_allocator S) phy s v e pod flag :
  (forall i t, lock_rc (c i t) = 0 ∧ malloc_fresh (c i t) t) -> (forall i, lock_rc (cf i) = 0) ->
  mgr_wf (a_shm a) -> Inv (a_tlsf a) -> shm_manager_get_state (a_shm a) phy = Some s -> find_entry s v = Some e ->
  cmd_completed (st_swap_cmd s) = true -> active_count (e_processes e) <> 0%nat -> Forall ready (e_processes e) ->
  0 <= cmd_seq (st_swap_cmd s) < U64_MOD - 1 -> Forall (fun p => p_ack_pending_seq p <= cmd_seq (st_swap_cmd s)) (e_processes e) ->
  (String.length pod < 64)%nat ->
  exists ret m' t', swap_resolver_write_swap_command c cf now a phy pod v SWAP_ACTION_OUT flag = Some (ret, set_a_tlsf t' (set_a_shm m' a)) ∧ Inv t'
    ∧ ((ret = -1 ∧ m' = a_shm a ∧ forall o z, used_region t' o z <-> used_region (a_tlsf a) o z)
       \/ (ret = ENPU_SUCCESS ∧ exists s' D, m' = set_state phy s' (a_shm a) ∧ Owes s' v (cmd_seq (st_swap_cmd s) + 1) (active_slots (e_processes e))
            ∧ find_entry s' v = Some (set_e_processes (mark_ack (cmd_seq (st_swap_cmd s) + 1) <$> with_buffers D (e_processes e)) e)
            ∧ (forall w, w <> v -> find_entry s' w = find_entry s w) ∧ buffers_for (a_tlsf a) t' (e_processes e) D)).
Proof.
  intros Hc Hcf Hwf Ht Hs He Hdone Hact Hready Hseq Hold Hpod. destruct (find_entry_at _ _ _ He) as (Hv & Hbit & Hat).
  pose proof (get_state_range _ _ _ Hs) as [Hp _]. pose proof (wf_state _ Hwf _ _ Hs) as Hsw.
  assert (Hbit' : bitmap_bit (st_bitmap s) v = Some true).
  { rewrite bitmap_bit_eq by done. rewrite bitmap_test_eq, (proj2 (in_die_spec v) Hv) in Hbit. by rewrite <- Hbit. }
  unfold swap_resolver_write_swap_command, npu_allocator_get_shm_state.
  rewrite (proj2 (Z.ltb_ge phy 0)), (proj2 (Z.ltb_ge v 0)) by lia. cbn [orb].
  change ((SWAP_ACTION_OUT <? SWAP_ACTION_NONE) || (SWAP_ACTION_IN <? SWAP_ACTION_OUT)) with false.
  change (SWAP_ACTION_OUT =? SWAP_ACTION_OUT) with true. cbn iota. rewrite Hs, Hdone, Hbit', Hat. cbn [negb mbind option_bind].
  rewrite bool_decide_eq_false_2 by done.
  destruct (reserve_loop s v e (a_tlsf a) Hsw Hv Hat Hready c cf (seqZ 0 MAX_PROCESSES_PER_VNPU) 0 ∅ (a_tlsf a) Hc Hcf)
    as [(t' & E & HR)|(D & t' & E & HR & _ & Hall)].
  - apply NoDup_seqZ.
  - apply Forall_forall. intros i Hi%elem_of_seqZ. unfold MAX_PROCESSES_PER_VNPU in Hi. lia.
  - by apply reserved_empty.
  - apply mask_of_empty.
  - intros i _. apply lookup_empty.
  - rewrite die_with_empty in E by done. rewrite E. cbn [mbind option_bind]. change (negb (-1 =? ENPU_SUCCESS)) with true. cbn iota.
    rewrite set_state_same by done. exists (-1), (a_shm a), t'. split; [done|]. split; [apply (res_inv _ _ _ _ HR)|]. left.
    split; [done|]. split; [done|]. intros o z. rewrite (res_used _ _ _ _ HR). split; [|by left].
    intros [?|[i Hi]]; [done|by rewrite lookup_empty in Hi].
  - rewrite die_with_empty in E by done. rewrite E. cbn [mbind option_bind]. change (negb (ENPU_SUCCESS =? ENPU_SUCCESS)) with false. cbn iota.
    destruct (command_written now a phy s v e Hwf Hs He Hseq Hold D t' pod flag Hpod) as (s' & -> & HO & Hf & Hw).
    exists ENPU_SUCCESS, (set_state phy s' (a_shm a)), t'. split; [done|]. split; [apply (res_inv _ _ _ _ HR)|]. right. split; [done|].
    exists s', D. do 4 (split; [done|]). apply reserved_buffers; [by eapply entry_at_entry_wf|done..].
Qed.

(** A [malloc] that always finds a fresh header. *)
Definition libc_fresh (t : TLSFManager) : libc := mk_libc 0 (Some (fresh (dom (heap t)), 0)).

Lemma libc_fresh_ok t : lock_rc (libc_fresh t) = 0 ∧ malloc_fresh (libc_fresh t) t.
Proof. split; [done|]. intros l junk [= <- _]. apply not_elem_of_dom, is_fresh. Qed.

(** A vNPU with two processes on a pool of one page: the second buffer does not
    fit and the first one is given back. *)
Definition reserve_demo : npu_allocator memory_adapter :=
  set_a_tlsf pool4096 (set_a_shm (ex_mgr [10]
    (set_st_cmds (set_cmd_completed true swap_cmd0) swap_out_cmd0
       (ex_state [ex_entry 0 8192 1 [ex_process 7 0 100 false 0 0; ex_process 8 0 4096 false 0 0]])))
    (demo_alloc memory_storage_adapter_create)).

Lemma swap_out_all_or_nothing_witness :
  exists m' t', swap_resolver_write_swap_command (SC := securec_ref) (fun _ => libc_fresh) (fun _ => libc1) 1 reserve_demo 0 "pod-idle" 0 SWAP_ACTION_OUT SWAP_OUT_NONE
      = Some (-1, set_a_tlsf t' (set_a_shm m' reserve_demo))
    ∧ m' = a_shm reserve_demo ∧ forall o z, used_region t' o z <-> used_region pool4096 o z.
Proof.
  destruct (shm_manager_get_state (a_shm reserve_demo) 0) as [s|] eqn:Hs; [|vm_compute in Hs; discriminate Hs].
  destruct (find_entry s 0) as [e|] eqn:He; [|vm_compute in Hs; injection Hs as <-; vm_compute in He; discriminate He].
  destruct (swap_out_all_or_nothing (SC := securec_ref) (fun _ => libc_fresh) (fun _ => libc1) 1 reserve_demo 0 s 0 e "pod-idle" SWAP_OUT_NONE)
    as (ret & m' & t' & E & _ & Hcases).
  - intros _. exact libc_fresh_ok.
  - reflexivity.
  - apply mgr_wfb_sound. vm_compute. reflexivity.
  - apply reach_inv, pool4096_reach.
  - exact Hs.
  - exact He.
  - vm_compute in Hs. injection Hs as <-. reflexivity.
  - vm_compute in Hs. injection Hs as <-. vm_compute in He. injection He as <-. vm_compute. discriminate.
  - vm_compute in Hs. injection Hs as <-. vm_compute in He. injection He as <-. repeat constructor; vm_compute; discriminate.
  - vm_compute in Hs. injection Hs as <-. vm_compute. by split.
  - vm_compute in Hs. injection Hs as <-. vm_compute in He. injection He as <-. repeat constructor; vm_compute; discriminate.
  - cbn. lia.
  - assert (Hret : fst <$> swap_resolver_write_swap_command (SC := securec_ref) (fun _ => libc_fresh) (fun _ => libc1) 1 reserve_demo 0 "pod-idle" 0
      SWAP_ACTION_OUT SWAP_OUT_NONE = Some (-1)) by (vm_compute; reflexivity).
    rewrite E in Hret. cbn [fmap option_fmap option_map fst] in Hret. injection Hret as ->.
    destruct Hcases as [(_ & Hm & Hu)|(Hret & _)]; [|discriminate Hret]. exists m', t'. split; [exact E|]. split; [exact Hm|exact Hu].
Defined.

(** A vNPU of the allocator whose process uses memory, on a die that is told to
    swap it out; then a second container is placed on the die.  The answer
    is what the process and the command look like before and after the
    resolver looks for buffers to give back: whether the command is pending,
    the ack that the process owes, the size of its buffer, and the bytes of
    the pool in use. *)
Definition race_view {S} (a : npu_allocator S) : option (bool * Z * Z * Z) :=
  s ← shm_manager_get_state (a_shm a) 0; p ← process_at s 0 0;
  Some (swap_resolver_is_swap_pending a 0, p_ack_pending_seq p, p_swap_size p, total_used (a_tlsf a)).
Definition with_process {S} (p : process_entry) (a : npu_allocator S) : npu_allocator S :=
  match shm_manager_get_state (a_shm a) 0 with Some s => set_a_shm (set_state 0 (put_process 0 0 p s) (a_shm a)) a | None => a end.

(** Placing a vNPU on a die completes the swap-out command that is in flight
    there: the allocation initialises the state of the die again, which marks
    the command as completed although its process still owes the ack, and the
    next round of the resolver frees the buffer that this process is about
    to write. *)
Theorem allocation_completes_swap_out :
  let a0 := demo_alloc memory_storage_adapter_create in
  let a1 := demo_next (npu_allocator_allocate (SC := securec_ref) demo_env a0 (demo_req "p" "c") alloc_response0) a0 in
  let a2 := set_a_tlsf pool4096 (with_process (ex_process 7 0 100 false 0 0) a1) in
  ('(ret3, a3) ← swap_resolver_write_swap_command (SC := securec_ref) (fun _ => libc_fresh) (fun _ => libc1) 1 a2 0 "pod-idle" 0
                   SWAP_ACTION_OUT SWAP_OUT_NONE;
   '(ret4, _, _, a4) ← npu_allocator_allocate (SC := securec_ref) demo_env a3 (demo_req "q" "c") alloc_response0;
   '(ret5, a5) ← swap_resolver_check_and_swap_in (fun _ _ => libc1) a4 0;
   Some ((ret3, race_view a3), (ret4, race_view a4), (ret5, race_view a5)))
  = Some ((ENPU_SUCCESS, Some (true, 1, 4096, 4096)), (ENPU_SUCCESS, Some (false, 1, 4096, 4096)), (ENPU_SUCCESS, Some (false, 1, 0, 0))).
Proof. vm_compute. reflexivity. Qed.
