(* ===== verification/Watchdog.v ===== *)
(** The watchdog of the pods (enpu-manager/core/src/pod_watchdog.c): it takes
    the vNPUs and processes that stopped giving signs of life out of the
    shared memory, gives their buffers back and answers the swap-out command
    for them.

    The swap buffers are those of the pool of the shared-memory manager; [now]
    is the clock, and [libc] answers the calls of the pool. *)

From S2P Require Import Prelude CLib SwapTlsf ShmManager RtShm.

Definition POD_ALIVE_TIMEOUT_NS : Z := 5000000000.
Definition PROCESS_ALIVE_TIMEOUT_NS : Z := 5000000000.

(** [struct timespec] of [CLOCK_MONOTONIC]. *)
Definition wd_now_ns (tv_sec tv_nsec : Z) : Z := u64 (u64 (u64 tv_sec * 1000000000) + u64 tv_nsec).

(** Whether the watchdog is created. *)
Definition pod_watchdog_create (has_shm_mgr has_swap_buf_mgr calloc_ok : bool) : bool := has_shm_mgr && has_swap_buf_mgr && calloc_ok.

(** The shared memory and the pool. *)
Abbreviation world := (shm_manager * TLSFManager)%type.

Definition pod_watchdog_cleanup_swap_data (c : Z -> libc) (phy_id vnpu_id : Z) (w : world) : option (Z * world) :=
  let '(m, t) := w in
  let '(ret, r) := shm_manager_get_swap_state m phy_id vnpu_id in
  if negb (ret =? ENPU_SUCCESS) then Some (ret, w)
  else
    let '(swapped, _, _) := default (false, 0, 0) r in
    if negb (swapped : bool) then Some (ENPU_SUCCESS, w)
    else
      '(m1, t1) ← (match shm_manager_get_state m phy_id with
                   | None => Some (m, t)
                   | Some s => '(_, s1, t1) ← shm_free c s t vnpu_id; Some (set_state phy_id s1 m, t1)
                   end);
      Some ((shm_manager_set_swap_state m1 phy_id vnpu_id 0 0).1, (m1, t1)).

(** * Resetting a vNPU *)

Definition reset_process (p : process_entry) : process_entry := mk_process (p_vcann_rt_id p) (p_pid p) false false 0 0 0 0 0.

Definition set_last_alive (x : Z) (k : sched_slot) : sched_slot :=
  mk_sched_slot x (last_kernel_time_ns k) (vnpu_schedule_turn k) (vnpu_core_limit_quota k) (vnpu_priority k) (vnpu_quota_timeslice k)
    (vnpu_cur_timeslice k) (vnpu_quota_injected_for_turn k) (vnpu_sync_expected k) (vnpu_sync_completed k) (vnpu_turn_max_sync k)
    (vnpu_timeslice_for_turn k).

(** [atomic_store(&sched->last_alive_time_ns[vnpu_id], x)]; the array has
    [MAX_VNPU_SCHED] elements. *)
Definition store_alive (vnpu_id x : Z) (sc : vnpu_time_slice_sched) : option vnpu_time_slice_sched :=
  k ← sched_slots sc !! Z.to_nat vnpu_id;
  Some (mk_sched (<[Z.to_nat vnpu_id := set_last_alive x k]> (sched_slots sc)) (sched_owner sc) (sched_magic_number sc)
          (sched_slide_window_len sc) (sched_last_slide_window_time_ns sc)).

Definition reset_entry (e : vnpu_shm_entry) : vnpu_shm_entry := set_e_hbm_used 0 (set_e_processes (reset_process <$> e_processes e) e).

Definition reset_runtime_state (phy_id vnpu_id : Z) (m : shm_manager) : option shm_manager :=
  s ← shm_manager_get_state m phy_id;
  e ← entry_at s vnpu_id;
  let m1 := set_state phy_id (put_entry vnpu_id (reset_entry e) s) m in
  match shm_manager_get_sched_struct m1 phy_id with
  | None => Some m1
  | Some sc => sc1 ← store_alive vnpu_id 0 sc; Some (set_sched phy_id sc1 m1)
  end.

(** * Dead processes *)

Definition set_p_heartbeat (x : Z) (p : process_entry) : process_entry :=
  mk_process (p_vcann_rt_id p) (p_pid p) (p_swapped p) (p_active p) x (p_hbm_used p) (p_swap_offset p) (p_swap_size p) (p_ack_pending_seq p).
Definition set_p_hbm_used (x : Z) (p : process_entry) : process_entry :=
  mk_process (p_vcann_rt_id p) (p_pid p) (p_swapped p) (p_active p) (p_last_heartbeat_ns p) x (p_swap_offset p) (p_swap_size p) (p_ack_pending_seq p).
Definition set_p_free (p : process_entry) : process_entry :=
  mk_process (p_vcann_rt_id p) (p_pid p) false false (p_last_heartbeat_ns p) (p_hbm_used p) (p_swap_offset p) (p_swap_size p) (p_ack_pending_seq p).

(** A store to the process in a slot. *)
Definition on_process (phy_id v i : Z) (f : process_entry -> process_entry) (m : shm_manager) : option shm_manager :=
  s ← shm_manager_get_state m phy_id; p ← process_at s v i; Some (set_state phy_id (put_process v i (f p) s) m).

(** The watchdog acks for a process that still owes an ack. *)
Definition proxy_if_owed (phy_id v i : Z) (m : shm_manager) : option shm_manager :=
  s ← shm_manager_get_state m phy_id; p ← process_at s v i;
  if negb (p_ack_pending_seq p =? 0) then '(_, m1) ← shm_manager_proxy_ack_process m phy_id v i; Some m1 else Some m.

Definition free_if_held (c : libc) (phy_id v i : Z) (w : world) : option world :=
  s ← shm_manager_get_state w.1 phy_id; p ← process_at s v i;
  if 0 <? p_swap_size p then '(_, s1, t1) ← shm_free_per_process c s w.2 v i; Some (set_state phy_id s1 w.1, t1) else Some w.

(** What the process used is taken off the vNPU. *)
Definition return_hbm (phy_id v i : Z) (m : shm_manager) : option shm_manager :=
  s ← shm_manager_get_state m phy_id; e ← entry_at s v; p ← process_at s v i;
  if 0 <? p_hbm_used p
  then on_process phy_id v i (set_p_hbm_used 0)
         (set_state phy_id (put_entry v (set_e_hbm_used (u64 (e_hbm_used e - p_hbm_used p)) e) s) m)
  else Some m.

Definition reap_slot (c : Z -> Z -> libc) (now_ns timeout_ns phy_id v i : Z) (w : world) : option world :=
  let '(m, t) := w in
  s ← shm_manager_get_state m phy_id;
  p ← process_at s v i;
  if negb (p_active p) then
    m1 ← proxy_if_owed phy_id v i m;
    free_if_held (c v i) phy_id v i (m1, t)
  else
    let hb := p_last_heartbeat_ns p in
    if hb =? 0 then Some w
    else if now_ns <? hb then m1 ← on_process phy_id v i (set_p_heartbeat 0) m; Some (m1, t)
    else if u64 (now_ns - hb) <=? timeout_ns then Some w
    else
      m1 ← proxy_if_owed phy_id v i m;
      m2 ← return_hbm phy_id v i m1;
      '(m3, t3) ← free_if_held (c v i) phy_id v i (m2, t);
      m4 ← on_process phy_id v i set_p_free m3;
      Some (m4, t3).

Definition reap_dead_processes (c : Z -> Z -> libc) (now_ns timeout_ns phy_id : Z) (w : world) : option world :=
  ofoldl (fun v => ofoldl (reap_slot c now_ns timeout_ns phy_id v) (seqZ 0 MAX_PROCESSES_PER_VNPU)) (seqZ 0 MAX_VNPU_PER_DIE) w.

(** * The poll *)

(** One live vNPU of a die. *)
Definition poll_vnpu (c : Z -> libc) (now_ns phy_id vnpu_id : Z) (w : world) : option world :=
  let '(m, t) := w in
  sc ← shm_manager_get_sched_struct m phy_id;
  k ← sched_slots sc !! Z.to_nat vnpu_id;
  let last_alive := last_alive_time_ns k in
  if last_alive =? 0 then Some w
  else if now_ns <? last_alive then sc1 ← store_alive vnpu_id 0 sc; Some (set_sched phy_id sc1 m, t)
  else if u64 (now_ns - last_alive) <=? POD_ALIVE_TIMEOUT_NS then Some w
  else
    let was_swapped := default false (shm_manager_get_vnpu_all_swapped m phy_id vnpu_id).2 in
    '(m1, t1) ← (if (was_swapped : bool) then '(_, w1) ← pod_watchdog_cleanup_swap_data c phy_id vnpu_id w; Some w1 else Some w);
    m2 ← ofoldl (proxy_if_owed phy_id vnpu_id) (seqZ 0 MAX_PROCESSES_PER_VNPU) m1;
    m3 ← reset_runtime_state phy_id vnpu_id m2;
    Some (m3, t1).

(** The bitmap is read once, before the loop. *)
Definition poll_die (c : Z -> Z -> libc) (now_ns phy_id : Z) (w : world) : option world :=
  match shm_manager_get_state w.1 phy_id with
  | None => Some w
  | Some s =>
      match shm_manager_get_sched_struct w.1 phy_id with
      | None => Some w
      | Some _ =>
          w1 ← ofoldl (fun v w => if vnpu_bitmap_test (st_bitmap s) v then poll_vnpu (c v) now_ns phy_id v w else Some w) (seqZ 0 MAX_VNPU_PER_DIE) w;
          '(m2, t2) ← reap_dead_processes c now_ns PROCESS_ALIVE_TIMEOUT_NS phy_id w1;
          '(_, m3) ← shm_manager_try_complete_swap_cmd m2 phy_id;
          Some (m3, t2)
      end
  end.

Definition pod_watchdog_poll_and_cleanup (c : Z -> Z -> Z -> libc) (now_ns : Z) (w : world) : option (Z * world) :=
  w1 ← ofoldl (fun phy => poll_die (c phy) now_ns phy) (seqZ 0 MAX_NPU_PER_NODE) w;
  Some (ENPU_SUCCESS, w1).
