(* ===== verification/WatchdogFacts.v ===== *)
(** Facts of the watchdog: what its steps keep of a die. *)

From S2P Require Import Prelude CLib SwapTlsf SwapTlsfProofs ShmManager ShmFacts RtShm NpuTree Evaluator Registry ConfigManager RollbackLog Allocator AllocInv AllocShm Watchdog.

(** * What every step keeps *)

(** The swap-out command is the same one, and it can only have been completed. *)
Record later (s s' : shm_state) : Prop := {
  la_wf : shm_wf s';
  la_bitmap : st_bitmap s' = st_bitmap s;
  la_seq : cmd_seq (st_swap_cmd s') = cmd_seq (st_swap_cmd s);
  la_target : cmd_target_vnpu_id (st_swap_cmd s') = cmd_target_vnpu_id (st_swap_cmd s);
  la_action : cmd_action (st_swap_cmd s') = SWAP_ACTION_OUT -> cmd_action (st_swap_cmd s) = SWAP_ACTION_OUT;
}.

Lemma later_refl s : shm_wf s -> later s s.
Proof. by constructor. Qed.

Lemma later_trans s1 s2 s3 : later s1 s2 -> later s2 s3 -> later s1 s3.
Proof. intros [A1 A2 A3 A4 A5] [B1 B2 B3 B4 B5]. constructor; [done|congruence..|auto]. Qed.

Lemma later_cmd s s' : shm_wf s' -> st_bitmap s' = st_bitmap s -> st_swap_cmd s' = st_swap_cmd s -> later s s'.
Proof. intros H1 H2 H3. constructor; [done|done|by rewrite H3..]. Qed.

(** The world of a poll of the die [phy], which started with [m0]. *)
Record die_ok (m0 : shm_manager) (phy : Z) (w : world) (s : shm_state) : Prop := {
  do_wf : mgr_wf w.1;
  do_tlsf : tlsf_ok w.2;
  do_state : shm_manager_get_state w.1 phy = Some s;
  do_sched : is_Some (shm_manager_get_sched_struct w.1 phy);
  do_frame phy' : phy' <> phy ->
    shm_manager_get_state w.1 phy' = shm_manager_get_state m0 phy' ∧ shm_manager_get_sched_struct w.1 phy' = shm_manager_get_sched_struct m0 phy';
}.

Lemma get_sched_set_state m phy s phy' : shm_manager_get_sched_struct (set_state phy s m) phy' = shm_manager_get_sched_struct m phy'.
Proof. done. Qed.

Lemma get_state_set_sched m phy sc phy' : shm_manager_get_state (set_sched phy sc m) phy' = shm_manager_get_state m phy'.
Proof. done. Qed.

Lemma die_ok_set m0 phy m t s s' t' :
  die_ok m0 phy (m, t) s -> shm_wf s' -> tlsf_ok t' -> die_ok m0 phy (set_state phy s' m, t') s'.
Proof.
  intros [H1 H2 H3 H4 H5] Hs Ht. cbn [fst snd] in *. pose proof (get_state_range _ _ _ H3) as Hp.
  assert (Hget : forall phy', shm_manager_get_state (set_state phy s' m) phy' = if decide (phy' = phy) then Some s' else shm_manager_get_state m phy').
  { intros phy'. apply get_state_set; [apply (wf_states _ H1)|done]. }
  constructor; cbn [fst snd]; [by apply set_state_wf|done|by rewrite Hget, decide_True|done|].
  intros phy' Hne. rewrite Hget, decide_False by done. by apply H5.
Qed.

Lemma die_ok_sched m0 phy m t s sc : die_ok m0 phy (m, t) s -> sched_wf sc -> die_ok m0 phy (set_sched phy sc m, t) s.
Proof.
  intros [H1 H2 H3 [sc0 H4] H5] Hs. cbn [fst snd] in *. pose proof (get_state_range _ _ _ H3) as Hp.
  assert (Hget : forall phy', shm_manager_get_sched_struct (set_sched phy sc m) phy' = if decide (phy' = phy) then Some sc else shm_manager_get_sched_struct m phy').
  { intros phy'. apply get_sched_set; [apply (wf_scheds _ H1)|done]. }
  constructor; cbn [fst snd]; [by apply set_sched_wf|done|done|rewrite Hget, decide_True by done; by eexists|].
  intros phy' Hne. rewrite Hget, decide_False by done. by apply H5.
Qed.

(** * Steps on one slot *)

(** Only the process in slot [i] of [v] changed, and it is [p] now. *)
Record slot_step (v i : Z) (s s' : shm_state) (p : process_entry) : Prop := {
  ss_later : later s s';
  ss_frame v' i' : 0 <= v' -> 0 <= i' -> (v', i') <> (v, i) -> process_at s' v' i' = process_at s v' i';
  ss_here : process_at s' v i = Some p;
}.

Lemma slot_step_trans v i s1 s2 s3 p2 p3 : slot_step v i s1 s2 p2 -> slot_step v i s2 s3 p3 -> slot_step v i s1 s3 p3.
Proof.
  intros [A1 A2 A3] [B1 B2 B3]. constructor; [by eapply later_trans| |done]. intros v' i' H1 H2 Hne. by rewrite B2, A2.
Qed.

Lemma slot_step_refl v i s p : shm_wf s -> process_at s v i = Some p -> slot_step v i s s p.
Proof. intros Hwf Hp. constructor; [by apply later_refl|done|done]. Qed.

Section slot.
  Context (v i : Z).
  Hypothesis Hv : 0 <= v < 128.
  Hypothesis Hi : 0 <= i < 64.

Lemma process_wf s : shm_wf s -> exists e p, entry_at s v = Some e ∧ entry_wf e ∧ e_processes e !! Z.to_nat i = Some p ∧ process_at s v i = Some p.
Proof.
  intros Hwf. destruct (entry_at_wf s v Hwf Hv) as (e & He & Hl). destruct (process_at_wf s v e i Hwf He Hi) as (p & Hp & Hp').
  by exists e, p.
Qed.

Lemma process_at_put_entry s e v' i' :
  shm_wf s -> 0 <= v' -> process_at (put_entry v e s) v' i' = if decide (v' = v) then (if i' <? 0 then None else e_processes e !! Z.to_nat i') else process_at s v' i'.
Proof. intros Hwf H0. unfold process_at. rewrite entry_at_put by done. by destruct (decide (v' = v)). Qed.

Lemma slot_step_put s p : shm_wf s -> slot_step v i s (put_process v i p s) p.
Proof.
  intros Hwf. destruct (process_wf s Hwf) as (e & q & He & Hl & Hq & Hp). rewrite (put_process_eq s v e) by done.
  assert (Hput : forall v' i', 0 <= v' -> process_at (put_entry v (set_e_processes (<[Z.to_nat i := p]> (e_processes e)) e) s) v' i' =
    if decide (v' = v) then (if i' <? 0 then None else <[Z.to_nat i := p]> (e_processes e) !! Z.to_nat i') else process_at s v' i').
  { intros v' i' H0. by apply process_at_put_entry. }
  constructor.
  - apply later_cmd; [|done..]. apply put_entry_wf; [done|]. unfold entry_wf. cbn. by rewrite length_insert.
  - intros v' i' Hv' Hi' Hne. rewrite Hput by done. destruct (decide (v' = v)) as [->|]; [|done].
    unfold process_at. rewrite He. cbn [mbind option_bind]. rewrite (proj2 (Z.ltb_ge i' 0)) by lia. apply list_lookup_insert_ne. intros E. apply Hne. f_equal. lia.
  - rewrite Hput, decide_True by lia. rewrite (proj2 (Z.ltb_ge i 0)) by lia. apply list_lookup_insert_eq. by eapply lookup_lt_Some.
Qed.

Lemma slot_step_cmds s c o p :
  shm_wf s -> process_at s v i = Some p -> cmd_seq c = cmd_seq (st_swap_cmd s) -> cmd_target_vnpu_id c = cmd_target_vnpu_id (st_swap_cmd s) ->
  (cmd_action c = SWAP_ACTION_OUT -> cmd_action (st_swap_cmd s) = SWAP_ACTION_OUT) -> slot_step v i s (set_st_cmds c o s) p.
Proof. intros Hwf Hp H1 H2 H3. constructor; [constructor; [by apply set_cmds_wf|done..]|done|done]. Qed.

End slot.

(** * The steps of the watchdog on a slot *)

(** The ack of the command [s] that the process may owe. *)
Definition answered (s : shm_state) (p : process_entry) : Prop :=
  cmd_action (st_swap_cmd s) = SWAP_ACTION_OUT -> cmd_seq (st_swap_cmd s) <> 0 -> p_ack_pending_seq p <> cmd_seq (st_swap_cmd s).

Lemma answered_later s s' p : later s s' -> answered s p -> answered s' p.
Proof. intros HL H Ha Hq. rewrite (la_seq _ _ HL) in *. apply H; [by apply (la_action _ _ HL)|done]. Qed.

(** Same process, apart from the ack. *)
Definition acked (p p' : process_entry) : Prop := p' = p \/ p' = set_p_ack 0 p.

(** The state of the die, its shape and range, and the pool. *)
Ltac open_die HD :=
  pose proof (do_state _ _ _ _ HD) as Hs; cbn [fst] in Hs;
  pose proof (wf_state _ (do_wf _ _ _ _ HD) _ _ Hs) as Hwf;
  pose proof (get_state_range _ _ _ Hs) as [H0 _];
  pose proof (do_tlsf _ _ _ _ HD) as Ht; cbn [snd] in Ht.

Section steps.
  Context (m0 : shm_manager) (phy v i : Z).
  Hypothesis Hv : 0 <= v < 128.
  Hypothesis Hi : 0 <= i < 64.

Lemma proxy_if_owed_spec m t s p :
  die_ok m0 phy (m, t) s -> process_at s v i = Some p ->
  exists s' p', proxy_if_owed phy v i m = Some (set_state phy s' m) ∧ die_ok m0 phy (set_state phy s' m, t) s'
    ∧ slot_step v i s s' p' ∧ acked p p' ∧ answered s' p'.
Proof.
  intros HD Hp. open_die HD.
  enough (exists s' p', proxy_if_owed phy v i m = Some (set_state phy s' m) ∧ slot_step v i s s' p' ∧ acked p p' ∧ answered s' p')
    as (s' & p' & E & HS & Hcase).
  { exists s', p'. split; [done|]. split; [|done]. eapply die_ok_set; [done|apply (la_wf _ _ (ss_later _ _ _ _ _ HS))|done]. }
  unfold proxy_if_owed. rewrite Hs. cbn [mbind option_bind]. rewrite Hp. cbn [mbind option_bind].
  destruct (Z.eqb_spec (p_ack_pending_seq p) 0) as [Hack|Hack]; cbn [negb].
  { exists s, p. rewrite set_state_same by done. split; [done|]. split; [by apply slot_step_refl|]. split; [by left|]. intros _ Hq. by rewrite Hack. }
  unfold shm_manager_proxy_ack_process. rewrite (proj2 (Z.ltb_ge phy 0)) by lia.
  rewrite (proj2 (in_die_spec v) Hv), (proj2 (slot_range_spec i) Hi). cbn [negb orb].
  unfold with_state. rewrite (proj2 (Z.ltb_ge phy 0)) by lia. rewrite Hs.
  destruct (Z.eqb_spec (cmd_action (st_swap_cmd s)) SWAP_ACTION_OUT) as [Hout|Hout]; cbn [negb mbind option_bind].
  2:{ exists s, p. split; [done|]. split; [by apply slot_step_refl|]. split; [by left|]. intros H. done. }
  destruct (Z.eqb_spec (cmd_seq (st_swap_cmd s)) 0) as [Hq|Hq]; cbn [mbind option_bind].
  { exists s, p. split; [done|]. split; [by apply slot_step_refl|]. split; [by left|]. intros _ H. done. }
  rewrite Hp. cbn [mbind option_bind]. set (s1 := put_process v i (set_p_ack 0 p) s).
  pose proof (slot_step_put v i Hv Hi s (set_p_ack 0 p) Hwf) as HS1. fold s1 in HS1.
  pose proof (la_wf _ _ (ss_later _ _ _ _ _ HS1)) as Hwf1. pose proof (ss_here _ _ _ _ _ HS1) as Hp1.
  destruct (Z.eqb_spec (p_ack_pending_seq p) (cmd_seq (st_swap_cmd s))) as [He|He]; cbn [negb mbind option_bind].
  2:{ exists s1, (set_p_ack 0 p). split; [done|]. split; [done|]. split; [by right|]. intros _ H. cbn. done. }
  set (s2 := set_st_cmds _ _ s1).
  assert (HS2 : slot_step v i s1 s2 (set_p_ack 0 p)) by by apply slot_step_cmds.
  assert (HS3 : slot_step v i s2 (swap_cmd_mark_completed_locked s2) (set_p_ack 0 p)).
  { apply slot_step_cmds; [by apply set_cmds_wf|apply (ss_here _ _ _ _ _ HS2)|done..]. }
  eexists _, (set_p_ack 0 p). split; [reflexivity|]. split; [|split; [by right|]].
  - eapply slot_step_trans; [exact HS1|]. destruct (swap_cmd_has_pending_ack_locked s2 v _); [done|by eapply slot_step_trans].
  - intros _ H. cbn. done.
Qed.

Lemma free_if_held_spec c m t s p :
  die_ok m0 phy (m, t) s -> process_at s v i = Some p ->
  exists s' t' p', free_if_held c phy v i (m, t) = Some (set_state phy s' m, t') ∧ die_ok m0 phy (set_state phy s' m, t') s'
    ∧ slot_step v i s s' p' ∧ p_swap_size p' <= 0 ∧ (p' = p \/ p' = set_p_swap 0 0 p).
Proof.
  intros HD Hp. open_die HD.
  unfold free_if_held. cbn [fst snd]. rewrite Hs. cbn [mbind option_bind]. rewrite Hp. cbn [mbind option_bind].
  destruct (Z.ltb_spec 0 (p_swap_size p)) as [Hsz|Hsz].
  2:{ exists s, t, p. rewrite set_state_same by done. split; [done|]. split; [done|]. split; [by apply slot_step_refl|]. split; [lia|by left]. }
  unfold shm_free_per_process. rewrite (proj2 (in_die_spec v) Hv), (proj2 (slot_range_spec i) Hi). cbn [negb orb]. rewrite Hp. cbn [mbind option_bind].
  rewrite (proj2 (Z.eqb_neq (p_swap_size p) 0)) by lia. unfold shm_swap_buffer_free_offset.
  destruct (tlsf_free_total c (p_swap_offset p) t Ht) as (t' & -> & Ht'). cbn [mbind option_bind].
  pose proof (slot_step_put v i Hv Hi s (set_p_swap 0 0 p) Hwf) as HS.
  exists (put_process v i (set_p_swap 0 0 p) s), t', (set_p_swap 0 0 p). split; [done|].
  split; [eapply die_ok_set; [done|apply (la_wf _ _ (ss_later _ _ _ _ _ HS))|done]|]. split; [done|]. split; [by cbn|by right].
Qed.

Lemma on_process_spec f m t s p :
  die_ok m0 phy (m, t) s -> process_at s v i = Some p ->
  exists s', on_process phy v i f m = Some (set_state phy s' m) ∧ die_ok m0 phy (set_state phy s' m, t) s' ∧ slot_step v i s s' (f p).
Proof.
  intros HD Hp. open_die HD.
  unfold on_process. rewrite Hs. cbn [mbind option_bind]. rewrite Hp. cbn [mbind option_bind].
  pose proof (slot_step_put v i Hv Hi s (f p) Hwf) as HS. eexists. split; [done|]. split; [|done].
  eapply die_ok_set; [done|apply (la_wf _ _ (ss_later _ _ _ _ _ HS))|done].
Qed.

Lemma return_hbm_spec m t s p :
  die_ok m0 phy (m, t) s -> process_at s v i = Some p ->
  exists m' s' p', return_hbm phy v i m = Some m' ∧ die_ok m0 phy (m', t) s' ∧ slot_step v i s s' p'
    ∧ p_ack_pending_seq p' = p_ack_pending_seq p.
Proof.
  intros HD Hp. open_die HD. destruct (process_wf v i Hv Hi s Hwf) as (e & q & He & Hl & Hq & Hp'). rewrite Hp in Hp'. injection Hp' as <-.
  unfold return_hbm. rewrite Hs. cbn [mbind option_bind]. rewrite He. cbn [mbind option_bind]. rewrite Hp. cbn [mbind option_bind].
  destruct (0 <? p_hbm_used p); [|exists m, s, p; split; [done|]; split; [done|]; split; [by apply slot_step_refl|done]].
  set (e1 := set_e_hbm_used _ e). set (s1 := put_entry v e1 s).
  assert (Hwf1 : shm_wf s1) by (apply put_entry_wf; [done|exact Hl]).
  assert (HS1 : slot_step v i s s1 p).
  { constructor; [by apply later_cmd| |].
    - intros v' i' Hv' Hi' Hne. unfold s1. rewrite process_at_put_entry by done. destruct (decide (v' = v)) as [->|]; [|done].
      unfold process_at. rewrite He. done.
    - unfold s1. rewrite process_at_put_entry, decide_True by (done || lia). rewrite (proj2 (Z.ltb_ge i 0)) by lia. exact Hq. }
  pose proof (die_ok_set m0 phy m t s s1 t HD Hwf1 Ht) as HD1.
  destruct (on_process_spec (set_p_hbm_used 0) _ t s1 p HD1 (ss_here _ _ _ _ _ HS1)) as (s2 & -> & HD2 & HS2).
  exists (set_state phy s2 (set_state phy s1 m)), s2, (set_p_hbm_used 0 p). split; [done|]. split; [done|]. split; [by eapply slot_step_trans|done].
Qed.

End steps.
