(* ===== verification/WatchdogThms.v ===== *)
(** Theorems of the watchdog: a poll leaves no dead process, and no command
    waits for one. *)

From S2P Require Import Prelude CLib SwapTlsf SwapTlsfProofs SwapTlsfThms ShmManager ShmFacts RtShm NpuTree Evaluator Registry ConfigManager RollbackLog Allocator AllocInv AllocShm SwapResolver SwapResolverFacts Watchdog WatchdogFacts.

(** The process gave a sign of life, or has not started to. *)
Definition fresh_heartbeat (now timeout : Z) (p : process_entry) : Prop :=
  p_last_heartbeat_ns p = 0 \/ (p_last_heartbeat_ns p <= now ∧ u64 (now - p_last_heartbeat_ns p) <= timeout).

(** What a reaped slot looks like: alive, or without a buffer and without a
    pending ack of the command. *)
Definition reaped (now timeout : Z) (s : shm_state) (p : process_entry) : Prop :=
  if p_active p then fresh_heartbeat now timeout p else p_swap_size p <= 0 ∧ answered s p.

Lemma reaped_later now timeout s s' p : later s s' -> reaped now timeout s p -> reaped now timeout s' p.
Proof. unfold reaped. intros HL. destruct (p_active p); [done|]. intros [? ?]. split; [done|by eapply answered_later]. Qed.

Section reap.
  Context (m0 : shm_manager) (phy : Z) (c : Z -> Z -> libc) (now timeout : Z).

Lemma reap_slot_spec v i m t s :
  0 <= v < 128 -> 0 <= i < 64 -> die_ok m0 phy (m, t) s ->
  exists w' s' p', reap_slot c now timeout phy v i (m, t) = Some w' ∧ die_ok m0 phy w' s' ∧ slot_step v i s s' p' ∧ reaped now timeout s' p'.
Proof.
  intros Hv Hi HD. open_die HD. destruct (process_wf v i Hv Hi s Hwf) as (_ & p & _ & _ & _ & Hp).
  unfold reap_slot. rewrite Hs. cbn [mbind option_bind]. rewrite Hp. cbn [mbind option_bind].
  destruct (p_active p) eqn:Ha; cbn [negb].
  - assert (Hkeep : fresh_heartbeat now timeout p -> exists w' s' p', Some (m, t) = Some w' ∧ die_ok m0 phy w' s' ∧ slot_step v i s s' p' ∧ reaped now timeout s' p').
    { intros Hf. exists (m, t), s, p. split; [done|]. split; [done|]. split; [by apply slot_step_refl|]. unfold reaped. by rewrite Ha. }
    destruct (Z.eqb_spec (p_last_heartbeat_ns p) 0) as [Hz|Hz]; [apply Hkeep; by left|].
    destruct (Z.ltb_spec now (p_last_heartbeat_ns p)) as [Hlt|Hge].
    { destruct (on_process_spec m0 phy v i Hv Hi (set_p_heartbeat 0) m t s p HD Hp) as (s1 & -> & HD1 & HS1). cbn [mbind option_bind].
      eexists _, s1, _. split; [reflexivity|]. split; [done|]. split; [exact HS1|]. unfold reaped. cbn. rewrite Ha. by left. }
    destruct (Z.leb_spec (u64 (now - p_last_heartbeat_ns p)) timeout) as [Hle|Hgt]; [apply Hkeep; by right|]. clear Hkeep.
    destruct (proxy_if_owed_spec m0 phy v i Hv Hi m t s p HD Hp) as (s1 & p1 & -> & HD1 & HS1 & _ & Hans). cbn [mbind option_bind].
    destruct (return_hbm_spec m0 phy v i Hv Hi _ t s1 p1 HD1 (ss_here _ _ _ _ _ HS1)) as (m2 & s2 & p2 & -> & HD2 & HS2 & Hp2). cbn [mbind option_bind].
    destruct (free_if_held_spec m0 phy v i Hv Hi (c v i) m2 t s2 p2 HD2 (ss_here _ _ _ _ _ HS2)) as (s3 & t3 & p3 & -> & HD3 & HS3 & Hsz & Hp3). cbn [mbind option_bind].
    destruct (on_process_spec m0 phy v i Hv Hi set_p_free _ t3 s3 p3 HD3 (ss_here _ _ _ _ _ HS3)) as (s4 & -> & HD4 & HS4). cbn [mbind option_bind].
    eexists _, s4, (set_p_free p3). split; [reflexivity|]. split; [exact HD4|]. split; [|unfold reaped; cbn [p_active set_p_free]; split; [exact Hsz|]].
    + eapply slot_step_trans; [exact HS1|]. eapply slot_step_trans; [exact HS2|]. by eapply slot_step_trans.
    + assert (HL : later s1 s4).
      { eapply later_trans; [apply HS2|]. eapply later_trans; [apply HS3|apply HS4]. }
      pose proof (answered_later _ _ _ HL Hans) as H. unfold answered in *. cbn. destruct Hp3 as [-> | ->]; cbn; by rewrite Hp2.
  - destruct (proxy_if_owed_spec m0 phy v i Hv Hi m t s p HD Hp) as (s1 & p1 & -> & HD1 & HS1 & Hack & Hans). cbn [mbind option_bind].
    destruct (free_if_held_spec m0 phy v i Hv Hi (c v i) _ t s1 p1 HD1 (ss_here _ _ _ _ _ HS1)) as (s2 & t2 & p2 & -> & HD2 & HS2 & Hsz & Hp2).
    eexists _, s2, p2. split; [reflexivity|]. split; [exact HD2|]. split; [by eapply slot_step_trans|].
    pose proof (answered_later _ _ _ (ss_later _ _ _ _ _ HS2) Hans) as H.
    assert (Hina : p_active p2 = false) by (destruct Hack as [-> | ->], Hp2 as [-> | ->]; exact Ha).
    unfold reaped. rewrite Hina. split; [exact Hsz|]. unfold answered in *. by destruct Hp2 as [-> | ->].
Qed.

(** The slots outside [todo] are reaped. *)
Definition reaped_but (todo : Z -> Z -> Prop) (s : shm_state) : Prop :=
  forall v i p, 0 <= v < 128 -> 0 <= i < 64 -> ~ todo v i -> process_at s v i = Some p -> reaped now timeout s p.

Lemma reaped_but_step todo todo' v i s s' p :
  0 <= v -> 0 <= i -> reaped_but todo s -> slot_step v i s s' p -> reaped now timeout s' p ->
  (forall v' i', (v', i') <> (v, i) -> todo v' i' -> todo' v' i') -> reaped_but todo' s'.
Proof.
  intros Hv Hi HB HS Hr Hsub v' i' q Hv' Hi' Hn Hq. destruct (decide ((v', i') = (v, i))) as [[= -> ->]|Hne].
  - rewrite (ss_here _ _ _ _ _ HS) in Hq. by injection Hq as <-.
  - rewrite (ss_frame _ _ _ _ _ HS) in Hq by (done || lia). eapply reaped_later; [apply HS|]. apply (HB v' i'); [done..| |done].
    intros Ht. by apply Hn, Hsub.
Qed.

Lemma reap_vnpu_spec v vs w s :
  0 <= v < 128 -> die_ok m0 phy w s -> reaped_but (fun v' _ => v' ∈ v :: vs) s ->
  exists w' s', ofoldl (reap_slot c now timeout phy v) (seqZ 0 MAX_PROCESSES_PER_VNPU) w = Some w' ∧ die_ok m0 phy w' s' ∧ later s s'
    ∧ reaped_but (fun v' _ => v' ∈ vs) s'.
Proof.
  intros Hv HD HB.
  destruct (ofoldl_total (reap_slot c now timeout phy v)
    (fun is' w' => Forall (fun i => 0 <= i < 64) is' ∧ exists s', die_ok m0 phy w' s' ∧ later s s' ∧ reaped_but (fun v' i' => v' ∈ vs \/ (v' = v ∧ i' ∈ is')) s')
    (seqZ 0 MAX_PROCESSES_PER_VNPU) w) as (w' & E & _ & s' & HD' & HL & HB').
  - split; [apply Forall_forall; intros i Hi%elem_of_seqZ; unfold MAX_PROCESSES_PER_VNPU in Hi; lia|].
    exists s. split; [done|]. split; [apply later_refl, (wf_state _ (do_wf _ _ _ _ HD) _ _ (do_state _ _ _ _ HD))|].
    intros v' i p Hv' Hi Hn. apply HB; [done..|]. intros [->|Hin]%elem_of_cons; apply Hn; [right|by left].
    split; [done|]. apply elem_of_seqZ. unfold MAX_PROCESSES_PER_VNPU. lia.
  - intros i is' [m t] [[Hi His]%Forall_cons (s1 & HD1 & HL1 & HB1)].
    destruct (reap_slot_spec v i m t s1 Hv Hi HD1) as (w2 & s2 & p & -> & HD2 & HS & Hr). exists w2. split; [done|]. split; [done|].
    exists s2. split; [done|]. split; [eapply later_trans; [done|apply HS]|].
    eapply reaped_but_step; [| |exact HB1|exact HS|exact Hr|]; [lia..|]. intros v' i' Hne [Hin|[-> Hin]]; [by left|].
    apply elem_of_cons in Hin as [->|Hin]; [done|by right].
  - exists w', s'. split; [done|]. split; [done|]. split; [done|]. intros v' i p Hv' Hi Hn. apply HB'; [done..|]. intros [?|[_ []%elem_of_nil]]. done.
Qed.

Lemma reap_spec w s :
  die_ok m0 phy w s ->
  exists w' s', reap_dead_processes c now timeout phy w = Some w' ∧ die_ok m0 phy w' s' ∧ later s s' ∧ reaped_but (fun _ _ => False) s'.
Proof.
  intros HD. unfold reap_dead_processes.
  destruct (ofoldl_total (fun v => ofoldl (reap_slot c now timeout phy v) (seqZ 0 MAX_PROCESSES_PER_VNPU))
    (fun vs w' => Forall (fun v => 0 <= v < 128) vs ∧ exists s', die_ok m0 phy w' s' ∧ later s s' ∧ reaped_but (fun v' _ => v' ∈ vs) s')
    (seqZ 0 MAX_VNPU_PER_DIE) w) as (w' & E & _ & s' & HD' & HL & HB').
  - split; [apply Forall_forall; intros i Hi%elem_of_seqZ; unfold MAX_VNPU_PER_DIE in Hi; lia|].
    exists s. split; [done|]. split; [apply later_refl, (wf_state _ (do_wf _ _ _ _ HD) _ _ (do_state _ _ _ _ HD))|].
    intros v i p Hv Hi Hn. destruct Hn. apply elem_of_seqZ. unfold MAX_VNPU_PER_DIE. lia.
  - intros v vs w1 [[Hv Hvs]%Forall_cons (s1 & HD1 & HL1 & HB1)].
    destruct (reap_vnpu_spec v vs w1 s1 Hv HD1 HB1) as (w2 & s2 & -> & HD2 & HL2 & HB2). exists w2. split; [done|]. split; [done|].
    exists s2. split; [done|]. split; [by eapply later_trans|done].
  - exists w', s'. split; [done|]. split; [done|]. split; [done|]. intros v i p Hv Hi _. apply HB'; [done..|]. by intros ?%elem_of_nil.
Qed.

End reap.

(** * A silent vNPU *)

Section poll.
  Context (m0 : shm_manager) (phy : Z) (now : Z).

Lemma store_alive_spec v x sc : sched_wf sc -> 0 <= v < 100 -> exists sc1, store_alive v x sc = Some sc1 ∧ sched_wf sc1.
Proof.
  intros Hsc Hv. red in Hsc. unfold store_alive. destruct (lookup_lt_is_Some_2 (sched_slots sc) (Z.to_nat v)) as [k Hk]; [lia|].
  rewrite Hk. cbn [mbind option_bind]. eexists. split; [done|]. red. cbn. by rewrite length_insert.
Qed.

Lemma cleanup_spec c v m t s :
  0 <= v < 128 -> die_ok m0 phy (m, t) s ->
  exists ret w' s', pod_watchdog_cleanup_swap_data c phy v (m, t) = Some (ret, w') ∧ die_ok m0 phy w' s' ∧ later s s'.
Proof.
  intros Hv HD. open_die HD. unfold pod_watchdog_cleanup_swap_data.
  destruct (shm_manager_get_swap_state m phy v) as [ret r]. destruct (negb (ret =? ENPU_SUCCESS)).
  { exists ret, (m, t), s. split; [done|]. split; [done|by apply later_refl]. }
  destruct (default (false, 0, 0) r) as [[[] ?] ?]; cbn [negb].
  2:{ exists ENPU_SUCCESS, (m, t), s. split; [done|]. split; [done|by apply later_refl]. }
  rewrite Hs. destruct (shm_free_spec c v s t Hwf Ht Hv) as (s' & t' & -> & Hsd & Ht'). cbn [mbind option_bind].
  eexists _, _, s'. split; [done|]. split; [by eapply die_ok_set; [| apply (sd_wf _ _ _ Hsd)|]|].
  apply later_cmd; [apply (sd_wf _ _ _ Hsd)|apply (sd_bitmap _ _ _ Hsd)|apply (sd_cmd _ _ _ Hsd)].
Qed.

Lemma proxy_all_spec v m t s :
  0 <= v < 128 -> die_ok m0 phy (m, t) s ->
  exists m' s', ofoldl (proxy_if_owed phy v) (seqZ 0 MAX_PROCESSES_PER_VNPU) m = Some m' ∧ die_ok m0 phy (m', t) s' ∧ later s s'.
Proof.
  intros Hv HD. open_die HD.
  destruct (ofoldl_total (proxy_if_owed phy v)
    (fun todo m' => Forall (fun i => 0 <= i < 64) todo ∧ exists s', die_ok m0 phy (m', t) s' ∧ later s s')
    (seqZ 0 MAX_PROCESSES_PER_VNPU) m) as (m' & E & _ & s' & HD' & HL).
  - split; [apply Forall_forall; intros i Hi%elem_of_seqZ; unfold MAX_PROCESSES_PER_VNPU in Hi; lia|].
    exists s. split; [done|by apply later_refl].
  - intros i todo m1 [[Hi Htodo]%Forall_cons (s1 & HD1 & HL1)].
    destruct (process_wf v i Hv Hi s1 (la_wf _ _ HL1)) as (_ & p & _ & _ & _ & Hp).
    destruct (proxy_if_owed_spec m0 phy v i Hv Hi m1 t s1 p HD1 Hp) as (s2 & p2 & E2 & HD2 & HS2 & _).
    eexists. split; [exact E2|]. split; [done|]. exists s2. split; [done|]. eapply later_trans; [done|apply HS2].
  - exists m', s'. by split_and!.
Qed.

Lemma reset_spec v m t s :
  0 <= v < 100 -> die_ok m0 phy (m, t) s ->
  exists m' s', reset_runtime_state phy v m = Some m' ∧ die_ok m0 phy (m', t) s' ∧ later s s'.
Proof.
  intros Hv HD. open_die HD. unfold reset_runtime_state. rewrite Hs. cbn [mbind option_bind].
  destruct (entry_at_wf s v Hwf) as (e & He & Hl); [lia|]. rewrite He. cbn [mbind option_bind]. rewrite get_sched_set_state.
  destruct (do_sched _ _ _ _ HD) as [sc Hsc]. cbn [fst] in Hsc. rewrite Hsc.
  destruct (store_alive_spec v 0 sc (wf_sched _ (do_wf _ _ _ _ HD) _ _ Hsc) Hv) as (sc1 & -> & Hsc1). cbn [mbind option_bind].
  assert (Hwf' : shm_wf (put_entry v (reset_entry e) s)) by (apply put_entry_wf; [done|]; red; cbn; by rewrite length_fmap).
  eexists _, _. split; [done|]. split; [apply die_ok_sched; [by eapply die_ok_set|done]|]. by apply later_cmd.
Qed.

Lemma poll_vnpu_spec c v w s :
  0 <= v < 100 -> die_ok m0 phy w s ->
  exists w' s', poll_vnpu c now phy v w = Some w' ∧ die_ok m0 phy w' s' ∧ later s s'.
Proof.
  intros Hv HD. destruct w as [m t]. open_die HD. unfold poll_vnpu. destruct (do_sched _ _ _ _ HD) as [sc Hsc]. cbn [fst] in Hsc.
  rewrite Hsc. cbn [mbind option_bind]. pose proof (wf_sched _ (do_wf _ _ _ _ HD) _ _ Hsc) as Hsw. pose proof Hsw as Hlen. red in Hlen.
  destruct (lookup_lt_is_Some_2 (sched_slots sc) (Z.to_nat v)) as [k Hk]; [lia|]. rewrite Hk. cbn [mbind option_bind].
  assert (Hkeep : exists w' s', Some (m, t) = Some w' ∧ die_ok m0 phy w' s' ∧ later s s') by (eexists _, s; split; [done|]; split; [done|by apply later_refl]).
  destruct (last_alive_time_ns k =? 0); [done|]. destruct (now <? last_alive_time_ns k).
  { destruct (store_alive_spec v 0 sc Hsw Hv) as (sc1 & -> & Hsc1). cbn [mbind option_bind]. eexists _, s. split; [done|].
    split; [by apply die_ok_sched|by apply later_refl]. }
  destruct (u64 (now - last_alive_time_ns k) <=? POD_ALIVE_TIMEOUT_NS); [done|].
  assert (H1 : exists m1 t1 s1, (if default false (shm_manager_get_vnpu_all_swapped m phy v).2
      then '(_, w1) ← pod_watchdog_cleanup_swap_data c phy v (m, t); Some w1 else Some (m, t)) = Some (m1, t1) ∧ die_ok m0 phy (m1, t1) s1 ∧ later s s1).
  { destruct (default false _); [|exists m, t, s; split; [done|]; split; [done|by apply later_refl]].
    destruct (cleanup_spec c v m t s) as (ret & [m1 t1] & s1 & -> & HD1 & HL1); [lia|done|]. by exists m1, t1, s1. }
  destruct H1 as (m1 & t1 & s1 & -> & HD1 & HL1). cbn [mbind option_bind].
  destruct (proxy_all_spec v m1 t1 s1) as (m2 & s2 & -> & HD2 & HL2); [lia|done|]. cbn [mbind option_bind].
  destruct (reset_spec v m2 t1 s2 Hv HD2) as (m3 & s3 & -> & HD3 & HL3). cbn [mbind option_bind].
  exists (m3, t1), s3. split; [done|]. split; [done|]. eapply later_trans; [done|]. by eapply later_trans.
Qed.

(** * A die *)

(** What a poll leaves on a die: every slot is alive or given back, and the
    command is completed unless a live process of its target owes the ack. *)
Definition polled (s : shm_state) : Prop :=
  (forall v i p, 0 <= v < 128 -> 0 <= i < 64 -> process_at s v i = Some p -> reaped now PROCESS_ALIVE_TIMEOUT_NS s p)
  ∧ (cmd_completed (st_swap_cmd s) = false -> cmd_action (st_swap_cmd s) = SWAP_ACTION_OUT ->
     cmd_seq (st_swap_cmd s) <> 0 -> 0 <= cmd_target_vnpu_id (st_swap_cmd s) < 128 ->
     exists i p, 0 <= i < 64 ∧ process_at s (cmd_target_vnpu_id (st_swap_cmd s)) i = Some p ∧ p_active p = true
       ∧ fresh_heartbeat now PROCESS_ALIVE_TIMEOUT_NS p ∧ p_ack_pending_seq p = cmd_seq (st_swap_cmd s)).

Lemma pending_ack_slot s v q : shm_wf s -> swap_cmd_has_pending_ack_locked s v q = true ->
  exists i p, 0 <= i < 64 ∧ process_at s v i = Some p ∧ p_ack_pending_seq p = q.
Proof.
  intros Hwf. unfold swap_cmd_has_pending_ack_locked. destruct (find_entry s v) as [e|] eqn:He; [|done].
  destruct (find_entry_at _ _ _ He) as (Hv & _ & Ha). rewrite existsb_exists. intros (p & Hin & Hq%Z.eqb_eq).
  apply list_elem_of_In, list_elem_of_lookup in Hin as (k & Hk). pose proof (entry_at_entry_wf _ _ _ Hwf Ha) as Hl. red in Hl.
  apply lookup_lt_Some in Hk as Hlt. exists (Z.of_nat k), p. split; [lia|]. split; [|done].
  unfold process_at. rewrite Ha. cbn [mbind option_bind]. rewrite (proj2 (Z.ltb_ge _ 0)) by lia. by rewrite Nat2Z.id.
Qed.

Lemma try_complete_spec m t s :
  die_ok m0 phy (m, t) s -> reaped_but now PROCESS_ALIVE_TIMEOUT_NS (fun _ _ => False) s ->
  exists s', shm_manager_try_complete_swap_cmd m phy = Some (ENPU_SUCCESS, set_state phy s' m) ∧ die_ok m0 phy (set_state phy s' m, t) s'
    ∧ later s s' ∧ polled s'.
Proof.
  intros HD HB. open_die HD. unfold shm_manager_try_complete_swap_cmd, with_state. rewrite (proj2 (Z.ltb_ge phy 0)) by lia. rewrite Hs.
  assert (Hreap : forall v i p, 0 <= v < 128 -> 0 <= i < 64 -> process_at s v i = Some p -> reaped now PROCESS_ALIVE_TIMEOUT_NS s p)
    by (intros; eapply HB; eauto).
  assert (Hkeep : (cmd_completed (st_swap_cmd s) = false -> cmd_action (st_swap_cmd s) = SWAP_ACTION_OUT -> cmd_seq (st_swap_cmd s) <> 0 ->
      0 <= cmd_target_vnpu_id (st_swap_cmd s) < 128 -> swap_cmd_has_pending_ack_locked s (cmd_target_vnpu_id (st_swap_cmd s)) (cmd_seq (st_swap_cmd s)) = true) ->
    die_ok m0 phy (set_state phy s m, t) s ∧ later s s ∧ polled s).
  { intros Hpend. split; [by eapply die_ok_set|]. split; [by apply later_refl|]. split; [done|].
    intros Hc Ha Hq Hr. destruct (pending_ack_slot s _ _ Hwf (Hpend Hc Ha Hq Hr)) as (i & p & Hi & Hp & Hack).
    exists i, p. pose proof (Hreap _ _ _ Hr Hi Hp) as Hrp. unfold reaped in Hrp. destruct (p_active p); [done|].
    destruct Hrp as [_ Hans]. by destruct (Hans Ha Hq). }
  destruct (cmd_completed (st_swap_cmd s)) eqn:Hc; cbn [orb mbind option_bind]; [exists s; split; [done|]; by apply Hkeep|].
  destruct (Z.eqb_spec (cmd_action (st_swap_cmd s)) SWAP_ACTION_OUT) as [Ha|Ha]; cbn [negb mbind option_bind]; [|exists s; split; [done|]; by apply Hkeep].
  destruct (Z.eqb_spec (cmd_seq (st_swap_cmd s)) 0) as [Hq|Hq]; cbn [orb mbind option_bind]; [exists s; split; [done|]; by apply Hkeep|].
  destruct (vnpu_id_in_die (cmd_target_vnpu_id (st_swap_cmd s))) eqn:Hr; cbn [negb mbind option_bind].
  2:{ exists s. split; [done|]. apply Hkeep. intros _ _ _ Hr'. by apply in_die_not in Hr. }
  destruct (swap_cmd_has_pending_ack_locked s _ _) eqn:Hpend; cbn [mbind option_bind]; [exists s; split; [done|]; by apply Hkeep|].
  set (s' := swap_cmd_mark_completed_locked s).
  assert (HL : later s s') by (constructor; [by apply set_cmds_wf|done..]).
  exists s'. split; [done|]. split; [eapply die_ok_set; [done|apply HL|done]|]. split; [done|]. split; [|done].
  intros v i p Hv Hi Hp. eapply reaped_later; [exact HL|]. by eapply Hreap.
Qed.

End poll.

Lemma die_ok_start m phy t s :
  mgr_wf m -> tlsf_ok t -> shm_manager_get_state m phy = Some s -> is_Some (shm_manager_get_sched_struct m phy) -> die_ok m phy (m, t) s.
Proof. by constructor. Qed.

Lemma poll_die_spec c now phy m t s :
  die_ok m phy (m, t) s -> (forall v, is_Some (find_entry s v) -> v < 100) ->
  exists w' s', poll_die c now phy (m, t) = Some w' ∧ die_ok m phy w' s' ∧ later s s' ∧ polled now s'.
Proof.
  intros HD Hlive. open_die HD. unfold poll_die. cbn [fst]. rewrite Hs. destruct (do_sched _ _ _ _ HD) as [sc Hsc]. cbn [fst] in Hsc. rewrite Hsc.
  destruct (ofoldl_total (fun v w => if vnpu_bitmap_test (st_bitmap s) v then poll_vnpu (c v) now phy v w else Some w)
    (fun vs w => Forall (fun v => 0 <= v < 128) vs ∧ exists s', die_ok m phy w s' ∧ later s s') (seqZ 0 MAX_VNPU_PER_DIE) (m, t))
    as (w1 & -> & _ & s1 & HD1 & HL1).
  - split; [apply Forall_forall; intros v Hv%elem_of_seqZ; unfold MAX_VNPU_PER_DIE in Hv; lia|]. exists s. split; [done|by apply later_refl].
  - intros v vs w [[Hv Hvs]%Forall_cons (s1 & HD1 & HL1)]. destruct (vnpu_bitmap_test (st_bitmap s) v) eqn:Hb; [|eauto 10].
    destruct (poll_vnpu_spec m phy now (c v) v w s1) as (w2 & s2 & E & HD2 & HL2); [|done|].
    { split; [lia|]. apply Hlive. by apply find_entry_is_Some. }
    exists w2. split; [done|]. split; [done|]. exists s2. split; [done|by eapply later_trans].
  - cbn [mbind option_bind]. destruct (reap_spec m phy c now PROCESS_ALIVE_TIMEOUT_NS w1 s1 HD1) as ([m2 t2] & s2 & -> & HD2 & HL2 & HB2).
    cbn [mbind option_bind]. destruct (try_complete_spec m phy now m2 t2 s2 HD2 HB2) as (s3 & -> & HD3 & HL3 & Hpoll).
    eexists _, s3. split; [done|]. split; [done|]. split; [|done]. eapply later_trans; [done|]. by eapply later_trans.
Qed.

(** * The poll *)

(** What the poll has done for the die [phy] of [m0]. *)
Definition die_done (now : Z) (m0 m : shm_manager) (phy : Z) : Prop :=
  forall s, shm_manager_get_state m0 phy = Some s -> is_Some (shm_manager_get_sched_struct m0 phy) ->
  exists s', shm_manager_get_state m phy = Some s' ∧ later s s' ∧ polled now s'.

Lemma poll_step c now phy todo m0 m t :
  (forall phy s v, shm_manager_get_state m0 phy = Some s -> is_Some (find_entry s v) -> v < 100) -> (phy ∉ todo) ->
  mgr_wf m -> tlsf_ok t ->
  (forall phy', if decide (phy' ∈ phy :: todo)
     then shm_manager_get_state m phy' = shm_manager_get_state m0 phy' ∧ shm_manager_get_sched_struct m phy' = shm_manager_get_sched_struct m0 phy'
     else 0 <= phy' < 16 -> die_done now m0 m phy') ->
  exists m' t', poll_die c now phy (m, t) = Some (m', t') ∧ mgr_wf m' ∧ tlsf_ok t'
    ∧ forall phy', if decide (phy' ∈ todo)
     then shm_manager_get_state m' phy' = shm_manager_get_state m0 phy' ∧ shm_manager_get_sched_struct m' phy' = shm_manager_get_sched_struct m0 phy'
     else 0 <= phy' < 16 -> die_done now m0 m' phy'.
Proof.
  intros Hlive Hni Hwf Ht Hall. pose proof (Hall phy) as Hphy. rewrite decide_True in Hphy by (by left). destruct Hphy as [Hst Hsc].
  assert (Hother : forall m', (forall phy', phy' <> phy -> shm_manager_get_state m' phy' = shm_manager_get_state m phy'
      ∧ shm_manager_get_sched_struct m' phy' = shm_manager_get_sched_struct m phy') -> die_done now m0 m' phy ->
    forall phy', if decide (phy' ∈ todo)
     then shm_manager_get_state m' phy' = shm_manager_get_state m0 phy' ∧ shm_manager_get_sched_struct m' phy' = shm_manager_get_sched_struct m0 phy'
     else 0 <= phy' < 16 -> die_done now m0 m' phy').
  { intros m' Hm Hd phy'. specialize (Hall phy'). destruct (decide (phy' = phy)) as [->|Hne]; [by rewrite decide_False|].
    destruct (Hm phy' Hne) as [E1 E2]. unfold die_done in *. rewrite E1, E2.
    destruct (decide (phy' ∈ todo)) as [Hin|Hnin]; [rewrite decide_True in Hall by (by right); done|].
    rewrite decide_False in Hall; [done|]. intros [->|?]%elem_of_cons; done. }
  destruct (shm_manager_get_state m phy) as [s|] eqn:Hs.
  - destruct (shm_manager_get_sched_struct m phy) as [sc|] eqn:Hsc'.
    + assert (HD : die_ok m phy (m, t) s) by (apply die_ok_start; [done..|by rewrite Hsc']).
      destruct (poll_die_spec c now phy m t s HD) as ([m' t'] & s' & -> & HD' & HL & Hpoll); [intros v; by apply (Hlive phy)|].
      exists m', t'. split; [done|]. split; [apply (do_wf _ _ _ _ HD')|]. split; [apply (do_tlsf _ _ _ _ HD')|].
      apply Hother; [intros phy' Hne; apply (do_frame _ _ _ _ HD' phy' Hne)|].
      intros s0 Hs0 _. exists s'. rewrite <- Hst in Hs0. injection Hs0 as <-. split; [apply (do_state _ _ _ _ HD')|done].
    + exists m, t. unfold poll_die. cbn [fst]. rewrite Hs, Hsc'. do 3 (split; [done|]). apply Hother; [done|].
      intros s0 _ [? H]. by rewrite <- Hsc in H.
  - exists m, t. unfold poll_die. cbn [fst]. rewrite Hs. do 3 (split; [done|]). apply Hother; [done|]. intros s0 H. by rewrite <- Hst in H.
Qed.


(** A die that waits for the ack of a process that died. *)
Definition dead_demo : shm_manager :=
  ex_mgr [0] (set_st_cmds (mk_swap_cmd "pod-idle" 0 SWAP_ACTION_OUT false 1 1 0) swap_out_cmd0
    (ex_state [ex_entry 0 100 1 [mk_process 7 7 false true 1 100 0 4096 1]])).


(** The pool with one buffer, and a vNPU that died with it before it had
    swapped out. *)
Definition one_buffer : TLSFManager := default tlsf_zero (snd <$> tlsf_alloc libc2 4096 pool4096).
Definition leak_view (w : world) : option (bool * Z * Z) :=
  s ← shm_manager_get_state w.1 0; p ← process_at s 0 0; Some (p_active p, p_swap_size p, total_used w.2).

(** A vNPU that dies between the reservation of a swap buffer and the end of
    its swap-out loses the buffer for good: the poll resets the slots without
    freeing the buffers, because the buffers are freed only when the whole vNPU
    is swapped out.  The same vNPU swapped out gets its buffer freed. *)
Theorem watchdog_leaks_buffer :
  let die swapped := ex_mgr [1] (ex_state [ex_entry 0 100 1 [mk_process 7 7 swapped true 1 100 0 4096 0]]) in
  let poll swapped := '(_, w) ← pod_watchdog_poll_and_cleanup (fun _ _ _ => libc1) 10000000000 (die swapped, one_buffer); leak_view w in
  leak_view (die false, one_buffer) = Some (true, 4096, 4096) ∧ poll false = Some (false, 0, 4096) ∧ poll true = Some (false, 0, 0).
Proof. vm_compute. by split_and!. Qed.
