(* ===== verification/EnpuManager.v ===== *)
(** The manager (enpu-manager/core/src/enpu_manager.c): creation from a
    configuration, the operations that the command line and the REST interface
    call, and their composition of the allocator, the swap resolver and the
    watchdog. *)

From S2P Require Import Prelude CLib SwapTlsf SwapPool NpuTree Evaluator Registry ConfigManager ShmManager RollbackLog Allocator AllocInit SwapResolver Watchdog.

(** [struct enpu_manager_config]; [swap_buffer_path] is not read. *)
Record enpu_manager_config := mk_manager_config {
  mc_config_base_path : string;
  mc_checkpoint_path : string;
  mc_oversub_ratio : list double;
  mc_swap_pre_watermark : Z;
  mc_evaluator_name : string;
  mc_share_strategy : string;
  mc_use_dcmi_stub : bool;
  mc_dcmi_stub : dcmi_stub_config;
  mc_watchdog_poll_interval_ms : Z;
}.

Definition DEFAULT_CHECKPOINT_PATH : string := "/var/lib/enpu-manager/checkpoint.json".

Section manager.
  Context `{SC : Securec} `{QS : !Qsort} {S : Type} `{!Storage S}.

(** [struct enpu_manager]; the threads of the resolver are their dies. *)
Record enpu_manager := mk_manager {
  em_allocator : option (npu_allocator S);
  em_swap_enabled : bool;
  em_swap_buf : option swap_buffer_manager;
  em_resolver : option swap_resolver;
  em_threads : list Z;
  em_watchdog : bool;
  em_running : bool;
  em_watchdog_running : bool;
  em_poll_interval_ms : Z;
}.

Definition set_em_allocator (a : npu_allocator S) (m : enpu_manager) : enpu_manager :=
  mk_manager (Some a) (em_swap_enabled m) (em_swap_buf m) (em_resolver m) (em_threads m) (em_watchdog m) (em_running m)
    (em_watchdog_running m) (em_poll_interval_ms m).

(** * Creation *)

Definition enpu_manager_copy_str (n : Z) (src : string) : string := (copy_str (Z.to_nat n) src).2.

Definition allocator_config_of (config : option enpu_manager_config) : allocator_config :=
  match config with
  | Some c => mk_allocator_config (enpu_manager_copy_str MAX_PATH_LEN (mc_config_base_path c)) (enpu_manager_copy_str MAX_PATH_LEN (mc_checkpoint_path c))
                (enpu_manager_copy_str MAX_NAME_LEN (mc_evaluator_name c)) (enpu_manager_copy_str MAX_NAME_LEN (mc_share_strategy c))
                (mc_use_dcmi_stub c) (mc_dcmi_stub c)
  | None => mk_allocator_config (enpu_manager_copy_str MAX_PATH_LEN CONFIG_BASE_PATH) (enpu_manager_copy_str MAX_PATH_LEN DEFAULT_CHECKPOINT_PATH)
              (enpu_manager_copy_str MAX_NAME_LEN "share") EmptyString false (mk_stub_config 0 0 0)
  end.

Definition enpu_manager_init_allocator (create_ok : bool) (env : init_env S) (h : host) (config : option enpu_manager_config) :
    option (Z * option (npu_allocator S)) :=
  match npu_allocator_create create_ok (allocator_config_of config) with
  | None => Some (ENPU_FAIL, None)
  | Some c => npu_allocator_init env h c
  end.

Definition config_ratio (config : option enpu_manager_config) (i : Z) : option double :=
  match config with Some c => mc_oversub_ratio c !! Z.to_nat i | None => Some d_zero end.

(** One die: its ratio is set, and its share of the swap buffer added.  The
    conversion of a double that does not fit is undefined. *)
Definition calc_die (config : option enpu_manager_config) (die_hbm_mb : list Z) (i : Z) (acc : Z * bool * npu_allocator S) :
    option (Z * bool * npu_allocator S) :=
  let '(total, any, a) := acc in
  ratio ← config_ratio config i;
  mb ← die_hbm_mb !! Z.to_nat i;
  let a1 := (npu_allocator_set_oversub_ratio a i ratio).2 in
  if d_pos ratio && (0 <? mb) then
    bytes ← d_to_u64 (d_mul (d_mul (d_add d_one ratio) (d_of_Z mb)) (d_of_Z 1048576));
    Some (u64 (total + bytes), true, a1)
  else Some (total, any, a1).

Definition enpu_manager_calc_swap_buf (config : option enpu_manager_config) (die_hbm_mb : list Z) (a : npu_allocator S) :
    option (Z * bool * npu_allocator S) :=
  ofoldl (calc_die config die_hbm_mb) (seqZ 0 MAX_NPU_PER_NODE) (0, false, a).

(** The lines of /proc/meminfo, each with what [sscanf_s] reads of it; [None]
    when the file cannot be opened. *)
Definition mem_free_bytes (meminfo : option (list (option Z))) : Z :=
  match meminfo with
  | None => 0
  | Some lines => match list_find (fun x => x <> None) lines with Some (_, Some kb) => u64 (kb * 1024) | _ => 0 end
  end.

Definition enpu_manager_check_host_mem (meminfo : option (list (option Z))) (swap_buf_size : Z) (any_swap_enabled : bool) : Z :=
  if negb any_swap_enabled then ENPU_SUCCESS
  else
    let free := mem_free_bytes meminfo in
    if free =? 0 then ENPU_SUCCESS else if free <? swap_buf_size then ENPU_FAIL else ENPU_SUCCESS.

(** What the system answers to [enpu_manager_init_swap]. *)
Record swap_env := mk_swap_env {
  se_pool : pool_os;
  se_object : option Z;
  se_resolver_ok : bool;
  se_device_count : Z * Z;
  se_thread_ok : Z -> bool;
  se_watchdog_ok : bool;
}.

(** The dies that get a thread of the resolver. *)
Definition resolver_dies (env : swap_env) (a : npu_allocator S) (device_count : Z) : option (list Z) :=
  ofoldl (fun phy acc => r ← npu_allocator_get_oversub_ratio a phy;
                         Some (if d_leb r d_zero then acc else if se_thread_ok env phy then acc ++ [phy] else acc))
    (seqZ 0 device_count) [].

(** The code, the buffer manager, the resolver, the dies of the threads, the
    watchdog, the shared object and the allocator. *)
Definition enpu_manager_init_swap (env : swap_env) (config : option enpu_manager_config) (swap_buf_size : Z) (a : npu_allocator S) :
    option (Z * option (swap_buffer_manager * swap_resolver * list Z) * option Z * npu_allocator S) :=
  '(buf, obj, t) ← shm_swap_buffer_init (se_pool env) swap_buf_size (se_object env) (a_tlsf a);
  let a1 := set_a_tlsf t a in
  match buf with
  | None => Some (ENPU_FAIL, None, obj, a1)
  | Some buf =>
      let pre_wm := match config with Some c => if 0 <? mc_swap_pre_watermark c then mc_swap_pre_watermark c else 80 | None => 80 end in
      match swap_resolver_create true true (se_resolver_ok env) (d_div (d_of_Z pre_wm) (d_of_Z 100)) 30000000000 with
      | None =>
          '(_, obj1, t1) ← shm_swap_buffer_deinit obj t;
          Some (ENPU_FAIL, None, obj1, set_a_tlsf t1 a)
      | Some r =>
          let '(rc, n) := se_device_count env in
          let count := if negb (rc =? ENPU_SUCCESS) || (n <=? 0) then MAX_NPU_PER_NODE else n in
          let count := if MAX_NPU_PER_NODE <? count then MAX_NPU_PER_NODE else count in
          dies ← resolver_dies env a1 count;
          if pod_watchdog_create true true (se_watchdog_ok env) then Some (ENPU_SUCCESS, Some (buf, r, dies), obj, a1) else Some (ENPU_FAIL, Some (buf, r, dies), obj, a1)
      end
  end.

Record create_env := mk_create_env {
  ce_calloc_ok : bool;
  ce_create_ok : bool;
  ce_init : init_env S;
  ce_meminfo : option (list (option Z));
  ce_swap : swap_env;
}.

Definition new_manager (a : npu_allocator S) (enabled : bool) (swap : option (swap_buffer_manager * swap_resolver * list Z)) (poll_ms : Z) : enpu_manager :=
  match swap with
  | None => mk_manager (Some a) enabled None None [] false false false poll_ms
  | Some (buf, r, dies) => mk_manager (Some a) enabled (Some buf) (Some r) dies true false false poll_ms
  end.

(** The names of the shared objects that are left; the rest is memory that is
    freed. *)
Definition npu_allocator_destroy (a : npu_allocator S) : option (Z * gset string) :=
  '(_, names) ← shm_manager_destroy (a_shm a) (a_names a); Some (ENPU_SUCCESS, names).

(** What the manager has done to the host [h] on which it was created. *)
Definition host_of (h : host) (m : enpu_manager) : host :=
  match em_allocator m with None => h | Some a => mk_host (a_files a) (a_names a) (a_tlsf a) end.

(** The threads have to be stopped before.  The code, the shared object of the
    swap buffer and the host afterwards. *)
Definition enpu_manager_destroy (obj : option Z) (h : host) (m : enpu_manager) : option (Z * option Z * host) :=
  let h0 := host_of h m in
  '(obj1, t) ← (match em_swap_buf m with
                | None => Some (obj, h_tlsf h0)
                | Some _ => '(_, obj1, t1) ← shm_swap_buffer_deinit obj (h_tlsf h0); Some (obj1, t1)
                end);
  names ← (match em_allocator m with None => Some (h_names h0) | Some a => '(_, names) ← npu_allocator_destroy a; Some names end);
  Some (ENPU_SUCCESS, obj1, mk_host (h_files h0) names t).

Definition poll_interval_of (config : option enpu_manager_config) : Z :=
  match config with Some c => if 0 <? mc_watchdog_poll_interval_ms c then mc_watchdog_poll_interval_ms c else 500 | None => 500 end.

(** The manager, when it is created, with the shared object of the swap buffer
    and the host: a creation that fails destroys what it has built. *)
Definition enpu_manager_create (env : create_env) (h : host) (config : option enpu_manager_config) :
    option (option enpu_manager * option Z * host) :=
  let obj := se_object (ce_swap env) in
  let abort (obj : option Z) (m : enpu_manager) := '(_, obj1, h1) ← enpu_manager_destroy obj h m; Some (None, obj1, h1) in
  if negb (ce_calloc_ok env) then Some (None, obj, h)
  else
    '(_, alloc) ← enpu_manager_init_allocator (ce_create_ok env) (ce_init env) h config;
    match alloc with
    | None => Some (None, obj, h)
    | Some a =>
        let die_hbm_mb := default (replicate 16 0) (npu_allocator_get_per_die_hbm_mb a MAX_NPU_PER_NODE) in
        '(swap_buf_size, any, a1) ← enpu_manager_calc_swap_buf config die_hbm_mb a;
        let poll_ms := poll_interval_of config in
        if negb (enpu_manager_check_host_mem (ce_meminfo env) swap_buf_size any =? ENPU_SUCCESS) then abort obj (new_manager a1 any None poll_ms)
        else if (any : bool) then
          '(rc, swap, obj1, a2) ← enpu_manager_init_swap (ce_swap env) config swap_buf_size a1;
          let m := new_manager a2 any swap poll_ms in
          if rc =? ENPU_SUCCESS then Some (Some m, obj1, host_of h m) else abort obj1 m
        else let m := new_manager a1 any None poll_ms in Some (Some m, obj, host_of h m)
    end.

(** [wd_ok]: whether [pthread_create] of the watchdog succeeds.  The threads of
    the resolver that do not start are logged. *)
Definition set_running (running watchdog_running : bool) (m : enpu_manager) : enpu_manager :=
  mk_manager (em_allocator m) (em_swap_enabled m) (em_swap_buf m) (em_resolver m) (em_threads m) (em_watchdog m) running
    watchdog_running (em_poll_interval_ms m).

Definition enpu_manager_start (wd_ok : bool) (m : enpu_manager) : Z * enpu_manager :=
  if em_watchdog m then
    if wd_ok then (ENPU_SUCCESS, set_running true true m) else (ENPU_FAIL, set_running false false m)
  else (ENPU_SUCCESS, set_running true (em_watchdog_running m) m).

Definition enpu_manager_stop (m : enpu_manager) : Z * enpu_manager :=
  (ENPU_SUCCESS, set_running false (if em_watchdog m then false else em_watchdog_running m) m).

(** * Allocations *)

Definition enpu_manager_allocate (env : alloc_env) (m : enpu_manager) (req : alloc_request) (resp : alloc_response) :
    option (Z * alloc_request * option alloc_response * enpu_manager) :=
  match em_allocator m with
  | None => Some (ENPU_FAIL, req, None, m)
  | Some a => '(ret, req1, resp1, a1) ← npu_allocator_allocate env a req resp; Some (ret, req1, Some resp1, set_em_allocator a1 m)
  end.

Definition enpu_manager_release (env : alloc_env) (m : enpu_manager) (pod_uid container_name : string) : option (Z * enpu_manager) :=
  match em_allocator m with
  | None => Some (ENPU_FAIL, m)
  | Some a => '(ret, a1) ← npu_allocator_release env a pod_uid container_name; Some (ret, set_em_allocator a1 m)
  end.

(** The loop of [enpu_manager_release_all]; [env] answers for each release. *)
Definition release_each (env : allocation -> alloc_env) (al : allocation) (acc : Z * npu_allocator S) : option (Z * npu_allocator S) :=
  '(r, a1) ← npu_allocator_release (env al) acc.2 (al_pod_uid al) (al_container_name al);
  Some (if r =? ENPU_SUCCESS then acc.1 + 1 else acc.1, a1).

(** The code and, when the query succeeds, the number of released ones. *)
Definition enpu_manager_release_all (env : allocation -> alloc_env) (m : enpu_manager) : option (Z * option Z * enpu_manager) :=
  match em_allocator m with
  | None => Some (ENPU_FAIL, None, m)
  | Some a =>
      let '(ret, allocs) := npu_allocator_query_allocations a (-1) EmptyString EmptyString in
      if negb (ret =? ENPU_SUCCESS) then Some (ret, None, m)
      else '(n, a1) ← ofoldl (release_each env) allocs (0, a); Some (ENPU_SUCCESS, Some n, set_em_allocator a1 m)
  end.

Definition enpu_manager_query_allocations (m : enpu_manager) (phy_id : Z) (pod container : string) : Z * list allocation :=
  match em_allocator m with
  | None => (ENPU_FAIL, [])
  | Some a => npu_allocator_query_allocations a phy_id pod container
  end.

(** [device_info_t]; the copies have the size of their targets. *)
Record device_report := mk_device { dr_phy_id : Z; dr_meta : npu_meta; dr_allocatable : npu_allocatable; dr_oversub_ratio : double }.

(** [query]: its [phy_id], [None] for NULL. *)
Definition enpu_manager_query_devices (m : enpu_manager) (query : option Z) : option (Z * list device_report) :=
  match em_allocator m with
  | None => Some (ENPU_FAIL, [])
  | Some a =>
      ds ← mapM (fun ma => let phy := meta_phy_id ma.1 in
                           r ← (if (0 <=? phy) && (phy <? MAX_NPU_PER_NODE) then npu_allocator_get_oversub_ratio a phy else Some d_zero);
                           Some (mk_device phy ma.1 ma.2 r))
             (npu_allocator_query_devices a (default (-1) query));
      Some (ENPU_SUCCESS, ds)
  end.

Inductive control_op := CONTROL_OP_CHECKPOINT | CONTROL_OP_RECOVER | CONTROL_OP_HEALTH_CHECK | CONTROL_OP_OTHER (x : Z).

Definition enpu_manager_control (env : allocation -> alloc_env) (m : enpu_manager) (op : control_op) : option (Z * enpu_manager) :=
  match em_allocator m with
  | None => Some (ENPU_FAIL, m)
  | Some a =>
      match op with
      | CONTROL_OP_CHECKPOINT => let '(ret, a1) := npu_allocator_checkpoint a in Some (ret, set_em_allocator a1 m)
      | CONTROL_OP_RECOVER => '(ret, _, a1) ← npu_allocator_recover env a; Some (ret, set_em_allocator a1 m)
      | CONTROL_OP_HEALTH_CHECK => Some (ENPU_SUCCESS, m)
      | CONTROL_OP_OTHER _ => Some (ENPU_INVALID_PARAM, m)
      end
  end.

(** * Swap *)

Definition find_pod_allocation (m : enpu_manager) (pod_uid : string) : option (Z * Z) :=
  a ← em_allocator m;
  '(_, al) ← list_find (fun al => al_pod_uid al = pod_uid) (allocation_registry_list (a_registry a)).2;
  Some (al_phy_id al, al_vnpu_id al).

Definition enpu_manager_swap_clean_impl (env : alloc_env) (m : enpu_manager) (phy_id vnpu_id : Z) : option (Z * enpu_manager) :=
  match em_allocator m, em_swap_buf m with
  | Some a, Some _ =>
      let '(ret, r) := npu_allocator_get_swap_state a phy_id vnpu_id in
      if ret =? ENPU_NOT_FOUND then Some (ENPU_NOT_FOUND, m)
      else if negb (ret =? ENPU_SUCCESS) then Some (ret, m)
      else
        let '(swapped, _, _) := default (false, 0, 0) r in
        if negb (swapped : bool) then Some (ENPU_SUCCESS, m)
        else '(ret, a1) ← npu_allocator_clear_swap env a phy_id vnpu_id; Some (ret, set_em_allocator a1 m)
  | _, _ => Some (ENPU_FAIL, m)
  end.

(** The resolver holds the allocator it was created with. *)
Definition enpu_manager_swap_force_out_impl (env : resolver_env) (m : enpu_manager) (phy_id vnpu_id : Z) (pod_uid : string) :
    option (Z * enpu_manager) :=
  match em_resolver m, em_allocator m with
  | Some _, Some a =>
      '(ret, a1) ← swap_resolver_write_swap_command (re_alloc env) (re_free env) (re_time env) a phy_id pod_uid vnpu_id SWAP_ACTION_OUT SWAP_OUT_NONE;
      Some (ret, set_em_allocator a1 m)
  | _, _ => Some (ENPU_FAIL, m)
  end.

Definition enpu_manager_swap_force_in_impl (now : Z) (m : enpu_manager) (phy_id vnpu_id : Z) (pod_uid : string) : option (Z * enpu_manager) :=
  match em_allocator m with
  | None => Some (ENPU_FAIL, m)
  | Some a =>
      '(ret, a1) ← npu_allocator_write_swap_cmd now a phy_id pod_uid vnpu_id SWAP_ACTION_IN SWAP_OUT_NONE;
      Some (ret, set_em_allocator a1 m)
  end.

Inductive swap_action := SWAP_ACTION_CLEAN | SWAP_ACTION_FORCE_OUT | SWAP_ACTION_FORCE_IN | SWAP_ACTION_OTHER (x : Z).

Definition enpu_manager_swap_control (aenv : alloc_env) (renv : resolver_env) (m : enpu_manager) (pod_uid : string) (action : swap_action) :
    option (Z * enpu_manager) :=
  match find_pod_allocation m pod_uid with
  | None => Some (ENPU_NOT_FOUND, m)
  | Some (phy_id, vnpu_id) =>
      match action with
      | SWAP_ACTION_CLEAN => enpu_manager_swap_clean_impl aenv m phy_id vnpu_id
      | SWAP_ACTION_FORCE_OUT => enpu_manager_swap_force_out_impl renv m phy_id vnpu_id pod_uid
      | SWAP_ACTION_FORCE_IN => enpu_manager_swap_force_in_impl (re_time renv) m phy_id vnpu_id pod_uid
      | SWAP_ACTION_OTHER _ => Some (ENPU_INVALID_PARAM, m)
      end
  end.

(** * The status of the swap *)

(** The loop over the processes with its early exit: the sum of the sizes,
    [None] when a process is active and not swapped out. *)
Fixpoint swapped_size (ps : list process_entry) (total : Z) : option Z :=
  match ps with
  | [] => Some total
  | p :: rest => if p_active p && negb (p_swapped p) then None else swapped_size rest (u64 (total + p_swap_size p))
  end.

Definition swapped_of_die (phy_id : Z) (s : shm_state) : list (Z * Z * Z) :=
  omap (fun v =>
    if bitmap_has (st_bitmap s) v then
      e ← entry_at s v;
      size ← swapped_size (e_processes e) 0;
      if 0 <? size then Some (phy_id, e_vnpu_id e, size) else None
    else None) (seqZ 0 MAX_VNPU_PER_DIE).

Definition swapped_of_dies (m : shm_manager) (dies : list Z) : list (Z * Z * Z) :=
  mjoin ((fun phy_id => match shm_manager_get_state m phy_id with None => [] | Some s => swapped_of_die phy_id s end) <$> dies).

(** The calls of the callback, in order: the die, the vNPU and its size. *)
Definition npu_allocator_foreach_swapped_vnpu (a : npu_allocator S) : list (Z * Z * Z) :=
  swapped_of_dies (a_shm a) (seqZ 0 MAX_NPU_PER_NODE).

(** The code, the status of the buffer (used, free, total) and the swapped
    vNPUs; the callback drops what does not fit the response. *)
Definition enpu_manager_swap_status (m : enpu_manager) : Z * option (Z * Z * Z) * list (Z * Z * Z) :=
  match em_swap_buf m, em_allocator m with
  | Some _, Some a =>
      let '(ret, status) := shm_swap_buffer_get_status (a_tlsf a) in
      if negb (ret =? ENPU_SUCCESS) then (ret, None, [])
      else (ENPU_SUCCESS, status, take (Z.to_nat (MAX_VNPU_PER_DIE * MAX_NPU_PER_NODE)) (npu_allocator_foreach_swapped_vnpu a))
  | Some _, None => (ENPU_INVALID_PARAM, None, [])
  | None, _ => (ENPU_FAIL, None, [])
  end.

End manager.
