(* ===== verification/EnpuManagerThms.v ===== *)
(** The operations of the manager: releasing everything, and the report of the
    swapped vNPUs against the state of each of them. *)

From S2P Require Import Prelude CLib SwapTlsf SwapTlsfProofs SwapTlsfThms SwapPool NpuTree NpuTreeFacts NpuTreeThms Evaluator EvaluatorThms Registry RegistryThms.
From S2P Require Import ConfigManager ShmManager ShmFacts RollbackLog Allocator AllocInv AllocShm AllocProofs AllocRelease AllocThms.
From S2P Require Import AllocInit SwapResolver SwapResolverFacts EnpuManager.

(** * Releasing everything *)

(** Every die is as if nothing had been allocated. *)
Record all_free {S} (C : capacities) (a : npu_allocator S) : Prop := {
  af_registry : entries (a_registry a) = [];
  af_leaves n : n ∈ leaves (a_tree a) ->
    aicore_quota (allocatable n) = cap_aicore C (phy_of n) ∧ hbm_quota (allocatable n) = cap_hbm C (phy_of n)
    ∧ policies n = [] ∧ forall v, 0 <= v < 64 -> vnpu_free n v = true;
  af_shm phy v : die_map (a_shm a) phy v = None;
}.

Lemma inv_all_free {S} C (a : npu_allocator S) : alloc_inv C a -> entries (a_registry a) = [] -> all_free C a.
Proof.
  intros H E. constructor; [done| |].
  - intros n [i Hn]%list_elem_of_lookup. destruct (inv_holds _ _ H _ _ Hn) as [Hi Hp Ha _ Hh]. rewrite E in *. simpl in *.
    apply Permutation_nil_r in Hp. split_and!; [lia|lia|by destruct (policies n)|].
    intros v Hv. specialize (Hi v Hv). destruct (vnpu_free n v); [done|]. by destruct (not_elem_of_nil v (proj1 Hi eq_refl)).
  - intros phy v. destruct (die_map (a_shm a) phy v) eqn:Em; [|done]. assert (Hs : is_Some (die_map (a_shm a) phy v)) by by eexists.
    apply (inv_shm_map _ _ H) in Hs. rewrite E in Hs. by apply not_elem_of_nil in Hs.
Qed.

Lemma filter_every {A} (P : A -> Prop) `{!forall x, Decision (P x)} (l : list A) : (forall x, P x) -> filter P l = l.
Proof. intros HP. induction l as [|x l IH]; [done|]. by rewrite filter_cons_True, IH. Qed.

Lemma query_all {S} C (a : npu_allocator S) :
  alloc_inv C a -> npu_allocator_query_allocations a (-1) EmptyString EmptyString = (ENPU_SUCCESS, entries (a_registry a)).
Proof.
  intros H. unfold npu_allocator_query_allocations. cbn [Z.leb Z.compare andb]. f_equal. rewrite filter_every by (by intros).
  apply take_ge. destruct (inv_reg _ _ H) as [_ H1 H2]. unfold MAX_ALLOC_COUNT in *. simpl. lia.
Qed.

(** What holds of the loop with [todo] still to be released. *)
Record releasing {S} (C : capacities) (a0 : npu_allocator S) (todo : list allocation) (acc : Z * npu_allocator S) : Prop := {
  rg_inv : alloc_inv C acc.2;
  rg_todo : entries (a_registry acc.2) ≡ₚ todo;
  rg_count : acc.1 + Z.of_nat (length todo) = Z.of_nat (length (entries (a_registry a0)));
  rg_phys : phy_of <$> leaves (a_tree acc.2) = phy_of <$> leaves (a_tree a0);
}.

Lemma release_each_step `{SC : Securec} {S} `{!Storage S} C env (a0 : npu_allocator S) al todo acc :
  releasing C a0 (al :: todo) acc -> exists acc', release_each env al acc = Some acc' ∧ releasing C a0 todo acc'.
Proof.
  intros [H Ht Hc Hp]. unfold release_each.
  assert (Hal : reg_map (a_registry acc.2) !! (al_pod_uid al, al_container_name al) = Some al).
  { apply reg_map_Some; [apply (inv_reg _ _ H)|]. split; [rewrite Ht; by left|done]. }
  destruct (release_spec C (env al) _ _ _ _ H Hal) as (a' & -> & Hl & _). cbn [mbind option_bind].
  change (ENPU_SUCCESS =? ENPU_SUCCESS) with true. eexists. split; [done|]. constructor; cbn [fst snd].
  - by eapply lost_inv.
  - destruct (l_entries _ _ _ _ Hl) as (l1 & l2 & E0 & ->). rewrite E0 in Ht. rewrite <- Permutation_middle in Ht. by apply Permutation_cons_inv in Ht.
  - cbn [length] in Hc. lia.
  - rewrite <- Hp. destruct (l_tree _ _ _ _ Hl) as (i & n & ps1 & q & ps2 & Hn & _ & _ & _ & _ & ->). by apply (insert_leaf_phys _ _ n).
Qed.

(** Releasing everything of a consistent manager succeeds, whatever the
    files, the clocks and the memory allocator answer and even when the
    checkpoint cannot be written: it reports as many releases as there were
    allocations, and afterwards the registry is empty, every die has all its
    cores, memory and ids back and no vNPU is left in the shared memory. *)
Theorem release_all_correct `{SC : Securec} {S} `{!Storage S} C env (m : enpu_manager (S := S)) a :
  em_allocator m = Some a -> alloc_inv C a ->
  exists a', enpu_manager_release_all env m = Some (ENPU_SUCCESS, Some (Z.of_nat (length (entries (a_registry a)))), set_em_allocator a' m)
    ∧ alloc_inv C a' ∧ all_free C a' ∧ phy_of <$> leaves (a_tree a') = phy_of <$> leaves (a_tree a).
Proof.
  intros Hm H. unfold enpu_manager_release_all. rewrite Hm, (query_all C) by done. change (negb (ENPU_SUCCESS =? ENPU_SUCCESS)) with false. cbn iota.
  destruct (ofoldl_total (release_each env) (releasing C a) (entries (a_registry a)) (0, a)) as ([n a'] & -> & [H1 H2 H3 H4]).
  - constructor; [done..|simpl; lia|done].
  - intros al todo acc. apply release_each_step.
  - cbn [fst snd length] in *. cbn [mbind option_bind]. apply Permutation_nil_r in H2. exists a'.
    split; [do 4 f_equal; lia|]. split; [done|]. split; [by apply inv_all_free|done].
Qed.

(** A manager without swap, with two allocations. *)
Definition demo_manager (a : npu_allocator memory_adapter) : enpu_manager := new_manager a false None 500.

Lemma release_all_correct_witness :
  exists a a', run_ops (SC := securec_ref) (demo_alloc memory_storage_adapter_create)
      [OpAllocate demo_env (demo_req "p" "c") alloc_response0; OpAllocate demo_env (demo_req "q" "c") alloc_response0] = Some a
    ∧ enpu_manager_release_all (SC := securec_ref) (fun _ => demo_env) (demo_manager a) = Some (ENPU_SUCCESS, Some 2, set_em_allocator a' (demo_manager a))
    ∧ all_free (tree_capacities demo_tree) a'.
Proof.
  destruct (run_op_inv (SC := securec_ref) (tree_capacities demo_tree) (demo_alloc memory_storage_adapter_create)
    (OpAllocate demo_env (demo_req "p" "c") alloc_response0) (demo_inv _) demo_reliable) as (a1 & E1 & H1 & R1).
  { repeat constructor; simpl; lia || done. }
  destruct (run_op_inv (SC := securec_ref) (tree_capacities demo_tree) a1 (OpAllocate demo_env (demo_req "q" "c") alloc_response0) H1 R1) as (a & E & H & R).
  { repeat constructor; simpl; lia || done. }
  assert (Hlen : length (entries (a_registry a)) = 2%nat).
  { assert (E2 : (fun a => length (entries (a_registry a))) <$> run_ops (SC := securec_ref) (demo_alloc memory_storage_adapter_create)
      [OpAllocate demo_env (demo_req "p" "c") alloc_response0; OpAllocate demo_env (demo_req "q" "c") alloc_response0] = Some 2%nat)
      by (vm_compute; reflexivity).
    cbn [run_ops] in E2. rewrite E1 in E2. cbn [mbind option_bind] in E2. rewrite E in E2. by injection E2. }
  destruct (release_all_correct (SC := securec_ref) _ (fun _ => demo_env) (demo_manager a) a eq_refl H) as (a' & Hr & _ & Hf & _).
  rewrite Hlen in Hr. exists a, a'. split; [cbn [run_ops]; rewrite E1; cbn [mbind option_bind]; rewrite E; reflexivity|]. split; [exact Hr|exact Hf].
Defined.

(** * The report of the swapped vNPUs *)

Lemma length_join_le {A} (n : nat) (ls : list (list A)) : Forall (fun l => (length l <= n)%nat) ls -> (length (mjoin ls) <= length ls * n)%nat.
Proof. induction 1 as [|l ls Hl _ IH]; [done|]. change (mjoin (l :: ls)) with (l ++ mjoin ls). rewrite length_app. cbn [length]. lia. Qed.

Lemma length_omap_le {A B} (f : A -> option B) l : (length (omap f l) <= length l)%nat.
Proof. induction l as [|x l IH]; [done|]. cbn [omap list_omap]. destruct (f x); cbn [length]; lia. Qed.

(** The two loops over the processes of a vNPU compute the same. *)
Lemma swap_state_size ps b off t :
  exists off' size, foldl swap_state_step (b, off, t) ps = (b && bool_decide (is_Some (swapped_size ps t)), off', size)
    ∧ forall z, swapped_size ps t = Some z -> z = size.
Proof.
  revert b off t. induction ps as [|p ps IH]; intros b off t.
  - exists off, t. cbn [foldl swapped_size]. rewrite bool_decide_eq_true_2, andb_true_r by (by eexists). split; [done|]. by intros z [= ->].
  - cbn [foldl swapped_size]. unfold swap_state_step at 2. destruct (p_active p && negb (p_swapped p)); [|apply IH].
    edestruct IH as (off' & size & -> & _). exists off', size. rewrite (bool_decide_eq_false_2 (is_Some None)) by (by intros [? ?]).
    by rewrite andb_false_r.
Qed.

(** Every live entry of the shared memory carries its own id. *)
Definition ids_in_place (m : shm_manager) : Prop := forall phy v e, die_map m phy v = Some e -> e_vnpu_id e = v.

Lemma swapped_of_die_spec m phy s v size :
  mgr_wf m -> shm_manager_get_state m phy = Some s -> ids_in_place m ->
  (phy, v, size) ∈ swapped_of_die phy s <-> 0 < size ∧ exists e, die_map m phy v = Some e ∧ swapped_size (e_processes e) 0 = Some size.
Proof.
  intros Hwf Hs Hid. pose proof (wf_state _ Hwf _ _ Hs) as Hsw. unfold swapped_of_die. rewrite list_elem_of_omap.
  assert (Hfind : forall w e, 0 <= w < 128 -> bitmap_has (st_bitmap s) w = true -> entry_at s w = Some e -> die_map m phy w = Some e).
  { intros w e Hw Hb He. unfold die_map. rewrite Hs. cbn [mbind option_bind]. unfold find_entry. rewrite (proj2 (in_die_spec w)) by done.
    cbn [negb]. rewrite <- bitmap_has_test, Hb by done. done. }
  split.
  - intros (w & Hw%elem_of_seqZ & E). change (0 + MAX_VNPU_PER_DIE) with 128 in Hw. destruct (bitmap_has _ w) eqn:Hb; [|done].
    destruct (entry_at s w) as [e|] eqn:He; [|done]. cbn [mbind option_bind] in E. destruct (swapped_size _ 0) as [z|] eqn:Hz; [|done].
    cbn [mbind option_bind] in E. destruct (0 <? z) eqn:Hp; [|done]. injection E as <- <-. apply Z.ltb_lt in Hp. split; [done|].
    specialize (Hfind w e Hw Hb He). rewrite (Hid _ _ _ Hfind). by exists e.
  - intros (Hp & e & He & Hz). exists v. pose proof He as He'. unfold die_map in He'. rewrite Hs in He'. cbn [mbind option_bind] in He'.
    apply find_entry_at in He' as (Hv & Hb & Hat). split; [apply elem_of_seqZ; unfold MAX_VNPU_PER_DIE; lia|].
    rewrite bitmap_has_test, Hb, Hat by done. cbn [mbind option_bind]. rewrite Hz. cbn [mbind option_bind].
    rewrite (proj2 (Z.ltb_lt 0 size)), (Hid _ _ _ He) by done. done.
Qed.

Lemma swapped_of_die_phy phy s x : x ∈ swapped_of_die phy s -> x.1.1 = phy.
Proof.
  unfold swapped_of_die. intros (v & _ & E)%list_elem_of_omap. destruct (bitmap_has _ v); [|done].
  destruct (entry_at s v) as [e|]; [|done]. cbn [mbind option_bind] in E. destruct (swapped_size _ 0); [|done]. cbn [mbind option_bind] in E.
  destruct (0 <? _); [|done]. by injection E as <-.
Qed.

Lemma swapped_of_dies_spec m dies phy v size :
  (phy, v, size) ∈ swapped_of_dies m dies
  <-> phy ∈ dies ∧ exists s, shm_manager_get_state m phy = Some s ∧ (phy, v, size) ∈ swapped_of_die phy s.
Proof.
  unfold swapped_of_dies. rewrite list_elem_of_join. split.
  - intros (l & Hin & (w & -> & Hw)%list_elem_of_fmap). destruct (shm_manager_get_state m w) as [s|] eqn:Hs; [|by apply not_elem_of_nil in Hin].
    pose proof (swapped_of_die_phy _ _ _ Hin) as Ephy. cbn [fst] in Ephy. subst w. split; [done|]. by exists s.
  - intros (Hw & s & Hs & Hin). exists (swapped_of_die phy s). split; [done|]. apply list_elem_of_fmap. exists phy. by rewrite Hs.
Qed.

Lemma foreach_spec {S} (a : npu_allocator S) phy v size :
  mgr_wf (a_shm a) -> ids_in_place (a_shm a) ->
  (phy, v, size) ∈ npu_allocator_foreach_swapped_vnpu a
  <-> 0 < size ∧ exists e, die_map (a_shm a) phy v = Some e ∧ swapped_size (e_processes e) 0 = Some size.
Proof.
  intros Hwf Hid. unfold npu_allocator_foreach_swapped_vnpu. rewrite swapped_of_dies_spec. split.
  - intros (_ & s & Hs & Hin). exact (proj1 (swapped_of_die_spec (a_shm a) phy s v size Hwf Hs Hid) Hin).
  - intros (Hp & e & He & Hz). destruct (shm_manager_get_state (a_shm a) phy) as [s|] eqn:Hs; [|unfold die_map in He; by rewrite Hs in He].
    split; [apply elem_of_seqZ; pose proof (get_state_range _ _ _ Hs); unfold MAX_NPU_PER_NODE; lia|].
    exists s. split; [done|]. apply (proj2 (swapped_of_die_spec (a_shm a) phy s v size Hwf Hs Hid)). eauto.
Qed.

Lemma swapped_of_dies_length m dies : (length (swapped_of_dies m dies) <= length dies * 128)%nat.
Proof.
  unfold swapped_of_dies. etrans; [apply (length_join_le 128)|by rewrite length_fmap].
  apply Forall_fmap, Forall_forall. intros phy _. cbn [compose]. destruct (shm_manager_get_state _ phy) as [s|]; [|simpl; lia].
  unfold swapped_of_die. etrans; [apply length_omap_le|]. by rewrite length_seqZ.
Qed.

(** The two views of the swapped vNPUs agree.  The status of the swap lists
    the vNPU [v] of die [phy] with a size exactly when the query of the swap
    state of that vNPU says that it is swapped out with that size, and the
    size is not zero; nothing is dropped for lack of room in the response.
    The loops differ: one stops at the first process that is on the device,
    the other visits all of them. *)
Theorem swap_status_equiv_swap_state {S} (m : enpu_manager (S := S)) a buf phy v size :
  em_allocator m = Some a -> em_swap_buf m = Some buf -> initialized (a_tlsf a) = true -> mgr_wf (a_shm a) -> ids_in_place (a_shm a) ->
  let '(rc, _, swapped) := enpu_manager_swap_status m in
  rc = ENPU_SUCCESS
  ∧ ((phy, v, size) ∈ swapped <-> 0 < size ∧ exists off, npu_allocator_get_swap_state a phy v = (ENPU_SUCCESS, Some (true, off, size))).
Proof.
  intros Ha Hb Hi Hwf Hid. unfold enpu_manager_swap_status. rewrite Ha, Hb. unfold shm_swap_buffer_get_status. rewrite Hi. cbn [negb].
  change (ENPU_SUCCESS =? ENPU_SUCCESS) with true. cbn [negb]. split; [done|].
  rewrite take_ge by (etrans; [apply swapped_of_dies_length|rewrite length_seqZ; unfold MAX_VNPU_PER_DIE, MAX_NPU_PER_NODE; lia]). rewrite foreach_spec by done.
  unfold npu_allocator_get_swap_state, shm_manager_get_swap_state, query_entry. split; intros [Hp H]; (split; [exact Hp|]); revert H.
  - intros (e & He & Hz). pose proof He as He'. unfold die_map in He'. destruct (shm_manager_get_state (a_shm a) phy) as [s|] eqn:Hs; [|done].
    cbn [mbind option_bind] in He'. rewrite He'. pose proof (get_state_range _ _ _ Hs). apply find_entry_at in He' as (Hv & _).
    rewrite (proj2 (Z.ltb_ge phy 0)), (proj2 (Z.ltb_ge v 0)) by lia. cbn [orb].
    destruct (swap_state_size (e_processes e) true 0 0) as (off & z & -> & Hsz). rewrite (Hsz _ Hz). exists off.
    rewrite bool_decide_eq_true_2 by (by rewrite Hz). done.
  - intros (off & E). destruct (_ || _); [done|]. destruct (shm_manager_get_state (a_shm a) phy) as [s|] eqn:Hs; [|done].
    destruct (find_entry s v) as [e|] eqn:He; [|done]. exists e. unfold die_map. rewrite Hs. split; [done|].
    destruct (swap_state_size (e_processes e) true 0 0) as (off' & z & Ef & Hsz). rewrite Ef in E. injection E as Eb _ <-.
    apply bool_decide_eq_true_1 in Eb as [y Hy]. by rewrite Hy, (Hsz y Hy).
Qed.

(** A check of [ids_in_place]. *)
Lemma ids_in_place_check m :
  forallb (fun phy => forallb (fun v => match die_map m phy v with Some e => e_vnpu_id e =? v | None => true end) (seqZ 0 128)) (seqZ 0 16) = true ->
  ids_in_place m.
Proof.
  rewrite forallb_forall. intros H phy v e He. pose proof He as He'. unfold die_map in He'. destruct (shm_manager_get_state m phy) as [s|] eqn:Hs; [|done].
  cbn [mbind option_bind] in He'. apply find_entry_at in He' as (Hv & _). pose proof (get_state_range _ _ _ Hs).
  specialize (H phy ltac:(apply list_elem_of_In, elem_of_seqZ; lia)). rewrite forallb_forall in H.
  specialize (H v ltac:(apply list_elem_of_In, elem_of_seqZ; lia)). rewrite He in H. by apply Z.eqb_eq.
Qed.

(** One vNPU is swapped out, one is on the device. *)
Definition status_demo : npu_allocator memory_adapter :=
  set_a_tlsf (mk_mgr ∅ true (replicate 480 None) None 0 8192 4096)
    (set_a_shm (ex_mgr [10; 30]
       (ex_state [ex_entry 0 0 1 [ex_process 7 0 0 true 0 4096]; ex_entry 1 4096 1 [ex_process 8 0 4096 false 0 0]]))
     (demo_alloc memory_storage_adapter_create)).
Definition status_manager : enpu_manager :=
  mk_manager (Some status_demo) true (Some (mk_swap_buffer_manager 8192 0)) None [] false true false 500.

Lemma swap_status_equiv_swap_state_witness :
  exists swapped, (enpu_manager_swap_status status_manager).2 = swapped ∧ (0, 0, 4096) ∈ swapped
    ∧ exists off, npu_allocator_get_swap_state status_demo 0 0 = (ENPU_SUCCESS, Some (true, off, 4096)).
Proof.
  pose proof (swap_status_equiv_swap_state status_manager status_demo (mk_swap_buffer_manager 8192 0) 0 0 4096 eq_refl eq_refl eq_refl) as H.
  specialize (H ltac:(apply mgr_wfb_sound; vm_compute; reflexivity) ltac:(apply ids_in_place_check; vm_compute; reflexivity)).
  destruct (enpu_manager_swap_status status_manager) as [[rc st] swapped] eqn:E. destruct H as [_ H].
  assert (Hin : (0, 0, 4096) ∈ swapped).
  { assert (E2 : (enpu_manager_swap_status status_manager).2 = [(0, 0, 4096)]) by (vm_compute; reflexivity). rewrite E in E2. cbn [snd] in E2. subst. left. }
  exists swapped. split; [reflexivity|]. split; [exact Hin|]. apply H in Hin as [_ Hoff]. exact Hoff.
Defined.
