(* ===== verification/SwapStall.v ===== *)
(** A forced swap-in stops the swapping of its die.

    The manager writes the command [SWAP_ACTION_IN] as not completed
    (enpu_manager.c, line 671).  The runtime ignores this action
    (vcann-rt/src/swap_monitor_thread.c, line 80), and the acks and the
    watchdog only complete commands that swap out. *)

From S2P Require Import Prelude CLib SwapTlsf SwapTlsfInv SwapTlsfProofs SwapTlsfThms SwapPool NpuTree NpuTreeFacts NpuTreeThms Evaluator EvaluatorThms Registry RegistryThms.
From S2P Require Import ConfigManager ShmManager ShmFacts RtShm SwapProtocol RollbackLog Allocator AllocInv AllocThms AllocInit.
From S2P Require Import SwapResolver SwapResolverFacts Watchdog EnpuManager EnpuManagerThms.

(** The command of the die is a swap-in that is not completed. *)
Definition stalled (s : shm_state) : Prop :=
  cmd_action (st_swap_cmd s) = SWAP_ACTION_IN ∧ cmd_completed (st_swap_cmd s) = false.

(** What stalls stays stalled. *)
Definition keeps (m m' : shm_manager) : Prop :=
  forall phy s, shm_manager_get_state m phy = Some s -> stalled s -> exists s', shm_manager_get_state m' phy = Some s' ∧ stalled s'.

(** Only the die [phy] changes. *)
Definition only_die (phy : Z) (m m' : shm_manager) : Prop :=
  forall phy', phy' <> phy -> shm_manager_get_state m' phy' = shm_manager_get_state m phy'.

(** * Generic facts *)

#[export] Instance keeps_preorder : PreOrder keeps.
Proof.
  split; [intros m phy s; eauto|]. intros m1 m2 m3 H1 H2 phy s Hs Hst. destruct (H1 _ _ Hs Hst) as (s' & Hs' & Hst'). eauto.
Qed.

#[export] Instance only_die_preorder phy : PreOrder (only_die phy).
Proof. split; [by intros m phy'|]. intros m1 m2 m3 H1 H2 phy' Hne. by rewrite H2, H1. Qed.

Lemma get_state_put m phy s s' phy' :
  shm_manager_get_state m phy = Some s ->
  shm_manager_get_state (set_state phy s' m) phy' = if decide (phy' = phy) then Some s' else shm_manager_get_state m phy'.
Proof.
  intros H. pose proof (get_state_range _ _ _ H) as Hp. unfold shm_manager_get_state, MAX_NPU_PER_NODE in *. cbn [set_state shm_states].
  destruct (decide (phy' = phy)) as [->|Hne].
  - rewrite (proj2 (Z.ltb_ge phy 0)), (proj2 (Z.leb_gt 16 phy)) in * by lia. cbn [orb] in *. rewrite list_lookup_insert_eq; [done|].
    destruct (shm_states m !! Z.to_nat phy) eqn:El; [|done]. by eapply lookup_lt_Some.
  - destruct (Z.ltb_spec phy' 0); [done|]. rewrite list_lookup_insert_ne by lia. done.
Qed.

Lemma set_state_keeps m phy s s' : shm_manager_get_state m phy = Some s -> (stalled s -> stalled s') -> keeps m (set_state phy s' m).
Proof.
  intros Hs Himp phy' s0 Hs0 Hst. rewrite (get_state_put _ _ s) by done. destruct (decide (phy' = phy)) as [->|]; [|by exists s0].
  rewrite Hs in Hs0. injection Hs0 as ->. eauto.
Qed.

Lemma set_sched_keeps m phy sc : keeps m (set_sched phy sc m).
Proof. intros phy' s Hs Hst. by exists s. Qed.

Lemma set_state_only m phy s s' : shm_manager_get_state m phy = Some s -> only_die phy m (set_state phy s' m).
Proof. intros Hs phy' Hne. by rewrite (get_state_put _ _ s), decide_False. Qed.

Lemma only_die_keeps phy m m' : only_die phy m m' -> (forall s, shm_manager_get_state m phy = Some s -> ~ stalled s) -> keeps m m'.
Proof.
  intros H Hno phy' s Hs Hst. destruct (decide (phy' = phy)) as [->|Hne]; [by destruct (Hno s)|]. exists s. by rewrite H.
Qed.

Lemma ofoldl_keeps {A B} (g : B -> shm_manager) (f : A -> B -> option B) l b b' :
  (forall x b b', f x b = Some b' -> keeps (g b) (g b')) -> ofoldl f l b = Some b' -> keeps (g b) (g b').
Proof.
  intros Hf. revert b. induction l as [|x l IH]; intros b; cbn [ofoldl]; [by intros [= ->]|].
  destruct (f x b) as [b1|] eqn:E; [|done]. cbn [mbind option_bind]. intros H. etrans; [by eapply Hf|by apply IH].
Qed.

(** Takes an equation [H : body = Some r] apart, along the way the code went. *)
Ltac run H :=
  cbn beta iota zeta in H;
  lazymatch type of H with
  | mbind _ ?o = Some _ => destruct o eqn:?; [cbn [mbind option_bind] in H; run H|discriminate H]
  | (match ?x with (_, _) => _ end) = Some _ => destruct x eqn:?; run H
  | (match ?x with _ => _ end) = Some _ => destruct x eqn:?; run H
  | Some _ = Some _ => injection H as H; simplify_eq
  | None = Some _ => discriminate H
  | _ => idtac
  end.

Lemma with_state_keeps m phy f rc m' :
  (forall s rc s', f s = Some (rc, s') -> stalled s -> stalled s') -> with_state m phy f = Some (rc, m') -> keeps m m'.
Proof.
  intros Hf E. unfold with_state in E. destruct (phy <? 0); [by injection E as _ <-|].
  destruct (shm_manager_get_state m phy) as [s|] eqn:Hs; [|by injection E as _ <-].
  destruct (f s) as [[rc' s']|] eqn:Ef; [|done]. injection E as <- <-. eapply set_state_keeps; eauto.
Qed.

Lemma with_state_only m phy f rc m' : with_state m phy f = Some (rc, m') -> only_die phy m m'.
Proof.
  intros E. unfold with_state in E. destruct (phy <? 0); [by injection E as _ <-|].
  destruct (shm_manager_get_state m phy) as [s|] eqn:Hs; [|by injection E as _ <-].
  destruct (f s) as [[rc' s']|] eqn:Ef; [|done]. injection E as <- <-. by eapply set_state_only.
Qed.

Lemma same_cmd_stalled s s' : st_swap_cmd s' = st_swap_cmd s -> stalled s -> stalled s'.
Proof. unfold stalled. by intros ->. Qed.

Lemma stalled_not_out s : stalled s -> (cmd_action (st_swap_cmd s) =? SWAP_ACTION_OUT) = false.
Proof. by intros [-> _]. Qed.

(** * The buffers of the processes *)

Lemma put_process_stalled v i p s : stalled s -> stalled (put_process v i p s).
Proof. apply same_cmd_stalled, put_process_cmds. Qed.

Lemma free_per_process_cmd c s t v i rc s' t' : shm_free_per_process c s t v i = Some (rc, s', t') -> st_swap_cmd s' = st_swap_cmd s.
Proof. unfold shm_free_per_process. intros H. run H; try done. apply put_process_cmds. Qed.

Lemma free_slots_cmd c s t v slots s' t' : free_slots c s t v slots = Some (s', t') -> st_swap_cmd s' = st_swap_cmd s.
Proof.
  revert s t. induction slots as [|i slots IH]; intros s t; cbn [free_slots]; [by intros [= -> ->]|]. intros H. run H.
  rewrite (IH _ _ H). by eapply free_per_process_cmd.
Qed.

Lemma shm_free_cmd c s t v rc s' t' : shm_free c s t v = Some (rc, s', t') -> st_swap_cmd s' = st_swap_cmd s.
Proof. unfold shm_free. intros H. run H; try done. by eapply free_slots_cmd. Qed.

(** * The watchdog *)

Lemma proxy_keeps m phy v i rc m' : shm_manager_proxy_ack_process m phy v i = Some (rc, m') -> keeps m m'.
Proof.
  unfold shm_manager_proxy_ack_process. intros H. destruct (phy <? 0); [by injection H as _ <-|].
  destruct (_ || _); [by injection H as _ <-|]. revert H. apply with_state_keeps.
  intros s rc' s' E Hst. rewrite (stalled_not_out s Hst) in E. by injection E as _ <-.
Qed.

Lemma try_complete_keeps m phy rc m' : shm_manager_try_complete_swap_cmd m phy = Some (rc, m') -> keeps m m'.
Proof.
  apply with_state_keeps. intros s rc' s' E Hst. cbv zeta in E. rewrite (stalled_not_out s Hst), orb_true_r in E. by injection E as _ <-.
Qed.

Lemma on_process_keeps phy v i f m m' : on_process phy v i f m = Some m' -> keeps m m'.
Proof. unfold on_process. intros H. run H. eapply set_state_keeps; [done|]. apply put_process_stalled. Qed.

Lemma proxy_if_owed_keeps phy v i m m' : proxy_if_owed phy v i m = Some m' -> keeps m m'.
Proof. unfold proxy_if_owed. intros H. run H; [by eapply proxy_keeps|done]. Qed.

Lemma free_if_held_keeps c phy v i w w' : free_if_held c phy v i w = Some w' -> keeps w.1 w'.1.
Proof.
  unfold free_if_held. intros H. run H; [|done]. eapply set_state_keeps; [done|]. eapply same_cmd_stalled, free_per_process_cmd. done.
Qed.

Lemma return_hbm_keeps phy v i m m' : return_hbm phy v i m = Some m' -> keeps m m'.
Proof.
  unfold return_hbm. intros H. run H; [|done]. etrans; [|by eapply on_process_keeps]. by eapply set_state_keeps.
Qed.

Lemma reap_slot_keeps c now tmo phy v i w w' : reap_slot c now tmo phy v i w = Some w' -> keeps w.1 w'.1.
Proof.
  destruct w as [m t]. unfold reap_slot. intros H. run H; cbn [fst]; try done.
  - etrans; [by eapply proxy_if_owed_keeps|]. by apply (free_if_held_keeps _ _ _ _ (_, _) _ H).
  - by eapply on_process_keeps.
  - etrans; [by eapply proxy_if_owed_keeps|]. etrans; [by eapply return_hbm_keeps|]. etrans; [|by eapply on_process_keeps].
    match goal with E : free_if_held _ _ _ _ _ = _ |- _ => exact (free_if_held_keeps _ _ _ _ _ _ E) end.
Qed.

Lemma reap_keeps c now tmo phy w w' : reap_dead_processes c now tmo phy w = Some w' -> keeps w.1 w'.1.
Proof.
  apply (ofoldl_keeps fst). intros v w1 w1'. apply (ofoldl_keeps fst). intros i w2 w2'. apply reap_slot_keeps.
Qed.

Lemma cleanup_keeps c phy v w rc w' : pod_watchdog_cleanup_swap_data c phy v w = Some (rc, w') -> keeps w.1 w'.1.
Proof.
  destruct w as [m t]. unfold pod_watchdog_cleanup_swap_data. intros H. run H; cbn [fst]; try done.
  match goal with E : match _ with _ => _ end = Some _ |- _ => run E; [|done] end.
  eapply set_state_keeps; [done|]. eapply same_cmd_stalled, shm_free_cmd. done.
Qed.

Lemma reset_keeps phy v m m' : reset_runtime_state phy v m = Some m' -> keeps m m'.
Proof. unfold reset_runtime_state. intros H. run H; by eapply set_state_keeps. Qed.

Lemma poll_vnpu_keeps c now phy v w w' : poll_vnpu c now phy v w = Some w' -> keeps w.1 w'.1.
Proof.
  destruct w as [m t]. unfold poll_vnpu. intros H. run H; cbn [fst]; try done; [by apply set_sched_keeps|].
  match goal with
  | Ec : (if _ then _ else _) = Some _, Ep : ofoldl _ _ _ = Some _, Er : reset_runtime_state _ _ _ = Some _ |- _ =>
      etrans; [|etrans; [exact (ofoldl_keeps id _ _ _ _ (proxy_if_owed_keeps phy v) Ep)|exact (reset_keeps _ _ _ _ Er)]]; run Ec
  end; [|done].
  match goal with E : pod_watchdog_cleanup_swap_data _ _ _ _ = _ |- _ => exact (cleanup_keeps _ _ _ _ _ _ E) end.
Qed.

Lemma poll_die_keeps c now phy w w' : poll_die c now phy w = Some w' -> keeps w.1 w'.1.
Proof.
  unfold poll_die. destruct (shm_manager_get_state w.1 phy) as [s|]; [|by intros [= ->]].
  destruct (shm_manager_get_sched_struct w.1 phy); [|by intros [= ->]].
  destruct (ofoldl _ _ w) as [w1|] eqn:E1; [|done]. cbn [mbind option_bind]. destruct (reap_dead_processes _ _ _ _ w1) as [[m2 t2]|] eqn:E2; [|done].
  cbn [mbind option_bind]. destruct (shm_manager_try_complete_swap_cmd m2 phy) as [[rc m3]|] eqn:E3; [|done]. intros [= <-]. cbn [fst].
  etrans; [|etrans; [exact (reap_keeps _ _ _ _ _ _ E2)|exact (try_complete_keeps _ _ _ _ E3)]].
  revert E1. apply (ofoldl_keeps fst). intros vn w2 w2'. destruct (vnpu_bitmap_test _ vn); [apply poll_vnpu_keeps|by intros [= ->]].
Qed.

Lemma poll_keeps c now w rc w' : pod_watchdog_poll_and_cleanup c now w = Some (rc, w') -> keeps w.1 w'.1.
Proof.
  unfold pod_watchdog_poll_and_cleanup. destruct (ofoldl _ _ w) as [w1|] eqn:E; [|done]. intros [= _ <-]. revert E.
  apply (ofoldl_keeps fst). intros phy w2 w2'. apply poll_die_keeps.
Qed.

(** * The runtime *)

Lemma try_ack_stalled s v i q rc s' : shm_try_ack_swap_cmd s v i q = Some (rc, s') -> stalled s -> stalled s'.
Proof.
  unfold shm_try_ack_swap_cmd. intros H Hst. run H; try done; [by apply put_process_stalled|].
  match goal with E : swap_cmd_finish_if_epoch ?s2 _ _ = Some _ |- _ =>
    assert (Hst2 : stalled s2) by (unfold stalled; cbn; rewrite (proj1 (put_process_cmds _ _ _ _)); exact Hst);
    unfold swap_cmd_finish_if_epoch in E; rewrite (stalled_not_out _ Hst2) in E; run E; exact Hst2
  end.
Qed.

Section allocator.
  Context `{SC : Securec} {S : Type} `{!Storage S}.
  Implicit Types a : npu_allocator S.

(** * The release *)

Lemma free_on_die_keeps c a phy s v a' :
  shm_manager_get_state (a_shm a) phy = Some s -> free_on_die c a phy s v = Some a' -> keeps (a_shm a) (a_shm a').
Proof. unfold free_on_die. intros Hs H. run H. eapply set_state_keeps; [done|]. eapply same_cmd_stalled, shm_free_cmd. done. Qed.

Lemma remove_entry_keeps m phy v rc m' : shm_manager_remove_entry m phy v = Some (rc, m') -> keeps m m'.
Proof.
  unfold shm_manager_remove_entry. destruct (v <? 0); [by intros [= _ <-]|]. destruct (_ <=? v); [by intros [= _ <-]|].
  apply with_state_keeps. intros s rc' s' H Hst. by run H.
Qed.

Lemma with_sched_keeps m phy v f m' : with_sched m phy v f = Some m' -> keeps m m'.
Proof. unfold with_sched. intros H. run H; [by apply set_sched_keeps|done]. Qed.

Lemma shm_release_keeps c a phy v rc a' : shm_release_vnpu_locked c a phy v = Some (rc, a') -> keeps (a_shm a) (a_shm a').
Proof.
  unfold shm_release_vnpu_locked. intros H. run H; try done.
  all: match goal with E1 : free_on_die _ _ _ _ _ = _, E2 : shm_manager_remove_entry _ _ _ = _ |- _ =>
    etrans; [by eapply free_on_die_keeps|etrans; [by eapply remove_entry_keeps|]] end; first [done|by eapply with_sched_keeps].
Qed.

Lemma release_keeps env a p q rc a' : npu_allocator_release env a p q = Some (rc, a') -> keeps (a_shm a) (a_shm a').
Proof.
  unfold npu_allocator_release. destruct (allocation_registry_get _ p q).2 as [al|]; [|by intros [= _ <-]].
  destruct (match npu_tree_get_leaf (a_tree a) (al_phy_id al) with None => _ | Some i => _ end) as [a1|] eqn:E1; [|done]. cbn [mbind option_bind].
  destruct (config_manager_delete_config _ _ _ p q), (allocation_registry_release _ p q). intros [= _ <-]. cbn.
  destruct (npu_tree_get_leaf _ _) as [i|]; [|by injection E1 as <-].
  destruct (leaves (a_tree a) !! i) as [node|]; [|done]. cbn [mbind option_bind] in E1.
  destruct (shl1 (al_vnpu_id al)) as [mask|]; [|done]. cbn [mbind option_bind] in E1.
  destruct (if negb _ then _ else _) as [b0|] eqn:E0; [|done]. cbn [mbind option_bind] in E1. run E1.
  assert (a_shm b0 = a_shm a) as <- by (by run E0). by eapply shm_release_keeps.
Qed.

(** * The resolver *)

Lemma write_cmd_only now a phy pod v action flag rc a' :
  npu_allocator_write_swap_cmd now a phy pod v action flag = Some (rc, a') -> only_die phy (a_shm a) (a_shm a').
Proof.
  unfold npu_allocator_write_swap_cmd, shm_manager_write_swap_cmd. intros H. run H. cbn.
  match goal with E : (if _ then _ else _) = Some _ |- _ => run E; try done; by eapply with_state_only end.
Qed.

Lemma write_command_only c cf now a phy pod v action flag rc a' :
  swap_resolver_write_swap_command c cf now a phy pod v action flag = Some (rc, a') -> only_die phy (a_shm a) (a_shm a').
Proof.
  unfold swap_resolver_write_swap_command, npu_allocator_get_shm_state. intros H. run H; try done.
  - by eapply set_state_only.
  - etrans; [|by eapply write_cmd_only]. by eapply set_state_only.
  - by eapply write_cmd_only.
Qed.

Lemma swap_in_only cf a phy rc a' : swap_resolver_check_and_swap_in cf a phy = Some (rc, a') -> only_die phy (a_shm a) (a_shm a').
Proof. unfold swap_resolver_check_and_swap_in, npu_allocator_get_shm_state. intros H. run H; try done. by eapply set_state_only. Qed.

Lemma swap_out_only a phy flag : only_die phy (a_shm a) (a_shm (swap_resolver_check_enpu_swap_out a phy flag).2).
Proof.
  unfold swap_resolver_check_enpu_swap_out, npu_allocator_get_shm_state. destruct (shm_manager_get_state (a_shm a) phy) as [s|] eqn:Hs; [|done].
  cbn [snd]. destruct (negb _); [|done]. by eapply set_state_only.
Qed.

Lemma pending_iff a phy s : shm_manager_get_state (a_shm a) phy = Some s -> swap_resolver_is_swap_pending a phy = negb (cmd_completed (st_swap_cmd s)).
Proof.
  intros Hs. unfold swap_resolver_is_swap_pending, npu_allocator_get_shm_state. pose proof (get_state_range _ _ _ Hs).
  rewrite (proj2 (Z.ltb_ge phy 0)) by lia. by rewrite Hs.
Qed.

Lemma thread_step_keeps env r a phy r' a' : swap_resolver_thread_step env r a phy = Some (r', a') -> keeps (a_shm a) (a_shm a').
Proof.
  unfold swap_resolver_thread_step. destruct (swap_resolver_is_swap_pending a phy) eqn:Ep; [by intros [= _ <-]|]. intros H.
  apply (only_die_keeps phy); [|intros s Hs [_ Hc]; rewrite (pending_iff _ _ _ Hs), Hc in Ep; done].
  destruct (swap_resolver_check_and_swap_in _ a phy) as [[rc1 a1]|] eqn:E1; [|done]. cbn [mbind option_bind] in H.
  destruct (swap_resolver_check_watermark r a1 phy) as [[level r1]|]; [|done]. cbn [mbind option_bind] in H.
  pose proof (swap_out_only a1 phy SWAP_OUT_NONE) as H2. destruct (swap_resolver_check_enpu_swap_out a1 phy SWAP_OUT_NONE) as [[rc2 flag] a2]. cbn [snd] in H2.
  etrans; [by eapply swap_in_only|]. etrans; [exact H2|]. run H; try done. by eapply write_command_only.
Qed.

End allocator.

(** * The running manager *)

Section manager.
  Context `{SC : Securec} {S : Type} `{!Storage S}.
  Implicit Types (m : enpu_manager (S := S)) (a : npu_allocator S).

(** What happens while no vNPU is allocated or recovered: acks of the
    processes, polls of the watchdog, iterations of the threads of the dies,
    controls of the swap and releases, in any order and with any answers of
    the system. *)
Inductive run_step : enpu_manager (S := S) -> enpu_manager (S := S) -> Prop :=
  | run_ack m a phy s v slot seq rc s' :
      em_allocator m = Some a -> shm_manager_get_state (a_shm a) phy = Some s -> shm_try_ack_swap_cmd s v slot seq = Some (rc, s') ->
      run_step m (set_em_allocator (set_a_shm (set_state phy s' (a_shm a)) a) m)
  | run_watchdog m a c now rc sm t :
      em_allocator m = Some a -> pod_watchdog_poll_and_cleanup c now (a_shm a, a_tlsf a) = Some (rc, (sm, t)) ->
      run_step m (set_em_allocator (set_a_tlsf t (set_a_shm sm a)) m)
  | run_thread m a env r phy r' a' :
      em_allocator m = Some a -> em_resolver m = Some r -> swap_resolver_thread_step env r a phy = Some (r', a') ->
      run_step m (mk_manager (Some a') (em_swap_enabled m) (em_swap_buf m) (Some r') (em_threads m) (em_watchdog m) (em_running m)
                    (em_watchdog_running m) (em_poll_interval_ms m))
  | run_control m aenv renv pod action rc m' : enpu_manager_swap_control aenv renv m pod action = Some (rc, m') -> run_step m m'
  | run_release m env pod container rc m' : enpu_manager_release env m pod container = Some (rc, m') -> run_step m m'.

(** The manager has the die [phy] stalled. *)
Definition die_stalled (phy : Z) m : Prop :=
  exists a s, em_allocator m = Some a ∧ shm_manager_get_state (a_shm a) phy = Some s ∧ stalled s.

Lemma die_stalled_keeps phy m m' a a' :
  em_allocator m = Some a -> em_allocator m' = Some a' -> keeps (a_shm a) (a_shm a') -> die_stalled phy m -> die_stalled phy m'.
Proof.
  intros Ha Ha' Hk (a0 & s & E & Hs & Hst). rewrite Ha in E. injection E as <-. destruct (Hk _ _ Hs Hst) as (s' & Hs' & Hst'). by exists a', s'.
Qed.

(** The swap-in command: written whenever the die is there, over what was. *)
Lemma force_in_keeps now a phy pod v rc a' :
  npu_allocator_write_swap_cmd now a phy pod v SWAP_ACTION_IN SWAP_OUT_NONE = Some (rc, a') -> keeps (a_shm a) (a_shm a').
Proof.
  unfold npu_allocator_write_swap_cmd, shm_manager_write_swap_cmd. intros H. run H. cbn.
  match goal with E : (if _ then _ else _) = Some _ |- _ => run E; try done; revert E end.
  apply with_state_keeps. clear. intros s rc' s' E Hst. cbv zeta in E. destruct (snprintf_s _ _ pod) as [ret uid].
  destruct (ret <? 0); [by injection E as _ <-|]. change (SWAP_ACTION_IN =? SWAP_ACTION_OUT) with false in E. by injection E as _ <-.
Qed.

Lemma force_out_skips c cf now a phy pod v flag s :
  shm_manager_get_state (a_shm a) phy = Some s -> stalled s -> 0 <= v ->
  swap_resolver_write_swap_command c cf now a phy pod v SWAP_ACTION_OUT flag = Some (ENPU_SUCCESS, a).
Proof.
  intros Hs [_ Hc] Hv. unfold swap_resolver_write_swap_command, npu_allocator_get_shm_state. pose proof (get_state_range _ _ _ Hs).
  rewrite (proj2 (Z.ltb_ge phy 0)), (proj2 (Z.ltb_ge v 0)) by lia. cbn [orb].
  change ((SWAP_ACTION_OUT <? SWAP_ACTION_NONE) || (SWAP_ACTION_IN <? SWAP_ACTION_OUT)) with false. cbn iota.
  change (SWAP_ACTION_OUT =? SWAP_ACTION_OUT) with true. cbn iota. by rewrite Hs, Hc.
Qed.

Lemma force_out_keeps c cf now a phy pod v flag rc a' :
  swap_resolver_write_swap_command c cf now a phy pod v SWAP_ACTION_OUT flag = Some (rc, a') -> keeps (a_shm a) (a_shm a').
Proof.
  intros H. destruct (Z.ltb_spec v 0).
  - unfold swap_resolver_write_swap_command in H. rewrite (proj2 (Z.ltb_lt v 0)), orb_true_r in H by done. by injection H as _ <-.
  - intros phy' s Hs Hst. destruct (decide (phy' = phy)) as [->|Hne].
    + rewrite (force_out_skips _ _ _ _ _ _ _ _ s) in H by done. injection H as _ <-. by exists s.
    + exists s. by rewrite (write_command_only _ _ _ _ _ _ _ _ _ _ _ H).
Qed.

Lemma clear_swap_keeps env a phy v rc a' : npu_allocator_clear_swap env a phy v = Some (rc, a') -> keeps (a_shm a) (a_shm a').
Proof.
  unfold npu_allocator_clear_swap. intros H. destruct (shm_manager_get_state (a_shm a) phy) as [s|] eqn:Hs.
  - destruct (free_on_die _ a phy s v) as [a1|] eqn:E; [|done]. injection H as _ <-. by eapply free_on_die_keeps.
  - by injection H as _ <-.
Qed.

Lemma control_stalled phy aenv renv m pod action rc m' :
  enpu_manager_swap_control aenv renv m pod action = Some (rc, m') -> die_stalled phy m -> die_stalled phy m'.
Proof.
  unfold enpu_manager_swap_control. destruct (find_pod_allocation m pod) as [[p v]|]; [|by intros [= _ <-]].
  destruct action as [| | |x]; [| | |by intros [= _ <-]].
  - unfold enpu_manager_swap_clean_impl. intros H. run H; try done. eapply die_stalled_keeps; [done..|by eapply clear_swap_keeps].
  - unfold enpu_manager_swap_force_out_impl. intros H. run H; try done. eapply die_stalled_keeps; [done..|by eapply force_out_keeps].
  - unfold enpu_manager_swap_force_in_impl. intros H. run H; try done. eapply die_stalled_keeps; [done..|by eapply force_in_keeps].
Qed.

Lemma run_step_stalled phy m m' : run_step m m' -> die_stalled phy m -> die_stalled phy m'.
Proof.
  destruct 1 as [m a p s v slot seq rc s' Ha Hs E|m a c now rc sm t Ha E|m a env r p r' a' Ha Hr E|m aenv renv pod action rc m' E|m env pod container rc m' E].
  - eapply die_stalled_keeps; [done..|]. cbn. eapply set_state_keeps; [done|]. by eapply try_ack_stalled.
  - eapply die_stalled_keeps; [done..|]. exact (poll_keeps _ _ _ _ _ E).
  - eapply die_stalled_keeps; [done..|]. by eapply thread_step_keeps.
  - by eapply control_stalled.
  - unfold enpu_manager_release in E. run E; [|done]. eapply die_stalled_keeps; [done..|by eapply release_keeps].
Qed.

Lemma write_in_stalls sm phy pod v flag now sm' :
  shm_manager_write_swap_cmd sm phy pod v SWAP_ACTION_IN flag now = Some (ENPU_SUCCESS, sm') ->
  exists s', shm_manager_get_state sm' phy = Some s' ∧ stalled s'.
Proof.
  unfold shm_manager_write_swap_cmd, with_state. destruct (negb _); [done|].
  change ((SWAP_ACTION_IN <? SWAP_ACTION_NONE) || (SWAP_ACTION_IN <? SWAP_ACTION_IN)) with false. cbn iota. destruct (phy <? 0); [done|].
  destruct (shm_manager_get_state sm phy) as [s|] eqn:Hs; [|done]. cbv zeta. destruct (snprintf_s _ _ pod) as [ret uid]. destruct (ret <? 0); [done|].
  change (SWAP_ACTION_IN =? SWAP_ACTION_OUT) with false. cbn [mbind option_bind]. intros [= <-]. eexists. by rewrite (get_state_put _ _ s), decide_True.
Qed.

Lemma force_in_stalls aenv renv m pod phy v m' :
  find_pod_allocation m pod = Some (phy, v) -> enpu_manager_swap_control aenv renv m pod SWAP_ACTION_FORCE_IN = Some (ENPU_SUCCESS, m') -> die_stalled phy m'.
Proof.
  intros Hp. unfold enpu_manager_swap_control. rewrite Hp. unfold enpu_manager_swap_force_in_impl, npu_allocator_write_swap_cmd.
  destruct (em_allocator m) as [a|]; [|done].
  destruct (shm_manager_write_swap_cmd _ _ _ _ _ _ _) as [[rc sm]|] eqn:E; [|done]. intros [= -> <-].
  destruct (write_in_stalls _ _ _ _ _ _ _ E) as (s' & Hs' & Hst). by exists (set_a_shm sm a), s'.
Qed.

End manager.

(** A forced swap-in stops the swapping of its die.  Once the manager has
    written the command, and as long as no vNPU is allocated or recovered,
    nothing completes it: not the acks of any process, not the watchdog, not
    the threads of the dies, not a further forced swap of either kind and not
    a release, even of the vNPU it was for.  In every state reached the thread
    of the die does nothing, whatever the use of the memory, and a forced
    swap-out of a vNPU of the die reports success without swapping. *)
Theorem force_in_stalls_die `{SC : Securec} {S} `{!Storage S} aenv renv (m m1 m2 : enpu_manager (S := S)) pod phy v :
  find_pod_allocation m pod = Some (phy, v) ->
  enpu_manager_swap_control aenv renv m pod SWAP_ACTION_FORCE_IN = Some (ENPU_SUCCESS, m1) ->
  rtc run_step m1 m2 ->
  exists a s, em_allocator m2 = Some a ∧ shm_manager_get_state (a_shm a) phy = Some s ∧ cmd_completed (st_swap_cmd s) = false
    ∧ (forall env r, swap_resolver_thread_step env r a phy = Some (r, a))
    ∧ forall aenv' renv' r pod' v', em_resolver m2 = Some r -> find_pod_allocation m2 pod' = Some (phy, v') -> 0 <= v' ->
        enpu_manager_swap_control aenv' renv' m2 pod' SWAP_ACTION_FORCE_OUT = Some (ENPU_SUCCESS, set_em_allocator a m2).
Proof.
  intros Hp Hin Hrun. assert (Hst : die_stalled phy m2).
  { apply (force_in_stalls _ _ _ _ _ _ _ Hp) in Hin. clear -Hin Hrun. induction Hrun as [|x y z Hxy _ IH]; [done|]. apply IH. by eapply run_step_stalled. }
  destruct Hst as (a & s & Ha & Hs & Hst). exists a, s. split_and!; [done..|apply Hst| |].
  - intros env r. unfold swap_resolver_thread_step. rewrite (pending_iff _ _ _ Hs), (proj2 Hst). done.
  - intros aenv' renv' r pod' v' Hr Hf Hv. unfold enpu_manager_swap_control. rewrite Hf. unfold enpu_manager_swap_force_out_impl.
    rewrite Hr, Ha, (force_out_skips _ _ _ _ _ _ _ _ s) by done. done.
Qed.

(** A die with two vNPUs on the device, over its watermark. *)
Definition stall_demo : npu_allocator memory_adapter :=
  set_a_registry (mk_registry [demo_allocation "p" 0 0; demo_allocation "q" 0 1] 8 (Some memory_storage_adapter_create))
    (set_a_shm (ex_mgr [10; 30]
       (ex_state [ex_entry 0 4096 1 [ex_process 7 0 4096 false 0 0]; ex_entry 1 4096 1 [ex_process 8 0 4096 false 0 0]]))
     (demo_alloc memory_storage_adapter_create)).
Definition stall_resolver : swap_resolver := mk_resolver d_zero 0 (replicate 16 d_zero) (replicate 16 false).
Definition stall_manager : enpu_manager :=
  mk_manager (Some stall_demo) true (Some (mk_swap_buffer_manager 8192 0)) (Some stall_resolver) [0] true true true 500.
Definition stall_env : resolver_env := mk_resolver_env (fun _ _ => libc1) (fun _ => libc1) (fun _ _ => libc1) 1.

Lemma force_in_stalls_die_witness :
  exists m1 m2 a, enpu_manager_swap_control (SC := securec_ref) demo_env stall_env stall_manager "p" SWAP_ACTION_FORCE_IN = Some (ENPU_SUCCESS, m1)
    ∧ enpu_manager_release (SC := securec_ref) demo_env m1 "p" "c" = Some (ENPU_SUCCESS, m2) ∧ em_allocator m2 = Some a
    ∧ swap_resolver_thread_step (SC := securec_ref) stall_env stall_resolver a 0 = Some (stall_resolver, a).
Proof.
  assert (E : (fun x => (x.1, fst <$> enpu_manager_release (SC := securec_ref) demo_env x.2 "p" "c"))
    <$> enpu_manager_swap_control (SC := securec_ref) demo_env stall_env stall_manager "p" SWAP_ACTION_FORCE_IN = Some (ENPU_SUCCESS, Some ENPU_SUCCESS))
    by (vm_compute; reflexivity).
  destruct (enpu_manager_swap_control (SC := securec_ref) demo_env stall_env stall_manager "p" SWAP_ACTION_FORCE_IN) as [[rc m1]|] eqn:E1; [|discriminate E].
  cbn [fmap option_fmap option_map fst snd] in E.
  destruct (enpu_manager_release (SC := securec_ref) demo_env m1 "p" "c") as [[rc2 m2]|] eqn:E2; [|discriminate E].
  injection E as -> E3. cbn [fst] in E3. subst rc2.
  destruct (force_in_stalls_die (SC := securec_ref) demo_env stall_env stall_manager m1 m2 "p" 0 0 eq_refl E1) as (a & s & Ha & _ & _ & Hthread & _).
  - eapply rtc_once, run_release, E2.
  - exists m1, m2, a. split; [reflexivity|]. split; [exact E2|]. split; [exact Ha|apply Hthread].
Defined.
