(* ===== verification/HashMap.v ===== *)
(** The hash map of the runtime (vcann-rt/src/utils/hash_map.c): an array of
    chains of nodes, against a finite map.

    A chain is the list of its nodes; pointers are their addresses. *)

From S2P Require Import Prelude.

Definition HASH_MOD : Z := 2654435761.

Record MapValue := mk_value { mv_ptr : Z; mv_capture_status : bool }.
Abbreviation chain := (list (Z * MapValue)).
Record HashMap := mk_hashmap { hm_buckets : list chain; hm_capacity : Z; hm_size : Z }.

Definition hash_ptr (ptr capacity : Z) : Z := if capacity =? 0 then 0 else u64 (ptr * HASH_MOD) mod capacity.

Definition hashmap_create (malloc_ok calloc_ok : bool) (capacity : Z) : option HashMap :=
  if capacity =? 0 then None
  else if UINT64_MAX / 8 <? capacity then None
  else if negb malloc_ok then None
  else if negb calloc_ok then None
  else Some (mk_hashmap (replicate (Z.to_nat capacity) []) capacity 0).

(** * The loops over a chain *)

Fixpoint node_find (key : Z) (c : chain) : option MapValue :=
  match c with [] => None | (k, v) :: r => if k =? key then Some v else node_find key r end.

(** [None]: no node has the key. *)
Fixpoint node_update (key : Z) (v : MapValue) (c : chain) : option chain :=
  match c with
  | [] => None
  | (k, w) :: r => if k =? key then Some ((k, v) :: r) else r' ← node_update key v r; Some ((k, w) :: r')
  end.

Fixpoint node_remove (key : Z) (c : chain) : option chain :=
  match c with
  | [] => None
  | (k, w) :: r => if k =? key then Some r else r' ← node_remove key r; Some ((k, w) :: r')
  end.

(** [map->buckets[idx]] *)
Definition bucket (m : HashMap) (key : Z) : option chain := hm_buckets m !! Z.to_nat (hash_ptr key (hm_capacity m)).
Definition set_bucket (m : HashMap) (key : Z) (c : chain) (size : Z) : HashMap :=
  mk_hashmap (<[Z.to_nat (hash_ptr key (hm_capacity m)) := c]> (hm_buckets m)) (hm_capacity m) size.

(** * The operations *)

Definition hashmap_put (malloc_ok : bool) (m : HashMap) (key ptr : Z) (capture_status : bool) : option (Z * HashMap) :=
  if key =? 0 then Some (-1, m)
  else
    c ← bucket m key;
    match node_update key (mk_value ptr capture_status) c with
    | Some c' => Some (0, set_bucket m key c' (hm_size m))
    | None =>
        if negb malloc_ok then Some (-1, m)
        else Some (0, set_bucket m key ((key, mk_value ptr capture_status) :: c) (u64 (hm_size m + 1)))
    end.

(** A search: the code and what is found. *)
Definition hashmap_search {A} (f : MapValue -> A) (m : HashMap) (key : Z) : option (Z * option A) :=
  if key =? 0 then Some (-1, None)
  else c ← bucket m key; Some (match node_find key c with Some v => (0, Some (f v)) | None => (-1, None) end).
Definition hashmap_get (m : HashMap) (key : Z) : option (Z * option MapValue) := hashmap_search id m key.
Definition hashmap_get_ptr (m : HashMap) (key : Z) : option (Z * option Z) := hashmap_search mv_ptr m key.
Definition hashmap_get_capture_status (m : HashMap) (key : Z) : option (Z * option bool) := hashmap_search mv_capture_status m key.

Definition hashmap_remove (m : HashMap) (key : Z) : option (Z * HashMap) :=
  if key =? 0 then Some (-1, m)
  else
    c ← bucket m key;
    match node_remove key c with
    | Some c' => Some (0, set_bucket m key c' (u64 (hm_size m - 1)))
    | None => Some (-1, m)
    end.

Definition hashmap_contains (m : HashMap) (key : Z) : option Z :=
  if key =? 0 then Some 0 else c ← bucket m key; Some (match node_find key c with Some _ => 1 | None => 0 end).

Definition hashmap_size (m : HashMap) : Z := hm_size m.

(** * The map it implements *)

Record hm_rep (m : HashMap) (M : gmap Z MapValue) : Prop := {
  hr_cap : 0 < hm_capacity m;
  hr_len : length (hm_buckets m) = Z.to_nat (hm_capacity m);
  hr_nodup : Forall (fun c : chain => NoDup c.*1) (hm_buckets m);
  hr_lookup k c : k <> 0 -> bucket m k = Some c -> node_find k c = M !! k;
  hr_null : M !! 0 = None;
  hr_size : hm_size m = u64 (Z.of_nat (size M));
}.

Lemma node_find_None k c : node_find k c = None <-> k ∉ c.*1.
Proof.
  induction c as [|[x v] c IH]; simpl; [split; [intros _; apply not_elem_of_nil|done]|]. rewrite not_elem_of_cons.
  destruct (Z.eqb_spec x k); [by subst; split; [|intros [? ?]]|]. rewrite IH. naive_solver.
Qed.

Lemma node_update_spec k v c :
  match node_update k v c with
  | Some c' => is_Some (node_find k c) ∧ c'.*1 = c.*1 ∧ forall x, node_find x c' = if decide (x = k) then Some v else node_find x c
  | None => node_find k c = None
  end.
Proof.
  induction c as [|[y w] c IH]; simpl; [done|]. destruct (Z.eqb_spec y k) as [->|Hne].
  - split; [by eexists|]. split; [done|]. intros x. simpl. destruct (Z.eqb_spec k x) as [->|]; [by rewrite decide_True|by rewrite decide_False].
  - destruct (node_update k v c) as [c'|]; [|done]. simpl. destruct IH as (H1 & H2 & H3). split; [done|]. split; [by f_equal|].
    intros x. destruct (Z.eqb_spec y x) as [->|]; [by rewrite decide_False|apply H3].
Qed.

Lemma node_remove_spec k c :
  NoDup c.*1 ->
  match node_remove k c with
  | Some c' => is_Some (node_find k c) ∧ c'.*1 ⊆ c.*1 ∧ NoDup c'.*1 ∧ forall x, node_find x c' = if decide (x = k) then None else node_find x c
  | None => node_find k c = None
  end.
Proof.
  induction c as [|[y w] c IH]; simpl; [done|]. intros [Hni Hnd]%NoDup_cons. destruct (Z.eqb_spec y k) as [->|Hne].
  - split; [by eexists|]. split; [by intros x Hx; right|]. split; [done|]. intros x. destruct (Z.eqb_spec k x) as [->|].
    + rewrite decide_True by done. by apply node_find_None.
    + by rewrite decide_False.
  - specialize (IH Hnd). destruct (node_remove k c) as [c'|]; [|done]. simpl. destruct IH as (H1 & H2 & H3 & H4). split; [done|].
    split; [intros x [->|?]%elem_of_cons; [left|right; by apply H2]|]. split; [apply NoDup_cons; split; [|done]; intros ?; by apply Hni, H2|].
    intros x. destruct (Z.eqb_spec y x) as [->|]; [by rewrite decide_False|apply H4].
Qed.

Lemma bucket_some m M k : hm_rep m M -> exists c, bucket m k = Some c ∧ NoDup c.*1.
Proof.
  intros [Hc Hl Hn _ _ _]. unfold bucket, hash_ptr. rewrite (proj2 (Z.eqb_neq (hm_capacity m) 0)) by lia.
  pose proof (Z.mod_pos_bound (u64 (k * HASH_MOD)) (hm_capacity m) Hc).
  destruct (lookup_lt_is_Some_2 (hm_buckets m) (Z.to_nat (u64 (k * HASH_MOD) mod hm_capacity m))) as [c Hb]; [rewrite Hl; lia|].
  exists c. split; [done|]. exact (Forall_lookup_1 _ _ _ _ Hn Hb).
Qed.

(** A new chain in the place of the key. *)
Lemma set_bucket_rep m M M' k c c' n :
  hm_rep m M -> k <> 0 -> bucket m k = Some c -> NoDup c'.*1 -> n = u64 (Z.of_nat (size M')) ->
  (forall x, x <> k -> M' !! x = M !! x) -> node_find k c' = M' !! k -> (forall x, x <> k -> node_find x c' = node_find x c) ->
  hm_rep (set_bucket m k c' n) M'.
Proof.
  intros H Hk Hb Hnd Hn HM Hfk Hfx. destruct H as [Hc Hl Hno Hlook H0 Hs]. constructor; try done.
  - cbn. by rewrite length_insert.
  - cbn. by apply Forall_insert.
  - intros x cx Hx. unfold bucket, set_bucket. cbn. intros [(E & <- & _)|(Hne & Hcx)]%list_lookup_insert_Some.
    + destruct (decide (x = k)) as [->|Hxk]; [done|]. rewrite Hfx, HM by done. apply Hlook; [done|]. unfold bucket in *. by rewrite <- E.
    + rewrite HM by (by intros ->). by apply Hlook.
  - by rewrite HM.
Qed.

Lemma put_ok m M k p cs malloc_ok :
  hm_rep m M -> k <> 0 -> malloc_ok = true \/ is_Some (M !! k) ->
  exists m', hashmap_put malloc_ok m k p cs = Some (0, m') ∧ hm_rep m' (<[k := mk_value p cs]> M) ∧ hm_capacity m' = hm_capacity m.
Proof.
  intros H Hk Hok. destruct (bucket_some m M k H) as (c & Hb & Hnd). unfold hashmap_put. rewrite (proj2 (Z.eqb_neq k 0)), Hb by done. cbn [mbind option_bind].
  pose proof (hr_lookup _ _ H k c Hk Hb) as Hf. pose proof (node_update_spec k (mk_value p cs) c) as Hu. rewrite Hf in Hu.
  destruct (node_update _ _ c) as [c'|].
  - destruct Hu as ([v Hv] & Hkeys & Hfind). eexists. split; [done|]. split; [|done]. eapply set_bucket_rep; try done.
    + by rewrite Hkeys.
    + rewrite (hr_size _ _ H). by rewrite map_size_insert_Some by (by eexists).
    + intros x Hx. by rewrite lookup_insert_ne.
    + by rewrite Hfind, decide_True, lookup_insert_eq.
    + intros x Hx. by rewrite Hfind, decide_False.
  - destruct Hok as [->|[v Hv]]; [|congruence]. cbn [negb]. eexists. split; [done|]. split; [|done]. eapply set_bucket_rep; try done.
    + cbn. apply NoDup_cons. split; [|done]. apply node_find_None. congruence.
    + rewrite (hr_size _ _ H), map_size_insert_None by done. unfold u64. rewrite Zplus_mod_idemp_l. f_equal. lia.
    + intros x Hx. by rewrite lookup_insert_ne.
    + cbn. by rewrite Z.eqb_refl, lookup_insert_eq.
    + intros x Hx. cbn. by rewrite (proj2 (Z.eqb_neq k x)).
Qed.

Lemma put_fail m M k p cs : hm_rep m M -> k <> 0 -> M !! k = None -> hashmap_put false m k p cs = Some (-1, m).
Proof.
  intros H Hk Hn. destruct (bucket_some m M k H) as (c & Hb & _). unfold hashmap_put. rewrite (proj2 (Z.eqb_neq k 0)), Hb by done. cbn [mbind option_bind].
  pose proof (node_update_spec k (mk_value p cs) c) as Hu. rewrite (hr_lookup _ _ H k c Hk Hb), Hn in Hu.
  destruct (node_update _ _ c); [by destruct Hu as [[? ?] _]|done].
Qed.

Lemma search_eq {A} (f : MapValue -> A) m M k :
  hm_rep m M -> k <> 0 -> hashmap_search f m k = Some (match M !! k with Some v => (0, Some (f v)) | None => (-1, None) end).
Proof.
  intros H Hk. destruct (bucket_some m M k H) as (c & Hb & _). unfold hashmap_search. rewrite (proj2 (Z.eqb_neq k 0)), Hb by done.
  cbn [mbind option_bind]. by rewrite (hr_lookup _ _ H k c Hk Hb).
Qed.

Lemma remove_eq m M k :
  hm_rep m M -> k <> 0 ->
  match M !! k with
  | Some _ => exists m', hashmap_remove m k = Some (0, m') ∧ hm_rep m' (delete k M) ∧ hm_capacity m' = hm_capacity m
  | None => hashmap_remove m k = Some (-1, m)
  end.
Proof.
  intros H Hk. destruct (bucket_some m M k H) as (c & Hb & Hnd). unfold hashmap_remove. rewrite (proj2 (Z.eqb_neq k 0)), Hb by done. cbn [mbind option_bind].
  pose proof (node_remove_spec k c Hnd) as Hr. rewrite (hr_lookup _ _ H k c Hk Hb) in Hr. destruct (node_remove k c) as [c'|]; [|by rewrite Hr].
  destruct Hr as ([v Hv] & _ & Hnd' & Hfind). rewrite Hv. eexists. split; [done|]. split; [|done]. eapply set_bucket_rep; try done.
  - rewrite (hr_size _ _ H), map_size_delete_Some by (by eexists). unfold u64. rewrite Zminus_mod_idemp_l. f_equal.
    assert (size M <> 0%nat) by (intros E%map_size_empty_inv; by rewrite E, lookup_empty in Hv). lia.
  - intros x Hx. by rewrite lookup_delete_ne.
  - by rewrite Hfind, decide_True, lookup_delete_eq.
  - intros x Hx. by rewrite Hfind, decide_False.
Qed.

Lemma create_rep capacity : 0 < capacity <= UINT64_MAX / 8 -> exists m, hashmap_create true true capacity = Some m ∧ hm_rep m ∅ ∧ hm_capacity m = capacity.
Proof.
  intros H. unfold hashmap_create. rewrite (proj2 (Z.eqb_neq capacity 0)), (proj2 (Z.ltb_ge (UINT64_MAX / 8) capacity)) by lia. eexists. split; [done|].
  split; [|done]. constructor; cbn; [lia|by rewrite length_replicate|apply Forall_replicate, NoDup_nil_2| |done|done].
  intros k c _. unfold bucket. cbn. intros [-> _]%lookup_replicate. by rewrite lookup_empty.
Qed.

(** The hash map implements a finite map from non-null keys to values.  A
    search, the test of membership and the size answer as the map does; a put
    inserts or replaces, and when there is no memory for a new node it fails
    and changes nothing, while the replacement of a value needs no memory; a
    removal deletes the key, or reports that it is missing and changes
    nothing.  No operation indexes past the array of buckets. *)
Theorem hashmap_refines_map m M k p cs :
  hm_rep m M -> k <> 0 ->
  hashmap_get m k = Some (match M !! k with Some v => (0, Some v) | None => (-1, None) end)
  ∧ hashmap_contains m k = Some (match M !! k with Some _ => 1 | None => 0 end)
  ∧ hashmap_size m = u64 (Z.of_nat (size M))
  ∧ (exists m', hashmap_put true m k p cs = Some (0, m') ∧ hm_rep m' (<[k := mk_value p cs]> M))
  ∧ match M !! k with
    | Some _ => (exists m', hashmap_put false m k p cs = Some (0, m') ∧ hm_rep m' (<[k := mk_value p cs]> M))
                ∧ exists m', hashmap_remove m k = Some (0, m') ∧ hm_rep m' (delete k M)
    | None => hashmap_put false m k p cs = Some (-1, m) ∧ hashmap_remove m k = Some (-1, m)
    end.
Proof.
  intros H Hk. split; [exact (search_eq id m M k H Hk)|]. split.
  { destruct (bucket_some m M k H) as (c & Hb & _). unfold hashmap_contains. rewrite (proj2 (Z.eqb_neq k 0)), Hb by done. cbn [mbind option_bind].
    by rewrite (hr_lookup _ _ H k c Hk Hb). }
  split; [apply (hr_size _ _ H)|]. split.
  { destruct (put_ok m M k p cs true H Hk) as (m' & ? & ? & _); [by left|]. by exists m'. }
  pose proof (remove_eq m M k H Hk) as Hr. destruct (M !! k) as [v|] eqn:E; [|split; [by apply (put_fail m M)|done]].
  destruct Hr as (m1 & ? & ? & _). split; [|by exists m1].
  destruct (put_ok m M k p cs false H Hk) as (m' & ? & ? & _); [right; by eexists|]. by exists m'.
Qed.

Lemma hashmap_refines_map_witness :
  exists m m', hashmap_create true true 4 = Some m ∧ hashmap_put true m 64 7 true = Some (0, m') ∧ hm_rep m' {[64 := mk_value 7 true]}.
Proof.
  destruct (create_rep 4) as (m & E & H & _); [vm_compute; split; discriminate || reflexivity|].
  destruct (hashmap_refines_map m ∅ 64 7 true H ltac:(discriminate)) as (_ & _ & _ & (m' & Hput & Hrep) & _).
  exists m, m'. split; [exact E|]. split; [exact Hput|exact Hrep].
Defined.
