(* ===== verification/MemoryTracker.v ===== *)
(** The tracker of the device memory of a process
    (vcann-rt/src/memory_tracker.c): an array of records, a hash map from the
    address of an allocation to its record, and two lists of mappings and
    handles.

    A pointer to a record is its address in the array [t_base]; following a
    pointer that is not into the current array is undefined.  The recursive
    lock is not part of the state. *)

From S2P Require Import Prelude HashMap.

Record memory_record := mk_record {
  mr_ptr : Z;
  mr_size : Z;
  mr_handle : Z;
  mr_is_swapped : bool;
  mr_is_physical : bool;
  mr_swap_offset : Z;
  mr_alloc_time_ns : Z;
}.
Definition record0 : memory_record := mk_record 0 0 0 false false 0 0.
(** [sizeof(memory_record_t)] *)
Definition RECORD_SIZE : Z := 48.

(** Entries of the two lists; [rtDrvMemProp_t] is a type of the driver. *)
Record MapRecordNode := mk_map_node { mn_va : Z; mn_handle : Z; mn_size : Z; mn_offset : Z; mn_flags : Z }.

Section tracker.
  Context {rtDrvMemProp_t : Type}.

Record HandleRecordNode := mk_handle_node { hn_handle : Z; hn_size : Z; hn_prop : rtDrvMemProp_t; hn_flags : Z }.

Record memory_tracker := mk_tracker {
  t_map : HashMap;
  t_base : Z;
  t_records : list memory_record;
  t_capacity : Z;
  t_count : Z;
  t_map_records : list MapRecordNode;
  t_handle_records : list HandleRecordNode;
}.

Definition set_t_map (m : HashMap) (t : memory_tracker) : memory_tracker :=
  mk_tracker m (t_base t) (t_records t) (t_capacity t) (t_count t) (t_map_records t) (t_handle_records t).
Definition set_t_records (r : list memory_record) (t : memory_tracker) : memory_tracker :=
  mk_tracker (t_map t) (t_base t) r (t_capacity t) (t_count t) (t_map_records t) (t_handle_records t).
Definition set_t_count (n : Z) (t : memory_tracker) : memory_tracker :=
  mk_tracker (t_map t) (t_base t) (t_records t) (t_capacity t) n (t_map_records t) (t_handle_records t).

(** [&tracker->records[i]], and the way back. *)
Definition record_addr (base i : Z) : Z := base + RECORD_SIZE * i.
Definition record_index (t : memory_tracker) (p : Z) : option nat :=
  let d := p - t_base t in
  if (0 <=? d) && (d mod RECORD_SIZE =? 0) && (d / RECORD_SIZE <? t_capacity t) then Some (Z.to_nat (d / RECORD_SIZE)) else None.
Definition record_at (t : memory_tracker) (p : Z) : option memory_record := i ← record_index t p; t_records t !! i.
Definition put_record (p : Z) (r : memory_record) (t : memory_tracker) : option memory_tracker :=
  i ← record_index t p; _ ← t_records t !! i; Some (set_t_records (<[i := r]> (t_records t)) t).

(** What the C library answers: the array, the map and its buckets. *)
Record tracker_env := mk_tracker_env {
  te_calloc : option Z;
  te_map_malloc : bool;
  te_map_calloc : bool;
  te_node_malloc : nat -> bool;
  te_memcpy_rc : Z;
}.

(** [ok]: whether the tracker and the two head nodes can be allocated. *)
Definition memory_tracker_create (ok : bool) (env : tracker_env) (capacity : Z) : option memory_tracker :=
  if capacity =? 0 then None
  else if UINT64_MAX / RECORD_SIZE <? capacity then None
  else if negb ok then None
  else
    base ← te_calloc env;
    m ← hashmap_create (te_map_malloc env) (te_map_calloc env) capacity;
    Some (mk_tracker m base (replicate (Z.to_nat capacity) record0) capacity 0 [] []).

(** The loop that moves the records to the new map; [Some None]: a put failed. *)
Fixpoint move_records (env : tracker_env) (base : Z) (i : nat) (rs : list memory_record) (m : HashMap) : option (option HashMap) :=
  match rs with
  | [] => Some (Some m)
  | r :: rest =>
      if mr_ptr r =? 0 then move_records env base (S i) rest m
      else
        '(rc, m1) ← hashmap_put (te_node_malloc env i) m (mr_ptr r) (record_addr base (Z.of_nat i)) false;
        if negb (rc =? 0) then Some None else move_records env base (S i) rest m1
  end.

(** The records that are not copied are zero. *)
Definition memory_tracker_expand (env : tracker_env) (t : memory_tracker) (new_capacity : Z) : option (Z * memory_tracker) :=
  if (new_capacity =? 0) || (UINT64_MAX / RECORD_SIZE <? new_capacity) then Some (RT_FAIL, t)
  else
    match te_calloc env with
    | None => Some (RT_FAIL, t)
    | Some base =>
        if (0 <? t_count t) && negb (te_memcpy_rc env =? 0) then Some (RT_FAIL, t)
        else
          let copied := take (Z.to_nat (if t_count t <? new_capacity then t_count t else new_capacity)) (t_records t) in
          let rs := copied ++ replicate (Z.to_nat new_capacity - length copied) record0 in
          match hashmap_create (te_map_malloc env) (te_map_calloc env) new_capacity with
          | None => Some (RT_FAIL, t)
          | Some m =>
              r ← (if t_count t <=? new_capacity then move_records env base 0 (take (Z.to_nat (t_count t)) rs) m else None);
              match r with
              | None => Some (-1, t)
              | Some m' => Some (ENPU_SUCCESS, mk_tracker m' base rs new_capacity (t_count t) (t_map_records t) (t_handle_records t))
              end
          end
    end.

(** [None] for a copy of more records than there are: undefined. *)
Definition memory_tracker_add (put_malloc : bool) (env : tracker_env) (now_ns : Z) (t : memory_tracker) (ptr size handle : Z) (is_physical : bool) :
    option (Z * memory_tracker) :=
  if (ptr =? 0) || (size =? 0) then Some (RT_FAIL, t)
  else if t_capacity t <=? t_count t then Some (RT_FAIL, t)
  else
    let p := record_addr (t_base t) (t_count t) in
    t1 ← put_record p (mk_record ptr size handle false is_physical 0 now_ns) t;
    '(ret, m) ← hashmap_put put_malloc (t_map t1) ptr p false;
    let t2 := set_t_map m t1 in
    if negb (ret =? 0) then Some (RT_FAIL, t2)
    else
      let t3 := set_t_count (u64 (t_count t2 + 1)) t2 in
      if t_capacity t3 <=? u64 (2 * t_count t3) then
        '(rc, t4) ← memory_tracker_expand env t3 (u64 (t_capacity t3 * 2));
        Some (if negb (rc =? ENPU_SUCCESS) then RT_FAIL else ENPU_SUCCESS, t4)
      else Some (ENPU_SUCCESS, t3).

(** The loop of [memory_tracker_remove] for the indices [is]; [malloc] answers
    the allocation of a node. *)
Fixpoint shift_records (malloc : nat -> bool) (is_ : list nat) (t : memory_tracker) : option (Z * memory_tracker) :=
  match is_ with
  | [] => Some (ENPU_SUCCESS, t)
  | i :: rest =>
      r ← t_records t !! S i;
      _ ← t_records t !! i;
      let t1 := set_t_records (<[i := r]> (t_records t)) t in
      '(ret, m) ← hashmap_put (malloc i) (t_map t1) (mr_ptr r) (record_addr (t_base t) (Z.of_nat i)) false;
      if negb (ret =? ENPU_SUCCESS) then Some (RT_FAIL, set_t_map m t1) else shift_records malloc rest (set_t_map m t1)
  end.

(** The index is an [int]: a negative one would be converted to [size_t]. *)
Definition memory_tracker_remove (malloc : nat -> bool) (t : memory_tracker) (ptr : Z) : option (Z * memory_tracker) :=
  if ptr =? 0 then Some (RT_FAIL, t)
  else
    match list_find (fun r => mr_ptr r = ptr) (take (Z.to_nat (t_count t)) (t_records t)) with
    | None => Some (ENPU_SUCCESS, t)
    | Some (i, _) =>
        let found_index := i32 (Z.of_nat i) in
        if found_index =? -1 then Some (ENPU_SUCCESS, t)
        else
          let first := u64 found_index in
          '(rc, t1) ← shift_records malloc (seq (Z.to_nat first) (Z.to_nat (t_count t - 1) - Z.to_nat first)) t;
          if negb (rc =? ENPU_SUCCESS) then Some (RT_FAIL, t1)
          else
            '(ret, m) ← hashmap_remove (t_map t1) ptr;
            if negb (ret =? 0) then Some (RT_FAIL, set_t_map m t1) else Some (ENPU_SUCCESS, set_t_count (u64 (t_count t1 - 1)) (set_t_map m t1))
    end.

(** The address of the record, [Some None] for NULL. *)
Definition memory_tracker_find (t : memory_tracker) (ptr : Z) : option (option Z) :=
  if ptr =? 0 then Some None
  else
    '(_, value) ← hashmap_get_ptr (t_map t) ptr;
    Some (match value with Some p => if p =? 0 then None else Some p | None => None end).

Definition memory_record_mark_swapped (r : memory_record) (offset : Z) : memory_record :=
  mk_record (mr_ptr r) (mr_size r) (mr_handle r) true (mr_is_physical r) offset (mr_alloc_time_ns r).

(** A store through the pointer that [memory_tracker_find] returns. *)
Definition on_record (f : memory_record -> memory_record) (t : memory_tracker) (ptr : Z) : option (Z * memory_tracker) :=
  if ptr =? 0 then Some (RT_FAIL, t)
  else
    found ← memory_tracker_find t ptr;
    match found with
    | None => Some (RT_FAIL, t)
    | Some p => r ← record_at t p; t' ← put_record p (f r) t; Some (ENPU_SUCCESS, t')
    end.
Definition memory_tracker_mark_swapped (t : memory_tracker) (ptr offset : Z) : option (Z * memory_tracker) :=
  on_record (fun r => memory_record_mark_swapped r offset) t ptr.
Definition memory_tracker_mark_active (t : memory_tracker) (ptr new_handle : Z) : option (Z * memory_tracker) :=
  on_record (fun r => mk_record (mr_ptr r) (mr_size r) new_handle false (mr_is_physical r) 0 (mr_alloc_time_ns r)) t ptr.

Definition get_record_size (t : memory_tracker) (ptr size : Z) : option Z :=
  found ← memory_tracker_find t ptr;
  match found with None => Some size | Some p => r ← record_at t p; Some (mr_size r) end.

(** The addresses of the records, and their number as an [int]. *)
Definition memory_tracker_collect_records (malloc_ok : bool) (t : memory_tracker) : Z * option (list Z * Z) :=
  if negb malloc_ok then (RT_FAIL, None)
  else (ENPU_SUCCESS, Some (record_addr (t_base t) <$> seqZ 0 (t_count t), i32 (t_count t))).

Definition memory_tracker_find_swapped (t : memory_tracker) : option Z :=
  (fun ir => record_addr (t_base t) (Z.of_nat ir.1))
    <$> list_find (fun r => Is_true (mr_is_swapped r)) (take (Z.to_nat (t_count t)) (t_records t)).

(** * Mappings and handles *)

Definition set_t_lists (ms : list MapRecordNode) (hs : list HandleRecordNode) (t : memory_tracker) : memory_tracker :=
  mk_tracker (t_map t) (t_base t) (t_records t) (t_capacity t) (t_count t) ms hs.

Definition memory_tracker_add_map_record (malloc_ok : bool) (t : memory_tracker) (ptr size offset handle flags : Z) : Z * memory_tracker :=
  if negb malloc_ok then (RT_FAIL, t)
  else (ENPU_SUCCESS, set_t_lists (mk_map_node ptr handle size offset flags :: t_map_records t) (t_handle_records t) t).

Definition memory_tracker_add_handle_record (malloc_ok : bool) (t : memory_tracker) (handle size : Z) (prop : rtDrvMemProp_t) (flags : Z) :
    Z * memory_tracker :=
  if negb malloc_ok then (RT_FAIL, t)
  else (ENPU_SUCCESS, set_t_lists (t_map_records t) (mk_handle_node handle size prop flags :: t_handle_records t) t).

(** The first node that matches is unlinked. *)
Fixpoint remove_first {A} (p : A -> bool) (l : list A) : list A :=
  match l with [] => [] | x :: r => if p x then r else x :: remove_first p r end.

Definition memory_tracker_remove_map_record (t : memory_tracker) (ptr : Z) : Z * memory_tracker :=
  (ENPU_SUCCESS, set_t_lists (remove_first (fun n => mn_va n =? ptr) (t_map_records t)) (t_handle_records t) t).
Definition memory_tracker_remove_handle_record (t : memory_tracker) (handle : Z) : Z * memory_tracker :=
  (ENPU_SUCCESS, set_t_lists (t_map_records t) (remove_first (fun n => hn_handle n =? handle) (t_handle_records t)) t).

(** NULL, here 0, when there is none. *)
Definition memory_tracker_get_map_va (t : memory_tracker) (handle : Z) : Z * Z :=
  (ENPU_SUCCESS, match list_find (fun n => mn_handle n = handle) (t_map_records t) with Some (_, n) => mn_va n | None => 0 end).
Definition memory_tracker_get_map_prop (t : memory_tracker) (va : Z) : Z * option (Z * Z * Z) :=
  match list_find (fun n => mn_va n = va) (t_map_records t) with
  | Some (_, n) => (ENPU_SUCCESS, Some (mn_size n, mn_offset n, mn_flags n))
  | None => (RT_FAIL, None)
  end.
Definition memory_tracker_get_handle_prop (t : memory_tracker) (handle : Z) : Z * option (Z * rtDrvMemProp_t * Z) :=
  match list_find (fun n => hn_handle n = handle) (t_handle_records t) with
  | Some (_, n) => (ENPU_SUCCESS, Some (hn_size n, hn_prop n, hn_flags n))
  | None => (RT_FAIL, None)
  end.

End tracker.
Arguments memory_tracker : clear implicits.
Arguments HandleRecordNode : clear implicits.
