(* ===== verification/MemoryTrackerThms.v ===== *)
(** The tracker implements a finite map from addresses to records: the array
    and the hash map into it stay in step when the array moves and when its
    records shift. *)

From S2P Require Import Prelude HashMap MemoryTracker.

Section thms.
  Context {P : Type}.
  Implicit Types t : memory_tracker P.

Definition live t : list memory_record := take (Z.to_nat (t_count t)) (t_records t).

(** The map [M] sends the address of each record of [l] to its place. *)
Definition indexes (M : gmap Z MapValue) (base : Z) (l : list memory_record) : Prop :=
  forall p v, M !! p = Some v <-> exists (i : nat) r, l !! i = Some r ∧ mr_ptr r = p ∧ v = mk_value (record_addr base (Z.of_nat i)) false.

Definition distinct (l : list memory_record) : Prop := Forall (fun r => mr_ptr r <> 0) l ∧ NoDup (mr_ptr <$> l).

Record tracker_inv t : Prop := {
  ti_cap : 0 < t_capacity t <= I32_HALF;
  ti_len : length (t_records t) = Z.to_nat (t_capacity t);
  ti_count : 0 <= t_count t <= t_capacity t;
  ti_base : 0 < t_base t;
  ti_live : distinct (live t);
  ti_map : exists M, hm_rep (t_map t) M ∧ indexes M (t_base t) (live t);
}.

(** The records by their address. *)
Definition tracked t : gmap Z memory_record := list_to_map ((fun r => (mr_ptr r, r)) <$> live t).

(** * Lists of records *)

Lemma distinct_inj l i j r r' : distinct l -> l !! i = Some r -> l !! j = Some r' -> mr_ptr r = mr_ptr r' -> i = j.
Proof. intros [_ H] Hi Hj E. eapply (NoDup_lookup (mr_ptr <$> l)); [done|by rewrite list_lookup_fmap, Hi|by rewrite list_lookup_fmap, Hj, E]. Qed.

Lemma distinct_nonnull l i r : distinct l -> l !! i = Some r -> mr_ptr r <> 0.
Proof. intros [H _] Hi. exact (Forall_lookup_1 _ _ _ _ H Hi). Qed.

Lemma tracked_Some t p r : distinct (live t) -> tracked t !! p = Some r <-> exists i, live t !! i = Some r ∧ mr_ptr r = p.
Proof.
  intros [_ H]. unfold tracked. rewrite <- elem_of_list_to_map by (by rewrite <- list_fmap_compose). rewrite list_elem_of_fmap. split.
  - intros (x & [= -> ->] & [i Hi]%list_elem_of_lookup). by exists i.
  - intros (i & Hi & <-). exists r. split; [done|]. by eapply list_elem_of_lookup_2.
Qed.

Lemma tracked_None t p i r : tracked t !! p = None -> live t !! i = Some r -> mr_ptr r <> p.
Proof.
  unfold tracked. rewrite <- not_elem_of_list_to_map, <- list_fmap_compose. intros H Hi <-. apply H, list_elem_of_fmap.
  exists r. split; [done|]. by eapply list_elem_of_lookup_2.
Qed.

(** Two trackers with the same records up to [f] on addresses. *)
Lemma tracked_ext t (M : gmap Z memory_record) :
  distinct (live t) -> (forall p r, (exists i, live t !! i = Some r ∧ mr_ptr r = p) <-> M !! p = Some r) -> tracked t = M.
Proof. intros Hd H. apply map_eq. intros p. apply option_eq. intros r. rewrite tracked_Some by done. apply H. Qed.

Lemma distinct_snoc l r : distinct l -> mr_ptr r <> 0 -> (forall i x, l !! i = Some x -> mr_ptr x <> mr_ptr r) -> distinct (l ++ [r]).
Proof.
  intros [H1 H2] Hr Hn. split; [apply Forall_app; split; [done|by constructor]|]. rewrite fmap_app. apply NoDup_app. split; [done|]. split; [|apply NoDup_singleton].
  intros x (y & -> & [i Hi]%list_elem_of_lookup)%list_elem_of_fmap [E|E%not_elem_of_nil]%elem_of_cons; [by destruct (Hn _ _ Hi)|done].
Qed.

(** * The index *)

Lemma indexes_null M base l : distinct l -> indexes M base l -> M !! 0 = None.
Proof.
  intros Hd H. destruct (M !! 0) eqn:E; [|done]. apply H in E as (i & r & Hi & Hp & _). by destruct (distinct_nonnull _ _ _ Hd Hi).
Qed.

Lemma indexes_at M base l i r :
  indexes M base l -> l !! i = Some r -> M !! mr_ptr r = Some (mk_value (record_addr base (Z.of_nat i)) false).
Proof. intros H Hi. apply H. eauto. Qed.

Lemma indexes_alt M base l :
  indexes M base l <-> forall p v, M !! p = Some v <-> exists i : nat, (mr_ptr <$> l) !! i = Some p ∧ v = mk_value (record_addr base (Z.of_nat i)) false.
Proof.
  assert (H : forall p v, (exists (i : nat) r, l !! i = Some r ∧ mr_ptr r = p ∧ v = mk_value (record_addr base (Z.of_nat i)) false)
                <-> exists i : nat, (mr_ptr <$> l) !! i = Some p ∧ v = mk_value (record_addr base (Z.of_nat i)) false).
  { intros p v. setoid_rewrite list_lookup_fmap. setoid_rewrite fmap_Some. naive_solver. }
  unfold indexes. by setoid_rewrite H.
Qed.

Lemma indexes_same M base l l' : mr_ptr <$> l' = mr_ptr <$> l -> indexes M base l -> indexes M base l'.
Proof. rewrite !indexes_alt. by intros ->. Qed.

Lemma indexes_empty base : indexes ∅ base [].
Proof. intros p v. rewrite lookup_empty. split; [done|]. by intros (i & r & ? & _). Qed.

Lemma indexes_snoc M base l r :
  indexes M base l -> distinct (l ++ [r]) -> indexes (<[mr_ptr r := mk_value (record_addr base (Z.of_nat (length l))) false]> M) base (l ++ [r]).
Proof.
  intros H Hd p v. assert (Hlast : (l ++ [r]) !! length l = Some r) by (rewrite lookup_app_r, Nat.sub_diag by done; done).
  rewrite lookup_insert_Some, (H p v). split.
  - intros [(<- & <-)|(Hne & i & x & Hi & <- & ->)]; [by exists (length l), r|]. exists i, x. split; [by apply lookup_app_l_Some|done].
  - intros (i & x & Hi & <- & ->). destruct (decide (i = length l)) as [->|Hne].
    + rewrite Hlast in Hi. injection Hi as <-. by left.
    + right. split; [intros E; apply Hne; symmetry; eapply distinct_inj; eauto|]. exists i, x. split; [|done].
      apply lookup_app_Some in Hi as [?|[? Hi]]; [done|]. apply list_lookup_singleton_Some in Hi as [? _]. lia.
Qed.

(** * Following the index *)

Lemma record_index_addr t i : tracker_inv t -> (i < Z.to_nat (t_capacity t))%nat -> record_index t (record_addr (t_base t) (Z.of_nat i)) = Some i.
Proof.
  intros H Hi. unfold record_index, record_addr. replace (t_base t + RECORD_SIZE * Z.of_nat i - t_base t) with (Z.of_nat i * RECORD_SIZE) by lia.
  rewrite Z.mod_mul, Z.div_mul, (proj2 (Z.leb_le _ _)), (proj2 (Z.ltb_lt _ _)) by (unfold RECORD_SIZE; lia). cbn [andb Z.eqb]. by rewrite Nat2Z.id.
Qed.

Lemma live_lookup t i r : live t !! i = Some r <-> (i < Z.to_nat (t_count t))%nat ∧ t_records t !! i = Some r.
Proof. unfold live. rewrite lookup_take_Some. tauto. Qed.

Lemma live_bound t i r : tracker_inv t -> live t !! i = Some r -> (i < Z.to_nat (t_capacity t))%nat.
Proof. intros H [Hi _]%live_lookup. pose proof (ti_count _ H). lia. Qed.

Lemma live_length t : tracker_inv t -> length (live t) = Z.to_nat (t_count t).
Proof. intros H. unfold live. rewrite length_take, (ti_len _ H). pose proof (ti_count _ H). lia. Qed.

(** The search finds the record of an address that is tracked. *)
Lemma find_spec t p :
  tracker_inv t -> p <> 0 ->
  match tracked t !! p with
  | None => memory_tracker_find t p = Some None
  | Some r => exists i, live t !! i = Some r ∧ mr_ptr r = p
      ∧ memory_tracker_find t p = Some (Some (record_addr (t_base t) (Z.of_nat i)))
      ∧ record_index t (record_addr (t_base t) (Z.of_nat i)) = Some i
  end.
Proof.
  intros H Hp. destruct (ti_map _ H) as (M & HM & Hix). unfold memory_tracker_find. rewrite (proj2 (Z.eqb_neq p 0)) by done.
  unfold hashmap_get_ptr. rewrite (search_eq mv_ptr _ M) by done. cbn [mbind option_bind].
  destruct (tracked t !! p) as [r|] eqn:E.
  - apply tracked_Some in E as (i & Hi & <-); [|apply (ti_live _ H)]. exists i. rewrite (indexes_at _ _ _ _ _ Hix Hi). cbn [mv_ptr].
    rewrite (proj2 (Z.eqb_neq (record_addr _ _) 0)) by (pose proof (ti_base _ H); unfold record_addr, RECORD_SIZE; lia).
    split_and!; try done. apply record_index_addr; [done|by eapply live_bound].
  - destruct (M !! p) as [v|] eqn:Em; [|done]. apply Hix in Em as (i & r & Hi & Hr & _). by destruct (tracked_None t p i r E Hi).
Qed.

(** * Marking a record *)

Lemma on_record_spec f t p r :
  tracker_inv t -> p <> 0 -> (forall x, mr_ptr (f x) = mr_ptr x) -> tracked t !! p = Some r ->
  exists t', on_record f t p = Some (ENPU_SUCCESS, t') ∧ tracker_inv t' ∧ tracked t' = <[p := f r]> (tracked t).
Proof.
  intros H Hp Hf Hr. pose proof (find_spec t p H Hp) as Hfind. rewrite Hr in Hfind. destruct Hfind as (i & Hi & Hpr & Ef & Ei).
  pose proof (proj1 (live_lookup _ _ _) Hi) as [Hic Hrec]. unfold on_record. rewrite (proj2 (Z.eqb_neq p 0)), Ef by done. cbn [mbind option_bind].
  unfold record_at, put_record. rewrite Ei. cbn [mbind option_bind]. rewrite Hrec. cbn [mbind option_bind].
  set (t' := set_t_records _ t). assert (Hlive : live t' = <[i := f r]> (live t)) by (unfold live, t'; cbn; by rewrite take_insert_lt).
  assert (Hptrs : mr_ptr <$> live t' = mr_ptr <$> live t).
  { rewrite Hlive, list_fmap_insert, Hf. apply list_insert_id. by rewrite list_lookup_fmap, Hi. }
  assert (Hd : distinct (live t')).
  { destruct (ti_live _ H) as [H1 H2]. split; [|by rewrite Hptrs]. rewrite Hlive. apply Forall_insert; [done|]. rewrite Hf. by rewrite Hpr. }
  exists t'. split; [done|]. destruct H as [C L N B D (M & HM & Hix)]. split.
  - constructor; try done; [unfold t'; cbn; by rewrite length_insert|]. exists M. split; [done|]. by eapply indexes_same.
  - apply tracked_ext; [done|]. intros q x. rewrite lookup_insert_Some, tracked_Some by done. rewrite Hlive. split.
    + intros (j & [(<- & <- & _)|(Hne & Hj)]%list_lookup_insert_Some & <-); [left; by rewrite Hf|]. right.
      split; [|by exists j]. intros E. apply Hne. eapply distinct_inj; [exact D|done|done|congruence].
    + intros [(<- & <-)|(Hne & j & Hj & <-)]; [exists i; rewrite list_lookup_insert_eq, Hf by (by eapply lookup_lt_Some); done|].
      exists j. split; [|done]. rewrite list_lookup_insert_ne; [done|]. intros ->. rewrite Hi in Hj. injection Hj as <-. done.
Qed.

(** * The array moves *)

(** The allocations succeed, and the new array is at [base]. *)
Record env_serves (env : tracker_env) (base : Z) : Prop := {
  es_calloc : te_calloc env = Some base;
  es_base : 0 < base;
  es_map : te_map_malloc env = true ∧ te_map_calloc env = true;
  es_nodes i : te_node_malloc env i = true;
  es_memcpy : te_memcpy_rc env = 0;
}.

Lemma move_records_spec env base rs pre m M :
  env_serves env base -> hm_rep m M -> indexes M base pre -> distinct (pre ++ rs) ->
  exists m' M', move_records env base (length pre) rs m = Some (Some m') ∧ hm_rep m' M' ∧ indexes M' base (pre ++ rs).
Proof.
  intros He. revert pre m M. induction rs as [|r rs IH]; intros pre m M HM Hix Hd.
  - exists m, M. by rewrite app_nil_r.
  - cbn [move_records]. assert (Hr : (pre ++ r :: rs) !! length pre = Some r) by (rewrite lookup_app_r, Nat.sub_diag by done; done).
    pose proof (distinct_nonnull _ _ _ Hd Hr) as Hnz. rewrite (proj2 (Z.eqb_neq (mr_ptr r) 0)) by done.
    destruct (put_ok m M (mr_ptr r) (record_addr base (Z.of_nat (length pre))) false (te_node_malloc env (length pre)) HM Hnz) as (m1 & -> & HM1 & _);
      [left; apply (es_nodes _ _ He)|]. cbn [mbind option_bind]. change (negb (0 =? 0)) with false. cbn iota.
    rewrite cons_middle, app_assoc in Hd. destruct Hd as [Hd1 Hd2]. apply Forall_app in Hd1 as [Hd1 Hd1']. rewrite fmap_app in Hd2. apply NoDup_app in Hd2 as (Hd2 & Hdj & Hd2').
    destruct (IH (pre ++ [r]) m1 _ HM1) as (m' & M' & E & HM' & Hix').
    + by apply indexes_snoc; [|split].
    + split; [by apply Forall_app|]. rewrite fmap_app. by apply NoDup_app.
    + exists m', M'. rewrite length_app in E. cbn [length] in E. rewrite Nat.add_1_r in E. split; [done|]. split; [done|]. by rewrite cons_middle, app_assoc.
Qed.

Lemma expand_spec env base t n :
  tracker_inv t -> env_serves env base -> t_count t < n <= I32_HALF ->
  exists t', memory_tracker_expand env t n = Some (ENPU_SUCCESS, t') ∧ tracker_inv t' ∧ live t' = live t ∧ t_capacity t' = n ∧ t_count t' = t_count t.
Proof.
  intros H He Hn. pose proof (ti_count _ H) as Hc. unfold memory_tracker_expand. unfold I32_HALF in *.
  rewrite (proj2 (Z.eqb_neq n 0)), (proj2 (Z.ltb_ge (UINT64_MAX / RECORD_SIZE) n)) by (change (UINT64_MAX / RECORD_SIZE) with 384307168202282325; lia).
  cbn [orb]. rewrite (es_calloc _ _ He), (es_memcpy _ _ He). change (negb (0 =? 0)) with false. rewrite andb_false_r, (proj2 (Z.ltb_lt (t_count t) n)) by lia.
  cbv zeta. fold (live t). destruct (es_map _ _ He) as [-> ->].
  destruct (create_rep n) as (m & -> & Hm & _); [change (UINT64_MAX / 8) with 2305843009213693951; lia|].
  rewrite (proj2 (Z.leb_le (t_count t) n)) by lia. pose proof (live_length t H) as Hlen. rewrite take_app_length' by done.
  destruct (move_records_spec env base (live t) [] m ∅ He Hm (indexes_empty base) (ti_live _ H)) as (m' & M' & E & HM' & Hix). cbn [length app] in E.
  rewrite E. cbn [mbind option_bind]. eexists. split; [done|]. set (t' := mk_tracker _ _ _ _ _ _ _).
  assert (Hlive : live t' = live t) by (unfold t', live at 1; cbn; by rewrite take_app_length').
  split; [|done]. constructor; rewrite ?Hlive; cbn; try done.
  - unfold I32_HALF. lia.
  - rewrite length_app, length_replicate. lia.
  - lia.
  - apply (es_base _ _ He).
  - apply (ti_live _ H).
  - by exists M'.
Qed.

(** * Adding *)

Definition new_record (p size handle : Z) (phys : bool) (now : Z) : memory_record := mk_record p size handle false phys 0 now.

(** The tracker with the record counted, before it grows. *)
Lemma add_core t r :
  tracker_inv t -> t_count t < t_capacity t -> mr_ptr r <> 0 -> tracked t !! mr_ptr r = None ->
  exists t1 m, put_record (record_addr (t_base t) (t_count t)) r t = Some t1 ∧ t_map t1 = t_map t
    ∧ hashmap_put true (t_map t) (mr_ptr r) (record_addr (t_base t) (t_count t)) false = Some (0, m)
    ∧ t_count t1 = t_count t ∧ t_capacity t1 = t_capacity t
    ∧ let t3 := set_t_count (t_count t + 1) (set_t_map m t1) in tracker_inv t3 ∧ live t3 = live t ++ [r] ∧ tracked t3 = <[mr_ptr r := r]> (tracked t).
Proof.
  intros H Hc Hp Hfresh. pose proof (ti_count _ H) as Hcnt. pose proof (ti_cap _ H) as Hcap.
  assert (Hn : Z.of_nat (Z.to_nat (t_count t)) = t_count t) by lia. unfold put_record. rewrite <- Hn, record_index_addr by (done || lia). cbn [mbind option_bind].
  destruct (lookup_lt_is_Some_2 (t_records t) (Z.to_nat (t_count t))) as [old Hold]; [rewrite (ti_len _ H); lia|]. rewrite Hold, Hn. cbn [mbind option_bind].
  destruct (ti_map _ H) as (M & HM & Hix).
  destruct (put_ok (t_map t) M (mr_ptr r) (record_addr (t_base t) (t_count t)) false true HM Hp) as (m & Eput & HM' & _); [by left|].
  eexists _, m. split; [done|]. do 4 (split; [done|]). cbv zeta. set (t3 := set_t_count _ _).
  assert (Hlive : live t3 = live t ++ [r]).
  { unfold live, t3. cbn. replace (Z.to_nat (t_count t + 1)) with (S (Z.to_nat (t_count t))) by lia.
    rewrite (take_S_r _ _ r) by (rewrite list_lookup_insert_eq; [done|by eapply lookup_lt_Some]). by rewrite take_insert_ge. }
  assert (Hd : distinct (live t3)).
  { rewrite Hlive. apply distinct_snoc; [apply (ti_live _ H)|done|]. intros i x Hi. by eapply tracked_None. }
  split; [|split; [done|]].
  - constructor; try done; cbn; [by rewrite length_insert, (ti_len _ H)|lia|apply (ti_base _ H)|].
    exists (<[mr_ptr r := mk_value (record_addr (t_base t) (t_count t)) false]> M). split; [done|]. fold t3. rewrite Hlive.
    rewrite <- Hn at 1. rewrite <- (live_length t H). apply indexes_snoc; [done|by rewrite <- Hlive].
  - apply tracked_ext; [done|]. intros q x. rewrite Hlive, lookup_insert_Some, tracked_Some by apply (ti_live _ H). split.
    + intros (i & Hi & <-). apply lookup_app_Some in Hi as [Hi|[_ Hi]]; [right|apply list_lookup_singleton_Some in Hi as [_ <-]; by left].
      split; [intros E; by destruct (tracked_None _ _ _ _ Hfresh Hi)|by exists i].
    + intros [(<- & <-)|(_ & i & Hi & <-)]; [exists (length (live t)); by rewrite lookup_app_r, Nat.sub_diag by done|].
      exists i. split; [by apply lookup_app_l_Some|done].
Qed.

(** * Removing *)

(** The records from [j] to [i] have moved down by one. *)
Record shifting (t0 : memory_tracker P) (j i : nat) t (M : gmap Z MapValue) : Prop := {
  sh_base : t_base t = t_base t0;
  sh_capacity : t_capacity t = t_capacity t0;
  sh_count : t_count t = t_count t0;
  sh_len : length (t_records t) = length (t_records t0);
  sh_records (x : nat) : t_records t !! x = t_records t0 !! (if decide (j <= x < i)%nat then S x else x);
  sh_rep : hm_rep (t_map t) M;
  sh_map q v : M !! q = Some v <-> exists (x : nat) r, live t0 !! x = Some r ∧ mr_ptr r = q
    ∧ v = mk_value (record_addr (t_base t0) (Z.of_nat (if decide (j < x <= i)%nat then pred x else x))) false;
}.

Lemma shift_one malloc t0 j i t M :
  tracker_inv t0 -> shifting t0 j i t M -> (j <= i)%nat -> (S i < Z.to_nat (t_count t0))%nat ->
  exists t' M', shifting t0 j (S i) t' M' ∧ forall rest, shift_records malloc (i :: rest) t = shift_records malloc rest t'.
Proof.
  intros H [B C N L R HM Hix] Hji Hi. pose proof (live_length t0 H) as Hll.
  destruct (lookup_lt_is_Some_2 (live t0) (S i)) as [r Hr]; [lia|]. pose proof (proj1 (live_lookup _ _ _) Hr) as [_ Hr0].
  assert (Hsi : t_records t !! S i = Some r) by (by rewrite R, decide_False by lia).
  assert (Hlt : (i < length (t_records t))%nat) by (apply lookup_lt_Some in Hsi; lia).
  destruct (lookup_lt_is_Some_2 (t_records t) i Hlt) as [old Hold]. pose proof (distinct_nonnull _ _ _ (ti_live _ H) Hr) as Hnz.
  assert (Hin : is_Some (M !! mr_ptr r)) by (eexists; apply Hix; eauto).
  destruct (put_ok (t_map t) M (mr_ptr r) (record_addr (t_base t) (Z.of_nat i)) false (malloc i) HM Hnz) as (m & Eput & HM' & _); [by right|].
  exists (set_t_map m (set_t_records (<[i := r]> (t_records t)) t)), (<[mr_ptr r := mk_value (record_addr (t_base t) (Z.of_nat i)) false]> M). split.
  - constructor; cbn; try done; [by rewrite length_insert| |].
    + intros x. destruct (decide (x = i)) as [->|Hne].
      * rewrite list_lookup_insert_eq by done. rewrite decide_True by lia. done.
      * rewrite list_lookup_insert_ne, R by done. destruct (decide (j <= x < i)%nat); [by rewrite decide_True by lia|by rewrite decide_False by lia].
    + intros q v. rewrite lookup_insert_Some, Hix, B. split.
      * intros [(<- & <-)|(Hne & x & y & Hx & <- & ->)]; [exists (S i), r; by rewrite decide_True by lia|].
        exists x, y. split; [done|]. split; [done|]. assert (x <> S i) by congruence.
        destruct (decide (j < x <= i)%nat); [by rewrite decide_True by lia|by rewrite decide_False by lia].
      * intros (x & y & Hx & <- & ->). destruct (decide (x = S i)) as [->|Hne].
        -- rewrite Hr in Hx. injection Hx as <-. left. by rewrite decide_True by lia.
        -- right. split; [intros E; apply Hne; symmetry; eapply distinct_inj; [apply (ti_live _ H)|done|done|done]|].
           exists x, y. split; [done|]. split; [done|]. destruct (decide (j < x <= i)%nat); [by rewrite decide_True by lia|by rewrite decide_False by lia].
  - intros rest. cbn [shift_records]. rewrite Hsi. cbn [mbind option_bind]. rewrite Hold. cbn [mbind option_bind t_map set_t_records]. by rewrite Eput.
Qed.

Lemma shift_spec malloc t0 j n i t M :
  tracker_inv t0 -> shifting t0 j i t M -> (j <= i)%nat -> (S (i + n) = Z.to_nat (t_count t0))%nat ->
  exists t' M', shift_records malloc (seq i n) t = Some (ENPU_SUCCESS, t') ∧ shifting t0 j (i + n) t' M'.
Proof.
  intros H. revert i t M. induction n as [|n IH]; intros i t M Hs Hji Hn.
  - exists t, M. by rewrite Nat.add_0_r.
  - destruct (shift_one malloc t0 j i t M H Hs Hji) as (t1 & M1 & Hs1 & E); [lia|]. cbn [seq]. rewrite E.
    destruct (IH (S i) t1 M1 Hs1) as (t' & M' & E' & Hs'); [lia|lia|]. exists t', M'. split; [done|]. by replace (i + S n)%nat with (S i + n)%nat by lia.
Qed.

Lemma shifting_start t j : tracker_inv t -> exists M, shifting t j j t M.
Proof.
  intros H. destruct (ti_map _ H) as (M & HM & Hix). exists M. constructor; try done.
  - intros x. by rewrite decide_False by lia.
  - intros q v. rewrite (Hix q v). by setoid_rewrite decide_False; [|lia].
Qed.

(** The tracker after the loop, with the address taken out of the map. *)
Lemma shifted_inv t0 j r0 t M m :
  tracker_inv t0 -> live t0 !! j = Some r0 -> shifting t0 j (Z.to_nat (t_count t0) - 1) t M -> hm_rep m (delete (mr_ptr r0) M) ->
  let t' := set_t_count (t_count t0 - 1) (set_t_map m t) in tracker_inv t' ∧ tracked t' = delete (mr_ptr r0) (tracked t0).
Proof.
  intros H Hj [B C N L R HM Hix] Hm t'. pose proof (live_length t0 H) as Hll. pose proof (lookup_lt_Some _ _ _ Hj) as Hjl. pose proof (ti_count _ H).
  assert (Hlive : live t' = delete j (live t0)).
  { apply list_eq. intros x. unfold live at 1. unfold t'. cbn. destruct (decide (x < Z.to_nat (t_count t0 - 1))%nat) as [Hx|Hx].
    - rewrite lookup_take_lt, R by done. destruct (decide (x < j)%nat).
      + rewrite decide_False, list_lookup_delete_lt by lia. unfold live. by rewrite lookup_take_lt by lia.
      + rewrite decide_True, list_lookup_delete_ge by lia. unfold live. by rewrite lookup_take_lt by lia.
    - rewrite lookup_take_ge by lia. symmetry. apply lookup_ge_None_2. rewrite length_delete by (by eexists). lia. }
  assert (Hin : forall x y, delete j (live t0) !! x = Some y <-> exists z, z <> j ∧ live t0 !! z = Some y ∧ x = if decide (j < z)%nat then pred z else z).
  { intros x y. split.
    - intros Hx. destruct (decide (x < j)%nat).
      + rewrite list_lookup_delete_lt in Hx by done. exists x. rewrite decide_False by lia. split; [lia|done].
      + rewrite list_lookup_delete_ge in Hx by lia. exists (S x). rewrite decide_True by lia. split; [lia|done].
    - intros (z & Hne & Hz & ->). destruct (decide (j < z)%nat); [|by rewrite list_lookup_delete_lt by lia].
      rewrite list_lookup_delete_ge by lia. by replace (S (pred z)) with z by lia. }
  assert (Hd : distinct (live t')).
  { rewrite Hlive. destruct (ti_live _ H) as [D1 D2]. split; [by apply Forall_delete|]. rewrite list_fmap_delete. eapply sublist_NoDup; [exact D2|apply sublist_delete]. }
  assert (Hother : forall z y, live t0 !! z = Some y -> z <> j <-> mr_ptr y <> mr_ptr r0).
  { intros z y Hz. split; [|intros Hne ->; congruence]. intros Hne E. apply Hne. by eapply distinct_inj; [apply (ti_live _ H)|..]. }
  split.
  - constructor; cbn; rewrite ?B, ?C, ?L; try done; [apply (ti_cap _ H)|apply (ti_len _ H)|lia|apply (ti_base _ H)|]. exists (delete (mr_ptr r0) M).
    split; [done|]. fold t'. rewrite Hlive. intros q v. rewrite lookup_delete_Some, Hix. split.
    + intros (Hne & z & y & Hz & <- & ->). exists (if decide (j < z)%nat then pred z else z), y. split; [apply Hin; exists z; split; [by apply (Hother z y); congruence|done]|].
      split; [done|]. pose proof (lookup_lt_Some _ _ _ Hz). destruct (decide (j < z)%nat); [by rewrite decide_True by lia|by rewrite decide_False by lia].
    + intros (x & y & (z & Hne & Hz & ->)%Hin & <- & ->). split; [apply not_eq_sym; by apply (Hother z y)|]. exists z, y. split; [done|]. split; [done|].
      pose proof (lookup_lt_Some _ _ _ Hz). destruct (decide (j < z)%nat); [by rewrite decide_True by lia|by rewrite decide_False by lia].
  - apply tracked_ext; [done|]. intros q y. rewrite Hlive, lookup_delete_Some, tracked_Some by apply (ti_live _ H). split.
    + intros (x & (z & Hne & Hz & ->)%Hin & <-). split; [apply not_eq_sym; by apply (Hother z y)|by exists z].
    + intros (Hne & z & Hz & <-). eexists. split; [|done]. apply Hin. exists z. split; [by apply (Hother z y); congruence|done].
Qed.

Lemma remove_tracked malloc t p r :
  tracker_inv t -> p <> 0 -> tracked t !! p = Some r ->
  exists t', memory_tracker_remove malloc t p = Some (ENPU_SUCCESS, t') ∧ tracker_inv t' ∧ tracked t' = delete p (tracked t).
Proof.
  intros H Hp Hr. pose proof (ti_cap _ H) as Hcap. pose proof (ti_count _ H) as Hcnt. apply tracked_Some in Hr as (j & Hj & <-); [|apply (ti_live _ H)].
  unfold memory_tracker_remove. rewrite (proj2 (Z.eqb_neq (mr_ptr r) 0)) by done. fold (live t).
  assert (Hfind : list_find (fun x => mr_ptr x = mr_ptr r) (live t) = Some (j, r)).
  { apply list_find_Some. split; [done|]. split; [done|]. intros k y Hk Hkj E. assert (k = j) by (eapply distinct_inj; [apply (ti_live _ H)|done..]). lia. }
  rewrite Hfind. pose proof (live_bound _ _ _ H Hj). pose proof (proj1 (live_lookup _ _ _) Hj) as [Hjc _]. unfold I32_HALF in *.
  rewrite i32_small by (unfold is_i32, I32_HALF; lia). cbv zeta. rewrite (proj2 (Z.eqb_neq (Z.of_nat j) (-1))), u64_small by (unfold is_u64, U64_MOD; lia).
  rewrite Nat2Z.id. destruct (shifting_start t j H) as (M & Hs).
  destruct (shift_spec malloc t j (Z.to_nat (t_count t - 1) - j) j t M H Hs) as (t1 & M1 & -> & Hs1); [lia|lia|]. cbn [mbind option_bind].
  change (negb (ENPU_SUCCESS =? ENPU_SUCCESS)) with false. cbn iota. replace (j + (Z.to_nat (t_count t - 1) - j))%nat with (Z.to_nat (t_count t) - 1)%nat in Hs1 by lia.
  pose proof (remove_eq (t_map t1) M1 (mr_ptr r) (sh_rep _ _ _ _ _ Hs1) Hp) as Hrem.
  destruct (M1 !! mr_ptr r) as [v|] eqn:Ev.
  - destruct Hrem as (m & -> & Hm & _). cbn [mbind option_bind]. change (negb (0 =? 0)) with false. cbn iota. rewrite (sh_count _ _ _ _ _ Hs1), u64_small by (unfold is_u64, U64_MOD; lia).
    destruct (shifted_inv t j r t1 M1 m H Hj Hs1 Hm) as [HI HT]. eexists. split; [done|]. split; [exact HI|exact HT].
  - exfalso. pose proof (proj2 (sh_map _ _ _ _ _ Hs1 (mr_ptr r) _) (ex_intro _ j (ex_intro _ r (conj Hj (conj eq_refl eq_refl))))) as E. congruence.
Qed.

Lemma remove_untracked malloc t p : tracked t !! p = None -> p <> 0 -> memory_tracker_remove malloc t p = Some (ENPU_SUCCESS, t).
Proof.
  intros Hn Hp. unfold memory_tracker_remove. rewrite (proj2 (Z.eqb_neq p 0)) by done. fold (live t).
  destruct (list_find _ (live t)) as [[i r]|] eqn:E; [|done]. apply list_find_Some in E as (Hi & Hr & _). by destruct (tracked_None _ _ _ _ Hn Hi).
Qed.

Lemma add_spec env base now t p size handle phys :
  tracker_inv t -> t_count t < t_capacity t <= I32_HALF / 2 -> p <> 0 -> size <> 0 -> tracked t !! p = None ->
  (env_serves env base -> exists t', memory_tracker_add true env now t p size handle phys = Some (ENPU_SUCCESS, t') ∧ tracker_inv t'
     ∧ t_count t' < t_capacity t' ∧ tracked t' = <[p := new_record p size handle phys now]> (tracked t))
  ∧ (te_calloc env = None -> t_capacity t <= 2 * (t_count t + 1) -> exists t', memory_tracker_add true env now t p size handle phys = Some (RT_FAIL, t')
     ∧ tracked t' = <[p := new_record p size handle phys now]> (tracked t)).
Proof.
  intros H Hc Hp Hsz Hn. pose proof (ti_count _ H) as Hcnt. change (I32_HALF / 2) with 1073741824 in Hc.
  destruct (add_core t (new_record p size handle phys now) H ltac:(lia) Hp Hn) as (t1 & m & E1 & Em & E2 & Ec & Ecap & Hinv & Hlive & Htr).
  cbv zeta in Hinv, Hlive, Htr. cbn [mr_ptr new_record] in E2, Htr.
  unfold memory_tracker_add. rewrite (proj2 (Z.eqb_neq p 0)), (proj2 (Z.eqb_neq size 0)), (proj2 (Z.leb_gt (t_capacity t) (t_count t))) by (done || lia).
  cbn [orb]. cbv zeta. unfold new_record in *. rewrite E1. cbn [mbind option_bind]. rewrite Em, E2. cbn [mbind option_bind]. change (negb (0 =? 0)) with false. cbn iota.
  change (t_count (set_t_map m t1)) with (t_count t1). rewrite Ec, (u64_small (t_count t + 1)) by (unfold is_u64, U64_MOD; lia).
  set (t3 := set_t_count (t_count t + 1) (set_t_map m t1)) in *. assert (Hcap3 : t_capacity t3 = t_capacity t) by exact Ecap.
  assert (Hcnt3 : t_count t3 = t_count t + 1) by done. rewrite Hcap3, Hcnt3, !u64_small by (unfold is_u64, U64_MOD; lia).
  destruct (Z.leb_spec (t_capacity t) (2 * (t_count t + 1))) as [Hle|Hgt].
  - split.
    + intros He. destruct (expand_spec env base t3 (t_capacity t * 2) Hinv He) as (t4 & -> & H4 & Hl4 & Hc4 & Hn4); [rewrite Hcnt3; unfold I32_HALF; lia|].
      cbn [mbind option_bind]. exists t4. split; [done|]. split; [done|]. split; [rewrite Hc4, Hn4, Hcnt3; lia|]. rewrite <- Htr. unfold tracked. by rewrite Hl4.
    + intros Hno _. exists t3. split; [|done]. unfold memory_tracker_expand. destruct (_ || _); [done|]. by rewrite Hno.
  - split; [|lia]. intros _. exists t3. split; [done|]. split; [done|]. split; [rewrite Hcap3, Hcnt3; lia|done].
Qed.

End thms.

(** C31. The tracker of the device memory implements a finite map from the
    addresses of the allocations to their records.  Adding a new address
    inserts its record, also when the array of records grows and moves;
    removing one deletes its record, although the later records move down, and
    removing an address that is not tracked changes nothing; marking a record
    as swapped out changes it alone; the size that is looked up is that of the
    record.  The index never leads outside of the current array.  When the
    array has to grow and cannot, adding reports a failure but the record
    stays tracked. *)
Theorem tracker_refines_map {P} (t : memory_tracker P) env base now p size handle phys offset malloc :
  tracker_inv t -> t_count t < t_capacity t <= I32_HALF / 2 -> p <> 0 -> size <> 0 ->
  get_record_size t p size = Some (match tracked t !! p with Some r => mr_size r | None => size end)
  ∧ match tracked t !! p with
    | Some r =>
        (exists t', memory_tracker_remove malloc t p = Some (ENPU_SUCCESS, t') ∧ tracker_inv t' ∧ tracked t' = delete p (tracked t))
        ∧ exists t', memory_tracker_mark_swapped t p offset = Some (ENPU_SUCCESS, t') ∧ tracker_inv t'
            ∧ tracked t' = <[p := memory_record_mark_swapped r offset]> (tracked t)
    | None =>
        memory_tracker_remove malloc t p = Some (ENPU_SUCCESS, t)
        ∧ (env_serves env base -> exists t', memory_tracker_add true env now t p size handle phys = Some (ENPU_SUCCESS, t') ∧ tracker_inv t'
             ∧ t_count t' < t_capacity t' ∧ tracked t' = <[p := new_record p size handle phys now]> (tracked t))
        ∧ (te_calloc env = None -> t_capacity t <= 2 * (t_count t + 1) ->
             exists t', memory_tracker_add true env now t p size handle phys = Some (RT_FAIL, t')
               ∧ tracked t' = <[p := new_record p size handle phys now]> (tracked t))
    end.
Proof.
  intros H Hc Hp Hsz. pose proof (find_spec t p H Hp) as Hf. unfold get_record_size. destruct (tracked t !! p) as [r|] eqn:E.
  - destruct Hf as (i & Hi & Hr & -> & Ei). cbn [mbind option_bind]. unfold record_at. rewrite Ei. cbn [mbind option_bind].
    rewrite (proj2 (proj1 (live_lookup _ _ _) Hi)). split; [done|]. split; [by eapply remove_tracked|]. by apply (on_record_spec (fun r => memory_record_mark_swapped r offset)).
  - rewrite Hf. split; [done|]. split; [by apply remove_untracked|]. by apply add_spec.
Qed.

Definition tracker_env_fine : tracker_env := mk_tracker_env (Some 4096) true true (fun _ => true) 0.

Lemma create_inv {P} env base n :
  env_serves env base -> 0 < n <= I32_HALF -> exists t : memory_tracker P, memory_tracker_create true env n = Some t ∧ tracker_inv t ∧ t_capacity t = n ∧ t_count t = 0.
Proof.
  intros He Hn. unfold memory_tracker_create, I32_HALF in *.
  rewrite (proj2 (Z.eqb_neq n 0)), (proj2 (Z.ltb_ge (UINT64_MAX / RECORD_SIZE) n)) by (change (UINT64_MAX / RECORD_SIZE) with 384307168202282325; lia).
  cbn [negb]. rewrite (es_calloc _ _ He). cbn [mbind option_bind]. destruct (es_map _ _ He) as [-> ->].
  destruct (create_rep n) as (m & -> & Hm & _); [change (UINT64_MAX / 8) with 2305843009213693951; lia|]. cbn [mbind option_bind].
  eexists. split; [done|]. split; [|done]. constructor; cbn; unfold live; cbn; [unfold I32_HALF; lia|by rewrite length_replicate|lia|apply (es_base _ _ He)|by split; constructor|].
  exists ∅. split; [done|apply indexes_empty].
Qed.

(** A tracker of one record grows with the first allocation. *)
Lemma tracker_refines_map_witness :
  exists t t' : memory_tracker unit, memory_tracker_create true tracker_env_fine 1 = Some t
    ∧ memory_tracker_add true tracker_env_fine 5 t 64 100 7 false = Some (ENPU_SUCCESS, t') ∧ t_capacity t < t_capacity t' ∧ tracker_inv t'.
Proof.
  assert (He : env_serves tracker_env_fine 4096) by (constructor; (lia || reflexivity || (split; reflexivity))).
  destruct (create_inv (P := unit) tracker_env_fine 4096 1 He) as (t & E & Hinv & Hcap & Hcnt); [vm_compute; split; discriminate || reflexivity|].
  assert (Hnone : tracked t !! 64 = None) by (vm_compute in E; injection E as <-; reflexivity).
  destruct (tracker_refines_map t tracker_env_fine 4096 5 64 100 7 false 0 (fun _ => true) Hinv) as [_ H]; [rewrite Hcap, Hcnt; vm_compute; split; discriminate || reflexivity|discriminate..|].
  rewrite Hnone in H. destruct H as (_ & Hadd & _). destruct (Hadd He) as (t' & Ea & Hinv' & Hlt & _). exists t, t'.
  split; [exact E|]. split; [exact Ea|]. split; [|exact Hinv']. vm_compute in E. injection E as <-. vm_compute in Ea. injection Ea as <-. vm_compute. reflexivity.
Defined.
