(* ===== verification/VasLib.v ===== *)
(** What the sources of virt-awaresched use of C++ and of its library: 8 and
    16-bit integers, the traversal order of [std::map] and [std::set], decimal
    printing, the return codes of include/error.h and the monad of the member
    functions of the scheduler.

    A [std::map] is a [gmap] and a [std::set] a [gset], traversed through
    [map_keys] and [set_list], the keys in increasing order.  Facts on sums
    over maps and on the separators of composed keys are shared by the
    components. *)

From Stdlib Require Import Ascii.
From stdpp Require Import sorting.
From stdpp Require Export pretty.
From S2P Require Import Prelude.

#[global] Open Scope Z_scope.

(** * Narrow integers *)

Definition u8 (x : Z) : Z := x mod 256.
Definition u16 (x : Z) : Z := x mod 65536.
Definition u32 (x : Z) : Z := x mod 4294967296.
Definition i16 (x : Z) : Z := (x + 32768) mod 65536 - 32768.

Lemma u16_small x : 0 <= x < 65536 -> u16 x = x.
Proof. apply Z.mod_small. Qed.

Lemma u8_small x : 0 <= x < 256 -> u8 x = x.
Proof. apply Z.mod_small. Qed.

Lemma u16_range x : 0 <= u16 x < 65536.
Proof. apply Z.mod_pos_bound. lia. Qed.

Lemma i16_small x : -32768 <= x < 32768 -> i16 x = x.
Proof. intros H. unfold i16. rewrite Z.mod_small; lia. Qed.

(** * Return codes (include/error.h) *)

Definition VAS_OK : Z := 0.
Definition VAS_ERROR : Z := 1.
Definition VAS_ERROR_NULLPTR : Z := 12.
Definition VAS_ERROR_INVAL : Z := 14.
Definition VAS_WARN : Z := 16.

Definition isVasRetFail (ret : Z) : bool := negb (ret =? VAS_OK).
Definition isVasRetOk (ret : Z) : bool := ret =? VAS_OK.
Definition isIntInvalid (ret : Z) : bool := ret =? -1.

(** * Ordered containers *)

(** The keys of a [std::map] and the elements of a [std::set] in the order of
    a traversal. *)
Definition set_keys (X : gset Z) : list Z := merge_sort Z.le (elements X).
Definition map_keys {A} (m : gmap Z A) : list Z := merge_sort Z.le (map_to_list m).*1.
Definition set_list (X : gset string) : list string := merge_sort String.le (elements X).

(** [*s.begin()] and [*s.rbegin()] *)
Definition set_first (X : gset Z) : option Z := head (set_keys X).
Definition set_last (X : gset Z) : option Z := last (set_keys X).

Lemma elem_of_set_keys x X : x ∈ set_keys X <-> x ∈ X.
Proof. unfold set_keys. rewrite merge_sort_Permutation. apply elem_of_elements. Qed.

Lemma elem_of_set_list x X : x ∈ set_list X <-> x ∈ X.
Proof. unfold set_list. rewrite merge_sort_Permutation. apply elem_of_elements. Qed.

Lemma NoDup_set_list X : NoDup (set_list X).
Proof. unfold set_list. rewrite merge_sort_Permutation. apply NoDup_elements. Qed.

Lemma Sorted_set_list X : StronglySorted String.le (set_list X).
Proof. unfold set_list. apply Sorted_StronglySorted; [apply _|]. apply Sorted_merge_sort. apply _. Qed.

Lemma set_list_empty : set_list ∅ = [].
Proof. reflexivity. Qed.

Lemma elem_of_map_keys {A} (m : gmap Z A) k : k ∈ map_keys m <-> is_Some (m !! k).
Proof.
  unfold map_keys. rewrite merge_sort_Permutation, list_elem_of_fmap. split.
  - intros ([k' v] & -> & Hin). exists v. by apply elem_of_map_to_list.
  - intros [v Hv]. exists (k, v). split; [done|]. by apply elem_of_map_to_list.
Qed.

Lemma NoDup_map_keys {A} (m : gmap Z A) : NoDup (map_keys m).
Proof. unfold map_keys. rewrite merge_sort_Permutation. apply NoDup_fst_map_to_list. Qed.

Lemma length_map_keys {A} (m : gmap Z A) : length (map_keys m) = size m.
Proof. unfold map_keys. by rewrite merge_sort_Permutation, length_fmap, length_map_to_list. Qed.

Lemma Sorted_map_keys {A} (m : gmap Z A) : StronglySorted Z.le (map_keys m).
Proof. unfold map_keys. apply Sorted_StronglySorted; [intros ???; lia|]. apply Sorted_merge_sort. intros ??; lia. Qed.

(** The keys before a key are smaller. *)
Lemma map_keys_split {A} (m : gmap Z A) k : is_Some (m !! k) -> exists pre post, map_keys m = pre ++ k :: post ∧ forall k', k' ∈ pre -> k' < k ∧ is_Some (m !! k').
Proof.
  intros Hk. apply elem_of_map_keys, list_elem_of_split in Hk as (pre & post & E). exists pre, post. split; [done|].
  intros k' Hin. pose proof (Sorted_map_keys m) as Hs. pose proof (NoDup_map_keys m) as Hnd.
  assert (k' ∈ map_keys m) as Hk'%elem_of_map_keys by (rewrite E; apply elem_of_app; by left).
  rewrite E in Hs, Hnd. split; [|done].
  assert (Z.le k' k) by (apply (StronglySorted_app_1_elem_of Z.le pre (k :: post) k' k Hs Hin); left).
  assert (k' <> k); [|lia]. intros ->. apply NoDup_app in Hnd as (_ & Hd & _). apply (Hd k Hin). left.
Qed.

(** Only the domain of a map decides the traversal. *)
Lemma map_keys_dom {A B} (m1 : gmap Z A) (m2 : gmap Z B) : dom m1 = dom m2 -> map_keys m1 = map_keys m2.
Proof.
  intros Hd. apply (StronglySorted_unique_strong Z.le).
  - intros x y _ _ ??. lia.
  - apply Sorted_map_keys.
  - apply Sorted_map_keys.
  - apply NoDup_Permutation; [apply NoDup_map_keys..|]. intros k.
    rewrite !elem_of_map_keys, <- !elem_of_dom. by rewrite Hd.
Qed.

(** * Member functions

    A member function that returns an [A] is a computation on the state of
    its object and of the host; [None] is behaviour that C++ leaves undefined. *)

Definition M (S A : Type) : Type := S -> option (A * S).

#[export] Instance M_ret {S} : MRet (M S) := fun A a s => Some (a, s).
#[export] Instance M_bind {S} : MBind (M S) := fun A B k m s => match m s with Some (a, s1) => k a s1 | None => None end.

Definition gets {S A} (f : S -> A) : M S A := fun s => Some (f s, s).
Definition modify {S} (f : S -> S) : M S unit := fun s => Some (tt, f s).
Definition undefined {S A} : M S A := fun _ => None.
Definition lift_opt {S A} (o : option A) : M S A := fun s => match o with Some a => Some (a, s) | None => None end.

(** [for (x : l) b = body(x, b)] *)
Fixpoint mfold {S A B} (body : A -> B -> M S B) (l : list A) (b : B) : M S B :=
  match l with [] => mret b | x :: r => b1 ← body x b; mfold body r b1 end.

Definition mfor {S A} (body : A -> M S unit) (l : list A) : M S unit := mfold (fun x _ => body x) l tt.

(** Every outcome of [m] from [s] satisfies [Q]. *)
Definition wp {S A} (m : M S A) (Q : A -> S -> Prop) (s : S) : Prop := forall a s', m s = Some (a, s') -> Q a s'.

(** [m] has an outcome from [s], and it satisfies [Q]. *)
Definition twp {S A} (m : M S A) (Q : A -> S -> Prop) (s : S) : Prop := exists a s', m s = Some (a, s') ∧ Q a s'.

Section wp.
Context {S : Type}.

Lemma wp_ret {A} (a : A) Q (s : S) : Q a s -> wp (mret a) Q s.
Proof. intros H a' s' [= <- <-]. done. Qed.

Lemma wp_bind {A B} (m : M S A) (k : A -> M S B) Q s : wp m (fun a s1 => wp (k a) Q s1) s -> wp (m ≫= k) Q s.
Proof.
  intros H b s' E. unfold mbind, M_bind in E. destruct (m s) as [[a s1]|] eqn:Em; [|done]. exact (H a s1 Em b s' E).
Qed.

Lemma wp_gets {A} (f : S -> A) Q s : Q (f s) s -> wp (gets f) Q s.
Proof. intros H a s' [= <- <-]. done. Qed.

Lemma wp_modify f Q (s : S) : Q tt (f s) -> wp (modify f) Q s.
Proof. intros H a s' [= <- <-]. done. Qed.

Lemma wp_undefined {A} (Q : A -> S -> Prop) s : wp undefined Q s.
Proof. by intros a s' E. Qed.

Lemma wp_lift {A} (o : option A) Q (s : S) : (forall a, o = Some a -> Q a s) -> wp (lift_opt o) Q s.
Proof. intros H a s'. unfold lift_opt. destruct o; [|done]. intros [= <- <-]. by apply H. Qed.

Lemma wp_mono {A} (m : M S A) (P Q : A -> S -> Prop) s : wp m P s -> (forall a s', P a s' -> Q a s') -> wp m Q s.
Proof. intros H HPQ a s' E. apply HPQ. exact (H a s' E). Qed.

(** A loop keeps an invariant that its body keeps. *)
Lemma wp_mfold {A B} (body : A -> B -> M S B) (I : B -> S -> Prop) l b s :
  I b s -> (forall x b s, x ∈ l -> I b s -> wp (body x b) I s) -> wp (mfold body l b) I s.
Proof.
  revert b s. induction l as [|x l IH]; intros b s HI Hstep; [by apply wp_ret|].
  cbn [mfold]. apply wp_bind. eapply wp_mono; [apply Hstep; [left|exact HI]|].
  intros b1 s1 HI1. apply IH; [done|]. intros y b2 s2 Hy. apply Hstep. by right.
Qed.

Lemma wp_mfor {A} (body : A -> M S unit) (I : S -> Prop) l s :
  I s -> (forall x s, x ∈ l -> I s -> wp (body x) (fun _ => I) s) -> wp (mfor body l) (fun _ => I) s.
Proof. intros HI Hstep. apply (wp_mfold _ (fun _ => I)); [done|]. intros x _ s1 Hx. by apply Hstep. Qed.

Lemma twp_ret {A} (a : A) Q (s : S) : Q a s -> twp (mret a) Q s.
Proof. intros H. by exists a, s. Qed.

Lemma twp_bind {A B} (m : M S A) (k : A -> M S B) Q s : twp m (fun a s1 => twp (k a) Q s1) s -> twp (m ≫= k) Q s.
Proof. intros (a & s1 & E & b & s2 & E2 & HQ). exists b, s2. split; [|done]. unfold mbind, M_bind. by rewrite E. Qed.

Lemma twp_mono {A} (m : M S A) (P Q : A -> S -> Prop) s : twp m P s -> (forall a s', P a s' -> Q a s') -> twp m Q s.
Proof. intros (a & s1 & E & HP) HPQ. exists a, s1. split; [done|]. by apply HPQ. Qed.

Lemma twp_gets {A} (f : S -> A) Q s : Q (f s) s -> twp (gets f) Q s.
Proof. intros H. by exists (f s), s. Qed.

Lemma twp_modify f Q (s : S) : Q tt (f s) -> twp (modify f) Q s.
Proof. intros H. by exists tt, (f s). Qed.

(** With the elements [todo] still to come, [I todo b s] holds. *)
Lemma twp_mfold {A B} (body : A -> B -> M S B) (I : list A -> B -> S -> Prop) l b s :
  I l b s -> (forall x r b s, I (x :: r) b s -> twp (body x b) (I r) s) -> twp (mfold body l b) (I []) s.
Proof.
  revert b s. induction l as [|x l IH]; intros b s HI Hstep; [by apply twp_ret|].
  cbn [mfold]. apply twp_bind. eapply twp_mono; [apply Hstep; exact HI|]. intros b1 s1 HI1. by apply IH.
Qed.

Lemma twp_wp {A} (m : M S A) P Q s : twp m P s -> wp m Q s -> twp m (fun a s' => P a s' ∧ Q a s') s.
Proof. intros (a & s1 & E & HP) HQ. exists a, s1. split; [done|]. split; [done|]. by apply HQ. Qed.
End wp.

(** * Keys composed with an underscore *)

Fixpoint no_underscore (s : string) : bool :=
  match s with EmptyString => true | String c s => negb (bool_decide (c = "_"%char)) && no_underscore s end.

Lemma append_cons c (s t : string) : String c s +:+ t = String c (s +:+ t).
Proof. reflexivity. Qed.

Lemma append_nil (t : string) : "" +:+ t = t.
Proof. reflexivity. Qed.

Lemma no_underscore_app s1 s2 : no_underscore (s1 +:+ s2) = no_underscore s1 && no_underscore s2.
Proof. induction s1 as [|c s1 IH]; [done|]. rewrite append_cons. cbn [no_underscore]. rewrite IH. by rewrite andb_assoc. Qed.

Lemma app_string_assoc (s1 s2 s3 : string) : s1 +:+ (s2 +:+ s3) = (s1 +:+ s2) +:+ s3.
Proof. induction s1 as [|c s1 IH]; [done|]. rewrite !append_cons. by rewrite IH. Qed.

(** The part after the last underscore is determined by the whole. *)
Lemma underscore_inj s1 s2 d1 d2 :
  no_underscore d1 = true -> no_underscore d2 = true -> s1 +:+ "_" +:+ d1 = s2 +:+ "_" +:+ d2 -> s1 = s2 ∧ d1 = d2.
Proof.
  intros H1 H2. assert (Hno : forall s d, no_underscore (s +:+ "_" +:+ d) = false).
  { intros s d. rewrite !no_underscore_app. by rewrite andb_false_r. }
  revert s2. induction s1 as [|c s1 IH]; intros [|c2 s2] E.
  - by injection E as E.
  - injection E as _ E. change (d1 = s2 +:+ "_" +:+ d2) in E. by rewrite E, Hno in H1.
  - injection E as _ E. change (s1 +:+ "_" +:+ d1 = d2) in E. by rewrite <- E, Hno in H2.
  - injection E as -> E. by destruct (IH s2 E) as [-> ->].
Qed.

Lemma no_underscore_pretty_N_go x s : no_underscore s = true -> no_underscore (pretty_N_go x s) = true.
Proof.
  revert s. induction (N.lt_wf_0 x) as [x _ IH]; intros s Hs.
  assert (x = 0 ∨ 0 < x)%N as [->|?] by lia; [by rewrite pretty_N_go_0|].
  rewrite pretty_N_go_step by done. apply IH; [by apply N.div_lt|]. cbn. rewrite Hs, andb_true_r.
  unfold pretty_N_char. by repeat case_match.
Qed.

Lemma no_underscore_pretty (x : Z) : no_underscore (pretty x) = true.
Proof.
  assert (HN : forall n : N, no_underscore (pretty n) = true).
  { intros n. unfold pretty, pretty_N. case_decide; [done|]. by apply no_underscore_pretty_N_go. }
  destruct x as [|p|p]; [done|apply HN|]. unfold pretty, pretty_Z. rewrite no_underscore_app. apply HN.
Qed.
