(* ===== verification/DynamicBitset.v ===== *)
(** The bit maps of CPUs: util/dynamic_bitset.cpp of virt-awaresched.

    A [DynamicBitset] is a [std::vector<bool>], here a [list bool]; an index or
    a length is a [uint16_t].  [DynamicBitsetSetArea] throws when the area is
    empty or leaves the map, which is the [None] of its result, and the two
    callers swallow the exception.  [FindFirstIdlePos] is translated with its
    16-bit counters; its specification [idle_from] and [first_idle] says what
    it computes, and [window_free] what its callers read from its answer. *)

From S2P Require Import Prelude VasLib.

Abbreviation DynamicBitset := (list bool).

Definition bit (bs : DynamicBitset) (i : Z) : bool :=
  if 0 <=? i then default false (bs !! Z.to_nat i) else false.
Definition bsize (bs : DynamicBitset) : Z := Z.of_nat (length bs).

Definition DynamicBitsetSetArea (bitSet : DynamicBitset) (start size : Z) (val : bool) : option DynamicBitset :=
  if (size =? 0) || (bsize bitSet <? start) || (bsize bitSet - start <? size) then None
  else Some (foldl (fun bs index => <[Z.to_nat index := val]> bs) bitSet (seqZ start size)).

Definition DynamicBitsetSet (bitSet : DynamicBitset) (start size : Z) : DynamicBitset :=
  default bitSet (DynamicBitsetSetArea bitSet start size true).

Definition DynamicBitsetClear (bitSet : DynamicBitset) (start size : Z) : DynamicBitset :=
  default bitSet (DynamicBitsetSetArea bitSet start size false).

Definition DynamicBitsetNot (src : DynamicBitset) : DynamicBitset := negb <$> src.

Definition DynamicBitsetOr (dst src : DynamicBitset) : DynamicBitset :=
  if negb (bsize dst =? bsize src) then dst else zip_with orb dst src.

Definition DynamicBitsetAnd (dst src : DynamicBitset) : DynamicBitset :=
  if negb (bsize dst =? bsize src) then dst else zip_with andb dst src.

Fixpoint IsDynamicBitsetCross (first second : DynamicBitset) : bool :=
  match first, second with
  | a :: first', b :: second' => if Bool.eqb a true && Bool.eqb a b then true else IsDynamicBitsetCross first' second'
  | _, _ => false
  end.

Definition GenDynamicBitSetByArea (totalSize start size : Z) : DynamicBitset :=
  DynamicBitsetSet (replicate (Z.to_nat totalSize) false) start size.

(** The range constructor takes the bits from the first to the last CPU of the set. *)
Definition GenClusterBitSetByCpuSet (bitSet : DynamicBitset) (cpuSet : gset Z) : DynamicBitset :=
  match set_first cpuSet, set_last cpuSet with
  | Some lo, Some hi =>
      if bsize bitSet <=? hi then []
      else take (Z.to_nat (hi + 1 - lo)) (drop (Z.to_nat lo) bitSet)
  | _, _ => []
  end.

(** The loop of [FindFirstIdlePos] at index [i], with [bits] the bits from [i] on. *)
Fixpoint find_idle_loop (len size : Z) (bits : list bool) (i result idleCount : Z) : Z :=
  match bits with
  | [] => -1
  | b :: bits' =>
      if (idleCount =? 0) && (len - i <? size) then -1
      else
        let '(result, idleCount) :=
          if negb b then (if idleCount =? 0 then i16 i else result, i16 (idleCount + 1)) else (result, idleCount) in
        if idleCount =? size then result else find_idle_loop len size bits' (i + 1) result idleCount
  end.

Definition FindFirstIdlePos (bitSet : DynamicBitset) (start size : Z) : Z :=
  if (size =? 0) || (bsize bitSet <? start) || (bsize bitSet - start <? size) then -1
  else find_idle_loop (bsize bitSet) size (drop (Z.to_nat start) bitSet) start (-1) 0.

Definition GetDynamicBitsetAreaSet (bitset : DynamicBitset) : gset Z :=
  foldl (fun locationSet i => if bit bitset i then {[ u16 i ]} ∪ locationSet else locationSet) ∅
    (seqZ 0 (bsize bitset)).

Definition GenDynamicBitsetByCpuSet (totalSize : Z) (cpuSet : gset Z) : DynamicBitset :=
  foldl (fun bitSet cpuId => DynamicBitsetSet bitSet cpuId 1) (replicate (Z.to_nat totalSize) false) (set_keys cpuSet).

(** [cpuMask] are the bytes of the mask, [bitSet] what the map holds before. *)
Definition CpuMaskToDynamicBitset (cpuMask : list Z) (bitSet : DynamicBitset) : DynamicBitset :=
  foldl (fun bs byte => foldl (fun bs b => bs ++ [negb (Z.land (Z.shiftr byte b) 1 =? 0)]) bs (seqZ 0 8)) bitSet cpuMask.

Definition DynamicBitsetToStr (bitSet : DynamicBitset) : string :=
  foldl (fun oss b => oss +:+ (if b : bool then "1" else "0")) "" bitSet.

(** The numbers of the set bits with a space between two of them: the code
    writes one after each and pops the last. *)
Definition str_pop_back (s : string) : string := String.substring 0 (String.length s - 1) s.

Definition GetCpuSetFromDynamicBitset (cpuBitSet : DynamicBitset) : string :=
  let result := foldl (fun oss i => if bit cpuBitSet i then oss +:+ pretty i +:+ " " else oss) "" (seqZ 0 (bsize cpuBitSet)) in
  if bool_decide (result = "") then "" else str_pop_back result.

Definition DynamicBitsetCut (origin : DynamicBitset) (start size : Z) : DynamicBitset :=
  foldl (fun ret i => if (i <? size) && (start + i <? bsize origin) then <[Z.to_nat i := bit origin (start + i)]> ret else ret)
    (replicate (Z.to_nat size) false) (seqZ 0 size).

(** * What the search computes *)

(** The idle bits at or after [start], and the first of them. *)
Definition idle_from (bs : DynamicBitset) (start : Z) : list Z :=
  filter (fun i => bit bs i = false) (seqZ start (bsize bs - start)).

(** The [n] bits from [p] on are inside the map and idle. *)
Definition window_free (bs : DynamicBitset) (p n : Z) : Prop :=
  0 <= p ∧ p + n <= bsize bs ∧ forall i, p <= i < p + n -> bit bs i = false.

(** The idle bits of the map follow one another. *)
Definition unbroken (bs : DynamicBitset) : Prop :=
  forall i j k, 0 <= i -> i <= j <= k -> k < bsize bs -> bit bs i = false -> bit bs k = false -> bit bs j = false.

(** The number of idle bits, [std::count(begin, end, false)]. *)
Definition idle_count (bs : DynamicBitset) : Z := Z.of_nat (length (filter (fun b => b = false) bs)).

(** Facts on the bit maps of CPUs: what each operation does to each bit, and
    what the search [FindFirstIdlePos] finds.

    [find_first_idle_eq] says what the search computes for every map shorter
    than the range of its counters: the first idle bit, when [size] bits are
    idle from [start] on.  Nothing makes those bits follow one another, so the
    area its callers take from the answer is free only when the idle bits do
    ([find_first_idle_window]); [find_first_idle_hole] is a map where it is not. *)

(** * Single bits *)

Lemma bsize_nonneg bs : 0 <= bsize bs.
Proof. unfold bsize. lia. Qed.

Lemma bit_outside bs i : i < 0 ∨ bsize bs <= i -> bit bs i = false.
Proof.
  unfold bit, bsize. intros H. destruct (Z.leb_spec 0 i); [|done].
  rewrite lookup_ge_None_2; [done|lia].
Qed.

Lemma bit_lookup bs i : 0 <= i < bsize bs -> bs !! Z.to_nat i = Some (bit bs i).
Proof.
  unfold bit, bsize. intros H. destruct (Z.leb_spec 0 i); [|lia].
  destruct (lookup_lt_is_Some_2 bs (Z.to_nat i)) as [b E]; [lia|]. by rewrite E.
Qed.

Lemma bit_insert bs i j v : 0 <= i < bsize bs -> bit (<[Z.to_nat i := v]> bs) j = if i =? j then v else bit bs j.
Proof.
  unfold bit, bsize. intros H. destruct (Z.eqb_spec i j) as [<-|Hne]; destruct (Z.leb_spec 0 i); try lia.
  - rewrite list_lookup_insert_eq by lia. done.
  - destruct (Z.leb_spec 0 j); [|done]. rewrite list_lookup_insert_ne by lia. done.
Qed.

Lemma bsize_insert bs i v : bsize (<[i := v]> bs) = bsize bs.
Proof. unfold bsize. by rewrite length_insert. Qed.

Lemma bsize_replicate n b : 0 <= n -> bsize (replicate (Z.to_nat n) b) = n.
Proof. unfold bsize. rewrite length_replicate. lia. Qed.

Lemma bit_replicate n i : bit (replicate n false) i = false.
Proof.
  unfold bit. destruct (0 <=? i); [|done]. destruct (replicate n false !! Z.to_nat i) eqn:E; [|done].
  by apply lookup_replicate in E as [-> _].
Qed.

Lemma bs_eq (bs1 bs2 : DynamicBitset) :
  bsize bs1 = bsize bs2 -> (forall i, 0 <= i < bsize bs1 -> bit bs1 i = bit bs2 i) -> bs1 = bs2.
Proof.
  intros Hs Hb. apply list_eq. intros i. destruct (decide (i < length bs1)%nat) as [Hlt|Hge].
  - pose proof (bit_lookup bs1 (Z.of_nat i)) as E1. pose proof (bit_lookup bs2 (Z.of_nat i)) as E2.
    rewrite Nat2Z.id in *. unfold bsize in *. rewrite E1, E2 by lia. rewrite Hb by lia. done.
  - unfold bsize in *. rewrite !lookup_ge_None_2 by lia. done.
Qed.

(** * Areas *)

Lemma set_area_fold bs start n v :
  0 <= start -> start + Z.of_nat n <= bsize bs ->
  let r := foldl (fun bs index => <[Z.to_nat index := v]> bs) bs (seqZ start (Z.of_nat n)) in
  bsize r = bsize bs ∧ forall i, bit r i = if (start <=? i) && (i <? start + Z.of_nat n) then v else bit bs i.
Proof.
  intros Hs Hn. induction n as [|n IH].
  - split; [done|]. intros i. change (Z.of_nat 0) with 0.
    destruct (Z.leb_spec start i), (Z.ltb_spec i (start + 0)); cbn [andb]; try done; lia.
  - replace (Z.of_nat (S n)) with (Z.of_nat n + 1) by lia. rewrite seqZ_app by lia.
    rewrite foldl_app. destruct IH as [IHs IHb]; [lia|].
    change (seqZ (start + Z.of_nat n) 1) with [start + Z.of_nat n]. cbn [foldl].
    split; [by rewrite bsize_insert|]. intros i.
    rewrite bit_insert by lia. rewrite IHb.
    destruct (Z.eqb_spec (start + Z.of_nat n) i), (Z.leb_spec start i), (Z.ltb_spec i (start + Z.of_nat n)),
      (Z.ltb_spec i (start + (Z.of_nat n + 1))); simpl; try done; lia.
Qed.

(** An area that is not empty and fits. *)
Definition area_ok (bs : DynamicBitset) (start size : Z) : Prop := 0 <= start ∧ 0 < size ∧ start + size <= bsize bs.

Lemma set_area_spec bs start size v :
  area_ok bs start size ->
  exists r, DynamicBitsetSetArea bs start size v = Some r ∧ bsize r = bsize bs ∧
    forall i, bit r i = if (start <=? i) && (i <? start + size) then v else bit bs i.
Proof.
  intros (H0 & H1 & H2). unfold DynamicBitsetSetArea.
  rewrite (proj2 (Z.eqb_neq size 0)), (proj2 (Z.ltb_ge (bsize bs) start)), (proj2 (Z.ltb_ge (bsize bs - start) size)) by lia.
  cbn [orb]. eexists. split; [reflexivity|].
  pose proof (set_area_fold bs start (Z.to_nat size) v H0) as Hf. rewrite Z2Nat.id in Hf by lia. apply Hf. lia.
Qed.

Lemma set_area_bad bs start size v : 0 <= start -> 0 <= size -> ~ area_ok bs start size -> DynamicBitsetSetArea bs start size v = None.
Proof.
  intros H0 H1 Hn. unfold DynamicBitsetSetArea, area_ok in *.
  destruct (Z.eqb_spec size 0), (Z.ltb_spec (bsize bs) start), (Z.ltb_spec (bsize bs - start) size); try done; lia.
Qed.

Lemma bsize_set_area bs start size v r : DynamicBitsetSetArea bs start size v = Some r -> bsize r = bsize bs.
Proof.
  unfold DynamicBitsetSetArea. case_match; [done|]. intros [= <-].
  generalize (seqZ start size). intros l. revert bs H. induction l as [|i l IH]; intros bs H; [done|].
  cbn [foldl]. rewrite IH; [apply bsize_insert|]. by rewrite bsize_insert.
Qed.

Lemma bsize_Set bs start size : bsize (DynamicBitsetSet bs start size) = bsize bs.
Proof.
  unfold DynamicBitsetSet. destruct (DynamicBitsetSetArea bs start size true) eqn:E; [|done]. by apply bsize_set_area in E.
Qed.

Lemma bsize_Clear bs start size : bsize (DynamicBitsetClear bs start size) = bsize bs.
Proof.
  unfold DynamicBitsetClear. destruct (DynamicBitsetSetArea bs start size false) eqn:E; [|done]. by apply bsize_set_area in E.
Qed.

Lemma bit_Set bs start size i :
  area_ok bs start size -> bit (DynamicBitsetSet bs start size) i = ((start <=? i) && (i <? start + size)) || bit bs i.
Proof.
  intros H. destruct (set_area_spec bs start size true H) as (r & E & _ & Hb). unfold DynamicBitsetSet. rewrite E.
  cbn [default from_option id]. rewrite Hb. by destruct (_ && _).
Qed.

Lemma bit_Clear bs start size i :
  area_ok bs start size -> bit (DynamicBitsetClear bs start size) i = negb ((start <=? i) && (i <? start + size)) && bit bs i.
Proof.
  intros H. destruct (set_area_spec bs start size false H) as (r & E & _ & Hb). unfold DynamicBitsetClear. rewrite E.
  cbn [default from_option id]. rewrite Hb. by destruct (_ && _).
Qed.

(** Setting an idle area and clearing it again gives the map back. *)
Lemma clear_set_area bs start size :
  area_ok bs start size -> window_free bs start size -> DynamicBitsetClear (DynamicBitsetSet bs start size) start size = bs.
Proof.
  intros H (_ & _ & Hw). apply bs_eq; [by rewrite bsize_Clear, bsize_Set|]. intros i _.
  assert (area_ok (DynamicBitsetSet bs start size) start size) by (unfold area_ok in *; by rewrite bsize_Set).
  rewrite bit_Clear, bit_Set by done.
  destruct (Z.leb_spec start i), (Z.ltb_spec i (start + size)); cbn [andb negb orb]; try done. symmetry. apply Hw. lia.
Qed.

(** * Whole maps *)

Lemma bsize_Not bs : bsize (DynamicBitsetNot bs) = bsize bs.
Proof. unfold bsize, DynamicBitsetNot. by rewrite length_fmap. Qed.

Lemma bit_Not bs i : 0 <= i < bsize bs -> bit (DynamicBitsetNot bs) i = negb (bit bs i).
Proof.
  intros H. pose proof (bit_lookup bs i H) as E. unfold bit at 1, DynamicBitsetNot.
  destruct (Z.leb_spec 0 i); [|lia]. by rewrite list_lookup_fmap, E.
Qed.

Lemma bsize_Or dst src : bsize (DynamicBitsetOr dst src) = bsize dst.
Proof.
  unfold DynamicBitsetOr. destruct (Z.eqb_spec (bsize dst) (bsize src)) as [E|]; [|done]. cbn [negb].
  unfold bsize in *. rewrite length_zip_with. lia.
Qed.

Lemma bit_Or dst src i : bsize dst = bsize src -> bit (DynamicBitsetOr dst src) i = bit dst i || bit src i.
Proof.
  intros E. unfold DynamicBitsetOr. rewrite (proj2 (Z.eqb_eq _ _) E). cbn [negb].
  destruct (decide (0 <= i < bsize dst)) as [H|H].
  - unfold bit at 1. destruct (Z.leb_spec 0 i); [|lia].
    rewrite lookup_zip_with, (bit_lookup dst), (bit_lookup src) by lia. done.
  - rewrite !bit_outside; try done; [lia|lia|]. unfold bsize in *. rewrite length_zip_with. lia.
Qed.

Lemma bsize_And dst src : bsize (DynamicBitsetAnd dst src) = bsize dst.
Proof.
  unfold DynamicBitsetAnd. destruct (Z.eqb_spec (bsize dst) (bsize src)) as [E|]; [|done]. cbn [negb].
  unfold bsize in *. rewrite length_zip_with. lia.
Qed.

Lemma bit_And dst src i : bsize dst = bsize src -> bit (DynamicBitsetAnd dst src) i = bit dst i && bit src i.
Proof.
  intros E. unfold DynamicBitsetAnd. rewrite (proj2 (Z.eqb_eq _ _) E). cbn [negb].
  destruct (decide (0 <= i < bsize dst)) as [H|H].
  - unfold bit at 1. destruct (Z.leb_spec 0 i); [|lia].
    rewrite lookup_zip_with, (bit_lookup dst), (bit_lookup src) by lia. done.
  - rewrite !bit_outside; try done; [lia|lia|]. unfold bsize in *. rewrite length_zip_with. lia.
Qed.

Lemma cut_fold origin start (size : Z) n :
  0 <= start -> Z.of_nat n <= size ->
  let r := foldl (fun ret i => if (i <? size) && (start + i <? bsize origin) then <[Z.to_nat i := bit origin (start + i)]> ret else ret)
    (replicate (Z.to_nat size) false) (seqZ 0 (Z.of_nat n)) in
  bsize r = size ∧ forall i, bit r i = (0 <=? i) && (i <? Z.of_nat n) && bit origin (start + i).
Proof.
  intros Hs Hn. induction n as [|n IH].
  - split; [apply bsize_replicate; lia|]. intros i. change (seqZ 0 (Z.of_nat 0)) with (@nil Z).
    cbn [foldl]. rewrite bit_replicate. change (Z.of_nat 0) with 0. destruct (Z.leb_spec 0 i), (Z.ltb_spec i 0); try done; lia.
  - replace (Z.of_nat (S n)) with (Z.of_nat n + 1) by lia. rewrite seqZ_app by lia.
    rewrite foldl_app. destruct IH as [IHs IHb]; [lia|].
    change (seqZ (0 + Z.of_nat n) 1) with [Z.of_nat n]. cbn [foldl].
    set (r := foldl _ _ _) in *. clearbody r. rewrite (proj2 (Z.ltb_lt (Z.of_nat n) size)) by lia. cbn [andb].
    destruct (Z.ltb_spec (start + Z.of_nat n) (bsize origin)) as [Hlt|Hge].
    + split; [by rewrite bsize_insert|]. intros i. rewrite bit_insert by lia. rewrite IHb.
      destruct (Z.eqb_spec (Z.of_nat n) i) as [E|], (Z.leb_spec 0 i), (Z.ltb_spec i (Z.of_nat n)),
        (Z.ltb_spec i (Z.of_nat n + 1)); cbn [andb]; try done; try lia. by rewrite E.
    + split; [done|]. intros i. rewrite IHb.
      destruct (Z.leb_spec 0 i), (Z.ltb_spec i (Z.of_nat n)), (Z.ltb_spec i (Z.of_nat n + 1)); cbn [andb]; try done; try lia.
      symmetry. apply bit_outside. lia.
Qed.

Lemma bsize_Cut origin start size : 0 <= start -> 0 <= size -> bsize (DynamicBitsetCut origin start size) = size.
Proof.
  intros H0 H1. pose proof (cut_fold origin start size (Z.to_nat size) H0) as H. rewrite Z2Nat.id in H by lia. apply H. lia.
Qed.

Lemma bit_Cut origin start size i :
  0 <= start -> 0 <= i < size -> bit (DynamicBitsetCut origin start size) i = bit origin (start + i).
Proof.
  intros H0 H1. pose proof (cut_fold origin start size (Z.to_nat size) H0) as H. rewrite Z2Nat.id in H by lia.
  unfold DynamicBitsetCut. destruct H as [_ H]; [lia|]. rewrite H.
  by rewrite (proj2 (Z.leb_le 0 i)), (proj2 (Z.ltb_lt i size)) by lia.
Qed.

Lemma bsize_ByArea total start size : 0 <= total -> bsize (GenDynamicBitSetByArea total start size) = total.
Proof. intros H. unfold GenDynamicBitSetByArea. rewrite bsize_Set. by apply bsize_replicate. Qed.

Lemma bit_ByArea total start size i :
  0 <= start -> 0 < size -> start + size <= total ->
  bit (GenDynamicBitSetByArea total start size) i = (start <=? i) && (i <? start + size).
Proof.
  intros H0 H1 H2. unfold GenDynamicBitSetByArea. rewrite bit_Set, bit_replicate, orb_false_r; [done|].
  unfold area_ok. rewrite bsize_replicate; lia.
Qed.

(** * The search *)

Lemma idle_from_step bs i :
  0 <= i < bsize bs -> idle_from bs i = if bit bs i then idle_from bs (i + 1) else i :: idle_from bs (i + 1).
Proof.
  intros H. unfold idle_from. rewrite seqZ_cons by lia. rewrite filter_cons.
  replace (Z.pred (bsize bs - i)) with (bsize bs - (i + 1)) by lia. replace (Z.succ i) with (i + 1) by lia.
  destruct (bit bs i) eqn:E; [by rewrite decide_False by congruence|by rewrite decide_True].
Qed.

Lemma idle_from_end bs i : bsize bs <= i -> idle_from bs i = [].
Proof. intros H. unfold idle_from. by rewrite seqZ_nil by lia. Qed.

Lemma idle_from_length bs i : Z.of_nat (length (idle_from bs i)) <= Z.max 0 (bsize bs - i).
Proof. unfold idle_from. pose proof (length_filter (fun i => bit bs i = false) (seqZ i (bsize bs - i))) as H. rewrite length_seqZ in H. lia. Qed.

Lemma elem_of_idle_from bs start i : 0 <= start -> i ∈ idle_from bs start <-> start <= i < bsize bs ∧ bit bs i = false.
Proof.
  intros H. unfold idle_from. rewrite list_elem_of_filter, elem_of_seqZ. split; [intros [? ?]; split; [lia|done]|].
  intros [? ?]. split; [done|lia].
Qed.

Lemma find_idle_loop_eq bs size i result c :
  0 < size -> bsize bs < 32768 -> 0 <= i <= bsize bs -> 0 <= c < size -> c <= i ->
  find_idle_loop (bsize bs) size (drop (Z.to_nat i) bs) i result c =
  if size - c <=? Z.of_nat (length (idle_from bs i)) then (if c =? 0 then default (-1) (head (idle_from bs i)) else result)
  else -1.
Proof.
  intros Hsize Hlen Hi Hc Hci.
  remember (Z.to_nat (bsize bs - i)) as k eqn:Ek. revert i result c Hi Hc Hci Ek.
  induction k as [|k IH]; intros i result c Hi Hc Hci Ek.
  - rewrite drop_ge by (unfold bsize in *; lia). rewrite idle_from_end by lia. cbn [length].
    destruct (Z.leb_spec (size - c) (Z.of_nat 0)); [lia|done].
  - rewrite (drop_S bs (bit bs i)) by (apply bit_lookup; lia). cbn [find_idle_loop].
    pose proof (idle_from_length bs i) as Hl. pose proof (idle_from_step bs i ltac:(lia)) as Hstep.
    replace (S (Z.to_nat i)) with (Z.to_nat (i + 1)) by lia.
    destruct ((c =? 0) && (bsize bs - i <? size)) eqn:Estop.
    { apply andb_true_iff in Estop as [->%Z.eqb_eq Hs%Z.ltb_lt].
      destruct (Z.leb_spec (size - 0) (Z.of_nat (length (idle_from bs i)))); [lia|done]. }
    rewrite Hstep. destruct (bit bs i); cbn [negb].
    + rewrite (proj2 (Z.eqb_neq c size)) by lia. by rewrite IH by lia.
    + rewrite !i16_small by lia. cbn [length head default from_option id]. destruct (Z.eqb_spec (c + 1) size) as [E|].
      * by destruct (Z.leb_spec (size - c) (Z.of_nat (S (length (idle_from bs (i + 1)))))); [|lia].
      * rewrite IH by lia. rewrite (proj2 (Z.eqb_neq (c + 1) 0)) by lia.
        destruct (Z.leb_spec (size - (c + 1)) (Z.of_nat (length (idle_from bs (i + 1))))),
          (Z.leb_spec (size - c) (Z.of_nat (S (length (idle_from bs (i + 1)))))); try done; lia.
Qed.

(** The search answers the first idle bit at or after [start] when at least
    [size] bits are idle from there on, and -1 otherwise. *)
Lemma find_first_idle_eq bs start size :
  0 <= start -> 0 <= size -> bsize bs < 32768 ->
  FindFirstIdlePos bs start size =
  if (0 <? size) && (size <=? Z.of_nat (length (idle_from bs start))) then default (-1) (head (idle_from bs start)) else -1.
Proof.
  intros H0 H1 Hlen. unfold FindFirstIdlePos. pose proof (idle_from_length bs start) as Hl.
  destruct (Z.eqb_spec size 0) as [->|]; [done|]. rewrite (proj2 (Z.ltb_lt 0 size)) by lia. cbn [orb andb].
  destruct (Z.ltb_spec (bsize bs) start), (Z.ltb_spec (bsize bs - start) size); cbn [orb];
    try (by destruct (Z.leb_spec size (Z.of_nat (length (idle_from bs start)))); [lia|]).
  rewrite find_idle_loop_eq by lia. by rewrite Z.sub_0_r.
Qed.

Lemma idle_from_head bs start p l :
  0 <= start -> idle_from bs start = p :: l ->
  start <= p < bsize bs ∧ bit bs p = false ∧ (forall i, start <= i < p -> bit bs i = true) ∧ idle_from bs p = p :: l.
Proof.
  remember (Z.to_nat (bsize bs - start)) as k eqn:Ek. revert start Ek.
  induction k as [|k IH]; intros start Ek H0 E; [by rewrite idle_from_end in E by lia|].
  pose proof E as E0. rewrite idle_from_step in E by lia. destruct (bit bs start) eqn:Eb.
  - destruct (IH (start + 1)) as (Hp & Hb & Hbefore & Hl); [lia|lia|done|]. split; [lia|]. split; [done|]. split; [|done].
    intros i Hi. destruct (decide (i = start)) as [->|]; [done|]. apply Hbefore. lia.
  - injection E as -> _. split; [lia|]. split; [done|]. split; [intros; lia|done].
Qed.

(** The position found: inside the map, idle, with every earlier bit from
    [start] on in use, and far enough from the end. *)
Lemma find_first_idle_found bs start size :
  0 <= start -> 0 <= size -> bsize bs < 32768 -> FindFirstIdlePos bs start size <> -1 ->
  let p := FindFirstIdlePos bs start size in
  start <= p ∧ 0 < size ∧ p + size <= bsize bs ∧ bit bs p = false ∧ (forall i, start <= i < p -> bit bs i = true) ∧
  size <= Z.of_nat (length (idle_from bs p)).
Proof.
  intros H0 H1 Hlen. rewrite find_first_idle_eq by done.
  destruct (Z.ltb_spec 0 size), (Z.leb_spec size (Z.of_nat (length (idle_from bs start)))) as [Hn|]; cbn [andb]; try done.
  destruct (idle_from bs start) as [|p l] eqn:E; [cbn [length] in *; lia|]. intros _. cbn [head default from_option id].
  destruct (idle_from_head bs start p l H0 E) as (Hp & Hb & Hbefore & Hl). rewrite Hl.
  pose proof (idle_from_length bs p) as Hlp. rewrite Hl in Hlp. repeat split; try done; lia.
Qed.

(** The area at the position found is idle when the idle bits of the map
    follow one another, and always for a single bit. *)
Lemma find_first_idle_window bs start size :
  0 <= start -> 0 <= size -> bsize bs < 32768 -> FindFirstIdlePos bs start size <> -1 -> unbroken bs ∨ size = 1 ->
  window_free bs (FindFirstIdlePos bs start size) size.
Proof.
  intros H0 H1 Hlen Hne Hor. destruct (find_first_idle_found bs start size) as (Hp & Hs & Hend & Hb & _ & Hn); try done.
  set (p := FindFirstIdlePos bs start size) in *. clearbody p. split; [lia|]. split; [done|]. intros i Hi.
  destruct Hor as [Hu| ->]; [|by replace i with p by lia].
  destruct (bit bs i) eqn:Ei; [exfalso|done].
  assert (Hsub : forall j, j ∈ idle_from bs p -> j ∈ seqZ p (i - p)).
  { intros j [Hj Ej]%elem_of_idle_from; [|lia]. apply elem_of_seqZ. destruct (Z.lt_ge_cases j i); [lia|].
    rewrite (Hu p i j) in Ei; try done; lia. }
  assert (Hnd : NoDup (idle_from bs p)) by apply NoDup_filter, NoDup_seqZ.
  pose proof (submseteq_length _ _ (NoDup_submseteq _ _ Hnd Hsub)) as Hl. rewrite length_seqZ in Hl. lia.
Qed.

(** An idle area counts among the idle bits. *)
Lemma idle_window_length bs start q size :
  0 <= start <= q -> 0 <= size -> window_free bs q size -> size <= Z.of_nat (length (idle_from bs start)).
Proof.
  intros H0 H1 (Q0 & Q1 & Q2). assert (Hsub : seqZ q size ⊆+ idle_from bs start).
  { apply NoDup_submseteq; [apply NoDup_seqZ|]. intros i Hi%elem_of_seqZ. apply elem_of_idle_from; [lia|]. split; [lia|]. apply Q2. lia. }
  apply submseteq_length in Hsub. rewrite length_seqZ in Hsub. lia.
Qed.

(** The area of the answer with a bit in use. *)
Lemma find_first_idle_hole : FindFirstIdlePos [false; true; false] 0 2 = 0 ∧ ~ window_free [false; true; false] 0 2.
Proof. split; [reflexivity|]. intros (_ & _ & Hw). specialize (Hw 1). cbn in Hw. assert (true = false) by (apply Hw; lia). done. Qed.
