(* ===== verification/ClusterVm.v ===== *)
(** The data of the cluster scheduler: util/cluster_vm.h, and the parts of
    acquire/cpu_helper it reads, of virt-awaresched.

    A map keyed by a 16-bit id or by a pid is a [gmap Z], one keyed by a string
    a [gmap string].  The [std::unordered_map]s of a [VmInfo] are lists of
    entries in the order in which they are traversed, which C++ leaves open. *)

From S2P Require Import Prelude VasLib DynamicBitset.

(** * CPUs, clusters and layers *)

Record ClusterInfo := mkClusterInfo {
  ci_id : Z;
  ci_numaId : Z;
  ci_total : Z;
  ci_cpuSet : gset Z;
  ci_bitMap : DynamicBitset;
}.

Definition clusterinfo0 : ClusterInfo := mkClusterInfo 0 0 0 ∅ [].

Record ClusterLayer := mkLayer {
  l_idle : Z;
  l_total : Z;
  l_usedBitmap : DynamicBitset;
  l_groups : gset string;
}.

Record Cluster := mkCluster {
  c_id : Z;
  c_numaId : Z;
  c_cpuSet : gset Z;
  clusterLayers : list ClusterLayer;
}.

Definition cluster0 : Cluster := mkCluster 0 0 ∅ [].

Definition GetStartCpu (c : Cluster) : Z := default (-1) (set_first (c_cpuSet c)).

(** [cluster.cpuSet.size()] *)
Definition cpu_count (c : Cluster) : Z := Z.of_nat (size (c_cpuSet c)).

(** * Virtual machines *)

Record VmDomain := mkDomain {
  d_uuid : string;
  d_name : string;
  d_numaId : Z;
  d_tgid : Z;
  pidVcpuMap : gmap Z Z;
  commonCpuMap : DynamicBitset;
  d_groups : gset string;
  d_entityPids : gset Z;
  isReScheded : bool;
}.

Definition domain0 : VmDomain := mkDomain "" "" 0 0 ∅ [] ∅ ∅ false.

(** [None] is the dereference of [begin()] of an empty map. *)
Definition GetCommonCpuMap (vcpu2CpuMap : gmap Z DynamicBitset) : option DynamicBitset :=
  first ← head (map_keys vcpu2CpuMap) ≫= (fun k => vcpu2CpuMap !! k);
  let totalSize := u16 (bsize first) in
  Some (foldl (fun ret k => DynamicBitsetAnd ret (default [] (vcpu2CpuMap !! k)))
          (GenDynamicBitSetByArea totalSize 0 totalSize) (map_keys vcpu2CpuMap)).

Record VmGroup := mkGroup {
  g_domainKey : string;
  g_id : string;
  g_clusterId : Z;
  g_layerId : Z;
  g_start : Z;
  g_nrCpus : Z;
  g_usedBitmap : DynamicBitset;
  g_entityPids : gset Z;
}.

Definition group0 : VmGroup := mkGroup "" "" 0 0 0 0 [] ∅.

Record VmEntity := mkEntity { e_pid : Z; cpuIdx : Z }.
Definition entity0 : VmEntity := mkEntity 0 0.

Record VcpuAffinityInfo := mkVcpuAffinity { va_vcpu : Z; va_pid : Z; va_cpuIdx : Z }.

Record VmDomainAffinity := mkDomainAffinity {
  da_numaId : Z;
  da_groups : list VmGroup;
  vcpuAffinityInfoMap : gmap Z VcpuAffinityInfo;
}.

Record VmAffinity := mkAffinity {
  a_uuid : string;
  a_name : string;
  a_tgid : Z;
  domainAffinityMap : gmap Z VmDomainAffinity;
}.

(** * What the acquisition collects *)

Record VcpuInfo := mkVcpuInfo { v_pid : Z; v_numaSet : gset Z; v_cpuMaps : DynamicBitset }.

Record VmInfo := mkVmInfo {
  i_uuid : string;
  i_name : string;
  i_tgid : Z;
  vcpuMap : list (Z * VcpuInfo);
}.

(** * The object and its host *)

(** [ClusterSched], the number of times it has asked the host for something
    and the cgroup files it has written, the last one first. *)
Record Sched := mkSched {
  numaClusterMap_ : gmap Z (gmap Z Cluster);
  domainMap_ : gmap string VmDomain;
  entityMap_ : gmap Z VmEntity;
  groupMap_ : gmap string VmGroup;
  compactionCount_ : Z;
  overProvision_ : gmap Z Z;
  host_tick : nat;
  cgroup_writes : list (string * string);
}.

Definition sched0 : Sched := mkSched ∅ ∅ ∅ ∅ 0 ∅ 0 [].

(** What the host answers: libvirt's connection, look-up and domain id, the
    entries of the cgroup directory of the machines ([None] when it is not
    there), the capability calls, the open, buffered output and final flush of
    a cgroup file, the VMs that have a process, and the order in which a hash
    map with the given keys is traversed. *)
Record HostAnswers := mkHost {
  h_virConnect : bool;
  h_lookup : string -> bool;
  h_domainId : string -> Z;
  h_cgroupDirs : option (list string);
  h_capAdd : bool;
  h_open : bool;
  h_put : bool;
  h_flush : bool;
  h_capDelete : bool;
  h_uuid2Pid : gset string;
  h_order : list string -> list string;
}.

(** The host: its answers to the first, second, ... request. *)
Abbreviation Host := (nat -> HostAnswers).

(** [CpuHelper] after [GenCpuTopology]. *)
Record CpuHelper := mkCpuHelper {
  CLUSTER_CPU_NUM : Z;
  MAX_CPU_NUM : Z;
  smtCpuNr : Z;
  cpuTopologyMap : gmap Z ClusterInfo;
  numaCpusetMap : gmap Z (gset Z);
}.

(** [VasdArgParse]: the settings the scheduler reads. *)
Record VasdConf := mkConf { smt : bool; schedPolicy : string }.

Definition SCHED_POLICY_DYNAMIC : string := "dynamicAffinity".
Definition SCHED_POLICY_STATIC : string := "affinity".

(** * Updates *)

Definition set_numaClusterMap (m : gmap Z (gmap Z Cluster)) (s : Sched) : Sched :=
  mkSched m (domainMap_ s) (entityMap_ s) (groupMap_ s) (compactionCount_ s) (overProvision_ s) (host_tick s) (cgroup_writes s).
Definition set_domainMap (m : gmap string VmDomain) (s : Sched) : Sched :=
  mkSched (numaClusterMap_ s) m (entityMap_ s) (groupMap_ s) (compactionCount_ s) (overProvision_ s) (host_tick s) (cgroup_writes s).
Definition set_entityMap (m : gmap Z VmEntity) (s : Sched) : Sched :=
  mkSched (numaClusterMap_ s) (domainMap_ s) m (groupMap_ s) (compactionCount_ s) (overProvision_ s) (host_tick s) (cgroup_writes s).
Definition set_groupMap (m : gmap string VmGroup) (s : Sched) : Sched :=
  mkSched (numaClusterMap_ s) (domainMap_ s) (entityMap_ s) m (compactionCount_ s) (overProvision_ s) (host_tick s) (cgroup_writes s).
Definition set_compactionCount (x : Z) (s : Sched) : Sched :=
  mkSched (numaClusterMap_ s) (domainMap_ s) (entityMap_ s) (groupMap_ s) x (overProvision_ s) (host_tick s) (cgroup_writes s).
Definition set_overProvision (m : gmap Z Z) (s : Sched) : Sched :=
  mkSched (numaClusterMap_ s) (domainMap_ s) (entityMap_ s) (groupMap_ s) (compactionCount_ s) m (host_tick s) (cgroup_writes s).
Definition set_host (tick : nat) (writes : list (string * string)) (s : Sched) : Sched :=
  mkSched (numaClusterMap_ s) (domainMap_ s) (entityMap_ s) (groupMap_ s) (compactionCount_ s) (overProvision_ s) tick writes.

Definition set_clusterLayers (ls : list ClusterLayer) (c : Cluster) : Cluster := mkCluster (c_id c) (c_numaId c) (c_cpuSet c) ls.

Definition set_d_groups (gs : gset string) (d : VmDomain) : VmDomain :=
  mkDomain (d_uuid d) (d_name d) (d_numaId d) (d_tgid d) (pidVcpuMap d) (commonCpuMap d) gs (d_entityPids d) (isReScheded d).
Definition set_pidVcpuMap (m : gmap Z Z) (d : VmDomain) : VmDomain :=
  mkDomain (d_uuid d) (d_name d) (d_numaId d) (d_tgid d) m (commonCpuMap d) (d_groups d) (d_entityPids d) (isReScheded d).
Definition set_d_entityPids (ps : gset Z) (d : VmDomain) : VmDomain :=
  mkDomain (d_uuid d) (d_name d) (d_numaId d) (d_tgid d) (pidVcpuMap d) (commonCpuMap d) (d_groups d) ps (isReScheded d).
Definition set_isReScheded (b : bool) (d : VmDomain) : VmDomain :=
  mkDomain (d_uuid d) (d_name d) (d_numaId d) (d_tgid d) (pidVcpuMap d) (commonCpuMap d) (d_groups d) (d_entityPids d) b.

Definition set_g_pids (bm : DynamicBitset) (ps : gset Z) (g : VmGroup) : VmGroup :=
  mkGroup (g_domainKey g) (g_id g) (g_clusterId g) (g_layerId g) (g_start g) (g_nrCpus g) bm ps.

(** The cluster [c] of NUMA node [n], and one of its layers. *)
Definition cluster_of (n c : Z) (s : Sched) : option Cluster := numaClusterMap_ s !! n ≫= (fun cs => cs !! c).
Definition layer_of (n c l : Z) (s : Sched) : option ClusterLayer :=
  cl ← cluster_of n c s; if 0 <=? l then clusterLayers cl !! Z.to_nat l else None.

(** Writing through a reference to a cluster, and to one of its layers. *)
Definition upd_cluster (n c : Z) (f : Cluster -> Cluster) (s : Sched) : Sched :=
  set_numaClusterMap (alter (fun cs => alter f c cs) n (numaClusterMap_ s)) s.
Definition upd_layer (n c l : Z) (f : ClusterLayer -> ClusterLayer) (s : Sched) : Sched :=
  upd_cluster n c (fun cl => set_clusterLayers (alter f (Z.to_nat l) (clusterLayers cl)) cl) s.

(** [m[k]] where it is read: a missing entry is created. *)
Definition group_at (k : string) : M Sched VmGroup := fun s =>
  match groupMap_ s !! k with
  | Some g => Some (g, s)
  | None => Some (group0, set_groupMap (<[k := group0]> (groupMap_ s)) s)
  end.

Definition numa_at (n : Z) : M Sched (gmap Z Cluster) := fun s =>
  match numaClusterMap_ s !! n with
  | Some cs => Some (cs, s)
  | None => Some (∅, set_numaClusterMap (<[n := ∅]> (numaClusterMap_ s)) s)
  end.

Definition cluster_at (n c : Z) : M Sched Cluster :=
  cs ← numa_at n;
  match cs !! c with
  | Some cl => mret cl
  | None => _ ← modify (fun s => set_numaClusterMap (<[n := <[c := cluster0]> cs]> (numaClusterMap_ s)) s); mret cluster0
  end.
