(* ===== verification/ClusterSched.v ===== *)
(** The cluster scheduler of virt-awaresched: vasd/cluster_sched/cluster_sched.cpp.

    It places the vCPU threads of virtual machines on the CPUs of one NUMA
    node.  The CPUs of a node are grouped in clusters; each cluster has one
    layer per degree of over-provision, and a layer is a bit map of the CPUs
    given away with a count of the idle ones.  [Alloc] takes groups of CPUs
    from layers for a domain (a VM on a node), [Assign] pins each vCPU thread
    to a CPU of the groups by writing its cgroup, [Free] and [Unassign] undo
    them, and the compaction moves groups to lower clusters and layers.

    Each member function is one definition, on the state [Sched] of the object
    and its host.  A reference to a domain of [domainMap_] is passed by value
    and stored back by the caller, since no callee reaches the same domain in
    another way; a reference to a cluster is the pair of its ids.  A range-for
    over a [std::set] goes through its elements as they are when it starts.
    The locks make each public function atomic. *)

From S2P Require Import Prelude VasLib DynamicBitset ClusterVm.

Definition maxOverProvision : Z := 6.
Definition vmCgroupPrefix : string := "/sys/fs/cgroup/cpuset/machine.slice".

(** [uuid + "_" + std::to_string(numaId)], the key of [domainMap_]. *)
Definition domain_key (uuid : string) (numaId : Z) : string := uuid +:+ "_" +:+ pretty numaId.
(** [domainKey + "_" + std::to_string(clusterId) + "_" + std::to_string(layerId)] *)
Definition group_key (domainKey : string) (clusterId layerId : Z) : string :=
  domainKey +:+ "_" +:+ pretty clusterId +:+ "_" +:+ pretty layerId.

Inductive VmThreadType := VCPU_CPUSET | VCPU_PREFERRED_CPU.

(** The first suffix of [s] that starts with [p]: [regex_search] with
    the pattern [p.*], whose match extends to the end. *)
Fixpoint suffix_from (p s : string) : option string :=
  if String.prefix p s then Some s else match s with EmptyString => None | String _ s' => suffix_from p s' end.

(** [NumaUsedCpuMap]: the CPUs in use by layer and node. *)
Abbreviation NumaUsedCpuMap := (gmap (Z * Z) Z).

Section ClusterSched.
Context (T : CpuHelper) (cf : VasdConf) (H : Host).

(** One request to the host. *)
Definition ask : M Sched HostAnswers :=
  fun s => Some (H (host_tick s), set_host (Datatypes.S (host_tick s)) (cgroup_writes s) s).

(** * Layers, groups and entities *)

Definition GetOverProvision (numaId : Z) (s : Sched) : Z := default 0 (overProvision_ s !! numaId).

Definition GetGranularity : Z := if smt cf then 1 else smtCpuNr T.

Definition AddGroupToClusterLayer (group : VmGroup) (clusterLayer : ClusterLayer) : ClusterLayer :=
  mkLayer (u16 (l_idle clusterLayer - g_nrCpus group)) (l_total clusterLayer)
    (DynamicBitsetSet (l_usedBitmap clusterLayer) (u16 (g_start group)) (u16 (g_nrCpus group)))
    ({[ g_id group ]} ∪ l_groups clusterLayer).

Definition DelGroupFromClusterLayer (group : VmGroup) (clusterLayer : ClusterLayer) : ClusterLayer :=
  mkLayer (u16 (l_idle clusterLayer + g_nrCpus group)) (l_total clusterLayer)
    (DynamicBitsetClear (l_usedBitmap clusterLayer) (u16 (g_start group)) (u16 (g_nrCpus group)))
    (l_groups clusterLayer ∖ {[ g_id group ]}).

Definition AddGroupToDomain (group : VmGroup) (domain : VmDomain) : VmDomain :=
  set_d_groups ({[ g_id group ]} ∪ d_groups domain) domain.

Definition DelGroupFromDomain (group : VmGroup) (domain : VmDomain) : VmDomain :=
  set_d_groups (d_groups domain ∖ {[ g_id group ]}) domain.

Definition GenEntity (pid index : Z) : M Sched VmEntity :=
  let entity := mkEntity pid index in
  _ ← modify (fun s => set_entityMap (<[pid := entity]> (entityMap_ s)) s);
  mret entity.

Definition AddEntityToGroup (entity : VmEntity) (granularity : Z) (group : VmGroup) : VmGroup :=
  set_g_pids (DynamicBitsetSet (g_usedBitmap group) (u16 (cpuIdx entity)) granularity)
    ({[ e_pid entity ]} ∪ g_entityPids group) group.

(** The layer of a cluster as the topology gives it. *)
Definition fresh_layer (info : ClusterInfo) : ClusterLayer :=
  mkLayer (u16 (idle_count (ci_bitMap info))) (ci_total info) (ci_bitMap info) ∅.

Definition topology_of (clusterId : Z) : ClusterInfo := default clusterinfo0 (cpuTopologyMap T !! clusterId).

(** Some cluster has no layer. *)
Definition some_layerless (s : Sched) : bool :=
  existsb (fun ncs => existsb (fun ccl => bool_decide (clusterLayers ccl.2 = [])) (map_to_list ncs.2)) (map_to_list (numaClusterMap_ s)).

(** [f clusterId cluster] for every cluster of every node. *)
Definition map_clusters (f : Z -> Cluster -> Cluster) (s : Sched) : Sched :=
  set_numaClusterMap ((fun cs : gmap Z Cluster => map_imap (fun c cl => Some (f c cl)) cs) <$> numaClusterMap_ s) s.

Definition OverProvisionUp (numaId : Z) (s : Sched) : Sched :=
  if some_layerless s then s
  else
    let s1 := map_clusters (fun c cl => set_clusterLayers (clusterLayers cl ++ [fresh_layer (topology_of c)]) cl) s in
    set_overProvision (<[numaId := u8 (GetOverProvision numaId s + 1)]> (overProvision_ s1)) s1.

Definition OverProvisionDown (numaId : Z) (s : Sched) : Sched :=
  if some_layerless s then s
  else
    let s1 := map_clusters (fun _ cl => set_clusterLayers (take (length (clusterLayers cl) - 1) (clusterLayers cl)) cl) s in
    match overProvision_ s1 !! numaId with
    | Some op => if 0 <? op then set_overProvision (<[numaId := op - 1]> (overProvision_ s1)) s1 else s1
    | None => s1
    end.

(** * Taking CPUs *)

Definition GetNumaTotalCpus (numaId : Z) (s : Sched) : Z :=
  match numaClusterMap_ s !! numaId with
  | None => 0
  | Some cs =>
      foldl (fun ret c => match cs !! c with
                          | Some cl => match clusterLayers cl with
                                       | [] => ret
                                       | l0 :: _ => u16 (ret + l_total l0 * Z.of_nat (length (clusterLayers cl)))
                                       end
                          | None => ret
                          end) 0 (map_keys cs)
  end.

(** The CPUs a group may not take: those outside the common CPU map. *)
Definition unavailable (domain : VmDomain) (cluster : Cluster) : DynamicBitset :=
  DynamicBitsetNot (DynamicBitsetCut (commonCpuMap domain) (u16 (GetStartCpu cluster)) (u16 (cpu_count cluster))).

Definition AllocGroupFromCluster (nr layerId : Z) (domain : VmDomain) (n c : Z) (availableCpuMap : DynamicBitset)
  : M Sched (Z * VmDomain) :=
  cluster ← (gets (cluster_of n c) ≫= lift_opt);
  clusterLayer ← (gets (layer_of n c layerId) ≫= lift_opt);
  let free := l_idle clusterLayer in
  let total := l_total clusterLayer in
  let availableCpuMap := DynamicBitsetOr availableCpuMap (l_usedBitmap clusterLayer) in
  let '(start, allocNum) :=
    if (total <=? nr) && (total =? free) then (FindFirstIdlePos availableCpuMap 0 total, total)
    else if nr <=? free then (FindFirstIdlePos availableCpuMap 0 nr, nr)
    else (-1, 0) in
  if isIntInvalid start then mret (0, domain)
  else
    let domainKey := domain_key (d_uuid domain) (d_numaId domain) in
    let group := mkGroup domainKey (group_key domainKey (c_id cluster) layerId) (c_id cluster) layerId start allocNum
                   (replicate (Z.to_nat (CLUSTER_CPU_NUM T)) false) ∅ in
    _ ← modify (fun s => set_groupMap (<[g_id group := group]> (groupMap_ s)) s);
    _ ← modify (upd_layer n c layerId (AddGroupToClusterLayer group));
    mret (allocNum, AddGroupToDomain group domain).

(** The clusters of one layer, until one of them gives CPUs. *)
Fixpoint alloc_from_clusters (nr layerId : Z) (cs : list Z) (domain : VmDomain) : M Sched (Z * VmDomain) :=
  match cs with
  | [] => mret (0, domain)
  | c :: cs' =>
      cluster ← (gets (cluster_of (d_numaId domain) c) ≫= lift_opt);
      if bool_decide (clusterLayers cluster = []) || (Z.of_nat (length (clusterLayers cluster)) <=? layerId)
      then alloc_from_clusters nr layerId cs' domain
      else
        '(allocNum, domain) ← AllocGroupFromCluster nr (u8 layerId) domain (d_numaId domain) c (unavailable domain cluster);
        if allocNum =? 0 then alloc_from_clusters nr layerId cs' domain else mret (allocNum, domain)
  end.

(** The loop over the layers; a [uint8_t] bounds it. *)
Fixpoint alloc_from_layers (fuel : nat) (nr layerId : Z) (domain : VmDomain) : M Sched (Z * VmDomain) :=
  match fuel with
  | O => undefined
  | Datatypes.S fuel =>
      op ← gets (GetOverProvision (d_numaId domain));
      if op <=? layerId then mret (0, domain)
      else
        cs ← gets (fun s => default ∅ (numaClusterMap_ s !! d_numaId domain));
        '(allocNum, domain) ← alloc_from_clusters nr layerId (map_keys cs) domain;
        if negb (allocNum =? 0) then mret (allocNum, domain)
        else
          curOp ← gets (GetOverProvision (d_numaId domain));
          _ ← (if (layerId =? curOp - 1) && (curOp <? maxOverProvision) && bool_decide (schedPolicy cf = SCHED_POLICY_DYNAMIC)
               then modify (OverProvisionUp (d_numaId domain)) else mret tt);
          alloc_from_layers fuel nr (layerId + 1) domain
  end.

Definition LAYER_FUEL : nat := 257.

Definition AllocClusterGroupToDomain (domain : VmDomain) (nr : Z) : M Sched (Z * VmDomain) :=
  m ← gets numaClusterMap_;
  match m !! d_numaId domain with
  | None => mret (0, domain)
  | Some _ => alloc_from_layers LAYER_FUEL nr 0 domain
  end.

(** * Giving CPUs back *)

Definition free_group (domain : VmDomain) (groupId : string) : M Sched unit :=
  gm ← gets groupMap_;
  match gm !! groupId with
  | None => mret tt
  | Some group =>
      layer ← gets (layer_of (d_numaId domain) (g_clusterId group) (g_layerId group));
      _ ← (match layer with
           | Some _ => modify (upd_layer (d_numaId domain) (g_clusterId group) (g_layerId group) (DelGroupFromClusterLayer group))
           | None => mret tt
           end);
      modify (fun s => set_groupMap (delete groupId (groupMap_ s)) s)
  end.

Definition Free (domain : VmDomain) : M Sched VmDomain :=
  _ ← mfor (free_group domain) (set_list (d_groups domain));
  mret (set_d_groups ∅ domain).

(** The loop of [Alloc]; [nr] decreases with every turn. *)
Fixpoint alloc_loop (fuel : nat) (nr : Z) (domain : VmDomain) : M Sched (Z * VmDomain) :=
  if nr =? 0 then mret (VAS_OK, domain)
  else
    match fuel with
    | O => undefined
    | Datatypes.S fuel =>
        '(allocNum, domain) ← AllocClusterGroupToDomain domain nr;
        if allocNum =? 0 then domain ← Free domain; mret (VAS_ERROR, domain)
        else alloc_loop fuel (u16 (nr - allocNum)) domain
    end.

Definition Alloc (domain : VmDomain) : M Sched (Z * VmDomain) :=
  let granularity := GetGranularity in
  if granularity =? 0 then mret (VAS_ERROR, domain)
  else if isReScheded domain then mret (VAS_OK, domain)
  else
    let totalNr := u32 (Z.of_nat (size (pidVcpuMap domain)) * granularity) in
    if 65535 <? totalNr then mret (VAS_ERROR, domain)
    else
      total ← gets (GetNumaTotalCpus (d_numaId domain));
      if total <? totalNr then mret (VAS_ERROR, domain)
      else alloc_loop (Z.to_nat totalNr) totalNr domain.

(** * Pinning threads *)

(** The code and the directory of the VM's cgroup. *)
Definition GetVmCgroupPath (uuid : string) : M Sched (Z * string) :=
  a ← ask;
  if negb (h_virConnect a) || negb (h_lookup a uuid) then mret (VAS_ERROR, "")
  else if isIntInvalid (i32 (h_domainId a uuid)) then mret (VAS_ERROR, "")
  else
    let vmId := u16 (h_domainId a uuid) in
    match h_cgroupDirs a with
    | None => mret (VAS_ERROR, "")
    | Some dirs =>
        match head (omap (suffix_from ("machine-qemu\x2d" +:+ pretty vmId +:+ "\x2d")) dirs) with
        | Some m => mret (VAS_OK, vmCgroupPrefix +:+ "/" +:+ m +:+ "/libvirt")
        | None => mret (VAS_ERROR, "")
        end
    end.

Definition cpuset_file (vmPathPre : string) (threadType : VmThreadType) (id : Z) : string :=
  vmPathPre +:+ "/vcpu" +:+ pretty id +:+
  match threadType with VCPU_CPUSET => "/cpuset.cpus" | VCPU_PREFERRED_CPU => "/cpuset.preferred_cpus" end.

(** The text goes to the buffer of the stream, which reaches the file when the
    stream is destroyed, after the code has been decided. *)
Definition SetVmCpuset (vmPathPre : string) (threadType : VmThreadType) (cpuBitSet : DynamicBitset) (id : Z) : M Sched Z :=
  a ← ask;
  if negb (h_capAdd a) then mret VAS_ERROR
  else if negb (h_open a) then mret VAS_ERROR
  else if negb (h_put a) then mret VAS_ERROR
  else
    _ ← (if h_flush a
         then modify (fun s => set_host (host_tick s)
                (((cpuset_file vmPathPre threadType id), GetCpuSetFromDynamicBitset cpuBitSet) :: cgroup_writes s) s)
         else mret tt);
    if negb (h_capDelete a) then mret VAS_ERROR else mret VAS_OK.

(** [domain.pidVcpuMap[pid]]: the vCPU, and the domain with the entry. *)
Definition vcpu_at (pid : Z) (domain : VmDomain) : Z * VmDomain :=
  match pidVcpuMap domain !! pid with
  | Some v => (v, domain)
  | None => (0, set_pidVcpuMap (<[pid := 0]> (pidVcpuMap domain)) domain)
  end.

Definition SetVcpuAffinity (domain : VmDomain) (pid cpuIndex clusterId : Z) : M Sched (Z * VmDomain) :=
  '(ret, vmPathPre) ← GetVmCgroupPath (d_uuid domain);
  if isVasRetFail ret then mret (ret, domain)
  else
    let '(vcpu, domain) := vcpu_at pid domain in
    let one := GenDynamicBitSetByArea (MAX_CPU_NUM T) cpuIndex 1 in
    if bool_decide (schedPolicy cf = SCHED_POLICY_DYNAMIC) then
      let numaCpuBitMap := GenDynamicBitsetByCpuSet (MAX_CPU_NUM T) (default ∅ (numaCpusetMap T !! d_numaId domain)) in
      ret ← SetVmCpuset vmPathPre VCPU_CPUSET numaCpuBitMap vcpu;
      if isVasRetFail ret then mret (VAS_ERROR, domain)
      else
        cl ← gets (cluster_of (d_numaId domain) clusterId);
        match cl with
        | None => mret (VAS_ERROR, domain)
        | Some _ => ret ← SetVmCpuset vmPathPre VCPU_PREFERRED_CPU one vcpu; mret (ret, domain)
        end
    else
      ret ← SetVmCpuset vmPathPre VCPU_CPUSET one vcpu; mret (ret, domain).

(** The groups of the domain, until one of them has an idle CPU. *)
Fixpoint assign_in_groups (domain : VmDomain) (pid : Z) (gs : list string) : M Sched (Z * VmDomain) :=
  match gs with
  | [] => mret (VAS_ERROR, domain)
  | groupId :: gs' =>
      group ← group_at groupId;
      let index := FindFirstIdlePos (g_usedBitmap group) (u16 (g_start group)) GetGranularity in
      if isIntInvalid index || (g_start group + g_nrCpus group - 1 <? index) then assign_in_groups domain pid gs'
      else
        cl ← gets (cluster_of (d_numaId domain) (g_clusterId group));
        match cl with
        | None => assign_in_groups domain pid gs'
        | Some cluster =>
            let cpuIndex := GetStartCpu cluster + index in
            '(ret, domain) ← SetVcpuAffinity domain pid (u16 cpuIndex) (g_clusterId group);
            if isVasRetFail ret then mret (VAS_ERROR, domain)
            else
              entity ← GenEntity pid index;
              _ ← modify (fun s => set_groupMap (<[groupId := AddEntityToGroup entity GetGranularity group]> (groupMap_ s)) s);
              mret (VAS_OK, domain)
        end
  end.

Definition AssignPidCpu (domain : VmDomain) (pid : Z) : M Sched (Z * VmDomain) :=
  assign_in_groups domain pid (set_list (d_groups domain)).

Definition Assign (domain : VmDomain) : M Sched (Z * VmDomain) :=
  mfold (fun pid '(ret, domain) =>
           em ← gets entityMap_;
           match em !! pid with
           | Some _ => mret (ret, domain)
           | None =>
               '(tmpRet, domain) ← AssignPidCpu domain pid;
               mret (if isVasRetFail tmpRet then VAS_ERROR else ret, domain)
           end)
    (map_keys (pidVcpuMap domain)) (VAS_OK, domain).

(** [group] is a reference into [groupMap_]; the threads of it one by one. *)
Definition unassign_group (groupId : string) : M Sched unit :=
  gm ← gets groupMap_;
  match gm !! groupId with
  | None => mret tt
  | Some group =>
      group ← mfold (fun pid (group : VmGroup) =>
                       em ← gets entityMap_;
                       match em !! pid with
                       | None => mret group
                       | Some entity =>
                           _ ← modify (fun s => set_entityMap (delete pid (entityMap_ s)) s);
                           mret (set_g_pids (DynamicBitsetClear (g_usedBitmap group) (u16 (cpuIdx entity)) 1) (g_entityPids group) group)
                       end) (set_keys (g_entityPids group)) group;
      modify (fun s => set_groupMap (<[groupId := set_g_pids (g_usedBitmap group) ∅ group]> (groupMap_ s)) s)
  end.

Definition UnAssignPidCpu (domain : VmDomain) : M Sched unit := mfor unassign_group (set_list (d_groups domain)).

Definition Unassign (domain : VmDomain) : M Sched unit := UnAssignPidCpu domain.

(** * Domains *)

Fixpoint ReSched (domains : list VmDomain) : M Sched Z :=
  match domains with
  | [] => mret VAS_OK
  | domain :: domains' =>
      '(ret, domain) ← Alloc domain;
      if isVasRetFail ret then mret ret
      else
        '(ret, domain) ← Assign domain;
        let domain := set_isReScheded (isVasRetOk ret) domain in
        _ ← modify (fun s => set_domainMap (<[domain_key (d_uuid domain) (d_numaId domain) := domain]> (domainMap_ s)) s);
        ReSched domains'
  end.

Definition DeReSched (domains : list VmDomain) : M Sched Z :=
  _ ← mfor (fun domain =>
              _ ← Unassign domain;
              domain ← Free (set_isReScheded false domain);
              modify (fun s => set_domainMap (delete (domain_key (d_uuid domain) (d_numaId domain)) (domainMap_ s)) s)) domains;
  mret VAS_OK.

(** [for (auto &[key, domain] : domainMap_)]: the keys in the order of the
    hash map, each domain stored back after the turn. *)
Definition for_domains (body : VmDomain -> M Sched VmDomain) : M Sched unit :=
  a ← ask;
  dm ← gets domainMap_;
  mfor (fun key =>
          dm ← gets domainMap_;
          match dm !! key with
          | None => mret tt
          | Some domain => domain ← body domain; modify (fun s => set_domainMap (<[key := domain]> (domainMap_ s)) s)
          end) (h_order a (map_to_list dm).*1).

Definition GetDomainsByUuid (uuid : string) : M Sched (list VmDomain) :=
  a ← ask;
  dm ← gets domainMap_;
  mret (filter (fun d => d_uuid d = uuid) (omap (fun key => dm !! key) (h_order a (map_to_list dm).*1))).

Definition ReSchedStartedVmsWithoutLock : M Sched unit :=
  for_domains (fun domain =>
    '(ret, domain) ← Alloc domain;
    if isVasRetFail ret then mret domain
    else
      '(ret, domain) ← Assign domain;
      mret (set_isReScheded (isVasRetOk ret) domain)).

Definition RestoreVmInfoWithoutLock (s : Sched) : Sched :=
  let s1 := map_clusters (fun c cl => set_clusterLayers [fresh_layer (topology_of c)] cl) s in
  mkSched (numaClusterMap_ s1)
    ((fun d => set_isReScheded false (set_d_entityPids ∅ (set_d_groups ∅ d))) <$> domainMap_ s1)
    ∅ ∅ (compactionCount_ s1)
    (foldl (fun m n => <[n := 1]> m) (overProvision_ s1) (map_keys (numaClusterMap_ s1))) (host_tick s1) (cgroup_writes s1).

Definition RecoverVmVcpu_ (vmInfoMap : list VmInfo) : M Sched unit :=
  mfor (fun vmInfo =>
          '(ret, vmPathPre) ← GetVmCgroupPath (i_uuid vmInfo);
          if isVasRetFail ret then mret tt
          else
            mfor (fun '(vcpuId, vcpuInfo) =>
                    _ ← SetVmCpuset vmPathPre VCPU_CPUSET (v_cpuMaps vcpuInfo) vcpuId;
                    _ ← SetVmCpuset vmPathPre VCPU_PREFERRED_CPU (replicate (Z.to_nat (MAX_CPU_NUM T)) false) vcpuId;
                    mret tt) (vcpuMap vmInfo)) vmInfoMap.

(** * Choosing a NUMA node *)

Definition GetNumaCpuCount (numaId : Z) (s : Sched) : Z :=
  match numaClusterMap_ s !! numaId with
  | None => 0
  | Some cs =>
      foldl (fun ret c => match cs !! c with
                          | Some cl => match clusterLayers cl with [] => ret | l0 :: _ => u16 (ret + l_total l0) end
                          | None => ret
                          end) 0 (map_keys cs)
  end.

(** A missing entry reads 0. *)
Definition used_at (layerId numaId : Z) (m : NumaUsedCpuMap) : Z := default 0 (m !! (layerId, numaId)).

Definition accumulateUsedCpu (numaId layerId : Z) (cs : gmap Z Cluster) (ret : NumaUsedCpuMap) : NumaUsedCpuMap :=
  foldl (fun ret c => match cs !! c with
                      | Some cl => match clusterLayers cl !! Z.to_nat layerId with
                                   | Some l => <[(layerId, numaId) := u16 (used_at layerId numaId ret + (l_total l - l_idle l))]> ret
                                   | None => ret
                                   end
                      | None => ret
                      end) ret (map_keys cs).

Definition GetNumaUsedCpuMap (s : Sched) : NumaUsedCpuMap :=
  foldl (fun ret numaId =>
           foldl (fun ret layerId => accumulateUsedCpu numaId layerId (default ∅ (numaClusterMap_ s !! numaId)) ret)
             ret (seqZ 0 (GetOverProvision numaId s)))
    ∅ (map_keys (numaClusterMap_ s)).

(** The code, and the node when one is selected. *)
Definition SelectMinLayer (availableNumas : gset Z) (s : Sched) (selectNumaId : Z) : Z * Z :=
  let '(minOverProvision, selectNumaId) :=
    foldl (fun '(m, sel) numaId => if GetOverProvision numaId s <? m then (GetOverProvision numaId s, numaId) else (m, sel))
      (maxOverProvision, selectNumaId) (set_keys availableNumas) in
  (if minOverProvision =? maxOverProvision then VAS_ERROR else VAS_OK, selectNumaId).

(** The nodes of all the vCPUs; the set starts over when it is empty. *)
Definition available_numas (s : Sched) (vmInfo : VmInfo) : gset Z :=
  foldl (fun avail '(_, vcpuInfo) => if bool_decide (avail = ∅) then v_numaSet vcpuInfo else avail ∩ v_numaSet vcpuInfo)
    (dom (numaClusterMap_ s)) (vcpuMap vmInfo).

(** One turn of the selection: node, layer and used CPUs selected so far. *)
Definition select_step (s : Sched) (numaUsedCpuMap : NumaUsedCpuMap) (nVcpu numaId : Z) (sel : Z * Z * Z) (layerId : Z) : Z * Z * Z :=
  let '(selectNumaId, selectLayerId, selectUsed) := sel in
  let used := used_at layerId numaId numaUsedCpuMap in
  if (selectUsed <? used) && (layerId <=? selectLayerId) && (used + nVcpu <=? GetNumaCpuCount numaId s)
  then (numaId, layerId, i16 used) else sel.

(** The code, the updated table and the node. *)
Definition SelectVmNuma (vmInfo : VmInfo) (numaUsedCpuMap : NumaUsedCpuMap) (s : Sched) : Z * NumaUsedCpuMap * Z :=
  let availableNumas := available_numas s vmInfo in
  if bool_decide (availableNumas = ∅) then (VAS_ERROR, numaUsedCpuMap, 0)
  else
    let nVcpu := Z.of_nat (length (vcpuMap vmInfo)) in
    let '(selectNumaId, selectLayerId, selectUsed) :=
      foldl (fun sel numaId => foldl (select_step s numaUsedCpuMap nVcpu numaId) sel (seqZ 0 (GetOverProvision numaId s)))
        (0, maxOverProvision, -1) (set_keys availableNumas) in
    if negb (selectUsed =? -1)
    then (VAS_OK, <[(selectLayerId, selectNumaId) := u16 (used_at selectLayerId selectNumaId numaUsedCpuMap + nVcpu)]> numaUsedCpuMap,
          selectNumaId)
    else let '(ret, n) := SelectMinLayer availableNumas s selectNumaId in (if isVasRetOk ret then VAS_OK else VAS_ERROR, numaUsedCpuMap, n).

(** * Recording VMs *)

(** The code, the updated table and the domain. *)
Definition UpdateDomainInfoWithoutLock (vmInfo : VmInfo) (numaUsedCpuMap : NumaUsedCpuMap) : M Sched (Z * NumaUsedCpuMap * VmDomain) :=
  '(ret, numaUsedCpuMap, numaId) ← gets (SelectVmNuma vmInfo numaUsedCpuMap);
  if isVasRetFail ret then mret (VAS_WARN, numaUsedCpuMap, domain0)
  else
    let key := domain_key (i_uuid vmInfo) numaId in
    dm ← gets domainMap_;
    match dm !! key with
    | Some d => mret (VAS_OK, numaUsedCpuMap, d)
    | None =>
        let pids := foldl (fun m '(vcpu, info) => <[v_pid info := vcpu]> m) ∅ (vcpuMap vmInfo) in
        let cpus := foldl (fun m '(vcpu, info) => <[vcpu := v_cpuMaps info]> m) ∅ (vcpuMap vmInfo) in
        common ← lift_opt (GetCommonCpuMap cpus);
        let d := mkDomain (i_uuid vmInfo) (i_name vmInfo) numaId (i_tgid vmInfo) pids common ∅ ∅ false in
        _ ← modify (fun s => set_domainMap (<[key := d]> (domainMap_ s)) s);
        mret (VAS_OK, numaUsedCpuMap, d)
    end.

Definition UpdateDomainInfosWithoutLock (vmInfoMap : list VmInfo) : M Sched unit :=
  numaUsedCpuMap ← gets GetNumaUsedCpuMap;
  _ ← mfold (fun vmInfo m => '(_, m, _) ← UpdateDomainInfoWithoutLock vmInfo m; mret m) vmInfoMap numaUsedCpuMap;
  mret tt.

(** * Cleaning *)

(** The threads of a group that the domain no longer has. *)
Definition clean_pids (domain : VmDomain) (group : VmGroup) : M Sched VmGroup :=
  mfold (fun pid (group : VmGroup) =>
           match pidVcpuMap domain !! pid with
           | Some _ => mret group
           | None =>
               em ← gets entityMap_;
               match em !! pid with
               | None => mret group
               | Some entity =>
                   _ ← modify (fun s => set_entityMap (delete pid (entityMap_ s)) s);
                   mret (set_g_pids (DynamicBitsetClear (g_usedBitmap group) (u16 (cpuIdx entity)) 1)
                           (g_entityPids group ∖ {[ pid ]}) group)
               end
           end) (set_keys (g_entityPids group)) group.

(** One turn of the range-for over [domain.groups].  The element that the
    iterator points to is erased when the group is filed under its own id,
    and the iterator is then advanced. *)
Definition clean_group (groupId : string) (domain : VmDomain) : M Sched VmDomain :=
  if bool_decide (groupId ∉ d_groups domain) then mret domain
  else
    gm ← gets groupMap_;
    match gm !! groupId with
    | None => mret domain
    | Some group =>
        cl ← gets (cluster_of (d_numaId domain) (g_clusterId group));
        match cl with
        | None => mret domain
        | Some _ =>
            group ← clean_pids domain group;
            _ ← modify (fun s => set_groupMap (<[groupId := group]> (groupMap_ s)) s);
            if bool_decide (g_entityPids group = ∅) then
              layer ← gets (layer_of (d_numaId domain) (g_clusterId group) (g_layerId group));
              _ ← (match layer with
                   | Some _ => modify (upd_layer (d_numaId domain) (g_clusterId group) (g_layerId group) (DelGroupFromClusterLayer group))
                   | None => mret tt
                   end);
              let domain := DelGroupFromDomain group domain in
              if bool_decide (groupId ∉ d_groups domain) then undefined else mret domain
            else mret domain
        end
    end.

Definition CleanDyingPidByGroup (domain : VmDomain) : M Sched VmDomain :=
  mfold clean_group (set_list (d_groups domain)) domain.

Definition CleanDyingPid : M Sched Z :=
  a ← ask;
  dm ← gets domainMap_;
  _ ← mfor (fun key =>
              dm ← gets domainMap_;
              match dm !! key with
              | None => mret tt
              | Some domain =>
                  domain ← CleanDyingPidByGroup domain;
                  if bool_decide (d_uuid domain ∉ h_uuid2Pid a) && bool_decide (d_groups domain = ∅) && bool_decide (d_entityPids domain = ∅)
                  then modify (fun s => set_domainMap (delete key (domainMap_ s)) s)
                  else modify (fun s => set_domainMap (<[key := domain]> (domainMap_ s)) s)
              end) (h_order a (map_to_list dm).*1);
  mret VAS_OK.

(** * Compaction *)

(** The threads of the group one by one, with the former index of those already moved. *)
Fixpoint migrate_pids (group : VmGroup) (newStart : Z) (cluster : Cluster) (pids : list Z) (cpuIdxBackup : list (Z * Z)) : M Sched Z :=
  match pids with
  | [] => mret VAS_OK
  | pid :: pids' =>
      em ← gets entityMap_;
      match em !! pid with
      | None => mret VAS_ERROR
      | Some entity =>
          let oldCpuIdx := cpuIdx entity in
          let idx := newStart + (cpuIdx entity - g_start group) in
          _ ← modify (fun s => set_entityMap (<[pid := mkEntity (e_pid entity) idx]> (entityMap_ s)) s);
          dm ← gets domainMap_;
          let domain := default domain0 (dm !! g_domainKey group) in
          '(ret, domain) ← SetVcpuAffinity domain pid (u16 (GetStartCpu cluster + idx)) (c_id cluster);
          _ ← modify (fun s => set_domainMap (<[g_domainKey group := domain]> (domainMap_ s)) s);
          if isVasRetFail ret then
            _ ← modify (fun s => set_entityMap (<[pid := mkEntity (e_pid entity) oldCpuIdx]> (entityMap_ s)) s);
            _ ← mfor (fun '(vcpuPid, idx) =>
                        modify (fun s => set_entityMap (<[vcpuPid := mkEntity (e_pid (default entity0 (entityMap_ s !! vcpuPid))) idx]> (entityMap_ s)) s))
                  cpuIdxBackup;
            mret ret
          else migrate_pids group newStart cluster pids' (cpuIdxBackup ++ [(pid, oldCpuIdx)])
      end
  end.

Definition GroupEntityMigrate (group : VmGroup) (newStart : Z) (cluster : Cluster) (layerId : Z) : M Sched (Z * VmGroup) :=
  ret ← migrate_pids group newStart cluster (set_keys (g_entityPids group)) [];
  if isVasRetFail ret then mret (ret, group)
  else
    mret (VAS_OK, mkGroup (g_domainKey group) (group_key (g_domainKey group) (c_id cluster) layerId) (c_id cluster) layerId newStart
                    (g_nrCpus group) (GenDynamicBitSetByArea (CLUSTER_CPU_NUM T) (u16 newStart) (u16 (g_nrCpus group))) (g_entityPids group)).

(** Moving the group [oldGroupId], a copy of which is [group], from the layer
    [(n0, c0, l0)] to [start] in the layer [(n, c, l)]: the common part of the
    two compaction loops. *)
Definition move_group (oldGroupId : string) (group : VmGroup) (start : Z) (n0 c0 l0 n c l : Z) (cluster : Cluster) : M Sched unit :=
  _ ← modify (upd_layer n0 c0 l0 (DelGroupFromClusterLayer group));
  '(ret, group) ← GroupEntityMigrate group start cluster l;
  if isVasRetFail ret then modify (upd_layer n0 c0 l0 (AddGroupToClusterLayer group))
  else
    _ ← modify (fun s => set_groupMap (<[g_id group := group]> (delete oldGroupId (groupMap_ s))) s);
    _ ← modify (fun s =>
          let d := default domain0 (domainMap_ s !! g_domainKey group) in
          set_domainMap (<[g_domainKey group := set_d_groups ({[ g_id group ]} ∪ (d_groups d ∖ {[ oldGroupId ]})) d]> (domainMap_ s)) s);
    modify (upd_layer n c l (AddGroupToClusterLayer group)).

(** One group of a layer: skipped when it or its domain is unknown or when the
    target has no room for it. *)
Definition compact_group (strict : bool) (n0 c0 l0 n c l : Z) (oldGroupId : string) : M Sched unit :=
  gm ← gets groupMap_;
  dm ← gets domainMap_;
  match gm !! oldGroupId with
  | None => mret tt
  | Some group =>
      match dm !! g_domainKey group with
      | None => mret tt
      | Some domain =>
          cluster ← (gets (cluster_of n c) ≫= lift_opt);
          clusterLayer ← (gets (layer_of n c l) ≫= lift_opt);
          let availableCpuMap := DynamicBitsetOr (unavailable domain cluster) (l_usedBitmap clusterLayer) in
          let start := FindFirstIdlePos availableCpuMap 0 (u16 (g_nrCpus group)) in
          if isIntInvalid start || (strict && (g_start group <? start)) then mret tt
          else move_group oldGroupId group start n0 c0 l0 n c l cluster
      end
  end.

(** From the cluster [next] of the node to the cluster [c], in one layer. *)
Definition CompactionGroupWithinCluster (n c next layerId : Z) : M Sched unit :=
  layer ← gets (layer_of n c layerId);
  nextLayer ← gets (layer_of n next layerId);
  match layer, nextLayer with
  | Some _, Some nl => mfor (compact_group false n next layerId n c layerId) (set_list (l_groups nl))
  | _, _ => mret tt
  end.

(** From the last layer of every cluster of the node to a layer of [c]. *)
Definition CompactionGroupFromLastLayer (n c layerId : Z) : M Sched unit :=
  cluster ← (gets (cluster_of n c) ≫= lift_opt);
  op ← gets (GetOverProvision (c_numaId cluster));
  if (op =? 0) || (Z.of_nat (length (clusterLayers cluster)) <=? layerId) then mret tt
  else
    let lastLayerId := op - 1 in
    lastClusters ← numa_at (c_numaId cluster);
    emptyNum ← mfold (fun lastClusterId emptyNum =>
        lastLayer ← gets (layer_of (c_numaId cluster) lastClusterId lastLayerId);
        match lastLayer with
        | None => mret emptyNum
        | Some ll =>
            if l_total ll =? l_idle ll then mret (u16 (emptyNum + 1))
            else
              _ ← mfor (compact_group true (c_numaId cluster) lastClusterId lastLayerId n c layerId) (set_list (l_groups ll));
              ll ← (gets (layer_of (c_numaId cluster) lastClusterId lastLayerId) ≫= lift_opt);
              mret (if l_total ll =? l_idle ll then u16 (emptyNum + 1) else emptyNum)
        end) (map_keys lastClusters) 0;
    if emptyNum =? Z.of_nat (size lastClusters) then modify (OverProvisionDown (c_numaId cluster)) else mret tt.

(** The clusters of the node in order, each with its successor. *)
Fixpoint CompactionClusterOneLayer (n : Z) (cs : list Z) (layerId : Z) : M Sched unit :=
  match cs with
  | [] => mret tt
  | c :: cs' =>
      cluster ← (gets (cluster_of n c) ≫= lift_opt);
      layer ← gets (layer_of n c layerId);
      _ ← (match layer with
           | None => mret tt
           | Some cl =>
               if l_idle cl =? 0 then mret tt
               else
                 _ ← (match cs' with
                      | next :: _ => if negb (l_idle cl =? l_total cl) then CompactionGroupWithinCluster n c next layerId else mret tt
                      | [] => mret tt
                      end);
                 op ← gets (GetOverProvision (c_numaId cluster));
                 if (op =? 0) || negb (layerId =? op - 1) then CompactionGroupFromLastLayer n c layerId else mret tt
           end);
      CompactionClusterOneLayer n cs' layerId
  end.

Fixpoint compact_layers (fuel : nat) (numaId layerId : Z) : M Sched unit :=
  match fuel with
  | O => undefined
  | Datatypes.S fuel =>
      op ← gets (GetOverProvision numaId);
      if op <=? layerId then mret tt
      else
        cs ← gets (fun s => default ∅ (numaClusterMap_ s !! numaId));
        _ ← CompactionClusterOneLayer numaId (map_keys cs) layerId;
        compact_layers fuel numaId (layerId + 1)
  end.

Definition CompactionCluster (numaId : Z) : M Sched unit := compact_layers LAYER_FUEL numaId 0.

Definition ClusterCompactionWithoutLock : M Sched unit :=
  _ ← CleanDyingPid;
  m ← gets numaClusterMap_;
  _ ← mfor CompactionCluster (map_keys m);
  modify (fun s => set_compactionCount (u16 (compactionCount_ s + 1)) s).

(** * The public functions *)

Definition InitClusterInfo (s : Sched) : Z * Sched :=
  if (CLUSTER_CPU_NUM T =? 0) || (MAX_CPU_NUM T =? 0) then (VAS_ERROR, s)
  else
    let m := foldl (fun m c => match cpuTopologyMap T !! c with
                               | Some info =>
                                   <[ci_numaId info :=
                                       <[ci_id info := mkCluster (ci_id info) (ci_numaId info) (ci_cpuSet info) [fresh_layer info]]>
                                         (default ∅ (m !! ci_numaId info))]> m
                               | None => m
                               end) (numaClusterMap_ s) (map_keys (cpuTopologyMap T)) in
    (VAS_OK, set_overProvision (foldl (fun o n => match o !! n with Some _ => o | None => <[n := 1]> o end) (overProvision_ s) (map_keys m))
       (set_numaClusterMap m s)).

(** [vmInfos] is what [GetVmInfoList] collects, or the code of its failure. *)
Definition UpdateDomainInfosAndSched (vmInfos : Z + list VmInfo) : M Sched Z :=
  match vmInfos with
  | inl ret => mret ret
  | inr vmInfoMap =>
      _ ← UpdateDomainInfosWithoutLock vmInfoMap;
      _ ← for_domains (fun domain =>
            if isReScheded domain then mret domain
            else
              domain ← Free domain;
              '(ret, domain) ← Alloc domain;
              if isVasRetFail ret then mret domain
              else
                '(ret, domain) ← Assign domain;
                if isVasRetFail ret then mret domain else mret (set_isReScheded true domain));
      mret VAS_OK
  end.

Definition AddDomainInfo (vmInfo : VmInfo) : M Sched unit :=
  numaUsedCpuMap ← gets GetNumaUsedCpuMap;
  '(ret, _, vmDomain) ← UpdateDomainInfoWithoutLock vmInfo numaUsedCpuMap;
  if isVasRetFail ret then mret tt else _ ← ReSched [vmDomain]; mret tt.

Definition DelDomainInfo (uuid : string) : M Sched unit :=
  domains ← GetDomainsByUuid uuid;
  _ ← DeReSched domains;
  ClusterCompactionWithoutLock.

Definition ClusterCompaction : M Sched unit := ClusterCompactionWithoutLock.

(** [value != "all" && value != domain.name && value != domain.uuid] *)
Definition out_of_scope (value : string) (domain : VmDomain) : bool :=
  negb (bool_decide (value = "all")) && negb (bool_decide (value = d_name domain)) && negb (bool_decide (value = d_uuid domain)).

(** One domain of [ReSchedVm], with [isExist] and the code so far. *)
Definition resched_domain (value key : string) (acc : bool * Z) : M Sched (bool * Z) :=
  let '(isExist, ret) := acc in
  dm ← gets domainMap_;
  match dm !! key with
  | None => mret (isExist, ret)
  | Some domain =>
      if out_of_scope value domain then mret (isExist, ret)
      else
        _ ← Unassign domain;
        domain ← Free (set_isReScheded false domain);
        '(tmpRet, domain) ← Alloc domain;
        if isVasRetFail tmpRet then
          _ ← modify (fun s => set_domainMap (<[key := domain]> (domainMap_ s)) s);
          mret (true, VAS_ERROR)
        else
          '(tmpRet, domain) ← Assign domain;
          let domain := set_d_entityPids ∅ (set_isReScheded (isVasRetOk tmpRet) domain) in
          _ ← modify (fun s => set_domainMap (<[key := domain]> (domainMap_ s)) s);
          mret (true, if isVasRetFail tmpRet then VAS_ERROR else ret)
  end.

Definition ReSchedVm (value : string) : M Sched Z :=
  a ← ask;
  dm ← gets domainMap_;
  '(isExist, ret) ← mfold (resched_domain value) (h_order a (map_to_list dm).*1) (false, VAS_OK);
  if negb isExist then mret VAS_ERROR_INVAL
  else _ ← ClusterCompactionWithoutLock; mret ret.

Definition ReSchedStartedVms (vmInfos : Z + list VmInfo) : M Sched unit :=
  match vmInfos with
  | inl _ => mret tt
  | inr vmInfoMap => _ ← UpdateDomainInfosWithoutLock vmInfoMap; ReSchedStartedVmsWithoutLock
  end.

(** [vmInfoMap] is the cache of the acquisition. *)
Definition ReSetSchedPolicy (vmInfoMap : list VmInfo) : M Sched unit :=
  _ ← RecoverVmVcpu_ vmInfoMap;
  _ ← modify RestoreVmInfoWithoutLock;
  ReSchedStartedVmsWithoutLock.

Definition RecoverVmVcpu (vmInfoMap : list VmInfo) : M Sched unit := RecoverVmVcpu_ vmInfoMap.

(** * Queries *)

(** The threads of one group of the domain. *)
Definition group_affinity (group : VmGroup) (acc : VmDomain * gmap Z VcpuAffinityInfo)
  : M Sched (VmDomain * gmap Z VcpuAffinityInfo) :=
  mfold (fun pid '(domain, m) =>
           let '(vcpuId, domain) := vcpu_at pid domain in
           em ← gets entityMap_;
           idx ← (match em !! pid with
                  | Some e => cl ← cluster_at (d_numaId domain) (g_clusterId group); mret (GetStartCpu cl + cpuIdx e)
                  | None => mret (-1)
                  end);
           mret (domain, <[vcpuId := mkVcpuAffinity vcpuId pid idx]> m)) (set_keys (g_entityPids group)) acc.

Definition GetVcpuAffinityInfoMap (domain : VmDomain) (groups : list VmGroup) : M Sched (VmDomain * gmap Z VcpuAffinityInfo) :=
  mfold group_affinity groups (domain, ∅).

Definition GetAffinityInfo (value : string) : M Sched (gmap string VmAffinity) :=
  a ← ask;
  dm ← gets domainMap_;
  mfold (fun key ret =>
           dm ← gets domainMap_;
           match dm !! key with
           | None => mret ret
           | Some domain =>
               if out_of_scope value domain then mret ret
               else
                 let affinity := default (mkAffinity "" "" 0 ∅) (ret !! d_uuid domain) in
                 groups ← mfold (fun groupId gs => g ← group_at groupId; mret (gs ++ [g])) (set_list (d_groups domain)) [];
                 '(domain, m) ← GetVcpuAffinityInfoMap domain groups;
                 _ ← modify (fun s => set_domainMap (<[key := domain]> (domainMap_ s)) s);
                 mret (<[d_uuid domain := mkAffinity (d_uuid domain) (d_name domain) (d_tgid domain)
                          (<[d_numaId domain := mkDomainAffinity (d_numaId domain) groups m]> (domainAffinityMap affinity))]> ret)
           end) (h_order a (map_to_list dm).*1) ∅.

Definition GetDomainCpuMask (domains : list VmDomain) : M Sched DynamicBitset :=
  mfold (fun domain cpuMask =>
           mfold (fun groupId cpuMask =>
                    group ← group_at groupId;
                    cl ← gets (cluster_of (d_numaId domain) (g_clusterId group));
                    match cl with
                    | None => mret cpuMask
                    | Some cluster =>
                        mret (DynamicBitsetOr cpuMask
                                (GenDynamicBitSetByArea (MAX_CPU_NUM T) (u16 (GetStartCpu cluster + g_start group)) (u16 (g_nrCpus group))))
                    end) (set_list (d_groups domain)) cpuMask) domains (replicate (Z.to_nat (MAX_CPU_NUM T)) false).
End ClusterSched.
