(* ===== verification/ClusterSchedFacts.v ===== *)
(** Facts on the state of the cluster scheduler: the keys of domains and
    groups, reading and writing layers, and the invariant [wf].

    [wf] says that every node has an over-provision degree between 1 and 6,
    that every cluster has one layer plus one for each extra degree of any node
    (the layers are added to and removed from all the nodes at once), that a
    group id filed in a layer names a group of exactly that layer, that a
    domain is filed under its own key and holds ids of its own groups, and that
    the layers have the sizes of the topology. *)

From S2P Require Import Prelude VasLib DynamicBitset ClusterVm ClusterSched.

(** * Keys *)

Lemma domain_key_inj u1 n1 u2 n2 : domain_key u1 n1 = domain_key u2 n2 -> u1 = u2 ∧ n1 = n2.
Proof.
  intros E. apply underscore_inj in E as [-> E]; [|apply no_underscore_pretty..]. by apply (inj pretty) in E.
Qed.

Lemma group_key_inj k1 c1 l1 k2 c2 l2 : group_key k1 c1 l1 = group_key k2 c2 l2 -> k1 = k2 ∧ c1 = c2 ∧ l1 = l2.
Proof.
  unfold group_key. intros E.
  assert (Hre : forall k c l, k +:+ "_" +:+ pretty (c : Z) +:+ "_" +:+ pretty (l : Z) = (k +:+ "_" +:+ pretty c) +:+ "_" +:+ pretty l).
  { intros k c l. by rewrite !app_string_assoc. }
  rewrite !Hre in E. apply underscore_inj in E as [E El]; [|apply no_underscore_pretty..].
  apply underscore_inj in E as [-> Ec]; [|apply no_underscore_pretty..].
  apply (inj pretty) in Ec as ->. by apply (inj pretty) in El as ->.
Qed.

(** A group id is never empty. *)
Lemma group_key_nonempty k c l : group_key k c l <> "".
Proof. unfold group_key. by destruct k. Qed.

(** * Reading and writing layers *)

Lemma cluster_of_upd n c f s n' c' :
  cluster_of n' c' (upd_cluster n c f s) = if bool_decide (n = n' ∧ c = c') then f <$> cluster_of n c s else cluster_of n' c' s.
Proof.
  unfold cluster_of, upd_cluster. cbn [numaClusterMap_ set_numaClusterMap].
  destruct (decide (n = n')) as [<-|Hn].
  - rewrite lookup_alter_eq. destruct (numaClusterMap_ s !! n) as [cs|]; cbn; [|by case_bool_decide].
    destruct (decide (c = c')) as [<-|Hc].
    + rewrite lookup_alter_eq. by rewrite bool_decide_eq_true_2.
    + rewrite lookup_alter_ne by done. rewrite bool_decide_eq_false_2; [done|]. by intros [_ ?].
  - rewrite lookup_alter_ne by done. rewrite bool_decide_eq_false_2; [done|]. by intros [? _].
Qed.

Lemma layer_of_upd n c l f s n' c' l' :
  0 <= l -> layer_of n' c' l' (upd_layer n c l f s) =
  if bool_decide (n = n' ∧ c = c' ∧ l = l') then f <$> layer_of n c l s else layer_of n' c' l' s.
Proof.
  intros Hl. unfold layer_of, upd_layer. rewrite cluster_of_upd. case_bool_decide as Hnc.
  - destruct Hnc as [<- <-]. destruct (cluster_of n c s) as [cl|]; cbn; [|by case_bool_decide].
    destruct (Z.leb_spec 0 l'), (Z.leb_spec 0 l); try lia; [|rewrite bool_decide_eq_false_2; [done|lia]].
    destruct (decide (l = l')) as [<-|Hne].
    + rewrite list_lookup_alter_eq. by rewrite bool_decide_eq_true_2.
    + rewrite list_lookup_alter_ne by lia. rewrite bool_decide_eq_false_2; [done|]. by intros (_ & _ & ?).
  - rewrite (bool_decide_eq_false_2 (n = n' ∧ c = c' ∧ l = l')); [done|]. intros (-> & -> & _). by apply Hnc.
Qed.

Lemma layer_of_same n c l f s : 0 <= l -> layer_of n c l (upd_layer n c l f s) = f <$> layer_of n c l s.
Proof. intros Hl. rewrite layer_of_upd by done. by rewrite bool_decide_eq_true_2. Qed.

Lemma layer_of_other n c l f s n' c' l' :
  0 <= l -> (n, c, l) <> (n', c', l') -> layer_of n' c' l' (upd_layer n c l f s) = layer_of n' c' l' s.
Proof. intros Hl Hne. rewrite layer_of_upd by done. rewrite bool_decide_eq_false_2; [done|]. naive_solver. Qed.

(** Writing a layer keeps what the cluster is and how many layers it has. *)
Lemma cluster_of_upd_layer n c l f s n' c' cl :
  cluster_of n' c' (upd_layer n c l f s) = Some cl ->
  exists cl0, cluster_of n' c' s = Some cl0 ∧ c_id cl = c_id cl0 ∧ c_numaId cl = c_numaId cl0 ∧ c_cpuSet cl = c_cpuSet cl0 ∧
    length (clusterLayers cl) = length (clusterLayers cl0).
Proof.
  unfold upd_layer. rewrite cluster_of_upd. case_bool_decide as Hnc.
  - destruct Hnc as [<- <-]. destruct (cluster_of n c s) as [cl0|]; [|done]. intros [= <-]. exists cl0. cbn.
    by rewrite length_alter.
  - intros E. by exists cl.
Qed.

Lemma cluster_of_upd_layer_Some n c l f s n' c' cl :
  cluster_of n' c' s = Some cl ->
  exists cl', cluster_of n' c' (upd_layer n c l f s) = Some cl' ∧ c_id cl' = c_id cl ∧ c_numaId cl' = c_numaId cl ∧
    c_cpuSet cl' = c_cpuSet cl ∧ length (clusterLayers cl') = length (clusterLayers cl).
Proof.
  intros E. unfold upd_layer. rewrite cluster_of_upd. case_bool_decide as Hnc.
  - destruct Hnc as [<- <-]. rewrite E. eexists. split; [reflexivity|]. cbn. by rewrite length_alter.
  - by exists cl.
Qed.

Lemma dom_upd_layer n c l f s : dom (numaClusterMap_ (upd_layer n c l f s)) = dom (numaClusterMap_ s).
Proof. cbn. by rewrite dom_alter_L. Qed.

Lemma map_keys_upd_layer n c l f s n' :
  map_keys (default ∅ (numaClusterMap_ (upd_layer n c l f s) !! n')) = map_keys (default ∅ (numaClusterMap_ s !! n')).
Proof.
  cbn. destruct (decide (n = n')) as [<-|]; [|by rewrite lookup_alter_ne].
  rewrite lookup_alter_eq. destruct (numaClusterMap_ s !! n); [|done]. cbn. apply map_keys_dom. by rewrite dom_alter_L.
Qed.

Lemma cluster_of_map_clusters f s n c : cluster_of n c (map_clusters f s) = f c <$> cluster_of n c s.
Proof.
  unfold cluster_of, map_clusters. cbn [numaClusterMap_ set_numaClusterMap]. rewrite lookup_fmap.
  destruct (numaClusterMap_ s !! n) as [cs|]; [|done]. cbn. rewrite map_lookup_imap. by destruct (cs !! c).
Qed.

Lemma dom_map_clusters f s : dom (numaClusterMap_ (map_clusters f s)) = dom (numaClusterMap_ s).
Proof. cbn. by rewrite dom_fmap_L. Qed.

Lemma layer_of_cluster n c l s ly : layer_of n c l s = Some ly -> exists cl, cluster_of n c s = Some cl ∧ 0 <= l < Z.of_nat (length (clusterLayers cl)).
Proof.
  unfold layer_of. destruct (cluster_of n c s) as [cl|]; [|done]. cbn. destruct (Z.leb_spec 0 l); [|done].
  intros E%lookup_lt_Some. exists cl. split; [done|]. lia.
Qed.

Lemma layer_of_Some n c l s cl :
  cluster_of n c s = Some cl -> 0 <= l < Z.of_nat (length (clusterLayers cl)) -> is_Some (layer_of n c l s).
Proof.
  intros E Hl. unfold layer_of. rewrite E. cbn. rewrite (proj2 (Z.leb_le 0 l)) by lia. apply lookup_lt_is_Some_2. lia.
Qed.

(** * The number of layers *)

Definition extra_layers (o : gmap Z Z) : Z := map_fold (fun _ op acc => acc + (op - 1)) 0 o.

Lemma extra_layers_delete o n op : o !! n = Some op -> extra_layers o = extra_layers (delete n o) + (op - 1).
Proof. intros E. unfold extra_layers. apply (map_fold_delete_L (fun _ op acc => acc + (op - 1))); [intros; lia|done]. Qed.

Lemma extra_layers_insert o n op op' : o !! n = Some op -> extra_layers (<[n := op']> o) = extra_layers o - op + op'.
Proof.
  intros E. rewrite (extra_layers_delete _ n op') by apply lookup_insert_eq. rewrite (extra_layers_delete o n op E).
  rewrite delete_insert_eq. lia.
Qed.

(** A degree does not exceed the number of layers when no degree is below one. *)
Lemma extra_layers_nonneg o : (forall n op, o !! n = Some op -> 1 <= op) -> 0 <= extra_layers o.
Proof.
  unfold extra_layers. induction o as [|n op o Ho IH] using map_ind; intros Hop; [by rewrite map_fold_empty|].
  rewrite (map_fold_insert_L _ _ n op o); [|intros; lia|done].
  assert (1 <= op) by (apply (Hop n); by rewrite lookup_insert_eq).
  assert (0 <= map_fold (fun _ op acc => acc + (op - 1)) 0 o); [|lia]. apply IH. intros n' op' E'. apply (Hop n').
  rewrite lookup_insert_ne; [done|congruence].
Qed.

Lemma extra_layers_ge o n op : (forall n op, o !! n = Some op -> 1 <= op) -> o !! n = Some op -> op - 1 <= extra_layers o.
Proof.
  intros Hop E. rewrite (extra_layers_delete o n op E).
  assert (0 <= extra_layers (delete n o)); [|lia]. apply extra_layers_nonneg. intros n' op' E'.
  apply (Hop n'). by apply lookup_delete_Some in E' as [_ E'].
Qed.

(** * The invariant *)

(** [gid] is the id of [g], a group of a VM [u] in the layer [l] of the cluster [c] of the node [n]. *)
Definition filed_as (gid : string) (g : VmGroup) (u : string) (n c l : Z) : Prop :=
  gid = group_key (domain_key u n) c l ∧ g_id g = gid ∧ g_domainKey g = domain_key u n ∧ g_clusterId g = c ∧ g_layerId g = l.

(** The ids a domain holds are ids of its own groups. *)
Definition ids_ok (d : VmDomain) : Prop :=
  forall gid, gid ∈ d_groups d -> exists c l, gid = group_key (domain_key (d_uuid d) (d_numaId d)) c l.

(** A layer has the size and the bit map of the cluster it belongs to. *)
Definition layer_fits (info : ClusterInfo) (ly : ClusterLayer) : Prop :=
  l_total ly = ci_total info ∧ bsize (l_usedBitmap ly) = bsize (ci_bitMap info) ∧ 0 <= l_idle ly < 65536.

Record wf (T : CpuHelper) (s : Sched) : Prop := {
  wf_dom : dom (overProvision_ s) = dom (numaClusterMap_ s);
  wf_op n op : overProvision_ s !! n = Some op -> 1 <= op <= maxOverProvision;
  wf_cluster n c cl : cluster_of n c s = Some cl ->
    c_id cl = c ∧ c_numaId cl = n ∧ Z.of_nat (length (clusterLayers cl)) = 1 + extra_layers (overProvision_ s);
  wf_filed n c l ly gid : layer_of n c l s = Some ly -> gid ∈ l_groups ly ->
    exists g u, groupMap_ s !! gid = Some g ∧ filed_as gid g u n c l;
  wf_domain k d : domainMap_ s !! k = Some d -> k = domain_key (d_uuid d) (d_numaId d) ∧ ids_ok d;
  wf_static n c cl : cluster_of n c s = Some cl ->
    exists info, cpuTopologyMap T !! c = Some info ∧ c_cpuSet cl = ci_cpuSet info ∧ ci_numaId info = n ∧
      Forall (layer_fits info) (clusterLayers cl);
}.

Lemma wf_op_pos T s : wf T s -> forall n op, overProvision_ s !! n = Some op -> 1 <= op.
Proof. intros Hwf n op E. apply (wf_op T s Hwf) in E. lia. Qed.

Lemma wf_op_of T s n cs : wf T s -> numaClusterMap_ s !! n = Some cs -> exists op, overProvision_ s !! n = Some op ∧ 1 <= op <= maxOverProvision.
Proof.
  intros Hwf E. assert (n ∈ dom (overProvision_ s)) as [op Eop]%elem_of_dom.
  { rewrite (wf_dom T s Hwf). apply elem_of_dom. by exists cs. }
  exists op. split; [done|]. by apply (wf_op T s Hwf n).
Qed.

Lemma wf_over_bound T s n : wf T s -> 0 <= GetOverProvision n s <= maxOverProvision.
Proof.
  intros Hwf. unfold GetOverProvision. destruct (overProvision_ s !! n) as [op|] eqn:E; cbn; [|unfold maxOverProvision; lia].
  apply (wf_op T s Hwf) in E. lia.
Qed.

(** A layer below the degree of the node exists in each of its clusters. *)
Lemma wf_layer T s n c cl l :
  wf T s -> cluster_of n c s = Some cl -> 0 <= l < GetOverProvision n s -> is_Some (layer_of n c l s).
Proof.
  intros Hwf E Hl. apply (layer_of_Some n c l s cl E). destruct (wf_cluster T s Hwf n c cl E) as (_ & _ & ->).
  unfold GetOverProvision in Hl. destruct (overProvision_ s !! n) as [op|] eqn:Eop; cbn in Hl; [|lia].
  pose proof (extra_layers_ge (overProvision_ s) n op (wf_op_pos T s Hwf) Eop). lia.
Qed.

Lemma wf_not_layerless T s : wf T s -> some_layerless s = false.
Proof.
  intros Hwf. unfold some_layerless. apply not_true_is_false. intros ([n cs] & Hin & ([c cl] & Hin2 & Hb)%existsb_exists)%existsb_exists.
  apply list_elem_of_In, elem_of_map_to_list in Hin. apply list_elem_of_In, elem_of_map_to_list in Hin2. cbn in *.
  apply bool_decide_eq_true in Hb. destruct (wf_cluster T s Hwf n c cl) as (_ & _ & Hlen).
  { unfold cluster_of. by rewrite Hin. }
  rewrite Hb in Hlen. pose proof (extra_layers_nonneg (overProvision_ s) (wf_op_pos T s Hwf)). cbn in Hlen. lia.
Qed.
