(* ===== verification/ClusterSchedInv.v ===== *)
(** Every step of the scheduler keeps the invariant [wf], and what each
    component operation leaves alone.

    The lemmas are total where the code is: an operation has an outcome from
    every state that satisfies [wf] (its loops end within their fuel, every
    layer it indexes exists), and the outcome satisfies [wf].  The cleaning of
    dead threads is the exception, and is covered partially. *)

From S2P Require Import Prelude VasLib DynamicBitset ClusterVm ClusterSched ClusterSchedFacts.

(** * Updates of the state *)

Section Updates.
Context (T : CpuHelper).

(** [wf] reads the clusters, the degrees, the groups and the domains only. *)
Lemma wf_frame s s' :
  numaClusterMap_ s' = numaClusterMap_ s -> overProvision_ s' = overProvision_ s -> groupMap_ s' = groupMap_ s ->
  domainMap_ s' = domainMap_ s -> wf T s -> wf T s'.
Proof.
  intros E1 E2 E3 E4 Hwf.
  assert (Hc : forall n c, cluster_of n c s' = cluster_of n c s) by (intros; unfold cluster_of; by rewrite E1).
  assert (Hl : forall n c l, layer_of n c l s' = layer_of n c l s) by (intros; unfold layer_of; by rewrite Hc).
  split.
  - rewrite E1, E2. apply (wf_dom T s Hwf).
  - intros n op. rewrite E2. apply (wf_op T s Hwf).
  - intros n c cl. rewrite E2, Hc. apply (wf_cluster T s Hwf).
  - intros n c l ly gid. rewrite E3, Hl. apply (wf_filed T s Hwf).
  - intros k d. rewrite E4. apply (wf_domain T s Hwf).
  - intros n c cl. rewrite Hc. apply (wf_static T s Hwf).
Qed.

Lemma wf_set_entityMap m s : wf T s -> wf T (set_entityMap m s).
Proof. by apply wf_frame. Qed.

Lemma wf_set_host t w s : wf T s -> wf T (set_host t w s).
Proof. by apply wf_frame. Qed.

(** A write that keeps the size of the layer. *)
Definition keeps_size (f : ClusterLayer -> ClusterLayer) : Prop :=
  forall ly, l_total (f ly) = l_total ly ∧ bsize (l_usedBitmap (f ly)) = bsize (l_usedBitmap ly) ∧ 0 <= l_idle (f ly) < 65536.

Lemma keeps_size_add g : keeps_size (AddGroupToClusterLayer g).
Proof. intros ly. cbn. rewrite bsize_Set. split_and!; try done; apply u16_range. Qed.

Lemma keeps_size_del g : keeps_size (DelGroupFromClusterLayer g).
Proof. intros ly. cbn. rewrite bsize_Clear. split_and!; try done; apply u16_range. Qed.

Lemma static_upd_layer n c l f s n' c' cl :
  keeps_size f -> wf T s -> cluster_of n' c' (upd_layer n c l f s) = Some cl ->
  exists info, cpuTopologyMap T !! c' = Some info ∧ c_cpuSet cl = ci_cpuSet info ∧ ci_numaId info = n' ∧ Forall (layer_fits info) (clusterLayers cl).
Proof.
  intros Hk Hwf. unfold upd_layer. rewrite cluster_of_upd. case_bool_decide as Hb; [|apply (wf_static T s Hwf)].
  destruct Hb as [<- <-]. destruct (cluster_of n c s) as [cl0|] eqn:E; [|done]. intros [= <-].
  destruct (wf_static T s Hwf n c cl0 E) as (info & H1 & H2 & H3 & H4). exists info. cbn. split_and!; try done.
  apply Forall_alter; [done|]. intros ly _ (F1 & F2 & _). destruct (Hk ly) as (K1 & K2 & K3). split_and!; try apply K3; [by rewrite K1|by rewrite K2].
Qed.

(** Writing a layer whose group ids stay filed. *)
Lemma wf_upd_layer n c l f s :
  wf T s -> 0 <= l -> keeps_size f ->
  (forall ly gid, layer_of n c l s = Some ly -> gid ∈ l_groups (f ly) -> exists g u, groupMap_ s !! gid = Some g ∧ filed_as gid g u n c l) ->
  wf T (upd_layer n c l f s).
Proof.
  intros Hwf Hl Hk Hf. split.
  - rewrite dom_upd_layer. apply (wf_dom T s Hwf).
  - apply (wf_op T s Hwf).
  - intros n' c' cl (cl0 & E & -> & -> & _ & ->)%cluster_of_upd_layer. by apply (wf_cluster T s Hwf).
  - intros n' c' l' ly gid. rewrite layer_of_upd by done. case_bool_decide as Hb; [|apply (wf_filed T s Hwf)].
    destruct Hb as (<- & <- & <-). destruct (layer_of n c l s) as [ly0|] eqn:E; [|done]. intros [= <-] Hin. by apply (Hf ly0).
  - apply (wf_domain T s Hwf).
  - intros n' c' cl E. by apply (static_upd_layer n c l f s n' c' cl Hk Hwf).
Qed.

Lemma wf_del_group n c l g s : wf T s -> 0 <= l -> wf T (upd_layer n c l (DelGroupFromClusterLayer g) s).
Proof.
  intros Hwf Hl. apply wf_upd_layer; [done..|apply keeps_size_del|]. intros ly gid E Hin. apply (wf_filed T s Hwf n c l ly gid E). set_solver.
Qed.

Lemma wf_add_group n c l g u s :
  wf T s -> 0 <= l -> groupMap_ s !! g_id g = Some g -> filed_as (g_id g) g u n c l -> wf T (upd_layer n c l (AddGroupToClusterLayer g) s).
Proof.
  intros Hwf Hl Hg Hf. apply wf_upd_layer; [done..|apply keeps_size_add|]. intros ly gid E Hin. cbn in Hin.
  apply elem_of_union in Hin as [->%elem_of_singleton|Hin]; [by exists g, u|]. by apply (wf_filed T s Hwf n c l ly gid E).
Qed.

(** Filing a group under an id that its layer, if any, agrees with. *)
Lemma wf_insert_group gid g s :
  wf T s -> (forall n c l ly, layer_of n c l s = Some ly -> gid ∈ l_groups ly -> exists u, filed_as gid g u n c l) ->
  wf T (set_groupMap (<[gid := g]> (groupMap_ s)) s).
Proof.
  intros Hwf Hg. split; [apply (wf_dom T s Hwf)|apply (wf_op T s Hwf)|apply (wf_cluster T s Hwf)| |apply (wf_domain T s Hwf)|apply (wf_static T s Hwf)].
  intros n c l ly gid' E Hin. cbn. destruct (decide (gid = gid')) as [<-|Hne].
  - destruct (Hg n c l ly E Hin) as [u Hu]. exists g, u. by rewrite lookup_insert_eq.
  - rewrite lookup_insert_ne by done. by apply (wf_filed T s Hwf n c l ly).
Qed.

Lemma wf_delete_group gid s :
  wf T s -> (forall n c l ly, layer_of n c l s = Some ly -> gid ∉ l_groups ly) -> wf T (set_groupMap (delete gid (groupMap_ s)) s).
Proof.
  intros Hwf Hg. split; [apply (wf_dom T s Hwf)|apply (wf_op T s Hwf)|apply (wf_cluster T s Hwf)| |apply (wf_domain T s Hwf)|apply (wf_static T s Hwf)].
  intros n c l ly gid' E Hin. cbn. rewrite lookup_delete_ne by (intros <-; by apply (Hg n c l ly E)).
  by apply (wf_filed T s Hwf n c l ly).
Qed.

(** The ids and the place of a group. *)
Definition same_place (g g' : VmGroup) : Prop :=
  g_domainKey g' = g_domainKey g ∧ g_id g' = g_id g ∧ g_clusterId g' = g_clusterId g ∧ g_layerId g' = g_layerId g.

Lemma wf_update_group gid g g' s :
  wf T s -> groupMap_ s !! gid = Some g -> same_place g g' -> wf T (set_groupMap (<[gid := g']> (groupMap_ s)) s).
Proof.
  intros Hwf E (H1 & H2 & H3 & H4). apply wf_insert_group; [done|]. intros n c l ly El Hin.
  destruct (wf_filed T s Hwf n c l ly gid El Hin) as (g0 & u & E0 & F1 & F2 & F3 & F4 & F5).
  rewrite E in E0. injection E0 as <-. exists u. unfold filed_as. by rewrite H1, H2, H3, H4.
Qed.

Lemma wf_insert_domain k d s :
  wf T s -> k = domain_key (d_uuid d) (d_numaId d) -> ids_ok d -> wf T (set_domainMap (<[k := d]> (domainMap_ s)) s).
Proof.
  intros Hwf Hk Hd. split; [apply (wf_dom T s Hwf)|apply (wf_op T s Hwf)|apply (wf_cluster T s Hwf)|apply (wf_filed T s Hwf)| |apply (wf_static T s Hwf)].
  intros k' d'. cbn. intros [[<- <-]|[_ E]]%lookup_insert_Some; [done|]. by apply (wf_domain T s Hwf).
Qed.

Lemma wf_delete_domain k s : wf T s -> wf T (set_domainMap (delete k (domainMap_ s)) s).
Proof.
  intros Hwf. split; [apply (wf_dom T s Hwf)|apply (wf_op T s Hwf)|apply (wf_cluster T s Hwf)|apply (wf_filed T s Hwf)| |apply (wf_static T s Hwf)].
  intros k' d'. cbn. intros [_ E]%lookup_delete_Some. by apply (wf_domain T s Hwf).
Qed.

(** * Layers added and removed *)

Lemma wf_map_layers (f : Z -> list ClusterLayer -> list ClusterLayer) o s :
  wf T s -> dom o = dom (overProvision_ s) -> (forall n op, o !! n = Some op -> 1 <= op <= maxOverProvision) ->
  (forall c ls, Z.of_nat (length ls) = 1 + extra_layers (overProvision_ s) -> Z.of_nat (length (f c ls)) = 1 + extra_layers o) ->
  (forall c ls i ly, f c ls !! i = Some ly -> ly = fresh_layer (topology_of T c) ∨ ls !! i = Some ly) ->
  wf T (set_overProvision o (map_clusters (fun c cl => set_clusterLayers (f c (clusterLayers cl)) cl) s)).
Proof.
  intros Hwf Hdom Hop Hlen Hlook.
  assert (Hc : forall n c cl, cluster_of n c (set_overProvision o (map_clusters (fun c cl => set_clusterLayers (f c (clusterLayers cl)) cl) s)) = Some cl ->
    exists cl0, cluster_of n c s = Some cl0 ∧ cl = set_clusterLayers (f c (clusterLayers cl0)) cl0).
  { intros n c cl. change (cluster_of n c (set_overProvision o ?s1)) with (cluster_of n c s1). rewrite cluster_of_map_clusters.
    destruct (cluster_of n c s) as [cl0|]; [|done]. intros [= <-]. by exists cl0. }
  split.
  - cbn. rewrite dom_fmap_L, Hdom. apply (wf_dom T s Hwf).
  - exact Hop.
  - intros n c cl (cl0 & E & ->)%Hc. destruct (wf_cluster T s Hwf n c cl0 E) as (H1 & H2 & H3). cbn. by split_and!; auto.
  - intros n c l ly gid El Hin. unfold layer_of in El.
    destruct (cluster_of n c (set_overProvision o _)) as [cl|] eqn:Ec; [|done]. cbn in El.
    apply Hc in Ec as (cl0 & E & ->). destruct (Z.leb_spec 0 l); [|done]. cbn in El.
    apply Hlook in El as [->|El]; [done|]. apply (wf_filed T s Hwf n c l ly); [|done].
    unfold layer_of. rewrite E. cbn. by rewrite (proj2 (Z.leb_le 0 l)).
  - apply (wf_domain T s Hwf).
  - intros n c cl (cl0 & E & ->)%Hc. destruct (wf_static T s Hwf n c cl0 E) as (info & H1 & H2 & H3 & H4).
    exists info. cbn. split_and!; try done. apply Forall_lookup. intros i ly [->|El]%Hlook.
    + unfold topology_of. rewrite H1. cbn. split_and!; try done; apply u16_range.
    + by apply (Forall_lookup_1 _ _ i ly H4).
Qed.

Lemma wf_up n op s : wf T s -> overProvision_ s !! n = Some op -> op < maxOverProvision -> wf T (OverProvisionUp T n s).
Proof.
  intros Hwf E Hlt. unfold OverProvisionUp. rewrite (wf_not_layerless T s Hwf). unfold GetOverProvision. rewrite E.
  pose proof (wf_op T s Hwf n op E) as Hop. cbn [default from_option id]. rewrite u8_small by (unfold maxOverProvision in *; lia).
  apply (wf_map_layers (fun c ls => ls ++ [fresh_layer (topology_of T c)])).
  - done.
  - cbn. rewrite dom_insert_lookup_L; [done|by exists op].
  - intros n' op'. cbn. intros [[<- <-]|[_ E']]%lookup_insert_Some; [lia|]. by apply (wf_op T s Hwf n').
  - intros c ls Hlen. cbn. rewrite length_app, (extra_layers_insert _ _ op) by done. cbn. lia.
  - intros c ls i ly [El|[_ [= <-]%list_lookup_singleton_Some%proj2]]%lookup_app_Some; [by right|by left].
Qed.

Lemma wf_down n op s : wf T s -> overProvision_ s !! n = Some op -> 1 < op -> wf T (OverProvisionDown n s).
Proof.
  intros Hwf E Hlt. unfold OverProvisionDown. rewrite (wf_not_layerless T s Hwf). cbn zeta.
  change (overProvision_ (map_clusters ?f s)) with (overProvision_ s). rewrite E. rewrite (proj2 (Z.ltb_lt 0 op)) by lia.
  apply (wf_map_layers (fun c ls => take (length ls - 1) ls)).
  - done.
  - rewrite dom_insert_lookup_L; [done|by exists op].
  - intros n' op'. intros [[<- <-]|[_ E']]%lookup_insert_Some; [pose proof (wf_op T s Hwf n op E); lia|]. by apply (wf_op T s Hwf n').
  - intros c ls Hlen. rewrite length_take, (extra_layers_insert _ _ op) by done.
    pose proof (extra_layers_ge _ n op (wf_op_pos T s Hwf) E). lia.
  - intros c ls i ly El. right. by apply lookup_take_Some in El as [El _].
Qed.
End Updates.
