(* ===== verification/ClusterSchedAlloc.v ===== *)
(** Taking and giving back CPUs: what [Alloc] and [Free] do to the groups and
    to the layers.

    [took] is one successful turn of [AllocGroupFromCluster], and [grants] the
    run of [Alloc] so far: turns that took a group and layers that were added.
    The loops of the code are followed by [grants] with enough fuel, and the
    effect of a run on every layer is read off by induction on it. *)

From S2P Require Import Prelude VasLib DynamicBitset ClusterVm ClusterSched ClusterSchedFacts ClusterSchedInv.

(** The machines the scheduler is written for: every cluster has
    [CLUSTER_CPU_NUM] CPUs with consecutive numbers, fewer than the range of
    the 16-bit positions. *)
Record topo_ok (T : CpuHelper) : Prop := {
  topo_info c info : cpuTopologyMap T !! c = Some info ->
    ci_id info = c ∧ ci_total info = CLUSTER_CPU_NUM T ∧ Z.of_nat (size (ci_cpuSet info)) = ci_total info ∧
    bsize (ci_bitMap info) = ci_total info ∧
    exists lo, set_first (ci_cpuSet info) = Some lo ∧ 0 <= lo ∧ lo + ci_total info <= MAX_CPU_NUM T;
  topo_cluster : 0 < CLUSTER_CPU_NUM T;
  topo_max : MAX_CPU_NUM T < 32768;
}.

Section Alloc.
Context (T : CpuHelper) (cf : VasdConf) (Htopo : topo_ok T).

(** The position and the number of CPUs that [AllocGroupFromCluster] decides on. *)
Definition choose (nr : Z) (busy : DynamicBitset) (ly : ClusterLayer) : Z * Z :=
  if (l_total ly <=? nr) && (l_total ly =? l_idle ly) then (FindFirstIdlePos busy 0 (l_total ly), l_total ly)
  else if nr <=? l_idle ly then (FindFirstIdlePos busy 0 nr, nr)
  else (-1, 0).

(** The CPUs of a layer that the domain cannot have: in use, or outside its map. *)
Definition busy_map (d : VmDomain) (cl : Cluster) (ly : ClusterLayer) : DynamicBitset :=
  DynamicBitsetOr (unavailable d cl) (l_usedBitmap ly).

Definition new_group (d : VmDomain) (c l start k : Z) : VmGroup :=
  let dk := domain_key (d_uuid d) (d_numaId d) in
  mkGroup dk (group_key dk c l) c l start k (replicate (Z.to_nat (CLUSTER_CPU_NUM T)) false) ∅.

(** The group [g] has been taken for [d] from the layer [(c, l)] of its node. *)
Definition took (nr : Z) (d : VmDomain) (c l : Z) (s : Sched) (g : VmGroup) (d' : VmDomain) (s' : Sched) : Prop :=
  exists cl ly, cluster_of (d_numaId d) c s = Some cl ∧ layer_of (d_numaId d) c l s = Some ly ∧
    choose nr (busy_map d cl ly) ly = (g_start g, g_nrCpus g) ∧ g_start g <> -1 ∧ 0 <= l ∧
    g = new_group d c l (g_start g) (g_nrCpus g) ∧ d' = AddGroupToDomain g d ∧
    s' = upd_layer (d_numaId d) c l (AddGroupToClusterLayer g) (set_groupMap (<[g_id g := g]> (groupMap_ s)) s).

(** A run of [Alloc] that has taken [gl], the groups with their places. *)
Inductive grants (N : Z) (d : VmDomain) (s : Sched) : list (Z * Z * VmGroup) -> Z -> VmDomain -> Sched -> Prop :=
  | grants_none : grants N d s [] 0 d s
  | grants_up gl m d1 s1 op :
      grants N d s gl m d1 s1 -> overProvision_ s1 !! d_numaId d1 = Some op -> op < maxOverProvision ->
      grants N d s gl m d1 (OverProvisionUp T (d_numaId d1) s1)
  | grants_take gl m d1 s1 c l g d2 s2 :
      grants N d s gl m d1 s1 -> took (N - m) d1 c l s1 g d2 s2 ->
      grants N d s ((c, l, g) :: gl) (m + g_nrCpus g) d2 s2.

(** * One turn *)

Lemma bsize_busy d n c cl ly s l :
  wf T s -> cluster_of n c s = Some cl -> layer_of n c l s = Some ly -> bsize (busy_map d cl ly) = CLUSTER_CPU_NUM T ∧ CLUSTER_CPU_NUM T < 32768.
Proof.
  intros Hwf Ec El. destruct (wf_static T s Hwf n c cl Ec) as (info & Ei & Ecpu & _ & _).
  destruct (topo_info T Htopo c info Ei) as (_ & Ht & Hsz & _ & lo & Elo & Hlo & Hmax). pose proof (topo_max T Htopo).
  pose proof (topo_cluster T Htopo). split; [|lia].
  unfold busy_map. rewrite bsize_Or. unfold unavailable. rewrite bsize_Not.
  unfold cpu_count, GetStartCpu. rewrite Ecpu, Elo. cbn [default from_option id].
  rewrite bsize_Cut; [|apply u16_range..]. rewrite u16_small; lia.
Qed.

Lemma layer_static n c cl l ly s :
  wf T s -> cluster_of n c s = Some cl -> layer_of n c l s = Some ly ->
  l_total ly = CLUSTER_CPU_NUM T ∧ bsize (l_usedBitmap ly) = CLUSTER_CPU_NUM T ∧ 0 <= l_idle ly < 65536.
Proof.
  intros Hwf Ec El. destruct (wf_static T s Hwf n c cl Ec) as (info & Ei & _ & _ & Hall).
  destruct (topo_info T Htopo c info Ei) as (_ & Ht & _ & Hb & _). unfold layer_of in El. rewrite Ec in El. cbn in El.
  destruct (0 <=? l); [|done]. destruct (Forall_lookup_1 _ _ _ _ Hall El) as (-> & -> & Hi). by rewrite Hb, Ht.
Qed.

(** The numbers of a group that has been taken. *)
Lemma took_bounds nr d c l s g d' s' cl ly :
  wf T s -> 0 <= nr -> took nr d c l s g d' s' -> cluster_of (d_numaId d) c s = Some cl -> layer_of (d_numaId d) c l s = Some ly ->
  0 < g_nrCpus g <= nr ∧ g_nrCpus g <= l_idle ly ∧ (g_nrCpus g = nr ∨ l_total ly = l_idle ly ∧ g_nrCpus g = l_total ly) ∧
  0 <= g_start g ∧ g_start g + g_nrCpus g <= CLUSTER_CPU_NUM T ∧ g_start g = FindFirstIdlePos (busy_map d cl ly) 0 (g_nrCpus g).
Proof.
  intros Hwf Hnr (cl' & ly' & Ec & El & Hch & Hne & _) Ec' El'. rewrite Ec in Ec'. injection Ec' as ->. rewrite El in El'. injection El' as ->.
  destruct (bsize_busy d _ c cl ly s l Hwf Ec El) as [Hb Hlt]. destruct (layer_static _ c cl l ly s Hwf Ec El) as [Ht _].
  pose proof (topo_cluster T Htopo) as Hpos. unfold choose in Hch.
  assert (Hfind : forall k, 0 <= k -> FindFirstIdlePos (busy_map d cl ly) 0 k = g_start g ->
    0 < k ∧ 0 <= g_start g ∧ g_start g + k <= CLUSTER_CPU_NUM T).
  { intros k Hk E. destruct (find_first_idle_found (busy_map d cl ly) 0 k) as (H1 & H2 & H3 & _); [lia|done|lia|congruence|].
    rewrite E in *. split_and!; try done; lia. }
  destruct (Z.leb_spec (l_total ly) nr), (Z.eqb_spec (l_total ly) (l_idle ly)); cbn [andb] in Hch;
    try destruct (Z.leb_spec nr (l_idle ly)); injection Hch as E1 E2; try (by rewrite <- E1 in Hne);
    (destruct (Hfind (g_nrCpus g)) as (F1 & F2 & F3); [lia|by rewrite <- E2|]); rewrite <- E2 in *; split_and!; auto; lia.
Qed.

Lemma alloc_group_spec nr l d c cl s :
  cluster_of (d_numaId d) c s = Some cl -> c_id cl = c -> 0 <= l -> is_Some (layer_of (d_numaId d) c l s) ->
  twp (AllocGroupFromCluster T nr l d (d_numaId d) c (unavailable d cl))
    (fun r s' => (r = (0, d) ∧ s' = s ∧ forall ly, layer_of (d_numaId d) c l s = Some ly -> (choose nr (busy_map d cl ly) ly).1 = -1) ∨
       exists g, took nr d c l s g r.2 s' ∧ r.1 = g_nrCpus g) s.
Proof.
  intros Ec Hid Hl [ly El]. unfold AllocGroupFromCluster. unfold twp, mbind, M_bind, gets, lift_opt. rewrite Ec, El.
  change (if (l_total ly <=? nr) && (l_total ly =? l_idle ly) then _ else _) with (choose nr (busy_map d cl ly) ly).
  destruct (choose nr (busy_map d cl ly) ly) as [start k] eqn:Ech. unfold isIntInvalid. destruct (Z.eqb_spec start (-1)) as [->|Hne].
  - eexists _, _. split; [reflexivity|]. left. split_and!; [done..|]. intros ly' [= <-]. by rewrite Ech.
  - eexists _, _. split; [reflexivity|]. right. exists (new_group d c l start k). rewrite Hid. split; [|done].
    exists cl, ly. by split_and!.
Qed.

(** Taking a group keeps the invariant and the identity of the domain. *)
Lemma took_wf nr d c l s g d' s' : wf T s -> took nr d c l s g d' s' -> wf T s'.
Proof.
  intros Hwf (cl & ly & Ec & El & _ & _ & Hl & Hg & _ & ->).
  assert (Hf : filed_as (g_id g) g (d_uuid d) (d_numaId d) c l) by (rewrite Hg; done).
  apply (wf_add_group T _ c l g (d_uuid d)); [|done|cbn; by rewrite lookup_insert_eq|done].
  apply wf_insert_group; [done|]. intros n' c' l' ly' El' Hin.
  destruct (wf_filed T s Hwf n' c' l' ly' _ El' Hin) as (g0 & u0 & _ & Hk & _).
  destruct Hf as (Hk' & Hf). pose proof Hk as Hk0. rewrite Hk' in Hk0.
  apply group_key_inj in Hk0 as ([<- <-]%domain_key_inj & <- & <-). by exists (d_uuid d).
Qed.

Lemma ids_ok_add d c l start k : ids_ok d -> ids_ok (AddGroupToDomain (new_group d c l start k) d).
Proof.
  intros Hd gid. cbn. intros [->%elem_of_singleton|Hin]%elem_of_union; [by exists c, l|]. by apply Hd.
Qed.

(** The domain but for its groups. *)
Definition same_domain (d d' : VmDomain) : Prop := d' = set_d_groups (d_groups d') d.

Lemma same_domain_refl d : same_domain d d.
Proof. by destruct d. Qed.

Lemma same_domain_trans d1 d2 d3 : same_domain d1 d2 -> same_domain d2 d3 -> same_domain d1 d3.
Proof. unfold same_domain. intros E1 E2. rewrite E2, E1. done. Qed.

Lemma took_domain nr d c l s g d' s' :
  took nr d c l s g d' s' -> same_domain d d' ∧ (ids_ok d -> ids_ok d') ∧ d_groups d' = {[ g_id g ]} ∪ d_groups d ∧
  g_id g = group_key (domain_key (d_uuid d) (d_numaId d)) c l.
Proof.
  intros (cl & ly & _ & _ & _ & _ & _ & Hg & -> & _). split; [done|]. rewrite Hg. split; [apply ids_ok_add|]. done.
Qed.

Lemma grants_inv N d s gl m d' s' :
  grants N d s gl m d' s' -> wf T s -> ids_ok d -> wf T s' ∧ ids_ok d' ∧ same_domain d d'.
Proof.
  intros Hg Hwf Hd. induction Hg as [|gl m d1 s1 op _ IH Eop Hlt|gl m d1 s1 c l g d2 s2 _ IH Ht].
  - split_and!; [done..|apply same_domain_refl].
  - destruct IH as (Hwf1 & Hd1 & Hs). split; [|done]. by apply (wf_up T _ op).
  - destruct IH as (Hwf1 & Hd1 & Hs). split; [by apply (took_wf _ _ _ _ _ _ _ _ Hwf1 Ht)|].
    apply took_domain in Ht as (Hs2 & Hid & _). split; [by apply Hid|]. by apply (same_domain_trans d d1).
Qed.

(** * The loops *)

(** One turn of the loop over the clusters. *)
Lemma alloc_clusters_turn nr l c cl cs d s Q :
  wf T s -> cluster_of (d_numaId d) c s = Some cl -> 0 <= l < GetOverProvision (d_numaId d) s ->
  (forall r s', (r = (0, d) ∧ s' = s ∧ forall ly, layer_of (d_numaId d) c l s = Some ly -> (choose nr (busy_map d cl ly) ly).1 = -1) ∨
       (exists g, took nr d c l s g r.2 s' ∧ r.1 = g_nrCpus g) ->
     twp (if r.1 =? 0 then alloc_from_clusters T nr l cs r.2 else mret r) Q s') ->
  twp (alloc_from_clusters T nr l (c :: cs) d) Q s.
Proof.
  intros Hwf Ec Hl HQ. pose proof (wf_over_bound T s (d_numaId d) Hwf) as Hop. cbn [alloc_from_clusters].
  apply twp_bind. unfold gets at 1, lift_opt at 1. apply twp_bind. exists (Some cl), s. rewrite Ec. split; [done|]. apply twp_ret.
  destruct (wf_cluster T s Hwf _ c cl Ec) as (Hid & _). destruct (wf_layer T s _ c cl l Hwf Ec Hl) as [ly El].
  destruct (layer_of_cluster _ c l s ly El) as (cl' & Ec' & Hl'). rewrite Ec in Ec'. injection Ec' as <-.
  rewrite (bool_decide_eq_false_2 (clusterLayers cl = [])) by (intros E; rewrite E in Hl'; cbn in Hl'; lia).
  rewrite (proj2 (Z.leb_gt _ l)) by lia. cbn [orb]. rewrite u8_small by (unfold maxOverProvision in *; lia).
  apply twp_bind. eapply twp_mono; [apply (alloc_group_spec nr l d c cl s Ec Hid); [lia|by exists ly]|].
  intros [k d'] s' Hor. exact (HQ (k, d') s' Hor).
Qed.

Lemma alloc_clusters_spec nr l cs d s :
  wf T s -> 0 <= nr -> 0 <= l < GetOverProvision (d_numaId d) s -> Forall (fun c => is_Some (cluster_of (d_numaId d) c s)) cs ->
  twp (alloc_from_clusters T nr l cs d)
    (fun r s' => (r = (0, d) ∧ s' = s) ∨ exists c g, took nr d c l s g r.2 s' ∧ r.1 = g_nrCpus g) s.
Proof.
  intros Hwf Hnr Hl. induction cs as [|c cs IH]; intros Hall; [apply twp_ret; by left|].
  apply Forall_cons in Hall as [[cl Ec] Hall]. apply (alloc_clusters_turn nr l c cl cs d s _ Hwf Ec Hl).
  intros [k d'] s' [([= -> ->] & -> & _)|(g & Ht & Hk)]; cbn [fst snd] in *; [by apply IH|].
  destruct (wf_layer T s _ c cl l Hwf Ec Hl) as [ly El].
  destruct (took_bounds nr d c l s g d' s' cl ly Hwf Hnr Ht Ec El) as (F & _).
  rewrite (proj2 (Z.eqb_neq k 0)) by lia. apply twp_ret. right. by exists c, g.
Qed.

Lemma map_keys_clusters n s :
  Forall (fun c => is_Some (cluster_of n c s)) (map_keys (default ∅ (numaClusterMap_ s !! n))).
Proof.
  apply Forall_forall. intros c [cl Hc]%elem_of_map_keys. unfold cluster_of. destruct (numaClusterMap_ s !! n) as [cs|]; [|done].
  by exists cl.
Qed.

Lemma alloc_layers_spec N d s fuel m gl l d1 s1 :
  wf T s -> ids_ok d -> grants N d s gl m d1 s1 -> 0 <= N - m -> 0 <= l <= maxOverProvision -> maxOverProvision - l < Z.of_nat fuel ->
  twp (alloc_from_layers T cf fuel (N - m) l d1)
    (fun r s2 => exists gl', grants N d s gl' (m + r.1) r.2 s2 ∧ 0 <= r.1 <= N - m ∧ (r.1 = 0 -> r.2 = d1)) s1.
Proof.
  intros Hwf Hd. revert l s1. induction fuel as [|fuel IH]; intros l s1 Hg Hm Hl Hfuel; [lia|]. cbn [alloc_from_layers].
  destruct (grants_inv N d s gl m d1 s1 Hg Hwf Hd) as (Hwf1 & Hd1 & _).
  apply twp_bind, twp_gets. destruct (Z.leb_spec (GetOverProvision (d_numaId d1) s1) l) as [Hle|Hlt].
  { apply twp_ret. exists gl. cbn. rewrite Z.add_0_r. by split_and!; try lia. }
  apply twp_bind, twp_gets, twp_bind.
  eapply twp_mono; [apply (alloc_clusters_spec (N - m) l); [done|lia|lia|apply map_keys_clusters]|].
  intros [k d2] s2 [[[= -> ->] ->]|(c & g & Ht & Hk)]; cbn [fst snd] in *.
  2:{ pose proof Ht as (cl & ly & Ec & El & _). destruct (took_bounds (N - m) d1 c l s1 g d2 s2 cl ly Hwf1) as (F & _); try done.
      rewrite (proj2 (Z.eqb_neq k 0)) by lia. cbn [negb]. apply twp_ret. exists ((c, l, g) :: gl). cbn. rewrite Hk.
      split_and!; try lia. by apply (grants_take _ _ _ _ _ d1 s1). }
  change (negb (0 =? 0)) with false. cbn iota. apply twp_bind, twp_gets, twp_bind.
  pose proof (wf_over_bound T s1 (d_numaId d1) Hwf1) as Hop.
  destruct ((l =? GetOverProvision (d_numaId d1) s1 - 1) && (GetOverProvision (d_numaId d1) s1 <? maxOverProvision)
            && bool_decide (schedPolicy cf = SCHED_POLICY_DYNAMIC)) eqn:Eup.
  - apply andb_true_iff in Eup as [[_ Hlt6%Z.ltb_lt]%andb_true_iff _]. apply twp_modify. apply IH; [|done|lia..].
    unfold GetOverProvision in *. destruct (overProvision_ s1 !! d_numaId d1) as [op|] eqn:Eop; cbn in *; [|lia].
    by apply (grants_up _ _ _ _ _ _ _ op).
  - apply twp_ret. apply IH; [done|done|lia..].
Qed.

(** * Giving back *)

(** The state after the turn of [Free] for one group. *)
Definition release (n : Z) (gid : string) (s : Sched) : Sched :=
  match groupMap_ s !! gid with
  | None => s
  | Some g =>
      let s1 := match layer_of n (g_clusterId g) (g_layerId g) s with
                | Some _ => upd_layer n (g_clusterId g) (g_layerId g) (DelGroupFromClusterLayer g) s
                | None => s
                end in
      set_groupMap (delete gid (groupMap_ s1)) s1
  end.

Lemma free_group_eq d gid s : free_group d gid s = Some (tt, release (d_numaId d) gid s).
Proof.
  unfold free_group, release, mbind, M_bind, gets, modify, mret, M_ret. destruct (groupMap_ s !! gid) as [g|]; [|done].
  by destruct (layer_of _ _ _ s).
Qed.

Lemma mfor_eq {S A} (body : A -> M S unit) (f : A -> S -> S) l s :
  (forall x s, body x s = Some (tt, f x s)) -> mfor body l s = Some (tt, foldl (fun s x => f x s) s l).
Proof.
  intros Hb. unfold mfor. revert s. induction l as [|x l IH]; intros s; [done|]. cbn [mfold foldl]. unfold mbind, M_bind.
  rewrite Hb. apply IH.
Qed.

Lemma free_eq d s : Free d s = Some (set_d_groups ∅ d, foldl (fun s gid => release (d_numaId d) gid s) s (set_list (d_groups d))).
Proof.
  unfold Free, mbind at 1, M_bind. rewrite (mfor_eq _ (release (d_numaId d))); [done|]. intros gid s'. apply free_group_eq.
Qed.

Lemma release_wf n u gid c l s : wf T s -> gid = group_key (domain_key u n) c l -> wf T (release n gid s).
Proof.
  intros Hwf Hgid. unfold release. destruct (groupMap_ s !! gid) as [g|] eqn:Eg; [|done].
  assert (Hother : forall n' c' l' ly, layer_of n' c' l' s = Some ly -> gid ∈ l_groups ly ->
    n' = n ∧ g_clusterId g = c' ∧ g_layerId g = l' ∧ g_id g = gid).
  { intros n' c' l' ly El Hin. destruct (wf_filed T s Hwf n' c' l' ly gid El Hin) as (g0 & u0 & E0 & Hk & F1 & _ & F2 & F3).
    rewrite Eg in E0. injection E0 as <-. rewrite Hgid in Hk. apply group_key_inj in Hk as ([_ Hn]%domain_key_inj & _). by split_and!. }
  destruct (layer_of n (g_clusterId g) (g_layerId g) s) as [ly0|] eqn:El0.
  - destruct (layer_of_cluster _ _ _ _ _ El0) as (_ & _ & Hl & _).
    apply wf_delete_group; [by apply wf_del_group|]. intros n' c' l' ly. rewrite layer_of_upd by done. case_bool_decide as Hb.
    + destruct Hb as (<- & <- & <-). rewrite El0. intros [= <-] Hin. cbn in Hin.
      apply elem_of_difference in Hin as [Hin Hni]. apply Hni, elem_of_singleton.
      by destruct (Hother n (g_clusterId g) (g_layerId g) ly0 El0 Hin) as (_ & _ & _ & ->).
    + intros El Hin. destruct (Hother n' c' l' ly El Hin) as (-> & <- & <- & _). by apply Hb.
  - apply wf_delete_group; [done|]. intros n' c' l' ly El Hin.
    destruct (Hother n' c' l' ly El Hin) as (-> & <- & <- & _). by rewrite El in El0.
Qed.

Lemma free_wf d s : wf T s -> ids_ok d -> wf T (foldl (fun s gid => release (d_numaId d) gid s) s (set_list (d_groups d))).
Proof.
  intros Hwf Hd. assert (Hall : Forall (fun gid => gid ∈ d_groups d) (set_list (d_groups d))).
  { apply Forall_forall. intros gid. apply elem_of_set_list. }
  revert s Hwf Hall. induction (set_list (d_groups d)) as [|gid gs IH]; intros s Hwf Hall; [done|].
  apply Forall_cons in Hall as [Hin Hall]. cbn [foldl]. apply IH; [|done].
  destruct (Hd gid Hin) as (c & l & E). by apply (release_wf _ (d_uuid d) _ c l).
Qed.

Lemma ids_ok_empty d : ids_ok (set_d_groups ∅ d).
Proof. by intros gid Hin. Qed.

(** * [Alloc] *)

(** What [Alloc] ends in after its checks: a run that took all the [N] CPUs,
    or one that took fewer, undone. *)
Definition alloc_ends (N : Z) (d : VmDomain) (s : Sched) (r : Z * VmDomain) (s2 : Sched) : Prop :=
  (r.1 = VAS_OK ∧ exists gl, grants N d s gl N r.2 s2) ∨
  (r.1 = VAS_ERROR ∧ exists gl m d1 s1, grants N d s gl m d1 s1 ∧ m < N ∧ r.2 = set_d_groups ∅ d1 ∧
    s2 = foldl (fun s gid => release (d_numaId d1) gid s) s1 (set_list (d_groups d1))).

Lemma alloc_loop_spec N d s fuel gl m d1 s1 :
  wf T s -> ids_ok d -> grants N d s gl m d1 s1 -> 0 <= m <= N -> N <= 65535 -> N - m <= Z.of_nat fuel ->
  twp (alloc_loop T cf fuel (N - m) d1) (alloc_ends N d s) s1.
Proof.
  intros Hwf Hd. revert gl m d1 s1. induction fuel as [|fuel IH]; intros gl m d1 s1 Hg Hm HN Hfuel; cbn [alloc_loop];
    destruct (Z.eqb_spec (N - m) 0) as [E|E]; try lia;
    try (apply twp_ret; left; split; [done|]; exists gl; by replace N with m at 2 by lia).
  assert (Hspec : twp (AllocClusterGroupToDomain T cf d1 (N - m))
    (fun r s2 => exists gl', grants N d s gl' (m + r.1) r.2 s2 ∧ 0 <= r.1 <= N - m ∧ (r.1 = 0 -> r.2 = d1)) s1).
  { unfold AllocClusterGroupToDomain. apply twp_bind, twp_gets. destruct (numaClusterMap_ s1 !! d_numaId d1).
    - apply (alloc_layers_spec N d s _ m gl 0); try done; [lia|unfold maxOverProvision; lia..].
    - apply twp_ret. exists gl. cbn. rewrite Z.add_0_r. split_and!; try done; lia. }
  apply twp_bind. eapply twp_mono; [exact Hspec|]. intros [k d2] s2 (gl' & Hg2 & Hk & _). cbn [fst snd] in *.
  destruct (Z.eqb_spec k 0) as [->|Hne].
  - apply twp_bind. exists (set_d_groups ∅ d2), (foldl (fun s gid => release (d_numaId d2) gid s) s2 (set_list (d_groups d2))).
    split; [apply free_eq|]. apply twp_ret. right. split; [done|]. exists gl', m, d2, s2. rewrite Z.add_0_r in Hg2. split_and!; try done; lia.
  - rewrite u16_small by lia. replace (N - m - k) with (N - (m + k)) by lia. apply (IH gl'); try done; lia.
Qed.

(** The number of CPUs a domain asks for. *)
Definition demand (d : VmDomain) : Z := u32 (Z.of_nat (size (pidVcpuMap d)) * GetGranularity T cf).

Lemma alloc_spec d s :
  wf T s -> ids_ok d ->
  twp (Alloc T cf d) (fun r s2 =>
    (r.2 = d ∧ s2 = s ∧ (r.1 = VAS_ERROR ∨ r.1 = VAS_OK ∧ isReScheded d = true)) ∨
    (isReScheded d = false ∧ alloc_ends (demand d) d s r s2)) s.
Proof.
  intros Hwf Hd. assert (Hrange : 0 <= demand d) by apply Z.mod_pos_bound, eq_refl. unfold Alloc. destruct (Z.eqb_spec (GetGranularity T cf) 0) as [|Hne]; [apply twp_ret; left; auto|].
  destruct (isReScheded d); [apply twp_ret; left; auto|]. fold (demand d).
  destruct (Z.ltb_spec 65535 (demand d)); [apply twp_ret; left; auto|]. apply twp_bind, twp_gets.
  destruct (Z.ltb_spec (GetNumaTotalCpus (d_numaId d) s) (demand d)); [apply twp_ret; left; auto|].
  eapply twp_mono.
  - pose proof (alloc_loop_spec (demand d) d s (Z.to_nat (demand d)) [] 0 d s Hwf Hd) as Hl. rewrite Z.sub_0_r in Hl.
    apply Hl; [constructor|lia..].
  - intros r s2 He. by right.
Qed.

Lemma alloc_wf d s :
  wf T s -> ids_ok d ->
  twp (Alloc T cf d) (fun r s2 => wf T s2 ∧ ids_ok r.2 ∧ same_domain d r.2) s.
Proof.
  intros Hwf Hd. eapply twp_mono; [by apply alloc_spec|]. intros [ret d2] s2. unfold alloc_ends. cbn [fst snd].
  intros [(-> & -> & _)|(_ & [(_ & gl & Hgr)|(_ & gl & m & d1 & s1 & Hgr & _ & -> & ->)])].
  - split_and!; [done..|apply same_domain_refl].
  - by apply (grants_inv _ _ _ _ _ _ _ Hgr).
  - destruct (grants_inv _ _ _ _ _ _ _ Hgr Hwf Hd) as (Hwf1 & Hd1 & Hs). split_and!.
    + by apply free_wf.
    + apply ids_ok_empty.
    + by apply (same_domain_trans d d1).
Qed.

(** * The effect of a run *)

(** The groups that a run took, by place. *)
Definition granted (gl : list (Z * Z * VmGroup)) (c l : Z) : option VmGroup :=
  snd <$> head (filter (fun x => x.1 = (c, l)) gl).

(** The layer of the state before the run, or the one the topology gives when
    the run has added it. *)
Definition base_layer (s : Sched) (n c l : Z) : option ClusterLayer :=
  match layer_of n c l s with
  | Some ly => Some ly
  | None => (fun _ => fresh_layer (topology_of T c)) <$> cluster_of n c s
  end.

Lemma layer_of_up n s n' c l ly :
  wf T s -> layer_of n' c l (OverProvisionUp T n s) = Some ly ->
  layer_of n' c l s = Some ly ∨ layer_of n' c l s = None ∧ is_Some (cluster_of n' c s) ∧ ly = fresh_layer (topology_of T c).
Proof.
  intros Hwf. unfold OverProvisionUp. rewrite (wf_not_layerless T s Hwf). unfold layer_of.
  change (cluster_of n' c (set_overProvision ?o ?s1)) with (cluster_of n' c s1). rewrite cluster_of_map_clusters.
  destruct (cluster_of n' c s) as [cl|]; [|done]. cbn. destruct (Z.leb_spec 0 l); [|done]. cbn.
  intros [El|[Hge [_ Ely]%list_lookup_singleton_Some]]%lookup_app_Some; [by left|]. right. split; [by apply lookup_ge_None_2|].
  by split.
Qed.

Lemma cluster_of_up n s n' c : wf T s -> is_Some (cluster_of n' c (OverProvisionUp T n s)) <-> is_Some (cluster_of n' c s).
Proof.
  intros Hwf. unfold OverProvisionUp. rewrite (wf_not_layerless T s Hwf).
  change (cluster_of n' c (set_overProvision ?o ?s1)) with (cluster_of n' c s1). rewrite cluster_of_map_clusters. apply fmap_is_Some.
Qed.

(** The entries of a run, as they are in the state. *)
Definition run_map (gl : list (Z * Z * VmGroup)) : gmap string VmGroup := list_to_map ((fun x => (g_id x.2, x.2)) <$> gl).
Definition run_ids (gl : list (Z * Z * VmGroup)) : gset string := list_to_set ((fun x => g_id x.2) <$> gl).
Definition run_cpus (gl : list (Z * Z * VmGroup)) : Z := foldr (fun x acc => g_nrCpus x.2 + acc) 0 gl.

(** The layer after a run: the group that was taken from it is added. *)
Definition run_layer (gl : list (Z * Z * VmGroup)) (d : VmDomain) (n c l : Z) (b : ClusterLayer) : ClusterLayer :=
  if bool_decide (n = d_numaId d) then match granted gl c l with Some g => AddGroupToClusterLayer g b | None => b end else b.

Record run_effect (N : Z) (d : VmDomain) (s : Sched) (gl : list (Z * Z * VmGroup)) (m : Z) (d' : VmDomain) (s' : Sched) : Prop := {
  re_nodup : NoDup gl.*1;
  re_cpus : m = run_cpus gl ∧ 0 <= m <= N;
  re_groups : groupMap_ s' = run_map gl ∪ groupMap_ s;
  re_ids : d_groups d' = run_ids gl ∪ d_groups d;
  re_each c l g : (c, l, g) ∈ gl -> 0 <= l ∧ 0 < g_nrCpus g ∧ 0 <= g_start g ∧ g_start g + g_nrCpus g <= CLUSTER_CPU_NUM T ∧
    g = new_group d c l (g_start g) (g_nrCpus g) ∧
    (m = N ∨ forall b, base_layer s (d_numaId d) c l = Some b -> l_idle b = g_nrCpus g);
  re_layer n c l ly : layer_of n c l s' = Some ly ->
    exists b, base_layer s n c l = Some b ∧ ly = run_layer gl d n c l b;
  re_present c l g : (c, l, g) ∈ gl -> is_Some (layer_of (d_numaId d) c l s');
  re_old n c l : is_Some (layer_of n c l s) -> is_Some (layer_of n c l s');
  re_clusters n c : is_Some (cluster_of n c s') <-> is_Some (cluster_of n c s);
  re_rest : domainMap_ s' = domainMap_ s ∧ entityMap_ s' = entityMap_ s ∧ host_tick s' = host_tick s ∧ cgroup_writes s' = cgroup_writes s ∧
    compactionCount_ s' = compactionCount_ s;
}.

Lemma granted_cons c l g gl c' l' : granted ((c, l, g) :: gl) c' l' = if bool_decide (c = c' ∧ l = l') then Some g else granted gl c' l'.
Proof.
  unfold granted. rewrite filter_cons. cbn [fst]. destruct (decide ((c, l) = (c', l'))) as [[= -> ->]|Hne].
  - by rewrite bool_decide_eq_true_2.
  - rewrite bool_decide_eq_false_2; [done|]. intros [-> ->]. by apply Hne.
Qed.

Lemma granted_Some gl c l g : granted gl c l = Some g -> (c, l, g) ∈ gl.
Proof.
  unfold granted. destruct (filter _ gl) as [|[[c' l'] g'] r] eqn:E; [done|]. intros [= ->].
  assert (Hin : (c', l', g) ∈ filter (fun x => x.1 = (c, l)) gl) by (rewrite E; left).
  apply list_elem_of_filter in Hin as [[= -> ->] Hin]. done.
Qed.

Lemma granted_elem gl c l g : NoDup gl.*1 -> (c, l, g) ∈ gl -> granted gl c l = Some g.
Proof.
  induction gl as [|[[c' l'] g'] gl IH]; intros Hnd Hin; [by apply not_elem_of_nil in Hin|]. rewrite granted_cons.
  cbn in Hnd. apply NoDup_cons in Hnd as [Hni Hnd]. apply elem_of_cons in Hin as [[= <- <- <-]|Hin].
  - by rewrite bool_decide_eq_true_2.
  - rewrite bool_decide_eq_false_2; [by apply IH|]. intros [-> ->]. apply Hni, list_elem_of_fmap. by exists (c, l, g).
Qed.

Lemma run_effect_refl N d s : 0 <= N -> run_effect N d s [] 0 d s.
Proof.
  intros HN. split; cbn; try done; try (by rewrite (left_id_L ∅ (∪))).
  - constructor.
  - intros c l g Hin. by apply not_elem_of_nil in Hin.
  - intros n c l ly El. exists ly. unfold base_layer, run_layer, granted. rewrite El. split; [done|]. by case_bool_decide.
  - intros c l g Hin. by apply not_elem_of_nil in Hin.
Qed.

Lemma layer_of_up_old n s n' c l : wf T s -> is_Some (layer_of n' c l s) -> is_Some (layer_of n' c l (OverProvisionUp T n s)).
Proof.
  intros Hwf. unfold OverProvisionUp. rewrite (wf_not_layerless T s Hwf). unfold layer_of.
  change (cluster_of n' c (set_overProvision ?o ?s1)) with (cluster_of n' c s1). rewrite cluster_of_map_clusters.
  destruct (cluster_of n' c s) as [cl|]; [|done]. cbn. destruct (Z.leb_spec 0 l); [|done]. cbn.
  intros [ly E]. exists ly. by apply lookup_app_l_Some.
Qed.

Lemma run_effect_up N d s gl m d1 s1 n :
  wf T s1 -> run_effect N d s gl m d1 s1 -> run_effect N d s gl m d1 (OverProvisionUp T n s1).
Proof.
  intros Hwf R.
  assert (Hframe : groupMap_ (OverProvisionUp T n s1) = groupMap_ s1 ∧ domainMap_ (OverProvisionUp T n s1) = domainMap_ s1 ∧
    entityMap_ (OverProvisionUp T n s1) = entityMap_ s1 ∧ host_tick (OverProvisionUp T n s1) = host_tick s1 ∧
    cgroup_writes (OverProvisionUp T n s1) = cgroup_writes s1 ∧ compactionCount_ (OverProvisionUp T n s1) = compactionCount_ s1).
  { unfold OverProvisionUp. by destruct (some_layerless s1). }
  destruct Hframe as (F1 & F2 & F3 & F4 & F5 & F6). destruct R as [R1 R2 R3 R4 R5 R6 R7 R8 R9 R10]. split; try done.
  - by rewrite F1.
  - intros n' c l ly [El|(El & Hcl & ->)]%layer_of_up; [by apply R6| |done].
    assert (El0 : layer_of n' c l s = None).
    { destruct (layer_of n' c l s) eqn:E; [|done]. destruct (R8 n' c l) as [? ?]; [by rewrite E|congruence]. }
    apply R9 in Hcl as [cl0 Ecl]. exists (fresh_layer (topology_of T c)). unfold base_layer, run_layer. rewrite El0, Ecl. split; [done|].
    case_bool_decide as Hn; [|done]. destruct (granted gl c l) as [g|] eqn:Eg; [|done].
    apply granted_Some, R7 in Eg as [ly Ely]. rewrite <- Hn in Ely. congruence.
  - intros c l g Hin. apply layer_of_up_old; [done|]. by apply (R7 c l g).
  - intros n' c l Hs. apply layer_of_up_old; [done|]. by apply R8.
  - intros n' c. rewrite cluster_of_up by done. apply R9.
  - by rewrite F2, F3, F4, F5, F6.
Qed.

(** The place a turn takes from has not been taken from before. *)
Lemma took_new_place N d s gl m d1 s1 c l g d2 s2 :
  wf T s1 -> same_domain d d1 -> run_effect N d s gl m d1 s1 -> took (N - m) d1 c l s1 g d2 s2 -> (c, l) ∉ gl.*1.
Proof.
  intros Hwf Hs R Ht ([[c0 l0] g0] & [= <- <-] & Hin)%list_elem_of_fmap. cbn in Hin.
  pose proof Ht as (cl & ly & Ec & El & _). assert (Hn : d_numaId d1 = d_numaId d) by (by rewrite Hs).
  destruct (re_cpus _ _ _ _ _ _ _ R) as [_ Hm].
  destruct (took_bounds (N - m) d1 c l s1 g d2 s2 cl ly Hwf ltac:(lia) Ht Ec El) as ((Hk & HkN) & Hidle & _).
  destruct (re_each _ _ _ _ _ _ _ R c l g0 Hin) as (_ & _ & _ & _ & _ & [->|Hb]); [lia|].
  rewrite Hn in El. destruct (re_layer _ _ _ _ _ _ _ R _ _ _ _ El) as (b & Eb & ->).
  unfold run_layer in Hidle. rewrite bool_decide_eq_true_2 in Hidle by done.
  rewrite (granted_elem _ _ _ g0 (re_nodup _ _ _ _ _ _ _ R) Hin) in Hidle. cbn in Hidle. rewrite (Hb b Eb) in Hidle.
  rewrite Z.sub_diag in Hidle. change (u16 0) with 0 in Hidle. lia.
Qed.

Lemma run_effect_take N d s gl m d1 s1 c l g d2 s2 :
  wf T s1 -> same_domain d d1 -> run_effect N d s gl m d1 s1 -> took (N - m) d1 c l s1 g d2 s2 ->
  run_effect N d s ((c, l, g) :: gl) (m + g_nrCpus g) d2 s2.
Proof.
  intros Hwf Hs R Ht. pose proof (took_new_place _ _ _ _ _ _ _ _ _ _ _ _ Hwf Hs R Ht) as Hnew.
  pose proof Ht as (cl & ly & Ec & El & _ & _ & Hl & Hg & Hd2 & Hs2).
  assert (Hn : d_numaId d1 = d_numaId d) by (by rewrite Hs).
  assert (Hng : forall a b, new_group d1 c l a b = new_group d c l a b) by (intros; rewrite Hs; done).
  rewrite Hn in *. rewrite Hng in Hg.
  destruct (re_layer _ _ _ _ _ _ _ R _ _ _ _ El) as (b & Eb & Ely).
  assert (Hgr : granted gl c l = None).
  { destruct (granted gl c l) as [g0|] eqn:E; [|done]. apply granted_Some in E. exfalso. apply Hnew, list_elem_of_fmap. by exists (c, l, g0). }
  unfold run_layer in Ely. rewrite bool_decide_eq_true_2, Hgr in Ely by done. subst ly.
  destruct R as [R1 R2 R3 R4 R5 R6 R7 R8 R9 R10].
  destruct (took_bounds (N - m) d1 c l s1 g d2 s2 cl b Hwf ltac:(lia) Ht) as (Hk & Hidle & Hor & Hst & Hend & _); [by rewrite Hn..|].
  split.
  - cbn. by apply NoDup_cons.
  - change (run_cpus ((c, l, g) :: gl)) with (g_nrCpus g + run_cpus gl). lia.
  - rewrite Hs2. cbn. rewrite R3. unfold run_map. cbn. by rewrite insert_union_l.
  - rewrite Hd2. cbn. rewrite R4. unfold run_ids. cbn. by rewrite (assoc_L (∪)).
  - intros c' l' g' [[= -> -> ->]|Hin]%elem_of_cons.
    + split_and!; try done; try lia. destruct Hor as [->|[E1 E2]]; [left; lia|right]. intros b' Eb'. rewrite Eb in Eb'. injection Eb' as <-. lia.
    + destruct (R5 c' l' g' Hin) as (F1 & F2 & F3 & F4 & F5 & [->|F6]); split_and!; try done; [|by right]. lia.
  - intros n' c' l' ly'. rewrite Hs2. rewrite layer_of_upd by done.
    change (layer_of ?a ?b ?c (set_groupMap ?m s1)) with (layer_of a b c s1). rewrite El. unfold run_layer. rewrite granted_cons. case_bool_decide as Hb.
    + destruct Hb as (<- & <- & <-). intros [= <-]. exists b. split; [done|]. by rewrite !bool_decide_eq_true_2.
    + intros El'. destruct (R6 n' c' l' ly' El') as (b' & Eb' & ->). exists b'. split; [done|]. unfold run_layer.
      case_bool_decide as Hb2; [|done]. rewrite bool_decide_eq_false_2; [done|]. intros [-> ->]. by apply Hb.
  - intros c' l' g' Hin. rewrite Hs2, layer_of_upd by done. change (layer_of ?a ?b ?c (set_groupMap ?m s1)) with (layer_of a b c s1).
    case_bool_decide; [by rewrite El|]. apply elem_of_cons in Hin as [[= -> -> ->]|Hin]; [by rewrite El|]. by apply (R7 c' l' g').
  - intros n' c' l' Hold%R8. rewrite Hs2, layer_of_upd by done. change (layer_of ?a ?b ?c (set_groupMap ?m s1)) with (layer_of a b c s1).
    case_bool_decide; [by rewrite El|done].
  - intros n' c'. rewrite <- R9. rewrite Hs2. unfold upd_layer. rewrite cluster_of_upd. case_bool_decide as Hb; [|done].
    destruct Hb as [<- <-]. apply fmap_is_Some.
  - rewrite Hs2. exact R10.
Qed.

Lemma grants_effect N d s gl m d' s' :
  wf T s -> ids_ok d -> 0 <= N -> grants N d s gl m d' s' -> run_effect N d s gl m d' s'.
Proof.
  intros Hwf Hd HN Hg. induction Hg as [|gl m d1 s1 op Hg IH Eop Hlt|gl m d1 s1 c l g d2 s2 Hg IH Ht].
  - by apply run_effect_refl.
  - apply run_effect_up; [|done]. by apply (grants_inv _ _ _ _ _ _ _ Hg).
  - destruct (grants_inv _ _ _ _ _ _ _ Hg Hwf Hd) as (Hwf1 & _ & Hs). by apply (run_effect_take _ _ _ _ _ d1 s1).
Qed.

(** * The effect of [Free] *)

Lemma release_groups n gid s : groupMap_ (release n gid s) = delete gid (groupMap_ s).
Proof.
  unfold release. destruct (groupMap_ s !! gid) eqn:E; [|by rewrite delete_id]. by destruct (layer_of _ _ _ s).
Qed.

Lemma release_layer n gid g s n' c' l' :
  groupMap_ s !! gid = Some g -> 0 <= g_layerId g ->
  layer_of n' c' l' (release n gid s) =
  if bool_decide (n = n' ∧ g_clusterId g = c' ∧ g_layerId g = l') then DelGroupFromClusterLayer g <$> layer_of n' c' l' s else layer_of n' c' l' s.
Proof.
  intros E Hl. unfold release. rewrite E.
  change (layer_of n' c' l' (set_groupMap ?m ?s1)) with (layer_of n' c' l' s1).
  destruct (layer_of n (g_clusterId g) (g_layerId g) s) as [ly|] eqn:El.
  - rewrite layer_of_upd by done. case_bool_decide as Hb; [|done]. by destruct Hb as (<- & <- & <-).
  - case_bool_decide as Hb; [|done]. destruct Hb as (<- & <- & <-). by rewrite El.
Qed.

Lemma release_rest n gid s :
  overProvision_ (release n gid s) = overProvision_ s ∧ domainMap_ (release n gid s) = domainMap_ s ∧
  entityMap_ (release n gid s) = entityMap_ s ∧ host_tick (release n gid s) = host_tick s ∧
  cgroup_writes (release n gid s) = cgroup_writes s ∧ compactionCount_ (release n gid s) = compactionCount_ s.
Proof. unfold release. destruct (groupMap_ s !! gid); [|done]. by destruct (layer_of _ _ _ s). Qed.

(** The ids of [gs] name groups of the domain [dk] at their places. *)
Definition placed (dk : string) (gs : list string) (m : gmap string VmGroup) : Prop :=
  forall gid, gid ∈ gs -> exists g, m !! gid = Some g ∧ 0 <= g_layerId g ∧ gid = group_key dk (g_clusterId g) (g_layerId g).

(** The group that the release of [gs] takes out of a layer. *)
Definition leaving (dk : string) (n : Z) (gs : list string) (m : gmap string VmGroup) (n' c l : Z) : option VmGroup :=
  if bool_decide (n = n' ∧ group_key dk c l ∈ gs) then m !! group_key dk c l else None.

Definition leave (o : option VmGroup) (ly : ClusterLayer) : ClusterLayer :=
  match o with Some g => DelGroupFromClusterLayer g ly | None => ly end.

Lemma free_layers dk n gs s n' c l :
  NoDup gs -> placed dk gs (groupMap_ s) ->
  layer_of n' c l (foldl (fun s gid => release n gid s) s gs) = leave (leaving dk n gs (groupMap_ s) n' c l) <$> layer_of n' c l s.
Proof.
  revert s. induction gs as [|gid gs IH]; intros s Hnd Hp; cbn [foldl].
  { unfold leaving. rewrite bool_decide_eq_false_2; [by destruct (layer_of _ _ _ _)|]. intros [_ Hin]. by apply not_elem_of_nil in Hin. }
  apply NoDup_cons in Hnd as [Hni Hnd]. destruct (Hp gid) as (g & Eg & Hl & Egid); [left|].
  rewrite IH; [|done|].
  2:{ intros gid' Hin'. destruct (Hp gid') as (g' & Eg' & H'); [by right|]. exists g'. rewrite release_groups.
      rewrite lookup_delete_ne; [done|]. by intros ->. }
  rewrite (release_layer n gid g) by done. rewrite release_groups. unfold leaving.
  destruct (decide (n = n' ∧ g_clusterId g = c ∧ g_layerId g = l)) as [(<- & <- & <-)|Hne].
  - rewrite <- Egid. rewrite (bool_decide_eq_true_2 (n = n ∧ _ = g_clusterId g ∧ _)) by done.
    rewrite (bool_decide_eq_false_2 (n = n ∧ gid ∈ gs)) by naive_solver.
    rewrite (bool_decide_eq_true_2 (n = n ∧ gid ∈ gid :: gs)) by (split; [done|left]). rewrite Eg.
    by destruct (layer_of n _ _ s).
  - rewrite (bool_decide_eq_false_2 (n = n' ∧ g_clusterId g = c ∧ g_layerId g = l)) by done.
    destruct (decide (n = n' ∧ group_key dk c l ∈ gs)) as [Hin|Hnin].
    + rewrite !bool_decide_eq_true_2 by (split; try right; apply Hin). rewrite lookup_delete_ne; [done|]. intros ->. by apply Hni, Hin.
    + rewrite !bool_decide_eq_false_2; [done| |done]. intros [-> [Ek|Hin]%elem_of_cons]; [|by apply Hnin].
      rewrite Egid in Ek. apply group_key_inj in Ek as (_ & -> & ->). by apply Hne.
Qed.

Lemma free_groups n gs s : groupMap_ (foldl (fun s gid => release n gid s) s gs) = foldl (fun m gid => delete gid m) (groupMap_ s) gs.
Proof. revert s. induction gs as [|gid gs IH]; intros s; [done|]. cbn [foldl]. rewrite IH. by rewrite release_groups. Qed.

Lemma free_rest n gs s :
  let s' := foldl (fun s gid => release n gid s) s gs in
  overProvision_ s' = overProvision_ s ∧ domainMap_ s' = domainMap_ s ∧ entityMap_ s' = entityMap_ s ∧ host_tick s' = host_tick s ∧
  cgroup_writes s' = cgroup_writes s ∧ compactionCount_ s' = compactionCount_ s.
Proof.
  revert s. induction gs as [|gid gs IH]; intros s; [done|]. cbn [foldl]. cbn zeta in *.
  destruct (IH (release n gid s)) as (-> & -> & -> & -> & -> & ->). apply release_rest.
Qed.

(** Deleting the entries of a run from the map they were added to. *)
Lemma delete_run gl (m : gmap string VmGroup) gs :
  (forall gid, gid ∈ gs <-> gid ∈ run_ids gl) -> (forall gid, gid ∈ gs -> m !! gid = None) ->
  foldl (fun m gid => delete gid m) (run_map gl ∪ m) gs = m.
Proof.
  intros Hgs Hm. apply map_eq. intros k.
  assert (Hf : forall (l : list string) (m0 : gmap string VmGroup), foldl (fun m gid => delete gid m) m0 l !! k = if bool_decide (k ∈ l) then None else m0 !! k).
  { induction l as [|x l IH]; intros m0; [done|]. cbn [foldl]. rewrite IH. destruct (decide (k ∈ l)).
    - rewrite !bool_decide_eq_true_2; [done|by right|done].
    - rewrite bool_decide_eq_false_2 by done. destruct (decide (x = k)) as [->|Hne].
      + rewrite lookup_delete_eq, bool_decide_eq_true_2; [done|left].
      + rewrite lookup_delete_ne by done. rewrite bool_decide_eq_false_2; [done|]. by intros [->|?]%elem_of_cons. }
  rewrite Hf. case_bool_decide as Hk; [by rewrite Hm|].
  rewrite lookup_union_r; [done|]. apply not_elem_of_list_to_map_1. intros Hin. apply Hk, Hgs. unfold run_ids. apply elem_of_list_to_set.
  rewrite <- list_fmap_compose in Hin. exact Hin.
Qed.

(** No group of the domain is known. *)
Definition unknown_groups (d : VmDomain) (s : Sched) : Prop :=
  forall c l, groupMap_ s !! group_key (domain_key (d_uuid d) (d_numaId d)) c l = None.

Lemma run_ids_key gl N d s m d' s' gid :
  run_effect N d s gl m d' s' -> gid ∈ run_ids gl ->
  exists c l g, (c, l, g) ∈ gl ∧ g_id g = gid ∧ gid = group_key (domain_key (d_uuid d) (d_numaId d)) c l ∧ g_clusterId g = c ∧ g_layerId g = l.
Proof.
  intros R ([[c l] g] & -> & Hin)%elem_of_list_to_set%list_elem_of_fmap. exists c, l, g.
  destruct (re_each _ _ _ _ _ _ _ R c l g Hin) as (_ & _ & _ & _ & -> & _). split; [|done].
  destruct (re_each _ _ _ _ _ _ _ R c l g Hin) as (_ & _ & _ & _ & <- & _). done.
Qed.

Lemma run_ids_nodup gl N d s m d' s' : run_effect N d s gl m d' s' -> NoDup ((fun x : Z * Z * VmGroup => (g_id x.2, x.2)) <$> gl).*1.
Proof.
  intros R. rewrite <- list_fmap_compose. pose proof (re_nodup _ _ _ _ _ _ _ R) as Hnd. pose proof (re_each _ _ _ _ _ _ _ R) as Hall.
  clear R. induction gl as [|[[c l] g] gl IH]; [constructor|]. cbn in *. apply NoDup_cons in Hnd as [Hni Hnd]. apply NoDup_cons. split.
  - intros ([[c' l'] g'] & E & Hin)%list_elem_of_fmap. cbn in E.
    destruct (Hall c l g) as (_ & _ & _ & _ & Hg & _); [left|]. destruct (Hall c' l' g') as (_ & _ & _ & _ & Hg' & _); [by right|].
    rewrite Hg, Hg' in E. cbn in E. apply group_key_inj in E as (_ & -> & ->). apply Hni, list_elem_of_fmap. by exists (c', l', g').
  - apply IH; [done|]. intros c' l' g' Hin. apply (Hall c' l' g'). by right.
Qed.

Lemma run_map_lookup gl N d s m d' s' c l g :
  run_effect N d s gl m d' s' -> (c, l, g) ∈ gl -> run_map gl !! group_key (domain_key (d_uuid d) (d_numaId d)) c l = Some g.
Proof.
  intros R Hin. apply elem_of_list_to_map_1; [by apply (run_ids_nodup gl N d s m d' s')|]. apply list_elem_of_fmap.
  exists (c, l, g). split; [|done]. cbn. destruct (re_each _ _ _ _ _ _ _ R c l g Hin) as (_ & _ & _ & _ & -> & _). done.
Qed.

(** The base layer does not list a group of a domain that has none. *)
Lemma base_layer_unlisted d s n c l b c' l' :
  wf T s -> unknown_groups d s -> base_layer s n c l = Some b -> group_key (domain_key (d_uuid d) (d_numaId d)) c' l' ∉ l_groups b.
Proof.
  intros Hwf Hu. unfold base_layer. destruct (layer_of n c l s) as [ly|] eqn:El.
  - intros [= <-] Hin. destruct (wf_filed T s Hwf n c l ly _ El Hin) as (g & u & Eg & _). by rewrite Hu in Eg.
  - destruct (cluster_of n c s); [|done]. intros [= <-]. cbn. set_solver.
Qed.

Lemma base_layer_static s n c l b :
  wf T s -> base_layer s n c l = Some b -> l_total b = CLUSTER_CPU_NUM T ∧ bsize (l_usedBitmap b) = CLUSTER_CPU_NUM T ∧ 0 <= l_idle b < 65536.
Proof.
  intros Hwf. unfold base_layer. destruct (layer_of n c l s) as [ly|] eqn:El.
  - intros [= <-]. destruct (layer_of_cluster n c l s ly El) as (cl & Ec & _). by apply (layer_static n c cl l ly s).
  - destruct (cluster_of n c s) as [cl|] eqn:Ec; [|done]. intros [= <-].
    destruct (wf_static T s Hwf n c cl Ec) as (info & Ei & _). unfold topology_of. rewrite Ei. cbn.
    destruct (topo_info T Htopo c info Ei) as (_ & Ht & _ & Hb & _). split_and!; [done|by rewrite Hb|apply u16_range..].
Qed.

Lemma cluster_num_small s n c l b : wf T s -> base_layer s n c l = Some b -> CLUSTER_CPU_NUM T < 32768.
Proof.
  intros Hwf Eb. assert (exists cl, cluster_of n c s = Some cl) as [cl Ec].
  { unfold base_layer in Eb. destruct (layer_of n c l s) as [ly|] eqn:El; [|destruct (cluster_of n c s); [by eexists|done]].
    apply layer_of_cluster in El as (cl & Ec & _). by exists cl. }
  destruct (wf_static T s Hwf n c cl Ec) as (info & Ei & _). destruct (topo_info T Htopo c info Ei) as (_ & <- & _ & _ & lo & _ & Hlo & Hm).
  pose proof (topo_max T Htopo). lia.
Qed.

(** Adding a group to a layer and deleting it again. *)
Lemma del_add_group g b :
  0 <= l_idle b < 65536 -> g_id g ∉ l_groups b ->
  let ly := DelGroupFromClusterLayer g (AddGroupToClusterLayer g b) in
  l_idle ly = l_idle b ∧ l_total ly = l_total b ∧ l_groups ly = l_groups b ∧
  (area_ok (l_usedBitmap b) (u16 (g_start g)) (u16 (g_nrCpus g)) -> window_free (l_usedBitmap b) (u16 (g_start g)) (u16 (g_nrCpus g)) -> ly = b).
Proof.
  intros Hi Hg ly. assert (E : l_idle ly = l_idle b).
  { cbn. unfold u16. rewrite Zplus_mod_idemp_l. replace (l_idle b - g_nrCpus g + g_nrCpus g) with (l_idle b) by lia. by apply Z.mod_small. }
  assert (E2 : l_groups ly = l_groups b) by (cbn; set_solver).
  split_and!; [done|done|done|]. intros Ha Hw. assert (E3 : l_usedBitmap ly = l_usedBitmap b) by (by apply clear_set_area).
  assert (E4 : l_total ly = l_total b) by done. destruct ly, b. cbn in *. by subst.
Qed.

(** A run that is undone leaves the groups as they were, and every layer as
    it was but for the bit map; that too when the areas taken were idle. *)
Lemma undo_run N d s gl m d1 s1 :
  wf T s -> ids_ok d -> 0 <= N -> d_groups d = ∅ -> unknown_groups d s -> grants N d s gl m d1 s1 ->
  let s2 := foldl (fun s gid => release (d_numaId d1) gid s) s1 (set_list (d_groups d1)) in
  groupMap_ s2 = groupMap_ s ∧
  forall n c l ly, layer_of n c l s2 = Some ly -> exists b, base_layer s n c l = Some b ∧
    l_idle ly = l_idle b ∧ l_total ly = l_total b ∧ l_groups ly = l_groups b ∧
    ((forall g, (c, l, g) ∈ gl -> window_free (l_usedBitmap b) (g_start g) (g_nrCpus g)) -> ly = b).
Proof.
  intros Hwf Hd HN Hempty Hu Hg s2. destruct (grants_inv _ _ _ _ _ _ _ Hg Hwf Hd) as (Hwf1 & _ & Hs).
  pose proof (grants_effect _ _ _ _ _ _ _ Hwf Hd HN Hg) as R. assert (Hn : d_numaId d1 = d_numaId d) by (by rewrite Hs).
  assert (Hids : d_groups d1 = run_ids gl) by (rewrite (re_ids _ _ _ _ _ _ _ R), Hempty; set_solver).
  set (dk := domain_key (d_uuid d) (d_numaId d)) in *.
  assert (Hp : placed dk (set_list (d_groups d1)) (groupMap_ s1)).
  { intros gid Hin%elem_of_set_list. rewrite Hids in Hin. destruct (run_ids_key _ _ _ _ _ _ _ _ R Hin) as (c & l & g & Hgl & Hgid & -> & Hc & Hl).
    exists g. rewrite Hc, Hl. split_and!; [|by apply (re_each _ _ _ _ _ _ _ R c l g)|done].
    rewrite (re_groups _ _ _ _ _ _ _ R). apply lookup_union_Some_l. by apply (run_map_lookup gl N d s m d1 s1). }
  split.
  - unfold s2. rewrite free_groups, (re_groups _ _ _ _ _ _ _ R). apply delete_run.
    + intros gid. by rewrite elem_of_set_list, Hids.
    + intros gid Hin%elem_of_set_list. rewrite Hids in Hin. destruct (run_ids_key _ _ _ _ _ _ _ _ R Hin) as (c & l & g & _ & _ & -> & _). apply Hu.
  - intros n c l ly. unfold s2. rewrite (free_layers dk) by (try done; apply NoDup_set_list). rewrite Hn.
    destruct (layer_of n c l s1) as [ly1|] eqn:El; [|done]. intros [= <-].
    destruct (re_layer _ _ _ _ _ _ _ R n c l ly1 El) as (b & Eb & ->). exists b. split; [done|].
    destruct (base_layer_static s n c l b Hwf Eb) as (_ & Hsz & Hi). unfold leaving, run_layer.
    destruct (decide (n = d_numaId d)) as [->|Hne].
    2:{ rewrite !bool_decide_eq_false_2 by naive_solver. done. }
    rewrite (bool_decide_eq_true_2 (d_numaId d = d_numaId d)) by done. destruct (granted gl c l) as [g|] eqn:Egr.
    + apply granted_Some in Egr as Hgl. destruct (re_each _ _ _ _ _ _ _ R c l g Hgl) as (_ & Hk & Hst & Hend & Hgeq & _).
      assert (Hid : g_id g = group_key dk c l) by (by rewrite Hgeq).
      rewrite bool_decide_eq_true_2.
      2:{ split; [done|]. rewrite <- Hid. apply elem_of_set_list. rewrite Hids. apply elem_of_list_to_set, list_elem_of_fmap. by exists (c, l, g). }
      rewrite (re_groups _ _ _ _ _ _ _ R). rewrite (lookup_union_Some_l _ _ _ g) by (by apply (run_map_lookup gl N d s m d1 s1)).
      cbn [leave]. pose proof (topo_max T Htopo). pose proof (topo_cluster T Htopo).
      destruct (del_add_group g b Hi) as (E1 & E2 & E3 & E4); [rewrite Hid; by apply (base_layer_unlisted d s (d_numaId d) c l)|].
      assert (CLUSTER_CPU_NUM T < 32768) by (by apply (cluster_num_small s (d_numaId d) c l b)).
      rewrite !u16_small in E4 by lia. split_and!; [done..|]. intros Hw. apply E4; [unfold area_ok; lia|]. by apply Hw.
    + rewrite bool_decide_eq_false_2; [done|]. intros [_ Hin%elem_of_set_list]. rewrite Hids in Hin. destruct (run_ids_key _ _ _ _ _ _ _ _ R Hin) as (c' & l' & g & Hgl & _ & Ek & _).
      apply group_key_inj in Ek as (_ & -> & ->). apply (granted_elem _ _ _ _ (re_nodup _ _ _ _ _ _ _ R)) in Hgl. congruence.
Qed.

(** * Where the groups of a run lie *)

(** The clusters of two states have the CPUs of the topology. *)
Lemma busy_map_same d d1 s s1 n c cl cl1 b :
  wf T s -> wf T s1 -> same_domain d d1 -> cluster_of n c s = Some cl -> cluster_of n c s1 = Some cl1 -> busy_map d1 cl1 b = busy_map d cl b.
Proof.
  intros Hwf Hwf1 Hs Ec Ec1. destruct (wf_static T s Hwf n c cl Ec) as (info & Ei & E1 & _).
  destruct (wf_static T s1 Hwf1 n c cl1 Ec1) as (info' & Ei' & E2 & _). rewrite Ei in Ei'. injection Ei' as <-.
  unfold busy_map, unavailable, GetStartCpu, cpu_count. rewrite E1, E2, Hs. done.
Qed.

(** Each group starts where the search finds room in the layer before the run. *)
Lemma grants_start N d s gl m d' s' c l g cl b :
  wf T s -> ids_ok d -> 0 <= N -> grants N d s gl m d' s' -> (c, l, g) ∈ gl ->
  cluster_of (d_numaId d) c s = Some cl -> base_layer s (d_numaId d) c l = Some b ->
  g_start g = FindFirstIdlePos (busy_map d cl b) 0 (g_nrCpus g) ∧ g_start g <> -1.
Proof.
  intros Hwf Hd HN Hg Hin Ec Eb. induction Hg as [|gl m d1 s1 op Hg IH Eop Hlt|gl m d1 s1 c1 l1 g1 d2 s2 Hg IH Ht].
  - by apply not_elem_of_nil in Hin.
  - by apply IH.
  - apply elem_of_cons in Hin as [[= <- <- <-]|Hin]; [|by apply IH].
    destruct (grants_inv _ _ _ _ _ _ _ Hg Hwf Hd) as (Hwf1 & _ & Hs). pose proof (grants_effect _ _ _ _ _ _ _ Hwf Hd HN Hg) as R.
    pose proof Ht as (cl1 & ly1 & Ec1 & El1 & _ & Hne & _). assert (Hn : d_numaId d1 = d_numaId d) by (by rewrite Hs).
    assert (Hm : 0 <= N - m) by (pose proof (re_cpus _ _ _ _ _ _ _ R); lia).
    destruct (took_bounds (N - m) d1 c l s1 g d2 s2 cl1 ly1 Hwf1 Hm Ht Ec1 El1) as (_ & _ & _ & _ & _ & Hst).
    rewrite Hn in *. destruct (re_layer _ _ _ _ _ _ _ R _ _ _ _ El1) as (b' & Eb' & Ely). rewrite Eb in Eb'. injection Eb' as <-.
    unfold run_layer in Ely. rewrite bool_decide_eq_true_2 in Ely by done.
    pose proof (took_new_place _ _ _ _ _ _ _ _ _ _ _ _ Hwf1 Hs R Ht) as Hnew.
    destruct (granted gl c l) as [g0|] eqn:Eg0; [exfalso; apply Hnew, list_elem_of_fmap; exists (c, l, g0); split; [done|by apply granted_Some]|].
    subst ly1. split; [|done]. by rewrite Hst, (busy_map_same d d1 s s1 (d_numaId d) c cl cl1 b).
Qed.

(** The CPUs a domain may take are not scattered. *)
Definition solid (d : VmDomain) (s : Sched) : Prop :=
  forall c l cl b, cluster_of (d_numaId d) c s = Some cl -> base_layer s (d_numaId d) c l = Some b -> unbroken (busy_map d cl b).

Lemma base_layer_cluster s n c l b : base_layer s n c l = Some b -> is_Some (cluster_of n c s).
Proof.
  unfold base_layer. destruct (layer_of n c l s) as [ly|] eqn:El; [|by destruct (cluster_of n c s)].
  apply layer_of_cluster in El as (cl & -> & _). by exists cl.
Qed.

(** A bit that is not busy is idle and allowed. *)
Lemma bit_busy d s n c cl l b i :
  wf T s -> cluster_of n c s = Some cl -> base_layer s n c l = Some b -> 0 <= i < CLUSTER_CPU_NUM T ->
  bit (busy_map d cl b) i = false -> bit (l_usedBitmap b) i = false ∧ bit (commonCpuMap d) (GetStartCpu cl + i) = true.
Proof.
  intros Hwf Ec Eb Hi. destruct (base_layer_static s n c l b Hwf Eb) as (_ & Hsz & _).
  pose proof (cluster_num_small s n c l b Hwf Eb) as Hsmall.
  destruct (wf_static T s Hwf n c cl Ec) as (info & Ei & Ecpu & _).
  destruct (topo_info T Htopo c info Ei) as (_ & Ht & Hn & _ & lo & Elo & Hlo & Hmax). pose proof (topo_max T Htopo).
  assert (Hs : GetStartCpu cl = lo) by (unfold GetStartCpu; by rewrite Ecpu, Elo).
  assert (Hc : cpu_count cl = CLUSTER_CPU_NUM T) by (unfold cpu_count; rewrite Ecpu; lia).
  unfold busy_map, unavailable. rewrite Hs, Hc, !u16_small by lia. rewrite bit_Or.
  2:{ rewrite bsize_Not, bsize_Cut by lia. lia. }
  rewrite bit_Not by (rewrite bsize_Cut; lia). rewrite bit_Cut by lia. intros [H1 H2]%orb_false_iff. split; [done|]. by apply negb_false_iff.
Qed.

(** Where the idle CPUs are not scattered, the area of each group was idle and
    is allowed to the domain. *)
Lemma grants_window N d s gl m d' s' c l g cl b :
  wf T s -> ids_ok d -> 0 <= N -> solid d s -> grants N d s gl m d' s' -> (c, l, g) ∈ gl ->
  cluster_of (d_numaId d) c s = Some cl -> base_layer s (d_numaId d) c l = Some b ->
  window_free (l_usedBitmap b) (g_start g) (g_nrCpus g) ∧
  forall i, g_start g <= i < g_start g + g_nrCpus g -> bit (commonCpuMap d) (GetStartCpu cl + i) = true.
Proof.
  intros Hwf Hd HN Hsol Hg Hin Ec Eb. destruct (grants_start _ _ _ _ _ _ _ _ _ _ cl b Hwf Hd HN Hg Hin Ec Eb) as [Hst Hne].
  pose proof (grants_effect _ _ _ _ _ _ _ Hwf Hd HN Hg) as R. destruct (re_each _ _ _ _ _ _ _ R c l g Hin) as (_ & Hk & H0 & Hend & _).
  pose proof (cluster_num_small s _ c l b Hwf Eb) as Hsmall. destruct (base_layer_static s _ c l b Hwf Eb) as (_ & Hsz & _).
  assert (Hw : window_free (busy_map d cl b) (g_start g) (g_nrCpus g)).
  { rewrite Hst. apply find_first_idle_window; try lia; [|left; by apply (Hsol c l)].
    unfold busy_map. rewrite bsize_Or. unfold unavailable. rewrite bsize_Not, bsize_Cut by apply u16_range.
    unfold cpu_count. destruct (wf_static T s Hwf _ c cl Ec) as (info & Ei & -> & _).
    destruct (topo_info T Htopo c info Ei) as (_ & Ht & -> & _). rewrite u16_small; lia. }
  destruct Hw as (_ & _ & Hw). split.
  - split; [done|]. split; [lia|]. intros i Hi. apply (bit_busy d s (d_numaId d) c cl l b i); try done; [lia|]. by apply Hw.
  - intros i Hi. apply (bit_busy d s (d_numaId d) c cl l b i); try done; [lia|]. by apply Hw.
Qed.

(** The clusters of the groups are clusters of the domain's node only. *)
Lemma grants_node N d s gl m d' s' c l g n cl :
  wf T s -> ids_ok d -> 0 <= N -> grants N d s gl m d' s' -> (c, l, g) ∈ gl -> cluster_of n c s = Some cl -> n = d_numaId d.
Proof.
  intros Hwf Hd HN Hg Hin Ec. pose proof (grants_effect _ _ _ _ _ _ _ Hwf Hd HN Hg) as R.
  destruct (re_present _ _ _ _ _ _ _ R c l g Hin) as [ly El]. destruct (layer_of_cluster _ _ _ _ _ El) as (cl' & Ec' & _).
  destruct (proj1 (re_clusters _ _ _ _ _ _ _ R (d_numaId d) c)) as [cl0 Ec0]; [by exists cl'|].
  destruct (wf_static T s Hwf n c cl Ec) as (info & Ei & _ & <- & _). destruct (wf_static T s Hwf _ c cl0 Ec0) as (info' & Ei' & _ & <- & _). congruence.
Qed.

(** * The first cluster with room *)

(** The layer [l] of the cluster [c] has [nr] idle CPUs, and as many that the domain may use. *)
Definition has_room (nr : Z) (d : VmDomain) (c l : Z) (s : Sched) : Prop :=
  exists cl ly, cluster_of (d_numaId d) c s = Some cl ∧ layer_of (d_numaId d) c l s = Some ly ∧
    nr <= l_idle ly ∧ nr <= Z.of_nat (length (idle_from (busy_map d cl ly) 0)).

Lemma choose_small nr busy ly :
  nr <= l_total ly -> choose nr busy ly = if nr <=? l_idle ly then (FindFirstIdlePos busy 0 nr, nr) else (-1, 0).
Proof.
  intros Hnr. unfold choose. destruct (Z.leb_spec (l_total ly) nr), (Z.eqb_spec (l_total ly) (l_idle ly)); cbn [andb]; try done.
  replace (l_total ly) with nr by lia. rewrite (proj2 (Z.leb_le nr (l_idle ly))) by lia. done.
Qed.

Lemma choose_room nr d c l s cl ly :
  wf T s -> cluster_of (d_numaId d) c s = Some cl -> layer_of (d_numaId d) c l s = Some ly -> 0 < nr <= CLUSTER_CPU_NUM T ->
  (has_room nr d c l s -> (choose nr (busy_map d cl ly) ly).1 <> -1 ∧ (choose nr (busy_map d cl ly) ly).2 = nr) ∧
  (~ has_room nr d c l s -> (choose nr (busy_map d cl ly) ly).1 = -1).
Proof.
  intros Hwf Ec El Hnr. destruct (layer_static _ c cl l ly s Hwf Ec El) as (Ht & _). destruct (bsize_busy d _ c cl ly s l Hwf Ec El) as [Hb Hsm].
  assert (Hf : FindFirstIdlePos (busy_map d cl ly) 0 nr <> -1 <-> nr <= Z.of_nat (length (idle_from (busy_map d cl ly) 0))).
  { rewrite find_first_idle_eq by lia. rewrite (proj2 (Z.ltb_lt 0 nr)) by lia. cbn [andb].
    destruct (Z.leb_spec nr (Z.of_nat (length (idle_from (busy_map d cl ly) 0)))) as [Hle|]; [|split; [done|lia]]. split; [done|]. intros _.
    destruct (idle_from (busy_map d cl ly) 0) as [|p r] eqn:E; [cbn in Hle; lia|].
    destruct (idle_from_head _ 0 p r ltac:(lia) E) as (Hp & _). cbn. lia. }
  assert (Hroom : has_room nr d c l s <-> nr <= l_idle ly ∧ FindFirstIdlePos (busy_map d cl ly) 0 nr <> -1).
  { rewrite Hf. unfold has_room. rewrite Ec, El. split; [|intros [H1 H2]; by exists cl, ly].
    intros (cl' & ly' & [= <-] & [= <-] & H1 & H2). done. }
  rewrite choose_small by lia. destruct (Z.leb_spec nr (l_idle ly)) as [Hle|Hgt]; cbn [fst snd].
  - split; [intros [_ H1]%Hroom; done|]. intros Hn. destruct (Z.eq_dec (FindFirstIdlePos (busy_map d cl ly) 0 nr) (-1)); [done|].
    exfalso. by apply Hn, Hroom.
  - split; [intros [H1 _]%Hroom; lia|done].
Qed.

Lemma alloc_clusters_first nr l pre c post d s :
  wf T s -> 0 < nr <= CLUSTER_CPU_NUM T -> 0 <= l < GetOverProvision (d_numaId d) s ->
  Forall (fun c => is_Some (cluster_of (d_numaId d) c s)) (pre ++ c :: post) ->
  (forall c', c' ∈ pre -> ~ has_room nr d c' l s) -> has_room nr d c l s ->
  twp (alloc_from_clusters T nr l (pre ++ c :: post) d) (fun r s' => exists g, took nr d c l s g r.2 s' ∧ g_nrCpus g = nr ∧ r.1 = nr) s.
Proof.
  intros Hwf Hnr Hl Hall Hpre Hc. induction pre as [|c1 pre IH]; cbn [app] in *; apply Forall_cons in Hall as [[cl Ec] Hall].
  - apply (alloc_clusters_turn nr l c cl post d s _ Hwf Ec Hl). destruct (wf_layer T s _ c cl l Hwf Ec Hl) as [ly El].
    destruct (choose_room nr d c l s cl ly Hwf Ec El Hnr) as [Hyes _]. destruct (Hyes Hc) as [Hne H2].
    intros [k d'] s' [([= -> ->] & -> & Hno)|(g & Ht & Hk)]; cbn [fst snd] in *; [by rewrite (Hno ly El) in Hne|].
    pose proof Ht as (cl' & ly' & Ec' & El' & Hch & _). rewrite Ec in Ec'. injection Ec' as <-. rewrite El in El'. injection El' as <-.
    rewrite Hch in H2. cbn in H2. rewrite (proj2 (Z.eqb_neq k 0)) by lia. apply twp_ret. exists g. cbn. by rewrite Hk.
  - apply (alloc_clusters_turn nr l c1 cl (pre ++ c :: post) d s _ Hwf Ec Hl). destruct (wf_layer T s _ c1 cl l Hwf Ec Hl) as [ly El].
    destruct (choose_room nr d c1 l s cl ly Hwf Ec El Hnr) as [_ Hno].
    intros [k d'] s' [([= -> ->] & -> & _)|(g & Ht & Hk)]; cbn [fst snd] in *.
    + apply IH; [done|]. intros c' Hc'. apply Hpre. by right.
    + exfalso. destruct Ht as (cl' & ly' & Ec' & El' & Hch & Hne & _). rewrite Ec in Ec'. injection Ec' as <-. rewrite El in El'. injection El' as <-.
      apply Hne. rewrite Hch in Hno. apply Hno, Hpre. left.
Qed.

Lemma alloc_layers_first nr d c s fuel :
  wf T s -> 0 < nr <= CLUSTER_CPU_NUM T -> has_room nr d c 0 s -> (forall c', c' < c -> ~ has_room nr d c' 0 s) ->
  twp (alloc_from_layers T cf (S fuel) nr 0 d) (fun r s' => exists g, took nr d c 0 s g r.2 s' ∧ g_nrCpus g = nr ∧ r.1 = nr) s.
Proof.
  intros Hwf Hnr Hroom Hbefore. pose proof Hroom as (cl & ly & Ec & _). unfold cluster_of in Ec.
  destruct (numaClusterMap_ s !! d_numaId d) as [cs|] eqn:Ecs; [|done]. cbn in Ec. cbn [alloc_from_layers].
  destruct (wf_op_of T s (d_numaId d) cs Hwf Ecs) as (op & Eop & Hop).
  assert (Hl : GetOverProvision (d_numaId d) s = op) by (unfold GetOverProvision; by rewrite Eop).
  apply twp_bind, twp_gets. rewrite (proj2 (Z.leb_gt _ 0)) by lia. apply twp_bind, twp_gets. rewrite Ecs. cbn [default from_option id].
  destruct (map_keys_split cs c) as (pre & post & Ek & Hpre); [by exists cl|]. rewrite Ek. apply twp_bind.
  eapply twp_mono; [apply (alloc_clusters_first nr 0 pre c post); try done; [lia| |]|].
  - pose proof (map_keys_clusters (d_numaId d) s) as Hall. rewrite Ecs in Hall. cbn in Hall. by rewrite Ek in Hall.
  - intros c' Hin. apply Hbefore. by apply Hpre.
  - intros [k d'] s' (g & Ht & Hk & Hk2). cbn [fst snd] in *. rewrite (proj2 (Z.eqb_neq k 0)) by lia. cbn [negb].
    apply twp_ret. by exists g.
Qed.

(** A domain that fits in one cluster is put in the first cluster of the first
    layer that has room for it. *)
Lemma alloc_first d c s :
  wf T s -> isReScheded d = false -> 0 < demand d <= CLUSTER_CPU_NUM T -> demand d <= GetNumaTotalCpus (d_numaId d) s ->
  has_room (demand d) d c 0 s -> (forall c', c' < c -> ~ has_room (demand d) d c' 0 s) ->
  twp (Alloc T cf d) (fun r s' => r.1 = VAS_OK ∧ exists g, took (demand d) d c 0 s g r.2 s' ∧ g_nrCpus g = demand d) s.
Proof.
  intros Hwf Hre Hdem Htot Hroom Hbefore. pose proof Hroom as (cl & ly & Ec & El & _). destruct (bsize_busy d _ c cl ly s 0 Hwf Ec El) as [_ Hsm].
  unfold Alloc. destruct (Z.eqb_spec (GetGranularity T cf) 0) as [E|Hne]; [unfold demand in Hdem; rewrite E, Z.mul_0_r in Hdem; change (u32 0) with 0 in Hdem; lia|].
  rewrite Hre. fold (demand d). rewrite (proj2 (Z.ltb_ge 65535 (demand d))) by lia.
  apply twp_bind, twp_gets. rewrite (proj2 (Z.ltb_ge _ (demand d))) by lia.
  destruct (Z.to_nat (demand d)) as [|fuel] eqn:Ef; [lia|]. cbn [alloc_loop]. rewrite (proj2 (Z.eqb_neq (demand d) 0)) by lia.
  apply twp_bind. unfold AllocClusterGroupToDomain. apply twp_bind, twp_gets. unfold cluster_of in Ec.
  destruct (numaClusterMap_ s !! d_numaId d) as [cs|]; [|done].
  eapply twp_mono; [by apply (alloc_layers_first (demand d) d c s 256)|]. intros [k d'] s' (g & Ht & Hk & Hk2). cbn [fst snd] in *.
  rewrite (proj2 (Z.eqb_neq k 0)) by lia. rewrite Hk2, Z.sub_diag. change (u16 0) with 0.
  destruct fuel; cbn [alloc_loop]; apply twp_ret; (split; [done|]); by exists g.
Qed.
End Alloc.
