(* ===== verification/ClusterSchedOps.v ===== *)
(** The other operations of the scheduler keep [wf]: pinning and unpinning,
    recording and dropping domains, the compaction and the public functions.

    A lemma with [twp] also says that the operation is defined; those that go
    through the cleaning of dead threads are stated with [wp]. *)

From S2P Require Import Prelude VasLib DynamicBitset ClusterVm ClusterSched ClusterSchedFacts ClusterSchedInv ClusterSchedAlloc.

Lemma twp_to_wp {S A} (m : M S A) Q s : twp m Q s -> wp m Q s.
Proof. intros (a & s1 & E & HQ) a' s1' E'. rewrite E in E'. by injection E' as <- <-. Qed.

Lemma twp_and {S A} (m : M S A) P Q s : twp m P s -> twp m Q s -> twp m (fun a s' => P a s' ∧ Q a s') s.
Proof. intros (a & s1 & E & HP) HQ%twp_to_wp. exists a, s1. split; [done|]. split; [done|]. by apply HQ. Qed.

(** A loop keeps an invariant that its body keeps and always has an outcome. *)
Lemma twp_mfold_inv {S A B} (body : A -> B -> M S B) (I : B -> S -> Prop) l b s :
  I b s -> (forall x b s, x ∈ l -> I b s -> twp (body x b) I s) -> twp (mfold body l b) I s.
Proof.
  revert b s. induction l as [|x l IH]; intros b s HI Hstep; [by apply twp_ret|]. cbn [mfold]. apply twp_bind.
  eapply twp_mono; [apply Hstep; [left|done]|]. intros b1 s1 HI1. apply IH; [done|]. intros y b2 s2 Hy. apply Hstep. by right.
Qed.

Lemma twp_mfor_inv {S A} (body : A -> M S unit) (I : S -> Prop) l s :
  I s -> (forall x s, x ∈ l -> I s -> twp (body x) (fun _ => I) s) -> twp (mfor body l) (fun _ => I) s.
Proof. intros HI Hstep. apply (twp_mfold_inv _ (fun _ => I)); [done|]. intros x _ s1 Hx. by apply Hstep. Qed.

Section Ops.
Context (T : CpuHelper) (cf : VasdConf) (H : Host) (Htopo : topo_ok T).

(** * Pinning *)

(** Only the requests to the host and the files it wrote have changed. *)
Definition host_step (s s' : Sched) : Prop := s' = set_host (host_tick s') (cgroup_writes s') s.

Lemma host_step_refl s : host_step s s.
Proof. by destruct s. Qed.

Lemma host_step_trans s1 s2 s3 : host_step s1 s2 -> host_step s2 s3 -> host_step s1 s3.
Proof. unfold host_step. intros E1 E2. rewrite E2, E1. done. Qed.

Lemma host_step_wf s s' : host_step s s' -> wf T s -> wf T s'.
Proof. intros ->. apply wf_set_host. Qed.

Lemma ask_spec s : twp (ask H) (fun _ s' => host_step s s') s.
Proof. unfold twp, ask. eexists _, _. split; [reflexivity|]. done. Qed.

Lemma cgroup_path_spec u s : twp (GetVmCgroupPath H u) (fun _ s' => host_step s s') s.
Proof.
  unfold GetVmCgroupPath. apply twp_bind. eapply twp_mono; [apply ask_spec|]. intros a s' Hs.
  destruct (negb (h_virConnect a) || negb (h_lookup a u)); [by apply twp_ret|].
  destruct (isIntInvalid _); [by apply twp_ret|]. destruct (h_cgroupDirs a); [|by apply twp_ret].
  destruct (head _); by apply twp_ret.
Qed.

Lemma cpuset_spec p t b i s : twp (SetVmCpuset H p t b i) (fun _ s' => host_step s s') s.
Proof.
  unfold SetVmCpuset. apply twp_bind. eapply twp_mono; [apply ask_spec|]. intros a s' Hs.
  destruct (negb (h_capAdd a)); [by apply twp_ret|]. destruct (negb (h_open a)); [by apply twp_ret|].
  destruct (negb (h_put a)); [by apply twp_ret|]. apply twp_bind.
  assert (Hw : twp (if h_flush a then modify (fun s => set_host (host_tick s) ((cpuset_file p t i, GetCpuSetFromDynamicBitset b) :: cgroup_writes s) s)
     else mret tt) (fun _ s' => host_step s s') s').
  { destruct (h_flush a); [|by apply twp_ret]. apply twp_modify. apply (host_step_trans s s'); done. }
  eapply twp_mono; [exact Hw|]. intros ? s'' Hs''. destruct (negb (h_capDelete a)); by apply twp_ret.
Qed.

(** The domain but for its threads. *)
Definition same_but_pids (d d' : VmDomain) : Prop := d' = set_pidVcpuMap (pidVcpuMap d') d ∧ pidVcpuMap d ⊆ pidVcpuMap d'.

Lemma same_but_pids_refl d : same_but_pids d d.
Proof. split; [by destruct d|done]. Qed.

Lemma same_but_pids_trans d1 d2 d3 : same_but_pids d1 d2 -> same_but_pids d2 d3 -> same_but_pids d1 d3.
Proof. intros [E1 S1] [E2 S2]. split; [by rewrite E2, E1|]. by etrans. Qed.

Lemma same_but_pids_ids d d' : same_but_pids d d' -> ids_ok d -> ids_ok d'.
Proof. intros [-> _]. done. Qed.

Lemma vcpu_at_same pid d : same_but_pids d (vcpu_at pid d).2.
Proof.
  unfold vcpu_at. destruct (pidVcpuMap d !! pid) eqn:E; [apply same_but_pids_refl|]. split; [done|]. by apply insert_subseteq.
Qed.

Lemma affinity_spec d pid cpu c s :
  twp (SetVcpuAffinity T cf H d pid cpu c) (fun r s' => host_step s s' ∧ same_but_pids d r.2) s.
Proof.
  unfold SetVcpuAffinity. apply twp_bind. eapply twp_mono; [apply cgroup_path_spec|]. intros [ret p] s1 Hs1.
  destruct (isVasRetFail ret); [apply twp_ret; split; [done|apply same_but_pids_refl]|].
  pose proof (vcpu_at_same pid d) as Hd. destruct (vcpu_at pid d) as [v d1]. cbn [snd] in Hd.
  assert (Hlast : forall t b s2, host_step s s2 -> twp (ret ← SetVmCpuset H p t b v; mret (ret, d1)) (fun r s' => host_step s s' ∧ same_but_pids d r.2) s2).
  { intros t b s2 Hs2. apply twp_bind. eapply twp_mono; [apply cpuset_spec|]. intros r s3 Hs3. apply twp_ret. split; [|done]. by apply (host_step_trans s s2). }
  case_bool_decide; [|by apply Hlast]. apply twp_bind. eapply twp_mono; [apply cpuset_spec|]. intros r s2 Hs2.
  assert (Hs : host_step s s2) by (by apply (host_step_trans s s1)).
  destruct (isVasRetFail r); [by apply twp_ret|]. apply twp_bind, twp_gets.
  destruct (cluster_of (d_numaId d1) c s2); [by apply Hlast|by apply twp_ret].
Qed.

Lemma same_place_add e k g : same_place g (AddEntityToGroup e k g).
Proof. done. Qed.

Lemma group_at_wf k s : wf T s -> twp (group_at k) (fun g s' => wf T s' ∧ groupMap_ s' !! k = Some g ∧ domainMap_ s' = domainMap_ s) s.
Proof.
  intros Hwf. unfold group_at, twp. destruct (groupMap_ s !! k) as [g|] eqn:E; eexists _, _; (split; [reflexivity|]); [done|].
  split; [|split; [apply lookup_insert_eq|done]]. apply wf_insert_group; [done|]. intros n c l ly El Hin.
  destruct (wf_filed T s Hwf n c l ly k El Hin) as (g & u & Eg & _). by rewrite E in Eg.
Qed.

Lemma assign_in_groups_wf d pid gs s :
  wf T s -> twp (assign_in_groups T cf H d pid gs) (fun r s' => wf T s' ∧ same_but_pids d r.2 ∧ domainMap_ s' = domainMap_ s) s.
Proof.
  revert s. induction gs as [|gid gs IH]; intros s Hwf; cbn [assign_in_groups]; [apply twp_ret; split_and!; [done|apply same_but_pids_refl|done]|].
  apply twp_bind. eapply twp_mono; [by apply group_at_wf|]. intros g s1 (Hwf1 & Eg & Ed).
  assert (Hnext : twp (assign_in_groups T cf H d pid gs) (fun r s' => wf T s' ∧ same_but_pids d r.2 ∧ domainMap_ s' = domainMap_ s) s1).
  { eapply twp_mono; [by apply IH|]. intros r s' (? & ? & E). split_and!; try done. by rewrite E. }
  destruct (isIntInvalid _ || _); [done|]. apply twp_bind, twp_gets. destruct (cluster_of _ _ s1) as [cl|]; [|done].
  apply twp_bind. eapply twp_mono; [apply affinity_spec|]. intros [ret d1] s2 [Hs2 Hd1]. cbn [snd] in Hd1.
  pose proof (host_step_wf s1 s2 Hs2 Hwf1) as Hwf2. assert (Ed2 : domainMap_ s2 = domainMap_ s) by (rewrite Hs2; done).
  assert (Eg2 : groupMap_ s2 !! gid = Some g) by (by rewrite Hs2).
  destruct (isVasRetFail ret); [by apply twp_ret|]. apply twp_bind. unfold GenEntity. apply twp_bind, twp_modify, twp_ret, twp_bind, twp_modify, twp_ret.
  split_and!; try done. apply (wf_update_group T gid g); [by apply wf_set_entityMap|done|apply same_place_add].
Qed.

Lemma assign_wf d s :
  wf T s -> twp (Assign T cf H d) (fun r s' => wf T s' ∧ same_but_pids d r.2 ∧ domainMap_ s' = domainMap_ s) s.
Proof.
  intros Hwf. unfold Assign.
  apply (twp_mfold_inv _ (fun r s' => wf T s' ∧ same_but_pids d r.2 ∧ domainMap_ s' = domainMap_ s)); [split_and!; [done|apply same_but_pids_refl|done]|].
  intros pid [ret d1] s1 _ (Hwf1 & Hd1 & Ed1). cbn [snd] in Hd1. apply twp_bind, twp_gets. destruct (entityMap_ s1 !! pid); [by apply twp_ret|].
  apply twp_bind. eapply twp_mono; [by apply assign_in_groups_wf|]. intros [ret2 d2] s2 (Hwf2 & Hd2 & Ed2). apply twp_ret. split_and!; [done| |by rewrite Ed2].
  by apply (same_but_pids_trans d d1).
Qed.

Lemma unassign_group_wf gid s : wf T s -> twp (unassign_group gid) (fun _ s' => wf T s' ∧ domainMap_ s' = domainMap_ s) s.
Proof.
  intros Hwf. unfold unassign_group. apply twp_bind, twp_gets. destruct (groupMap_ s !! gid) as [g|] eqn:Eg; [|by apply twp_ret].
  apply twp_bind. eapply twp_mono.
  - apply (twp_mfold_inv _ (fun g' s' => wf T s' ∧ same_place g g' ∧ groupMap_ s' = groupMap_ s ∧ domainMap_ s' = domainMap_ s)); [done|].
    intros pid g1 s1 _ (Hwf1 & Hp & E1 & E2). apply twp_bind, twp_gets. destruct (entityMap_ s1 !! pid); [|by apply twp_ret].
    apply twp_bind, twp_modify, twp_ret. split_and!; try done. by apply wf_set_entityMap.
  - intros g1 s1 (Hwf1 & Hp & E1 & E2). apply twp_modify. split; [|done]. apply (wf_update_group T gid g); [done|by rewrite E1|done].
Qed.

Lemma unassign_wf d s : wf T s -> twp (Unassign d) (fun _ s' => wf T s' ∧ domainMap_ s' = domainMap_ s) s.
Proof.
  intros Hwf. apply (twp_mfor_inv _ (fun s' => wf T s' ∧ domainMap_ s' = domainMap_ s)); [done|]. intros gid s1 _ [Hwf1 E1].
  eapply twp_mono; [by apply unassign_group_wf|]. intros ? s2 [Hwf2 E2]. split; [done|]. by rewrite E2.
Qed.

Lemma free_twp d s :
  wf T s -> ids_ok d -> twp (Free d) (fun r s' => wf T s' ∧ r = set_d_groups ∅ d ∧ domainMap_ s' = domainMap_ s) s.
Proof.
  intros Hwf Hd. eexists _, _. split; [apply free_eq|]. split_and!; [by apply free_wf|done|]. apply free_rest.
Qed.

(** * Domains *)

Definition same_key (d d' : VmDomain) : Prop := d_uuid d' = d_uuid d ∧ d_numaId d' = d_numaId d.

Lemma alloc_twp d s :
  wf T s -> ids_ok d ->
  twp (Alloc T cf d) (fun r s' => wf T s' ∧ ids_ok r.2 ∧ same_domain d r.2 ∧ domainMap_ s' = domainMap_ s ∧ entityMap_ s' = entityMap_ s) s.
Proof.
  intros Hwf Hd. assert (HN : 0 <= demand T cf d) by apply Z.mod_pos_bound, eq_refl.
  eapply twp_mono; [exact (twp_and _ _ _ _ (alloc_wf T cf Htopo d s Hwf Hd) (alloc_spec T cf Htopo d s Hwf Hd))|]. intros [ret d2] s2 [(W1 & W2 & W3) Hor]. split_and!; [done..| |];
    destruct Hor as [(_ & -> & _)|(_ & [(_ & gl & Hg)|(_ & gl & m & d1 & s1 & Hg & _ & _ & ->)])]; try done.
  1,3: by apply (re_rest _ _ _ _ _ _ _ _ (grants_effect T Htopo _ _ _ _ _ _ _ Hwf Hd HN Hg)).
  1: destruct (free_rest (d_numaId d1) (set_list (d_groups d1)) s1) as (_ & -> & _).
  2: destruct (free_rest (d_numaId d1) (set_list (d_groups d1)) s1) as (_ & _ & -> & _).
  all: by apply (re_rest _ _ _ _ _ _ _ _ (grants_effect T Htopo _ _ _ _ _ _ _ Hwf Hd HN Hg)).
Qed.

(** [Alloc] and, when it succeeds, [Assign]. *)
Lemma alloc_assign_twp {B} d s (fail : VmDomain -> M Sched B) (k : Z -> VmDomain -> M Sched B) Q :
  wf T s -> ids_ok d ->
  (forall d' s', wf T s' -> ids_ok d' -> same_key d d' -> domainMap_ s' = domainMap_ s -> twp (fail d') Q s') ->
  (forall r d' s', wf T s' -> ids_ok d' -> same_key d d' -> domainMap_ s' = domainMap_ s -> twp (k r d') Q s') ->
  twp ('(ret, d') ← Alloc T cf d; if isVasRetFail ret then fail d' else '(ret, d') ← Assign T cf H d'; k ret d') Q s.
Proof.
  intros Hwf Hd Hf Hk. apply twp_bind. eapply twp_mono; [by apply alloc_twp|]. intros [ret d1] s1 (Hwf1 & Hd1 & Hs1 & Em & _). cbn [snd] in *.
  assert (Hk1 : same_key d d1) by (unfold same_key; by rewrite Hs1).
  destruct (isVasRetFail ret); [by apply Hf|]. apply twp_bind. eapply twp_mono; [by apply assign_wf|].
  intros [ret2 d2] s2 (Hwf2 & Hd2 & Em2). cbn [snd] in *. apply Hk; [done|by apply (same_but_pids_ids d1)| |by rewrite Em2].
  destruct Hd2 as [-> _]. done.
Qed.

Lemma ids_ok_flag b d : ids_ok d -> ids_ok (set_isReScheded b d).
Proof. done. Qed.

Lemma resched_wf ds s : wf T s -> Forall ids_ok ds -> twp (ReSched T cf H ds) (fun _ s' => wf T s') s.
Proof.
  revert s. induction ds as [|d ds IH]; intros s Hwf Hall; cbn [ReSched]; [by apply twp_ret|]. apply Forall_cons in Hall as [Hd Hall].
  apply twp_bind. eapply twp_mono; [by apply alloc_twp|]. intros [ret d1] s1 (Hwf1 & Hd1 & _). cbn [snd] in *.
  destruct (isVasRetFail ret); [by apply twp_ret|]. apply twp_bind. eapply twp_mono; [by apply assign_wf|].
  intros [ret2 d2] s2 (Hwf2 & Hd2 & _). cbn [snd] in *. apply twp_bind, twp_modify. apply IH; [|done].
  apply wf_insert_domain; [done|done|]. apply ids_ok_flag. by apply (same_but_pids_ids d1).
Qed.

Lemma deresched_wf ds s : wf T s -> Forall ids_ok ds -> twp (DeReSched ds) (fun _ s' => wf T s') s.
Proof.
  intros Hwf Hall. unfold DeReSched. apply twp_bind. eapply twp_mono.
  - apply (twp_mfor_inv _ (wf T)); [done|]. intros d s1 Hin Hwf1. apply twp_bind. eapply twp_mono; [by apply unassign_wf|].
    intros ? s2 [Hwf2 _]. apply twp_bind. eapply twp_mono; [apply free_twp; [done|]|].
    { apply ids_ok_flag. rewrite Forall_forall in Hall. by apply Hall. }
    intros d' s3 (Hwf3 & _). apply twp_modify. by apply wf_delete_domain.
  - intros ? s1 Hwf1. by apply twp_ret.
Qed.

(** A traversal of the domains keeps [wf] when its body does and stores a
    domain of the same key back. *)
Lemma for_domains_wf body s :
  wf T s -> (forall d s, wf T s -> ids_ok d -> twp (body d) (fun d' s' => wf T s' ∧ ids_ok d' ∧ same_key d d') s) ->
  twp (for_domains H body) (fun _ s' => wf T s') s.
Proof.
  intros Hwf Hb. unfold for_domains. apply twp_bind. eapply twp_mono; [apply ask_spec|]. intros a s0 Hs0.
  pose proof (host_step_wf s s0 Hs0 Hwf) as Hwf0. apply twp_bind, twp_gets. apply (twp_mfor_inv _ (wf T)); [done|].
  intros key s1 _ Hwf1. apply twp_bind, twp_gets. destruct (domainMap_ s1 !! key) as [d|] eqn:Ed; [|by apply twp_ret].
  destruct (wf_domain T s1 Hwf1 key d Ed) as [Hkey Hd]. apply twp_bind. eapply twp_mono; [by apply Hb|]. intros d' s2 (Hwf2 & Hd' & [E1 E2]).
  apply twp_modify. apply wf_insert_domain; [done| |done]. by rewrite E1, E2.
Qed.

Lemma resched_started_wf s : wf T s -> twp (ReSchedStartedVmsWithoutLock T cf H) (fun _ s' => wf T s') s.
Proof.
  intros Hwf. apply for_domains_wf; [done|]. intros d s1 Hwf1 Hd. apply alloc_assign_twp; [done..| |].
  - intros d' s' Hw Hd' Hk _. by apply twp_ret.
  - intros r d' s' Hw Hd' Hk _. by apply twp_ret.
Qed.

Lemma domains_by_uuid_spec u s : wf T s -> twp (GetDomainsByUuid H u) (fun ds s' => wf T s' ∧ Forall ids_ok ds) s.
Proof.
  intros Hwf. unfold GetDomainsByUuid. apply twp_bind. eapply twp_mono; [apply ask_spec|]. intros a s0 Hs0.
  pose proof (host_step_wf s s0 Hs0 Hwf) as Hwf0. apply twp_bind, twp_gets, twp_ret. split; [done|]. apply Forall_forall.
  intros d [_ (k & _ & E)%list_elem_of_omap]%list_elem_of_filter. by apply (wf_domain T s0 Hwf0) in E as [_ Hd].
Qed.

(** * Recording VMs *)

Lemma common_map_defined (m : gmap Z DynamicBitset) : m <> ∅ -> is_Some (GetCommonCpuMap m).
Proof.
  intros Hne. unfold GetCommonCpuMap. destruct (map_keys m) as [|k ks] eqn:E.
  - exfalso. apply Hne. apply map_eq. intros k. rewrite lookup_empty. destruct (m !! k) eqn:Ek; [|done].
    assert (k ∈ map_keys m) as Hk by (apply elem_of_map_keys; by rewrite Ek). rewrite E in Hk. by apply not_elem_of_nil in Hk.
  - cbn. assert (is_Some (m !! k)) as [b ->] by (apply elem_of_map_keys; rewrite E; left). cbn. by eexists.
Qed.

Lemma fold_insert_nonempty (l : list (Z * VcpuInfo)) (m : gmap Z DynamicBitset) :
  l <> [] ∨ m <> ∅ -> foldl (fun m '(vcpu, info) => <[vcpu := v_cpuMaps info]> m) m l <> ∅.
Proof.
  revert m. induction l as [|[v i] l IH]; intros m Hor; cbn [foldl]; [by destruct Hor|]. apply IH. right. apply insert_non_empty.
Qed.

Lemma update_domain_wf vm m s :
  wf T s -> vcpuMap vm <> [] -> twp (UpdateDomainInfoWithoutLock vm m) (fun r s' => wf T s' ∧ ids_ok r.2) s.
Proof.
  intros Hwf Hvm. unfold UpdateDomainInfoWithoutLock. apply twp_bind, twp_gets. destruct (SelectVmNuma vm m s) as [[ret m'] n].
  destruct (isVasRetFail ret); [apply twp_ret; split; [done|by intros ? ?]|]. apply twp_bind, twp_gets.
  destruct (domainMap_ s !! domain_key (i_uuid vm) n) as [d|] eqn:Ed.
  - apply twp_ret. split; [done|]. by apply (wf_domain T s Hwf) in Ed as [_ ?].
  - destruct (common_map_defined (foldl (fun m '(vcpu, info) => <[vcpu := v_cpuMaps info]> m) ∅ (vcpuMap vm))) as [b Eb].
    { apply fold_insert_nonempty. by left. }
    apply twp_bind. exists b, s. unfold lift_opt. rewrite Eb. split; [done|]. apply twp_bind, twp_modify, twp_ret.
    assert (Hids : forall p, ids_ok (mkDomain (i_uuid vm) (i_name vm) n (i_tgid vm) p b ∅ ∅ false)) by (by intros p gid Hin).
    split; [|apply Hids]. apply wf_insert_domain; [done|done|apply Hids].
Qed.

Lemma update_domains_wf vms s :
  wf T s -> Forall (fun vm => vcpuMap vm <> []) vms -> twp (UpdateDomainInfosWithoutLock vms) (fun _ s' => wf T s') s.
Proof.
  intros Hwf Hall. unfold UpdateDomainInfosWithoutLock. apply twp_bind, twp_gets, twp_bind. eapply twp_mono.
  - apply (twp_mfold_inv _ (fun _ s' => wf T s')); [done|]. intros vm m s1 Hin Hwf1. apply twp_bind.
    eapply twp_mono; [apply update_domain_wf; [done|]|]; [rewrite Forall_forall in Hall; by apply Hall|].
    intros [[r m'] d] s2 [Hwf2 _]. by apply twp_ret.
  - intros ? s1 Hwf1. by apply twp_ret.
Qed.

(** * Starting over *)

Lemma recover_wf vms s : wf T s -> twp (RecoverVmVcpu_ T H vms) (fun _ s' => host_step s s') s.
Proof.
  intros Hwf. apply (twp_mfor_inv _ (host_step s)); [apply host_step_refl|]. intros vm s1 _ Hs1. apply twp_bind.
  eapply twp_mono; [apply cgroup_path_spec|]. intros [ret p] s2 Hs2. pose proof (host_step_trans _ _ _ Hs1 Hs2) as Hs.
  destruct (isVasRetFail ret); [by apply twp_ret|]. apply (twp_mfor_inv _ (host_step s)); [done|]. intros [v i] s3 _ Hs3.
  apply twp_bind. eapply twp_mono; [apply cpuset_spec|]. intros ? s4 Hs4. apply twp_bind. eapply twp_mono; [apply cpuset_spec|].
  intros ? s5 Hs5. apply twp_ret. exact (host_step_trans _ _ _ Hs3 (host_step_trans _ _ _ Hs4 Hs5)).
Qed.

Lemma fold_ones ks (o : gmap Z Z) n :
  foldl (fun m n => <[n := 1]> m) o ks !! n = if decide (n ∈ ks) then Some 1 else o !! n.
Proof.
  revert o. induction ks as [|k ks IH]; intros o; cbn [foldl]; [by destruct (decide _) as [[]%elem_of_nil|]|].
  rewrite IH. destruct (decide (n ∈ ks)) as [Hin|Hout].
  - rewrite decide_True; [done|by right].
  - destruct (decide (n = k)) as [->|Hne].
    + rewrite lookup_insert_eq, decide_True; [done|left].
    + rewrite lookup_insert_ne by done. rewrite decide_False; [done|]. by intros [->|?]%elem_of_cons.
Qed.

Lemma extra_layers_ones o : (forall n op, o !! n = Some op -> op = 1) -> extra_layers o = 0.
Proof.
  unfold extra_layers. induction o as [|n op o Ho IH] using map_ind; intros Hop; [by rewrite map_fold_empty|].
  rewrite (map_fold_insert_L _ _ n op o); [|intros; lia|done]. assert (op = 1) as -> by (apply (Hop n); by rewrite lookup_insert_eq).
  rewrite IH; [done|]. intros n' op' E'. apply (Hop n'). rewrite lookup_insert_ne; [done|congruence].
Qed.

(** The fresh layer of a cluster has its size. *)
Lemma fresh_layer_fits info : layer_fits info (fresh_layer info).
Proof. unfold layer_fits, fresh_layer. cbn. split_and!; try done; apply u16_range. Qed.

(** One layer per cluster, no group and no entity. *)
Lemma restore_wf s : wf T s -> wf T (RestoreVmInfoWithoutLock T s).
Proof.
  intros Hwf. unfold RestoreVmInfoWithoutLock. set (F := fun c cl => set_clusterLayers [fresh_layer (topology_of T c)] cl).
  set (o := foldl _ _ _).
  assert (Ho : forall n op, o !! n = Some op -> op = 1 ∧ n ∈ dom (numaClusterMap_ s)).
  { intros n op. unfold o. rewrite fold_ones. destruct (decide _) as [Hin|Hout].
    - intros [= <-]. split; [done|]. rewrite <-(dom_map_clusters F). apply elem_of_dom. by apply elem_of_map_keys.
    - cbn. intros E. contradict Hout. apply elem_of_map_keys. apply elem_of_dom. rewrite (dom_map_clusters F). rewrite <-(wf_dom T s Hwf).
      apply elem_of_dom. by exists op. }
  assert (Hc : forall n c cl, F c <$> cluster_of n c s = Some cl -> exists cl0, cluster_of n c s = Some cl0 ∧ cl = F c cl0).
  { intros n c cl. destruct (cluster_of n c s) as [cl0|]; [|done]. intros [= <-]. by exists cl0. }
  set (s1 := map_clusters F s). set (s' := mkSched _ _ _ _ _ _ _ _).
  assert (Hcl : forall n c, cluster_of n c s' = F c <$> cluster_of n c s) by (intros; apply cluster_of_map_clusters).
  split.
  - change (dom o = dom (numaClusterMap_ (map_clusters F s))). rewrite dom_map_clusters. apply set_eq. intros n. rewrite !elem_of_dom. split.
    + intros [op E]. apply Ho in E as [_ Hin]. by apply elem_of_dom.
    + intros Hin. unfold o. rewrite fold_ones, decide_True; [by eexists|]. apply elem_of_map_keys, elem_of_dom. by rewrite (dom_map_clusters F), elem_of_dom.
  - intros n op E. apply Ho in E as [-> _]. unfold maxOverProvision. lia.
  - intros n c cl. rewrite Hcl. intros (cl0 & E & ->)%Hc. destruct (wf_cluster T s Hwf n c cl0 E) as (E1 & E2 & _). split_and!; [done..|].
    change (1 = 1 + extra_layers o). rewrite extra_layers_ones; [done|]. intros ? ? ?%Ho. tauto.
  - intros n c l ly gid. unfold layer_of. rewrite Hcl. destruct (cluster_of n c s); [|done]. cbn. destruct (0 <=? l); [|done].
    intros [_ <-]%list_lookup_singleton_Some. by intros Hin%elem_of_empty.
  - intros k d. cbn. rewrite lookup_fmap. intros (d0 & E & ->)%fmap_Some. destruct (wf_domain T s Hwf k d0 E) as [Ek _]. split; [done|]. by intros gid Hin.
  - intros n c cl. rewrite Hcl. intros (cl0 & E & ->)%Hc. destruct (wf_static T s Hwf n c cl0 E) as (info & E1 & E2 & E3 & _). exists info.
    split_and!; try done. cbn. unfold topology_of. rewrite E1. apply Forall_singleton. apply fresh_layer_fits.
Qed.
End Ops.
