(* ===== verification/ClusterSchedReach.v ===== *)
(** The compaction keeps [wf] and is defined: no layer, cluster or node is
    read that does not exist, and its loops end.  The cleaning of dead threads
    that precedes it keeps [wf] when it is defined. *)

From S2P Require Import Prelude VasLib DynamicBitset ClusterVm ClusterSched ClusterSchedFacts ClusterSchedInv ClusterSchedAlloc ClusterSchedOps.

Section Compact.
Context (T : CpuHelper) (cf : VasdConf) (H : Host).

(** * Moving the threads of a group *)

(** The clusters, degrees and groups are as they were and the domain of [key] is known. *)
Definition same_places (key : string) (s s' : Sched) : Prop :=
  wf T s' ∧ numaClusterMap_ s' = numaClusterMap_ s ∧ overProvision_ s' = overProvision_ s ∧ groupMap_ s' = groupMap_ s ∧
  is_Some (domainMap_ s' !! key).

Lemma same_places_trans key s1 s2 s3 : same_places key s1 s2 -> same_places key s2 s3 -> same_places key s1 s3.
Proof. intros (_ & A1 & A2 & A3 & _) (B0 & B1 & B2 & B3 & B4). split_and!; congruence. Qed.

Lemma same_places_entities key s s' m : same_places key s s' -> same_places key s (set_entityMap m s').
Proof. intros (A0 & A1 & A2 & A3 & A4). split_and!; try done. by apply wf_set_entityMap. Qed.

Lemma migrate_pids_spec g start cl pids backup s :
  wf T s -> is_Some (domainMap_ s !! g_domainKey g) ->
  twp (migrate_pids T cf H g start cl pids backup) (fun _ s' => same_places (g_domainKey g) s s') s.
Proof.
  revert backup s. induction pids as [|pid pids IH]; intros backup s Hwf Hd; cbn [migrate_pids]; [by apply twp_ret|].
  apply twp_bind, twp_gets. destruct (entityMap_ s !! pid) as [e|]; [|by apply twp_ret]. cbn zeta.
  apply twp_bind, twp_modify, twp_bind, twp_gets. destruct Hd as [d Ed]. cbn [domainMap_ set_entityMap]. rewrite Ed. cbn [default from_option].
  apply twp_bind. eapply twp_mono; [apply affinity_spec|]. intros [ret d1] s1 [Hs1 Hd1]. cbn [snd] in Hd1. apply twp_bind, twp_modify.
  destruct (wf_domain T s Hwf _ d Ed) as [Ek Hids].
  set (s2 := set_domainMap _ s1).
  assert (H2 : same_places (g_domainKey g) s s2).
  { assert (Hw1 : wf T s1) by (apply (host_step_wf T _ _ Hs1); by apply wf_set_entityMap). split_and!; try (subst s2; rewrite Hs1; done).
    - apply wf_insert_domain; [done| |by apply (same_but_pids_ids d)]. destruct Hd1 as [-> _]. done.
    - subst s2. cbn. rewrite lookup_insert_eq. by eexists. }
  destruct (isVasRetFail ret).
  - apply twp_bind, twp_modify, twp_bind. eapply twp_mono.
    + apply (twp_mfor_inv _ (same_places (g_domainKey g) s)); [by apply same_places_entities|]. intros [p i] s3 _ H3.
      apply twp_modify. by apply same_places_entities.
    + intros ? s3 H3. by apply twp_ret.
  - destruct H2 as (W & A). eapply twp_mono; [apply IH; [done|apply A]|]. intros ? s3 H3. by apply (same_places_trans _ _ s2).
Qed.

(** The group a successful migration yields. *)
Definition moved_group (g : VmGroup) (start : Z) (cl : Cluster) (l : Z) : VmGroup :=
  mkGroup (g_domainKey g) (group_key (g_domainKey g) (c_id cl) l) (c_id cl) l start
    (g_nrCpus g) (GenDynamicBitSetByArea (CLUSTER_CPU_NUM T) (u16 start) (u16 (g_nrCpus g))) (g_entityPids g).

Lemma migrate_spec g start cl l s :
  wf T s -> is_Some (domainMap_ s !! g_domainKey g) ->
  twp (GroupEntityMigrate T cf H g start cl l)
    (fun r s' => same_places (g_domainKey g) s s' ∧ r.2 = if isVasRetFail r.1 then g else moved_group g start cl l) s.
Proof.
  intros Hwf Hd. unfold GroupEntityMigrate. apply twp_bind. eapply twp_mono; [by apply migrate_pids_spec|]. intros ret s' Hs.
  destruct (isVasRetFail ret) eqn:E; apply twp_ret; split; try done. cbn. by rewrite E.
Qed.

(** * Moving a group *)

(** [gid] is in the layer. *)
Definition in_layer (n c l : Z) (s : Sched) (gid : string) : Prop := exists ly, layer_of n c l s = Some ly ∧ gid ∈ l_groups ly.

Lemma filed_unique gid g g' u u' n c l n' c' l' :
  filed_as gid g u n c l -> filed_as gid g' u' n' c' l' -> n = n' ∧ c = c' ∧ l = l'.
Proof. intros (-> & _) ([(_ & ->)%domain_key_inj [-> ->]]%group_key_inj & _). done. Qed.

(** An id is in at most one layer. *)
Lemma in_layer_unique gid n c l n' c' l' s :
  wf T s -> in_layer n c l s gid -> in_layer n' c' l' s gid -> n = n' ∧ c = c' ∧ l = l'.
Proof.
  intros Hwf (ly & E & Hin) (ly' & E' & Hin'). destruct (wf_filed T s Hwf _ _ _ _ _ E Hin) as (g & u & _ & Hf).
  destruct (wf_filed T s Hwf _ _ _ _ _ E' Hin') as (g' & u' & _ & Hf'). by eapply filed_unique.
Qed.

Lemma in_layer_upd n c l f s n' c' l' gid :
  0 <= l -> in_layer n' c' l' (upd_layer n c l f s) gid ->
  (exists ly, layer_of n c l s = Some ly ∧ gid ∈ l_groups (f ly) ∧ n = n' ∧ c = c' ∧ l = l') ∨ in_layer n' c' l' s gid ∧ ~ (n = n' ∧ c = c' ∧ l = l').
Proof.
  intros Hl (ly & E & Hin). rewrite layer_of_upd in E by done. case_bool_decide as Hb; [|right; split; [by exists ly|done]].
  left. destruct (layer_of n c l s) as [ly0|]; [|done]. injection E as <-. exists ly0. tauto.
Qed.

Lemma in_layer_keep n c l f s n' c' l' gid :
  0 <= l -> (forall ly, gid ∈ l_groups ly -> gid ∈ l_groups (f ly)) -> in_layer n' c' l' s gid -> in_layer n' c' l' (upd_layer n c l f s) gid.
Proof.
  intros Hl Hf (ly & E & Hin). unfold in_layer. rewrite layer_of_upd by done. case_bool_decide as Hb; [|by exists ly].
  destruct Hb as (-> & -> & ->). rewrite E. exists (f ly). split; [done|]. by apply Hf.
Qed.

Lemma cluster_of_upd_layer_is_Some n c l f s n' c' : is_Some (cluster_of n' c' s) -> is_Some (cluster_of n' c' (upd_layer n c l f s)).
Proof. intros Hs. unfold upd_layer. rewrite cluster_of_upd. case_bool_decide as Hb; [|done]. destruct Hb as [-> ->]. by apply fmap_is_Some. Qed.

(** The degrees and the clusters stay. *)
Definition kept (s s' : Sched) : Prop :=
  overProvision_ s' = overProvision_ s ∧ forall n c, is_Some (cluster_of n c s) -> is_Some (cluster_of n c s').

Lemma kept_refl s : kept s s.
Proof. done. Qed.

Lemma kept_trans s1 s2 s3 : kept s1 s2 -> kept s2 s3 -> kept s1 s3.
Proof. intros [E1 H1] [E2 H2]. split; [congruence|auto]. Qed.

Lemma kept_upd_layer n c l f s : kept s (upd_layer n c l f s).
Proof. split; [done|]. intros n' c'. apply cluster_of_upd_layer_is_Some. Qed.

Lemma kept_places k s s' : same_places k s s' -> kept s s'.
Proof. intros (_ & E & Eo & _). split; [done|]. intros n c. unfold cluster_of. by rewrite E. Qed.

Lemma layer_of_places k s s' n c l : same_places k s s' -> layer_of n c l s' = layer_of n c l s.
Proof. intros (_ & E & _). unfold layer_of, cluster_of. by rewrite E. Qed.

Lemma in_layer_places k s s' n c l gid : same_places k s s' -> in_layer n c l s' gid <-> in_layer n c l s gid.
Proof. intros Hs. unfold in_layer. by rewrite (layer_of_places k s s'). Qed.

(** The books of a move that succeeds, once the group has left its layer. *)
Lemma refile_wf old g start cl u n c0 l0 c l s :
  wf T s -> groupMap_ s !! old = Some g -> filed_as old g u n c0 l0 -> (forall n' c' l', ~ in_layer n' c' l' s old) ->
  is_Some (domainMap_ s !! g_domainKey g) -> c_id cl = c -> 0 <= l ->
  let g' := moved_group g start cl l in
  let s1 := set_groupMap (<[g_id g' := g']> (delete old (groupMap_ s))) s in
  let d := default domain0 (domainMap_ s1 !! g_domainKey g') in
  wf T (upd_layer n c l (AddGroupToClusterLayer g') (set_domainMap (<[g_domainKey g' := set_d_groups ({[ g_id g' ]} ∪ (d_groups d ∖ {[ old ]})) d]> (domainMap_ s1)) s1)).
Proof.
  intros Hwf Eg Hf Hout [d Ed] Hc Hl g' s1. destruct Hf as (Hold & _ & Hkey & _).
  assert (Hf' : filed_as (g_id g') g' u n c l) by (unfold filed_as; cbn; by rewrite Hkey, Hc).
  assert (W1 : wf T s1).
  { subst s1. change (wf T (set_groupMap (<[g_id g' := g']> (groupMap_ (set_groupMap (delete old (groupMap_ s)) s))) (set_groupMap (delete old (groupMap_ s)) s))).
    apply wf_insert_group.
    - apply wf_delete_group; [done|]. intros n' c' l' ly E Hin. apply (Hout n' c' l'). by exists ly.
    - intros n' c' l' ly E Hin. destruct (wf_filed T s Hwf n' c' l' ly _ E Hin) as (g0 & u0 & _ & Hf0). exists u.
      by destruct (filed_unique _ _ _ _ _ _ _ _ _ _ _ Hf' Hf0) as (<- & <- & <-). }
  change (domainMap_ s1) with (domainMap_ s). change (g_domainKey g') with (g_domainKey g). rewrite Ed. cbn [default from_option id].
  destruct (wf_domain T s Hwf _ _ Ed) as [Ek Hids]. apply (wf_add_group T n c l g' u).
  - apply (wf_insert_domain T (g_domainKey g) _ s1); [done|done|]. intros gid Hin. cbn in Hin. apply elem_of_union in Hin as [->%elem_of_singleton|Hin].
    + exists c, l. cbn. by rewrite Ek, Hc.
    + apply Hids. set_solver.
  - done.
  - cbn. apply lookup_insert_eq.
  - done.
Qed.

Lemma move_group_spec old g start n c0 l0 c l cl s :
  wf T s -> in_layer n c0 l0 s old -> groupMap_ s !! old = Some g -> is_Some (domainMap_ s !! g_domainKey g) ->
  c_id cl = c -> 0 <= l ->
  twp (move_group T cf H old g start n c0 l0 n c l cl)
    (fun _ s' => wf T s' ∧ kept s s' ∧ forall x, x <> old -> in_layer n c0 l0 s x -> in_layer n c0 l0 s' x) s.
Proof.
  intros Hwf Hin Eg Hd Hc Hl. destruct (Hin) as (ly & Ely & Hgid).
  destruct (wf_filed T s Hwf _ _ _ _ _ Ely Hgid) as (g1 & u & Eg1 & Hf). rewrite Eg in Eg1. injection Eg1 as <-.
  assert (Hl0 : 0 <= l0) by (by apply layer_of_cluster in Ely as (? & _ & ? & _)).
  assert (Hid : g_id g = old) by apply Hf. unfold move_group. apply twp_bind, twp_modify. set (s1 := upd_layer _ _ _ _ s).
  assert (W1 : wf T s1) by (by apply wf_del_group).
  assert (Hkeep1 : forall x, x <> old -> in_layer n c0 l0 s x -> in_layer n c0 l0 s1 x).
  { intros x Hx. apply in_layer_keep; [done|]. intros ly' Hin'. cbn. set_solver. }
  assert (Hout1 : forall n' c' l', ~ in_layer n' c' l' s1 old).
  { intros n' c' l' Hin1. apply in_layer_upd in Hin1 as [(ly1 & _ & Hg1 & _)|[Hin1 Hne]]; [|by apply Hne, (in_layer_unique old _ _ _ _ _ _ s)|done].
    cbn in Hg1. set_solver. }
  apply twp_bind. eapply twp_mono; [by apply migrate_spec|]. intros [ret g'] s2 [Hs2 Er]. cbn [fst snd] in Er.
  pose proof (kept_trans _ _ _ (kept_upd_layer n c0 l0 (DelGroupFromClusterLayer g) s : kept s s1) (kept_places _ _ _ Hs2)) as Hk2.
  assert (Hkeep2 : forall f x, (forall ly, x ∈ l_groups ly -> x ∈ l_groups (f ly)) -> x <> old -> in_layer n c0 l0 s x ->
    forall c1 l1 s3, numaClusterMap_ s3 = numaClusterMap_ s2 -> 0 <= l1 -> in_layer n c0 l0 (upd_layer n c1 l1 f s3) x).
  { intros f x Hff Hx Hi c1 l1 s3 E3 Hl1. apply in_layer_keep; [done..|]. unfold in_layer, layer_of, cluster_of. rewrite E3.
    by apply (in_layer_places _ _ _ _ _ _ _ Hs2), Hkeep1. }
  destruct Hs2 as (W2 & E1 & E2 & E3 & Hd2). destruct (isVasRetFail ret); subst g'.
  - apply twp_modify. split_and!.
    + apply (wf_add_group T n c0 l0 g u); [done..| |]; rewrite Hid; [|done]. by rewrite E3.
    + eapply kept_trans; [exact Hk2|apply kept_upd_layer].
    + intros x Hx Hi. apply Hkeep2; try done. intros ly'. cbn. set_solver.
  - apply twp_bind, twp_modify, twp_bind, twp_modify, twp_modify. split_and!.
    + apply (refile_wf old g start cl u n c0 l0 c l s2); try done; [by rewrite E3|]. intros n' c' l'.
      unfold in_layer, layer_of, cluster_of. rewrite E1. apply Hout1.
    + eapply kept_trans; [exact Hk2|]. split; [done|]. intros n' c' Hsome. apply cluster_of_upd_layer_is_Some. exact Hsome.
    + intros x Hx Hi. apply Hkeep2; try done. intros ly'. cbn. set_solver.
Qed.

Lemma compact_group_spec strict n c0 l0 c l old s :
  wf T s -> in_layer n c0 l0 s old -> is_Some (cluster_of n c s) -> 0 <= l < GetOverProvision n s ->
  twp (compact_group T cf H strict n c0 l0 n c l old)
    (fun _ s' => wf T s' ∧ kept s s' ∧ forall x, x <> old -> in_layer n c0 l0 s x -> in_layer n c0 l0 s' x) s.
Proof.
  intros Hwf Hin [cl Ecl] Hl. unfold compact_group. apply twp_bind, twp_gets, twp_bind, twp_gets.
  destruct (groupMap_ s !! old) as [g|] eqn:Eg; [|by apply twp_ret]. destruct (domainMap_ s !! g_domainKey g) as [d|] eqn:Ed; [|by apply twp_ret].
  apply twp_bind, twp_bind, twp_gets. rewrite Ecl. apply twp_ret. apply twp_bind, twp_bind, twp_gets.
  destruct (wf_layer T s n c cl l Hwf Ecl Hl) as [ly ->]. apply twp_ret. cbn zeta. destruct (_ || _); [by apply twp_ret|].
  apply move_group_spec; [done|done|done|by rewrite Ed|by apply (wf_cluster T s Hwf n c cl Ecl)|lia].
Qed.

(** All the groups of a layer. *)
Lemma compact_groups_spec strict n c0 l0 c l gs s :
  wf T s -> NoDup gs -> (forall x, x ∈ gs -> in_layer n c0 l0 s x) -> is_Some (cluster_of n c s) -> 0 <= l < GetOverProvision n s ->
  twp (mfor (compact_group T cf H strict n c0 l0 n c l) gs) (fun _ s' => wf T s' ∧ kept s s') s.
Proof.
  revert s. induction gs as [|x gs IH]; intros s Hwf Hnd Hin Hcl Hl; [by apply twp_ret|]. apply NoDup_cons in Hnd as [Hx Hnd].
  apply twp_bind. eapply twp_mono; [apply compact_group_spec; try done; apply Hin; left|]. intros [] s1 (W1 & [Eo Hk] & Hrest).
  eapply twp_mono.
  - apply IH; [done|done| |by apply Hk|].
    + intros y Hy. apply Hrest; [by intros ->|]. apply Hin. by right.
    + unfold GetOverProvision. by rewrite Eo.
  - intros ? s2 [W2 Hk2]. split; [done|]. by apply (kept_trans s s1).
Qed.

Lemma within_cluster_spec n c next l s :
  wf T s -> is_Some (cluster_of n c s) -> 0 <= l < GetOverProvision n s ->
  twp (CompactionGroupWithinCluster T cf H n c next l) (fun _ s' => wf T s' ∧ kept s s') s.
Proof.
  intros Hwf Hcl Hl. unfold CompactionGroupWithinCluster. apply twp_bind, twp_gets, twp_bind, twp_gets.
  destruct (layer_of n c l s); [|by apply twp_ret]. destruct (layer_of n next l s) as [nl|] eqn:En; [|by apply twp_ret].
  apply compact_groups_spec; try done; [apply NoDup_set_list|]. intros x Hx. exists nl. split; [done|]. by apply elem_of_set_list.
Qed.

(** The clusters stay and the degree of the node stays above [l]. *)
Definition lowers (n l : Z) (s s' : Sched) : Prop :=
  wf T s' ∧ (forall n' c', is_Some (cluster_of n' c' s) -> is_Some (cluster_of n' c' s')) ∧ l < GetOverProvision n s' <= GetOverProvision n s.

(** The layers of the last degree leave one after the other; when all are empty the degree drops. *)
Lemma last_layer_spec n c l s :
  wf T s -> is_Some (cluster_of n c s) -> 0 <= l < GetOverProvision n s - 1 ->
  twp (CompactionGroupFromLastLayer T cf H n c l)
    (fun _ s' => lowers n l s s') s.
Proof.
  intros Hwf [cl Ecl] Hl. unfold CompactionGroupFromLastLayer. apply twp_bind, twp_bind, twp_gets. rewrite Ecl. apply twp_ret.
  apply twp_bind, twp_gets. destruct (wf_cluster T s Hwf n c cl Ecl) as (_ & -> & _). destruct (_ || _); [apply twp_ret; split_and!; [done|done|lia..]|].
  apply twp_bind. unfold numa_at, twp at 1. assert (is_Some (numaClusterMap_ s !! n)) as [cs Ecs].
  { unfold cluster_of in Ecl. destruct (numaClusterMap_ s !! n); [by eexists|done]. }
  rewrite Ecs. eexists _, _. split; [reflexivity|]. apply twp_bind. set (last := GetOverProvision n s - 1) in *.
  eapply twp_mono.
  - apply (twp_mfold_inv _ (fun _ s' => wf T s' ∧ kept s s')); [by split; [|apply kept_refl]|].
    intros c0 e s1 _ [W1 Hk1]. assert (Eop : GetOverProvision n s1 = GetOverProvision n s) by (unfold GetOverProvision; by destruct Hk1 as [-> _]).
    apply twp_bind, twp_gets. destruct (layer_of n c0 last s1) as [ll|] eqn:Ell; [|by apply twp_ret].
    destruct (l_total ll =? l_idle ll); [by apply twp_ret|]. apply twp_bind. eapply twp_mono.
    + apply compact_groups_spec; [done|apply NoDup_set_list| |apply Hk1; by rewrite Ecl|rewrite Eop; lia].
      intros x Hx. exists ll. split; [done|]. by apply elem_of_set_list.
    + intros ? s2 [W2 Hk2]. pose proof (kept_trans _ _ _ Hk1 Hk2) as Hk. apply twp_bind, twp_bind, twp_gets.
      destruct (layer_of_cluster _ _ _ _ _ Ell) as (cl1 & Ec1 & _). destruct (proj2 Hk2 n c0) as [cl2 Ec2]; [by rewrite Ec1|].
      destruct (wf_layer T s2 n c0 cl2 last W2 Ec2) as [ly2 ->]; [|by apply twp_ret, twp_ret].
      unfold GetOverProvision in *. destruct Hk as [-> _]. subst last. lia.
  - intros e s1 [W1 [Eo Hk]]. assert (Eop : GetOverProvision n s1 = GetOverProvision n s) by (unfold GetOverProvision; by rewrite Eo).
    destruct (_ =? _); [|apply twp_ret; split_and!; [done|done|lia..]]. apply twp_modify.
    destruct (wf_op_of T s n cs Hwf Ecs) as (op & Eop1 & Hop). assert (Eg : GetOverProvision n s = op) by (unfold GetOverProvision; by rewrite Eop1).
    rewrite <-Eo in Eop1. split_and!; [apply (wf_down T n op); [done|done|lia]|..]; unfold OverProvisionDown; rewrite (wf_not_layerless T s1 W1); cbn zeta;
      change (overProvision_ (map_clusters ?f s1)) with (overProvision_ s1); rewrite Eop1, (proj2 (Z.ltb_lt 0 op)) by lia.
    + intros n' c' Hs. change (cluster_of n' c' (set_overProvision ?o ?s2)) with (cluster_of n' c' s2). rewrite cluster_of_map_clusters.
      by apply fmap_is_Some, Hk.
    + unfold GetOverProvision at 1. cbn. rewrite lookup_insert_eq. cbn. lia.
    + unfold GetOverProvision at 1. cbn. rewrite lookup_insert_eq. cbn. lia.
Qed.

Lemma one_layer_spec n cs l s :
  wf T s -> (forall c, c ∈ cs -> is_Some (cluster_of n c s)) -> 0 <= l < GetOverProvision n s ->
  twp (CompactionClusterOneLayer T cf H n cs l)
    (fun _ s' => lowers n l s s') s.
Proof.
  revert s. induction cs as [|c cs IH]; intros s Hwf Hcs Hl; cbn [CompactionClusterOneLayer]; [apply twp_ret; split_and!; [done|done|lia..]|].
  destruct (Hcs c) as [cl Ecl]; [left|]. apply twp_bind, twp_bind, twp_gets. rewrite Ecl. apply twp_ret. apply twp_bind, twp_gets, twp_bind.
  destruct (wf_cluster T s Hwf n c cl Ecl) as (_ & En & _). rewrite En.
  apply (twp_mono _ (fun _ s' => lowers n l s s')).
  2: { intros ? s1 (W1 & Hc1 & Ho1). eapply twp_mono; [apply IH; [done| |lia]|].
       - intros c' Hc'. apply Hc1, Hcs. by right.
       - intros ? s2 (W2 & Hc2 & Ho2). split_and!; [done|auto|lia..]. }
  destruct (layer_of n c l s) as [ly|]; [|apply twp_ret; split_and!; [done|done|lia..]].
  destruct (l_idle ly =? 0); [apply twp_ret; split_and!; [done|done|lia..]|]. apply twp_bind.
  assert (Hw : twp (match cs with next :: _ => if negb (l_idle ly =? l_total ly) then CompactionGroupWithinCluster T cf H n c next l else mret tt | [] => mret tt end)
    (fun _ s' => wf T s' ∧ kept s s') s).
  { destruct cs; [by apply twp_ret|]. destruct (negb _); [|by apply twp_ret]. apply within_cluster_spec; [done|by rewrite Ecl|done]. }
  eapply twp_mono; [exact Hw|]. intros ? s1 [W1 [Eo Hk]]. assert (Eop : GetOverProvision n s1 = GetOverProvision n s) by (unfold GetOverProvision; by rewrite Eo).
  apply twp_bind, twp_gets. destruct ((_ =? 0) || negb _) eqn:Eb; [|apply twp_ret; split_and!; [done|done|lia..]].
  eapply twp_mono; [apply last_layer_spec; [done|apply Hk; by rewrite Ecl|]|].
  - apply orb_prop in Eb as [Eb%Z.eqb_eq|Eb%negb_true_iff%Z.eqb_neq]; lia.
  - intros ? s2 (W2 & Hc2 & Ho2). split_and!; [done|auto|lia..].
Qed.

Lemma compact_layers_spec fuel n l s :
  wf T s -> 0 <= l <= maxOverProvision -> maxOverProvision - l < Z.of_nat fuel -> twp (compact_layers T cf H fuel n l) (fun _ s' => wf T s') s.
Proof.
  revert l s. induction fuel as [|fuel IH]; intros l s Hwf Hl Hf; cbn [compact_layers].
  - exfalso. lia.
  - apply twp_bind, twp_gets. destruct (Z.leb_spec (GetOverProvision n s) l); [by apply twp_ret|]. apply twp_bind, twp_gets, twp_bind.
    eapply twp_mono; [apply one_layer_spec; [done| |lia]|].
    + intros c Hc%elem_of_map_keys. unfold cluster_of. by destruct (numaClusterMap_ s !! n).
    + intros ? s1 (W1 & _ & _). pose proof (wf_over_bound T s n Hwf). apply IH; [done|lia..].
Qed.

Lemma compaction_cluster_spec n s : wf T s -> twp (CompactionCluster T cf H n) (fun _ s' => wf T s') s.
Proof. intros Hwf. apply compact_layers_spec; [done|done|]. done. Qed.

(** The part of the compaction that follows the cleaning. *)
Lemma compaction_spec ns s :
  wf T s -> twp (_ ← mfor (CompactionCluster T cf H) ns; modify (fun s => set_compactionCount (u16 (compactionCount_ s + 1)) s)) (fun _ s' => wf T s') s.
Proof.
  intros Hwf. apply twp_bind. eapply twp_mono.
  - apply (twp_mfor_inv _ (wf T)); [done|]. intros n s1 _ W1. by apply compaction_cluster_spec.
  - intros ? s1 W1. apply twp_modify. by apply (wf_frame T s1).
Qed.

(** * Cleaning *)

Lemma clean_pids_live d g s :
  twp (clean_pids d g) (fun g' s' => s' = set_entityMap (entityMap_ s') s ∧ same_place g g' ∧
    forall pid, pid ∈ g_entityPids g -> is_Some (pidVcpuMap d !! pid) -> pid ∈ g_entityPids g') s.
Proof.
  unfold clean_pids. apply (twp_mfold_inv _ (fun g' s' => s' = set_entityMap (entityMap_ s') s ∧ same_place g g' ∧
    forall pid, pid ∈ g_entityPids g -> is_Some (pidVcpuMap d !! pid) -> pid ∈ g_entityPids g')).
  { split_and!; try done. by destruct s. }
  intros pid g1 s1 _ (Es & Hp & Hin). destruct (pidVcpuMap d !! pid) eqn:Ep; [by apply twp_ret|]. apply twp_bind, twp_gets.
  destruct (entityMap_ s1 !! pid); [|by apply twp_ret]. apply twp_bind, twp_modify, twp_ret. split_and!; try done; [by rewrite Es|].
  intros p Hp1 Hp2. apply elem_of_difference. split; [by apply Hin|]. intros ->%elem_of_singleton. rewrite Ep in Hp2. by destruct Hp2.
Qed.

Definition shrinks (d d' : VmDomain) : Prop := d' = set_d_groups (d_groups d') d ∧ d_groups d' ⊆ d_groups d.

Lemma shrinks_ids d d' : shrinks d d' -> ids_ok d -> ids_ok d'.
Proof. intros [-> Hs] Hd gid Hin. by apply Hd, Hs. Qed.

Lemma shrinks_refl d : shrinks d d.
Proof. split; [by destruct d|done]. Qed.

Lemma shrinks_trans d1 d2 d3 : shrinks d1 d2 -> shrinks d2 d3 -> shrinks d1 d3.
Proof. intros [E1 S1] [E2 S2]. split; [by rewrite E2, E1|set_solver]. Qed.

Lemma clean_group_wf gid d s :
  wf T s -> wp (clean_group gid d) (fun d' s' => wf T s' ∧ shrinks d d' ∧ domainMap_ s' = domainMap_ s) s.
Proof.
  intros Hwf. unfold clean_group. case_bool_decide; [apply wp_ret; by split_and!; [|apply shrinks_refl|]|].
  apply wp_bind, wp_gets. destruct (groupMap_ s !! gid) as [g|] eqn:Eg; [|apply wp_ret; by split_and!; [|apply shrinks_refl|]].
  apply wp_bind, wp_gets. destruct (cluster_of _ _ s); [|apply wp_ret; by split_and!; [|apply shrinks_refl|]].
  apply wp_bind. eapply wp_mono; [apply twp_to_wp, (clean_pids_live d g s)|]. intros g1 s1 (Es & Hp & _).
  assert (W1 : wf T s1) by (rewrite Es; by apply wf_set_entityMap).
  assert (Ed : domainMap_ s1 = domainMap_ s) by (by rewrite Es). apply wp_bind, wp_modify.
  set (s2 := set_groupMap _ s1). assert (W2 : wf T s2) by (apply (wf_update_group T gid g); [done|by rewrite Es|done]).
  case_bool_decide; [|apply wp_ret; by split_and!; [|apply shrinks_refl|]]. apply wp_bind, wp_gets, wp_bind.
  apply (wp_mono _ (fun _ s' => wf T s' ∧ domainMap_ s' = domainMap_ s)).
  - destruct (layer_of _ _ _ s2) as [ly|] eqn:El; [|by apply wp_ret]. apply wp_modify. split; [|done]. apply wf_del_group; [done|].
    by apply layer_of_cluster in El as (? & _ & ? & _).
  - intros ? s3 [W3 E3]. case_bool_decide; [done|]. apply wp_ret. split_and!; [done| |done]. split; [done|]. cbn. set_solver.
Qed.

Lemma clean_domain_wf d s :
  wf T s -> wp (CleanDyingPidByGroup d) (fun d' s' => wf T s' ∧ shrinks d d' ∧ domainMap_ s' = domainMap_ s) s.
Proof.
  intros Hwf. apply (wp_mfold _ (fun d' s' => wf T s' ∧ shrinks d d' ∧ domainMap_ s' = domainMap_ s)); [by split_and!; [|apply shrinks_refl|]|].
  intros gid d1 s1 _ (W1 & Hd1 & E1). eapply wp_mono; [by apply clean_group_wf|]. intros d2 s2 (W2 & Hd2 & E2).
  split_and!; [done|by apply (shrinks_trans d d1)|congruence].
Qed.

Lemma cleaning_wf s : wf T s -> wp (CleanDyingPid H) (fun _ s' => wf T s') s.
Proof.
  intros Hwf. unfold CleanDyingPid. apply wp_bind. eapply wp_mono; [apply twp_to_wp, ask_spec|]. intros a s0 Hs0.
  pose proof (host_step_wf T s s0 Hs0 Hwf) as W0. apply wp_bind, wp_gets, wp_bind. eapply wp_mono; [|intros ? s1 W1; apply wp_ret; exact W1].
  apply (wp_mfor _ (wf T)); [done|]. intros key s1 _ W1. apply wp_bind, wp_gets. destruct (domainMap_ s1 !! key) as [d|] eqn:Ed; [|by apply wp_ret].
  destruct (wf_domain T s1 W1 key d Ed) as [Ek Hids]. apply wp_bind. eapply wp_mono; [by apply clean_domain_wf|]. intros d' s2 (W2 & Hd & E2).
  destruct (_ && _); apply wp_modify; [by apply wf_delete_domain|]. apply wf_insert_domain; [done| |by apply (shrinks_ids d)].
  destruct Hd as [-> _]. done.
Qed.

Lemma compaction_wf s : wf T s -> wp (ClusterCompactionWithoutLock T cf H) (fun _ s' => wf T s') s.
Proof.
  intros Hwf. unfold ClusterCompactionWithoutLock. apply wp_bind. eapply wp_mono; [by apply cleaning_wf|]. intros ? s1 W1.
  apply wp_bind, wp_gets. apply twp_to_wp. by apply compaction_spec.
Qed.

(** * The cleaning is defined when no group has lost all its threads *)

(** The group has a thread that the domain still knows. *)
Definition live (d : VmDomain) (g : VmGroup) : Prop := exists pid, pid ∈ g_entityPids g ∧ is_Some (pidVcpuMap d !! pid).

Definition alive (s : Sched) : Prop :=
  forall k d gid g, domainMap_ s !! k = Some d -> gid ∈ d_groups d -> groupMap_ s !! gid = Some g -> live d g.

(** The threads of the domain stay in their groups. *)
Definition keeps_live (gs : gset string) (d : VmDomain) (s s' : Sched) : Prop :=
  domainMap_ s' = domainMap_ s ∧
  forall gid g', groupMap_ s' !! gid = Some g' -> exists g, groupMap_ s !! gid = Some g ∧ (gid ∉ gs -> g' = g) ∧ (live d g -> live d g').

Lemma keeps_live_refl gs d s : keeps_live gs d s s.
Proof. split; [done|]. intros gid g E. by exists g. Qed.

Lemma keeps_live_trans gs d s1 s2 s3 : keeps_live gs d s1 s2 -> keeps_live gs d s2 s3 -> keeps_live gs d s1 s3.
Proof.
  intros [E1 H1] [E2 H2]. split; [congruence|]. intros gid g3 (g2 & (g1 & A1 & A2 & A3)%H1 & B2 & B3)%H2. exists g1. split_and!; [done| |auto].
  intros Hout. by rewrite B2, A2.
Qed.

Lemma clean_group_live gid d s :
  gid ∈ d_groups d -> (forall g, groupMap_ s !! gid = Some g -> live d g) ->
  twp (clean_group gid d) (fun d' s' => d' = d ∧ keeps_live (d_groups d) d s s') s.
Proof.
  intros Hin Hlive. pose proof (keeps_live_refl (d_groups d) d s) as Hrefl. unfold clean_group. rewrite bool_decide_eq_false_2 by (by intros ?).
  apply twp_bind, twp_gets. destruct (groupMap_ s !! gid) as [g|] eqn:Eg; [|by apply twp_ret].
  apply twp_bind, twp_gets. destruct (cluster_of _ _ s); [|by apply twp_ret].
  apply twp_bind. eapply twp_mono; [apply clean_pids_live|]. intros g1 s1 (Es & _ & Hpids). apply twp_bind, twp_modify.
  destruct (Hlive g eq_refl) as (pid & Hp1 & Hp2). rewrite bool_decide_eq_false_2.
  2: { intros He. apply (not_elem_of_empty (C := gset Z) pid). rewrite <-He. by apply Hpids. }
  apply twp_ret. split; [done|]. split; [by rewrite Es|]. intros gid' g'. cbn. rewrite Es. cbn.
  intros [[<- <-]|[_ E]]%lookup_insert_Some; [|by exists g']. exists g. split_and!; [done|done|]. intros (p & Q1 & Q2). exists p. auto.
Qed.

Lemma clean_domain_live d s :
  (forall gid g, gid ∈ d_groups d -> groupMap_ s !! gid = Some g -> live d g) ->
  twp (CleanDyingPidByGroup d) (fun d' s' => d' = d ∧ keeps_live (d_groups d) d s s') s.
Proof.
  intros Hlive. apply (twp_mfold_inv _ (fun d' s' => d' = d ∧ keeps_live (d_groups d) d s s')); [split; [done|apply keeps_live_refl]|].
  intros gid d1 s1 Hin%elem_of_set_list (-> & Hk). eapply twp_mono; [apply clean_group_live; [done|]|].
  - intros g1 (g & E & _ & Hl)%Hk. by apply Hl, (Hlive gid).
  - intros d2 s2 (-> & Hk2). split; [done|]. by apply (keeps_live_trans _ _ _ s1).
Qed.

(** Two domains share no group id. *)
Lemma groups_disjoint k d k' d' s gid :
  wf T s -> domainMap_ s !! k = Some d -> domainMap_ s !! k' = Some d' -> gid ∈ d_groups d -> gid ∈ d_groups d' -> k = k'.
Proof.
  intros Hwf E E' Hin Hin'. destruct (wf_domain T s Hwf k d E) as [Ek Hd], (wf_domain T s Hwf k' d' E') as [Ek' Hd'].
  destruct (Hd gid Hin) as (c & l & Eg), (Hd' gid Hin') as (c' & l' & Eg'). rewrite Eg in Eg'. apply group_key_inj in Eg' as (E1 & _). congruence.
Qed.

Lemma keeps_live_alive k d s s' :
  wf T s -> alive s -> domainMap_ s !! k = Some d -> keeps_live (d_groups d) d s s' -> alive s'.
Proof.
  intros Hwf Ha Ed [Em Hk] k' d' gid g' E' Hin Eg'. rewrite Em in E'. destruct (Hk gid g' Eg') as (g & Eg & Hout & Hlive).
  destruct (decide (gid ∈ d_groups d)) as [Hin'|Hn].
  - assert (k' = k) as -> by (by apply (groups_disjoint k' d' k d s gid)). rewrite Ed in E'. injection E' as <-. by apply Hlive, (Ha k d gid).
  - rewrite (Hout Hn). by apply (Ha k' d' gid).
Qed.

Lemma cleaning_defined s : wf T s -> alive s -> twp (CleanDyingPid H) (fun _ s' => wf T s') s.
Proof.
  intros Hwf Ha. enough (Hd : twp (CleanDyingPid H) (fun _ _ => True) s).
  { eapply twp_mono; [apply twp_wp; [exact Hd|by apply cleaning_wf]|]. by intros ? s' [_ ?]. }
  unfold CleanDyingPid. apply twp_bind. eapply twp_mono; [apply ask_spec|]. intros a s0 Hs0.
  pose proof (host_step_wf T s s0 Hs0 Hwf) as W0. assert (A0 : alive s0) by (unfold alive; by rewrite Hs0).
  apply twp_bind, twp_gets, twp_bind. eapply twp_mono; [|intros ? s1 W1; by apply twp_ret].
  apply (twp_mfor_inv _ (fun s => wf T s ∧ alive s)); [done|]. intros key s1 _ [W1 A1]. apply twp_bind, twp_gets.
  destruct (domainMap_ s1 !! key) as [d|] eqn:Ed; [|by apply twp_ret].
  destruct (wf_domain T s1 W1 key d Ed) as [Ek Hids]. apply twp_bind.
  eapply twp_mono; [apply twp_wp; [apply clean_domain_live; intros gid g Hg Eg; by apply (A1 key d gid)|by apply clean_domain_wf]|].
  intros d' s2 [(-> & Hk) (W2 & _ & E2)]. pose proof (keeps_live_alive key d s1 s2 W1 A1 Ed Hk) as A2.
  destruct (_ && _); apply twp_modify.
  - split; [by apply wf_delete_domain|]. intros k' d' gid g. cbn. intros [_ E']%lookup_delete_Some. by apply (A2 k' d').
  - rewrite <-E2 in Ed. split; [by apply wf_insert_domain|]. intros k' d' gid g. cbn. rewrite insert_id by done. by apply (A2 k' d').
Qed.

Lemma compaction_defined_wf s : wf T s -> alive s -> twp (ClusterCompactionWithoutLock T cf H) (fun _ s' => wf T s') s.
Proof.
  intros Hwf Ha. unfold ClusterCompactionWithoutLock. apply twp_bind. eapply twp_mono; [by apply cleaning_defined|]. intros ? s1 W1.
  apply twp_bind, twp_gets. by apply compaction_spec.
Qed.
End Compact.

(** The requests to the cluster scheduler as a step relation: the invariant
    [wf] is set up by [InitClusterInfo] and kept by every public function,
    whatever the host answers; each function is shown to be defined but for
    the cleaning of dead threads, which is when no group is without threads. *)

(** * Setting up *)

Section Init.
Context (T : CpuHelper).

Definition init_cluster (info : ClusterInfo) : Cluster := mkCluster (ci_id info) (ci_numaId info) (ci_cpuSet info) [fresh_layer info].

(** The clusters of the nodes once the clusters [ks] of the topology are entered. *)
Definition init_map (m : gmap Z (gmap Z Cluster)) (ks : list Z) : gmap Z (gmap Z Cluster) :=
  foldl (fun m c => match cpuTopologyMap T !! c with
                    | Some info => <[ci_numaId info := <[ci_id info := init_cluster info]> (default ∅ (m !! ci_numaId info))]> m
                    | None => m
                    end) m ks.

Lemma init_map_lookup ks m n cs c cl :
  init_map m ks !! n = Some cs -> cs !! c = Some cl ->
  (exists info, cpuTopologyMap T !! c = Some info ∧ cl = init_cluster info ∧ ci_numaId info = n) ∨ (exists cs0, m !! n = Some cs0 ∧ cs0 !! c = Some cl) ∨
  (exists c' info, cpuTopologyMap T !! c' = Some info ∧ ci_id info = c ∧ ci_id info <> c').
Proof.
  revert m. induction ks as [|k ks IH]; intros m; cbn; [intros E1 E2; right; left; eauto|]. intros E1 E2.
  destruct (cpuTopologyMap T !! k) as [info|] eqn:Ek; [|by apply IH in E1]. destruct (IH _ E1 E2) as [?|[(cs0 & E0 & E3)|?]]; [by left| |by right; right].
  apply lookup_insert_Some in E0 as [[<- <-]|[_ E0]]; [|right; left; eauto]. apply lookup_insert_Some in E3 as [[<- <-]|[_ E3]].
  - destruct (decide (ci_id info = k)) as [E|Hne]; [left; exists info; by rewrite E|right; right; by exists k, info].
  - destruct (m !! ci_numaId info) as [cs0|] eqn:Em; cbn in E3; [right; left; eauto|by rewrite lookup_empty in E3].
Qed.

Lemma fold_new_ones ks (o : gmap Z Z) n :
  foldl (fun o n => match o !! n with Some _ => o | None => <[n := 1]> o end) o ks !! n =
  match o !! n with Some op => Some op | None => if decide (n ∈ ks) then Some 1 else None end.
Proof.
  revert o. induction ks as [|k ks IH]; intros o; cbn [foldl].
  - destruct (decide _) as [[]%elem_of_nil|]. by destruct (o !! n).
  - rewrite IH. destruct (o !! k) eqn:Ek.
    + destruct (o !! n) eqn:En; [done|]. destruct (decide (n ∈ ks)), (decide (n ∈ k :: ks)) as [Hin|Hout]; try done.
      * contradict Hout. by right.
      * apply elem_of_cons in Hin as [->|?]; congruence.
    + destruct (decide (n = k)) as [->|Hne].
      * rewrite lookup_insert_eq, Ek, decide_True; [done|left].
      * rewrite lookup_insert_ne by done. destruct (o !! n); [done|]. destruct (decide (n ∈ ks)), (decide (n ∈ k :: ks)) as [Hin|Hout]; try done.
        -- contradict Hout. by right.
        -- apply elem_of_cons in Hin as [->|?]; congruence.
Qed.

Lemma init_wf : topo_ok T -> wf T (InitClusterInfo T sched0).2.
Proof.
  intros Ht. unfold InitClusterInfo. destruct (_ || _).
  { by split; cbn. }
  cbn [snd]. change (foldl _ (numaClusterMap_ sched0) _) with (init_map ∅ (map_keys (cpuTopologyMap T))). set (m := init_map _ _). cbn zeta.
  set (o := foldl _ _ _).
  assert (Ho : forall n, o !! n = if decide (n ∈ map_keys m) then Some 1 else None) by (intros n; unfold o; by rewrite fold_new_ones).
  assert (Hc : forall n c cl, cluster_of n c (set_overProvision o (set_numaClusterMap m sched0)) = Some cl ->
    exists info, cpuTopologyMap T !! c = Some info ∧ cl = init_cluster info ∧ ci_numaId info = n).
  { intros n c cl. unfold cluster_of. cbn. destruct (m !! n) as [cs|] eqn:En; [|done]. cbn. intros Ec.
    destruct (init_map_lookup _ _ _ _ _ _ En Ec) as [?|[(cs0 & E0 & _)|(c' & info & E1 & _ & Hne)]]; [done|by rewrite lookup_empty in E0|].
    by destruct (topo_info T Ht c' info E1). }
  assert (Ho1 : forall n op, o !! n = Some op -> op = 1) by (intros n op; rewrite Ho; destruct (decide _); congruence).
  split.
  - apply set_eq. intros n. cbn. rewrite !elem_of_dom, Ho, <-(elem_of_map_keys m). destruct (decide _); split; try done.
  - intros n op E. apply Ho1 in E as ->. unfold maxOverProvision. lia.
  - intros n c cl (info & E & -> & <-)%Hc. split_and!; [by apply (topo_info T Ht)|done|]. cbn. by rewrite extra_layers_ones.
  - intros n c l ly gid. unfold layer_of. destruct (cluster_of _ _ _) eqn:E; [|done]. apply Hc in E as (info & E & -> & <-). cbn. destruct (0 <=? l); [|done].
    intros [_ <-]%list_lookup_singleton_Some. by intros Hin%elem_of_empty.
  - intros k d. cbn. by rewrite lookup_empty.
  - intros n c cl (info & E & -> & <-)%Hc. exists info. split_and!; try done. apply Forall_singleton, fresh_layer_fits.
Qed.
End Init.

(** * The public functions *)

Section Requests.
Context (T : CpuHelper) (cf : VasdConf) (H : Host) (Htopo : topo_ok T).

(** Every VM that is reported has a vCPU. *)
Definition vms_ok (vms : list VmInfo) : Prop := Forall (fun vm => vcpuMap vm <> []) vms.

Lemma update_and_sched_wf r s :
  wf T s -> match r with inl _ => True | inr vms => vms_ok vms end -> twp (UpdateDomainInfosAndSched T cf H r) (fun _ s' => wf T s') s.
Proof.
  intros Hwf Hr. destruct r as [ret|vms]; cbn [UpdateDomainInfosAndSched]; [by apply twp_ret|]. apply twp_bind.
  eapply twp_mono; [by apply update_domains_wf|]. intros ? s1 W1. apply twp_bind. eapply twp_mono; [|intros ? s2 W2; apply twp_ret; exact W2].
  apply for_domains_wf; [done..|]. intros d s2 W2 Hd. destruct (isReScheded d); [by apply twp_ret|]. apply twp_bind.
  eapply twp_mono; [by apply (free_twp T)|]. intros d1 s3 (W3 & -> & _).
  apply (alloc_assign_twp T cf H Htopo (set_d_groups ∅ d) s3 (fun d => mret d)
    (fun ret d => if isVasRetFail ret then mret d else mret (set_isReScheded true d))); [done|apply ids_ok_empty|..].
  - intros d' s' W Hd' Hk _. by apply twp_ret.
  - intros ret d' s' W Hd' Hk _. destruct (isVasRetFail ret); by apply twp_ret.
Qed.

Lemma add_domain_wf vm s : wf T s -> vcpuMap vm <> [] -> twp (AddDomainInfo T cf H vm) (fun _ s' => wf T s') s.
Proof.
  intros Hwf Hvm. unfold AddDomainInfo. apply twp_bind, twp_gets, twp_bind. eapply twp_mono; [by apply (update_domain_wf T)|].
  intros [[ret m] d] s1 [W1 Hd]. destruct (isVasRetFail ret); [by apply twp_ret|]. apply twp_bind.
  eapply twp_mono; [apply resched_wf; [done..|]; by apply Forall_singleton|]. intros ? s2 W2. by apply twp_ret.
Qed.

Lemma resched_domain_wf value key acc s : wf T s -> twp (resched_domain T cf H value key acc) (fun _ s' => wf T s') s.
Proof.
  intros Hwf. destruct acc as [ex ret]. cbn [resched_domain]. apply twp_bind, twp_gets. destruct (domainMap_ s !! key) as [d|] eqn:Ed; [|by apply twp_ret].
  destruct (out_of_scope value d); [by apply twp_ret|]. destruct (wf_domain T s Hwf key d Ed) as [Ek Hd]. apply twp_bind.
  eapply twp_mono; [by apply (unassign_wf T)|]. intros ? s1 [W1 _]. apply twp_bind. eapply twp_mono; [apply (free_twp T); [done|by apply ids_ok_flag]|].
  intros d1 s2 (W2 & -> & _). eapply (alloc_assign_twp T cf H Htopo _ s2
    (fun d => _ ← modify (fun s => set_domainMap (<[key := d]> (domainMap_ s)) s); mret (true, VAS_ERROR))
    (fun tmpRet d => _ ← modify (fun s => set_domainMap (<[key := set_d_entityPids ∅ (set_isReScheded (isVasRetOk tmpRet) d)]> (domainMap_ s)) s);
       mret (true, if isVasRetFail tmpRet then VAS_ERROR else ret))); [done|apply ids_ok_empty|..].
  - intros d' s' W Hd' [K1 K2] _. apply twp_bind, twp_modify, twp_ret. apply wf_insert_domain; [done|by rewrite K1, K2|done].
  - intros r d' s' W Hd' [K1 K2] _. apply twp_bind, twp_modify, twp_ret. apply wf_insert_domain; [done| |done]. cbn. by rewrite K1, K2.
Qed.

Lemma resched_vm_wf value s : wf T s -> wp (ReSchedVm T cf H value) (fun _ s' => wf T s') s.
Proof.
  intros Hwf. unfold ReSchedVm. apply wp_bind. eapply wp_mono; [apply twp_to_wp, ask_spec|]. intros a s0 Hs0.
  pose proof (host_step_wf T s s0 Hs0 Hwf) as W0. apply wp_bind, wp_gets, wp_bind. eapply wp_mono.
  - apply (wp_mfold _ (fun _ => wf T)); [done|]. intros key acc s1 _ W1. by apply twp_to_wp, resched_domain_wf.
  - intros [ex ret] s1 W1. destruct ex; cbn [negb]; [|by apply wp_ret]. apply wp_bind. eapply wp_mono; [by apply compaction_wf|].
    intros ? s2 W2. by apply wp_ret.
Qed.

Lemma resched_started_vms_wf r s :
  wf T s -> match r with inl _ => True | inr vms => vms_ok vms end -> twp (ReSchedStartedVms T cf H r) (fun _ s' => wf T s') s.
Proof.
  intros Hwf Hr. destruct r as [ret|vms]; cbn [ReSchedStartedVms]; [by apply twp_ret|]. apply twp_bind.
  eapply twp_mono; [by apply update_domains_wf|]. intros ? s1 W1. by apply resched_started_wf.
Qed.

Lemma reset_policy_wf vms s : wf T s -> twp (ReSetSchedPolicy T cf H vms) (fun _ s' => wf T s') s.
Proof.
  intros Hwf. unfold ReSetSchedPolicy. apply twp_bind. eapply twp_mono; [by apply recover_wf|]. intros ? s1 Hs1.
  apply twp_bind, twp_modify. apply resched_started_wf; [done|]. apply restore_wf. by apply (host_step_wf T s).
Qed.

(** * Requests *)

Inductive request :=
| RUpdate (vmInfos : Z + list VmInfo)
| RAdd (vmInfo : VmInfo)
| RDel (uuid : string)
| RCompact
| RReSched (value : string)
| RStarted (vmInfos : Z + list VmInfo)
| RPolicy (vmInfoMap : list VmInfo)
| RRecover (vmInfoMap : list VmInfo)
| RCpuMask (domains : list VmDomain).

Definition serve (r : request) : M Sched unit :=
  match r with
  | RUpdate vms => _ ← UpdateDomainInfosAndSched T cf H vms; mret tt
  | RAdd vm => AddDomainInfo T cf H vm
  | RDel u => DelDomainInfo T cf H u
  | RCompact => ClusterCompaction T cf H
  | RReSched v => _ ← ReSchedVm T cf H v; mret tt
  | RStarted vms => ReSchedStartedVms T cf H vms
  | RPolicy vms => ReSetSchedPolicy T cf H vms
  | RRecover vms => RecoverVmVcpu T H vms
  | RCpuMask ds => _ ← GetDomainCpuMask T ds; mret tt
  end.

(** The VMs a request reports have a vCPU each. *)
Definition request_ok (r : request) : Prop :=
  match r with
  | RUpdate (inr vms) | RStarted (inr vms) => vms_ok vms
  | RAdd vm => vcpuMap vm <> []
  | _ => True
  end.

(** The states that a sequence of requests leads to. *)
Inductive sched_reach : Sched -> Prop :=
| reach_init : sched_reach (InitClusterInfo T sched0).2
| reach_step s r s' : sched_reach s -> request_ok r -> serve r s = Some (tt, s') -> sched_reach s'.

Lemma cpu_mask_wf ds s : wf T s -> twp (GetDomainCpuMask T ds) (fun _ s' => wf T s') s.
Proof.
  intros Hwf. apply (twp_mfold_inv _ (fun _ => wf T)); [done|]. intros d m s1 _ W1. apply (twp_mfold_inv _ (fun _ => wf T)); [done|].
  intros gid m1 s2 _ W2. apply twp_bind. eapply twp_mono; [by apply (group_at_wf T)|]. intros g s3 (W3 & _). apply twp_bind, twp_gets.
  destruct (cluster_of _ _ s3); by apply twp_ret.
Qed.

(** A request without the cleaning has an outcome. *)
Definition cleans (r : request) : bool := match r with RDel _ | RCompact | RReSched _ => true | _ => false end.

Lemma serve_twp r s : wf T s -> request_ok r -> cleans r = false -> twp (serve r) (fun _ s' => wf T s') s.
Proof.
  intros Hwf Hok Hcl. destruct r as [[|]| | | | |[|]| | |]; try done; cbn [serve];
    [apply twp_bind; eapply twp_mono; [by apply update_and_sched_wf|intros ? s1 W1; by apply twp_ret]..| | | | | |].
  - by apply add_domain_wf.
  - by apply resched_started_vms_wf.
  - by apply resched_started_vms_wf.
  - by apply reset_policy_wf.
  - eapply twp_mono; [by apply recover_wf|]. intros ? s1 Hs1. by apply (host_step_wf T s).
  - apply twp_bind. eapply twp_mono; [by apply cpu_mask_wf|]. intros ? s1 W1. by apply twp_ret.
Qed.

Lemma serve_wf r s : wf T s -> request_ok r -> wp (serve r) (fun _ s' => wf T s') s.
Proof.
  intros Hwf Hok. destruct (cleans r) eqn:Ec; [|by apply twp_to_wp, serve_twp]. destruct r; try done; cbn [serve].
  - unfold DelDomainInfo. apply wp_bind. eapply wp_mono; [by apply twp_to_wp, domains_by_uuid_spec|]. intros ds s1 [W1 Hds].
    apply wp_bind. eapply wp_mono; [by apply twp_to_wp, (deresched_wf T)|]. intros ? s2 W2. by apply compaction_wf.
  - by apply compaction_wf.
  - apply wp_bind. eapply wp_mono; [by apply resched_vm_wf|]. intros ? s1 W1. by apply wp_ret.
Qed.

Lemma reach_wf s : sched_reach s -> wf T s.
Proof. induction 1 as [|s r s' _ IH Hok E]; [by apply init_wf|]. by apply (serve_wf r s IH Hok tt s'). Qed.
End Requests.
