(* ===== verification/ClusterSchedAssign.v ===== *)
(** Pinning is right: on a host that serves the requests, [Assign] gives every
    vCPU thread of a domain a CPU of its own in the groups of the domain and
    writes it to the cgroup file of the vCPU. *)

From S2P Require Import Prelude VasLib DynamicBitset ClusterVm ClusterSched ClusterSchedFacts ClusterSchedInv ClusterSchedAlloc ClusterSchedOps.

(** * The text of one CPU *)

Lemma foldl_text_skip (bs : DynamicBitset) (l : list Z) (oss : string) :
  (forall i, i ∈ l -> bit bs i = false) ->
  foldl (fun oss i => if bit bs i then oss +:+ pretty i +:+ " " else oss) oss l = oss.
Proof.
  induction l as [|i l IH]; intros Hl; cbn [foldl]; [done|]. rewrite (Hl i) by left. apply IH. intros j Hj. apply Hl. by right.
Qed.

Lemma substring_prefix (s t : string) : String.substring 0 (String.length s) (s +:+ t) = s.
Proof.
  induction s as [|a s IH]; [by destruct t|]. change (String a s +:+ t) with (String a (s +:+ t)). cbn [String.length String.substring]. by rewrite IH.
Qed.

Lemma length_app_string (s t : string) : String.length (s +:+ t) = (String.length s + String.length t)%nat.
Proof. induction s as [|a s IH]; [done|]. change (String a s +:+ t) with (String a (s +:+ t)). cbn. by rewrite IH. Qed.

(** The one CPU of a map is written as its number. *)
Lemma single_cpu_text max cpu :
  0 <= cpu < max -> GetCpuSetFromDynamicBitset (GenDynamicBitSetByArea max cpu 1) = pretty cpu.
Proof.
  intros H. unfold GetCpuSetFromDynamicBitset. rewrite bsize_ByArea by lia.
  assert (Hb : forall i, bit (GenDynamicBitSetByArea max cpu 1) i = bool_decide (i = cpu)).
  { intros i. rewrite bit_ByArea by lia. case_bool_decide; lia. }
  assert (E : foldl (fun oss i => if bit (GenDynamicBitSetByArea max cpu 1) i then oss +:+ pretty i +:+ " " else oss) "" (seqZ 0 max) = pretty cpu +:+ " ").
  { replace (seqZ 0 max) with (seqZ 0 cpu ++ seqZ (0 + cpu) (1 + (max - cpu - 1))) by (rewrite <-seqZ_app by lia; f_equal; lia). rewrite foldl_app.
    rewrite (foldl_text_skip _ (seqZ 0 cpu)).
    2: { intros i Hi%elem_of_seqZ. rewrite Hb. apply bool_decide_eq_false. lia. }
    rewrite seqZ_cons by lia. cbn [foldl]. rewrite Hb, bool_decide_eq_true_2 by lia. rewrite foldl_text_skip; [by rewrite Z.add_0_l|].
    intros i Hi%elem_of_seqZ. rewrite Hb. apply bool_decide_eq_false. lia. }
  rewrite E, bool_decide_eq_false_2.
  - unfold str_pop_back. rewrite length_app_string. cbn [String.length]. replace (_ + 1 - 1)%nat with (String.length (pretty cpu)) by lia. apply substring_prefix.
  - intros E'. assert (Hl : String.length (pretty cpu +:+ " ") = 0%nat) by (by rewrite E'). rewrite length_app_string in Hl. cbn in Hl. lia.
Qed.

(** * The place of a thread in a group *)

(** The first [k] CPUs of the group are in use and no other one. *)
Definition filled (size : Z) (g : VmGroup) (k : Z) : Prop :=
  bsize (g_usedBitmap g) = size ∧ forall i, bit (g_usedBitmap g) i = (g_start g <=? i) && (i <? g_start g + k).

Lemma filled_first size g k :
  filled size g k -> 0 <= g_start g -> 0 <= k -> g_start g + k <= size -> size < 32768 ->
  FindFirstIdlePos (g_usedBitmap g) (g_start g) 1 = if g_start g + k <? size then g_start g + k else -1.
Proof.
  intros [Hsz Hb] H0 Hk Hend Hlen. rewrite find_first_idle_eq by lia. cbn [Z.ltb Z.compare andb].
  destruct (idle_from (g_usedBitmap g) (g_start g)) as [|p l] eqn:E.
  - cbn. destruct (Z.ltb_spec (g_start g + k) size); [|done].
    assert (Hin : g_start g + k ∈ idle_from (g_usedBitmap g) (g_start g)) by (apply elem_of_idle_from; [lia|]; rewrite Hb; lia).
    rewrite E in Hin. by apply not_elem_of_nil in Hin.
  - destruct (idle_from_head _ _ _ _ H0 E) as (Hp & Hbit & Hbefore & _). rewrite Hb in Hbit. cbn [length default from_option head].
    rewrite (proj2 (Z.leb_le 1 _)) by lia. destruct (Z.ltb_spec (g_start g + k) size).
    + assert (~ g_start g + k < p); [|cbn; lia]. intros Hlt. specialize (Hbefore (g_start g + k)). rewrite Hb in Hbefore. lia.
    + cbn. lia.
Qed.

Section Assign.
Context (T : CpuHelper) (cf : VasdConf) (H : Host) (Htopo : topo_ok T) (Hone : GetGranularity T cf = 1).
Context (u p : string).

(** The host finds the VM and its cgroup directory [p] and lets the files be written. *)
Record obliging : Prop := {
  ob_path t : h_virConnect (H t) = true ∧ h_lookup (H t) u = true ∧ isIntInvalid (i32 (h_domainId (H t) u)) = false ∧
    exists dirs m, h_cgroupDirs (H t) = Some dirs ∧
      head (omap (suffix_from ("machine-qemu\x2d" +:+ pretty (u16 (h_domainId (H t) u)) +:+ "\x2d")) dirs) = Some m ∧
      p = vmCgroupPrefix +:+ "/" +:+ m +:+ "/libvirt";
  ob_file t : h_capAdd (H t) = true ∧ h_open (H t) = true ∧ h_put (H t) = true ∧ h_flush (H t) = true ∧ h_capDelete (H t) = true;
}.
Context (Hob : obliging).

Lemma path_good s : twp (GetVmCgroupPath H u) (fun r s' => r = (VAS_OK, p) ∧ s' = set_host (Datatypes.S (host_tick s)) (cgroup_writes s) s) s.
Proof.
  unfold GetVmCgroupPath. apply twp_bind. unfold twp at 1, ask. eexists _, _. split; [reflexivity|].
  destruct (ob_path Hob (host_tick s)) as (-> & -> & -> & dirs & m & -> & -> & ->). by apply twp_ret.
Qed.

Lemma cpuset_good t b i s :
  twp (SetVmCpuset H p t b i) (fun r s' => r = VAS_OK ∧ host_step s s' ∧
    cgroup_writes s' = (cpuset_file p t i, GetCpuSetFromDynamicBitset b) :: cgroup_writes s) s.
Proof.
  unfold SetVmCpuset. apply twp_bind. unfold twp at 1, ask. eexists _, _. split; [reflexivity|].
  destruct (ob_file Hob (host_tick s)) as (-> & -> & -> & -> & ->). cbn [negb]. apply twp_bind, twp_modify, twp_ret. done.
Qed.

(** The file that pins a vCPU. *)
Definition pin_file (vcpu : Z) : string :=
  cpuset_file p (if bool_decide (schedPolicy cf = SCHED_POLICY_DYNAMIC) then VCPU_PREFERRED_CPU else VCPU_CPUSET) vcpu.

Lemma affinity_good d pid v cpu c s :
  d_uuid d = u -> pidVcpuMap d !! pid = Some v -> is_Some (cluster_of (d_numaId d) c s) -> 0 <= cpu < MAX_CPU_NUM T ->
  twp (SetVcpuAffinity T cf H d pid cpu c) (fun r s' => r = (VAS_OK, d) ∧ host_step s s' ∧
    (exists w, cgroup_writes s' = (pin_file v, pretty cpu) :: w ++ cgroup_writes s)) s.
Proof.
  intros Hu Hv [cl Ecl] Hcpu. unfold SetVcpuAffinity. rewrite Hu. apply twp_bind. eapply twp_mono; [apply path_good|]. intros [ret p0] s1 [[= -> ->] E1].
  assert (Hs1 : host_step s s1) by (by rewrite E1). assert (Ew1 : cgroup_writes s1 = cgroup_writes s) by (by rewrite E1).
  change (isVasRetFail VAS_OK) with false. cbn iota. unfold vcpu_at. rewrite Hv. unfold pin_file. case_bool_decide.
  - apply twp_bind. eapply twp_mono; [apply cpuset_good|]. intros r s2 (-> & Hs2 & Ew2). change (isVasRetFail VAS_OK) with false. cbn iota.
    apply twp_bind, twp_gets. replace (cluster_of (d_numaId d) c s2) with (Some cl) by (rewrite Hs2, E1; by rewrite <-Ecl). apply twp_bind.
    eapply twp_mono; [apply cpuset_good|]. intros r s3 (-> & Hs3 & Ew3). apply twp_ret. split_and!; [done| |].
    + exact (host_step_trans _ _ _ Hs1 (host_step_trans _ _ _ Hs2 Hs3)).
    + rewrite Ew3, Ew2, Ew1, single_cpu_text by done. by eexists [_].
  - apply twp_bind. eapply twp_mono; [apply cpuset_good|]. intros r s2 (-> & Hs2 & Ew2). apply twp_ret. split_and!; [done| |].
    + exact (host_step_trans _ _ _ Hs1 Hs2).
    + rewrite Ew2, Ew1, single_cpu_text by done. by exists [].
Qed.

(** * The threads placed so far *)

Context (d : VmDomain) (s0 : Sched) (Hwf : wf T s0) (Hu : d_uuid d = u).
Let gs := set_list (d_groups d).

Definition cnt (s : Sched) (gid : string) : Z := match groupMap_ s !! gid with Some g => Z.of_nat (size (g_entityPids g)) | None => 0 end.
Definition room (s : Sched) (gid : string) : Z := match groupMap_ s !! gid with Some g => g_nrCpus g | None => 0 end.
Definition sum (f : string -> Z) (l : list string) : Z := foldr (fun gid acc => f gid + acc) 0 l.

(** Each thread of the group has a CPU of the group, no two of them the same,
    and that CPU is in the file of its vCPU. *)
Record group_ok (s : Sched) (g : VmGroup) : Prop := {
  go_window : 0 <= g_start g ∧ 0 < g_nrCpus g ∧ g_start g + g_nrCpus g <= CLUSTER_CPU_NUM T;
  go_cluster : is_Some (cluster_of (d_numaId d) (g_clusterId g) s);
  go_filled : filled (CLUSTER_CPU_NUM T) g (Z.of_nat (size (g_entityPids g))) ∧ Z.of_nat (size (g_entityPids g)) <= g_nrCpus g;
  go_entity pid : pid ∈ g_entityPids g -> exists e, entityMap_ s !! pid = Some e ∧ g_start g <= cpuIdx e < g_start g + Z.of_nat (size (g_entityPids g));
  go_own p1 p2 e1 e2 : p1 ∈ g_entityPids g -> p2 ∈ g_entityPids g -> entityMap_ s !! p1 = Some e1 -> entityMap_ s !! p2 = Some e2 ->
    cpuIdx e1 = cpuIdx e2 -> p1 = p2;
  go_pinned pid e v cl : pid ∈ g_entityPids g -> entityMap_ s !! pid = Some e -> pidVcpuMap d !! pid = Some v ->
    cluster_of (d_numaId d) (g_clusterId g) s = Some cl -> (pin_file v, pretty (GetStartCpu cl + cpuIdx e)) ∈ cgroup_writes s;
}.

(** The same CPUs of the same cluster. *)
Definition same_window (g g' : VmGroup) : Prop :=
  same_place g g' ∧ g_start g' = g_start g ∧ g_nrCpus g' = g_nrCpus g.

Record progress (placed : gset Z) (s : Sched) : Prop := {
  pg_clusters : numaClusterMap_ s = numaClusterMap_ s0;
  pg_group gid : gid ∈ gs -> exists g0 g, groupMap_ s0 !! gid = Some g0 ∧ groupMap_ s !! gid = Some g ∧ same_window g0 g ∧ group_ok s g ∧
    g_entityPids g ⊆ placed;
  pg_placed pid : pid ∈ placed -> exists gid g, gid ∈ gs ∧ groupMap_ s !! gid = Some g ∧ pid ∈ g_entityPids g;
  pg_others pid : pid ∉ placed -> entityMap_ s !! pid = entityMap_ s0 !! pid;
  pg_sum : sum (cnt s) gs = Z.of_nat (size placed);
}.

Lemma sum_cons f x l : sum f (x :: l) = f x + sum f l.
Proof. done. Qed.

Lemma sum_insert gid g (s : Sched) m l :
  NoDup l -> gid ∈ l -> groupMap_ m = <[gid := g]> (groupMap_ s) ->
  sum (cnt m) l = sum (cnt s) l - cnt s gid + Z.of_nat (size (g_entityPids g)).
Proof.
  intros Hnd Hin Em. assert (Hne : forall x, x <> gid -> cnt m x = cnt s x) by (intros x Hx; unfold cnt; by rewrite Em, lookup_insert_ne).
  assert (Heq : cnt m gid = Z.of_nat (size (g_entityPids g))) by (unfold cnt; by rewrite Em, lookup_insert_eq).
  assert (Hout : forall l, gid ∉ l -> sum (cnt m) l = sum (cnt s) l).
  { induction l0 as [|x l0 IH]; intros Hx; [done|]. apply not_elem_of_cons in Hx as [H1 H2]. rewrite !sum_cons, Hne, IH; done. }
  induction l as [|x l IH]; [by apply not_elem_of_nil in Hin|]. apply NoDup_cons in Hnd as [Hx Hnd]. rewrite !sum_cons.
  destruct (decide (x = gid)) as [->|Hn]; [rewrite Hout, Heq by done; lia|]. apply elem_of_cons in Hin as [->|Hin]; [done|].
  rewrite Hne, IH by done. lia.
Qed.

(** A group that is not written keeps its threads. *)
Lemma group_ok_frame s s1 g pid e :
  group_ok s g -> (pid ∉ g_entityPids g) -> numaClusterMap_ s1 = numaClusterMap_ s -> entityMap_ s1 = <[pid := e]> (entityMap_ s) ->
  (forall x, x ∈ cgroup_writes s -> x ∈ cgroup_writes s1) -> group_ok s1 g.
Proof.
  intros G Hout En Ee Hw. assert (Hl : forall q, q ∈ g_entityPids g -> entityMap_ s1 !! q = entityMap_ s !! q).
  { intros q Hq. rewrite Ee, lookup_insert_ne; [done|]. by intros ->. }
  assert (Hc : forall c, cluster_of (d_numaId d) c s1 = cluster_of (d_numaId d) c s) by (intros; unfold cluster_of; by rewrite En). split.
  - apply (go_window _ _ G).
  - rewrite Hc. apply (go_cluster _ _ G).
  - apply (go_filled _ _ G).
  - intros q Hq. rewrite Hl by done. by apply (go_entity _ _ G).
  - intros p1 p2 e1 e2 H1 H2. rewrite !Hl by done. by apply (go_own _ _ G).
  - intros q e' v cl Hq. rewrite Hl, Hc by done. intros. apply Hw. by apply (go_pinned _ _ G q e' v cl).
Qed.

Lemma size_add (X : gset Z) pid : pid ∉ X -> size ({[ pid ]} ∪ X) = Datatypes.S (size X).
Proof. intros Hout. rewrite size_union by set_solver. by rewrite size_singleton. Qed.

(** The numbers of the CPUs of a cluster. *)
Lemma cluster_cpus s n c cl :
  numaClusterMap_ s = numaClusterMap_ s0 -> cluster_of n c s = Some cl ->
  0 < CLUSTER_CPU_NUM T < 32768 ∧ 0 <= GetStartCpu cl ∧ GetStartCpu cl + CLUSTER_CPU_NUM T <= MAX_CPU_NUM T < 32768.
Proof.
  intros En Ecl. unfold cluster_of in Ecl. rewrite En in Ecl. destruct (wf_static T s0 Hwf n c cl Ecl) as (info & Ei & Ecpu & _).
  destruct (topo_info T Htopo _ _ Ei) as (_ & Ht & _ & _ & lo & Elo & Hlo & Hend). pose proof (topo_max T Htopo). pose proof (topo_cluster T Htopo).
  assert (GetStartCpu cl = lo) as -> by (unfold GetStartCpu; by rewrite Ecpu, Elo). lia.
Qed.

(** A group with a CPU left takes one more thread at its next CPU. *)
Lemma group_ok_grow s s1 g pid v cl :
  let idx := g_start g + Z.of_nat (size (g_entityPids g)) in
  group_ok s g -> (pid ∉ g_entityPids g) -> pidVcpuMap d !! pid = Some v -> cluster_of (d_numaId d) (g_clusterId g) s1 = Some cl ->
  Z.of_nat (size (g_entityPids g)) < g_nrCpus g -> numaClusterMap_ s1 = numaClusterMap_ s -> CLUSTER_CPU_NUM T < 32768 ->
  entityMap_ s1 = <[pid := mkEntity pid idx]> (entityMap_ s) -> (forall x, x ∈ cgroup_writes s -> x ∈ cgroup_writes s1) ->
  (pin_file v, pretty (GetStartCpu cl + idx)) ∈ cgroup_writes s1 ->
  group_ok s1 (AddEntityToGroup (mkEntity pid idx) 1 g).
Proof.
  intros idx G Hout Hv Ecl Hroom En Hcn Ee Hw Hpin. pose proof (group_ok_frame s s1 g pid _ G Hout En Ee Hw) as F.
  destruct (go_window _ _ G) as (W0 & W1 & W2). destruct (go_filled _ _ G) as [[Hsz Hb] _].
  assert (Hsize : Z.of_nat (size (g_entityPids (AddEntityToGroup (mkEntity pid idx) 1 g))) = Z.of_nat (size (g_entityPids g)) + 1).
  { cbn. rewrite size_add by done. lia. }
  assert (Hnew : entityMap_ s1 !! pid = Some (mkEntity pid idx)) by (rewrite Ee; apply lookup_insert_eq).
  assert (Hin : forall q, q ∈ g_entityPids (AddEntityToGroup (mkEntity pid idx) 1 g) -> q = pid ∨ q ∈ g_entityPids g) by (cbn; set_solver).
  assert (Hold : forall q e, q ∈ g_entityPids g -> entityMap_ s1 !! q = Some e -> g_start g <= cpuIdx e < idx).
  { intros q e Hq Eq. destruct (go_entity _ _ F q Hq) as (e' & E' & He). rewrite Eq in E'. injection E' as <-. subst idx. lia. }
  split.
  - done.
  - apply (go_cluster _ _ F).
  - rewrite Hsize. split; [|cbn; lia]. split; [cbn; by rewrite bsize_Set|]. intros i. cbn. rewrite u16_small by (subst idx; lia).
    rewrite bit_Set by (unfold area_ok; subst idx; lia). rewrite Hb. subst idx. lia.
  - intros q [->|Hq]%Hin; rewrite Hsize; cbn [g_start AddEntityToGroup set_g_pids].
    + eexists. split; [exact Hnew|]. cbn. subst idx. lia.
    + destruct (go_entity _ _ F q Hq) as (e' & E' & He). exists e'. split; [done|]. lia.
  - intros p1 p2 e1 e2 [->|H1]%Hin [->|H2]%Hin E1 E2 Eidx; try done.
    + rewrite Hnew in E1. injection E1 as <-. apply (Hold p2 e2 H2) in E2. cbn in Eidx. lia.
    + rewrite Hnew in E2. injection E2 as <-. apply (Hold p1 e1 H1) in E1. cbn in Eidx. lia.
    + by apply (go_own _ _ F p1 p2 e1 e2).
  - intros q e v' cl' [->|Hq]%Hin Eq Ev Ec; [|by apply (go_pinned _ _ F q e v' cl')]. rewrite Hnew in Eq. injection Eq as <-.
    rewrite Hv in Ev. injection Ev as <-. cbn in Ec. rewrite Ecl in Ec. injection Ec as <-. done.
Qed.

(** The state after a thread is placed. *)
Lemma place_thread placed s s1 gid g pid v cl w :
  let idx := g_start g + Z.of_nat (size (g_entityPids g)) in
  progress placed s -> gid ∈ gs -> groupMap_ s !! gid = Some g -> (pid ∉ placed) -> pidVcpuMap d !! pid = Some v ->
  cluster_of (d_numaId d) (g_clusterId g) s = Some cl -> Z.of_nat (size (g_entityPids g)) < g_nrCpus g ->
  host_step s s1 -> cgroup_writes s1 = (pin_file v, pretty (GetStartCpu cl + idx)) :: w ++ cgroup_writes s ->
  progress ({[ pid ]} ∪ placed)
    (set_groupMap (<[gid := AddEntityToGroup (mkEntity pid idx) 1 g]> (groupMap_ s1)) (set_entityMap (<[pid := mkEntity pid idx]> (entityMap_ s1)) s1)).
Proof.
  intros idx P Hgid Eg Hout Hv Ecl Hroom Hs Ew. set (s2 := set_groupMap _ _). set (g' := AddEntityToGroup _ _ g) in s2.
  assert (Egm : groupMap_ s2 = <[gid := g']> (groupMap_ s)) by (subst s2; cbn; by rewrite Hs).
  assert (Ee : entityMap_ s2 = <[pid := mkEntity pid idx]> (entityMap_ s)) by (subst s2; cbn; by rewrite Hs).
  assert (En : numaClusterMap_ s2 = numaClusterMap_ s) by (subst s2; cbn; by rewrite Hs).
  assert (Hw : forall x, x ∈ cgroup_writes s -> x ∈ cgroup_writes s2) by (intros x Hx; subst s2; cbn; rewrite Ew; set_solver).
  destruct (pg_group _ _ P gid Hgid) as (g0 & g1 & Eg0 & Eg1 & Hwin & G & Hsub). rewrite Eg in Eg1. injection Eg1 as <-.
  assert (Hg : pid ∉ g_entityPids g) by set_solver.
  destruct (cluster_cpus s _ _ cl (pg_clusters _ _ P) Ecl) as ((_ & Hcn) & _).
  assert (G' : group_ok s2 g').
  { apply (group_ok_grow s s2 g pid v cl); try done; [unfold cluster_of; by rewrite En|]. subst s2. cbn. rewrite Ew. left. }
  split.
  - rewrite En. apply (pg_clusters _ _ P).
  - intros gid2 Hin2. destruct (decide (gid2 = gid)) as [->|Hne].
    + exists g0, g'. rewrite Egm, lookup_insert_eq. split_and!; try done. cbn. set_solver.
    + destruct (pg_group _ _ P gid2 Hin2) as (g2 & g3 & E2 & E3 & Hw2 & G2 & Hs2). exists g2, g3. rewrite Egm, lookup_insert_ne by done.
      split_and!; try done; [|set_solver]. apply (group_ok_frame s s2 g3 pid (mkEntity pid idx)); try done. set_solver.
  - intros q [->%elem_of_singleton|Hq]%elem_of_union.
    + exists gid, g'. rewrite Egm, lookup_insert_eq. split_and!; try done. cbn. set_solver.
    + destruct (pg_placed _ _ P q Hq) as (gid2 & g2 & Hin2 & E2 & Hq2). destruct (decide (gid2 = gid)) as [->|Hne].
      * exists gid, g'. rewrite Egm, lookup_insert_eq. rewrite Eg in E2. injection E2 as <-. split_and!; try done. cbn. set_solver.
      * exists gid2, g2. by rewrite Egm, lookup_insert_ne.
  - intros q [Hq1 Hq2]%not_elem_of_union. rewrite Ee, lookup_insert_ne; [by apply (pg_others _ _ P)|set_solver].
  - rewrite (sum_insert gid g' s s2) by (try done; apply NoDup_set_list). rewrite (pg_sum _ _ P). unfold cnt. rewrite Eg.
    rewrite !size_add by done. cbn [g_entityPids g' AddEntityToGroup set_g_pids e_pid]. rewrite size_add by done. lia.
Qed.

(** * The loops *)

(** [AssignPidCpu] on the groups [l]: the first one with a CPU left takes the thread. *)
Lemma assign_thread l placed s pid v :
  progress placed s -> (forall gid, gid ∈ l -> gid ∈ gs) -> (pid ∉ placed) -> pidVcpuMap d !! pid = Some v ->
  (exists gid, gid ∈ l ∧ cnt s gid < room s gid) ->
  twp (assign_in_groups T cf H d pid l) (fun r s' => r = (VAS_OK, d) ∧ progress ({[ pid ]} ∪ placed) s') s.
Proof.
  intros P Hl Hout Hv. induction l as [|gid l IH]; intros (gid0 & Hin0 & Hlt); [by apply not_elem_of_nil in Hin0|].
  cbn [assign_in_groups]. rewrite Hone. assert (Hgid : gid ∈ gs) by (apply Hl; left).
  destruct (pg_group _ _ P gid Hgid) as (g0 & g & Eg0 & Eg & Hwin & G & Hsub). apply twp_bind. unfold group_at, twp at 1. rewrite Eg.
  eexists _, _. split; [reflexivity|]. destruct (go_window _ _ G) as (W0 & W1 & W2). destruct (go_cluster _ _ G) as [cl Ecl].
  destruct (cluster_cpus s _ _ cl (pg_clusters _ _ P) Ecl) as ((_ & Hcn) & Hst & Hmax). destruct (go_filled _ _ G) as [Hf Hle].
  rewrite u16_small by lia. rewrite (filled_first (CLUSTER_CPU_NUM T) g _ Hf) by lia.
  destruct (Z.ltb_spec (Z.of_nat (size (g_entityPids g))) (g_nrCpus g)) as [Hroom|Hfull].
  - rewrite (proj2 (Z.ltb_lt _ _)) by lia. set (idx := g_start g + Z.of_nat (size (g_entityPids g))).
    destruct (isIntInvalid idx || _) eqn:Eb.
    { exfalso. apply orb_prop in Eb as [Eb|Eb]; [unfold isIntInvalid in Eb|]; subst idx; lia. }
    apply twp_bind, twp_gets. rewrite Ecl. cbn zeta. rewrite u16_small by (subst idx; lia). apply twp_bind.
    eapply twp_mono; [apply (affinity_good d pid v); try done; subst idx; lia|]. intros [ret d1] s1 ([= -> ->] & Hs1 & w & Ew).
    change (isVasRetFail VAS_OK) with false. cbn iota. apply twp_bind. unfold GenEntity. apply twp_bind, twp_modify, twp_ret, twp_bind, twp_modify, twp_ret.
    split; [done|]. by apply (place_thread placed s s1 gid g pid v cl w).
  - replace (isIntInvalid _ || _) with true.
    + apply IH; [intros x Hx; apply Hl; by right|]. exists gid0. split; [|done]. apply elem_of_cons in Hin0 as [->|?]; [|done].
      unfold cnt, room in Hlt. rewrite Eg in Hlt. lia.
    + symmetry. apply orb_true_iff. destruct (Z.ltb_spec (g_start g + Z.of_nat (size (g_entityPids g))) (CLUSTER_CPU_NUM T)); [right; lia|by left].
Qed.

Lemma sum_lt (f h : string -> Z) l : sum f l < sum h l -> exists gid, gid ∈ l ∧ f gid < h gid.
Proof.
  induction l as [|x l IH]; [cbn; lia|]. rewrite !sum_cons. intros Hlt. destruct (Z.ltb_spec (f x) (h x)); [exists x; split; [left|done]|].
  destruct IH as (gid & Hin & Hg); [lia|]. exists gid. split; [by right|done].
Qed.

Lemma sum_room placed s l : progress placed s -> (forall gid, gid ∈ l -> gid ∈ gs) -> sum (room s) l = sum (room s0) l.
Proof.
  intros P. induction l as [|x l IH]; intros Hl; [done|]. rewrite !sum_cons, IH by (intros y Hy; apply Hl; by right).
  destruct (pg_group _ _ P x) as (g0 & g & E0 & E & (_ & _ & Hn) & _); [apply Hl; left|]. unfold room. by rewrite E0, E, Hn.
Qed.

Lemma assign_threads ps placed s :
  progress placed s -> NoDup ps -> (forall pid, pid ∈ ps -> (pid ∉ placed) ∧ is_Some (pidVcpuMap d !! pid) ∧ entityMap_ s0 !! pid = None) ->
  Z.of_nat (size placed) + Z.of_nat (length ps) <= sum (room s0) gs ->
  twp (mfold (fun pid '(ret, domain) =>
           em ← gets entityMap_;
           match em !! pid with
           | Some _ => mret (ret, domain)
           | None => '(tmpRet, domain) ← AssignPidCpu T cf H domain pid; mret (if isVasRetFail tmpRet then VAS_ERROR else ret, domain)
           end) ps (VAS_OK, d))
    (fun r s' => r = (VAS_OK, d) ∧ progress (list_to_set ps ∪ placed) s') s.
Proof.
  revert placed s. induction ps as [|pid ps IH]; intros placed s P Hnd Hps Hroom.
  { apply twp_ret. split; [done|]. by rewrite list_to_set_nil, (left_id_L ∅ (∪)). }
  apply NoDup_cons in Hnd as [Hx Hnd]. destruct (Hps pid) as (Hout & [v Hv] & He); [left|]. apply twp_bind, twp_bind, twp_gets.
  rewrite (pg_others _ _ P pid Hout), He. apply twp_bind. cbn [length] in Hroom. eapply twp_mono.
  - apply (assign_thread gs placed s pid v); try done. apply sum_lt. rewrite (pg_sum _ _ P), (sum_room placed s gs P) by done. lia.
  - intros [ret d1] s1 [[= -> ->] P1]. apply twp_ret. cbn. eapply twp_mono; [apply IH; [exact P1|done| |]|].
    + intros q Hq. destruct (Hps q) as (H1 & H2 & H3); [by right|]. split_and!; try done. intros [->%elem_of_singleton|?]%elem_of_union; done.
    + rewrite size_add by done. lia.
    + intros r s2 [-> P2]. split; [done|]. replace ({[pid]} ∪ list_to_set ps ∪ placed) with (list_to_set ps ∪ ({[pid]} ∪ placed)) by set_solver. done.
Qed.
End Assign.

(** * Taking and pinning *)

Lemma sum_le_eq (f h : string -> Z) l : (forall x, x ∈ l -> f x <= h x) -> sum f l = sum h l -> forall x, x ∈ l -> f x = h x.
Proof.
  induction l as [|y l IH]; intros Hle E x Hx; [by apply not_elem_of_nil in Hx|]. rewrite !sum_cons in E.
  assert (Hl : forall z, z ∈ l -> f z <= h z) by (intros z Hz; apply Hle; by right).
  assert (Hs : forall k, (forall z, z ∈ k -> f z <= h z) -> sum f k <= sum h k).
  { induction k as [|z k IHk]; intros Hk; [done|]. rewrite !sum_cons. specialize (Hk z) as Hz.
    assert (sum f k <= sum h k) by (apply IHk; intros a Ha; apply Hk; by right). assert (f z <= h z) by (apply Hz; left). lia. }
  specialize (Hs l Hl). assert (f y <= h y) by (apply Hle; left). apply elem_of_cons in Hx as [->|Hx]; [lia|]. apply IH; [done|lia|done].
Qed.

(** Once all the threads are placed the groups are used to the last CPU. *)
Lemma progress_full T cf p d s0 placed s gid g :
  progress T cf p d s0 placed s -> sum (room s0) (set_list (d_groups d)) = Z.of_nat (size placed) ->
  gid ∈ d_groups d -> groupMap_ s !! gid = Some g -> Z.of_nat (size (g_entityPids g)) = g_nrCpus g.
Proof.
  intros P Hsum Hin Eg. assert (E : cnt s gid = room s gid); [|unfold cnt, room in E; by rewrite Eg in E].
  apply (sum_le_eq (cnt s) (room s) (set_list (d_groups d))).
  - intros x Hx. destruct (pg_group _ _ _ _ _ _ _ P x Hx) as (g0 & g1 & _ & E1 & _ & G & _). unfold cnt, room. rewrite E1. by apply (go_filled _ _ _ _ _ _ G).
  - rewrite (pg_sum _ _ _ _ _ _ _ P), <-Hsum. symmetry. by apply (sum_room T cf p d s0 placed s _ P).
  - by apply elem_of_set_list.
Qed.

Section Place.
Context (T : CpuHelper) (cf : VasdConf) (H : Host) (Htopo : topo_ok T) (Hone : GetGranularity T cf = 1).
Context (u p : string) (Hob : obliging H u p).

Lemma sum_Permutation f l l' : l ≡ₚ l' -> sum f l = sum f l'.
Proof. induction 1; rewrite ?sum_cons; try lia; done. Qed.

Lemma run_ids_list gl N d s m d' s' :
  run_effect T N d s gl m d' s' -> set_list (run_ids gl) ≡ₚ (fun x => g_id x.2) <$> gl.
Proof.
  intros R. apply NoDup_Permutation; [apply NoDup_set_list| |].
  - pose proof (run_ids_nodup T gl N d s m d' s' R) as Hnd. by rewrite <-list_fmap_compose in Hnd.
  - intros x. rewrite elem_of_set_list. unfold run_ids. by rewrite elem_of_list_to_set.
Qed.

Lemma run_map_id gl N d s m d' s' c l g :
  run_effect T N d s gl m d' s' -> (c, l, g) ∈ gl -> run_map gl !! g_id g = Some g.
Proof.
  intros R Hx. pose proof (run_map_lookup T gl N d s m d' s' c l g R Hx) as E. destruct (re_each _ _ _ _ _ _ _ _ R c l g Hx) as (_ & _ & _ & _ & Eg & _).
  rewrite Eg at 1. exact E.
Qed.

Lemma sum_run (s' : Sched) gl N d s m d' :
  run_effect T N d s gl m d' s' -> sum (room s') ((fun x => g_id x.2) <$> gl) = run_cpus gl.
Proof.
  intros R. assert (Hin : forall x, x ∈ gl -> room s' (g_id x.2) = g_nrCpus x.2).
  { intros [[c l] g] Hx. unfold room. rewrite (re_groups _ _ _ _ _ _ _ _ R). cbn.
    rewrite (lookup_union_Some_l _ _ _ g); [done|]. by apply (run_map_id gl N d s m d' s' c l g). }
  clear R. induction gl as [|x gl IH]; [done|]. rewrite fmap_cons, sum_cons, Hin by left. cbn [run_cpus foldr].
  f_equal. apply IH. intros y Hy. apply Hin. by right.
Qed.

(** The groups that [Alloc] has taken are ready for the threads. *)
Lemma progress_start d s gl d' s' :
  wf T s -> ids_ok d -> d_groups d = ∅ -> run_effect T (demand T cf d) d s gl (demand T cf d) d' s' -> same_domain d d' ->
  progress T cf p d' s' ∅ s' ∧ sum (room s') (set_list (d_groups d')) = demand T cf d.
Proof.
  intros Hwf Hd Hnone R Hs. assert (Hg : d_groups d' = run_ids gl) by (rewrite (re_ids _ _ _ _ _ _ _ _ R), Hnone; set_solver).
  assert (Hn : d_numaId d' = d_numaId d) by (by rewrite Hs).
  assert (Hnew : forall gid, gid ∈ set_list (d_groups d') -> exists c l g, (c, l, g) ∈ gl ∧ g_id g = gid ∧ groupMap_ s' !! gid = Some g ∧ g_clusterId g = c).
  { intros gid Hin. rewrite Hg, elem_of_set_list in Hin. destruct (run_ids_key T gl _ _ _ _ _ _ gid R Hin) as (c & l & g & Hx & Hid & _ & Hc & _).
    exists c, l, g. split_and!; try done. rewrite (re_groups _ _ _ _ _ _ _ _ R), <-Hid. apply lookup_union_Some_l.
    by apply (run_map_id gl (demand T cf d) d s (demand T cf d) d' s' c l g). }
  assert (Hempty : forall c l g, (c, l, g) ∈ gl -> g_entityPids g = ∅ ∧ g_usedBitmap g = replicate (Z.to_nat (CLUSTER_CPU_NUM T)) false).
  { intros c l g Hx. destruct (re_each _ _ _ _ _ _ _ _ R c l g Hx) as (_ & _ & _ & _ & -> & _). done. }
  split; [split|].
  - done.
  - intros gid Hin. destruct (Hnew gid Hin) as (c & l & g & Hx & Hid & Eg & Hc). exists g, g. destruct (Hempty c l g Hx) as [Hp Hb].
    destruct (re_each _ _ _ _ _ _ _ _ R c l g Hx) as (_ & H1 & H2 & H3 & _). split_and!; try done; [|by rewrite Hp]. split.
    + done.
    + destruct (re_present _ _ _ _ _ _ _ _ R c l g Hx) as [ly El]. rewrite Hn, Hc. apply layer_of_cluster in El as (cl & -> & _). by exists cl.
    + rewrite Hp, size_empty. split; [|cbn; lia]. split; [rewrite Hb; apply bsize_replicate; pose proof (topo_cluster T Htopo); lia|].
      intros i. rewrite Hb, bit_replicate. destruct (Z.leb_spec (g_start g) i), (Z.ltb_spec i (g_start g + Z.of_nat 0)); try done; lia.
    + intros pid. rewrite Hp. by intros ?%elem_of_empty.
    + intros p1 p2 e1 e2. rewrite Hp. by intros ?%elem_of_empty.
    + intros pid e v cl. rewrite Hp. by intros ?%elem_of_empty.
  - by intros pid ?%elem_of_empty.
  - done.
  - rewrite size_empty. assert (Hz : forall l, (forall gid, gid ∈ l -> cnt s' gid = 0) -> sum (cnt s') l = 0).
    { induction l as [|x l IH]; intros Hl; [done|]. rewrite sum_cons, Hl, IH; [done| |left]. intros y Hy. apply Hl. by right. }
    apply Hz. intros gid Hin. destruct (Hnew gid Hin) as (c & l & g & Hx & _ & Eg & _). unfold cnt. rewrite Eg. destruct (Hempty c l g Hx) as [-> _]. done.
  - rewrite Hg. rewrite (sum_Permutation _ _ _ (run_ids_list gl _ _ _ _ _ _ R)). rewrite (sum_run s' gl _ _ _ _ _ R).
    symmetry. apply (re_cpus _ _ _ _ _ _ _ _ R).
Qed.

(** [Alloc], and [Assign] when it succeeds, for a domain without groups and
    threads without a place. *)
Lemma place_spec d s :
  wf T s -> d_uuid d = u -> d_groups d = ∅ -> unknown_groups d s -> isReScheded d = false ->
  Z.of_nat (size (pidVcpuMap d)) < 2 ^ 32 -> (forall pid, is_Some (pidVcpuMap d !! pid) -> entityMap_ s !! pid = None) ->
  twp (Alloc T cf d) (fun r s1 =>
      (r.1 = VAS_ERROR ∧ entityMap_ s1 = entityMap_ s ∧ groupMap_ s1 = groupMap_ s ∧ cgroup_writes s1 = cgroup_writes s) ∨
      (r.1 = VAS_OK ∧ (exists gl, grants T (demand T cf d) d s gl (demand T cf d) r.2 s1) ∧ wf T s1 ∧ same_domain d r.2 ∧
         sum (room s1) (set_list (d_groups r.2)) = Z.of_nat (size (dom (pidVcpuMap d))) ∧
         twp (Assign T cf H r.2) (fun r2 s' => r2 = (VAS_OK, r.2) ∧ progress T cf p r.2 s1 (dom (pidVcpuMap d)) s') s1)) s.
Proof.
  intros Hwf Hu Hnone Hunk Hre Hsize Hfree. assert (Hd : ids_ok d) by (intros gid; rewrite Hnone; by intros ?%elem_of_empty).
  assert (HN : demand T cf d = Z.of_nat (size (pidVcpuMap d))) by (unfold demand; rewrite Hone, Z.mul_1_r; apply Z.mod_small; lia).
  eapply twp_mono; [by apply alloc_spec|]. intros [ret d1] s1. unfold alloc_ends. cbn [fst snd].
  intros [(-> & -> & [E|[_ E]])|(_ & [[Er (gl & Hg)]|[Er (gl & m & d2 & s2 & Hg & _ & _ & Es)]])].
  - subst ret. by left.
  - congruence.
  - subst ret. cbn. assert (HN0 : 0 <= demand T cf d) by lia. pose proof (grants_effect T Htopo _ _ _ _ _ _ _ Hwf Hd HN0 Hg) as R.
    destruct (grants_inv T _ _ _ _ _ _ _ Hg Hwf Hd) as (W1 & _ & Hs). destruct (progress_start d s gl d1 s1 Hwf Hd Hnone R Hs) as [P Hsum].
    assert (Hp : pidVcpuMap d1 = pidVcpuMap d) by (by rewrite Hs). assert (Hu1 : d_uuid d1 = u) by (by rewrite Hs).
    right. split_and!; [done|by exists gl|done|done|cbn; by rewrite Hsum, HN, size_dom|].
    unfold Assign. rewrite Hp. eapply twp_mono.
    + apply (assign_threads T cf H Htopo Hone u p Hob d1 s1 W1 Hu1 (map_keys (pidVcpuMap d)) ∅ s1 P); [apply NoDup_map_keys| |].
      * intros pid Hin%elem_of_map_keys. split_and!; [by intros ?%elem_of_empty|by rewrite Hp|].
        destruct (re_rest _ _ _ _ _ _ _ _ R) as (_ & -> & _). by apply Hfree.
      * rewrite Hsum, HN, size_empty, length_map_keys. lia.
    + intros r s3 [-> P3]. split; [done|].
      replace (dom (pidVcpuMap d)) with (list_to_set (map_keys (pidVcpuMap d)) ∪ (∅ : gset Z)); [done|].
      apply set_eq. intros x. rewrite elem_of_union, elem_of_list_to_set, elem_of_map_keys, elem_of_dom. set_solver.
  - subst ret. left. subst s1.
    assert (HN0 : 0 <= demand T cf d) by lia. destruct (undo_run T Htopo _ _ _ _ _ _ _ Hwf Hd HN0 Hnone Hunk Hg) as [Egm _].
    pose proof (grants_effect T Htopo _ _ _ _ _ _ _ Hwf Hd HN0 Hg) as R. destruct (re_rest _ _ _ _ _ _ _ _ R) as (_ & E1 & _ & E2 & _).
    destruct (free_rest (d_numaId d2) (set_list (d_groups d2)) s2) as (_ & _ & F1 & _ & F2 & _). split_and!; [done|congruence|exact Egm|congruence].
Qed.

(** The place of a group in the layers of before. *)
Lemma group_origin d s gl m d' s1 gid g0 :
  wf T s -> ids_ok d -> 0 <= demand T cf d -> d_groups d = ∅ -> grants T (demand T cf d) d s gl m d' s1 -> gid ∈ d_groups d' -> groupMap_ s1 !! gid = Some g0 ->
  (g_clusterId g0, g_layerId g0, g0) ∈ gl ∧ (exists cl, cluster_of (d_numaId d) (g_clusterId g0) s = Some cl) ∧
  exists b, base_layer T s (d_numaId d) (g_clusterId g0) (g_layerId g0) = Some b.
Proof.
  intros Hwf Hd HN Hnone Hg Hin Eg0. pose proof (grants_effect T Htopo _ _ _ _ _ _ _ Hwf Hd HN Hg) as R.
  assert (Hids : d_groups d' = run_ids gl) by (rewrite (re_ids _ _ _ _ _ _ _ _ R), Hnone; set_solver). rewrite Hids in Hin.
  destruct (run_ids_key T gl _ _ _ _ _ _ gid R Hin) as (c & l & g & Hx & Hid & _ & Hc & Hl).
  assert (g0 = g) as ->.
  { rewrite (re_groups _ _ _ _ _ _ _ _ R), <-Hid in Eg0. rewrite (lookup_union_Some_l _ _ _ g) in Eg0; [congruence|].
    by apply (run_map_id gl (demand T cf d) d s m d' s1 c l g). }
  rewrite Hc, Hl. split; [done|]. destruct (re_present _ _ _ _ _ _ _ _ R c l g Hx) as [ly El]. split.
  - apply (re_clusters _ _ _ _ _ _ _ _ R). apply layer_of_cluster in El as (cl & -> & _). by exists cl.
  - destruct (re_layer _ _ _ _ _ _ _ _ R _ _ _ _ El) as (b & Eb & _). by exists b.
Qed.

Lemma start_cpu_same n c s s1 cl cl1 : wf T s -> wf T s1 -> cluster_of n c s = Some cl -> cluster_of n c s1 = Some cl1 -> GetStartCpu cl = GetStartCpu cl1.
Proof.
  intros W W1 E E1. destruct (wf_static T s W n c cl E) as (i & Ei & C & _). destruct (wf_static T s1 W1 n c cl1 E1) as (i1 & Ei1 & C1 & _).
  unfold GetStartCpu. rewrite C, C1. congruence.
Qed.

(** A placed thread: its group, its CPU, its file, and what the CPU was before. *)
Lemma thread_pinned d d' s gl s1 s' pid v :
  wf T s -> wf T s1 -> d_groups d = ∅ -> 0 <= demand T cf d -> grants T (demand T cf d) d s gl (demand T cf d) d' s1 -> same_domain d d' ->
  progress T cf p d' s1 (dom (pidVcpuMap d)) s' -> pidVcpuMap d !! pid = Some v ->
  exists gid g e cl, gid ∈ d_groups d' ∧ groupMap_ s' !! gid = Some g ∧ pid ∈ g_entityPids g ∧
    entityMap_ s' !! pid = Some e ∧ g_start g <= cpuIdx e < g_start g + g_nrCpus g ∧
    cluster_of (d_numaId d) (g_clusterId g) s' = Some cl ∧ (pin_file cf p v, pretty (GetStartCpu cl + cpuIdx e)) ∈ cgroup_writes s' ∧
    (solid T d s -> bit (commonCpuMap d) (GetStartCpu cl + cpuIdx e) = true ∧
       exists b, base_layer T s (d_numaId d) (g_clusterId g) (g_layerId g) = Some b ∧ bit (l_usedBitmap b) (cpuIdx e) = false).
Proof.
  intros Hwf W1 Hnone HN Hg Hs P Hv. assert (Hd : ids_ok d) by (intros gid; rewrite Hnone; by intros ?%elem_of_empty).
  assert (Hn : d_numaId d' = d_numaId d) by (by rewrite Hs). assert (Hp : pidVcpuMap d' = pidVcpuMap d) by (by rewrite Hs).
  destruct (pg_placed _ _ _ _ _ _ _ P pid) as (gid & g & Hgid & Eg & Hpid); [apply elem_of_dom; by exists v|].
  destruct (pg_group _ _ _ _ _ _ _ P gid Hgid) as (g0 & g1 & Eg0 & Eg1 & ((_ & _ & Pc & Pl) & Pst & Pn) & G & _). rewrite Eg in Eg1. injection Eg1 as <-.
  apply elem_of_set_list in Hgid. destruct (go_entity _ _ _ _ _ _ G pid Hpid) as (e & Ee & He). destruct (go_cluster _ _ _ _ _ _ G) as [cl Ecl].
  destruct (go_filled _ _ _ _ _ _ G) as [_ Hle]. pose proof (go_pinned _ _ _ _ _ _ G pid e v cl Hpid Ee ltac:(by rewrite Hp) Ecl) as Hpin.
  rewrite Hn in Ecl. exists gid, g, e, cl. split_and!; try done; [lia..|]. intros Hsol.
  destruct (group_origin d s gl _ d' s1 gid g0 Hwf Hd HN Hnone Hg Hgid Eg0) as (Hx & [cl0 Ec0] & b & Eb).
  destruct (grants_window T Htopo _ _ _ _ _ _ _ _ _ g0 cl0 b Hwf Hd HN Hsol Hg Hx Ec0 Eb) as [(_ & _ & Hw) Hall].
  assert (Ecl1 : cluster_of (d_numaId d) (g_clusterId g0) s1 = Some cl) by (unfold cluster_of in *; by rewrite <-(pg_clusters _ _ _ _ _ _ _ P), <-Pc).
  rewrite <-(start_cpu_same _ _ s s1 cl0 cl Hwf W1 Ec0 Ecl1). split; [apply Hall; lia|]. exists b. rewrite Pc, Pl. split; [done|]. apply Hw. lia.
Qed.
End Place.
