(* ===== verification/ClusterSchedSelect.v ===== *)
(** The choice of a NUMA node by [SelectVmNuma]: the nodes open to all the
    vCPUs, the best of the places with room, and the node with the fewest
    layers when no place has room. *)

From S2P Require Import Prelude VasLib DynamicBitset ClusterVm ClusterSched ClusterSchedFacts.

(** The node is known and open to every vCPU. *)
Definition allowed (s : Sched) (vm : VmInfo) (n : Z) : Prop :=
  n ∈ dom (numaClusterMap_ s) ∧ forall v i, (v, i) ∈ vcpuMap vm -> n ∈ v_numaSet i.

(** The layer [l] of the node has room for [k] vCPUs. *)
Definition fits (s : Sched) (m : NumaUsedCpuMap) (k n l : Z) : Prop :=
  0 <= l < GetOverProvision n s ∧ used_at l n m + k <= GetNumaCpuCount n s.

Lemma available_fold (l : list (Z * VcpuInfo)) (avail : gset Z) x n :
  x ∈ avail -> (forall v i, (v, i) ∈ l -> x ∈ v_numaSet i) ->
  n ∈ foldl (fun (avail : gset Z) '(_, vcpuInfo) => if bool_decide (avail = ∅) then v_numaSet vcpuInfo else avail ∩ v_numaSet vcpuInfo) avail l <->
  n ∈ avail ∧ forall v i, (v, i) ∈ l -> n ∈ v_numaSet i.
Proof.
  revert avail. induction l as [|[v i] l IH]; intros avail Hx Hall; cbn [foldl].
  - split; [|by intros [? _]]. intros Hn. split; [done|]. by intros ? ? ?%elem_of_nil.
  - rewrite bool_decide_eq_false_2 by set_solver. rewrite IH.
    + rewrite elem_of_intersection. split.
      * intros [[H1 H2] H3]. split; [done|]. intros v' i' [[= -> ->]|Hin]%elem_of_cons; [done|by apply (H3 v')].
      * intros [H1 H2]. split; [split; [done|apply (H2 v); left]|]. intros v' i' Hin. apply (H2 v'). by right.
    + apply elem_of_intersection. split; [done|]. apply (Hall v). left.
    + intros v' i' Hin. apply (Hall v'). by right.
Qed.

Lemma available_allowed s vm n : (exists x, allowed s vm x) -> n ∈ available_numas s vm <-> allowed s vm n.
Proof. intros (x & Hx & Hall). by apply (available_fold _ _ x). Qed.

Section Select.
Context (T : CpuHelper) (s : Sched) (Hwf : wf T s) (m : NumaUsedCpuMap) (k : Z) (Hm : forall l n, 0 <= used_at l n m < 32768).

(** What has been selected among the places seen so far. *)
Definition best (seen : Z -> Z -> Prop) (sel : Z * Z * Z) : Prop :=
  let '(n, l, u) := sel in
  (sel = (0, maxOverProvision, -1) ∧ forall n' l', seen n' l' -> ~ fits s m k n' l') ∨
  (u = used_at l n m ∧ seen n l ∧ fits s m k n l ∧ forall n' l', seen n' l' -> fits s m k n' l' -> l' <= l -> used_at l' n' m <= u).

Lemma best_step seen n l sel :
  0 <= l < GetOverProvision n s -> best seen sel -> best (fun n' l' => seen n' l' ∨ (n' = n ∧ l' = l)) (select_step s m k n sel l).
Proof.
  intros Hl Hb. destruct sel as [[n0 l0] u0]. unfold select_step. pose proof (wf_over_bound T s n Hwf) as Hop. pose proof (Hm l n) as Hu.
  assert (Ei : i16 (used_at l n m) = used_at l n m) by (apply i16_small; lia). rewrite Ei.
  destruct ((u0 <? used_at l n m) && (l <=? l0) && (used_at l n m + k <=? GetNumaCpuCount n s)) eqn:Eb.
  - apply andb_true_iff in Eb as [[Eb1 Eb2]%andb_true_iff Eb3]. right. split; [done|]. split; [by right|]. split; [unfold fits; lia|].
    intros n' l' [Hs|[-> ->]] Hf Hle; [|lia]. destruct Hb as [[[= -> -> ->] Hno]|(-> & _ & _ & Hbest)]; [by apply Hno in Hf|].
    assert (used_at l' n' m <= used_at l0 n0 m) by (apply Hbest; [done|done|lia]). lia.
  - destruct Hb as [[E Hno]|(-> & Hs & Hf & Hbest)].
    + left. split; [done|]. injection E as -> -> ->. intros n' l' [Hs|[-> ->]]; [by apply Hno|]. intros [_ Hf].
      apply andb_false_iff in Eb as [[Eb|Eb]%andb_false_iff|Eb]; lia.
    + right. split; [done|]. split; [by left|]. split; [done|]. intros n' l' [Hs'|[-> ->]] Hf' Hle; [by apply Hbest|]. destruct Hf' as [_ Hf'].
      apply andb_false_iff in Eb as [[Eb|Eb]%andb_false_iff|Eb]; lia.
Qed.

Lemma best_ext seen seen' sel : (forall n l, seen n l <-> seen' n l) -> best seen sel -> best seen' sel.
Proof.
  intros Hs. destruct sel as [[n l] u]. intros [[E Hno]|(E & H1 & H2 & H3)]; [left|right].
  - split; [done|]. intros n' l' ?%Hs. by apply Hno.
  - split_and!; [done|by apply Hs|done|]. intros n' l' ?%Hs. by apply H3.
Qed.

Lemma best_node seen n ls sel :
  (forall l, l ∈ ls -> 0 <= l < GetOverProvision n s) -> best seen sel ->
  best (fun n' l' => seen n' l' ∨ (n' = n ∧ l' ∈ ls)) (foldl (select_step s m k n) sel ls).
Proof.
  revert seen sel. induction ls as [|l ls IH]; intros seen sel Hls Hb; cbn [foldl].
  - eapply best_ext; [|exact Hb]. intros n' l'. split; [by left|]. by intros [?|[_ ?%elem_of_nil]].
  - eapply best_ext; [|apply IH; [intros l' Hl'; apply Hls; by right|apply best_step; [apply Hls; left|exact Hb]]].
    intros n' l'. rewrite elem_of_cons. cbn. tauto.
Qed.

Lemma best_nodes seen ns sel :
  best seen sel ->
  best (fun n l => seen n l ∨ (n ∈ ns ∧ 0 <= l < GetOverProvision n s))
    (foldl (fun sel numaId => foldl (select_step s m k numaId) sel (seqZ 0 (GetOverProvision numaId s))) sel ns).
Proof.
  revert seen sel. induction ns as [|n ns IH]; intros seen sel Hb; cbn [foldl].
  - eapply best_ext; [|exact Hb]. intros n l. split; [by left|]. by intros [?|[?%elem_of_nil _]].
  - eapply best_ext; [|apply IH, best_node; [|exact Hb]].
    + intros n' l'. rewrite elem_of_cons, elem_of_seqZ, Z.add_0_l. cbn. split; [|intros [?|[[->|?] ?]]; tauto]. intros [[?|[-> ?]]|?]; tauto.
    + intros l Hl%elem_of_seqZ. lia.
Qed.

(** The node with the fewest layers. *)
Lemma min_layer_fold ns acc sel :
  let '(a, n) := foldl (fun '(m, sel) numaId => if GetOverProvision numaId s <? m then (GetOverProvision numaId s, numaId) else (m, sel)) (acc, sel) ns in
  a <= acc ∧ (forall n', n' ∈ ns -> a <= GetOverProvision n' s) ∧ ((a = acc ∧ n = sel) ∨ (n ∈ ns ∧ a = GetOverProvision n s)).
Proof.
  revert acc sel. induction ns as [|x ns IH]; intros acc sel; cbn [foldl].
  - split_and!; [lia|by intros ? ?%elem_of_nil|by left].
  - destruct (Z.ltb_spec (GetOverProvision x s) acc) as [Hlt|Hge].
    + specialize (IH (GetOverProvision x s) x). destruct (foldl _ _ ns) as [a n]. destruct IH as (H1 & H2 & H3). split_and!; [lia| |].
      * intros n' [->|Hin]%elem_of_cons; [lia|by apply H2].
      * right. destruct H3 as [[-> ->]|[Hin ->]]; (split; [|done]); [left|by right].
    + specialize (IH acc sel). destruct (foldl _ _ ns) as [a n]. destruct IH as (H1 & H2 & H3). split_and!; [done| |].
      * intros n' [->|Hin]%elem_of_cons; [lia|by apply H2].
      * destruct H3 as [?|[Hin ->]]; [by left|]. right. split; [by right|done].
Qed.
End Select.
