(* ===== verification/ClusterSchedThms.v ===== *)
(** The theorems on the cluster scheduler of virt-awaresched: its search for
    idle CPUs, its choice of a NUMA node, what [Alloc] takes and gives back,
    where the vCPU threads end up, and the invariant of every sequence of
    requests.  The last part are two runs in which threads share a CPU or an
    iterator is used after its element is erased. *)

From S2P Require Import Prelude VasLib DynamicBitset ClusterVm ClusterSched ClusterSchedFacts ClusterSchedInv ClusterSchedAlloc ClusterSchedOps ClusterSchedReach ClusterSchedAssign ClusterSchedSelect.

(** * A machine for the examples: two nodes of two clusters of four CPUs *)

Definition ex_cpus (lo n : Z) : gset Z := list_to_set (seqZ lo n).
Definition ex_cluster (id numa : Z) : ClusterInfo := mkClusterInfo id numa 4 (ex_cpus (4 * id) 4) (replicate 4 false).
Definition ex_topo : CpuHelper :=
  mkCpuHelper 4 16 1 {[ 0 := ex_cluster 0 0; 1 := ex_cluster 1 0; 2 := ex_cluster 2 1; 3 := ex_cluster 3 1 ]} {[ 0 := ex_cpus 0 8; 1 := ex_cpus 8 8 ]}.
Definition ex_conf : VasdConf := mkConf true "affinity".
Definition ex_host : Host :=
  fun _ => mkHost true (fun _ => true) (fun _ => 1) (Some ["machine-qemu\x2d1\x2dvm"]) true true true true true {[ "a"; "b"; "c" ]} (fun l => l).
Definition ex_path : string := vmCgroupPrefix +:+ "/machine-qemu\x2d1\x2dvm/libvirt".

(** A VM with the threads [pid + 1], [pid + 2], ... that may run anywhere on the nodes [numas]. *)
Definition ex_vm (u : string) (pid n : Z) (numas : gset Z) : VmInfo :=
  mkVmInfo u u pid ((fun i => (i, mkVcpuInfo (pid + 1 + i) numas (replicate 16 true))) <$> seqZ 0 n).
Definition ex_domain : VmDomain := mkDomain "a" "a" 0 100 {[ 101 := 0; 102 := 1 ]} (replicate 16 true) ∅ ∅ false.
Definition ex_start : Sched := (InitClusterInfo ex_topo sched0).2.

Lemma ex_topo_ok : topo_ok ex_topo.
Proof.
  split; [|done|done]. intros c info. cbn. intros E. repeat (apply lookup_insert_Some in E as [[<- <-]|[_ E]];
    [split_and!; try done; eexists; split; [vm_compute; reflexivity|split; [done|vm_compute; done]]|]).
  apply lookup_singleton_Some in E as [<- <-]. split_and!; try done. eexists. split; [vm_compute; reflexivity|split; [done|vm_compute; done]].
Qed.

Lemma ex_obliging u : obliging ex_host u ex_path.
Proof. split; [|done]. intros t. split_and!; try done. eexists _, _. split; [done|]. split; [vm_compute; reflexivity|vm_compute; reflexivity]. Qed.

Lemma ex_start_wf : wf ex_topo ex_start.
Proof. apply init_wf, ex_topo_ok. Qed.

(** * The search *)

(** [FindFirstIdlePos] on a map shorter than the range of its counters,
    for any [start] and [size]: it fails exactly when [size] is zero or fewer
    than [size] bits are idle from [start] on, and otherwise answers the first
    idle bit.  When the idle bits of the map follow one another, the answer is
    the lowest position at or after [start] of an idle area of [size] bits, and
    it fails exactly when there is none. *)
Theorem vas_search_correct (bs : DynamicBitset) (start size : Z) :
  0 <= start -> 0 <= size -> bsize bs < 32768 ->
  let pos := FindFirstIdlePos bs start size in
  (pos = -1 <-> size = 0 ∨ Z.of_nat (length (idle_from bs start)) < size) ∧
  (pos <> -1 -> start <= pos ∧ bit bs pos = false ∧ (forall i, start <= i < pos -> bit bs i = true) ∧ pos + size <= bsize bs) ∧
  (unbroken bs -> 0 < size ->
     (pos <> -1 -> window_free bs pos size) ∧ (forall q, start <= q -> window_free bs q size -> pos <> -1 ∧ pos <= q)).
Proof.
  intros H0 H1 Hlen pos. assert (Hbits : pos <> -1 -> start <= pos ∧ bit bs pos = false ∧ (forall i, start <= i < pos -> bit bs i = true) ∧ pos + size <= bsize bs).
  { intros Hne. destruct (find_first_idle_found bs start size) as (A1 & A2 & A3 & A4 & A5 & A6); try done. }
  assert (Hfail : pos = -1 <-> size = 0 ∨ Z.of_nat (length (idle_from bs start)) < size).
  { subst pos. rewrite find_first_idle_eq by done. destruct (Z.ltb_spec 0 size), (Z.leb_spec size (Z.of_nat (length (idle_from bs start)))); cbn [andb]; try (split; [lia|done]); try lia.
    destruct (idle_from bs start) as [|q l] eqn:E; [cbn in *; lia|]. destruct (idle_from_head bs start q l H0 E) as (Hq & _). cbn [head default from_option]. unfold id. lia. }
  split_and!; [done|done|]. intros Hun Hs. split; [intros Hne; apply find_first_idle_window; auto|]. intros q Hq (Q0 & Q1 & Q2).
  assert (Hn : pos <> -1).
  { intros [?|Hlt]%Hfail; [lia|]. assert (size <= Z.of_nat (length (idle_from bs start))); [|lia]. by apply (idle_window_length bs start q); [lia..|]. }
  split; [done|]. destruct (Hbits Hn) as (_ & _ & Hb & _). destruct (Z.le_gt_cases pos q); [done|]. specialize (Hb q). rewrite Q2 in Hb by lia.
  assert (false = true) by (apply Hb; lia). done.
Qed.

Lemma vas_search_correct_witness :
  let bs := [true; false; false; true] in
  FindFirstIdlePos bs 0 2 = 1 ∧ window_free bs (FindFirstIdlePos bs 0 2) 2.
Proof.
  split; [reflexivity|]. destruct (vas_search_correct [true; false; false; true] 0 2) as (_ & _ & Hw); [lia|lia|vm_compute; reflexivity|].
  apply Hw; [|lia|vm_compute; discriminate].
  intros i j k Hi Hj Hk Bi Bk. change (k < 4) in Hk.
  assert (i = 0 ∨ i = 1 ∨ i = 2 ∨ i = 3) as [-> | [-> | [-> | ->]]] by lia; try discriminate Bi;
    assert (k = 1 ∨ k = 2 ∨ k = 3) as [-> | [-> | ->]] by lia; try discriminate Bk; assert (j = 1 ∨ j = 2) as [-> | ->] by lia; reflexivity.
Defined.

(** * Taking CPUs *)

(** C18. [Alloc] for a domain that holds no group, on a machine whose clusters
    all have [CLUSTER_CPU_NUM] CPUs: it always returns and keeps the
    invariant.  When it succeeds it has taken exactly one CPU per vCPU and
    granule, in groups of the domain's node, each in a layer of its own, filed
    once, listed by its layer and counted off its idle CPUs, and every other
    layer is as before or new.  When it fails nothing is left: the groups are
    those of before and each layer that was there has its idle count, its size
    and its groups back.  When the CPUs open to the domain are not scattered,
    every CPU taken was idle and is allowed to the VM, and a failure leaves
    the very layers of before. *)
Theorem vas_alloc_transactional T cf d s :
  topo_ok T -> wf T s -> d_groups d = ∅ -> unknown_groups d s -> isReScheded d = false ->
  twp (Alloc T cf d) (fun r s' => wf T s' ∧
    ((r.1 = VAS_OK ∧ exists gl, run_effect T (demand T cf d) d s gl (demand T cf d) r.2 s' ∧
        (solid T d s -> forall c l g cl b, (c, l, g) ∈ gl -> cluster_of (d_numaId d) c s = Some cl -> base_layer T s (d_numaId d) c l = Some b ->
           window_free (l_usedBitmap b) (g_start g) (g_nrCpus g) ∧
           forall i, g_start g <= i < g_start g + g_nrCpus g -> bit (commonCpuMap d) (GetStartCpu cl + i) = true)) ∨
     (r.1 = VAS_ERROR ∧ d_groups r.2 = ∅ ∧ groupMap_ s' = groupMap_ s ∧ entityMap_ s' = entityMap_ s ∧ domainMap_ s' = domainMap_ s ∧
        forall n c l ly, layer_of n c l s' = Some ly -> exists b, base_layer T s n c l = Some b ∧
          l_idle ly = l_idle b ∧ l_total ly = l_total b ∧ l_groups ly = l_groups b ∧ (solid T d s -> ly = b)))) s.
Proof.
  intros Ht Hwf Hnone Hunk Hre. assert (Hd : ids_ok d) by (intros gid; rewrite Hnone; by intros ?%elem_of_empty).
  assert (HN : 0 <= demand T cf d) by apply Z.mod_pos_bound, eq_refl.
  eapply twp_mono; [exact (twp_and _ _ _ _ (alloc_wf T cf Ht d s Hwf Hd) (alloc_spec T cf Ht d s Hwf Hd))|].
  intros [ret d1] s1. unfold alloc_ends. cbn [fst snd]. intros [(W & _) [(-> & -> & [->|[_ ?]])|(_ & [[-> (gl & Hg)]|[-> (gl & m & d2 & s2 & Hg & _ & Hd1 & Es)]])]]; [|congruence|..].
  - split; [done|]. right. split_and!; try done. intros n c l ly El. exists ly. unfold base_layer. by rewrite El.
  - split; [done|]. left. split; [done|]. exists gl. split; [by apply grants_effect|]. intros Hs c l g cl b Hin Ec Eb. exact (grants_window T Ht _ _ _ _ _ _ _ c l g cl b Hwf Hd HN Hs Hg Hin Ec Eb).
  - split; [done|]. right. subst s1 d1. destruct (undo_run T Ht _ _ _ _ _ _ _ Hwf Hd HN Hnone Hunk Hg) as [Egm Hl].
    destruct (re_rest _ _ _ _ _ _ _ _ (grants_effect T Ht _ _ _ _ _ _ _ Hwf Hd HN Hg)) as (E1 & E2 & _).
    destruct (free_rest (d_numaId d2) (set_list (d_groups d2)) s2) as (_ & F1 & F2 & _). split_and!; [done|done|exact Egm|congruence|congruence|].
    intros n c l ly El. destruct (Hl n c l ly El) as (b & Eb & L1 & L2 & L3 & L4). exists b. split_and!; try done. intros Hs. apply L4.
    intros g Hin. destruct (base_layer_cluster T s _ _ _ _ Eb) as [cl Ec]. pose proof (grants_node T Ht _ _ _ _ _ _ _ c l g n cl Hwf Hd HN Hg Hin Ec) as ->.
    by apply (grants_window T Ht _ _ _ _ _ _ _ c l g cl b Hwf Hd HN Hs Hg Hin Ec Eb).
Qed.

Lemma vas_alloc_transactional_witness :
  match Alloc ex_topo ex_conf ex_domain ex_start with Some ((ret, d'), s') => ret = VAS_OK ∧ wf ex_topo s' | None => False end.
Proof.
  destruct (vas_alloc_transactional ex_topo ex_conf ex_domain ex_start ex_topo_ok ex_start_wf) as ([ret d'] & s' & E & W & _);
    [reflexivity|intros c l; reflexivity|reflexivity|].
  rewrite E. split; [|exact W]. assert (Hr : (fst <$> Alloc ex_topo ex_conf ex_domain ex_start) ≫= (fun r => Some r.1) = Some VAS_OK) by (vm_compute; reflexivity).
  rewrite E in Hr. injection Hr as ->. reflexivity.
Defined.

(** First fit: when a VM needs at most one cluster's CPUs, [Alloc] takes
    them all in one group of the first layer, in the lowest cluster of the
    node that has enough idle CPUs the VM may use, at the first idle one. *)
Theorem vas_alloc_first_fit T cf d c s :
  topo_ok T -> wf T s -> isReScheded d = false -> 0 < demand T cf d <= CLUSTER_CPU_NUM T ->
  demand T cf d <= GetNumaTotalCpus (d_numaId d) s ->
  has_room (demand T cf d) d c 0 s -> (forall c', c' < c -> ~ has_room (demand T cf d) d c' 0 s) ->
  twp (Alloc T cf d) (fun r s' => r.1 = VAS_OK ∧ exists g, g_nrCpus g = demand T cf d ∧ r.2 = AddGroupToDomain g d ∧
    g = new_group T d c 0 (g_start g) (g_nrCpus g) ∧
    (forall cl ly, cluster_of (d_numaId d) c s = Some cl -> layer_of (d_numaId d) c 0 s = Some ly ->
       g_start g = FindFirstIdlePos (busy_map d cl ly) 0 (demand T cf d) ∧ g_start g <> -1) ∧
    s' = upd_layer (d_numaId d) c 0 (AddGroupToClusterLayer g) (set_groupMap (<[g_id g := g]> (groupMap_ s)) s)) s.
Proof.
  intros Ht Hwf Hre Hn Htot Hroom Hfirst. eapply twp_mono; [by apply (alloc_first T cf Ht d c s)|].
  intros [ret d'] s' [Hret (g & (cl & ly & Ec & El & Hch & Hst & _ & Hg & Hd' & Hs') & Hk)]. split; [done|]. exists g. split_and!; try done.
  intros cl' ly' Ec' El'. rewrite Ec in Ec'. rewrite El in El'. injection Ec' as <-. injection El' as <-. split; [|done].
  destruct (layer_static T Ht _ c cl 0 ly s Hwf Ec El) as (Htl & _). rewrite choose_small in Hch by lia.
  destruct (_ <=? _); injection Hch as E _; congruence.
Qed.

Lemma vas_alloc_first_fit_witness :
  match Alloc ex_topo ex_conf ex_domain ex_start with
  | Some ((ret, d'), s') => ret = VAS_OK ∧ d_groups d' = {[ group_key (domain_key "a" 0) 0 0 ]} | None => False end.
Proof.
  assert (Hroom : has_room (demand ex_topo ex_conf ex_domain) ex_domain 0 0 ex_start).
  { eexists _, _. split; [reflexivity|]. split; [reflexivity|]. split; vm_compute; discriminate. }
  assert (Hno : forall c', c' < 0 -> ~ has_room (demand ex_topo ex_conf ex_domain) ex_domain c' 0 ex_start).
  { intros c' Hc (cl & _ & Ec & _). apply (wf_static ex_topo ex_start ex_start_wf) in Ec as (info & Ei & _).
    cbn in Ei. repeat (apply lookup_insert_Some in Ei as [[<- _]|[_ Ei]]; [lia|]). apply lookup_singleton_Some in Ei as [<- _]. lia. }
  destruct (vas_alloc_first_fit ex_topo ex_conf ex_domain 0 ex_start ex_topo_ok ex_start_wf) as ([ret d'] & s' & E & Hret & g & _ & Hd & Hg & _);
    [reflexivity|vm_compute; split; [reflexivity|discriminate]|vm_compute; discriminate|exact Hroom|exact Hno|].
  rewrite E. split; [exact Hret|]. cbn in Hd. subst d'. rewrite Hg. cbn. apply right_id_L, _.
Defined.

(** * Placing a VM *)



(** * Choosing a node *)

(** [SelectVmNuma], for a VM whose vCPUs have a node in common and a table
    of used CPUs below the range of its 16-bit counter.  A node it answers is
    one of the machine and open to every vCPU.  When a layer of such a node
    has room for the whole VM, it succeeds with a node and a layer that have
    room, with no fuller place on the same or a lower layer, and enters the
    VM there in the table.  When none has room, it leaves the table, succeeds
    exactly when some open node is below the maximal over-provision, and then
    answers one with the fewest layers. *)
Theorem vas_select_numa_correct T s vm m :
  wf T s -> (forall l n, 0 <= used_at l n m < 32768) -> (exists x, allowed s vm x) ->
  let k := Z.of_nat (length (vcpuMap vm)) in
  let '(ret, m', n) := SelectVmNuma vm m s in
  (ret = VAS_OK -> allowed s vm n) ∧
  ((exists n' l', allowed s vm n' ∧ fits s m k n' l') ->
     ret = VAS_OK ∧ exists l, fits s m k n l ∧ m' = <[(l, n) := u16 (used_at l n m + k)]> m ∧
       forall n' l', allowed s vm n' -> fits s m k n' l' -> l' <= l -> used_at l' n' m <= used_at l n m) ∧
  ((forall n' l', allowed s vm n' -> ~ fits s m k n' l') ->
     m' = m ∧ (ret = VAS_OK <-> exists n', allowed s vm n' ∧ GetOverProvision n' s < maxOverProvision) ∧
     (ret = VAS_OK -> forall n', allowed s vm n' -> GetOverProvision n s <= GetOverProvision n' s)).
Proof.
  intros Hwf Hm Hex k. unfold SelectVmNuma. pose proof (fun n => available_allowed s vm n Hex) as Hav.
  assert (Hk : forall n, n ∈ set_keys (available_numas s vm) <-> allowed s vm n) by (intros n; by rewrite elem_of_set_keys).
  rewrite bool_decide_eq_false_2 by (destruct Hex as [x Hx%Hav]; set_solver). fold k.
  pose proof (best_nodes T s Hwf m k Hm (fun _ _ => False) (set_keys (available_numas s vm)) (0, maxOverProvision, -1)) as Hb.
  destruct (foldl _ _ _) as [[n l] u]. destruct Hb as [[[= -> -> ->] Hno]|(-> & [[]|[Hn _]] & Hf & Hbest)]; [left; done|..].
  - cbn [Z.eqb negb]. unfold SelectMinLayer. pose proof (min_layer_fold s (set_keys (available_numas s vm)) maxOverProvision 0) as Hmin.
    destruct (foldl _ _ _) as [a n]. destruct Hmin as (H1 & H2 & H3).
    assert (Hnone : forall n' l', allowed s vm n' -> ~ fits s m k n' l') by (intros n' l' Hn' Hf'; apply (Hno n' l'); [right; split; [by apply Hk|apply Hf']|done]).
    destruct (Z.eqb_spec a maxOverProvision) as [->|Hne]; cbn.
    + split_and!; [done|by intros (n' & l' & Hn' & Hf'%Hnone)|]. intros _. split_and!; [done| |done]. split; [done|]. intros (n' & Hn'%Hk & Hlt). apply H2 in Hn'. lia.
    + destruct H3 as [[-> _]|[Hin ->]]; [done|]. split_and!; [intros _; by apply Hk|by intros (n' & l' & Hn' & Hf'%Hnone)|]. intros _. split_and!; [done| |].
      * split; [|done]. intros _. exists n. split; [by apply Hk|lia].
      * intros _ n' Hn'%Hk. by apply H2.
  - pose proof (Hm l n). rewrite (proj2 (Z.eqb_neq _ _)) by lia. cbn [negb]. split_and!.
    + intros _. by apply Hk.
    + intros _. split; [done|]. exists l. split_and!; try done. intros n' l' Hn' Hf'. apply Hbest; [|done]. right. split; [by apply Hk|apply Hf'].
    + intros Hno. by apply Hk, (Hno n l) in Hn.
Qed.

Lemma vas_select_numa_correct_witness :
  SelectVmNuma (ex_vm "a" 100 6 {[ 0; 1 ]}) ∅ ex_start = (VAS_OK, {[ (0, 0) := 6 ]}, 0) ∧ allowed ex_start (ex_vm "a" 100 6 {[ 0; 1 ]}) 0.
Proof.
  assert (E : SelectVmNuma (ex_vm "a" 100 6 {[ 0; 1 ]}) ∅ ex_start = (VAS_OK, {[ (0, 0) := 6 ]}, 0)) by (vm_compute; reflexivity).
  split; [exact E|]. pose proof (vas_select_numa_correct ex_topo ex_start (ex_vm "a" 100 6 {[ 0; 1 ]}) ∅ ex_start_wf) as H.
  rewrite E in H. apply H.
  - intros l n. change (0 <= 0 < 32768). lia.
  - exists 0. split; [vm_compute; reflexivity|]. intros v i Hin. apply list_elem_of_fmap in Hin as (j & Ej & _). injection Ej as _ ->. vm_compute. reflexivity.
  - reflexivity.
Defined.

(** * Sequences of requests *)



(** * Two runs that go wrong *)

(** The requests one after the other. *)
Definition serve_all (rs : list request) (s : Sched) : option Sched :=
  foldl (fun o r => s ← o; '(_, s') ← serve ex_topo ex_conf ex_host r s; Some s') (Some s) rs.

Definition holds_in (o : option Sched) (f : Sched -> bool) : bool := match o with Some s => f s | None => false end.

Lemma holds_in_true o f : holds_in o f = true -> exists s, o = Some s ∧ f s = true.
Proof. destruct o as [s|]; [|done]. intros E. by exists s. Qed.

(** The thread [p1] of the group [g1] and the thread [p2] of the group [g2]
    have the same CPU of the same layer. *)
Definition same_cpu (g1 : string) (p1 : Z) (g2 : string) (p2 : Z) (s : Sched) : bool :=
  match groupMap_ s !! g1, groupMap_ s !! g2, entityMap_ s !! p1, entityMap_ s !! p2 with
  | Some a, Some b, Some e1, Some e2 =>
      bool_decide (p1 ∈ g_entityPids a) && bool_decide (p2 ∈ g_entityPids b) && (g_clusterId a =? g_clusterId b) &&
      (g_layerId a =? g_layerId b) && (cpuIdx e1 =? cpuIdx e2)
  | _, _, _, _ => false
  end.

(** Two VMs on one CPU.  A one-CPU VM "a" and a one-CPU VM "b" start, "a"
    stops, and a two-CPU VM "c" starts, on a machine with plenty of idle CPUs
    and a host that serves every request.  [FindFirstIdlePos] counts idle bits
    across the used one and answers an area that contains it, so that a thread
    of "b" and a thread of "c" are pinned to the same CPU of the same layer. *)
Theorem vas_threads_share_cpu :
  exists s,
    serve_all [RAdd (ex_vm "a" 100 1 {[ 0 ]}); RAdd (ex_vm "b" 200 1 {[ 0 ]}); RDel "a"; RAdd (ex_vm "c" 300 2 {[ 0 ]})] ex_start = Some s ∧
    same_cpu (group_key (domain_key "b" 0) 0 0) 201 (group_key (domain_key "c" 0) 0 0) 302 s = true.
Proof. apply holds_in_true. vm_compute. reflexivity. Qed.

(** The domain has groups and none of them has a thread. *)
Definition no_threads (key : string) (s : Sched) : bool :=
  match domainMap_ s !! key with
  | Some d => bool_decide (d_groups d <> ∅) && forallb (fun gid => bool_decide (g_entityPids <$> groupMap_ s !! gid = Some ∅)) (set_list (d_groups d))
  | None => false
  end.

(** The timer's tick on a VM that uses more than half of its node.  The
    update selects a node for it again, finds no room beside itself, and
    records and places a second domain on the other node that none of its
    threads is pinned in.  The compaction of the same tick then cleans that
    domain's group and erases it from the set that the loop is going through:
    it goes on with an invalid iterator, and the model has no outcome. *)
Theorem vas_tick_undefined :
  exists s,
    serve_all [RAdd (ex_vm "a" 100 6 {[ 0; 1 ]}); RUpdate (inr [ex_vm "a" 100 6 {[ 0; 1 ]}])] ex_start = Some s ∧
    no_threads (domain_key "a" 1) s && bool_decide (serve ex_topo ex_conf ex_host RCompact s = None) = true.
Proof. apply holds_in_true. vm_compute. reflexivity. Qed.
