(* ===== verification/CoreSched.v ===== *)
(** The core limiter of the runtime (vcann-rt/src/core_limiter.c): the time
    slices of the AI cores of a die, shared by the processes of its vNPUs.

    The shared memory of a die is a map from atomic locations to integers and
    a map of robust mutexes.  A scheduler thread is a program counter: one
    step of [sched_step] is one access to the shared memory, so that the runs
    of several processes are the interleavings of their steps.  A read-only
    loop over the vNPUs ([select_next_owner] and the like) is one step.  The
    clock, the end of the process and the answers of the system are the
    arguments of a step.  A step reports what it did to the account of its
    vNPU as events. *)

From S2P Require Import Prelude.

(** * Constants (include/core_limiter.h, include/npu_manager.h) *)

Definition MAX_VNPU : Z := 100.
Definition HUNDRED_PERCENT : Z := 100.
Definition NS_PER_US : Z := 1000.
Definition NS_PER_MS : Z := 1000000.
Definition NS_PER_S : Z := 1000000000.
Definition MAX_STREAK : Z := 2.
Definition VNPU_SCHEULE_PERIOD : Z := 100 * NS_PER_MS.
Definition VNPU_NORMAL_FAIRNESS_PERIOD : Z := 1 * NS_PER_S.
Definition VNPU_NORMAL_FAIRNESS_WINDOW : Z := 10 * NS_PER_MS.
Definition VNPU_FLUSH_PERIOD : Z := 1 * NS_PER_MS.
Definition VNPU_TIMEOUT_PERIOD : Z := 3 * NS_PER_MS.
Definition VNPU_NO_TASK_TIMEOUT_PERIOD : Z := 5 * NS_PER_MS.
Definition WAITING_SLEEP_PERIOD : Z := 100 * NS_PER_US.
Definition WATTING_SLIDE_WINDOW_TIMEOUT_PERIOD : Z := 100 * NS_PER_MS.
Definition BORROW_TIMESLICE_LENGTH : Z := 3 * NS_PER_MS.
Definition DCMI_TIMEOUT_THRESHOLD : Z := 100 * NS_PER_MS.
Definition UTILIZATION_RATE_MAX : Z := 95.
Definition UTILIZATION_RATE_MIN : Z := 80.
Definition SYNC_WAIT_TIMEOUT_NS : Z := 200 * NS_PER_MS.
Definition SCHED_SHM_STALE_THRESHOLD_NS : Z := 2 * NS_PER_S.
Definition SCHED_MAGIC_INITIALIZED : Z := 0x495A4547.
Definition MAGIC_INITIALIZING : Z := 0x5A494E47.
Definition MAGIC_UNINITIALIZED : Z := 0.

(** * The shared memory *)

(** The arrays of [vnpu_time_slice_sched_t] with one cell for each vNPU. *)
Inductive field :=
  | last_alive_time_ns
  | last_kernel_time_ns
  | vnpu_schedule_turn
  | vnpu_core_limit_quota
  | vnpu_priority
  | vnpu_quota_timeslice
  | vnpu_cur_timeslice
  | vnpu_quota_injected_for_turn
  | vnpu_sync_expected
  | vnpu_sync_completed
  | vnpu_turn_max_sync
  | vnpu_timeslice_for_turn.

Inductive location :=
  | owner
  | magic_number
  | slide_window_len
  | last_slide_window_time_ns
  | cell (f : field) (v : Z).

#[global] Instance field_eq_dec : EqDecision field.
Proof. solve_decision. Defined.

#[global] Instance location_eq_dec : EqDecision location.
Proof. solve_decision. Defined.

(** A robust mutex: when its holder dies the next lock returns [EOWNERDEAD]. *)
Inductive mutex_t := mutex_free | mutex_held (pid : nat) | mutex_owner_dead.

Record sched_mem := SchedMem {
  atom : location -> Z;
  mutex : Z -> mutex_t;
}.

(** The wrap-around of the type of a location: [uint_fast8_t], [int] or
    [uint_fast64_t]. *)
Definition u8 (x : Z) : Z := x mod 256.

Definition wrap (l : location) : Z -> Z :=
  match l with
  | owner | slide_window_len | cell (vnpu_sync_expected | vnpu_sync_completed) _ => i32
  | cell (vnpu_schedule_turn | vnpu_core_limit_quota | vnpu_priority | vnpu_quota_injected_for_turn) _ => u8
  | _ => u64
  end.

Definition atomic_store (l : location) (x : Z) (m : sched_mem) : sched_mem :=
  {| atom := fun k => if decide (k = l) then wrap l x else atom m k; mutex := mutex m |}.

Definition atomic_fetch_add (l : location) (d : Z) (m : sched_mem) : sched_mem := atomic_store l (atom m l + d) m.

Definition atomic_fetch_sub (l : location) (d : Z) (m : sched_mem) : sched_mem := atomic_store l (atom m l - d) m.

Definition set_mutex (v : Z) (x : mutex_t) (m : sched_mem) : sched_mem :=
  {| atom := atom m; mutex := fun k => if decide (k = v) then x else mutex m k |}.

(** The ids of the vNPUs, in the order of the loops. *)
Definition vnpu_ids : list Z := seqZ 0 MAX_VNPU.

(** * Decisions on a state of the memory *)

Definition check_timeout (m : sched_mem) (timestamp : location) (timeout_period now : Z) : bool :=
  let last := atom m timestamp in
  if last <? now then now - last <=? timeout_period else last - now <=? timeout_period.

Definition is_vnpu_alive (m : sched_mem) (now vnpu_id : Z) : bool :=
  if (vnpu_id <? 0) || (MAX_VNPU <=? vnpu_id) then false
  else check_timeout m (cell last_alive_time_ns vnpu_id) VNPU_TIMEOUT_PERIOD now.

Definition is_normal_priority_vnpu (m : sched_mem) (vnpu_id : Z) : bool :=
  (0 <=? vnpu_id) && (vnpu_id <? MAX_VNPU) && (atom m (cell vnpu_priority vnpu_id) =? VNPU_PRIORITY_NORMAL).

(** What takes part in the rotation of the owner. *)
Definition in_rotation (m : sched_mem) (now vnpu_id : Z) : bool :=
  is_vnpu_alive m now vnpu_id && is_normal_priority_vnpu m vnpu_id.

Definition priority_timestamp_is_recent (timestamp now timeout : Z) : bool :=
  if timestamp =? 0 then false
  else (if timestamp <=? now then now - timestamp else timestamp - now) <=? timeout.

Definition in_normal_window (now : Z) : bool := now mod VNPU_NORMAL_FAIRNESS_PERIOD <? VNPU_NORMAL_FAIRNESS_WINDOW.

(** [sched == NULL] is [None]. *)
Fixpoint admission_loop (m : sched_mem) (priority competing_priority now : Z) (ids : list Z) : bool :=
  match ids with
  | [] => true
  | i :: r =>
    if negb (atom m (cell vnpu_priority i) =? competing_priority)
       || negb (priority_timestamp_is_recent (atom m (cell last_alive_time_ns i)) now VNPU_TIMEOUT_PERIOD)
       || negb (priority_timestamp_is_recent (atom m (cell last_kernel_time_ns i)) now VNPU_NO_TASK_TIMEOUT_PERIOD)
    then admission_loop m priority competing_priority now r
    else if priority =? VNPU_PRIORITY_HIGH then negb (in_normal_window now) else in_normal_window now
  end.

Definition priority_admission_allowed (sched : option sched_mem) (priority now : Z) : bool :=
  match sched with
  | None => true
  | Some m =>
    let competing_priority := if priority =? VNPU_PRIORITY_HIGH then VNPU_PRIORITY_NORMAL else VNPU_PRIORITY_HIGH in
    admission_loop m priority competing_priority now vnpu_ids
  end.

(** The time [vnpu_idling] sleeps, [None] when it returns at once. *)
Fixpoint idling_loop (m : sched_mem) (now : Z) (ids : list Z) (quota : Z) : option Z :=
  match ids with
  | [] => Some ((HUNDRED_PERCENT - quota) * VNPU_SCHEULE_PERIOD / HUNDRED_PERCENT)
  | i :: r =>
    let quota1 := if in_rotation m now i then quota + atom m (cell vnpu_core_limit_quota i) else quota in
    if HUNDRED_PERCENT <? quota1 then None else idling_loop m now r quota1
  end.

Definition vnpu_idling (m : sched_mem) (now : Z) : option Z := idling_loop m now vnpu_ids 0.

(** C's [%]: the dividend is [owner + i], which is not negative. *)
Fixpoint next_owner_loop (m : sched_mem) (now vnpu_id : Z) (steps : list Z) : Z :=
  match steps with
  | [] => -1
  | i :: r =>
    let candidate := Z.rem (vnpu_id + i) MAX_VNPU in
    if is_vnpu_alive m now candidate && is_normal_priority_vnpu m candidate then candidate
    else next_owner_loop m now vnpu_id r
  end.

Definition select_next_owner (m : sched_mem) (now vnpu_id : Z) : Z := next_owner_loop m now vnpu_id (seqZ 1 MAX_VNPU).

(** [set_vnpu_and_idle] first sleeps this long, and then stores the owner. *)
Definition idle_before_set (m : sched_mem) (policy now vnpu_id next_vnpu_id : Z) : option Z :=
  if (policy =? SCHED_POLICY_FIXED_SHARE) && (next_vnpu_id <=? vnpu_id) then vnpu_idling m now else None.

Definition calculate_alive_vnpu_num (m : sched_mem) (now : Z) : Z :=
  foldl (fun count i => if is_vnpu_alive m now i then count + 1 else count) 0 vnpu_ids.

Fixpoint slide_loop (m : sched_mem) (now id own : Z) (steps : list Z) (len : Z) : bool :=
  match steps with
  | [] => false
  | i :: r =>
    if len <=? 0 then false
    else
      let next_vnpu := Z.rem (own + i) MAX_VNPU in
      if next_vnpu =? id then true
      else slide_loop m now id own r
             (if is_vnpu_alive m now next_vnpu && is_normal_priority_vnpu m next_vnpu then len - 1 else len)
  end.

Definition slide_window_check (m : sched_mem) (now g_vnpu_id own : Z) : bool :=
  slide_loop m now g_vnpu_id own (seqZ 1 MAX_VNPU) (atom m slide_window_len).

Definition sched_shm_is_stale (m : sched_mem) (now : Z) : bool :=
  let newest_alive :=
    foldl (fun newest i => let t := atom m (cell last_alive_time_ns i) in if newest <? t then t else newest) 0 vnpu_ids in
  if newest_alive =? 0 then false
  else (newest_alive <? now) && (SCHED_SHM_STALE_THRESHOLD_NS <? now - newest_alive).

(** * The scheduler thread *)

(** What a step changes in the account of a vNPU. *)
Inductive event :=
  | Injected (v quota : Z)
  | Granted (v ts : Z)
  | Debited (v debt : Z)
  | TurnEnded (v : Z).

(** What a step learns from outside: the clock, [g_terminate],
    [hasModelExecuteSync] of the process, and whether [pthread_mutex_lock]
    fails with a code other than [EOWNERDEAD]. *)
Record inputs := Inputs {
  now : Z;
  terminate : bool;
  model_syncs : Z;
  lock_fails : bool;
}.

(** Where a scheduler thread is.  [t] is [turn_id] or [cur_turn], [n] is
    [next_vnpu_id] and [s] the time slice.  A sleep is followed by the place
    where the thread goes on. *)
Inductive place :=
  | P_sleep (until : Z) (k : place)
  | P_done
  (* the head of the loop of vnpu_scheduler_thread *)
  | P_top
  | P_elastic (own : Z)
  | P_borrow_end (own : Z)
  | P_owner (own : Z)
  | P_takeover
  | P_select (own : Z)
  | P_set (n : Z)
  | P_next_round
  (* add_and_consume_time_slice *)
  | A_lock
  | A_lock_failed
  | A_turn
  | A_test (t : Z)
  | A_clear_expected (t : Z)
  | A_clear_completed (t : Z)
  | A_clear_max (t : Z)
  | A_quota (t : Z)
  | A_inject (t quota : Z)
  | A_cur (t : Z)
  | A_take (t s : Z)
  | A_publish (t s : Z)
  | A_mark (t s : Z)
  | A_expect (t : Z)
  | A_owner (t : Z)
  | A_select (t own : Z)
  | A_unlock (t n : Z)
  | A_slice (t n : Z)
  | A_begin (t n s : Z)
  | A_consume (t n s fin : Z)
  | A_consume_owner (t n s fin : Z)
  | A_relock (t n s : Z)
  (* sync_own_streams_and_measure_ns and the record of the time *)
  | S_begin (t n s : Z)
  | S_models (t n s begin : Z)
  | S_streams (t n s begin : Z)
  | S_turn (t n s sync : Z)
  | S_max (t n s sync : Z)
  | S_max_cas (t n s sync old : Z)
  | S_complete (t n s : Z)
  (* wait_for_sibling_sync *)
  | W_start (t n s : Z)
  | W_clock (t n s deadline : Z)
  | W_turn (t n s deadline : Z)
  | W_expected (t n s deadline : Z)
  | W_completed (t n s deadline expected : Z)
  (* the end of the turn *)
  | E_lock (t n s : Z)
  | E_turn (t n s : Z)
  | E_debt (t n s : Z)
  | E_charge (t n s debt : Z)
  | E_owner (t n : Z)
  | E_set (t n : Z)
  | E_next (t : Z)
  | E_unlock.

(** A process: [g_vnpu_id], the policy, [g_sched_locking] and the place of its
    scheduler thread. *)
Record proc := Proc {
  g_vnpu_id : Z;
  policy : Z;
  g_sched_locking : bool;
  pc : place;
}.

Definition at_place (p : proc) (k : place) : proc :=
  {| g_vnpu_id := g_vnpu_id p; policy := policy p; g_sched_locking := g_sched_locking p; pc := k |}.

Definition with_locking (p : proc) (b : bool) (k : place) : proc :=
  {| g_vnpu_id := g_vnpu_id p; policy := policy p; g_sched_locking := b; pc := k |}.

(** The start of the thread: [g_sched_locking] is set. *)
Definition start_thread (vnpu_id pol : Z) : proc :=
  {| g_vnpu_id := vnpu_id; policy := pol; g_sched_locking := true; pc := P_top |}.

Abbreviation step_outcome := (option (proc * sched_mem * list event)) (only parsing).

Definition goto (p : proc) (k : place) (m : sched_mem) : step_outcome := Some (at_place p k, m, []).

Definition goto_with (p : proc) (k : place) (m : sched_mem) (e : event) : step_outcome := Some (at_place p k, m, [e]).

(** [pthread_mutex_lock] of [vnpu_schedule_mutex]: it waits while another
    process holds the mutex, and makes the mutex of a dead holder consistent. *)
Definition lock_step (pid : nat) (i : inputs) (p : proc) (m : sched_mem) (ok failed : place) : step_outcome :=
  if lock_fails i then goto p failed m
  else match mutex m (g_vnpu_id p) with
       | mutex_held _ => None
       | mutex_free | mutex_owner_dead => goto p ok (set_mutex (g_vnpu_id p) (mutex_held pid) m)
       end.

(** The head of the loop: the owner, borrowing, and the takeover from an owner
    that is no longer alive.  The monitor thread that an elastic owner starts
    is a step of its own ([monitor_round]); the statistics of an owner are in
    another shared memory (VnpuStats). *)
Definition head_step (pid : nat) (i : inputs) (p : proc) (m : sched_mem) : step_outcome :=
  let v := g_vnpu_id p in
  match pc p with
  | P_top =>
    if terminate i then goto p P_done m
    else if policy p =? SCHED_POLICY_ELASTIC then goto p (P_elastic (atom m owner)) m
    else goto p (P_owner (atom m owner)) m
  | P_elastic own =>
    if negb (own =? v) && slide_window_check m (now i) v own
    then Some (with_locking p false (P_sleep (now i + BORROW_TIMESLICE_LENGTH) (P_borrow_end own)), m, [])
    else goto p (P_owner own) m
  | P_borrow_end own => Some (with_locking p true (P_owner own), m, [])
  | P_owner own =>
    if own =? v then goto p A_lock m
    else if is_vnpu_alive m (now i) own then goto p P_next_round m
    else goto p P_takeover m
  | P_takeover => goto p (P_select (atom m owner)) m
  | P_select own =>
    let n := select_next_owner m (now i) own in
    if n =? -1 then goto p P_next_round m
    else match idle_before_set m (policy p) (now i) own n with
         | Some d => goto p (P_sleep (now i + d) (P_set n)) m
         | None => goto p (P_set n) m
         end
  | P_set n => goto p P_next_round (atomic_store owner n m)
  | P_next_round => goto p (P_sleep (now i + WAITING_SLEEP_PERIOD) P_top) m
  | _ => None
  end.

(** The part of [add_and_consume_time_slice] that holds the mutex. *)
Definition inject_step (pid : nat) (i : inputs) (p : proc) (m : sched_mem) : step_outcome :=
  let v := g_vnpu_id p in
  match pc p with
  | A_lock => lock_step pid i p m A_turn A_lock_failed
  | A_turn => goto p (A_test (atom m (cell vnpu_schedule_turn v))) m
  | A_test t =>
    if t =? atom m (cell vnpu_quota_injected_for_turn v) then goto p (A_expect t) m
    else goto p (A_clear_expected t) m
  | A_clear_expected t => goto p (A_clear_completed t) (atomic_store (cell vnpu_sync_expected v) 0 m)
  | A_clear_completed t => goto p (A_clear_max t) (atomic_store (cell vnpu_sync_completed v) 0 m)
  | A_clear_max t => goto p (A_quota t) (atomic_store (cell vnpu_turn_max_sync v) 0 m)
  | A_quota t => goto p (A_inject t (atom m (cell vnpu_quota_timeslice v))) m
  | A_inject t quota =>
    goto_with p (A_cur t) (atomic_fetch_add (cell vnpu_cur_timeslice v) quota m) (Injected v quota)
  | A_cur t =>
    let cur_after_inject := i64 (atom m (cell vnpu_cur_timeslice v)) in
    let ts := if 0 <? cur_after_inject then cur_after_inject else 0 in
    if 0 <? ts then goto p (A_take t ts) m else goto p (A_publish t ts) m
  | A_take t ts => goto_with p (A_publish t ts) (atomic_fetch_sub (cell vnpu_cur_timeslice v) ts m) (Granted v ts)
  | A_publish t ts => goto p (A_mark t ts) (atomic_store (cell vnpu_timeslice_for_turn v) ts m)
  | A_mark t ts => goto p (A_expect t) (atomic_store (cell vnpu_quota_injected_for_turn v) t m)
  | A_expect t => goto p (A_owner t) (atomic_fetch_add (cell vnpu_sync_expected v) 1 m)
  | A_owner t => goto p (A_select t (atom m owner)) m
  | A_select t own => goto p (A_unlock t (select_next_owner m (now i) own)) m
  | A_unlock t n => goto p (A_slice t n) (set_mutex v mutex_free m)
  | _ => None
  end.

(** The rest of [add_and_consume_time_slice]: users may launch until the slice
    is over or another vNPU is the owner. *)
Definition consume_step (i : inputs) (p : proc) (m : sched_mem) : step_outcome :=
  let v := g_vnpu_id p in
  match pc p with
  | A_lock_failed => goto p (S_complete (atom m (cell vnpu_schedule_turn v)) (-1) 0) m
  | A_slice t n =>
    let ts := atom m (cell vnpu_timeslice_for_turn v) in
    if 0 <? ts then Some (with_locking p false (A_begin t n ts), m, []) else goto p (S_complete t n ts) m
  | A_begin t n ts => goto p (A_consume t n ts (u64 (now i + ts))) m
  | A_consume t n ts fin =>
    if (now i <? fin) && negb (terminate i) then goto p (A_consume_owner t n ts fin) m else goto p (A_relock t n ts) m
  | A_consume_owner t n ts fin =>
    if atom m owner =? v then goto p (P_sleep (now i + WAITING_SLEEP_PERIOD) (A_consume t n ts fin)) m
    else goto p (A_relock t n ts) m
  | A_relock t n ts => Some (with_locking p true (S_begin t n ts), m, [])
  | _ => None
  end.

(** [sync_own_streams_and_measure_ns], whose synchronisation may last, and the
    record of its time unless the turn has changed. *)
Definition measure_step (i : inputs) (p : proc) (m : sched_mem) : step_outcome :=
  let v := g_vnpu_id p in
  match pc p with
  | S_begin t n s => goto p (S_models t n s (now i)) m
  | S_models t n s begin =>
    if 0 <? model_syncs i then goto p (P_sleep (now i + WAITING_SLEEP_PERIOD) (S_models t n s begin)) m
    else goto p (S_streams t n s begin) m
  | S_streams t n s begin => goto p (S_turn t n s (u64 (now i - begin))) m
  | S_turn t n s sync => if atom m (cell vnpu_schedule_turn v) =? t then goto p (S_max t n s sync) m else goto p P_top m
  | S_max t n s sync => goto p (S_max_cas t n s sync (atom m (cell vnpu_turn_max_sync v))) m
  | S_max_cas t n s sync old =>
    if old <? sync then
      if atom m (cell vnpu_turn_max_sync v) =? old
      then goto p (S_complete t n s) (atomic_store (cell vnpu_turn_max_sync v) sync m)
      else goto p (S_max_cas t n s sync (atom m (cell vnpu_turn_max_sync v))) m
    else goto p (S_complete t n s) m
  | S_complete t n s => goto p (W_start t n s) (atomic_fetch_add (cell vnpu_sync_completed v) 1 m)
  | _ => None
  end.

Definition wait_step (i : inputs) (p : proc) (m : sched_mem) : step_outcome :=
  let v := g_vnpu_id p in
  match pc p with
  | W_start t n s => goto p (W_clock t n s (u64 (now i + SYNC_WAIT_TIMEOUT_NS))) m
  | W_clock t n s deadline => if now i <? deadline then goto p (W_turn t n s deadline) m else goto p (E_lock t n s) m
  | W_turn t n s deadline =>
    if atom m (cell vnpu_schedule_turn v) =? t then goto p (W_expected t n s deadline) m else goto p (E_lock t n s) m
  | W_expected t n s deadline => goto p (W_completed t n s deadline (atom m (cell vnpu_sync_expected v))) m
  | W_completed t n s deadline expected =>
    if expected <=? atom m (cell vnpu_sync_completed v) then goto p (E_lock t n s) m
    else goto p (P_sleep (now i + WAITING_SLEEP_PERIOD) (W_clock t n s deadline)) m
  | _ => None
  end.

(** The end of the turn: one process charges the time of the synchronisation,
    hands the device over and starts the next turn. *)
Definition end_step (pid : nat) (i : inputs) (p : proc) (m : sched_mem) : step_outcome :=
  let v := g_vnpu_id p in
  match pc p with
  | E_lock t n s => lock_step pid i p m (E_turn t n s) P_top
  | E_turn t n s =>
    if atom m (cell vnpu_schedule_turn v) =? t
    then if 0 <? s then goto p (E_debt t n s) m else goto p (E_owner t n) m
    else goto p E_unlock m
  | E_debt t n s => goto p (E_charge t n s (atom m (cell vnpu_turn_max_sync v))) m
  | E_charge t n s debt =>
    goto_with p (E_owner t n) (atomic_fetch_sub (cell vnpu_cur_timeslice v) debt m) (Debited v debt)
  | E_owner t n =>
    if n =? -1 then goto p (E_next t) m
    else match idle_before_set m (policy p) (now i) (atom m owner) n with
         | Some d => goto p (P_sleep (now i + d) (E_set t n)) m
         | None => goto p (E_set t n) m
         end
  | E_set t n => goto p (E_next t) (atomic_store owner n m)
  | E_next t => goto_with p E_unlock (atomic_store (cell vnpu_schedule_turn v) (t + 1) m) (TurnEnded v)
  | E_unlock => goto p P_top (set_mutex v mutex_free m)
  | _ => None
  end.

(** One step of the scheduler thread of process [pid]; [None] when it cannot
    go on now (it sleeps, waits for a mutex or has returned). *)
Definition sched_step (pid : nat) (i : inputs) (p : proc) (m : sched_mem) : step_outcome :=
  match pc p with
  | P_sleep until k => if until <=? now i then goto p k m else None
  | P_done => None
  | P_top | P_elastic _ | P_borrow_end _ | P_owner _ | P_takeover | P_select _ | P_set _ | P_next_round => head_step pid i p m
  | A_lock_failed | A_slice _ _ | A_begin _ _ _ | A_consume _ _ _ _ | A_consume_owner _ _ _ _ | A_relock _ _ _ =>
    consume_step i p m
  | S_begin _ _ _ | S_models _ _ _ _ | S_streams _ _ _ _ | S_turn _ _ _ _ | S_max _ _ _ _ | S_max_cas _ _ _ _ _
  | S_complete _ _ _ => measure_step i p m
  | W_start _ _ _ | W_clock _ _ _ _ | W_turn _ _ _ _ | W_expected _ _ _ _ | W_completed _ _ _ _ _ => wait_step i p m
  | E_lock _ _ _ | E_turn _ _ _ | E_debt _ _ _ | E_charge _ _ _ _ | E_owner _ _ | E_set _ _ | E_next _ | E_unlock =>
    end_step pid i p m
  | _ => inject_step pid i p m
  end.

(** * The other threads *)

(** [vnpu_scheduler_flush_thread]: the heartbeat of the vNPU. *)
Definition flush_round (vnpu_id time : Z) (m : sched_mem) : sched_mem :=
  atomic_store (cell last_alive_time_ns vnpu_id) time m.

Definition update_last_kernel_time_now (vnpu_id time : Z) (m : sched_mem) : sched_mem :=
  atomic_store (cell last_kernel_time_ns vnpu_id) time m.

(** The streaks of high and low load, static variables of the monitor. *)
Record streaks := Streaks { high_load_streak : Z; low_load_streak : Z }.

(** The new length of the window for one rate of utilisation. *)
Definition adjust_window (m : sched_mem) (time utilization_rate current_window : Z) (k : streaks) : Z * streaks :=
  if UTILIZATION_RATE_MAX <? utilization_rate then
    let high := high_load_streak k + 1 in
    if (MAX_STREAK <=? high) && (0 <? current_window) then (current_window - 1, Streaks 0 0)
    else (current_window, Streaks high 0)
  else if utilization_rate <? UTILIZATION_RATE_MIN then
    let low := low_load_streak k + 1 in
    if MAX_STREAK <=? low then
      let max_len := Z.max 0 (calculate_alive_vnpu_num m time - 1) in
      ((if current_window <? max_len then current_window + 1 else current_window), Streaks 0 0)
    else (current_window, Streaks 0 low)
  else (current_window, Streaks 0 0).

(** One iteration of [npu_utilization_monitor_thread] of the owner: [begin] and
    [fin] are the clock around the call of the driver, [rate] its answer. *)
Definition monitor_round (begin fin : Z) (rate : option Z) (k : streaks) (m : sched_mem) : streaks * sched_mem :=
  if check_timeout m last_slide_window_time_ns WATTING_SLIDE_WINDOW_TIMEOUT_PERIOD begin then (k, m)
  else
    let m1 := atomic_store last_slide_window_time_ns begin m in
    match rate with
    | None => (k, m1)
    | Some utilization_rate =>
      if DCMI_TIMEOUT_THRESHOLD <? u64 (fin - begin) then (k, m1)
      else
        let current_window := atom m1 slide_window_len in
        let '(new_window, k1) := adjust_window m1 fin utilization_rate current_window k in
        (k1, if new_window =? current_window then m1 else atomic_store slide_window_len new_window m1)
    end.

(** * Initialisation *)

(** The iteration [i] of the loop of [share_mem_init]. *)
Definition reset_cell (i : Z) (m : sched_mem) : sched_mem :=
  set_mutex i mutex_free
    (atomic_store (cell vnpu_timeslice_for_turn i) 0
    (atomic_store (cell vnpu_turn_max_sync i) 0
    (atomic_store (cell vnpu_sync_completed i) 0
    (atomic_store (cell vnpu_sync_expected i) 0
    (atomic_store (cell vnpu_quota_injected_for_turn i) 255
    (atomic_store (cell vnpu_cur_timeslice i) 0
    (atomic_store (cell vnpu_quota_timeslice i) 0
    (atomic_store (cell vnpu_schedule_turn i) 0
    (atomic_store (cell vnpu_priority i) VNPU_PRIORITY_NORMAL
    (atomic_store (cell vnpu_core_limit_quota i) 0
    (atomic_store (cell last_kernel_time_ns i) 0
    (atomic_store (cell last_alive_time_ns i) 0 m)))))))))))).

(** Where a process is in [share_mem_init]; [begin] is its variable. *)
Inductive init_place :=
  | I_sleep (until : Z) (k : init_place)
  | I_top (begin : Z)
  | I_stale (begin : Z)
  | I_discard (begin : Z)
  | I_test (begin : Z)
  | I_clock (begin : Z)
  | I_reclaim (begin : Z)
  | I_claim
  | I_owner
  | I_cells (i : Z)
  | I_monitor
  | I_publish
  | I_return (ret : Z).

(** One step of [share_mem_init]; [init_ok] says that [pthread_mutex_init] succeeds. *)
Definition init_step (time : Z) (stop init_ok : bool) (k : init_place) (m : sched_mem) : option (init_place * sched_mem) :=
  match k with
  | I_sleep until k1 => if until <=? time then Some (k1, m) else None
  | I_top begin =>
    if stop then Some (I_return RT_FAIL, m)
    else if atom m magic_number =? SCHED_MAGIC_INITIALIZED then Some (I_stale begin, m)
    else Some (I_test begin, m)
  | I_stale begin => if sched_shm_is_stale m time then Some (I_discard begin, m) else Some (I_return ENPU_SUCCESS, m)
  | I_discard begin => Some (I_top begin, atomic_store magic_number MAGIC_UNINITIALIZED m)
  | I_test begin => if atom m magic_number =? MAGIC_INITIALIZING then Some (I_clock begin, m) else Some (I_claim, m)
  | I_clock begin =>
    if VNPU_TIMEOUT_PERIOD <? u64 (time - begin) then Some (I_reclaim time, m)
    else Some (I_sleep (time + WAITING_SLEEP_PERIOD) (I_top begin), m)
  | I_reclaim begin =>
    Some (I_sleep (time + WAITING_SLEEP_PERIOD) (I_top begin), atomic_store magic_number MAGIC_UNINITIALIZED m)
  | I_claim => Some (I_owner, atomic_store magic_number MAGIC_INITIALIZING m)
  | I_owner => Some (I_cells 0, atomic_store owner (-1) m)
  | I_cells i =>
    if i <? MAX_VNPU then
      if init_ok then Some (I_cells (i + 1), reset_cell i m) else Some (I_return RT_FAIL, m)
    else Some (I_monitor, m)
  | I_monitor => if init_ok then Some (I_publish, m) else Some (I_return RT_FAIL, m)
  | I_publish => Some (I_return ENPU_SUCCESS, atomic_store magic_number SCHED_MAGIC_INITIALIZED m)
  | I_return _ => None
  end.

(** [vnpu_scheduler_init] with the quota and the priority of the vNPU. *)
Definition vnpu_scheduler_init (vnpu_id aicore_limit_percent priority : Z) (m : sched_mem) : Z * sched_mem :=
  let m1 := atomic_store (cell vnpu_priority vnpu_id) priority m in
  if priority =? VNPU_PRIORITY_HIGH then (ENPU_SUCCESS, m1)
  else
    let m2 := atomic_store (cell vnpu_core_limit_quota vnpu_id) aicore_limit_percent m1 in
    (ENPU_SUCCESS,
     atomic_store (cell vnpu_quota_timeslice vnpu_id) (aicore_limit_percent * VNPU_SCHEULE_PERIOD / HUNDRED_PERCENT) m2).

(** * The processes of a die *)

(** The quota (in percent) and the priority of each vNPU. *)
Record sched_config := VnpuConfig { quota_percent : Z -> Z; priority_of : Z -> Z; policy_of : Z -> Z }.

Definition sched_quota_of (c : sched_config) (v : Z) : Z := quota_percent c v * VNPU_SCHEULE_PERIOD / HUNDRED_PERCENT.

(** The processes by pid, the shared memory and the events so far. *)
Record sys := Sys { procs : list proc; smem : sched_mem; hist : list event }.

(** Is the thread between lock and unlock of the mutex of its vNPU? *)
Fixpoint in_section (k : place) : bool :=
  match k with
  | P_sleep _ k1 => in_section k1
  | A_turn | A_test _ | A_clear_expected _ | A_clear_completed _ | A_clear_max _ | A_quota _ | A_inject _ _ | A_cur _
  | A_take _ _ | A_publish _ _ | A_mark _ _ | A_expect _ | A_owner _ | A_select _ _ | A_unlock _ _
  | E_turn _ _ _ | E_debt _ _ _ | E_charge _ _ _ _ | E_owner _ _ | E_set _ _ | E_next _ | E_unlock => true
  | _ => false
  end.

(** What can happen on a die: a scheduler thread moves, a process of a vNPU
    with normal priority starts or is killed, a heartbeat, a demand of a
    user thread, a round of the monitor. *)
Inductive action :=
  | Run (pid : nat) (i : inputs)
  | Join (vnpu_id : Z)
  | Kill (pid : nat)
  | Heartbeat (vnpu_id time : Z)
  | Demand (vnpu_id time : Z)
  | Monitor (begin fin : Z) (rate : option Z) (k : streaks).

(** The mutex of a vNPU when process [pid] of it dies. *)
Definition abandon (pid : nat) (v : Z) (m : sched_mem) : sched_mem :=
  match mutex m v with
  | mutex_held j => if decide (j = pid) then set_mutex v mutex_owner_dead m else m
  | _ => m
  end.

Definition act (c : sched_config) (a : action) (s : sys) : option sys :=
  match a with
  | Run pid i =>
    p ← procs s !! pid;
    '(p1, m1, ev) ← sched_step pid i p (smem s);
    Some (Sys (<[pid := p1]> (procs s)) m1 (hist s ++ ev))
  | Join v =>
    let '(_, m1) := vnpu_scheduler_init v (quota_percent c v) (priority_of c v) (smem s) in
    Some (Sys (if priority_of c v =? VNPU_PRIORITY_NORMAL then procs s ++ [start_thread v (policy_of c v)] else procs s)
              m1 (hist s))
  | Kill pid =>
    p ← procs s !! pid;
    Some (Sys (<[pid := at_place p P_done]> (procs s)) (abandon pid (g_vnpu_id p) (smem s)) (hist s))
  | Heartbeat v time => Some (Sys (procs s) (flush_round v time (smem s)) (hist s))
  | Demand v time => Some (Sys (procs s) (update_last_kernel_time_now v time (smem s)) (hist s))
  | Monitor begin fin rate k => Some (Sys (procs s) (monitor_round begin fin rate k (smem s)).2 (hist s))
  end.

Fixpoint acts (c : sched_config) (l : list action) (s : sys) : option sys :=
  match l with [] => Some s | a :: r => s1 ← act c a s; acts c r s1 end.

(** An action that kills no process inside the critical section of its vNPU. *)
Definition calm (a : action) (s : sys) : bool :=
  match a with
  | Kill pid => match procs s !! pid with Some p => negb (in_section (pc p)) | None => true end
  | _ => true
  end.

(** The memory [share_mem_init] leaves for the first process. *)
Definition sched_ready (m : sched_mem) : Prop :=
  atom m owner = -1 ∧ forall v, 0 <= v < MAX_VNPU ->
    atom m (cell vnpu_cur_timeslice v) = 0 ∧ atom m (cell vnpu_schedule_turn v) = 0 ∧
    atom m (cell vnpu_quota_injected_for_turn v) = 255 ∧ atom m (cell vnpu_turn_max_sync v) = 0 ∧
    mutex m v = mutex_free.

Inductive die_reach (c : sched_config) : sys -> Prop :=
  | die_start m : sched_ready m -> die_reach c (Sys [] m [])
  | die_act s a s1 : die_reach c s -> calm a s = true -> act c a s = Some s1 -> die_reach c s1.
