(* ===== verification/CoreSchedInv.v ===== *)
(** The account of the time slices of a vNPU under every interleaving of its
    processes: mutual exclusion, one injection per turn, and the balance of
    what is injected, granted and charged. *)

From S2P Require Import Prelude CoreSched.

(** * Sums over the events *)

Definition total (f : event -> Z) (h : list event) : Z := foldr (fun e a => f e + a) 0 h.

Definition is_injection (v : Z) (e : event) : Z :=
  match e with Injected w _ => if decide (w = v) then 1 else 0 | _ => 0 end.
Definition is_turn_end (v : Z) (e : event) : Z :=
  match e with TurnEnded w => if decide (w = v) then 1 else 0 | _ => 0 end.
Definition injected_ns (v : Z) (e : event) : Z :=
  match e with Injected w x => if decide (w = v) then x else 0 | _ => 0 end.
Definition granted_ns (v : Z) (e : event) : Z :=
  match e with Granted w x => if decide (w = v) then x else 0 | _ => 0 end.
Definition debited_ns (v : Z) (e : event) : Z :=
  match e with Debited w x => if decide (w = v) then x else 0 | _ => 0 end.

Definition injections (v : Z) (h : list event) : Z := total (is_injection v) h.
Definition turns (v : Z) (h : list event) : Z := total (is_turn_end v) h.
Definition granted (v : Z) (h : list event) : Z := total (granted_ns v) h.
Definition debited (v : Z) (h : list event) : Z := total (debited_ns v) h.

(** What the account of [v] should hold. *)
Definition balance (v : Z) (h : list event) : Z := total (injected_ns v) h - granted v h - debited v h.

Lemma total_app f h1 h2 : total f (h1 ++ h2) = total f h1 + total f h2.
Proof. induction h1 as [|e h1 IH]; [done|]. change (f e + total f (h1 ++ h2) = f e + total f h1 + total f h2). lia. Qed.

Lemma total_one f e : total f [e] = f e.
Proof. unfold total; simpl. lia. Qed.

(** The vNPU an event is about. *)
Definition event_vnpu (e : event) : Z :=
  match e with Injected v _ | Granted v _ | Debited v _ | TurnEnded v => v end.

(** * Reading a memory after a step *)


Lemma atom_store l x m k : atom (atomic_store l x m) k = if decide (k = l) then wrap l x else atom m k.
Proof. done. Qed.

Lemma atom_store_eq l x m : atom (atomic_store l x m) l = wrap l x.
Proof. rewrite atom_store. by rewrite decide_True. Qed.

Lemma atom_store_ne l x m k : k <> l -> atom (atomic_store l x m) k = atom m k.
Proof. intros H. rewrite atom_store. by rewrite decide_False. Qed.

Lemma mutex_store l x m v : mutex (atomic_store l x m) v = mutex m v.
Proof. done. Qed.

Lemma mutex_set v x m w : mutex (set_mutex v x m) w = if decide (w = v) then x else mutex m w.
Proof. done. Qed.

Lemma atom_set_mutex v x m l : atom (set_mutex v x m) l = atom m l.
Proof. done. Qed.

(** Splits a step of a scheduler thread into its cases. *)
Ltac step_cases p H :=
  destruct p as [pv ppol plk ppc]; destruct ppc;
  cbn [sched_step head_step inject_step consume_step measure_step wait_step end_step pc g_vnpu_id policy in_section] in *;
  unfold lock_step, goto, goto_with, at_place, with_locking, atomic_fetch_add, atomic_fetch_sub in H;
  cbn [pc g_vnpu_id policy g_sched_locking] in H;
  repeat (case_match; try discriminate H);
  try discriminate H; try (injection H as <- <- <-); cbn [pc g_vnpu_id policy g_sched_locking in_section] in *.

(** * Where a step may write *)

Lemma step_foreign pid i p m p1 m1 ev v :
  sched_step pid i p m = Some (p1, m1, ev) -> v <> g_vnpu_id p ->
  (forall f, atom m1 (cell f v) = atom m (cell f v)) ∧ mutex m1 v = mutex m v ∧ Forall (fun e => event_vnpu e <> v) ev.
Proof.
  intros H Hv. step_cases p H;
    (split; [intros f; rewrite ?atom_set_mutex, ?atom_store_ne by congruence; done|]);
    (split; [rewrite ?mutex_store, ?mutex_set; try rewrite decide_False by congruence; done|]);
    repeat constructor; simpl; congruence.
Qed.

Lemma step_vnpu pid i p m p1 m1 ev : sched_step pid i p m = Some (p1, m1, ev) -> g_vnpu_id p1 = g_vnpu_id p.
Proof. intros H. step_cases p H; done. Qed.

Lemma step_quota pid i p m p1 m1 ev v :
  sched_step pid i p m = Some (p1, m1, ev) -> atom m1 (cell vnpu_quota_timeslice v) = atom m (cell vnpu_quota_timeslice v).
Proof. intros H. step_cases p H; rewrite ?atom_set_mutex, ?atom_store_ne by congruence; done. Qed.

(** The cells that only the holder of the mutex writes. *)
Definition guarded (f : field) : bool :=
  match f with vnpu_schedule_turn | vnpu_cur_timeslice | vnpu_quota_injected_for_turn => true | _ => false end.

(** The first place after a lock. *)
Definition entry (k : place) : bool := match k with A_turn | E_turn _ _ _ => true | _ => false end.

Lemma u64_nonneg x : 0 <= u64 x.
Proof. apply (u64_range x). Qed.

Lemma step_outside pid i p m p1 m1 ev :
  let v := g_vnpu_id p in
  sched_step pid i p m = Some (p1, m1, ev) -> in_section (pc p) = false ->
  ev = [] ∧ (forall f, guarded f = true -> atom m1 (cell f v) = atom m (cell f v)) ∧
  (0 <= atom m (cell vnpu_turn_max_sync v) -> 0 <= atom m1 (cell vnpu_turn_max_sync v)) ∧
  (in_section (pc p1) = false ∧ mutex m1 v = mutex m v ∨
   entry (pc p1) = true ∧ mutex m1 v = mutex_held pid ∧ (mutex m v = mutex_free ∨ mutex m v = mutex_owner_dead)).
Proof.
  cbn zeta. intros H Hs. step_cases p H; try discriminate Hs;
    (split; [done|]);
    (split; [intros f Hf; rewrite ?atom_set_mutex; try (rewrite atom_store_ne by (destruct f; discriminate || congruence)); done|]);
    (split; [intros Hm; rewrite ?atom_set_mutex, ?atom_store; repeat case_decide; simplify_eq; try apply u64_nonneg; done|]);
    first [by left|right]; rewrite mutex_set, decide_True by done; eauto.
Qed.

(** * Inside the critical section *)

Lemma i64_u64 x : - 2 ^ 63 <= x < 2 ^ 63 -> i64 (u64 x) = x.
Proof.
  intros H. unfold i64, u64. rewrite Zminus_mod_idemp_l.
  rewrite Z.mod_small; unfold INT64_MIN, U64_MOD; lia.
Qed.

Lemma u64_add x y : u64 (u64 x + y) = u64 (x + y).
Proof. apply Zplus_mod_idemp_l. Qed.

Lemma u64_sub x y : u64 (u64 x - y) = u64 (x - y).
Proof. apply Zminus_mod_idemp_l. Qed.

Definition cells_ok (v : Z) (m : sched_mem) : Prop :=
  0 <= atom m (cell vnpu_schedule_turn v) < 256 ∧ 0 <= atom m (cell vnpu_turn_max_sync v).

(** A turn has at most one injection, and one that has it is marked. *)
Definition turn_fresh (v : Z) (m : sched_mem) (h : list event) : Prop :=
  injections v h <= turns v h ∨
  (injections v h = turns v h + 1 ∧
   atom m (cell vnpu_quota_injected_for_turn v) = atom m (cell vnpu_schedule_turn v)).

(** What holds of the turn when the holder of the mutex is at [k]. *)
Fixpoint turn_inv (v : Z) (m : sched_mem) (h : list event) (k : place) : Prop :=
  let turn := atom m (cell vnpu_schedule_turn v) in
  match k with
  | P_sleep _ k1 => turn_inv v m h k1
  | A_test t | E_debt t _ _ | E_owner t _ | E_set t _ | E_next t => t = turn ∧ turn_fresh v m h
  | E_charge t _ _ debt => t = turn ∧ 0 <= debt ∧ turn_fresh v m h
  | A_clear_expected t | A_clear_completed t | A_clear_max t | A_quota t | A_inject t _ =>
    t = turn ∧ injections v h <= turns v h
  | A_cur t | A_take t _ | A_publish t _ | A_mark t _ => t = turn ∧ injections v h <= turns v h + 1
  | _ => turn_fresh v m h
  end.

(** What holds of the balance then; [q] is the quota of a turn. *)
Fixpoint money_inv (v q : Z) (h : list event) (k : place) : Prop :=
  match k with
  | P_sleep _ k1 => money_inv v q h k1
  | A_inject _ quota => quota = q ∧ balance v h <= 0
  | A_cur _ => balance v h <= q
  | A_take _ s => s = balance v h ∧ 0 < s <= q
  | E_charge _ _ _ debt => 0 <= debt ∧ balance v h <= 0
  | _ => balance v h <= 0
  end.

Definition grant_le (v q : Z) (e : event) : Prop := granted_ns v e <= q.

Definition account_ok (v q : Z) (m : sched_mem) (h : list event) : Prop :=
  atom m (cell vnpu_cur_timeslice v) = u64 (balance v h) ∧ 0 <= debited v h ∧ granted v h <= total (injected_ns v) h ∧
  total (injected_ns v) h = injections v h * q ∧ Forall (grant_le v q) h.

(** The sums after a step. *)
Ltac sums := unfold balance, granted, debited, injections, turns in *; rewrite ?app_nil_r, ?total_app, ?total_one in *;
  cbn [is_injection is_turn_end injected_ns granted_ns debited_ns] in *; rewrite ?decide_True in * by done.

Ltac read_atoms := rewrite ?atom_set_mutex, ?atom_store_eq in *;
  repeat (rewrite atom_store_ne in * by (discriminate || congruence)); cbn [wrap] in *.

Definition after (p1 : proc) : place := if in_section (pc p1) then pc p1 else P_top.

Lemma u8_range x : 0 <= u8 x < 256.
Proof. apply Z.mod_pos_bound. lia. Qed.

Lemma byte_small x : 0 <= x < 256 -> u8 x = x.
Proof. apply Z.mod_small. Qed.

Lemma step_inside_mutex pid i p m p1 m1 ev :
  sched_step pid i p m = Some (p1, m1, ev) -> in_section (pc p) = true ->
  mutex m1 (g_vnpu_id p) = if in_section (pc p1) then mutex m (g_vnpu_id p) else mutex_free.
Proof.
  intros H Hs. step_cases p H; try discriminate Hs; rewrite ?mutex_store, ?mutex_set; try rewrite decide_True by done; first [done|congruence].
Qed.

Lemma step_inside_turn pid i p m p1 m1 ev h :
  let v := g_vnpu_id p in
  sched_step pid i p m = Some (p1, m1, ev) -> in_section (pc p) = true -> cells_ok v m -> turn_inv v m h (pc p) ->
  cells_ok v m1 ∧ turn_inv v m1 (h ++ ev) (after p1) ∧ debited v h <= debited v (h ++ ev).
Proof.
  cbn zeta. intros H Hs [Ht Hm] HT. unfold after. step_cases p H; try discriminate Hs.
  1, 2: try congruence; rewrite app_nil_r; done.
  all: cbn [turn_inv] in *; unfold cells_ok, turn_fresh in *; read_atoms; sums; destruct_and?; simplify_eq.
  all: pose proof (u64_nonneg 0); pose proof (u8_range (atom m (cell vnpu_schedule_turn pv) + 1)).
  all: try rewrite (byte_small (atom m (cell vnpu_schedule_turn pv))) by lia; lia.
Qed.

Lemma step_inside_money pid i p m p1 m1 ev h q :
  let v := g_vnpu_id p in
  sched_step pid i p m = Some (p1, m1, ev) -> in_section (pc p) = true -> cells_ok v m -> turn_inv v m h (pc p) ->
  atom m (cell vnpu_quota_timeslice v) = q -> 0 <= q < 2 ^ 62 -> debited v h <= 2 ^ 62 ->
  account_ok v q m h -> money_inv v q h (pc p) ->
  account_ok v q m1 (h ++ ev) ∧ money_inv v q (h ++ ev) (after p1).
Proof.
  cbn zeta. intros H Hs [Ht Hm] HT Hq Hqb Hd (Hc & Hd0 & Hg & Hi & HF) HM. unfold after. step_cases p H; try discriminate Hs.
  1, 2: try congruence; rewrite app_nil_r; done.
  all: cbn [turn_inv money_inv] in *; unfold account_ok; read_atoms; destruct_and?; simplify_eq.
  all: rewrite ?app_nil_r; try (rewrite Hc in *; rewrite i64_u64 in * by (unfold balance in *; lia));
    try (repeat split; (done || lia)).
  all: rewrite ?Hc, ?u64_add, ?u64_sub, Forall_app, Forall_singleton; unfold grant_le in *; sums; repeat split; try done; try (f_equal; lia); try lia.
Qed.

(** * The invariant of a die *)

Lemma turn_inv_ext v m m1 h k :
  (forall f, guarded f = true -> atom m1 (cell f v) = atom m (cell f v)) -> turn_inv v m h k -> turn_inv v m1 h k.
Proof.
  intros E. pose proof (E vnpu_schedule_turn eq_refl) as E1. pose proof (E vnpu_quota_injected_for_turn eq_refl) as E2.
  induction k; simpl; unfold turn_fresh; rewrite ?E1, ?E2; auto.
Qed.

Lemma account_ext v q m m1 h :
  atom m1 (cell vnpu_cur_timeslice v) = atom m (cell vnpu_cur_timeslice v) -> account_ok v q m h -> account_ok v q m1 h.
Proof. intros E (H & HR). split; [by rewrite E|done]. Qed.

(** The functions that sum the events of [v] ignore those of the others. *)
Lemma total_foreign f h ev v :
  (forall e, event_vnpu e <> v -> f e = 0) -> Forall (fun e => event_vnpu e <> v) ev -> total f (h ++ ev) = total f h.
Proof.
  intros Hf HF. rewrite total_app. induction HF as [|e ev He HF IH]; [unfold total; simpl; lia|].
  change (total f (e :: ev)) with (f e + total f ev). rewrite (Hf e He). lia.
Qed.

Lemma sums_foreign h ev v :
  Forall (fun e => event_vnpu e <> v) ev ->
  injections v (h ++ ev) = injections v h ∧ turns v (h ++ ev) = turns v h ∧ granted v (h ++ ev) = granted v h ∧
  debited v (h ++ ev) = debited v h ∧ total (injected_ns v) (h ++ ev) = total (injected_ns v) h.
Proof.
  intros HF. unfold injections, turns, granted, debited.
  repeat split; apply total_foreign with v; try done; intros [] He; simpl in *; try done; by rewrite decide_False by congruence.
Qed.

Lemma turn_inv_foreign v m h ev k :
  Forall (fun e => event_vnpu e <> v) ev -> turn_inv v m h k -> turn_inv v m (h ++ ev) k.
Proof.
  intros HF. destruct (sums_foreign h ev v HF) as (E1 & E2 & _).
  induction k; simpl; unfold turn_fresh; rewrite ?E1, ?E2; auto.
Qed.

Lemma money_foreign v q m h ev k :
  0 <= q -> Forall (fun e => event_vnpu e <> v) ev ->
  account_ok v q m h ∧ money_inv v q h k -> account_ok v q m (h ++ ev) ∧ money_inv v q (h ++ ev) k.
Proof.
  intros Hq HF [(Ha & Hb & Hc & Hd & He) HM]. destruct (sums_foreign h ev v HF) as (E1 & E2 & E3 & E4 & E5).
  assert (EB : balance v (h ++ ev) = balance v h) by (unfold balance; lia).
  split; [|revert HM; induction k; simpl; rewrite ?EB; auto].
  unfold account_ok. rewrite EB, E1, E3, E4, E5. repeat (split; [done|]). apply Forall_app. split; [done|].
  eapply Forall_impl; [exact HF|]. intros [] Hx; unfold grant_le; simpl in *; try done. by rewrite decide_False.
Qed.

(** The place of the holder of the mutex of [v]. *)
Definition here (s : sys) (v : Z) : place :=
  match mutex (smem s) v with
  | mutex_held j => match procs s !! j with Some p => pc p | None => P_top end
  | _ => P_top
  end.

(** Exactly the holder of the mutex is in the critical section. *)
Definition exclusive (v : Z) (s : sys) : Prop :=
  (forall pid p, procs s !! pid = Some p -> g_vnpu_id p = v -> in_section (pc p) = true -> mutex (smem s) v = mutex_held pid) ∧
  (forall pid, mutex (smem s) v = mutex_held pid ->
     exists p, procs s !! pid = Some p ∧ g_vnpu_id p = v ∧ in_section (pc p) = true) ∧
  mutex (smem s) v <> mutex_owner_dead.

Definition quota_stored (c : sched_config) (s : sys) : Prop :=
  forall pid p, procs s !! pid = Some p ->
    atom (smem s) (cell vnpu_quota_timeslice (g_vnpu_id p)) = sched_quota_of c (g_vnpu_id p).

(** More overrun than this, 146 years, would leave the range of [int64_t]. *)
Definition MAX_DEBT : Z := 2 ^ 62.

Record die_inv (c : sched_config) (v : Z) (s : sys) : Prop := {
  di_exclusive : exclusive v s;
  di_quota : quota_stored c s;
  di_cells : cells_ok v (smem s);
  di_turn : turn_inv v (smem s) (hist s) (here s v);
  di_money : debited v (hist s) <= MAX_DEBT ->
    account_ok v (sched_quota_of c v) (smem s) (hist s) ∧ money_inv v (sched_quota_of c v) (hist s) (here s v);
}.

(** ** A step of a scheduler thread *)

Section run.
Context (c : sched_config) (v : Z).
Hypothesis config_ok : forall w, 0 <= quota_percent c w <= 100.
Context (pid : nat) (i : inputs) (p p1 : proc) (s : sys) (m1 : sched_mem) (ev : list event).
Hypothesis Hp : procs s !! pid = Some p.
Hypothesis Hstep : sched_step pid i p (smem s) = Some (p1, m1, ev).

#[local] Abbreviation s1 := (Sys (<[pid := p1]> (procs s)) m1 (hist s ++ ev)).

#[local] Lemma lookup_pid : <[pid := p1]> (procs s) !! pid = Some p1.
Proof. apply list_lookup_insert_eq. by eapply lookup_lt_Some. Qed.

#[local] Lemma lookup_other j : j <> pid -> <[pid := p1]> (procs s) !! j = procs s !! j.
Proof. intros H. by apply list_lookup_insert_ne. Qed.

(** The holder of the mutex of another vNPU is another process. *)
#[local] Lemma holder_other : g_vnpu_id p <> v -> exclusive v s -> exclusive v s1 ∧ here s1 v = here s v.
Proof.
  intros Hne (H1 & H2 & H3). destruct (step_foreign _ _ _ _ _ _ _ v Hstep ltac:(done)) as (_ & Hm & _).
  pose proof (step_vnpu _ _ _ _ _ _ _ Hstep) as Hv.
  assert (Hj : forall j, mutex (smem s) v = mutex_held j -> j <> pid).
  { intros j (p' & Hp' & Hv' & _)%H2 ->. congruence. }
  repeat split; unfold here; simpl; rewrite ?Hm.
  - intros j p' Hl Hv' Hs. destruct (decide (j = pid)) as [->|Hjp].
    + rewrite lookup_pid in Hl. congruence.
    + rewrite lookup_other in Hl by done. by eapply H1.
  - intros j Hl. rewrite lookup_other by by apply Hj. by apply H2.
  - done.
  - destruct (mutex (smem s) v) as [|j|] eqn:E; try done. by rewrite lookup_other by by apply Hj.
Qed.

#[local] Lemma holder_inside :
  g_vnpu_id p = v -> in_section (pc p) = true -> exclusive v s -> exclusive v s1 ∧ here s1 v = after p1 ∧ here s v = pc p.
Proof.
  intros Hv Hs (H1 & H2 & H3). pose proof (H1 _ _ Hp Hv Hs) as Hmu.
  pose proof (step_inside_mutex _ _ _ _ _ _ _ Hstep Hs) as Hm. rewrite Hv in Hm.
  pose proof (step_vnpu _ _ _ _ _ _ _ Hstep) as Hv1.
  repeat split; unfold here, after; simpl; rewrite ?Hm, ?Hmu, ?Hp; try done.
  - intros j p' Hl Hv' Hs'. destruct (decide (j = pid)) as [->|Hjp].
    + rewrite lookup_pid in Hl. injection Hl as <-. by rewrite Hs'.
    + rewrite lookup_other in Hl by done. pose proof (H1 _ _ Hl Hv' Hs'). congruence.
  - intros j. destruct (in_section (pc p1)) eqn:Es; [|done]. intros [= <-].
    exists p1. rewrite lookup_pid. repeat split; congruence.
  - by destruct (in_section (pc p1)).
  - destruct (in_section (pc p1)); [|done]. by rewrite lookup_pid.
Qed.

(** A thread outside the section leaves the holder alone, or takes a free mutex. *)
#[local] Lemma holder_outside :
  g_vnpu_id p = v -> in_section (pc p) = false -> exclusive v s ->
  exclusive v s1 ∧ (here s1 v = here s v ∨ here s v = P_top ∧ entry (here s1 v) = true).
Proof.
  intros Hv Hs (H1 & H2 & H3). pose proof (step_vnpu _ _ _ _ _ _ _ Hstep) as Hv1.
  destruct (step_outside _ _ _ _ _ _ _ Hstep Hs) as (_ & _ & _ & [[Hs1 Hm]|(He & Hm & Hf)]); rewrite Hv in *.
  - assert (Hj : forall j, mutex (smem s) v = mutex_held j -> j <> pid).
    { intros j (p' & Hp' & _ & Hs')%H2 ->. congruence. }
    split; [split; [|split]|left]; unfold here; simpl; rewrite ?Hm.
    + intros j p' Hl Hv' Hs'. destruct (decide (j = pid)) as [->|Hjp].
      * rewrite lookup_pid in Hl. congruence.
      * rewrite lookup_other in Hl by done. by eapply H1.
    + intros j Hl. rewrite lookup_other by by apply Hj. by apply H2.
    + done.
    + destruct (mutex (smem s) v) as [|j|] eqn:E; try done. by rewrite lookup_other by by apply Hj.
  - assert (Hs1 : in_section (pc p1) = true) by by destruct (pc p1).
    split; [split; [|split]|right]; unfold here; simpl; rewrite ?Hm.
    + intros j p' Hl Hv' Hs'. destruct (decide (j = pid)) as [->|Hjp]; [done|].
      rewrite lookup_other in Hl by done. pose proof (H1 _ _ Hl Hv' Hs'). destruct Hf; congruence.
    + intros j [= <-]. exists p1. rewrite lookup_pid. repeat split; congruence.
    + done.
    + rewrite lookup_pid. split; [by destruct Hf as [-> | ->]|done].
Qed.

Lemma quota_range w : 0 <= sched_quota_of c w < 2 ^ 62.
Proof.
  pose proof (config_ok w). unfold sched_quota_of, VNPU_SCHEULE_PERIOD, NS_PER_MS, HUNDRED_PERCENT. zlia.
Qed.

#[local] Lemma run_quota : quota_stored c s -> quota_stored c s1.
Proof.
  intros HQ j p' Hl. simpl. rewrite (step_quota _ _ _ _ _ _ _ _ Hstep).
  destruct (decide (j = pid)) as [->|Hjp].
  - simpl in Hl. rewrite lookup_pid in Hl. injection Hl as <-. rewrite (step_vnpu _ _ _ _ _ _ _ Hstep). by apply (HQ pid).
  - simpl in Hl. rewrite lookup_other in Hl by done. by apply (HQ j).
Qed.

Lemma run_inv : die_inv c v s -> die_inv c v s1.
Proof.
  intros [HX HQ HC HT HM]. pose proof (quota_range v) as Hq. pose proof (run_quota HQ) as HQ1.
  destruct (decide (g_vnpu_id p = v)) as [Hv|Hv]; [destruct (in_section (pc p)) eqn:Hs|].
  - destruct (holder_inside Hv Hs HX) as (HX1 & Eh1 & Eh). rewrite Eh in *. clear Eh.
    pose proof (HQ pid p Hp) as Eq. rewrite Hv in Eq.
    pose proof (step_inside_turn _ _ _ _ _ _ _ (hist s) Hstep Hs) as Ht. cbn zeta in Ht. rewrite Hv in Ht.
    destruct (Ht HC HT) as (HC1 & HT1 & Hd).
    split; [done|exact HQ1|done|by rewrite Eh1|]. rewrite Eh1. simpl. intros Hb.
    destruct HM as [HA HM]; [lia|].
    pose proof (step_inside_money _ _ _ _ _ _ _ (hist s) (sched_quota_of c v) Hstep Hs) as Hm. cbn zeta in Hm.
    rewrite Hv in Hm. apply Hm; try done. unfold MAX_DEBT in *. lia.
  - destruct (holder_outside Hv Hs HX) as (HX1 & Hh).
    destruct (step_outside _ _ _ _ _ _ _ Hstep Hs) as (Eev & Hg & Hmax & _). rewrite Hv in *.
    assert (Et : turn_inv v m1 (hist s) (here s1 v)).
    { apply turn_inv_ext with (smem s); [done|]. destruct Hh as [->|[E He]]; [done|].
      rewrite E in HT. destruct (here s1 v); done. }
    assert (Em : money_inv v (sched_quota_of c v) (hist s) (here s v) -> money_inv v (sched_quota_of c v) (hist s) (here s1 v)).
    { destruct Hh as [->|[E He]]; [done|]. rewrite E. destruct (here s1 v); done. }
    split; simpl; rewrite ?Eev, ?app_nil_r in *; try done.
    + split; [rewrite Hg by done; apply HC|apply Hmax, HC].
    + intros Hb. destruct (HM Hb) as [HA HM1]. split; [|by apply Em].
      apply account_ext with (smem s); [by apply Hg|done].
  - destruct (holder_other Hv HX) as (HX1 & Eh).
    destruct (step_foreign _ _ _ _ _ _ _ v Hstep ltac:(done)) as (Ha & _ & HF).
    destruct (sums_foreign (hist s) ev v HF) as (_ & _ & _ & Ed & _).
    split; simpl; rewrite ?Eh, ?Ed; try done.
    + unfold cells_ok. rewrite !Ha. done.
    + apply turn_inv_foreign; [done|]. by apply turn_inv_ext with (smem s).
    + intros Hb. destruct (HM Hb) as [HA HM1]. apply money_foreign; [lia|done|].
      split; [|done]. by apply account_ext with (smem s).
Qed.
End run.

(** ** The other actions *)

(** An action that leaves alone what the mutex of [v] protects and the
    processes that are in its critical section. *)
Lemma inv_ext c v s s1 :
  die_inv c v s -> quota_stored c s1 -> hist s1 = hist s -> mutex (smem s1) v = mutex (smem s) v ->
  (forall f, guarded f = true ∨ f = vnpu_turn_max_sync -> atom (smem s1) (cell f v) = atom (smem s) (cell f v)) ->
  (forall j p, g_vnpu_id p = v -> in_section (pc p) = true -> procs s1 !! j = Some p <-> procs s !! j = Some p) ->
  die_inv c v s1.
Proof.
  intros [(H1 & H2 & H3) HQ HC HT HM] HQ1 Hh Hmu Ha Hp.
  assert (Eh : here s1 v = here s v).
  { unfold here. rewrite Hmu. destruct (mutex (smem s) v) as [|j|] eqn:E; try done.
    destruct (H2 j eq_refl) as (p & Hl & Hv & Hs). by rewrite Hl, (proj2 (Hp j p Hv Hs) Hl). }
  split; rewrite ?Eh, ?Hh.
  - split; [|split].
    + intros j p Hl Hv Hs. rewrite Hmu. apply (H1 j p); [by apply Hp|done|done].
    + intros j. rewrite Hmu. intros (p & Hl & Hv & Hs)%H2. exists p. by rewrite (Hp j p Hv Hs).
    + by rewrite Hmu.
  - done.
  - unfold cells_ok. rewrite !Ha by auto. done.
  - apply turn_inv_ext with (smem s); auto.
  - intros Hb. destruct (HM Hb) as [HA HM1]. split; [|done]. apply account_ext with (smem s); auto.
Qed.

Lemma store_inv c v s l x :
  (forall f w, l = cell f w -> guarded f = false ∧ f <> vnpu_turn_max_sync ∧ f <> vnpu_quota_timeslice) ->
  die_inv c v s -> die_inv c v (Sys (procs s) (atomic_store l x (smem s)) (hist s)).
Proof.
  intros Hl HI. apply (inv_ext c v s); cbn [procs smem hist]; try done.
  - intros j p Hp. cbn [procs smem hist]. rewrite atom_store_ne; [by apply (di_quota _ _ _ HI) with j|].
    intros <-. by destruct (Hl _ _ eq_refl) as (_ & _ & []).
  - intros f Hf. apply atom_store_ne. intros <-. destruct (Hl _ _ eq_refl) as (E1 & E2 & _). destruct Hf; congruence.
Qed.

Lemma monitor_inv c v s begin fin rate k :
  die_inv c v s -> die_inv c v (Sys (procs s) (monitor_round begin fin rate k (smem s)).2 (hist s)).
Proof.
  intros HI. assert (HI' : die_inv c v (Sys (procs s) (smem s) (hist s))) by by destruct s.
  pose proof (store_inv c v s last_slide_window_time_ns begin ltac:(done) HI) as HJ.
  unfold monitor_round. case_match; [done|]. destruct rate as [r|]; [|done]. case_match; [done|].
  destruct (adjust_window _ _ _ _ _) as [w k1]. case_match; [done|]. by apply (store_inv c v (Sys _ _ _) slide_window_len).
Qed.

Lemma kill_inv c v s pid p :
  procs s !! pid = Some p -> in_section (pc p) = false -> die_inv c v s ->
  die_inv c v (Sys (<[pid := at_place p P_done]> (procs s)) (abandon pid (g_vnpu_id p) (smem s)) (hist s)).
Proof.
  intros Hp Hs HI. destruct (di_exclusive _ _ _ HI) as (H1 & H2 & _).
  assert (Ha : forall l, atom (abandon pid (g_vnpu_id p) (smem s)) l = atom (smem s) l).
  { intros l. unfold abandon. repeat case_match; done. }
  apply (inv_ext c v s); cbn [procs smem hist]; try done.
  - intros j q Hl. cbn [procs smem hist] in *. rewrite Ha. destruct (decide (j = pid)) as [->|Hj].
    + rewrite list_lookup_insert_eq in Hl by by eapply lookup_lt_Some. injection Hl as <-.
      exact (di_quota _ _ _ HI pid p Hp).
    + rewrite list_lookup_insert_ne in Hl by done. by apply (di_quota _ _ _ HI) with j.
  - unfold abandon. destruct (mutex (smem s) (g_vnpu_id p)) as [|j|] eqn:E; try done. case_decide as Ej; [|done].
    rewrite mutex_set. case_decide as Ev; [|done]. subst. destruct (H2 _ E) as (q & Hq & _ & Hqs). congruence.
  - intros j q _ Hqs. destruct (decide (j = pid)) as [->|Hj].
    + rewrite list_lookup_insert_eq by by eapply lookup_lt_Some. rewrite Hp. split; intros [= <-]; simpl in *; congruence.
    + by rewrite list_lookup_insert_ne.
Qed.

Lemma join_inv c v s w s1 :
  (forall w, 0 <= quota_percent c w <= 100) -> act c (Join w) s = Some s1 -> die_inv c v s -> die_inv c v s1.
Proof.
  intros Hc H HI. cbn [act] in H. unfold vnpu_scheduler_init in H.
  set (m1 := atomic_store (cell vnpu_priority w) _ _) in H.
  assert (Hq : u64 (sched_quota_of c w) = sched_quota_of c w).
  { apply u64_small. pose proof (quota_range c Hc w). unfold is_u64, U64_MOD. lia. }
  assert (HI1 : die_inv c v (Sys (procs s) m1 (hist s))) by by apply store_inv; [intros ? ? [= <- <-]|].
  destruct (priority_of c w =? VNPU_PRIORITY_HIGH) eqn:Eh.
  { injection H as <-. apply Z.eqb_eq in Eh. by rewrite Eh. }
  set (m2 := atomic_store (cell vnpu_core_limit_quota w) _ _) in H.
  assert (HI2 : die_inv c v (Sys (procs s) m2 (hist s))).
  { by apply (store_inv c v (Sys (procs s) m1 (hist s))); [intros ? ? [= <- <-]|]. }
  injection H as <-. apply (inv_ext c v _ _ HI2); cbn [procs smem hist].
  - intros j p Hl. cbn [procs smem hist] in *. rewrite atom_store. cbn [wrap]. case_decide as E; [injection E as ->; done|].
    assert (Hj : procs s !! j = Some p).
    { case_match; [|done]. apply lookup_app_Some in Hl as [?|[_ Hl]]; [done|].
      apply list_lookup_singleton_Some in Hl as [_ <-]. simpl in E. congruence. }
    by apply (di_quota _ _ _ HI2) with j.
  - done.
  - done.
  - intros f Hf. apply atom_store_ne. intros [= ->]. by destruct Hf.
  - intros j p Hv Hs. case_match; [|done]. split; [|intros Hl; by apply lookup_app_l_Some].
    intros [?|[_ Hl]]%lookup_app_Some; [done|]. apply list_lookup_singleton_Some in Hl as [_ <-]. done.
Qed.

Lemma act_inv c v a s s1 :
  (forall w, 0 <= quota_percent c w <= 100) -> calm a s = true -> act c a s = Some s1 -> die_inv c v s -> die_inv c v s1.
Proof.
  intros Hc Hcalm H HI. destruct a; cbn [act] in H.
  - destruct (procs s !! pid) as [p|] eqn:Hp; [|done]. cbn in H.
    destruct (sched_step pid i p (smem s)) as [[[p1 m1] ev]|] eqn:Hs; [|done]. injection H as <-. by eapply run_inv.
  - by eapply join_inv.
  - destruct (procs s !! pid) as [p|] eqn:Hp; [|done]. injection H as <-. cbn in Hcalm. rewrite Hp in Hcalm.
    apply kill_inv; [done|by apply negb_true_iff|done].
  - injection H as <-. by apply store_inv; [intros ? ? [= <- <-]|].
  - injection H as <-. by apply store_inv; [intros ? ? [= <- <-]|].
  - injection H as <-. by apply monitor_inv.
Qed.

Lemma start_inv c v m : 0 <= v < MAX_VNPU -> sched_ready m -> die_inv c v (Sys [] m []).
Proof.
  intros Hv [_ Hm]. destruct (Hm v Hv) as (H1 & H2 & H3 & H4 & H5). split; simpl.
  - repeat split; simpl; try done; by rewrite H5.
  - done.
  - unfold cells_ok. simpl. lia.
  - unfold here. simpl. rewrite H5. left. done.
  - intros _. unfold here. simpl. rewrite H5. split; [|done]. repeat split; done.
Qed.

Lemma die_reach_inv c v s :
  (forall w, 0 <= quota_percent c w <= 100) -> 0 <= v < MAX_VNPU -> die_reach c s -> die_inv c v s.
Proof.
  intros Hc Hv. induction 1 as [m Hm|s a s1 Hs IH Hcalm Ha]; [by apply start_inv|by eapply act_inv].
Qed.
