(* ===== verification/CoreSchedFacts.v ===== *)
(** The decisions of the core limiter: the rotation of the owner, the window
    of the vNPUs that may borrow, the admission by priority, and the
    initialisation of the shared memory. *)

From S2P Require Import Prelude CoreSched CoreSchedInv.

(** * The rotation *)

(** The number of steps from [o] round to [v], from 1 to [MAX_VNPU]. *)
Definition dist (o v : Z) : Z := (v - o - 1) mod MAX_VNPU + 1.

Definition is_vnpu_id (v : Z) : Prop := 0 <= v < MAX_VNPU.

(** An owner, [-1] before the first one. *)
Definition is_owner (o : Z) : Prop := -1 <= o < MAX_VNPU.

Lemma dist_range o v : 1 <= dist o v <= MAX_VNPU.
Proof. unfold dist, MAX_VNPU. zlia. Qed.

Lemma candidate_dist o i : is_owner o -> 1 <= i <= MAX_VNPU -> dist o (Z.rem (o + i) MAX_VNPU) = i.
Proof.
  unfold is_owner, dist, MAX_VNPU. intros Ho Hi. rewrite Z.rem_mod_nonneg by lia. zlia.
Qed.

Lemma dist_candidate o v : is_owner o -> is_vnpu_id v -> Z.rem (o + dist o v) MAX_VNPU = v.
Proof.
  unfold is_owner, is_vnpu_id, dist, MAX_VNPU. intros Ho Hv. rewrite Z.rem_mod_nonneg by zlia. zlia.
Qed.

Lemma candidate_id o i : is_owner o -> 1 <= i -> is_vnpu_id (Z.rem (o + i) MAX_VNPU).
Proof. unfold is_owner, is_vnpu_id, MAX_VNPU. intros Ho Hi. rewrite Z.rem_mod_nonneg by lia. zlia. Qed.

(** Going on from [n] towards [v] when [n] comes first. *)
Lemma dist_rest o n v :
  is_owner o -> is_vnpu_id n -> is_vnpu_id v -> n <> v -> dist o n <= dist o v -> dist n v = dist o v - dist o n.
Proof. unfold is_owner, is_vnpu_id, dist, MAX_VNPU. zlia. Qed.

Lemma in_rotation_id m t v : in_rotation m t v = true -> is_vnpu_id v.
Proof.
  unfold in_rotation, is_vnpu_alive, is_vnpu_id. intros [H _]%andb_true_iff.
  destruct (Z.ltb_spec v 0); [done|]. destruct (Z.leb_spec MAX_VNPU v); [done|]. lia.
Qed.

(** The loop stops at the first candidate of the rotation. *)
Lemma next_owner_loop_spec m t o n b :
  is_owner o -> 1 <= b -> 0 <= n ->
  let r := next_owner_loop m t o (seqZ b n) in
  (r = -1 ∧ forall i, b <= i < b + n -> in_rotation m t (Z.rem (o + i) MAX_VNPU) = false) ∨
  (exists i, b <= i < b + n ∧ r = Z.rem (o + i) MAX_VNPU ∧ in_rotation m t r = true ∧
     forall j, b <= j < i -> in_rotation m t (Z.rem (o + j) MAX_VNPU) = false).
Proof.
  intros Ho Hb Hn. cbn zeta. revert b Hb. pattern n. apply natlike_ind; [| |done]; clear n Hn.
  { intros b Hb. left. split; [done|lia]. }
  intros n Hn IH b Hb. rewrite seqZ_cons by lia. cbn [next_owner_loop]. rewrite <- (Z.add_1_r b), Z.pred_succ.
  change (is_vnpu_alive m t (Z.rem (o + b) MAX_VNPU) && is_normal_priority_vnpu m (Z.rem (o + b) MAX_VNPU))
    with (in_rotation m t (Z.rem (o + b) MAX_VNPU)).
  destruct (in_rotation m t (Z.rem (o + b) MAX_VNPU)) eqn:E.
  { right. exists b. repeat split; try done; lia. }
  destruct (IH (b + 1) ltac:(lia)) as [[Er H]|(i & Hi & Er & Hr & H)].
  - left. split; [done|]. intros i Hi. destruct (Z.eq_dec i b) as [->|]; [done|apply H; lia].
  - right. exists i. repeat split; try done; [lia|lia|]. intros j Hj. destruct (Z.eq_dec j b) as [->|]; [done|apply H; lia].
Qed.

(** The next owner is the nearest vNPU of the rotation. *)
Lemma select_next_owner_spec m t o :
  is_owner o ->
  let n := select_next_owner m t o in
  (n = -1 ∧ forall v, in_rotation m t v = false) ∨
  (in_rotation m t n = true ∧ forall v, in_rotation m t v = true -> dist o n <= dist o v).
Proof.
  intros Ho. cbn zeta. unfold select_next_owner.
  destruct (next_owner_loop_spec m t o MAX_VNPU 1 Ho) as [[E H]|(i & Hi & E & Hr & H)]; try done.
  - left. split; [done|]. intros v. destruct (in_rotation m t v) eqn:Ev; [|done].
    pose proof (in_rotation_id _ _ _ Ev) as Hv. pose proof (dist_range o v).
    specialize (H (dist o v) ltac:(lia)). rewrite dist_candidate in H by done. congruence.
  - right. split; [done|]. intros v Ev. rewrite E, candidate_dist by (done || lia).
    pose proof (in_rotation_id _ _ _ Ev) as Hv. destruct (Z.le_gt_cases i (dist o v)) as [|Hlt]; [done|].
    pose proof (dist_range o v). specialize (H (dist o v) ltac:(lia)). rewrite dist_candidate in H by done. congruence.
Qed.

(** The owners that follow [o], each handing over to the next. *)
Fixpoint next_owners (m : sched_mem) (t o : Z) (k : nat) : list Z :=
  match k with
  | O => []
  | S k1 => let n := select_next_owner m t o in n :: next_owners m t n k1
  end.

(** The owners come nearer and nearer to [v] until it is its turn. *)
Lemma next_owners_reach m t v :
  in_rotation m t v = true -> forall d o, is_owner o -> dist o v <= Z.of_nat d ->
  exists k, (1 <= k <= d)%nat ∧ last (next_owners m t o k) = Some v ∧
    NoDup (next_owners m t o k) ∧
    Forall (fun n => in_rotation m t n = true ∧ (n = v ∨ dist n v < dist o v)) (next_owners m t o k).
Proof.
  intros Hv. pose proof (in_rotation_id _ _ _ Hv) as Hvi. induction d as [|d IH]; intros o Ho Hd.
  { pose proof (dist_range o v). lia. }
  destruct (select_next_owner_spec m t o Ho) as [[_ H]|[Hn H]]; [by rewrite H in Hv|].
  set (n := select_next_owner m t o) in *. specialize (H v Hv). pose proof (in_rotation_id _ _ _ Hn) as Hni.
  destruct (Z.eq_dec n v) as [E|E].
  { exists 1%nat. cbn [next_owners]. fold n. rewrite E. repeat split; [lia|lia|apply NoDup_singleton|].
    apply Forall_singleton. auto. }
  pose proof (dist_rest o n v Ho Hni Hvi E H) as Er. pose proof (dist_range o n).
  destruct (IH n) as (k & Hk & Hl & HN & HF); [unfold is_vnpu_id, is_owner in *; lia|lia|].
  exists (S k). cbn [next_owners]. fold n. repeat split; [lia|lia| | |].
  - destruct (next_owners m t n k) as [|y l] eqn:El; [done|]. done.
  - constructor; [|done]. intros Hin. rewrite Forall_forall in HF. destruct (HF n Hin) as [_ [?|?]]; [done|lia].
  - constructor; [split; [done|right; lia]|]. eapply Forall_impl; [exact HF|]. intros x [Hx [->|Hd']]; (split; [done|]); [by left|right; lia].
Qed.

(** * The window of the borrowers *)

(** The vNPUs of the rotation among the [k] candidates from step [b] on. *)
Definition ahead (m : sched_mem) (t o b k : Z) : Z :=
  Z.of_nat (length (filter (fun i => in_rotation m t (Z.rem (o + i) MAX_VNPU) = true) (seqZ b k))).

Lemma ahead_cons m t o b k :
  0 < k ->
  ahead m t o b k = (if in_rotation m t (Z.rem (o + b) MAX_VNPU) then 1 else 0) + ahead m t o (b + 1) (k - 1).
Proof.
  intros Hk. unfold ahead. rewrite seqZ_cons by done. rewrite <- Z.add_1_r, <- Z.sub_1_r. rewrite filter_cons.
  destruct (in_rotation m t (Z.rem (o + b) MAX_VNPU)); [rewrite decide_True by done|rewrite decide_False by done]; simpl; lia.
Qed.

Lemma ahead_nonneg m t o b k : 0 <= ahead m t o b k.
Proof. unfold ahead. lia. Qed.

Lemma slide_loop_spec m t id o n b len :
  is_owner o -> is_vnpu_id id -> 1 <= b <= dist o id -> dist o id < b + n -> b + n <= MAX_VNPU + 1 ->
  slide_loop m t id o (seqZ b n) len = (ahead m t o b (dist o id - b) <? len).
Proof.
  intros Ho Hid. revert b len. assert (Hn : n <= 0 ∨ 0 <= n) by lia. destruct Hn as [Hn|Hn]; [lia|].
  pattern n. apply natlike_ind; [| |done]; clear n Hn; [lia|].
  intros n Hn IH b len Hb Hd Hmax. rewrite seqZ_cons by lia. cbn [slide_loop]. rewrite <- (Z.add_1_r b), Z.pred_succ.
  change (is_vnpu_alive m t (Z.rem (o + b) MAX_VNPU) && is_normal_priority_vnpu m (Z.rem (o + b) MAX_VNPU))
    with (in_rotation m t (Z.rem (o + b) MAX_VNPU)).
  pose proof (ahead_nonneg m t o b (dist o id - b)) as H0.
  destruct (Z.leb_spec len 0); [symmetry; apply Z.ltb_ge; lia|].
  destruct (Z.eqb_spec (Z.rem (o + b) MAX_VNPU) id) as [E|E].
  { rewrite <- E, candidate_dist by (done || lia). rewrite Z.sub_diag. symmetry. apply Z.ltb_lt. done. }
  assert (b <> dist o id) by (intros ->; apply E, dist_candidate; done).
  rewrite IH by lia. rewrite (ahead_cons m t o b) by lia. replace (dist o id - (b + 1)) with (dist o id - b - 1) by lia.
  destruct (in_rotation m t (Z.rem (o + b) MAX_VNPU)); apply eq_true_iff_eq; rewrite !Z.ltb_lt; lia.
Qed.

(** * Admission *)

(** A vNPU of the priority [p] with a recent heartbeat and a recent demand. *)
Definition demands (m : sched_mem) (p t i : Z) : bool :=
  (atom m (cell vnpu_priority i) =? p) &&
  priority_timestamp_is_recent (atom m (cell last_alive_time_ns i)) t VNPU_TIMEOUT_PERIOD &&
  priority_timestamp_is_recent (atom m (cell last_kernel_time_ns i)) t VNPU_NO_TASK_TIMEOUT_PERIOD.

Lemma admission_loop_spec m p c t ids :
  admission_loop m p c t ids =
  if existsb (demands m c t) ids
  then (if p =? VNPU_PRIORITY_HIGH then negb (in_normal_window t) else in_normal_window t) else true.
Proof.
  induction ids as [|i ids IH]; [done|]. cbn [admission_loop existsb]. rewrite IH. unfold demands at 2.
  destruct (atom m (cell vnpu_priority i) =? c); [|done].
  destruct (priority_timestamp_is_recent _ t VNPU_TIMEOUT_PERIOD); [|done].
  by destruct (priority_timestamp_is_recent _ t VNPU_NO_TASK_TIMEOUT_PERIOD).
Qed.

Lemma vnpu_ids_elem v : v ∈ vnpu_ids <-> is_vnpu_id v.
Proof. unfold vnpu_ids, is_vnpu_id. rewrite elem_of_seqZ. lia. Qed.

Lemma demand_exists m p t v : is_vnpu_id v -> demands m p t v = true -> existsb (demands m p t) vnpu_ids = true.
Proof. intros Hv H. apply existsb_exists. exists v. split; [|done]. by apply list_elem_of_In, vnpu_ids_elem. Qed.

(** Inside its window a priority is admitted whatever the others demand. *)
Lemma allowed_in_window sched p t :
  (if p =? VNPU_PRIORITY_HIGH then negb (in_normal_window t) else in_normal_window t) = true ->
  priority_admission_allowed sched p t = true.
Proof. intros H. destruct sched as [m|]; [|done]. unfold priority_admission_allowed. rewrite admission_loop_spec. by destruct (existsb _ _). Qed.

(** * Initialisation *)

(** The steps of one process in [share_mem_init], with the clock at each. *)
Fixpoint init_run (times : list Z) (k : init_place) (m : sched_mem) : option (init_place * sched_mem) :=
  match times with
  | [] => Some (k, m)
  | t :: r => '(k1, m1) ← init_step t false true k m; init_run r k1 m1
  end.

Lemma init_run_app l1 l2 k m : init_run (l1 ++ l2) k m = '(k1, m1) ← init_run l1 k m; init_run l2 k1 m1.
Proof.
  revert k m. induction l1 as [|t l1 IH]; intros k m; [done|]. cbn [app init_run].
  destruct (init_step t false true k m) as [[k1 m1]|]; [|done]. apply IH.
Qed.

(** What the loop has done for the vNPUs up to [n]. *)
Definition cells_ready (n : Z) (m : sched_mem) : Prop :=
  forall v, 0 <= v < n ->
    atom m (cell vnpu_cur_timeslice v) = 0 ∧ atom m (cell vnpu_schedule_turn v) = 0 ∧
    atom m (cell vnpu_quota_injected_for_turn v) = 255 ∧ atom m (cell vnpu_turn_max_sync v) = 0 ∧
    mutex m v = mutex_free.

Lemma reset_cell_other i m v f : v <> i -> atom (reset_cell i m) (cell f v) = atom m (cell f v) ∧ mutex (reset_cell i m) v = mutex m v.
Proof.
  intros H. unfold reset_cell. rewrite atom_set_mutex, mutex_set. rewrite decide_False by done.
  rewrite !atom_store_ne by congruence. done.
Qed.

Lemma reset_cell_global i m : atom (reset_cell i m) owner = atom m owner ∧ atom (reset_cell i m) magic_number = atom m magic_number.
Proof. done. Qed.

Lemma reset_cell_ready i m : 0 <= i -> cells_ready i m -> cells_ready (i + 1) (reset_cell i m).
Proof.
  intros Hi H v Hv. destruct (Z.eq_dec v i) as [->|Hne].
  - unfold reset_cell. rewrite !atom_set_mutex, mutex_set, decide_True by done.
    repeat split; rewrite ?atom_store_eq; repeat (rewrite atom_store_ne by discriminate; rewrite ?atom_store_eq); done.
  - destruct (H v ltac:(lia)) as (H1 & H2 & H3 & H4 & H5).
    repeat split; rewrite ?(proj1 (reset_cell_other i m v _ Hne)), ?(proj2 (reset_cell_other i m v last_alive_time_ns Hne)); done.
Qed.

Lemma init_cells_run times i m :
  0 <= i -> i + Z.of_nat (length times) = MAX_VNPU -> cells_ready i m ->
  exists m1, init_run times (I_cells i) m = Some (I_cells MAX_VNPU, m1) ∧ cells_ready MAX_VNPU m1 ∧
    atom m1 owner = atom m owner ∧ atom m1 magic_number = atom m magic_number.
Proof.
  revert i m. induction times as [|t times IH]; intros i m Hi Hl HC.
  { exists m. simpl in *. replace i with MAX_VNPU in * by lia. done. }
  cbn [init_run init_step length] in *. rewrite (proj2 (Z.ltb_lt i MAX_VNPU)) by lia. cbn [mbind option_bind].
  destruct (IH (i + 1) (reset_cell i m)) as (m1 & E & H1 & H2 & H3); [lia|lia|by apply reset_cell_ready|].
  exists m1. destruct (reset_cell_global i m) as [E1 E2]. by rewrite <- E1, <- E2.
Qed.

(** From the claim of the memory to the end of [share_mem_init]. *)
Lemma init_claim_run t1 t2 times t3 t4 t5 m :
  Z.of_nat (length times) = MAX_VNPU ->
  exists m1, init_run ([t1; t2] ++ times ++ [t3; t4; t5]) I_claim m = Some (I_return ENPU_SUCCESS, m1) ∧
    sched_ready m1 ∧ atom m1 magic_number = SCHED_MAGIC_INITIALIZED.
Proof.
  intros Hl. rewrite init_run_app. cbn [init_run init_step mbind option_bind].
  set (m2 := atomic_store owner (-1) _).
  destruct (init_cells_run times 0 m2) as (m1 & E & HC & Eo & Em); [done|lia|intros v Hv; lia|].
  rewrite init_run_app, E. cbn [init_run init_step mbind option_bind]. rewrite Z.ltb_irrefl. cbn [mbind option_bind].
  eexists. split; [done|]. split; [|by rewrite atom_store_eq].
  split; [rewrite atom_store_ne, Eo by done; unfold m2; by rewrite atom_store_eq|].
  intros v Hv. rewrite !atom_store_ne, mutex_store by discriminate. apply HC. done.
Qed.

(** ** The ways to the claim *)

Lemma split_ends {A} (times : list A) (n : nat) :
  length times = (n + 5)%nat -> exists a b l x y z, times = [a; b] ++ l ++ [x; y; z] ∧ length l = n.
Proof.
  intros Hl. destruct times as [|a [|b l]]; simpl in Hl; try lia. exists a, b.
  destruct l as [|z l _] using rev_ind; simpl in Hl; [lia|]. rewrite length_app in Hl. simpl in Hl.
  destruct l as [|y l _] using rev_ind; simpl in Hl; [lia|]. rewrite length_app in Hl. simpl in Hl.
  destruct l as [|x l _] using rev_ind; simpl in Hl; [lia|]. rewrite length_app in Hl. simpl in Hl.
  exists l, x, y, z. rewrite <- !app_assoc. split; [done|lia].
Qed.

Lemma init_from_claim times pre k m m' :
  Z.of_nat (length times) = MAX_VNPU + 5 -> init_run pre k m = Some (I_claim, m') ->
  exists m1, init_run (pre ++ times) k m = Some (I_return ENPU_SUCCESS, m1) ∧
    sched_ready m1 ∧ atom m1 magic_number = SCHED_MAGIC_INITIALIZED.
Proof.
  unfold MAX_VNPU. intros Hl E.
  destruct (split_ends times 100 ltac:(lia)) as (a & b & l & x & y & z & -> & Hl').
  destruct (init_claim_run a b l x y z m') as (m1 & E1 & H); [unfold MAX_VNPU; lia|].
  exists m1. split; [|done]. rewrite init_run_app, E. exact E1.
Qed.

Lemma init_run_cons t r k m k1 m1 : init_step t false true k m = Some (k1, m1) -> init_run (t :: r) k m = init_run r k1 m1.
Proof. intros E. cbn [init_run]. by rewrite E. Qed.

Lemma init_top_in_use t b m : atom m magic_number = SCHED_MAGIC_INITIALIZED -> init_step t false true (I_top b) m = Some (I_stale b, m).
Proof. intros E. cbn [init_step]. by rewrite E, Z.eqb_refl. Qed.

Lemma init_top_other t b m : atom m magic_number <> SCHED_MAGIC_INITIALIZED -> init_step t false true (I_top b) m = Some (I_test b, m).
Proof. intros E. cbn [init_step]. by rewrite (proj2 (Z.eqb_neq _ _) E). Qed.

Lemma init_fresh t1 t2 b m :
  atom m magic_number <> SCHED_MAGIC_INITIALIZED -> atom m magic_number <> MAGIC_INITIALIZING ->
  init_run [t1; t2] (I_top b) m = Some (I_claim, m).
Proof.
  intros H1 H2. rewrite (init_run_cons _ _ _ _ _ _ (init_top_other t1 b m H1)).
  cbn [init_run init_step]. by rewrite (proj2 (Z.eqb_neq _ _) H2).
Qed.

Lemma init_in_use t1 t2 b m :
  atom m magic_number = SCHED_MAGIC_INITIALIZED -> sched_shm_is_stale m t2 = false ->
  init_run [t1; t2] (I_top b) m = Some (I_return ENPU_SUCCESS, m).
Proof.
  intros H1 H2. rewrite (init_run_cons _ _ _ _ _ _ (init_top_in_use t1 b m H1)).
  cbn [init_run init_step]. by rewrite H2.
Qed.

Lemma init_stale t1 t2 t3 t4 t5 b m :
  atom m magic_number = SCHED_MAGIC_INITIALIZED -> sched_shm_is_stale m t2 = true ->
  init_run [t1; t2; t3; t4; t5] (I_top b) m = Some (I_claim, atomic_store magic_number MAGIC_UNINITIALIZED m).
Proof.
  intros H1 H2. rewrite (init_run_cons _ _ _ _ _ _ (init_top_in_use t1 b m H1)).
  rewrite (init_run_cons _ _ _ _ (I_discard b) m) by (cbn [init_step]; by rewrite H2).
  rewrite (init_run_cons _ _ _ _ (I_top b) (atomic_store magic_number MAGIC_UNINITIALIZED m)) by done.
  apply init_fresh; by rewrite atom_store_eq.
Qed.

Lemma init_abandoned t1 t2 t3 t4 t5 b m :
  atom m magic_number = MAGIC_INITIALIZING -> 0 <= b -> b + VNPU_TIMEOUT_PERIOD < t2 < U64_MOD ->
  t3 + WAITING_SLEEP_PERIOD <= t4 ->
  init_run [t1; t1; t2; t3; t4; t5; t5] (I_top b) m = Some (I_claim, atomic_store magic_number MAGIC_UNINITIALIZED m).
Proof.
  intros H1 Hb Ht Hs. assert (0 < VNPU_TIMEOUT_PERIOD) by done.
  rewrite (init_run_cons _ _ _ _ (I_test b) m) by (apply init_top_other; by rewrite H1).
  rewrite (init_run_cons _ _ _ _ (I_clock b) m) by (cbn [init_step]; by rewrite H1, Z.eqb_refl).
  rewrite (init_run_cons _ _ _ _ (I_reclaim t2) m).
  2: { cbn [init_step]. rewrite u64_small by (unfold is_u64; lia). by rewrite (proj2 (Z.ltb_lt _ _)) by lia. }
  rewrite (init_run_cons _ _ _ _ (I_sleep (t3 + WAITING_SLEEP_PERIOD) (I_top t2))
    (atomic_store magic_number MAGIC_UNINITIALIZED m)) by done.
  rewrite (init_run_cons _ _ _ _ (I_top t2) (atomic_store magic_number MAGIC_UNINITIALIZED m))
    by (cbn [init_step]; by rewrite (proj2 (Z.leb_le _ _) Hs)).
  apply init_fresh; by rewrite atom_store_eq.
Qed.
