(* ===== verification/CoreSchedThms.v ===== *)
(** The properties of the core limiter. *)

From S2P Require Import Prelude CoreSched CoreSchedInv CoreSchedFacts.

(** * Concrete runs *)

(** Memory as [share_mem_init] leaves it, every vNPU with 30 percent. *)
Definition ex_mem : sched_mem :=
  {| atom := fun l => match l with owner => -1 | cell vnpu_quota_injected_for_turn _ => 255 | _ => 0 end;
     mutex := fun _ => mutex_free |}.

Definition ex_config : sched_config :=
  VnpuConfig (fun _ => 30) (fun _ => VNPU_PRIORITY_NORMAL) (fun _ => SCHED_POLICY_FIXED_SHARE).

(** [n] steps of process [pid] at [ms] milliseconds, and a heartbeat. *)
Definition steps (pid : nat) (ms : Z) (n : nat) : list action :=
  replicate n (Run pid (Inputs (ms * NS_PER_MS) false 0 false)).
Definition beat (v ms : Z) : action := Heartbeat v (ms * NS_PER_MS).

(** Like [acts], for runs that kill no process in its critical section. *)
Fixpoint calm_acts (c : sched_config) (l : list action) (s : sys) : option sys :=
  match l with
  | [] => Some s
  | a :: r => if calm a s then s1 ← act c a s; calm_acts c r s1 else None
  end.

Lemma calm_acts_reach c l s s1 : die_reach c s -> calm_acts c l s = Some s1 -> die_reach c s1.
Proof.
  revert s. induction l as [|a l IH]; intros s Hs H; cbn [calm_acts] in H; [by injection H as <-|].
  destruct (calm a s) eqn:Ec; [|done]. destruct (act c a s) as [s2|] eqn:Ea; [|done].
  apply (IH s2); [by eapply die_act|done].
Qed.

Lemma ex_ready : sched_ready ex_mem.
Proof. split; [done|]. intros v _. repeat split. Qed.

(** A predicate on the state a run ends in. *)
Definition ends_with (o : option sys) (P : sys -> bool) : bool := match o with Some s => P s | None => false end.

(** One turn of a process alone on the die. *)
Definition ex_turn : list action :=
  [Join 3; beat 3 1000] ++ steps 0 1000 6 ++ [beat 3 1071] ++ steps 0 1071 23 ++ [beat 3 1101] ++ steps 0 1101 20 ++
  steps 0 1171 4.

(** * The account of the time slices *)



(** * The rotation of the owner *)


(** vNPUs 2, 5 and 7 are alive at 1 s. *)
Definition ex_three : sched_mem := flush_round 7 NS_PER_S (flush_round 5 NS_PER_S (flush_round 2 NS_PER_S ex_mem)).


(** A process may borrow time exactly when its vNPU is in the window of the
    owner: fewer vNPUs of the rotation than the length of the window come
    between the owner and it. *)
Theorem core_borrow_window m t id o :
  is_owner o -> is_vnpu_id id ->
  slide_window_check m t id o = (ahead m t o 1 (dist o id - 1) <? atom m slide_window_len).
Proof.
  intros Ho Hid. pose proof (dist_range o id). unfold slide_window_check.
  apply slide_loop_spec; try done; unfold MAX_VNPU in *; lia.
Qed.

Lemma core_borrow_window_witness :
  slide_window_check (atomic_store slide_window_len 2 ex_three) NS_PER_S 7 2 = true ∧
  slide_window_check (atomic_store slide_window_len 1 ex_three) NS_PER_S 7 2 = false.
Proof.
  split; rewrite (core_borrow_window _ NS_PER_S 7 2); try (unfold is_owner, is_vnpu_id, MAX_VNPU; lia); vm_compute; reflexivity.
Defined.

(** * Admission by priority *)

(** Admission by priority neither starves nor blocks: without a demand of
    the other priority a submission is admitted; with demands of both, at
    every instant exactly one of the priorities is; and every second holds
    10 ms in which normal and 990 ms in which high priority is admitted
    whatever the memory says, so that a thread that polls every 0.1 ms gets
    through. *)
Theorem core_admission m t v w :
  is_vnpu_id v -> is_vnpu_id w -> 0 <= t ->
  (forall p, p = VNPU_PRIORITY_HIGH ∨ p = VNPU_PRIORITY_NORMAL ->
     (forall i, is_vnpu_id i -> demands m (1 - p) t i = false) -> priority_admission_allowed (Some m) p t = true) ∧
  (demands m VNPU_PRIORITY_HIGH t v = true -> demands m VNPU_PRIORITY_NORMAL t w = true ->
     priority_admission_allowed (Some m) VNPU_PRIORITY_HIGH t = negb (priority_admission_allowed (Some m) VNPU_PRIORITY_NORMAL t)) ∧
  (exists u, t <= u < t + NS_PER_S ∧ forall x sched, u <= x < u + 10 * NS_PER_MS ->
     priority_admission_allowed sched VNPU_PRIORITY_NORMAL x = true) ∧
  (exists u, t <= u < t + NS_PER_S ∧ forall x sched, u <= x < u + 990 * NS_PER_MS ->
     priority_admission_allowed sched VNPU_PRIORITY_HIGH x = true).
Proof.
  intros Hv Hw Ht. unfold VNPU_PRIORITY_HIGH, VNPU_PRIORITY_NORMAL. split; [|split; [|split]].
  - intros p Hp Hno. unfold priority_admission_allowed. rewrite admission_loop_spec.
    destruct (existsb _ _) eqn:E; [|done]. apply existsb_exists in E as (i & Hi & Hd).
    apply list_elem_of_In, vnpu_ids_elem in Hi. specialize (Hno i Hi). destruct Hp as [-> | ->]; by destruct (eq_true_false_abs _ Hd Hno).
  - intros H1 H2. unfold priority_admission_allowed. rewrite !admission_loop_spec.
    unfold VNPU_PRIORITY_HIGH, VNPU_PRIORITY_NORMAL. cbn [Z.eqb Pos.eqb].
    by rewrite (demand_exists m 1 t v Hv H1), (demand_exists m 0 t w Hw H2).
  - exists ((t + NS_PER_S - 1) / NS_PER_S * NS_PER_S). unfold NS_PER_S, NS_PER_MS in *. split; [zlia|].
    intros x sched Hx. apply allowed_in_window. apply Z.ltb_lt.
    unfold VNPU_NORMAL_FAIRNESS_PERIOD, VNPU_NORMAL_FAIRNESS_WINDOW, NS_PER_S, NS_PER_MS. zlia.
  - exists ((t + 990 * NS_PER_MS - 1) / NS_PER_S * NS_PER_S + 10 * NS_PER_MS). unfold NS_PER_S, NS_PER_MS in *. split; [zlia|].
    intros x sched Hx. apply allowed_in_window. apply negb_true_iff, Z.ltb_ge.
    unfold VNPU_NORMAL_FAIRNESS_PERIOD, VNPU_NORMAL_FAIRNESS_WINDOW, NS_PER_S, NS_PER_MS. zlia.
Qed.

(** vNPU 2 has high and vNPU 5 normal priority, both with a demand at 1.5 s. *)
Definition ex_both : sched_mem :=
  let t := 1500 * NS_PER_MS in
  atomic_store (cell vnpu_priority 2) VNPU_PRIORITY_HIGH
    (update_last_kernel_time_now 5 t (update_last_kernel_time_now 2 t (flush_round 5 t (flush_round 2 t ex_mem)))).

Lemma core_admission_witness :
  priority_admission_allowed (Some ex_both) VNPU_PRIORITY_HIGH (1500 * NS_PER_MS) = true ∧
  priority_admission_allowed (Some ex_both) VNPU_PRIORITY_NORMAL (1500 * NS_PER_MS) = false.
Proof.
  destruct (core_admission ex_both (1500 * NS_PER_MS) 2 5) as (_ & H & _);
    [unfold is_vnpu_id, MAX_VNPU; lia|unfold is_vnpu_id, MAX_VNPU; lia|unfold NS_PER_MS; lia|].
  assert (H' : priority_admission_allowed (Some ex_both) VNPU_PRIORITY_HIGH (1500 * NS_PER_MS) =
    negb (priority_admission_allowed (Some ex_both) VNPU_PRIORITY_NORMAL (1500 * NS_PER_MS)))
    by (apply H; vm_compute; reflexivity).
  split; [rewrite H'|]; vm_compute; reflexivity.
Defined.

(** * Initialisation *)

(** A run of [n] steps whose times are [times]. *)
Definition init_steps (times : list Z) : Z := Z.of_nat (length times).

(** [share_mem_init] of a process that is not disturbed returns success
    with a memory the scheduler can start on: it fills a fresh memory, and one
    whose heartbeats are all older than 2 s; it leaves alone a memory in use;
    and it takes over from a process that has left the memory half
    initialised for more than 3 ms. *)
Theorem core_init m begin t1 t2 t3 t4 t5 times :
  init_steps times = MAX_VNPU + 5 ->
  let done_from k pre := exists m1, init_run (pre ++ times) k m = Some (I_return ENPU_SUCCESS, m1) ∧
    sched_ready m1 ∧ atom m1 magic_number = SCHED_MAGIC_INITIALIZED in
  (atom m magic_number <> SCHED_MAGIC_INITIALIZED -> atom m magic_number <> MAGIC_INITIALIZING ->
     done_from (I_top begin) [t1; t2]) ∧
  (atom m magic_number = SCHED_MAGIC_INITIALIZED -> sched_shm_is_stale m t2 = true ->
     done_from (I_top begin) [t1; t2; t3; t4; t5]) ∧
  (atom m magic_number = SCHED_MAGIC_INITIALIZED -> sched_shm_is_stale m t2 = false ->
     init_run [t1; t2] (I_top begin) m = Some (I_return ENPU_SUCCESS, m)) ∧
  (atom m magic_number = MAGIC_INITIALIZING -> 0 <= begin -> begin + VNPU_TIMEOUT_PERIOD < t2 < U64_MOD ->
     t3 + WAITING_SLEEP_PERIOD <= t4 -> done_from (I_top begin) [t1; t1; t2; t3; t4; t5; t5]).
Proof.
  unfold init_steps, MAX_VNPU. intros Hl. cbn zeta.
  assert (Hclaim := fun pre k m' => init_from_claim times pre k m m' Hl).
  split; [|split; [|split]].
  - intros H1 H2. apply (Hclaim _ _ m), init_fresh; done.
  - intros H1 H2. eapply Hclaim, init_stale; done.
  - intros H1 H2. by apply init_in_use.
  - intros H1 Hb Ht Hs. eapply Hclaim, init_abandoned; done.
Qed.

Lemma core_init_witness :
  exists m1, init_run ([1; 2] ++ replicate 105 3) (I_top 0) ex_mem = Some (I_return ENPU_SUCCESS, m1) ∧
    sched_ready m1 ∧ atom m1 magic_number = SCHED_MAGIC_INITIALIZED.
Proof.
  apply (core_init ex_mem 0 1 2 3 4 5 (replicate 105 3)); [vm_compute; reflexivity|discriminate|discriminate].
Defined.

(** * Faults *)

(** Process 0 of vNPU 3 is killed between taking the slice and marking the
    turn; process 1 finds the mutex of a dead holder. *)
Definition ex_crash : list action :=
  [Join 3; Join 3; beat 3 1000] ++ steps 0 1000 6 ++ [beat 3 1071] ++ steps 0 1071 13 ++ [Kill 0] ++ steps 1 1071 12.

(** A fault: a process that dies in its critical section, after it has
    taken the slice and before it has marked the turn, leaves the turn
    unmarked.  The next process takes the mutex over and injects and grants
    the quota of the same turn a second time. *)
Theorem core_crash_reinjects :
  ends_with (acts ex_config ex_crash (Sys [] ex_mem []))
    (fun s => (turns 3 (hist s) =? 0) && (injections 3 (hist s) =? 2) &&
              (granted 3 (hist s) =? 2 * sched_quota_of ex_config 3)) = true.
Proof. vm_compute. reflexivity. Qed.

(** Two processes attach to a fresh memory.  Both have seen that it is not
    initialised; the first finishes, starts and takes the mutex of vNPU 3 before the
    second fills the memory. *)
Definition init_race : option (sys * sched_mem) :=
  '(k2, m0) ← init_run [1; 1] (I_top 0) ex_mem;
  '(_, m1) ← init_run ([1; 1] ++ replicate 105 1) (I_top 0) m0;
  s ← acts ex_config ([Join 3; beat 3 1000] ++ steps 0 1000 6 ++ [beat 3 1071] ++ steps 0 1071 13) (Sys [] m1 []);
  '(_, m2) ← init_run (replicate 105 1) k2 (smem s);
  Some (s, m2).

(** A fault: the memory is claimed by a test and a store that are not one
    atomic operation.  A second process that has passed the test initialises
    the memory again under a running scheduler: the mutex that a process
    holds in its critical section becomes free, and its quota is erased. *)
Theorem core_init_race :
  match init_race with
  | Some (s, m2) =>
    match procs s !! 0%nat, mutex (smem s) 3, mutex m2 3 with
    | Some p, mutex_held 0, mutex_free =>
      in_section (pc p) && (atom (smem s) (cell vnpu_quota_timeslice 3) =? 30000000) &&
      (atom m2 (cell vnpu_quota_timeslice 3) =? 0) && (atom m2 owner =? -1)
    | _, _, _ => false
    end
  | None => false
  end = true.
Proof. vm_compute. reflexivity. Qed.
