(* ===== verification/RtStreams.v ===== *)
(** The streams, events and launch statistics of a process
    (vcann-rt/src/core_limiter.c): which streams the scheduler synchronises at
    the end of a turn, which of them are in a graph capture, and to which
    graph or task group the kernels of a launch are counted.

    The hash maps are the finite maps they implement ([hm_rep] of HashMap,
    refined by [put_refines], [search_refines] and [remove_refines]).  A map
    whose values are pointers to buffers is the map of the buffers: a buffer
    is created for its key and never freed. *)

From S2P Require Import Prelude HashMap.

Definition MAX_STREAMS_PER_PROCESS : Z := 128.
Definition MAX_GRPS_PER_CAPTURE : Z := 64.

(** * The operations of a hash map *)

Definition hm_put {V} (malloc_ok : bool) (m : gmap Z V) (key : Z) (v : V) : Z * gmap Z V :=
  if key =? 0 then (-1, m)
  else if malloc_ok || bool_decide (is_Some (m !! key)) then (0, <[key := v]> m) else (-1, m).

Definition hm_contains {V} (m : gmap Z V) (key : Z) : bool := negb (key =? 0) && bool_decide (is_Some (m !! key)).

Definition hm_get {V} (m : gmap Z V) (key : Z) : option V := if key =? 0 then None else m !! key.

Definition hm_remove {V} (m : gmap Z V) (key : Z) : Z * gmap Z V :=
  match hm_get m key with Some _ => (0, delete key m) | None => (-1, m) end.

Lemma put_refines h m ok k p cs :
  hm_rep h m ->
  exists h1, hashmap_put ok h k p cs = Some ((hm_put ok m k (mk_value p cs)).1, h1) ∧ hm_rep h1 (hm_put ok m k (mk_value p cs)).2.
Proof.
  intros H. unfold hm_put. destruct (Z.eqb_spec k 0) as [->|Hk]; [by exists h|].
  destruct (ok || bool_decide (is_Some (m !! k))) eqn:E.
  - destruct (put_ok h m k p cs ok H Hk) as (h1 & E1 & H1 & _); [|by exists h1].
    apply orb_true_iff in E as [E|E]; [by left|right; by apply bool_decide_eq_true in E].
  - apply orb_false_iff in E as [-> E]. apply bool_decide_eq_false, eq_None_not_Some in E. exists h. by rewrite (put_fail h m).
Qed.

Lemma search_refines {A} (f : MapValue -> A) h m k :
  hm_rep h m -> hashmap_search f h k = Some (match hm_get m k with Some v => (0, Some (f v)) | None => (-1, None) end).
Proof.
  intros H. unfold hm_get. destruct (Z.eqb_spec k 0) as [->|Hk]; [done|]. by rewrite (search_eq f h m).
Qed.

Lemma remove_refines h m k :
  hm_rep h m -> exists h1, hashmap_remove h k = Some ((hm_remove m k).1, h1) ∧ hm_rep h1 (hm_remove m k).2.
Proof.
  intros H. unfold hm_remove, hm_get. destruct (Z.eqb_spec k 0) as [->|Hk]; [by exists h|].
  pose proof (remove_eq h m k H Hk) as R. destruct (m !! k); [|by exists h]. destruct R as (h1 & E & H1 & _). by exists h1.
Qed.

(** * Streams *)

(** [g_cache_streams] up to [num_streams], [stream_map] and [event_map], and
    the streams that [rtStreamSynchronize] was called for. *)
Record rt_streams := RtStreams {
  cached : list Z;
  stream_map : gmap Z MapValue;
  event_map : gmap Z MapValue;
  synced : list Z;
}.

Definition with_streams (s : rt_streams) (c : list Z) (m : gmap Z MapValue) : rt_streams :=
  RtStreams c m (event_map s) (synced s).
Definition with_map (s : rt_streams) (m : gmap Z MapValue) : rt_streams :=
  RtStreams (cached s) m (event_map s) (synced s).
Definition with_events (s : rt_streams) (m : gmap Z MapValue) : rt_streams :=
  RtStreams (cached s) (stream_map s) m (synced s).

Definition no_streams : rt_streams := RtStreams [] ∅ ∅ [].

Definition restore_streams (ok : bool) (stream : Z) (s : rt_streams) : rt_streams :=
  if stream =? 0 then s
  else if hm_contains (stream_map s) stream then s
  else if MAX_STREAMS_PER_PROCESS <=? Z.of_nat (length (cached s)) then s
  else with_streams s (cached s ++ [stream]) (hm_put ok (stream_map s) stream (mk_value 0 false)).2.

Definition add_stream (ok : bool) (stream : Z) (s : rt_streams) : rt_streams :=
  if hm_contains (stream_map s) stream then s
  else with_map s (hm_put ok (stream_map s) stream (mk_value 0 false)).2.

(** [synchronize_and_clear_streams]: the loop writes the streams in capture to
    the front of the array; a failure leaves the loop and the count alone. *)
Fixpoint sync_loop (fuel : nat) (i remaining_count : nat) (s : rt_streams) : rt_streams :=
  match fuel with
  | O => with_streams s (take remaining_count (cached s)) (stream_map s)
  | S fuel1 =>
    match cached s !! i with
    | None => s
    | Some stm =>
      match hm_get (stream_map s) stm with
      | None => s
      | Some v =>
        if mv_capture_status v
        then sync_loop fuel1 (S i) (S remaining_count) (with_streams s (<[remaining_count := stm]> (cached s)) (stream_map s))
        else
          let '(rc, m1) := hm_remove (stream_map s) stm in
          let s1 := RtStreams (cached s) m1 (event_map s) (synced s ++ [stm]) in
          if rc =? -1 then s1 else sync_loop fuel1 (S i) remaining_count s1
      end
    end
  end.

Definition synchronize_and_clear_streams (s : rt_streams) : rt_streams := sync_loop (length (cached s)) 0 0 s.

(** The loop of [set_stream_capture(false)] over the cached streams. *)
Fixpoint uncapture_loop (ok : bool) (head : Z) (l : list Z) (s : rt_streams) : rt_streams :=
  match l with
  | [] => s
  | stm :: r =>
    match hm_get (stream_map s) stm with
    | None => s
    | Some v =>
      if mv_ptr v =? head then
        let '(rc, m1) := hm_put ok (stream_map s) stm (mk_value 0 false) in
        if rc =? -1 then with_map s m1 else uncapture_loop ok head r (with_map s m1)
      else uncapture_loop ok head r s
    end
  end.

Definition set_stream_capture (ok capture : bool) (stream : Z) (s : rt_streams) : rt_streams :=
  if negb capture then uncapture_loop ok stream (cached s) s
  else with_map s (hm_put ok (stream_map s) stream (mk_value stream capture)).2.

Definition set_event_wait_status (ok : bool) (evt stm : Z) (s : rt_streams) : rt_streams :=
  match hm_get (event_map s) evt with
  | None => s
  | Some v => if mv_ptr v =? 0 then s else with_map s (hm_put ok (stream_map s) stm (mk_value (mv_ptr v) true)).2
  end.

Definition set_event_create_status (ok : bool) (evt : Z) (s : rt_streams) : rt_streams :=
  with_events s (hm_put ok (event_map s) evt (mk_value 0 false)).2.

Definition set_event_record_status (ok : bool) (evt stm : Z) (s : rt_streams) : rt_streams :=
  match hm_get (event_map s) evt with
  | None => s
  | Some _ =>
    match hm_get (stream_map s) stm with
    | None => s
    | Some v => if mv_ptr v =? 0 then s else with_events s (hm_put ok (event_map s) evt (mk_value (mv_ptr v) true)).2
    end
  end.

(** The first occurrence is removed and the rest moves up. *)
Fixpoint remove_first_stream (stm : Z) (l : list Z) : option (list Z) :=
  match l with
  | [] => None
  | x :: r => if stm =? x then Some r else l1 ← remove_first_stream stm r; Some (x :: l1)
  end.

Definition remove_stream (stm : Z) (s : rt_streams) : rt_streams :=
  match remove_first_stream stm (cached s) with
  | Some c => with_streams s c (hm_remove (stream_map s) stm).2
  | None => s
  end.

Definition set_event_destroy_status (evt : Z) (s : rt_streams) : rt_streams := with_events s (hm_remove (event_map s) evt).2.

Definition stream_is_capturing (stm : Z) (s : rt_streams) : bool :=
  match hm_get (stream_map s) stm with Some v => mv_capture_status v | None => false end.

(** * Launch statistics *)

Record stats_buffer_t := StatsBuffer { block_dim : Z; count : Z; grp_handles : list Z }.
Record task_grp_state_t := TaskGrpState { mode : Z; update_handle : Z; tmp_block_dim : Z; tmp_count : Z }.

(** The maps of the statistics, and the records made ([vnpu_stats_record]). *)
Record rt_stats := RtStats {
  capture_stats_map : gmap Z stats_buffer_t;
  model_stats_map : gmap Z stats_buffer_t;
  task_grp_state_map : gmap Z task_grp_state_t;
  taskGroup_map : gmap Z Z;
  records : list (Z * Z);
}.

Definition no_stats : rt_stats := RtStats ∅ ∅ ∅ ∅ [].
Definition empty_buffer : stats_buffer_t := StatsBuffer 0 0 [].

Definition with_capture (s : rt_stats) (m : gmap Z stats_buffer_t) : rt_stats :=
  RtStats m (model_stats_map s) (task_grp_state_map s) (taskGroup_map s) (records s).
Definition with_model (s : rt_stats) (m : gmap Z stats_buffer_t) : rt_stats :=
  RtStats (capture_stats_map s) m (task_grp_state_map s) (taskGroup_map s) (records s).
Definition with_grp_state (s : rt_stats) (m : gmap Z task_grp_state_t) : rt_stats :=
  RtStats (capture_stats_map s) (model_stats_map s) m (taskGroup_map s) (records s).
Definition with_groups (s : rt_stats) (m : gmap Z Z) : rt_stats :=
  RtStats (capture_stats_map s) (model_stats_map s) (task_grp_state_map s) m (records s).
Definition with_record (s : rt_stats) (dim n : Z) : rt_stats :=
  RtStats (capture_stats_map s) (model_stats_map s) (task_grp_state_map s) (taskGroup_map s) (records s ++ [(dim, n)]).

(** The buffer of a key, created when there is none: [None] when calloc or
    the insertion fails. *)
Definition find_or_create {V} (calloc_ok put_ok : bool) (m : gmap Z V) (key : Z) (fresh : V) : option (V * gmap Z V) :=
  match hm_get m key with
  | Some b => Some (b, m)
  | None =>
    if negb calloc_ok then None
    else let '(rc, m1) := hm_put put_ok m key fresh in if rc =? 0 then Some (fresh, m1) else None
  end.

(** The answers of calloc and of the insertion in one operation. *)
Record allocs := Allocs { calloc_ok : bool; insert_ok : bool }.

Definition capture_stats_add (a : allocs) (stm dim : Z) (s : rt_stats) : rt_stats :=
  if stm =? 0 then s
  else match find_or_create (calloc_ok a) (insert_ok a) (capture_stats_map s) stm empty_buffer with
       | None => s
       | Some (b, m) =>
         with_capture s (<[stm := StatsBuffer (u64 (block_dim b + dim)) (u64 (count b + 1)) (grp_handles b)]> m)
       end.

Definition capture_stats_transfer_to_model (a : allocs) (stm mdl : Z) (s : rt_stats) : Z * rt_stats :=
  if (stm =? 0) || (mdl =? 0) then (-1, s)
  else match hm_get (capture_stats_map s) stm with
       | None => (-1, s)
       | Some sb =>
         match find_or_create (calloc_ok a) (insert_ok a) (model_stats_map s) mdl empty_buffer with
         | None => (-1, s)
         | Some (mb, m) =>
           let handles := take (Z.to_nat MAX_GRPS_PER_CAPTURE - length (grp_handles mb)) (grp_handles sb) in
           let mb1 := StatsBuffer (u64 (block_dim mb + block_dim sb)) (u64 (count mb + count sb)) (grp_handles mb ++ handles) in
           (0, with_capture (with_model s (<[mdl := mb1]> m)) (<[stm := empty_buffer]> (capture_stats_map s)))
         end
       end.

Definition task_group_map_get (s : rt_stats) (handle : Z) : Z :=
  match hm_get (taskGroup_map s) handle with Some x => x | None => 0 end.

Definition model_stats_total_block_dim (s : rt_stats) (b : stats_buffer_t) : Z :=
  foldl (fun total h => u64 (total + task_group_map_get s h)) (block_dim b) (grp_handles b).

(** The code, the block dimension and the number of kernels. *)
Definition model_stats_get (mdl : Z) (s : rt_stats) : Z * Z * Z :=
  match hm_get (model_stats_map s) mdl with
  | None => (-1, 0, 0)
  | Some b => (0, model_stats_total_block_dim s b, count b)
  end.

Definition task_grp_state_get (stm : Z) (s : rt_stats) : option task_grp_state_t := hm_get (task_grp_state_map s) stm.

(** The state of the stream after [task_grp_state_reset] is [st]. *)
Definition task_grp_state_reset (a : allocs) (stm : Z) (st : task_grp_state_t) (s : rt_stats) : rt_stats :=
  match find_or_create (calloc_ok a) (insert_ok a) (task_grp_state_map s) stm (TaskGrpState 0 0 0 0) with
  | None => s
  | Some (_, m) => with_grp_state s (<[stm := st]> m)
  end.

Definition task_group_map_set (a : allocs) (handle dim : Z) (s : rt_stats) : rt_stats :=
  match find_or_create (calloc_ok a) (insert_ok a) (taskGroup_map s) handle 0 with
  | None => s
  | Some (_, m) => with_groups s (<[handle := dim]> m)
  end.

Definition task_grp_begin (a : allocs) (stm : Z) (s : rt_stats) : rt_stats :=
  task_grp_state_reset a stm (TaskGrpState 1 0 0 0) s.

(** The group is appended to the buffer of the stream. *)
Definition track_group (a : allocs) (stm handle n : Z) (s : rt_stats) : rt_stats :=
  match find_or_create (calloc_ok a) (insert_ok a) (capture_stats_map s) stm empty_buffer with
  | None => s
  | Some (b, m) =>
    let handles := if Z.of_nat (length (grp_handles b)) <? MAX_GRPS_PER_CAPTURE then grp_handles b ++ [handle] else grp_handles b in
    with_capture s (<[stm := StatsBuffer (block_dim b) (u64 (count b + n)) handles]> m)
  end.

Definition task_grp_end (a : allocs) (stm handle : Z) (s : rt_stats) : rt_stats :=
  match task_grp_state_get stm s with
  | None => s
  | Some st =>
    if negb (mode st =? 1) then s
    else
      let s1 := track_group a stm handle (tmp_count st) (task_group_map_set a handle (tmp_block_dim st) s) in
      with_grp_state s1 (<[stm := TaskGrpState 0 (update_handle st) 0 0]> (task_grp_state_map s1))
  end.

Definition task_update_begin (a : allocs) (stm handle : Z) (s : rt_stats) : rt_stats :=
  task_grp_state_reset a stm (TaskGrpState 2 handle 0 0) s.

Definition task_update_end (a : allocs) (stm : Z) (s : rt_stats) : rt_stats :=
  match task_grp_state_get stm s with
  | None => s
  | Some st =>
    if negb (mode st =? 2) then s
    else
      let s1 := task_group_map_set a (update_handle st) (tmp_block_dim st) s in
      with_grp_state s1 (<[stm := TaskGrpState 0 0 0 0]> (task_grp_state_map s1))
  end.

(** [capturing] is [stream_is_capturing stm]. *)
Definition launch_stats_dispatch (a : allocs) (capturing : bool) (stm dim : Z) (s : rt_stats) : rt_stats :=
  let single := if capturing then capture_stats_add a stm dim s else with_record s dim 1 in
  match task_grp_state_get stm s with
  | Some st =>
    if mode st =? 0 then single
    else with_grp_state s
           (<[stm := TaskGrpState (mode st) (update_handle st) (u64 (tmp_block_dim st + dim)) (u64 (tmp_count st + 1))]>
             (task_grp_state_map s))
  | None => single
  end.

(** [record_model_execute_stats] (vcann-rt/src/ascend/graph.c); the dimension is
    cast to [uint32_t]. *)
Definition record_model_execute_stats (mdl : Z) (s : rt_stats) : rt_stats :=
  let '(rc, dim, n) := model_stats_get mdl s in
  if (rc =? 0) && (0 <? n) then with_record s (dim mod 2 ^ 32) n else s.
