(* ===== verification/RtStreamsThms.v ===== *)
(** The properties of the streams and of the launch statistics. *)

From S2P Require Import Prelude HashMap RtStreams.

(** * Streams *)

(** What the hooks do to the streams (vcann-rt/src/ascend) when memory is
    available: a launch or another call that passes the core limiter, the
    calls on events, captures, the end of a stream, and the end of a turn. *)
Inductive stream_op :=
  | Launch (stm : Z)
  | EventCreate (evt : Z)
  | EventRecord (evt stm : Z)
  | EventWait (evt stm : Z)
  | EventDestroy (evt : Z)
  | BeginCapture (stm : Z)
  | EndCapture (stm : Z)
  | StreamDestroy (stm : Z)
  | TurnEnd.

Definition stream_do (o : stream_op) (s : rt_streams) : rt_streams :=
  match o with
  | Launch stm => restore_streams true stm s
  | EventCreate evt => set_event_create_status true evt s
  | EventRecord evt stm => set_event_record_status true evt stm (add_stream true stm s)
  | EventWait evt stm => set_event_wait_status true evt stm (add_stream true stm s)
  | EventDestroy evt => set_event_destroy_status evt s
  | BeginCapture stm => set_stream_capture true true stm (restore_streams true stm s)
  | EndCapture stm => set_stream_capture true false stm (restore_streams true stm s)
  | StreamDestroy stm => remove_stream stm (restore_streams true stm s)
  | TurnEnd => synchronize_and_clear_streams s
  end.

Definition stream_run (l : list stream_op) (s : rt_streams) : rt_streams := foldl (fun s o => stream_do o s) s l.

(** Every cached stream is known, and cached once. *)
Record streams_wf (s : rt_streams) : Prop := {
  sw_nodup : NoDup (cached s);
  sw_known x : x ∈ cached s -> x <> 0 ∧ is_Some (stream_map s !! x);
}.

Lemma hm_put_ok {V} (m : gmap Z V) k v : k <> 0 -> hm_put true m k v = (0, <[k := v]> m).
Proof. intros H. unfold hm_put. by rewrite (proj2 (Z.eqb_neq k 0) H). Qed.

Lemma hm_put_keeps {V} (m : gmap Z V) ok k v x : is_Some (m !! x) -> is_Some ((hm_put ok m k v).2 !! x).
Proof.
  intros H. unfold hm_put. repeat case_match; try done. cbn. destruct (Z.eq_dec x k) as [->|Hx].
  - by rewrite lookup_insert_eq.
  - by rewrite lookup_insert_ne by done.
Qed.

Lemma hm_get_eq {V} (m : gmap Z V) k : k <> 0 -> hm_get m k = m !! k.
Proof. intros H. unfold hm_get. by rewrite (proj2 (Z.eqb_neq k 0) H). Qed.

(** A change of the map that forgets no stream keeps the invariant. *)
Lemma with_map_wf s m :
  streams_wf s -> (forall x, is_Some (stream_map s !! x) -> is_Some (m !! x)) -> streams_wf (with_map s m).
Proof. intros [H1 H2] Hm. split; [done|]. intros x Hx. destruct (H2 x Hx). split; [done|]. by apply Hm. Qed.

Lemma restore_streams_wf s stm : streams_wf s -> streams_wf (restore_streams true stm s).
Proof.
  intros [H1 H2]. unfold restore_streams, hm_contains. destruct (Z.eqb_spec stm 0) as [|Hs]; [done|]. cbn [negb andb].
  case_bool_decide as Hc; [done|]. case_match; [done|]. rewrite hm_put_ok by done.
  split; cbn.
  - apply NoDup_app. split; [done|]. split; [|apply NoDup_singleton].
    intros x Hx ->%list_elem_of_singleton. by destruct (H2 _ Hx).
  - intros x [Hx | ->%list_elem_of_singleton]%elem_of_app; [|split; [done|by rewrite lookup_insert_eq]].
    destruct (H2 x Hx). split; [done|]. destruct (Z.eq_dec x stm) as [->|]; [by rewrite lookup_insert_eq|by rewrite lookup_insert_ne].
Qed.

Lemma add_wf s stm : streams_wf s -> streams_wf (add_stream true stm s).
Proof. intros H. unfold add_stream. case_match; [done|]. apply with_map_wf; [done|]. intros x. apply hm_put_keeps. Qed.

Lemma uncapture_wf l head s : streams_wf s -> streams_wf (uncapture_loop true head l s).
Proof.
  revert s. induction l as [|stm l IH]; intros s H; [done|]. cbn [uncapture_loop].
  destruct (hm_get (stream_map s) stm) as [v|]; [|done]. destruct (mv_ptr v =? head); [|by apply IH].
  pose proof (with_map_wf s (hm_put true (stream_map s) stm (mk_value 0 false)).2 H (fun x => hm_put_keeps _ _ _ _ x)) as Hw.
  destruct (hm_put _ _ _ _) as [rc m1]. cbn in Hw. case_match; [done|by apply IH].
Qed.

Lemma remove_first_stream_spec stm l l1 :
  remove_first_stream stm l = Some l1 -> NoDup l -> NoDup l1 ∧ (forall x, x ∈ l1 -> x ∈ l ∧ x <> stm).
Proof.
  revert l1. induction l as [|y l IH]; intros l1 H Hn; [done|]. cbn in H. apply NoDup_cons in Hn as [Hy Hn].
  destruct (Z.eqb_spec stm y) as [->|Hne].
  - injection H as <-. split; [done|]. intros x Hx. split; [by right|]. by intros ->.
  - destruct (remove_first_stream stm l) as [l2|]; [|done]. injection H as <-. destruct (IH l2 eq_refl Hn) as [H1 H2]. split.
    + apply NoDup_cons. split; [|done]. by intros [? _]%H2.
    + intros x [->|Hx]%elem_of_cons; [split; [left|congruence]|]. destruct (H2 x Hx). split; [by right|done].
Qed.

Lemma remove_wf s stm : streams_wf s -> streams_wf (remove_stream stm s).
Proof.
  intros [H1 H2]. unfold remove_stream. destruct (remove_first_stream stm (cached s)) as [c|] eqn:E; [|done].
  destruct (remove_first_stream_spec _ _ _ E H1) as [H3 H4]. split; cbn; [done|]. intros x Hx. destruct (H4 x Hx) as [Hx' Hne].
  destruct (H2 x Hx') as [H0 Hk]. split; [done|]. unfold hm_remove. case_match; cbn; [|done]. by rewrite lookup_delete_ne.
Qed.

(** ** The end of a turn *)

Definition capturing_in (m : gmap Z MapValue) (x : Z) : bool :=
  match m !! x with Some v => mv_capture_status v | None => false end.

(** The loop with the streams [todo] still to visit: it has kept [keep] at the
    front of the array. *)
Lemma sync_loop_spec todo : forall keep mid s,
  cached s = keep ++ mid ++ todo -> NoDup todo -> (forall x, x ∈ todo -> x <> 0 ∧ is_Some (stream_map s !! x)) ->
  let cap := capturing_in (stream_map s) in
  let s1 := sync_loop (length todo) (length (keep ++ mid)) (length keep) s in
  cached s1 = keep ++ filter (fun x => cap x = true) todo ∧
  synced s1 = synced s ++ filter (fun x => cap x = false) todo ∧ event_map s1 = event_map s ∧
  forall x, stream_map s1 !! x = if decide (x ∈ todo ∧ cap x = false) then None else stream_map s !! x.
Proof.
  induction todo as [|stm todo IH]; intros keep mid s Hc Hn Hk; cbn zeta.
  { rewrite app_nil_r in Hc. cbn. by rewrite Hc, take_app_length, !app_nil_r. }
  apply NoDup_cons in Hn as [Hs Hn]. destruct (Hk stm ltac:(left)) as [H0 [v Hv]]. cbn [sync_loop length].
  assert (Hi : cached s !! length (keep ++ mid) = Some stm).
  { rewrite Hc, app_assoc. by rewrite lookup_app_r, Nat.sub_diag by lia. }
  rewrite Hi, hm_get_eq, Hv by done. rewrite !filter_cons.
  assert (Es : capturing_in (stream_map s) stm = mv_capture_status v) by (unfold capturing_in; by rewrite Hv).
  destruct (mv_capture_status v) eqn:Ev.
  - rewrite decide_True, decide_False by congruence.
    destruct (IH (keep ++ [stm]) (drop 1 (mid ++ [stm])) (with_streams s (<[length keep := stm]> (cached s)) (stream_map s)))
      as (H1 & H2 & H3 & H4); cbn [cached stream_map with_streams synced event_map] in *.
    + rewrite Hc. rewrite insert_app_r_alt by lia. rewrite Nat.sub_diag. rewrite <- app_assoc. f_equal.
      destruct mid as [|y mid]; [done|]. cbn. by rewrite drop_0, <- app_assoc.
    + done.
    + intros x Hx. apply Hk. by right.
    + replace (length ((keep ++ [stm]) ++ drop 1 (mid ++ [stm]))) with (S (length (keep ++ mid))) in *
        by (rewrite !length_app, length_drop, length_app; simpl; lia).
      replace (length (keep ++ [stm])) with (S (length keep)) in * by (rewrite length_app; simpl; lia).
      rewrite H1, H2, H3. rewrite <- app_assoc. repeat split. intros x. rewrite H4.
      apply decide_ext. rewrite elem_of_cons. split; [naive_solver|]. intros [[->|Hx] Hf]; [|done].
      unfold capturing_in in Hf. rewrite Hv in Hf. congruence.
  - rewrite decide_False, decide_True by congruence. unfold hm_remove. rewrite hm_get_eq, Hv by done. cbn [Z.eqb].
    destruct (IH keep (mid ++ [stm]) (RtStreams (cached s) (delete stm (stream_map s)) (event_map s) (synced s ++ [stm])))
      as (H1 & H2 & H3 & H4); cbn [cached stream_map synced event_map] in *.
    + by rewrite Hc, <- !app_assoc.
    + done.
    + intros x Hx. rewrite lookup_delete_ne by (intros ->; done). apply Hk. by right.
    + replace (length (keep ++ mid ++ [stm])) with (S (length (keep ++ mid))) in * by (rewrite !length_app; simpl; lia).
      assert (Ec : forall x, x ∈ todo -> capturing_in (delete stm (stream_map s)) x = capturing_in (stream_map s) x).
      { intros x Hx. unfold capturing_in. by rewrite lookup_delete_ne by (intros ->; done). }
      assert (Ef : forall b, filter (fun x => capturing_in (delete stm (stream_map s)) x = b) todo =
                             filter (fun x => capturing_in (stream_map s) x = b) todo).
      { intros b. clear -Ec. induction todo as [|y todo IH]; [done|]. rewrite !filter_cons, IH by (intros x Hx; apply Ec; by right).
        by rewrite (Ec y ltac:(left)). }
      rewrite H1, H2, H3, !Ef, <- app_assoc. repeat split. intros x. rewrite H4.
      destruct (Z.eq_dec x stm) as [->|Hx].
      * rewrite decide_False by by intros [? _]. rewrite lookup_delete_eq. rewrite decide_True; [done|].
        split; [left|]. unfold capturing_in. by rewrite Hv.
      * rewrite lookup_delete_ne by done. apply decide_ext. rewrite elem_of_cons. split; intros [Hin Hf].
        { split; [by right|]. by rewrite <- Ec. }
        { destruct Hin as [->|Hin]; [done|]. split; [done|]. by rewrite Ec. }
Qed.

Lemma sync_spec s :
  streams_wf s ->
  let cap := capturing_in (stream_map s) in
  let s1 := synchronize_and_clear_streams s in
  cached s1 = filter (fun x => cap x = true) (cached s) ∧
  synced s1 = synced s ++ filter (fun x => cap x = false) (cached s) ∧
  forall x, stream_map s1 !! x = if decide (x ∈ cached s ∧ cap x = false) then None else stream_map s !! x.
Proof.
  intros [H1 H2]. cbn zeta.
  destruct (sync_loop_spec (cached s) [] [] s eq_refl H1 H2) as (E1 & E2 & _ & E4). done.
Qed.

Lemma stream_do_wf o s : streams_wf s -> streams_wf (stream_do o s).
Proof.
  intros H. destruct o; cbn [stream_do].
  - by apply restore_streams_wf.
  - by destruct H.
  - apply (add_wf _ stm) in H. unfold set_event_record_status. repeat case_match; try done. by destruct H.
  - apply (add_wf _ stm) in H. unfold set_event_wait_status. repeat case_match; try done.
    apply with_map_wf; [done|]. intros x. apply hm_put_keeps.
  - by destruct H.
  - apply (restore_streams_wf _ stm) in H. apply with_map_wf; [done|]. intros x. apply hm_put_keeps.
  - apply uncapture_wf. by apply restore_streams_wf.
  - by apply remove_wf, restore_streams_wf.
  - destruct (sync_spec s H) as (E1 & _ & E3). destruct H as [H1 H2].
    split; [rewrite E1; by apply NoDup_filter|]. rewrite E1. intros x [Hc Hx]%list_elem_of_filter.
    destruct (H2 x Hx). split; [done|]. rewrite E3, decide_False; [done|]. intros [_ ?]. congruence.
Qed.

Lemma stream_run_wf l s : streams_wf s -> streams_wf (stream_run l s).
Proof. unfold stream_run. revert s. induction l as [|o l IH]; intros s H; [done|]. cbn. by apply IH, stream_do_wf. Qed.

Lemma no_streams_wf : streams_wf no_streams.
Proof. split; [apply NoDup_nil_2|]. by intros x ?%elem_of_nil. Qed.

(** At the end of a turn, after any calls of the hooks, the scheduler
    synchronises every cached stream that is not in a capture, each exactly
    once and in the order of their launches; it forgets these streams, so that
    the next launch caches them again, and keeps those in a capture. *)
Theorem rt_turn_synchronizes l :
  let s := stream_run l no_streams in
  let s1 := stream_do TurnEnd s in
  let idle x := stream_is_capturing x s = false in
  NoDup (cached s) ∧
  synced s1 = synced s ++ filter idle (cached s) ∧
  cached s1 = filter (fun x => stream_is_capturing x s = true) (cached s) ∧
  (forall x, x ∈ cached s -> idle x -> stream_map s1 !! x = None) ∧
  (forall x, x ∈ cached s1 -> stream_is_capturing x s1 = true).
Proof.
  cbn zeta. pose proof (stream_run_wf l _ no_streams_wf) as H. set (s := stream_run l no_streams) in *.
  destruct (sync_spec s H) as (E1 & E2 & E3). destruct H as [H1 H2].
  assert (Ec : forall x, x ∈ cached s -> stream_is_capturing x s = capturing_in (stream_map s) x).
  { intros x Hx. unfold stream_is_capturing, capturing_in. by rewrite hm_get_eq by by destruct (H2 x Hx). }
  assert (Ef : forall b, filter (fun x => stream_is_capturing x s = b) (cached s) =
                         filter (fun x => capturing_in (stream_map s) x = b) (cached s)).
  { intros b. clear -Ec. induction (cached s) as [|y c IH]; [done|].
    rewrite !filter_cons, IH by (intros x Hx; apply Ec; by right). by rewrite (Ec y ltac:(left)). }
  cbn [stream_do]. rewrite !Ef. split; [done|]. split; [done|]. split; [done|]. split.
  - intros x Hx Hi. rewrite E3, decide_True; [done|]. split; [done|]. by rewrite <- Ec.
  - rewrite E1. intros x [Hc Hx]%list_elem_of_filter. unfold stream_is_capturing.
    rewrite hm_get_eq by by destruct (H2 x Hx). rewrite E3, decide_False by (intros [_ ?]; congruence). done.
Qed.

(** ** Streams that are never synchronised *)

(** A stream that is known but not cached stays so. *)
Definition lost_stream (x : Z) (s : rt_streams) : Prop := x <> 0 ∧ is_Some (stream_map s !! x) ∧ x ∉ cached s ∧ x ∉ synced s.

Lemma lost_restore x s stm : lost_stream x s -> lost_stream x (restore_streams true stm s).
Proof.
  intros (H0 & H1 & H2 & H3). unfold restore_streams, hm_contains. destruct (Z.eqb_spec stm 0) as [|Hs]; [done|]. cbn [negb andb].
  case_bool_decide as Hc; [done|]. case_match; [done|]. rewrite hm_put_ok by done. split; [done|]. cbn.
  assert (x <> stm) by (intros ->; done). rewrite lookup_insert_ne by done. split; [done|]. split; [|done].
  intros [?| ->%list_elem_of_singleton]%elem_of_app; done.
Qed.

Lemma lost_with_map x s m : lost_stream x s -> (forall y, is_Some (stream_map s !! y) -> is_Some (m !! y)) -> lost_stream x (with_map s m).
Proof. intros (H0 & H1 & H2 & H3) Hm. repeat split; try done. by apply Hm. Qed.

Lemma lost_uncapture x l head s : lost_stream x s -> lost_stream x (uncapture_loop true head l s).
Proof.
  revert s. induction l as [|stm l IH]; intros s H; [done|]. cbn [uncapture_loop].
  destruct (hm_get (stream_map s) stm) as [v|]; [|done]. destruct (mv_ptr v =? head); [|by apply IH].
  pose proof (lost_with_map x s (hm_put true (stream_map s) stm (mk_value 0 false)).2 H (fun x => hm_put_keeps _ _ _ _ x)) as Hw.
  destruct (hm_put _ _ _ _) as [rc m1]. cbn in Hw. case_match; [done|by apply IH].
Qed.

Lemma lost_do x o s : streams_wf s -> lost_stream x s -> lost_stream x (stream_do o s).
Proof.
  intros Hw H. assert (Ha : forall stm, lost_stream x (add_stream true stm s)).
  { intros stm. unfold add_stream. case_match; [done|]. apply lost_with_map; [done|]. intros y. apply hm_put_keeps. }
  destruct o; cbn [stream_do].
  - by apply lost_restore.
  - done.
  - specialize (Ha stm). unfold set_event_record_status. repeat case_match; done.
  - specialize (Ha stm). unfold set_event_wait_status. repeat case_match; try done.
    apply lost_with_map; [done|]. intros y. apply hm_put_keeps.
  - done.
  - apply lost_with_map; [by apply lost_restore|]. intros y. apply hm_put_keeps.
  - by apply lost_uncapture, lost_restore.
  - apply (lost_restore x s stm) in H. pose proof (sw_nodup _ (restore_streams_wf s stm Hw)) as Hn. unfold remove_stream.
    destruct (remove_first_stream stm _) as [c|] eqn:E; [|done]. destruct (remove_first_stream_spec _ _ _ E Hn) as [_ Hc].
    destruct H as (H0 & H1 & H2 & H3). split; [done|]. cbn. split; [|split; [by intros [? _]%Hc|done]].
    assert (x <> stm). { intros ->. apply H2. clear -E. set (l := cached _) in *. revert c E.
      induction l as [|y l IH]; intros c E; [done|]. cbn in E. destruct (Z.eqb_spec stm y) as [->|]; [left|].
      destruct (remove_first_stream stm l); [right; by eapply IH|done]. }
    unfold hm_remove. case_match; cbn; [by rewrite lookup_delete_ne|done].
  - destruct (sync_spec s Hw) as (E1 & E2 & E3). destruct H as (H0 & H1 & H2 & H3). split; [done|].
    rewrite E1, E2, E3. rewrite decide_False by by intros [? _]. split; [done|]. split.
    + by intros [_ ?]%list_elem_of_filter.
    + intros [?|[_ ?]%list_elem_of_filter]%elem_of_app; done.
Qed.

(** A fault: a stream whose first call is on an event ([add_stream]) is put
    into the map but not into the cache, and later launches on it find it in
    the map.  Whatever is called afterwards, its work is never synchronised at
    the end of a turn, so it is never charged. *)
Theorem rt_event_stream_never_synced l evt stm ops :
  stm <> 0 -> stream_map (stream_run l no_streams) !! stm = None -> stm ∉ cached (stream_run l no_streams) ->
  stm ∉ synced (stream_run l no_streams) ->
  stm ∉ synced (stream_run (EventRecord evt stm :: Launch stm :: ops) (stream_run l no_streams)).
Proof.
  intros H0 Hm Hc Hs. pose proof (stream_run_wf l _ no_streams_wf) as Hw. set (s := stream_run l no_streams) in *.
  assert (H1 : lost_stream stm (add_stream true stm s)).
  { unfold add_stream, hm_contains. rewrite Hm. rewrite bool_decide_false by by apply is_Some_None.
    rewrite andb_false_r, hm_put_ok by done. repeat split; cbn; [done|by rewrite lookup_insert_eq|done|done]. }
  assert (H2 : lost_stream stm (stream_do (EventRecord evt stm) s)).
  { cbn [stream_do]. unfold set_event_record_status. repeat case_match; done. }
  assert (H3 : forall ops s, streams_wf s -> lost_stream stm s -> stm ∉ synced (stream_run ops s)).
  { clear. unfold stream_run. induction ops as [|o ops IH]; intros s Hw Hl; [by apply Hl|]. cbn.
    apply IH; [by apply stream_do_wf|by apply lost_do]. }
  exact (H3 (Launch stm :: ops) _ (stream_do_wf _ _ Hw) H2).
Qed.

Lemma rt_event_stream_never_synced_witness :
  7 ∉ synced (stream_run (EventRecord 5 7 :: Launch 7 :: [TurnEnd; Launch 7; TurnEnd]) (stream_run [EventCreate 5] no_streams)).
Proof.
  apply (rt_event_stream_never_synced [EventCreate 5] 5 7 [TurnEnd; Launch 7; TurnEnd]).
  - lia.
  - vm_compute. reflexivity.
  - vm_compute. intros H. inversion H.
  - vm_compute. intros H. inversion H.
Defined.

(** Stream 2 joins the capture of stream 1 by an event, as for parallel
    branches of a graph. *)
Definition fork_join : list stream_op :=
  [EventCreate 5; BeginCapture 1; Launch 1; EventRecord 5 1; EventWait 5 2; Launch 2; EndCapture 1].

(** A fault: the end of a capture clears the cached streams only.  A stream
    that has joined the capture by an event stays in capture after its end, so
    that its later launches are counted to a capture that no graph will take;
    had it been launched on before the capture, it would be cleared. *)
Theorem rt_joined_stream_stays_capturing :
  stream_is_capturing 1 (stream_run fork_join no_streams) = false ∧
  stream_is_capturing 2 (stream_run (fork_join ++ [TurnEnd; Launch 2; TurnEnd]) no_streams) = true ∧
  stream_is_capturing 2 (stream_run (Launch 2 :: fork_join) no_streams) = false.
Proof. vm_compute. repeat split. Qed.

(** The properties of the launch statistics: the kernels of a captured graph
    are counted to its model, with those of its task groups. *)

(** Memory is available. *)
Definition alloc_ok : allocs := Allocs true true.

(** * What is captured *)

(** Between the begin and the end of a capture of a stream: single kernels,
    and task groups with the handle the driver gives them. *)
Inductive captured := Single (dim : Z) | Group (handle : Z) (dims : list Z).

Definition capture_one (stm : Z) (s : rt_stats) (x : captured) : rt_stats :=
  match x with
  | Single dim => launch_stats_dispatch alloc_ok true stm dim s
  | Group handle dims =>
    task_grp_end alloc_ok stm handle
      (foldl (fun s dim => launch_stats_dispatch alloc_ok true stm dim s) (task_grp_begin alloc_ok stm s) dims)
  end.

Fixpoint sum_Z (l : list Z) : Z := match l with [] => 0 | x :: r => x + sum_Z r end.

Definition dims_of (x : captured) : list Z := match x with Single d => [d] | Group _ ds => ds end.
Definition all_dims (l : list captured) : list Z := l ≫= dims_of.
Definition singles (l : list captured) : list Z := l ≫= (fun x => match x with Single d => [d] | Group _ _ => [] end).
Definition groups (l : list captured) : list (Z * Z) :=
  l ≫= (fun x => match x with Single _ => [] | Group h ds => [(h, sum_Z ds)] end).

Lemma sum_app l1 l2 : sum_Z (l1 ++ l2) = sum_Z l1 + sum_Z l2.
Proof. induction l1 as [|x l1 IH]; [done|]. cbn. rewrite IH. lia. Qed.

Lemma sum_nonneg l : Forall (fun d => 0 <= d) l -> 0 <= sum_Z l.
Proof. induction 1; cbn; lia. Qed.

Lemma sum_dims l : sum_Z (all_dims l) = sum_Z (singles l) + sum_Z (groups l).*2.
Proof.
  induction l as [|[d|h ds] l IH]; [done| |]; unfold all_dims, singles, groups in *; cbn; rewrite ?sum_app, ?fmap_app, IH.
  - lia.
  - cbn. lia.
Qed.

(** * The buffer of the stream *)

Definition capture_buffer (stm : Z) (s : rt_stats) : stats_buffer_t := default empty_buffer (capture_stats_map s !! stm).

Definition no_open_group (stm : Z) (s : rt_stats) : Prop :=
  match task_grp_state_map s !! stm with Some st => mode st = 0 | None => True end.

(** The buffer counts [n] kernels with the dimension [dim] outside of the
    groups [gs], whose dimensions are in the map of the groups. *)
Record captures (stm dim n : Z) (gs : list (Z * Z)) (s : rt_stats) : Prop := {
  ca_buffer : capture_buffer stm s = StatsBuffer dim n gs.*1;
  ca_closed : no_open_group stm s;
  ca_groups h d : (h, d) ∈ gs -> taskGroup_map s !! h = Some d;
}.

Lemma find_or_create_ok {V} (m : gmap Z V) k (fresh : V) :
  k <> 0 -> exists m1, find_or_create true true m k fresh = Some (default fresh (m !! k), m1) ∧
    forall x, <[k := x]> m1 = <[k := x]> m.
Proof.
  intros Hk. unfold find_or_create. rewrite hm_get_eq by done. destruct (m !! k) as [v|] eqn:E; [by exists m|].
  cbn [negb]. rewrite hm_put_ok by done. cbn. eexists. split; [done|]. intros x. apply insert_insert_eq.
Qed.

Lemma capture_stats_add_eq stm dim s :
  stm <> 0 ->
  let b := capture_buffer stm s in
  capture_stats_add alloc_ok stm dim s =
  with_capture s (<[stm := StatsBuffer (u64 (block_dim b + dim)) (u64 (count b + 1)) (grp_handles b)]> (capture_stats_map s)).
Proof.
  intros Hs. cbn zeta. unfold capture_stats_add. rewrite (proj2 (Z.eqb_neq stm 0) Hs). cbn [calloc_ok insert_ok alloc_ok].
  destruct (find_or_create_ok (capture_stats_map s) stm empty_buffer Hs) as (m1 & -> & Hm). by rewrite Hm.
Qed.

Lemma track_group_eq stm h n s :
  stm <> 0 ->
  let b := capture_buffer stm s in
  track_group alloc_ok stm h n s =
  with_capture s (<[stm := StatsBuffer (block_dim b) (u64 (count b + n))
    (if Z.of_nat (length (grp_handles b)) <? MAX_GRPS_PER_CAPTURE then grp_handles b ++ [h] else grp_handles b)]>
    (capture_stats_map s)).
Proof.
  intros Hs. cbn zeta. unfold track_group. cbn [calloc_ok insert_ok alloc_ok].
  destruct (find_or_create_ok (capture_stats_map s) stm empty_buffer Hs) as (m1 & -> & Hm). by rewrite Hm.
Qed.

Lemma task_group_map_set_eq h d s : h <> 0 -> task_group_map_set alloc_ok h d s = with_groups s (<[h := d]> (taskGroup_map s)).
Proof.
  intros Hh. unfold task_group_map_set. cbn [calloc_ok insert_ok alloc_ok].
  destruct (find_or_create_ok (taskGroup_map s) h 0 Hh) as (m1 & -> & Hm). by rewrite Hm.
Qed.

Lemma task_grp_state_reset_eq stm st s :
  stm <> 0 -> task_grp_state_reset alloc_ok stm st s = with_grp_state s (<[stm := st]> (task_grp_state_map s)).
Proof.
  intros Hs. unfold task_grp_state_reset. cbn [calloc_ok insert_ok alloc_ok].
  destruct (find_or_create_ok (task_grp_state_map s) stm (TaskGrpState 0 0 0 0) Hs) as (m1 & -> & Hm). by rewrite Hm.
Qed.

Lemma dispatch_closed stm dim s cap :
  stm <> 0 -> no_open_group stm s ->
  launch_stats_dispatch alloc_ok cap stm dim s = if cap then capture_stats_add alloc_ok stm dim s else with_record s dim 1.
Proof.
  intros Hs Hn. unfold launch_stats_dispatch, task_grp_state_get, no_open_group in *. rewrite hm_get_eq by done.
  destruct (task_grp_state_map s !! stm) as [st|]; [|done]. by rewrite Hn.
Qed.

(** A single kernel of the capture. *)
Lemma capture_single stm dim n gs s d :
  stm <> 0 -> captures stm dim n gs s -> is_u64 (dim + d) -> is_u64 (n + 1) ->
  captures stm (dim + d) (n + 1) gs (capture_one stm s (Single d)).
Proof.
  intros Hs [Hb Hc Hg] Hd Hn. cbn [capture_one]. rewrite dispatch_closed, capture_stats_add_eq by done. rewrite Hb.
  split; [|done|done]. unfold capture_buffer. cbn. by rewrite lookup_insert_eq, !u64_small.
Qed.

(** The kernels of an open group. *)
Lemma dispatch_open stm ds : forall s t n h md,
  stm <> 0 -> md <> 0 -> task_grp_state_map s !! stm = Some (TaskGrpState md h t n) -> 0 <= t -> 0 <= n -> Forall (fun d => 0 <= d) ds ->
  t + sum_Z ds < U64_MOD -> n + Z.of_nat (length ds) < U64_MOD ->
  foldl (fun s dim => launch_stats_dispatch alloc_ok true stm dim s) s ds =
  with_grp_state s (<[stm := TaskGrpState md h (t + sum_Z ds) (n + Z.of_nat (length ds))]> (task_grp_state_map s)).
Proof.
  induction ds as [|d ds IH]; intros s t n h md Hs Hmd Hst Ht Hn Hds Hb1 Hb2.
  { cbn. rewrite !Z.add_0_r, insert_id by done. by destruct s. }
  apply Forall_cons in Hds as [Hd Hds]. pose proof (sum_nonneg ds Hds). cbn [sum_Z length] in *.
  cbn [foldl]. unfold launch_stats_dispatch at 2. unfold task_grp_state_get. rewrite hm_get_eq, Hst by done. cbn [mode].
  rewrite (proj2 (Z.eqb_neq md 0) Hmd). cbn [update_handle tmp_block_dim tmp_count].
  rewrite !u64_small by (unfold is_u64; lia).
  rewrite (IH _ (t + d) (n + 1) h md); try done; try lia; [|by cbn; rewrite lookup_insert_eq].
  replace (t + d + sum_Z ds) with (t + (d + sum_Z ds)) by lia.
  replace (n + 1 + Z.of_nat (length ds)) with (n + Z.of_nat (S (length ds))) by lia.
  unfold with_grp_state. cbn [task_grp_state_map capture_stats_map model_stats_map taskGroup_map records]. by rewrite insert_insert_eq.
Qed.

(** A task group of the capture. *)
Lemma capture_group stm dim n gs s h ds :
  stm <> 0 -> h <> 0 -> captures stm dim n gs s -> h ∉ gs.*1 -> Z.of_nat (length gs) < MAX_GRPS_PER_CAPTURE ->
  Forall (fun d => 0 <= d) ds -> is_u64 (sum_Z ds) -> 0 <= n -> is_u64 (n + Z.of_nat (length ds)) ->
  captures stm dim (n + Z.of_nat (length ds)) (gs ++ [(h, sum_Z ds)]) (capture_one stm s (Group h ds)).
Proof.
  intros Hs Hh [Hb Hc Hg] Hf Hlen Hds Hsum Hn Hcnt. cbn [capture_one]. unfold task_grp_begin.
  rewrite task_grp_state_reset_eq by done.
  rewrite (dispatch_open stm ds _ 0 0 0 1);
    [|done|done|by cbn; rewrite lookup_insert_eq|done|done|done|unfold is_u64 in *; lia|unfold is_u64 in *; lia].
  cbn [task_grp_state_map with_grp_state]. rewrite insert_insert_eq.
  unfold task_grp_end, task_grp_state_get. cbn [task_grp_state_map with_grp_state]. rewrite hm_get_eq, lookup_insert_eq by done.
  cbn [mode negb Z.eqb Pos.eqb tmp_block_dim tmp_count update_handle]. rewrite task_group_map_set_eq, track_group_eq by done.
  rewrite !Z.add_0_l. unfold capture_buffer. cbn [capture_stats_map with_groups with_grp_state taskGroup_map].
  fold (capture_buffer stm s). rewrite Hb. cbn [block_dim count grp_handles].
  rewrite length_fmap, (proj2 (Z.ltb_lt _ _) Hlen), u64_small by done.
  split.
  - unfold capture_buffer. cbn. by rewrite lookup_insert_eq, fmap_app.
  - unfold no_open_group. cbn. by rewrite lookup_insert_eq.
  - cbn. intros h' d' [Hin|[= -> ->]%list_elem_of_singleton]%elem_of_app; [|by rewrite lookup_insert_eq].
    rewrite lookup_insert_ne; [by apply Hg|]. intros <-. apply Hf. apply list_elem_of_fmap. by exists (h, d').
Qed.

Lemma capture_all stm l : forall s dim n gs,
  stm <> 0 -> captures stm dim n gs s -> 0 <= dim -> 0 <= n -> Forall (fun d => 0 <= d) (all_dims l) ->
  dim + sum_Z (all_dims l) < U64_MOD -> n + Z.of_nat (length (all_dims l)) < U64_MOD ->
  NoDup (gs ++ groups l).*1 -> (0 ∉ (groups l).*1) -> Z.of_nat (length (gs ++ groups l)) <= MAX_GRPS_PER_CAPTURE ->
  captures stm (dim + sum_Z (singles l)) (n + Z.of_nat (length (all_dims l))) (gs ++ groups l) (foldl (capture_one stm) s l).
Proof.
  induction l as [|[d|h ds] l IH]; intros s dim n gs Hs Hc Hd Hn HF Hb1 Hb2 Hnd H0 Hlen.
  - cbn in *. by rewrite !Z.add_0_r, app_nil_r.
  - change (all_dims (Single d :: l)) with (d :: all_dims l) in *. change (groups (Single d :: l)) with (groups l) in *.
    change (singles (Single d :: l)) with (d :: singles l). cbn [sum_Z length foldl] in *.
    apply Forall_cons in HF as [Hd0 HF]. pose proof (sum_nonneg _ HF).
    replace (dim + (d + sum_Z (singles l))) with (dim + d + sum_Z (singles l)) by lia.
    replace (n + Z.of_nat (S (length (all_dims l)))) with (n + 1 + Z.of_nat (length (all_dims l))) by lia.
    apply IH; try done; try lia. apply capture_single; try done; unfold is_u64; lia.
  - change (all_dims (Group h ds :: l)) with (ds ++ all_dims l) in *. change (groups (Group h ds :: l)) with ((h, sum_Z ds) :: groups l) in *.
    change (singles (Group h ds :: l)) with (singles l). rewrite sum_app in Hb1. rewrite length_app in Hb2 |- *. cbn [foldl].
    apply Forall_app in HF as [HF1 HF]. pose proof (sum_nonneg _ HF). pose proof (sum_nonneg _ HF1).
    replace (n + Z.of_nat (length ds + length (all_dims l))) with (n + Z.of_nat (length ds) + Z.of_nat (length (all_dims l))) by lia.
    rewrite cons_middle, app_assoc in *.
    cbn [fmap list_fmap] in H0. apply not_elem_of_cons in H0 as [Hh H0].
    apply IH; try done; try lia.
    + apply capture_group; try done; try (unfold is_u64; lia); [|rewrite !length_app in Hlen; cbn [length] in Hlen; lia].
      rewrite !fmap_app in Hnd. apply NoDup_app in Hnd as (Hnd & _). apply NoDup_app in Hnd as (_ & Hnd & _).
      intros Hin. apply (Hnd h Hin). cbn. left.
Qed.

(** The dimension of a model is that of its kernels and of its groups. *)
Lemma total_dim_eq s gs : forall dim,
  (forall h d, (h, d) ∈ gs -> h <> 0 ∧ taskGroup_map s !! h = Some d ∧ 0 <= d) -> 0 <= dim -> dim + sum_Z gs.*2 < U64_MOD ->
  foldl (fun total h => u64 (total + task_group_map_get s h)) dim gs.*1 = dim + sum_Z gs.*2.
Proof.
  induction gs as [|[h d] gs IH]; intros dim Hg Hd Hb; [cbn; lia|]. cbn [fmap list_fmap fst snd foldl sum_Z] in *.
  destruct (Hg h d ltac:(left)) as (Hh & Hm & Hd0). unfold task_group_map_get at 2. rewrite hm_get_eq, Hm by done.
  assert (0 <= sum_Z gs.*2).
  { apply sum_nonneg, Forall_fmap, Forall_forall. intros [h' d'] Hin. apply (Hg h' d'). by right. }
  rewrite u64_small by (unfold is_u64; lia). fold (gs.*1). rewrite IH; [lia| |lia|lia].
  intros h' d' Hin. apply Hg. by right.
Qed.

Lemma groups_nonneg l h d : Forall (fun d => 0 <= d) (all_dims l) -> (h, d) ∈ groups l -> 0 <= d.
Proof.
  induction l as [|[x|h' ds] l IH]; intros HF Hin; [by apply elem_of_nil in Hin| |].
  - change (all_dims (Single x :: l)) with (x :: all_dims l) in HF. apply Forall_cons in HF as [_ HF]. by apply IH.
  - change (all_dims (Group h' ds :: l)) with (ds ++ all_dims l) in HF. apply Forall_app in HF as [HF1 HF].
    change (groups (Group h' ds :: l)) with ((h', sum_Z ds) :: groups l) in Hin.
    apply elem_of_cons in Hin as [[= -> ->]|Hin]; [by apply sum_nonneg|by apply IH].
Qed.

(** What nothing between begin and end of a capture touches. *)
Definition untouched (s : rt_stats) : gmap Z stats_buffer_t * list (Z * Z) := (model_stats_map s, records s).

Lemma capture_one_untouched stm s x : untouched (capture_one stm s x) = untouched s.
Proof.
  assert (Hd : forall s d, untouched (launch_stats_dispatch alloc_ok true stm d s) = untouched s).
  { intros s' d. unfold launch_stats_dispatch, capture_stats_add. repeat case_match; done. }
  destruct x as [d|h ds]; cbn [capture_one]; [apply Hd|].
  assert (Hf : forall ds s, untouched (foldl (fun s dim => launch_stats_dispatch alloc_ok true stm dim s) s ds) = untouched s).
  { clear ds. induction ds as [|d ds IH]; intros s'; [done|]. cbn. by rewrite IH, Hd. }
  transitivity (untouched (foldl (fun s dim => launch_stats_dispatch alloc_ok true stm dim s) (task_grp_begin alloc_ok stm s) ds)).
  - generalize (foldl (fun s dim => launch_stats_dispatch alloc_ok true stm dim s) (task_grp_begin alloc_ok stm s) ds).
    intros s'. assert (Ht : forall s n, untouched (track_group alloc_ok stm h n s) = untouched s).
    { intros s0 n. unfold track_group. repeat case_match; done. }
    unfold task_grp_end. destruct (task_grp_state_get stm s') as [st|]; [|done]. destruct (negb (mode st =? 1)); [done|].
    etransitivity; [apply (Ht _ (tmp_count st))|]. unfold task_group_map_set. repeat case_match; done.
  - rewrite Hf. unfold task_grp_begin, task_grp_state_reset. repeat case_match; done.
Qed.

(** The end of the capture moves the buffer to a new model. *)
Lemma transfer_new stm mdl dim n gs s :
  stm <> 0 -> mdl <> 0 -> captures stm dim n gs s -> StatsBuffer dim n gs.*1 <> empty_buffer ->
  model_stats_map s !! mdl = None -> is_u64 dim -> is_u64 n -> Z.of_nat (length gs) <= MAX_GRPS_PER_CAPTURE ->
  capture_stats_transfer_to_model alloc_ok stm mdl s =
  (0, with_capture (with_model s (<[mdl := StatsBuffer dim n gs.*1]> (model_stats_map s)))
        (<[stm := empty_buffer]> (capture_stats_map s))).
Proof.
  intros Hs Hm [Hb _ _] Hne Hnew Hd Hn Hl. unfold capture_stats_transfer_to_model.
  rewrite (proj2 (Z.eqb_neq stm 0) Hs), (proj2 (Z.eqb_neq mdl 0) Hm). cbn [orb]. rewrite hm_get_eq by done.
  unfold capture_buffer in Hb. destruct (capture_stats_map s !! stm) as [sb|]; cbn in Hb; [|congruence]. subst sb.
  cbn [calloc_ok insert_ok alloc_ok].
  destruct (find_or_create_ok (model_stats_map s) mdl empty_buffer Hm) as (m1 & E & Em). rewrite E, Hnew. cbn [default].
  cbn [block_dim count grp_handles empty_buffer length app]. rewrite !Z.add_0_l, !u64_small by done.
  rewrite take_ge, Em; [done|]. rewrite length_fmap. unfold MAX_GRPS_PER_CAPTURE in *. lia.
Qed.

(** The kernels of a captured graph, single ones and those of its task
    groups, are counted exactly once: the end of the capture gives the model
    their number and the sum of their dimensions, empties the buffer of the
    stream for the next capture, and an execution of the model records both
    (the dimension as 32 bits). *)
Lemma graph_counted stm mdl l s :
  stm <> 0 -> mdl <> 0 -> capture_buffer stm s = empty_buffer -> no_open_group stm s -> model_stats_map s !! mdl = None ->
  Forall (fun d => 0 <= d) (all_dims l) -> sum_Z (all_dims l) < U64_MOD -> Z.of_nat (length (all_dims l)) < U64_MOD ->
  NoDup (groups l).*1 -> (0 ∉ (groups l).*1) -> Z.of_nat (length (groups l)) <= MAX_GRPS_PER_CAPTURE -> all_dims l <> [] ->
  let '(rc, s1) := capture_stats_transfer_to_model alloc_ok stm mdl (foldl (capture_one stm) s l) in
  let n := Z.of_nat (length (all_dims l)) in
  rc = 0 ∧ model_stats_get mdl s1 = (0, sum_Z (all_dims l), n) ∧ capture_buffer stm s1 = empty_buffer ∧
  records s1 = records s ∧
  records (record_model_execute_stats mdl s1) = records s1 ++ [(sum_Z (all_dims l) mod 2 ^ 32, n)].
Proof.
  intros Hs Hm Hb Ho Hnew HF Hsum Hlen Hnd H0 Hg Hne.
  assert (Hc : captures stm 0 0 [] s) by (split; [done|done|by intros h d ?%elem_of_nil]).
  pose proof (capture_all stm l s 0 0 [] Hs Hc ltac:(lia) ltac:(lia) HF ltac:(lia) ltac:(lia) Hnd H0 Hg) as Hc1.
  cbn [app] in Hc1. rewrite !Z.add_0_l in Hc1. pose proof (sum_dims l) as Hsd.
  assert (Hgs : forall h d, (h, d) ∈ groups l -> 0 <= d) by (intros h d; by apply groups_nonneg).
  assert (0 <= sum_Z (groups l).*2).
  { apply sum_nonneg, Forall_fmap, Forall_forall. intros [h d] Hin. by apply (Hgs h). }
  assert (0 <= sum_Z (singles l)).
  { clear -HF. apply sum_nonneg. induction l as [|[x|h ds] l IH]; [done| |].
    - apply Forall_cons in HF as [H HF]. by constructor; [|apply IH].
    - apply (Forall_app _ ds) in HF as [_ HF]. by apply IH. }
  assert (Hlen0 : 0 < Z.of_nat (length (all_dims l))) by (destruct (all_dims l); [done|cbn; lia]).
  assert (Hun : untouched (foldl (capture_one stm) s l) = untouched s).
  { clear. revert s. induction l as [|x l IH]; intros s; [done|]. cbn [foldl]. rewrite IH. apply capture_one_untouched. }
  assert (Hmn : model_stats_map (foldl (capture_one stm) s l) !! mdl = None).
  { rewrite <- Hnew. f_equal. exact (f_equal fst Hun). }
  rewrite (transfer_new stm mdl (sum_Z (singles l)) (Z.of_nat (length (all_dims l))) (groups l)); try done;
    [|unfold empty_buffer; injection 1 as _ E _; lia|unfold is_u64; lia|unfold is_u64; lia].
  set (s1 := with_capture _ _). cbn zeta.
  assert (Eget : model_stats_get mdl s1 = (0, sum_Z (all_dims l), Z.of_nat (length (all_dims l)))).
  { unfold model_stats_get. rewrite hm_get_eq by done. cbn. rewrite lookup_insert_eq. unfold model_stats_total_block_dim. cbn.
    rewrite total_dim_eq; [by rewrite Hsd| |lia|lia].
    intros h d Hin. split; [|split; [by apply (ca_groups _ _ _ _ _ Hc1)|by apply (Hgs h)]].
    intros ->. apply H0, list_elem_of_fmap. by exists (0, d). }
  split; [done|]. split; [done|]. split; [|split].
  - unfold capture_buffer. cbn. by rewrite lookup_insert_eq.
  - exact (f_equal snd Hun).
  - unfold record_model_execute_stats. rewrite Eget. cbn [Z.eqb andb]. by rewrite (proj2 (Z.ltb_lt _ _) Hlen0).
Qed.

(** A graph with two kernels and a group of three. *)
Definition ex_graph : list captured := [Single 8; Group 40 [2; 3; 4]; Single 20].

(** * Updating a task group *)

(** The kernels launched between begin and end of an update of [handle]. *)
Definition update_group (stm handle : Z) (dims : list Z) (s : rt_stats) : rt_stats :=
  task_update_end alloc_ok stm
    (foldl (fun s dim => launch_stats_dispatch alloc_ok true stm dim s) (task_update_begin alloc_ok stm handle s) dims).

(** Updating a task group replaces its dimension by the sum of the kernels
    of the update, in every model that holds the group: the other groups, the
    single kernels and the number of kernels of a model stay as they are. *)
Theorem rt_group_update stm h ds s mdl b :
  stm <> 0 -> h <> 0 -> Forall (fun d => 0 <= d) ds -> sum_Z ds < U64_MOD -> Z.of_nat (length ds) < U64_MOD ->
  mdl <> 0 -> model_stats_map s !! mdl = Some b ->
  let s1 := update_group stm h ds s in
  (forall x, task_group_map_get s1 x = if decide (x = h) then sum_Z ds else task_group_map_get s x) ∧
  records s1 = records s ∧ no_open_group stm s1 ∧
  model_stats_get mdl s1 =
    (0, foldl (fun total x => u64 (total + if decide (x = h) then sum_Z ds else task_group_map_get s x)) (block_dim b) (grp_handles b),
     count b).
Proof.
  intros Hs Hh HF Hb1 Hb2 Hm Hmb. cbn zeta. unfold update_group, task_update_begin. rewrite task_grp_state_reset_eq by done.
  rewrite (dispatch_open stm ds _ 0 0 h 2); try done; [|by cbn; rewrite lookup_insert_eq].
  cbn [task_grp_state_map with_grp_state]. rewrite insert_insert_eq, !Z.add_0_l.
  unfold task_update_end, task_grp_state_get. cbn [task_grp_state_map with_grp_state]. rewrite hm_get_eq, lookup_insert_eq by done.
  cbn [mode negb Z.eqb Pos.eqb update_handle tmp_block_dim]. rewrite task_group_map_set_eq by done.
  set (s1 := with_grp_state _ _).
  assert (E : forall x, task_group_map_get s1 x = if decide (x = h) then sum_Z ds else task_group_map_get s x).
  { intros x. unfold task_group_map_get, hm_get. cbn. destruct (Z.eqb_spec x 0) as [->|Hx]; [by rewrite decide_False by done|].
    case_decide as Ex; [subst; by rewrite lookup_insert_eq|by rewrite lookup_insert_ne by done]. }
  split; [exact E|]. split; [done|]. split; [unfold no_open_group; cbn; by rewrite lookup_insert_eq|].
  unfold model_stats_get. rewrite hm_get_eq by done. cbn. rewrite Hmb. unfold model_stats_total_block_dim.
  f_equal. f_equal. generalize (block_dim b). clear -E. induction (grp_handles b) as [|x hs IH]; intros d; [done|].
  cbn [foldl]. by rewrite E, IH.
Qed.

(** The model of [ex_graph]. *)
Definition ex_model : rt_stats := (capture_stats_transfer_to_model alloc_ok 1 9 (foldl (capture_one 1) no_stats ex_graph)).2.

Lemma rt_group_update_witness : model_stats_get 9 (update_group 1 40 [10; 10] ex_model) = (0, 48, 5).
Proof.
  assert (H : model_stats_map ex_model !! 9 = Some (StatsBuffer 28 5 [40])) by (vm_compute; reflexivity).
  assert (HF : Forall (fun d => 0 <= d) [10; 10]) by (repeat constructor; lia).
  destruct (rt_group_update 1 40 [10; 10] ex_model 9 (StatsBuffer 28 5 [40]) ltac:(lia) ltac:(lia) HF
    ltac:(cbn; unfold U64_MOD; lia) ltac:(cbn; unfold U64_MOD; lia) ltac:(lia) H) as (_ & _ & _ & E).
  rewrite E. vm_compute. reflexivity.
Defined.
