(* ===== verification/VnpuStats.v ===== *)
(** The statistics of the vNPUs (vcann-rt/src/vnpu_stats.c): a ring of buckets
    that counts the launches of the last second, the published averages of the
    processes, and the sampling of kernel times.

    The memory shared by the processes has one row of buckets and one row of
    slots for each vNPU.  [vnpu_stats_record] is also given access by access
    ([record_step]) for several processes at a time.  The driver, the clock
    and malloc are arguments. *)

From S2P Require Import Prelude.

Definition VNPU_STATS_BUCKET_DURATION_NS : Z := 50 * 1000000.
Definition VNPU_STATS_NUM_BUCKETS : Z := 12.
Definition VNPU_STATS_WINDOW_NS : Z := 1000 * 1000000.
Definition VNPU_STATS_AVG_STALE_NS : Z := 3 * VNPU_STATS_WINDOW_NS.
Definition INVALID_SAMPLE_PERIOD : Z := VNPU_STATS_WINDOW_NS.
Definition VNPU_STATS_AVG_SLOTS : Z := 64.
Definition VNPU_STATS_INIT_TIMEOUT_NS : Z := 3 * 1000000.
Definition VNPU_STATS_WAIT_SLEEP_NS : Z := 100 * 1000.
Definition VNPU_STATS_MAX_VNPU : Z := 100.
Definition VNPU_STATS_MAGIC_UNINITIALIZED : Z := 0.
Definition VNPU_STATS_MAGIC_INITIALIZING : Z := 0x5A494E47.
Definition VNPU_STATS_MAGIC_INITIALIZED : Z := 0x495A4546.
Definition MAX_STREAMS : Z := 128.

(** * The shared memory *)

Record vnpu_stats_bucket_t := Bucket { bucket_start_ns : Z; sum_block_dim : Z; launch_count : Z }.
Record vnpu_stats_avg_slot_t := AvgSlot { sum_ns : Z; slot_count : Z; ts_ns : Z }.

(** The part of [vnpu_stats_shm_t] of one vNPU. *)
Record stats_row := StatsRow {
  buckets : list vnpu_stats_bucket_t;
  avg_slot_seq : Z;
  avg_slots : list vnpu_stats_avg_slot_t;
}.

Record vnpu_stats_shm_t := StatsShm { rows : list stats_row; stats_magic : Z }.

Definition zero_row : stats_row :=
  StatsRow (replicate (Z.to_nat VNPU_STATS_NUM_BUCKETS) (Bucket 0 0 0)) 0
           (replicate (Z.to_nat VNPU_STATS_AVG_SLOTS) (AvgSlot 0 0 0)).

(** * Initialisation *)

(** Where a process is in [vnpu_stats_do_init]. *)
Inductive stats_init_place :=
  | D_sleep (until : Z) (k : stats_init_place)
  | D_load (begin : Z)
  | D_clock (begin : Z)
  | D_reclaim (begin : Z)
  | D_claim
  | D_fill
  | D_publish
  | D_return (is_first_init : bool).

(** One step; filling the rows is one. *)
Definition stats_init_step (time : Z) (k : stats_init_place) (m : vnpu_stats_shm_t) : option (stats_init_place * vnpu_stats_shm_t) :=
  match k with
  | D_sleep until k1 => if until <=? time then Some (k1, m) else None
  | D_load begin =>
    if stats_magic m =? VNPU_STATS_MAGIC_INITIALIZED then Some (D_return false, m)
    else if stats_magic m =? VNPU_STATS_MAGIC_INITIALIZING then Some (D_clock begin, m)
    else Some (D_claim, m)
  | D_clock begin =>
    if VNPU_STATS_INIT_TIMEOUT_NS <? u64 (time - begin) then Some (D_reclaim time, m)
    else Some (D_sleep (time + VNPU_STATS_WAIT_SLEEP_NS) (D_load begin), m)
  | D_reclaim begin =>
    Some (D_sleep (time + VNPU_STATS_WAIT_SLEEP_NS) (D_load begin), StatsShm (rows m) VNPU_STATS_MAGIC_UNINITIALIZED)
  | D_claim => Some (D_fill, StatsShm (rows m) VNPU_STATS_MAGIC_INITIALIZING)
  | D_fill => Some (D_publish, StatsShm (replicate (Z.to_nat VNPU_STATS_MAX_VNPU) zero_row) (stats_magic m))
  | D_publish => Some (D_return true, StatsShm (rows m) VNPU_STATS_MAGIC_INITIALIZED)
  | D_return _ => None
  end.

(** * Launches *)

Definition bucket_start (now : Z) : Z := now - now mod VNPU_STATS_BUCKET_DURATION_NS.

Definition bucket_index (now : Z) : nat :=
  Z.to_nat (bucket_start now / VNPU_STATS_BUCKET_DURATION_NS mod VNPU_STATS_NUM_BUCKETS).

(** [vnpu_stats_record] on the row of the vNPU, when no other process writes to it. *)
Definition record_in_row (now dim n : Z) (r : list vnpu_stats_bucket_t) : option (list vnpu_stats_bucket_t) :=
  b ← r !! bucket_index now;
  Some (<[bucket_index now :=
    if bucket_start_ns b =? bucket_start now
    then Bucket (bucket_start_ns b) (u64 (sum_block_dim b + dim)) (u64 (launch_count b + n))
    else Bucket (bucket_start now) dim n]> r).

Definition set_row (v : Z) (f : stats_row -> option stats_row) (m : vnpu_stats_shm_t) : option vnpu_stats_shm_t :=
  r ← rows m !! Z.to_nat v; r1 ← f r; Some (StatsShm (<[Z.to_nat v := r1]> (rows m)) (stats_magic m)).

Definition vnpu_stats_record (inited : bool) (vnpu_id now dim n : Z) (m : vnpu_stats_shm_t) : option vnpu_stats_shm_t :=
  if negb inited then Some m
  else if VNPU_STATS_MAX_VNPU <=? vnpu_id then Some m
  else set_row vnpu_id (fun r => b ← record_in_row now dim n (buckets r); Some (StatsRow b (avg_slot_seq r) (avg_slots r))) m.

(** [vnpu_stats_record] access by access. *)
Inductive record_place :=
  | R_load
  | R_cas (expected : Z)
  | R_store_sum
  | R_store_count
  | R_add_sum
  | R_add_count
  | R_done.

(** The bucket is that of the time [now] read at the start. *)
Definition record_step (now dim n : Z) (k : record_place) (b : vnpu_stats_bucket_t) : option (record_place * vnpu_stats_bucket_t) :=
  match k with
  | R_load => Some (if bucket_start_ns b =? bucket_start now then R_add_sum else R_cas (bucket_start_ns b), b)
  | R_cas expected =>
    if bucket_start_ns b =? expected
    then Some (R_store_sum, Bucket (bucket_start now) (sum_block_dim b) (launch_count b))
    else Some (R_add_sum, b)
  | R_store_sum => Some (R_store_count, Bucket (bucket_start_ns b) dim (launch_count b))
  | R_store_count => Some (R_done, Bucket (bucket_start_ns b) (sum_block_dim b) n)
  | R_add_sum => Some (R_add_count, Bucket (bucket_start_ns b) (u64 (sum_block_dim b + dim)) (launch_count b))
  | R_add_count => Some (R_done, Bucket (bucket_start_ns b) (sum_block_dim b) (u64 (launch_count b + n)))
  | R_done => None
  end.

Definition window_start (now : Z) : Z := if VNPU_STATS_WINDOW_NS <=? now then now - VNPU_STATS_WINDOW_NS else 0.

(** The sums of the block dimensions and of the launches of the row. *)
Definition query_row (now : Z) (r : list vnpu_stats_bucket_t) : Z * Z :=
  foldl (fun '(s, c) b =>
    let bts := bucket_start_ns b in
    if (bts =? 0) || (bts <? window_start now) || (now <? bts) then (s, c)
    else (u64 (s + sum_block_dim b), u64 (c + launch_count b))) (0, 0) r.

Definition vnpu_stats_query (inited : bool) (vnpu_id now : Z) (m : vnpu_stats_shm_t) : option (Z * (Z * Z)) :=
  if negb inited then Some (RT_FAIL, (0, 0))
  else if VNPU_STATS_MAX_VNPU <=? vnpu_id then Some (RT_FAIL, (0, 0))
  else r ← rows m !! Z.to_nat vnpu_id; Some (ENPU_SUCCESS, query_row now (buckets r)).

(** * Published averages *)

Definition avg_fresh (now : Z) (slot : vnpu_stats_avg_slot_t) : bool :=
  negb ((ts_ns slot =? 0) || (now <? ts_ns slot) || (VNPU_STATS_AVG_STALE_NS <? now - ts_ns slot)) &&
  negb (slot_count slot =? 0).

Definition avg_totals (now : Z) (slots : list vnpu_stats_avg_slot_t) : Z * Z :=
  foldl (fun '(s, c) slot => if avg_fresh now slot then (u64 (s + sum_ns slot), u64 (c + slot_count slot)) else (s, c)) (0, 0) slots.

Definition avg_of_row (now : Z) (slots : list vnpu_stats_avg_slot_t) : Z :=
  let '(total_sum, total_count) := avg_totals now slots in
  if total_count =? 0 then 0 else i64 (total_sum / total_count).

Definition vnpu_stats_get_avg_duration_ns (inited : bool) (vnpu_id now : Z) (m : vnpu_stats_shm_t) : option Z :=
  if negb inited || (VNPU_STATS_MAX_VNPU <=? vnpu_id) then Some 0
  else r ← rows m !! Z.to_nat vnpu_id; Some (avg_of_row now (avg_slots r)).

(** The slot of the process ([g_my_avg_slot]) and the row after the call. *)
Definition set_avg_in_row (my_slot now avg n : Z) (r : stats_row) : option (Z * stats_row) :=
  if n =? 0 then Some (my_slot, r)
  else
    let '(slot, seq) :=
      if my_slot <? 0 then (avg_slot_seq r mod VNPU_STATS_AVG_SLOTS, u64 (avg_slot_seq r + 1)) else (my_slot, avg_slot_seq r) in
    if decide (Z.to_nat slot < length (avg_slots r))%nat
    then Some (slot, StatsRow (buckets r) seq (<[Z.to_nat slot := AvgSlot (u64 (avg * n)) n now]> (avg_slots r)))
    else None.

Definition vnpu_stats_set_local_avg_duration (inited : bool) (my_slot vnpu_id now avg n : Z) (m : vnpu_stats_shm_t)
  : option (Z * vnpu_stats_shm_t) :=
  if negb inited || (VNPU_STATS_MAX_VNPU <=? vnpu_id) then Some (my_slot, m)
  else
    r ← rows m !! Z.to_nat vnpu_id;
    '(slot, r1) ← set_avg_in_row my_slot now avg n r;
    Some (slot, StatsShm (<[Z.to_nat vnpu_id := r1]> (rows m)) (stats_magic m)).

(** * Samples *)

Record sample_record := SampleRecord { kernel_count : Z; sample_time : Z; timestamp : Z }.

(** The list of the records, the newest first; [None] before it exists. *)
Definition add_sample_record (malloc_ok : bool) (n time ts : Z) (l : option (list sample_record)) : Z * option (list sample_record) :=
  match l with
  | None => (RT_FAIL, None)
  | Some r => if malloc_ok then (ENPU_SUCCESS, Some (SampleRecord n time ts :: r)) else (RT_FAIL, Some r)
  end.

(** The loop over the records: what follows an old record is removed. *)
Fixpoint sum_records (now : Z) (l : list sample_record) (total_time total_count : Z) : list sample_record * Z * Z :=
  match l with
  | [] => ([], total_time, total_count)
  | r :: rest =>
    if u64 (now - timestamp r) <=? INVALID_SAMPLE_PERIOD then
      let '(kept, t, c) := sum_records now rest (u64 (total_time + sample_time r)) (i32 (total_count + kernel_count r)) in
      (r :: kept, t, c)
    else ([], total_time, total_count)
  end.

(** The records kept, the average and [*count]. *)
Definition get_ker_ave_exec_time (now : Z) (l : option (list sample_record)) : option (list sample_record) * Z * Z :=
  match l with
  | None => (None, 0, 0)
  | Some r =>
    let '(kept, t, c) := sum_records now r 0 0 in
    (Some kept, if c =? 0 then 0 else t / u64 c, u64 c)
  end.

(** [get_kernel_count]: the streams of the model with the number of their
    tasks, as the driver answers; [None] is an error of the driver. *)
Definition get_kernel_count (num_streams : option Z) (tasks : option (list (option Z))) : Z :=
  match num_streams with
  | None => -1
  | Some n =>
    if (n =? 0) || (MAX_STREAMS <? n) then -1
    else match tasks with
         | None => -1
         | Some l =>
           match foldl (fun acc t => match acc, t with Some c, Some x => Some (i32 (c + i32 x)) | _, _ => None end) (Some 0) l with
           | None => -1
           | Some c => if c =? 0 then -1 else c
           end
         end
  end.

(** ** The protocol of a sample *)

(** The variables of a sample: [g_sampling_mutex] held, [g_sampling],
    [g_sample_flag], the events and the stream (0 is NULL), the events that
    exist, whether the thread [sample_sync] runs, and the records. *)
Record sampler := Sampler {
  sampling_locked : bool;
  g_sampling : bool;
  g_sample_flag : bool;
  g_sample_start_event : Z;
  g_sample_end_event : Z;
  g_sample_stream : Z;
  g_sample_sync_count : Z;
  live_events : list Z;
  sync_running : bool;
  sample_records : option (list sample_record);
}.

(** What the driver answers: the status of the capture, an event that is
    created, whether an event is recorded, whether the thread is created. *)
Record driver_answers := DriverAnswers {
  capture_status : option bool;
  new_event : option Z;
  record_ok : bool;
  thread_ok : bool;
}.

(** [rtEventDestroy] of an event that is not NULL. *)
Fixpoint destroy_event (e : Z) (l : list Z) : list Z :=
  match l with [] => [] | x :: r => if x =? e then r else x :: destroy_event e r end.

Definition no_sample (s : sampler) (live : list Z) : sampler :=
  Sampler (sampling_locked s) false false 0 (g_sample_end_event s) 0 (g_sample_sync_count s) live (sync_running s) (sample_records s).

Definition set_sampling (s : sampler) (b : bool) : sampler :=
  Sampler (sampling_locked s) b (g_sample_flag s) (g_sample_start_event s) (g_sample_end_event s) (g_sample_stream s)
          (g_sample_sync_count s) (live_events s) (sync_running s) (sample_records s).

Definition sampling_begin (d : driver_answers) (stm : Z) (s : sampler) : sampler :=
  let s1 := Sampler true true (g_sample_flag s) (g_sample_start_event s) (g_sample_end_event s) (g_sample_stream s)
                    (g_sample_sync_count s) (live_events s) (sync_running s) (sample_records s) in
  match capture_status d with
  | None | Some true => set_sampling s1 false
  | Some false =>
    if g_sample_flag s then set_sampling s1 false
    else match new_event d with
         | None => no_sample s1 (live_events s)
         | Some e =>
           if record_ok d
           then Sampler true true true e (g_sample_end_event s) stm (g_sample_sync_count s) (e :: live_events s)
                        (sync_running s) (sample_records s)
           else no_sample s1 (destroy_event e (e :: live_events s))
         end
  end.

Definition record_event_time (d : driver_answers) (n : Z) (s : sampler) : sampler :=
  let failed live :=
    Sampler (sampling_locked s) (g_sampling s) false 0 0 (g_sample_stream s) (g_sample_sync_count s) live (sync_running s)
            (sample_records s) in
  match new_event d with
  | None => failed (destroy_event (g_sample_start_event s) (live_events s))
  | Some e =>
    let live := destroy_event e (destroy_event (g_sample_start_event s) (e :: live_events s)) in
    if negb (record_ok d) then failed live
    else if negb (thread_ok d) then
      Sampler (sampling_locked s) (g_sampling s) false 0 0 (g_sample_stream s) n live (sync_running s) (sample_records s)
    else
      Sampler (sampling_locked s) (g_sampling s) (g_sample_flag s) (g_sample_start_event s) e (g_sample_stream s) n
              (e :: live_events s) true (sample_records s)
  end.

(** [sampling_end] with [count = 1], [sampling_graph_end] with the count of the model. *)
Definition sampling_end (d : driver_answers) (n : Z) (s : sampler) : sampler :=
  let s1 := if g_sampling s then set_sampling (record_event_time d n s) false else s in
  Sampler false (g_sampling s1) (g_sample_flag s1) (g_sample_start_event s1) (g_sample_end_event s1) (g_sample_stream s1)
          (g_sample_sync_count s1) (live_events s1) (sync_running s1) (sample_records s1).

(** [sample_sync], the thread: [time] is the elapsed time between the events. *)
Definition sample_sync (malloc_ok : bool) (time now : Z) (s : sampler) : sampler :=
  let live := destroy_event (g_sample_end_event s) (destroy_event (g_sample_start_event s) (live_events s)) in
  Sampler (sampling_locked s) (g_sampling s) false 0 0 0 (g_sample_sync_count s) live false
          (add_sample_record malloc_ok (g_sample_sync_count s) time now (sample_records s)).2.
