(* ===== verification/VnpuStatsThms.v ===== *)
(** The properties of the statistics of the vNPUs. *)

From Stdlib Require Import Sorting.Sorted.
From S2P Require Import Prelude VnpuStats.

(** * The ring of buckets *)

(** A launch: its time, block dimension and count. *)
Record launch := LaunchAt { l_time : Z; l_dim : Z; l_count : Z }.

Fixpoint record_all (h : list launch) (r : list vnpu_stats_bucket_t) : option (list vnpu_stats_bucket_t) :=
  match h with
  | [] => Some r
  | x :: rest => r1 ← record_in_row (l_time x) (l_dim x) (l_count x) r; record_all rest r1
  end.

(** The number of the bucket of a launch, and its place in the ring. *)
Definition bucket_no (x : launch) : Z := l_time x / VNPU_STATS_BUCKET_DURATION_NS.
Definition ring_place (x : launch) : Z := bucket_no x mod VNPU_STATS_NUM_BUCKETS.

(** The bucket that place [i] holds after the launches [h]: that of the last
    launch of the place. *)
Definition newest (i : Z) (h : list launch) : Z :=
  foldl (fun acc x => if ring_place x =? i then bucket_no x else acc) 0 h.

Definition sumf (f : launch -> Z) (h : list launch) : Z := foldr (fun x a => f x + a) 0 h.

(** The launches a bucket of the ring stands for. *)
Definition in_bucket (h : list launch) (i : Z) (f : launch -> Z) (x : launch) : Z :=
  if (ring_place x =? i) && (bucket_no x =? newest i h) then f x else 0.

(** A bucket that [vnpu_stats_query] counts at [now]. *)
Definition counted (now b : Z) : bool :=
  negb (b =? 0) && (window_start now <=? b * VNPU_STATS_BUCKET_DURATION_NS) && (b * VNPU_STATS_BUCKET_DURATION_NS <=? now).

(** A launch that is still in the ring and counted at [now]: no later launch
    has taken its place. *)
Definition visible (now : Z) (h : list launch) (x : launch) : bool :=
  (bucket_no x =? newest (ring_place x) h) && counted now (bucket_no x).

Lemma bucket_start_eq x : 0 <= l_time x -> bucket_start (l_time x) = bucket_no x * VNPU_STATS_BUCKET_DURATION_NS.
Proof. intros H. unfold bucket_start, bucket_no, VNPU_STATS_BUCKET_DURATION_NS. zlia. Qed.

Lemma bucket_index_eq x : 0 <= l_time x -> bucket_index (l_time x) = Z.to_nat (ring_place x).
Proof.
  intros H. unfold bucket_index. rewrite bucket_start_eq by done. unfold ring_place.
  rewrite Z.div_mul by done. done.
Qed.

Lemma ring_place_range x : 0 <= ring_place x < 12.
Proof. apply Z.mod_pos_bound. reflexivity. Qed.

Lemma sumf_app f h1 h2 : sumf f (h1 ++ h2) = sumf f h1 + sumf f h2.
Proof. unfold sumf. induction h1 as [|x h1 IH]; simpl; [lia|]. rewrite IH. lia. Qed.

Lemma sumf_ext f g h : (forall x, x ∈ h -> f x = g x) -> sumf f h = sumf g h.
Proof.
  intros H. unfold sumf. induction h as [|x h IH]; simpl; [done|]. rewrite (H x ltac:(left)), IH; [done|].
  intros y Hy. apply H. by right.
Qed.

Lemma sumf_zero f h : (forall x, x ∈ h -> f x = 0) -> sumf f h = 0.
Proof. intros H. rewrite (sumf_ext f (fun _ => 0) h H). unfold sumf. clear H. induction h; simpl; lia. Qed.

Lemma newest_app i h x : newest i (h ++ [x]) = if ring_place x =? i then bucket_no x else newest i h.
Proof. unfold newest. by rewrite foldl_app. Qed.

(** The launches happen one after the other. *)
Definition in_order (h : list launch) : Prop := StronglySorted (fun x y => l_time x <= l_time y) h ∧ Forall (fun x => 0 <= l_time x) h.

Lemma in_order_app h x : in_order (h ++ [x]) -> in_order h ∧ 0 <= l_time x ∧ forall y, y ∈ h -> l_time y <= l_time x.
Proof.
  intros [HS HF]. apply Forall_app in HF as [HF Hx]. rewrite Forall_singleton in Hx.
  assert (H : StronglySorted (fun x y => l_time x <= l_time y) h ∧ forall y, y ∈ h -> l_time y <= l_time x).
  { clear HF. induction h as [|y h IH]; [split; [constructor|by intros y ?%elem_of_nil]|].
    cbn in HS. apply StronglySorted_inv in HS as [HS Hy]. destruct (IH HS) as [H1 H2]. split.
    - constructor; [done|]. by apply Forall_app in Hy as [Hy _].
    - intros z [->|Hz]%elem_of_cons; [|by apply H2]. apply Forall_app in Hy as [_ Hy]. rewrite Forall_singleton in Hy. exact Hy. }
  destruct H. done.
Qed.

Lemma in_order_prefix h1 h2 : in_order (h1 ++ h2) -> in_order h1.
Proof.
  induction h2 as [|x h2 IH] using rev_ind; intros H; [by rewrite app_nil_r in H|].
  rewrite app_assoc in H. apply IH, (in_order_app _ _ H).
Qed.

Lemma bucket_no_mono x y : l_time x <= l_time y -> bucket_no x <= bucket_no y.
Proof. intros H. apply Z.div_le_mono; [reflexivity|done]. Qed.

(** The last launch of a place has its newest bucket. *)
Lemma newest_max h i x : in_order h -> x ∈ h -> ring_place x = i -> bucket_no x <= newest i h.
Proof.
  induction h as [|y h IH] using rev_ind; intros Ho Hx Hp; [by apply elem_of_nil in Hx|].
  destruct (in_order_app _ _ Ho) as (Hh & _ & Hle). rewrite newest_app.
  apply elem_of_app in Hx as [Hx|Hx].
  - destruct (Z.eqb_spec (ring_place y) i); [by apply bucket_no_mono, Hle|by apply IH].
  - apply list_elem_of_singleton in Hx as ->. rewrite (proj2 (Z.eqb_eq _ _) Hp). lia.
Qed.

Lemma newest_elem h y : y ∈ h -> exists z, z ∈ h ∧ bucket_no z = newest (ring_place y) h.
Proof.
  induction h as [|x h IH] using rev_ind; intros Hy; [by apply elem_of_nil in Hy|]. rewrite newest_app.
  destruct (Z.eqb_spec (ring_place x) (ring_place y)) as [E|E].
  - exists x. split; [|done]. apply elem_of_app. right. left.
  - apply elem_of_app in Hy as [Hy|Hy]; [|apply list_elem_of_singleton in Hy as ->; congruence].
    destruct (IH Hy) as (z & Hz & Ez). exists z. split; [|done]. apply elem_of_app. by left.
Qed.

(** ** The ring after a history *)

Definition ring_bucket (h : list launch) (i : Z) : vnpu_stats_bucket_t :=
  Bucket (newest i h * VNPU_STATS_BUCKET_DURATION_NS) (u64 (sumf (in_bucket h i l_dim) h)) (u64 (sumf (in_bucket h i l_count) h)).

Definition ring (h : list launch) : list vnpu_stats_bucket_t := ring_bucket h <$> seqZ 0 12.

Lemma in_bucket_other h x i f : ring_place x <> i -> sumf (in_bucket (h ++ [x]) i f) (h ++ [x]) = sumf (in_bucket h i f) h.
Proof.
  intros Hne. rewrite sumf_app. unfold in_bucket. rewrite newest_app, (proj2 (Z.eqb_neq _ _) Hne).
  cbn. rewrite (proj2 (Z.eqb_neq _ _) Hne). cbn. lia.
Qed.

Lemma in_bucket_same h x f :
  bucket_no x = newest (ring_place x) h ->
  sumf (in_bucket (h ++ [x]) (ring_place x) f) (h ++ [x]) = sumf (in_bucket h (ring_place x) f) h + f x.
Proof.
  intros He. rewrite sumf_app. unfold in_bucket. rewrite newest_app, Z.eqb_refl. rewrite <- He.
  cbn. rewrite !Z.eqb_refl. cbn. lia.
Qed.

Lemma in_bucket_new h x f :
  in_order (h ++ [x]) -> bucket_no x <> newest (ring_place x) h ->
  sumf (in_bucket (h ++ [x]) (ring_place x) f) (h ++ [x]) = f x.
Proof.
  intros Ho Hne. destruct (in_order_app _ _ Ho) as (Hh & _ & Hle). rewrite sumf_app. unfold in_bucket. rewrite newest_app, Z.eqb_refl.
  rewrite (sumf_zero _ h); [cbn; rewrite !Z.eqb_refl; cbn; lia|]. intros y Hy.
  destruct (Z.eqb_spec (ring_place y) (ring_place x)) as [E|]; [|done]. cbn.
  destruct (Z.eqb_spec (bucket_no y) (bucket_no x)) as [Eb|]; [|done]. exfalso. apply Hne.
  pose proof (newest_max h (ring_place x) y Hh Hy E). destruct (newest_elem h y Hy) as (z & Hz & Ez). rewrite E in Ez.
  pose proof (bucket_no_mono z x (Hle z Hz)). lia.
Qed.

Lemma ring_lookup h i : 0 <= i < 12 -> ring h !! Z.to_nat i = Some (ring_bucket h i).
Proof.
  intros Hi. unfold ring. rewrite list_lookup_fmap. rewrite lookup_seqZ_lt by lia. cbn. do 2 f_equal. lia.
Qed.

Lemma ring_length h : length (ring h) = 12%nat.
Proof. unfold ring. by rewrite length_fmap, length_seqZ. Qed.

(** One launch moves the ring of a history to that of the longer one. *)
Lemma record_ring h x :
  in_order (h ++ [x]) -> is_u64 (l_dim x) -> is_u64 (l_count x) ->
  record_in_row (l_time x) (l_dim x) (l_count x) (ring h) = Some (ring (h ++ [x])).
Proof.
  intros Ho Hd Hc. destruct (in_order_app _ _ Ho) as (_ & Ht & _). pose proof (ring_place_range x) as Hp.
  unfold record_in_row. rewrite bucket_index_eq, ring_lookup by done. cbn [mbind option_bind]. rewrite bucket_start_eq by done.
  f_equal. apply list_eq_same_length with 12%nat; [apply ring_length|rewrite length_insert; apply ring_length|].
  intros j b a Hj Hb Ha. replace j with (Z.to_nat (Z.of_nat j)) in * by lia. rewrite ring_lookup in Ha by lia. injection Ha as <-.
  destruct (Z.eq_dec (Z.of_nat j) (ring_place x)) as [Ej|Ej].
  - rewrite Ej in *. rewrite list_lookup_insert_eq in Hb by (rewrite ring_length; lia).
    injection Hb as <-. unfold ring_bucket at 1. cbn [bucket_start_ns]. unfold ring_bucket. rewrite newest_app, Z.eqb_refl.
    destruct (Z.eqb_spec (newest (ring_place x) h * VNPU_STATS_BUCKET_DURATION_NS) (bucket_no x * VNPU_STATS_BUCKET_DURATION_NS)) as [E|E].
    + apply Z.mul_reg_r in E; [|done]. rewrite !in_bucket_same by done. cbn [bucket_start_ns sum_block_dim launch_count].
      rewrite E. unfold u64. by rewrite !Zplus_mod_idemp_l.
    + rewrite !in_bucket_new by (done || congruence). by rewrite !u64_small.
  - rewrite list_lookup_insert_ne in Hb by lia. rewrite ring_lookup in Hb by lia. injection Hb as <-.
    unfold ring_bucket. rewrite newest_app, (proj2 (Z.eqb_neq _ _)) by congruence. by rewrite !in_bucket_other by congruence.
Qed.

(** ** The query *)

Definition sum_places (f : Z -> Z) (l : list Z) : Z := foldr (fun i a => f i + a) 0 l.

Lemma sum_places_add f g l : sum_places (fun i => f i + g i) l = sum_places f l + sum_places g l.
Proof. unfold sum_places. induction l as [|i l IH]; simpl; [done|]. rewrite IH. lia. Qed.

Lemma sum_places_ext f g l : (forall i, f i = g i) -> sum_places f l = sum_places g l.
Proof. intros H. unfold sum_places. induction l as [|i l IH]; simpl; [done|]. by rewrite H, IH. Qed.

Lemma sum_places_one w p : 0 <= p < 12 -> sum_places (fun i => if p =? i then w else 0) (seqZ 0 12) = w.
Proof.
  intros H. assert (E : p = 0 ∨ p = 1 ∨ p = 2 ∨ p = 3 ∨ p = 4 ∨ p = 5 ∨ p = 6 ∨ p = 7 ∨ p = 8 ∨ p = 9 ∨ p = 10 ∨ p = 11) by lia.
  change (seqZ 0 12) with [0; 1; 2; 3; 4; 5; 6; 7; 8; 9; 10; 11]. unfold sum_places. cbn [foldr].
  destruct_or! E; subst p; cbn [Z.eqb Pos.eqb]; lia.
Qed.

(** Summing by place and by launch is the same. *)
Lemma sum_exchange w h : sum_places (fun i => sumf (fun x => if ring_place x =? i then w x else 0) h) (seqZ 0 12) = sumf w h.
Proof.
  induction h as [|x h IH]; [done|]. change (sumf w (x :: h)) with (w x + sumf w h). rewrite <- IH.
  rewrite <- (sum_places_one (w x) (ring_place x)) by apply ring_place_range. rewrite <- sum_places_add. done.
Qed.

(** What place [i] contributes at [now]. *)
Definition contribution (now : Z) (h : list launch) (f : launch -> Z) (i : Z) : Z :=
  if counted now (newest i h) then sumf (in_bucket h i f) h else 0.

Lemma contribution_eq now h f i :
  contribution now h f i = sumf (fun x => if ring_place x =? i then if visible now h x then f x else 0 else 0) h.
Proof.
  unfold contribution, in_bucket, visible. destruct (counted now (newest i h)) eqn:E; symmetry.
  - apply sumf_ext. intros x _. destruct (Z.eqb_spec (ring_place x) i) as [->|]; [|done]. cbn.
    destruct (Z.eqb_spec (bucket_no x) (newest i h)) as [Eb|]; [|done]. by rewrite Eb, E.
  - apply sumf_zero. intros x _. destruct (Z.eqb_spec (ring_place x) i) as [->|]; [|done].
    destruct (Z.eqb_spec (bucket_no x) (newest i h)) as [Eb|]; [|done]. by rewrite Eb, E.
Qed.

Lemma counted_eq now b :
  (b * VNPU_STATS_BUCKET_DURATION_NS =? 0) || (b * VNPU_STATS_BUCKET_DURATION_NS <? window_start now)
    || (now <? b * VNPU_STATS_BUCKET_DURATION_NS) = negb (counted now b).
Proof.
  unfold counted. rewrite !negb_andb, negb_involutive, <- !Z.ltb_antisym. f_equal. f_equal.
  unfold VNPU_STATS_BUCKET_DURATION_NS. destruct (Z.eqb_spec b 0) as [->|]; [done|]. apply Z.eqb_neq. lia.
Qed.

Lemma query_ring_fold now h l : forall s c,
  foldl (fun '(s, c) b =>
    let bts := bucket_start_ns b in
    if (bts =? 0) || (bts <? window_start now) || (now <? bts) then (s, c)
    else (u64 (s + sum_block_dim b), u64 (c + launch_count b))) (u64 s, u64 c) (ring_bucket h <$> l) =
  (u64 (s + sum_places (contribution now h l_dim) l), u64 (c + sum_places (contribution now h l_count) l)).
Proof.
  induction l as [|i l IH]; intros s c; [cbn; by rewrite !Z.add_0_r|]. cbn [fmap list_fmap foldl ring_bucket bucket_start_ns].
  rewrite counted_eq. change (sum_block_dim (ring_bucket h i)) with (u64 (sumf (in_bucket h i l_dim) h)).
  change (launch_count (ring_bucket h i)) with (u64 (sumf (in_bucket h i l_count) h)).
  change (sum_places (contribution now h l_dim) (i :: l)) with (contribution now h l_dim i + sum_places (contribution now h l_dim) l).
  change (sum_places (contribution now h l_count) (i :: l)) with (contribution now h l_count i + sum_places (contribution now h l_count) l).
  assert (E1 : forall f, contribution now h f i = if counted now (newest i h) then sumf (in_bucket h i f) h else 0) by done.
  rewrite !E1. clear E1. destruct (counted now (newest i h)); cbn [negb].
  - replace (u64 (u64 s + u64 (sumf (in_bucket h i l_dim) h))) with (u64 (s + sumf (in_bucket h i l_dim) h))
      by (unfold u64; by rewrite <- Zplus_mod).
    replace (u64 (u64 c + u64 (sumf (in_bucket h i l_count) h))) with (u64 (c + sumf (in_bucket h i l_count) h))
      by (unfold u64; by rewrite <- Zplus_mod).
    rewrite IH. f_equal; f_equal; lia.
  - rewrite IH. f_equal; f_equal; lia.
Qed.

(** The ring of buckets refines the history of the launches: for launches
    in the order of their times, recording never fails and a query at [now]
    returns the number and the block dimensions of exactly the launches whose
    bucket starts in the window of the query and has not been taken by a later
    launch 12 buckets on. *)
Theorem stats_query_correct h now :
  in_order h -> Forall (fun x => is_u64 (l_dim x) ∧ is_u64 (l_count x)) h ->
  exists r, record_all h (buckets zero_row) = Some r ∧
    query_row now r = (u64 (sumf (fun x => if visible now h x then l_dim x else 0) h),
                       u64 (sumf (fun x => if visible now h x then l_count x else 0) h)).
Proof.
  intros Ho HF. exists (ring h). split.
  - assert (H : forall l2 l1, in_order (l1 ++ l2) -> Forall (fun x => is_u64 (l_dim x) ∧ is_u64 (l_count x)) l2 ->
      record_all l2 (ring l1) = Some (ring (l1 ++ l2))).
    { induction l2 as [|x l2 IH]; intros l1 Hl HF2; [by rewrite app_nil_r|]. apply Forall_cons in HF2 as [[Hd Hc] HF2].
      rewrite cons_middle, app_assoc in *. cbn [record_all]. rewrite record_ring; [|by apply in_order_prefix in Hl|done|done].
      by apply IH. }
    exact (H h [] Ho HF).
  - pose proof (query_ring_fold now h (seqZ 0 12) 0 0) as E. rewrite !Z.add_0_l in E. unfold query_row, ring.
    etransitivity; [exact E|]. f_equal; f_equal; rewrite <- sum_exchange; apply sum_places_ext;
      intros i; apply contribution_eq.
Qed.

(** Launches of block dimension 7 at 120 ms and of 5 at 130 ms, 400 ms and 730 ms;
    the last one takes the place of the first two. *)
Definition ex_launches : list launch :=
  [LaunchAt 120000000 7 1; LaunchAt 130000000 5 1; LaunchAt 400000000 5 1; LaunchAt 730000000 5 1].

Lemma stats_query_correct_witness :
  exists r, record_all ex_launches (buckets zero_row) = Some r ∧ query_row 740000000 r = (10, 2).
Proof.
  destruct (stats_query_correct ex_launches 740000000) as (r & E & H).
  - split; repeat constructor; cbn; lia.
  - repeat constructor; cbn; unfold U64_MOD; lia.
  - exists r. split; [exact E|]. rewrite H. vm_compute. reflexivity.
Defined.

(** One launch of block dimension 1 in every bucket for 2 s. *)
Definition steady : list launch := (fun i => LaunchAt (i * VNPU_STATS_BUCKET_DURATION_NS) 1 1) <$> seqZ 1 40.

(** A fault: the ring of 12 buckets of 50 ms holds 0.6 s, the window of a
    query is 1 s.  Under a steady load of one launch every 50 ms a query
    reports 12 launches for the last second instead of 21. *)
Theorem stats_ring_short :
  (r ← record_all steady (buckets zero_row); Some (query_row (40 * VNPU_STATS_BUCKET_DURATION_NS) r)) = Some (12, 12) ∧
  length (filter (fun x => window_start (40 * VNPU_STATS_BUCKET_DURATION_NS) <= l_time x) steady) = 21%nat.
Proof. vm_compute. split; reflexivity. Qed.

(** ** Two processes *)

(** Steps of the first ([true]) and of the second process on one bucket. *)
Fixpoint record_both (now d1 d2 : Z) (l : list bool) (k1 k2 : record_place) (b : vnpu_stats_bucket_t)
  : option (record_place * record_place * vnpu_stats_bucket_t) :=
  match l with
  | [] => Some (k1, k2, b)
  | true :: r => '(k, b1) ← record_step now d1 1 k1 b; record_both now d1 d2 r k k2 b1
  | false :: r => '(k, b1) ← record_step now d2 1 k2 b; record_both now d1 d2 r k1 k b1
  end.

(** A fault: a process that finds an old bucket claims it by its start and
    stores the sums afterwards.  A launch that another process adds in between
    is overwritten: of two launches one is counted. *)
Theorem stats_record_race :
  record_both 1000000000 8 5 [true; true; false; false; false; true; true] R_load R_load (Bucket 400000000 3 3) =
    Some (R_done, R_done, Bucket 1000000000 8 1) ∧
  record_both 1000000000 8 5 [true; true; true; true; false; false; false] R_load R_load (Bucket 400000000 3 3) =
    Some (R_done, R_done, Bucket 1000000000 13 2).
Proof. vm_compute. split; reflexivity. Qed.

(** * Published averages *)

(** What a process publishes: the average, the number of kernels, the time. *)
Record published := Published { p_avg : Z; p_count : Z; p_time : Z }.

(** Each process publishes for the first time, in this order. *)
Fixpoint publish_all (l : list published) (r : stats_row) : option stats_row :=
  match l with
  | [] => Some r
  | x :: rest => '(_, r1) ← set_avg_in_row (-1) (p_time x) (p_avg x) (p_count x) r; publish_all rest r1
  end.

Definition slot_of (x : published) : vnpu_stats_avg_slot_t := AvgSlot (u64 (p_avg x * p_count x)) (p_count x) (p_time x).

(** The row after the processes [l] have published. *)
Definition published_row (l : list published) : stats_row :=
  StatsRow (buckets zero_row) (Z.of_nat (length l)) ((slot_of <$> l) ++ replicate (64 - length l) (AvgSlot 0 0 0)).

Lemma publish_row l x :
  (length l < 64)%nat -> 0 < p_count x ->
  set_avg_in_row (-1) (p_time x) (p_avg x) (p_count x) (published_row l) = Some (Z.of_nat (length l), published_row (l ++ [x])).
Proof.
  intros Hl Hc. unfold set_avg_in_row. rewrite (proj2 (Z.eqb_neq _ 0)) by lia. cbn [Z.ltb Z.compare].
  cbn [avg_slot_seq published_row avg_slots buckets]. unfold VNPU_STATS_AVG_SLOTS. rewrite Z.mod_small by lia.
  rewrite u64_small by (unfold is_u64, U64_MOD; lia). rewrite Nat2Z.id, length_app, length_fmap, length_replicate.
  rewrite decide_True by lia. unfold published_row. rewrite length_app, fmap_app. cbn [length fmap list_fmap].
  do 3 f_equal; [lia|]. rewrite insert_app_r_alt by (rewrite length_fmap; lia). rewrite length_fmap, Nat.sub_diag, <- app_assoc. f_equal.
  replace (64 - length l)%nat with (S (64 - (length l + 1))) by lia. done.
Qed.

Fixpoint weight (l : list published) : Z := match l with [] => 0 | x :: r => p_avg x * p_count x + weight r end.
Fixpoint kernels (l : list published) : Z := match l with [] => 0 | x :: r => p_count x + kernels r end.

(** A publication that [vnpu_stats_get_avg_duration_ns] still takes into account. *)
Definition recent (now : Z) (x : published) : Prop :=
  0 < p_count x ∧ 0 <= p_avg x ∧ 0 < p_time x <= now ∧ now - p_time x <= VNPU_STATS_AVG_STALE_NS.

Lemma weight_nonneg now l : Forall (recent now) l -> 0 <= weight l ∧ 0 <= kernels l.
Proof. induction 1 as [|x l (H1 & H2 & _) HF IH]; [done|]. cbn. split; [|lia]. nia. Qed.

Lemma avg_totals_eq now l k : forall s c,
  Forall (recent now) l -> 0 <= s -> 0 <= c -> s + weight l < U64_MOD -> c + kernels l < U64_MOD ->
  foldl (fun '(s, c) slot => if avg_fresh now slot then (u64 (s + sum_ns slot), u64 (c + slot_count slot)) else (s, c)) (s, c)
    ((slot_of <$> l) ++ replicate k (AvgSlot 0 0 0)) = (s + weight l, c + kernels l).
Proof.
  induction l as [|x l IH]; intros s c HF Hs Hc Hb1 Hb2.
  - cbn. rewrite !Z.add_0_r. induction k as [|k IHk]; [done|]. exact IHk.
  - apply Forall_cons in HF as [(H1 & H2 & H3 & H4) HF]. destruct (weight_nonneg now l HF).
    cbn [weight kernels] in *.
    cbn [fmap list_fmap app foldl]. assert (E : avg_fresh now (slot_of x) = true).
    { unfold avg_fresh. cbn. rewrite (proj2 (Z.eqb_neq (p_time x) 0)), (proj2 (Z.ltb_ge now (p_time x))) by lia.
      rewrite (proj2 (Z.ltb_ge VNPU_STATS_AVG_STALE_NS _)), (proj2 (Z.eqb_neq (p_count x) 0)) by lia. done. }
    rewrite E. cbn [slot_of sum_ns slot_count]. assert (0 <= p_avg x * p_count x) by nia.
    rewrite (u64_small (p_avg x * p_count x)), !u64_small by (unfold is_u64; lia).
    fold (slot_of <$> l). rewrite IH by (done || lia). f_equal; lia.
Qed.

(** The averages of up to 64 processes of a vNPU are published in slots of
    their own, and while they are recent the average of the vNPU is that of
    all their kernels: the sum of the times over the number of kernels. *)
Theorem stats_average_weighted l now :
  (0 < length l <= 64)%nat -> Forall (recent now) l -> weight l < 2 ^ 63 -> kernels l < 2 ^ 63 ->
  exists r, publish_all l zero_row = Some r ∧ avg_of_row now (avg_slots r) = weight l / kernels l.
Proof.
  intros Hl HF Hw Hk. exists (published_row l). split.
  - assert (H : forall l2 l1, (length (l1 ++ l2) <= 64)%nat -> Forall (recent now) l2 ->
      publish_all l2 (published_row l1) = Some (published_row (l1 ++ l2))).
    { induction l2 as [|x l2 IH]; intros l1 Hl1 HF2; [by rewrite app_nil_r|]. apply Forall_cons in HF2 as [(Hx & _) HF2].
      cbn [publish_all]. rewrite length_app in Hl1. cbn [length] in Hl1. rewrite publish_row by (done || lia). cbn [mbind option_bind].
      rewrite (cons_middle x l1 l2), app_assoc. apply IH; [|done]. rewrite !length_app. cbn. lia. }
    exact (H l [] ltac:(cbn; lia) HF).
  - destruct (weight_nonneg now l HF) as [Hw0 Hk0]. unfold avg_of_row, avg_totals. cbn [avg_slots published_row].
    rewrite avg_totals_eq by (done || unfold U64_MOD; lia). rewrite !Z.add_0_l.
    assert (0 < kernels l). { destruct l as [|x l]; [cbn in Hl; lia|]. apply Forall_cons in HF as [(Hx & _) HF].
      destruct (weight_nonneg now l HF). cbn. lia. }
    rewrite (proj2 (Z.eqb_neq (kernels l) 0)) by lia.
    pose proof (Z.div_le_upper_bound (weight l) (kernels l) (weight l)). pose proof (Z.div_pos (weight l) (kernels l)).
    unfold i64. rewrite Z.mod_small; unfold INT64_MIN, U64_MOD; nia.
Qed.

Lemma stats_average_weighted_witness :
  exists r, publish_all [Published 10 3 500; Published 40 1 600] zero_row = Some r ∧ avg_of_row 1000 (avg_slots r) = 17.
Proof.
  apply (stats_average_weighted [Published 10 3 500; Published 40 1 600] 1000).
  - cbn. lia.
  - repeat constructor; cbn; unfold VNPU_STATS_AVG_STALE_NS, VNPU_STATS_WINDOW_NS; lia.
  - reflexivity.
  - reflexivity.
Defined.

(** A fault: when the driver does not give the kernels of a graph,
    [get_kernel_count] returns -1 and the sample is recorded with it.  The
    average of the samples then has the count [2^64 - 1], which is published;
    with the 10 ns of another process the average of the vNPU becomes 0. *)
Theorem stats_failed_count_published :
  get_kernel_count None None = -1 ∧
  (let '(_, l) := add_sample_record true (get_kernel_count None None) 5000 900 (Some []) in
   let '(_, avg, n) := get_ker_ave_exec_time 1000 l in
   avg = 0 ∧ n = UINT64_MAX ∧
   (r ← publish_all [Published 10 1 1000; Published avg n 1000] zero_row; Some (avg_of_row 1000 (avg_slots r))) = Some 0) ∧
  (r ← publish_all [Published 10 1 1000] zero_row; Some (avg_of_row 1000 (avg_slots r))) = Some 10.
Proof. vm_compute. repeat split. Qed.

(** * Samples *)

Definition in_period (now : Z) (r : sample_record) : bool := now - timestamp r <=? INVALID_SAMPLE_PERIOD.

(** The records are prepended as time goes on. *)
Definition newest_first (l : list sample_record) : Prop := StronglySorted (fun x y => timestamp y <= timestamp x) l.

Fixpoint sample_times (l : list sample_record) : Z := match l with [] => 0 | r :: l => sample_time r + sample_times l end.
Fixpoint sample_counts (l : list sample_record) : Z := match l with [] => 0 | r :: l => kernel_count r + sample_counts l end.

Definition samples_ok (now : Z) (l : list sample_record) : Prop :=
  newest_first l ∧ Forall (fun r => 0 <= timestamp r <= now ∧ 0 <= sample_time r ∧ 0 < kernel_count r) l ∧
  now < U64_MOD ∧ sample_times l < U64_MOD ∧ sample_counts l < I32_HALF.

Lemma filter_none {A} (f : A -> bool) (l : list A) : (forall x, x ∈ l -> f x = false) -> filter (fun x => f x = true) l = [].
Proof.
  intros H. induction l as [|x l IH]; [done|]. rewrite filter_cons, decide_False.
  - apply IH. intros y Hy. apply H. by right.
  - rewrite (H x ltac:(left)). done.
Qed.

Lemma old_records now r l : StronglySorted (fun x y => timestamp y <= timestamp x) (r :: l) -> in_period now r = false ->
  forall x, x ∈ l -> in_period now x = false.
Proof.
  intros [_ HF]%StronglySorted_inv Hr x Hx. rewrite Forall_forall in HF. specialize (HF x Hx).
  unfold in_period in *. apply Z.leb_gt in Hr. apply Z.leb_gt. lia.
Qed.

Lemma sum_records_eq now l : forall t c,
  newest_first l -> Forall (fun r => 0 <= timestamp r <= now ∧ 0 <= sample_time r ∧ 0 < kernel_count r) l -> now < U64_MOD ->
  0 <= t -> 0 <= c -> t + sample_times l < U64_MOD -> c + sample_counts l < I32_HALF ->
  let kept := filter (fun r => in_period now r = true) l in
  sum_records now l t c = (kept, t + sample_times kept, c + sample_counts kept).
Proof.
  cbn zeta. induction l as [|r l IH]; intros t c Ho HF Hn Ht Hc Hb1 Hb2; [cbn; by rewrite !Z.add_0_r|].
  pose proof HF as HF0. apply Forall_cons in HF as [(H1 & H2 & H3) HF].
  assert (Hnn : 0 <= sample_times l ∧ 0 <= sample_counts l).
  { clear -HF. induction HF as [|x l (_ & ? & ?) HF IH]; cbn; lia. }
  cbn [sum_records sample_times sample_counts] in *. rewrite u64_small by (unfold is_u64; lia).
  change (now - timestamp r <=? INVALID_SAMPLE_PERIOD) with (in_period now r). rewrite filter_cons.
  destruct (in_period now r) eqn:E.
  - rewrite decide_True by done. rewrite u64_small, i32_small by (unfold is_u64, is_i32; lia).
    rewrite IH; try done; try lia; [|by apply StronglySorted_inv in Ho as [Ho _]]. cbn. f_equal; [f_equal|]; lia.
  - rewrite decide_False by done. rewrite (filter_none _ l (old_records now r l Ho E)). cbn. by rewrite !Z.add_0_r.
Qed.

(** The average kernel time is that of the samples of the last second: the
    sum of their times over the number of their kernels.  The samples it
    drops are older, so that an average at a later time is the same as if none
    had been dropped. *)
Theorem stats_samples_average l now later :
  samples_ok now l -> now <= later < U64_MOD ->
  let kept := filter (fun r => in_period now r = true) l in
  get_ker_ave_exec_time now (Some l) =
    (Some kept, if sample_counts kept =? 0 then 0 else sample_times kept / sample_counts kept, sample_counts kept) ∧
  get_ker_ave_exec_time later (Some kept) = get_ker_ave_exec_time later (Some l).
Proof.
  intros (Ho & HF & Hn & Hb1 & Hb2) Hl. cbn zeta. set (kept := filter _ l).
  assert (Hk : newest_first kept ∧ Forall (fun r => 0 <= timestamp r <= now ∧ 0 <= sample_time r ∧ 0 < kernel_count r) kept ∧
    0 <= sample_times kept <= sample_times l ∧ 0 <= sample_counts kept <= sample_counts l).
  { subst kept. clear Hb1 Hb2. induction l as [|r l IH]; [cbn; repeat split; try done; lia|].
    pose proof Ho as Ho0. apply StronglySorted_inv in Ho as [Ho Hr]. apply Forall_cons in HF as [H1 HF].
    destruct (IH Ho HF) as (I1 & I2 & I3 & I4). rewrite filter_cons. case_decide; cbn.
    - split; [|split; [by constructor|lia]]. constructor; [done|]. rewrite Forall_forall in Hr |- *.
      intros x [_ Hx]%list_elem_of_filter. by apply Hr.
    - split; [done|split; [done|lia]]. }
  destruct Hk as (Ko & KF & K1 & K2). split.
  - unfold get_ker_ave_exec_time. rewrite sum_records_eq by (done || lia). fold kept. rewrite !Z.add_0_l.
    rewrite (u64_small (sample_counts kept)) by (unfold is_u64, U64_MOD, I32_HALF in *; lia). done.
  - assert (HL : forall x, Forall (fun r => 0 <= timestamp r <= now ∧ 0 <= sample_time r ∧ 0 < kernel_count r) x ->
      Forall (fun r => 0 <= timestamp r <= later ∧ 0 <= sample_time r ∧ 0 < kernel_count r) x).
    { intros x Hx. eapply Forall_impl; [exact Hx|]. intros r Hr. cbn beta in *. lia. }
    unfold get_ker_ave_exec_time. rewrite !sum_records_eq by (try apply HL; done || lia).
    replace (filter (fun r => in_period later r = true) kept) with (filter (fun r => in_period later r = true) l); [done|].
    subst kept. clear -Hl. induction l as [|r l IH]; [done|]. rewrite !(filter_cons _ r l).
    destruct (in_period now r) eqn:E.
    + rewrite (decide_True _ _ eq_refl), filter_cons. case_decide; by rewrite IH.
    + rewrite (decide_False (P := false = true)) by done. rewrite decide_False; [done|].
      unfold in_period in *. apply Z.leb_gt in E. intros ?%Z.leb_le. lia.
Qed.

Lemma stats_samples_average_witness :
  get_ker_ave_exec_time 2000000000 (Some [SampleRecord 3 900 1900000000; SampleRecord 1 100 1500000000; SampleRecord 9 9 500000000]) =
  (Some [SampleRecord 3 900 1900000000; SampleRecord 1 100 1500000000], 250, 4).
Proof.
  destruct (stats_samples_average [SampleRecord 3 900 1900000000; SampleRecord 1 100 1500000000; SampleRecord 9 9 500000000]
    2000000000 2000000000) as [H _].
  - split; [repeat constructor; cbn; lia|]. split; [repeat constructor; cbn; lia|]. unfold U64_MOD, I32_HALF. cbn. lia.
  - unfold U64_MOD. lia.
  - rewrite H. vm_compute. reflexivity.
Defined.

(** ** The protocol of a sample *)

(** A launch that is sampled, with the answers of the driver at its begin and
    at its end, and the end of the thread that waits for the kernel. *)
Inductive sampler_op :=
  | SampleLaunch (d1 d2 : driver_answers) (stm n : Z)
  | SampleDone (malloc_ok : bool) (time now : Z).

Definition sampler_do (o : sampler_op) (s : sampler) : sampler :=
  match o with
  | SampleLaunch d1 d2 stm n => sampling_end d2 n (sampling_begin d1 stm s)
  | SampleDone ok time now => if sync_running s then sample_sync ok time now s else s
  end.

Definition sampler_start : sampler := Sampler false false false 0 0 0 0 [] false (Some []).

Definition sampler_run (l : list sampler_op) : sampler := foldl (fun s o => sampler_do o s) sampler_start l.

Definition sampler_ok (s : sampler) : Prop :=
  sampling_locked s = false ∧ g_sampling s = false ∧ g_sample_flag s = sync_running s ∧
  live_events s = if sync_running s then [g_sample_end_event s; g_sample_start_event s] else [].

Lemma destroy_two e1 e2 : destroy_event e1 (destroy_event e2 [e1; e2]) = [].
Proof.
  cbn. destruct (Z.eqb_spec e1 e2) as [->|]; cbn; [by rewrite Z.eqb_refl|]. rewrite Z.eqb_refl. cbn. by rewrite Z.eqb_refl.
Qed.

Lemma sampler_do_ok o s : sampler_ok s -> sampler_ok (sampler_do o s).
Proof.
  intros (H1 & H2 & H3 & H4). destruct s as [lk g fl es ee st n live run recs]. cbn in *. subst. destruct o as [d1 d2 stm k|ok time t]; cbn.
  - unfold sampling_end, sampling_begin, record_event_time. cbn.
    destruct (capture_status d1) as [[]|]; cbn; [done| |done]. destruct run; cbn; [done|].
    destruct (new_event d1) as [e|]; cbn; [|done]. destruct (record_ok d1); cbn; [|by rewrite Z.eqb_refl].
    destruct (new_event d2) as [e2|]; cbn; [|by rewrite Z.eqb_refl].
    pose proof (destroy_two e2 e) as Hd. cbn in Hd. destruct (record_ok d2); cbn; [|by rewrite Hd].
    destruct (thread_ok d2); cbn; [done|by rewrite Hd].
  - destruct run; [|done]. unfold sample_sync, sampler_ok. cbn. pose proof (destroy_two ee es) as Hd. cbn in Hd. by rewrite Hd.
Qed.

(** Sampling never leaks or stalls: whatever the driver answers, after a
    sampled launch the mutex is free and no sample is in the making; one
    sample at most is being waited for; and no event exists but the two of
    that sample. *)
Theorem stats_sampling_protocol l :
  let s := sampler_run l in
  sampling_locked s = false ∧ g_sampling s = false ∧ g_sample_flag s = sync_running s ∧
  live_events s = if sync_running s then [g_sample_end_event s; g_sample_start_event s] else [].
Proof.
  cbn zeta. unfold sampler_run. assert (H : sampler_ok sampler_start) by done. revert H. generalize sampler_start.
  induction l as [|o l IH]; intros s H; [exact H|]. cbn [foldl]. by apply IH, sampler_do_ok.
Qed.
