(* ===== verification/RtHooks.v ===== *)
(** The hooks of the runtime on the functions of the driver
    (vcann-rt/src/ascend: kernel.c, task.c, graph.c, event.c, hook.c).

    The program calls these functions in place of those of the driver.  A hook
    is a function on the state of the process that returns the code of the
    call.  The driver is a function of what has happened before, the name of
    the function and its arguments: it answers the code and the value it
    writes through a pointer.  Hooks of the same shape are instances of one
    definition, with the name, the arguments and the stream of their own. *)

From S2P Require Import Prelude HashMap RtStreams.

Definition ACL_RT_SUCCESS : Z := 0.

(** What a process does that can be seen from outside; a call of the driver
    with the value of [hasModelExecuteSync] at the call. *)
Inductive rt_event :=
  | Limiter (stm : Z)
  | DriverCall (name : string) (args : list Z) (syncs : Z)
  | SamplingBegin (stm : Z)
  | SamplingEnd (stm : Z)
  | SamplingGraphEnd (stm mdl : Z)
  | SampleAdded (mdl : Z).

Record rt_proc := RtProc {
  history : list rt_event;
  strm : rt_streams;
  stat : rt_stats;
  hasModelExecuteSync : Z;
}.

(** What is outside of the process: its configuration, the random choice of
    the launches to sample, the driver and the allocator. *)
Record rt_env := RtEnv {
  is_core_limit : bool;
  impl_hook_enable : bool;
  aicore_num : Z;
  is_random_sampling : list rt_event -> bool;
  driver : list rt_event -> string -> list Z -> Z * Z;
  e_alloc : allocs;
}.

Definition hook : Type := rt_proc -> Z * rt_proc.

Definition log (x : rt_event) (s : rt_proc) : rt_proc := RtProc (history s ++ [x]) (strm s) (stat s)
     (hasModelExecuteSync s).
Definition on_streams (f : rt_streams -> rt_streams) (s : rt_proc) : rt_proc :=
  RtProc (history s) (f (strm s)) (stat s) (hasModelExecuteSync s).
Definition on_stats (f : rt_stats -> rt_stats) (s : rt_proc) : rt_proc :=
  RtProc (history s) (strm s) (f (stat s)) (hasModelExecuteSync s).
Definition add_sync (d : Z) (s : rt_proc) : rt_proc :=
  RtProc (history s) (strm s) (stat s) (i32 (hasModelExecuteSync s + d)).

Section hooks.
Context (e : rt_env).

(** * The shapes of the hooks *)

(** [core_limiter] of a process that is not ending: it returns when the launch
    is admitted; under the core limit the stream is cached and [func] called. *)
Definition core_limiter (stm : Z) (func : rt_proc -> rt_proc) (s : rt_proc) : rt_proc :=
  let s1 := log (Limiter stm) s in
  if is_core_limit e then func (on_streams (restore_streams (insert_ok (e_alloc e)) stm) s1) else s1.

(** [RUNTIME_HOOK_CALL]: the code and the value written. *)
Definition call (name : string) (args : list Z) (s : rt_proc) : Z * Z * rt_proc :=
  let '(ret, w) := driver e (history s) name args in
  (ret, w, log (DriverCall name args (hasModelExecuteSync s)) s).

(** The functions of the acl interface are hooked only where they exist. *)
Definition hook_of (impl : bool) (name : string) (args : list Z) (body : hook) : hook := fun s =>
  if impl && negb (impl_hook_enable e) then let '(ret, _, s1) := call name args s in (ret, s1) else body s.

Definition dispatch (stm dim : Z) (s : rt_proc) : rt_proc :=
  on_stats (launch_stats_dispatch (e_alloc e) (stream_is_capturing stm (strm s)) stm dim) s.

(** A launch of a kernel or a task. *)
Definition launch_hook (impl : bool) (name : string) (args : list Z) (stm dim : Z) : hook :=
  hook_of impl name args (fun s =>
    let s1 := dispatch stm dim (core_limiter stm id s) in
    if is_random_sampling e (history s1) then
      let '(ret, _, s2) := call name args (log (SamplingBegin stm) s1) in (ret, log (SamplingEnd stm) s2)
    else let '(ret, _, s2) := call name args s1 in (ret, s2)).

(** A call that opens or closes a task group, followed by [after] with the
    value written when the driver succeeds. *)
Definition task_hook (impl : bool) (name : string) (args : list Z) (stm : Z) (after : Z -> rt_stats -> rt_stats) : hook :=
  hook_of impl name args (fun s =>
    let '(ret, w, s1) := call name args (core_limiter stm id s) in
    (ret, if ret =? ACL_RT_SUCCESS then on_stats (after w) s1 else s1)).

(** The execution of a graph on a stream. *)
Definition model_async_hook (impl : bool) (name : string) (args : list Z) (stm mdl : Z) : hook :=
  hook_of impl name args (fun s =>
    let s1 := on_stats (record_model_execute_stats mdl) (core_limiter stm id s) in
    if is_random_sampling e (history s1) then
      let '(ret, _, s2) := call name args (log (SamplingBegin stm) s1) in (ret, log (SamplingGraphEnd stm mdl) s2)
    else let '(ret, _, s2) := call name args s1 in (ret, s2)).

(** [tracked]: [track_sync_model] was called by the limiter. *)
Definition untrack (s : rt_proc) : rt_proc := if is_core_limit e then add_sync (-1) s else s.

(** The execution of a graph that waits for its end. *)
Definition model_sync_hook (impl : bool) (name : string) (args : list Z) (mdl : Z) : hook :=
  hook_of impl name args (fun s =>
    let s1 := on_stats (record_model_execute_stats mdl) (core_limiter 0 (add_sync 1) s) in
    if is_random_sampling e (history s1) then
      let '(ret, _, s2) := call name args s1 in (ret, untrack (log (SampleAdded mdl) s2))
    else let '(ret, _, s2) := call name args s1 in (ret, untrack s2)).

Definition model_sync_stream_hook (impl : bool) (name : string) (args : list Z) (stm mdl : Z) : hook :=
  hook_of impl name args (fun s =>
    let s1 := on_stats (record_model_execute_stats mdl) (core_limiter stm (add_sync 1) s) in
    if is_random_sampling e (history s1) then
      let '(ret, _, s2) := call name args (log (SamplingBegin stm) s1) in (ret, untrack (log (SamplingGraphEnd stm
     mdl) s2))
    else let '(ret, _, s2) := call name args s1 in (ret, untrack s2)).

Definition begin_capture_hook (impl : bool) (name : string) (args : list Z) (stm : Z) : hook :=
  hook_of impl name args (fun s =>
    let '(ret, _, s1) := call name args (core_limiter stm (on_streams (set_stream_capture (insert_ok (e_alloc e))
     true stm)) s) in
    (ret, s1)).

(** [mdl] is the pointer the driver writes the model to. *)
Definition end_capture_hook (impl : bool) (name : string) (args : list Z) (stm mdl : Z) : hook :=
  hook_of impl name args (fun s =>
    let '(ret, w, s1) := call name args (core_limiter stm id s) in
    (ret,
     if (ret =? ACL_RT_SUCCESS) && is_core_limit e then
       let s2 := on_streams (set_stream_capture (insert_ok (e_alloc e)) false stm) s1 in
       if (mdl =? 0) || (w =? 0) then s2 else on_stats (fun x => (capture_stats_transfer_to_model (e_alloc e) stm w
     x).2) s2
     else s1)).

Definition destroy_stream_hook (impl : bool) (name : string) (args : list Z) (stm : Z) : hook :=
  hook_of impl name args (fun s =>
    let '(ret, _, s1) := call name args (core_limiter stm (on_streams (remove_stream stm)) s) in (ret, s1)).

(** A call on an event or a notify: [after] with the value written when the
    driver succeeds. *)
Definition event_hook (impl : bool) (name : string) (args : list Z) (after : Z -> rt_streams -> rt_streams) : hook :=
  hook_of impl name args (fun s =>
    let '(ret, w, s1) := call name args s in
    (ret, if (ret =? ACL_RT_SUCCESS) && is_core_limit e then on_streams (after w) s1 else s1)).

Definition event_created (w : Z) : rt_streams -> rt_streams := set_event_create_status (insert_ok (e_alloc e)) w.
Definition event_destroyed (evt _w : Z) : rt_streams -> rt_streams := set_event_destroy_status evt.
Definition recorded_on (evt stm _w : Z) (s : rt_streams) : rt_streams :=
  set_event_record_status (insert_ok (e_alloc e)) evt stm (add_stream (insert_ok (e_alloc e)) stm s).
Definition waited_on (evt stm _w : Z) (s : rt_streams) : rt_streams :=
  set_event_wait_status (insert_ok (e_alloc e)) evt stm (add_stream (insert_ok (e_alloc e)) stm s).

(** * Kernels (ascend/kernel.c) *)

Definition rtKernelLaunch (stubFunc blockDim args argsSize smDesc stm : Z) : hook :=
  launch_hook false "rtKernelLaunch" [stubFunc; blockDim; args; argsSize; smDesc; stm] stm blockDim.

Definition rtKernelLaunchWithHandle (hdl tilingKey blockDim argsInfo smDesc stm kernelInfo : Z) : hook :=
  launch_hook false "rtKernelLaunchWithHandle" [hdl; tilingKey; blockDim; argsInfo; smDesc; stm; kernelInfo] stm blockDim.

Definition rtKernelLaunchWithHandleV2 (hdl tilingKey blockDim argsInfo smDesc stm cfgInfo : Z) : hook :=
  launch_hook false "rtKernelLaunchWithHandleV2" [hdl; tilingKey; blockDim; argsInfo; smDesc; stm; cfgInfo] stm blockDim.

Definition rtKernelLaunchWithFlag (stubFunc blockDim argsInfo smDesc stm flags : Z) : hook :=
  launch_hook false "rtKernelLaunchWithFlag" [stubFunc; blockDim; argsInfo; smDesc; stm; flags] stm blockDim.

Definition rtKernelLaunchWithFlagV2 (stubFunc blockDim argsInfo smDesc stm flags cfgInfo : Z) : hook :=
  launch_hook false "rtKernelLaunchWithFlagV2" [stubFunc; blockDim; argsInfo; smDesc; stm; flags; cfgInfo] stm blockDim.

Definition rtKernelLaunchEx (args argsSize flags stm : Z) : hook :=
  launch_hook false "rtKernelLaunchEx" [args; argsSize; flags; stm] stm (aicore_num e).

Definition rtKernelLaunchFwk (opName args argsSize flags rtStream : Z) : hook :=
  launch_hook false "rtKernelLaunchFwk" [opName; args; argsSize; flags; rtStream] rtStream (aicore_num e).

Definition rtCpuKernelLaunchWithFlag (soName kernelName blockDim argsInfo smDesc stm flags : Z) : hook :=
  launch_hook false "rtCpuKernelLaunchWithFlag" [soName; kernelName; blockDim; argsInfo; smDesc; stm; flags] stm blockDim.

Definition rtAicpuKernelLaunchWithFlag (launchNames blockDim argsInfo smDesc stm flags : Z) : hook :=
  launch_hook false "rtAicpuKernelLaunchWithFlag" [launchNames; blockDim; argsInfo; smDesc; stm; flags] stm blockDim.

Definition rtAicpuKernelLaunchExWithArgs (kernelType opName blockDim argsInfo smDesc stm flags : Z) : hook :=
  launch_hook false "rtAicpuKernelLaunchExWithArgs" [kernelType; opName; blockDim; argsInfo; smDesc; stm; flags]
    stm blockDim.

Definition rtLaunchKernelByFuncHandle (funcHandle blockDim argsHandle stm : Z) : hook :=
  launch_hook false "rtLaunchKernelByFuncHandle" [funcHandle; blockDim; argsHandle; stm] stm blockDim.

Definition rtLaunchKernelByFuncHandleV2 (funcHandle blockDim argsHandle stm cfgInfo : Z) : hook :=
  launch_hook false "rtLaunchKernelByFuncHandleV2" [funcHandle; blockDim; argsHandle; stm; cfgInfo] stm blockDim.

Definition rtLaunchKernelByFuncHandleV3 (funcHandle blockDim argsInfo stm cfgInfo : Z) : hook :=
  launch_hook false "rtLaunchKernelByFuncHandleV3" [funcHandle; blockDim; argsInfo; stm; cfgInfo] stm blockDim.

Definition aclrtLaunchKernelImpl (funcHandle numBlocks argsData argsSize stream : Z) : hook :=
  launch_hook true "aclrtLaunchKernelImpl" [funcHandle; numBlocks; argsData; argsSize; stream] stream numBlocks.

Definition rtVectorCoreKernelLaunchWithHandle (hdl tilingKey blockDim argsInfo smDesc stm cfgInfo : Z) : hook :=
  launch_hook false "rtVectorCoreKernelLaunchWithHandle" [hdl; tilingKey; blockDim; argsInfo; smDesc; stm; cfgInfo]
    stm blockDim.

Definition rtVectorCoreKernelLaunch (stubFunc blockDim argsInfo smDesc stm flags cfgInfo : Z) : hook :=
  launch_hook false "rtVectorCoreKernelLaunch" [stubFunc; blockDim; argsInfo; smDesc; stm; flags; cfgInfo] stm blockDim.

Definition rtsLaunchKernelWithHostArgs (funcHandle numBlocks stm cfg hostArgs argsSize placeHolderArray
     placeHolderNum : Z) : hook :=
  launch_hook false "rtsLaunchKernelWithHostArgs" [funcHandle; numBlocks; stm; cfg; hostArgs; argsSize;
     placeHolderArray; placeHolderNum]
    stm numBlocks.

Definition aclrtLaunchKernelWithHostArgsImpl (funcHandle numBlocks stream cfg hostArgs argsSize placeHolderArray
     placeHolderNum : Z) : hook :=
  launch_hook true "aclrtLaunchKernelWithHostArgsImpl" [funcHandle; numBlocks; stream; cfg; hostArgs; argsSize;
     placeHolderArray; placeHolderNum]
    stream numBlocks.

Definition rtsLaunchKernelWithConfig (funcHandle numBlocks stm cfg argsHandle reserve : Z) : hook :=
  launch_hook false "rtsLaunchKernelWithConfig" [funcHandle; numBlocks; stm; cfg; argsHandle; reserve] stm numBlocks.

Definition aclrtLaunchKernelWithConfigImpl (funcHandle numBlocks stream cfg argsHandle reserve : Z) : hook :=
  launch_hook true "aclrtLaunchKernelWithConfigImpl" [funcHandle; numBlocks; stream; cfg; argsHandle; reserve]
    stream numBlocks.

Definition rtsLaunchKernelWithDevArgs (funcHandle numBlocks stm cfg args argsSize reserve : Z) : hook :=
  launch_hook false "rtsLaunchKernelWithDevArgs" [funcHandle; numBlocks; stm; cfg; args; argsSize; reserve] stm numBlocks.

Definition aclrtLaunchKernelV2Impl (funcHandle numBlocks argsData argsSize cfg stream : Z) : hook :=
  launch_hook true "aclrtLaunchKernelV2Impl" [funcHandle; numBlocks; argsData; argsSize; cfg; stream] stream numBlocks.

Definition rtsLaunchRandomNumTask (taskInfo stm reserve : Z) : hook :=
  launch_hook false "rtsLaunchRandomNumTask" [taskInfo; stm; reserve] stm (aicore_num e).

Definition aclrtRandomNumAsyncImpl (taskInfo stream reserve : Z) : hook :=
  launch_hook true "aclrtRandomNumAsyncImpl" [taskInfo; stream; reserve] stream (aicore_num e).

Definition rtsLaunchReduceAsyncTask (reduceInfo stm reserve : Z) : hook :=
  launch_hook false "rtsLaunchReduceAsyncTask" [reduceInfo; stm; reserve] stm (aicore_num e).

Definition aclrtReduceAsyncImpl (dst src count kind type_ stream reserve : Z) : hook :=
  launch_hook true "aclrtReduceAsyncImpl" [dst; src; count; kind; type_; stream; reserve] stream (aicore_num e).

Definition rtsLaunchUpdateTask (destStm destTaskId stm cfg : Z) : hook :=
  launch_hook false "rtsLaunchUpdateTask" [destStm; destTaskId; stm; cfg] stm (aicore_num e).

Definition aclrtTaskUpdateAsyncImpl (taskStream taskId info execStream : Z) : hook :=
  launch_hook true "aclrtTaskUpdateAsyncImpl" [taskStream; taskId; info; execStream] execStream (aicore_num e).

Definition rtLaunchKernelWithArgsArray (func numBlocks stm cfg args : Z) : hook :=
  launch_hook false "rtLaunchKernelWithArgsArray" [func; numBlocks; stm; cfg; args] stm numBlocks.

Definition aclrtLaunchKernelWithArgsArrayImpl (func numBlocks stream cfg args : Z) : hook :=
  launch_hook true "aclrtLaunchKernelWithArgsArrayImpl" [func; numBlocks; stream; cfg; args] stream numBlocks.

Definition rtLaunchSIMTKernelWithHostArgs (func gridDim blockDim dynUbufSize stm cfg hostArgs argsSize
     placeHolderArray placeHolderNum : Z) : hook :=
  launch_hook false "rtLaunchSIMTKernelWithHostArgs" [func; gridDim; blockDim; dynUbufSize; stm; cfg; hostArgs;
     argsSize; placeHolderArray; placeHolderNum]
    stm (aicore_num e).

Definition aclrtLaunchSIMTKernelWithHostArgsImpl (func gridDim blockDim dynUbufSize stream cfg hostArgs argsSize
     placeHolderArray placeHolderNum : Z) : hook :=
  launch_hook true "aclrtLaunchSIMTKernelWithHostArgsImpl" [func; gridDim; blockDim; dynUbufSize; stream; cfg;
     hostArgs; argsSize; placeHolderArray; placeHolderNum]
    stream (aicore_num e).

Definition rtLaunchSIMTKernelWithArgsArray (func gridDim blockDim dynUbufSize stm cfg args : Z) : hook :=
  launch_hook false "rtLaunchSIMTKernelWithArgsArray" [func; gridDim; blockDim; dynUbufSize; stm; cfg; args]
    stm (aicore_num e).

Definition aclrtLaunchSIMTKernelWithArgsArrayImpl (func gridDim blockDim dynUbufSize stream cfg args : Z) : hook :=
  launch_hook true "aclrtLaunchSIMTKernelWithArgsArrayImpl" [func; gridDim; blockDim; dynUbufSize; stream; cfg; args]
    stream (aicore_num e).

(** * Tasks and task groups (ascend/task.c) *)

Definition rtFftsPlusTaskLaunch (fftsPlusTaskInfo stm : Z) : hook :=
  launch_hook false "rtFftsPlusTaskLaunch" [fftsPlusTaskInfo; stm] stm (aicore_num e).

Definition rtFftsPlusTaskLaunchWithFlag (fftsPlusTaskInfo stm flag : Z) : hook :=
  launch_hook false "rtFftsPlusTaskLaunchWithFlag" [fftsPlusTaskInfo; stm; flag] stm (aicore_num e).

Definition rtStarsTaskLaunch (taskSqe sqeLen stm : Z) : hook :=
  launch_hook false "rtStarsTaskLaunch" [taskSqe; sqeLen; stm] stm (aicore_num e).

Definition rtStarsTaskLaunchWithFlag (taskSqe sqeLen stm flag : Z) : hook :=
  launch_hook false "rtStarsTaskLaunchWithFlag" [taskSqe; sqeLen; stm; flag] stm (aicore_num e).

Definition rtMultipleTaskInfoLaunch (taskInfo stm : Z) : hook :=
  launch_hook false "rtMultipleTaskInfoLaunch" [taskInfo; stm] stm (aicore_num e).

Definition rtsStreamBeginTaskGrp (stm : Z) : hook :=
  task_hook false "rtsStreamBeginTaskGrp" [stm] stm (fun _ => task_grp_begin (e_alloc e) stm).

Definition aclmdlRICaptureTaskGrpBeginImpl (stream : Z) : hook :=
  task_hook true "aclmdlRICaptureTaskGrpBeginImpl" [stream] stream (fun _ => task_grp_begin (e_alloc e) stream).

Definition rtsStreamEndTaskGrp (stm handle : Z) : hook :=
  task_hook false "rtsStreamEndTaskGrp" [stm; handle]
    stm (fun w => if (handle =? 0) || (w =? 0) then id else task_grp_end (e_alloc e) stm w).

Definition aclmdlRICaptureTaskGrpEndImpl (stream handle : Z) : hook :=
  task_hook true "aclmdlRICaptureTaskGrpEndImpl" [stream; handle]
    stream (fun w => if (handle =? 0) || (w =? 0) then id else task_grp_end (e_alloc e) stream w).

Definition rtsStreamBeginTaskUpdate (stm handle : Z) : hook :=
  task_hook false "rtsStreamBeginTaskUpdate" [stm; handle] stm (fun _ => task_update_begin (e_alloc e) stm handle).

Definition aclmdlRICaptureTaskUpdateBeginImpl (stream handle : Z) : hook :=
  task_hook true "aclmdlRICaptureTaskUpdateBeginImpl" [stream; handle]
    stream (fun _ => task_update_begin (e_alloc e) stream handle).

Definition rtsStreamEndTaskUpdate (stm : Z) : hook :=
  task_hook false "rtsStreamEndTaskUpdate" [stm] stm (fun _ => task_update_end (e_alloc e) stm).

Definition aclmdlRICaptureTaskUpdateEndImpl (stream : Z) : hook :=
  task_hook true "aclmdlRICaptureTaskUpdateEndImpl" [stream] stream (fun _ => task_update_end (e_alloc e) stream).

(** * Graphs (ascend/graph.c) *)

Definition rtModelExecute (mdl stm flag : Z) : hook :=
  model_async_hook false "rtModelExecute" [mdl; stm; flag] stm mdl.

Definition aclmdlRIExecuteAsyncImpl (modelRI stream : Z) : hook :=
  model_async_hook true "aclmdlRIExecuteAsyncImpl" [modelRI; stream] stream modelRI.

Definition rtModelExecuteAsync (mdl stm flag : Z) : hook :=
  model_async_hook false "rtModelExecuteAsync" [mdl; stm; flag] stm mdl.

Definition rtsModelExecute (mdl timeout : Z) : hook := model_sync_hook false "rtsModelExecute" [mdl; timeout] mdl.

Definition aclmdlRIExecuteImpl (modelRI timeout : Z) : hook :=
  model_sync_hook true "aclmdlRIExecuteImpl" [modelRI; timeout] modelRI.

Definition rtModelExecuteSync (mdl stm flag timeout : Z) : hook :=
  model_sync_stream_hook false "rtModelExecuteSync" [mdl; stm; flag; timeout] stm mdl.

Definition rtStreamBeginCapture (stm mode : Z) : hook :=
  begin_capture_hook false "rtStreamBeginCapture" [stm; mode] stm.

Definition aclmdlRICaptureBeginImpl (stream mode : Z) : hook :=
  begin_capture_hook true "aclmdlRICaptureBeginImpl" [stream; mode] stream.

Definition rtStreamEndCapture (stm captureMdl : Z) : hook :=
  end_capture_hook false "rtStreamEndCapture" [stm; captureMdl] stm captureMdl.

Definition aclmdlRICaptureEndImpl (stream modelRI : Z) : hook :=
  end_capture_hook true "aclmdlRICaptureEndImpl" [stream; modelRI] stream modelRI.

Definition rtsModelExecuteAsync (mdl stm : Z) : hook :=
  model_async_hook false "rtsModelExecuteAsync" [mdl; stm] stm mdl.

(** * Events, notifies and streams (ascend/event.c) *)

Definition rtEventCreate (evt : Z) : hook := event_hook false "rtEventCreate" [evt] event_created.

Definition aclrtCreateEventImpl (event : Z) : hook := event_hook true "aclrtCreateEventImpl" [event] event_created.

Definition rtsEventCreate (evt flag : Z) : hook := event_hook false "rtsEventCreate" [evt; flag] event_created.

Definition rtsEventCreateEx (evt flag : Z) : hook := event_hook false "rtsEventCreateEx" [evt; flag] event_created.

Definition rtEventCreateWithFlag (evt flag : Z) : hook :=
  event_hook false "rtEventCreateWithFlag" [evt; flag] event_created.

Definition aclrtCreateEventWithFlagImpl (event flag : Z) : hook :=
  event_hook true "aclrtCreateEventWithFlagImpl" [event; flag] event_created.

Definition rtEventCreateExWithFlag (evt flag : Z) : hook :=
  event_hook false "rtEventCreateExWithFlag" [evt; flag] event_created.

Definition aclrtCreateEventExWithFlagImpl (event flag : Z) : hook :=
  event_hook true "aclrtCreateEventExWithFlagImpl" [event; flag] event_created.

Definition rtStreamWaitEvent (stm evt : Z) : hook :=
  event_hook false "rtStreamWaitEvent" [stm; evt] (waited_on evt stm).

Definition aclrtStreamWaitEventImpl (stream event : Z) : hook :=
  event_hook true "aclrtStreamWaitEventImpl" [stream; event] (waited_on event stream).

Definition rtEventRecord (evt stm : Z) : hook := event_hook false "rtEventRecord" [evt; stm] (recorded_on evt stm).

Definition aclrtRecordEventImpl (event stream : Z) : hook :=
  event_hook true "aclrtRecordEventImpl" [event; stream] (recorded_on event stream).

Definition aclrtRecordEventWithFlagImpl (event stream flag : Z) : hook :=
  event_hook true "aclrtRecordEventWithFlagImpl" [event; stream; flag] (recorded_on event stream).

Definition rtEventDestroy (evt : Z) : hook := event_hook false "rtEventDestroy" [evt] (event_destroyed evt).

Definition aclrtDestroyEventImpl (event : Z) : hook :=
  event_hook true "aclrtDestroyEventImpl" [event] (event_destroyed event).

Definition rtStreamDestroy (stm : Z) : hook := destroy_stream_hook false "rtStreamDestroy" [stm] stm.

Definition aclrtDestroyStream (stream : Z) : hook := destroy_stream_hook false "aclrtDestroyStream" [stream] stream.

Definition rtsNotifyCreate (notify flag : Z) : hook := event_hook false "rtsNotifyCreate" [notify; flag] event_created.

Definition aclrtCreateNotifyImpl (notify flag : Z) : hook :=
  event_hook true "aclrtCreateNotifyImpl" [notify; flag] event_created.

Definition rtNotifyRecord (notify stm : Z) : hook :=
  event_hook false "rtNotifyRecord" [notify; stm] (recorded_on notify stm).

Definition rtNotifyDestroy (notify : Z) : hook := event_hook false "rtNotifyDestroy" [notify] (event_destroyed notify).

Definition rtsNotifyWaitAndReset (notify stm timeout : Z) : hook :=
  event_hook false "rtsNotifyWaitAndReset" [notify; stm; timeout] (waited_on notify stm).

Definition aclrtWaitAndResetNotifyImpl (notify stream timeout : Z) : hook :=
  event_hook true "aclrtWaitAndResetNotifyImpl" [notify; stream; timeout] (waited_on notify stream).

Definition rtStreamWaitEventWithTimeout (stm evt timeout : Z) : hook :=
  event_hook false "rtStreamWaitEventWithTimeout" [stm; evt; timeout] (waited_on evt stm).

Definition rtEventDestroySync (evt : Z) : hook := event_hook false "rtEventDestroySync" [evt] (event_destroyed evt).

Definition rtNotifyCreate (deviceId notify : Z) : hook :=
  event_hook false "rtNotifyCreate" [deviceId; notify] event_created.

Definition rtNotifyCreateWithFlag (deviceId notify flag : Z) : hook :=
  event_hook false "rtNotifyCreateWithFlag" [deviceId; notify; flag] event_created.

Definition rtNotifyWait (notify stm : Z) : hook :=
  event_hook false "rtNotifyWait" [notify; stm] (waited_on notify stm).

Definition rtNotifyWaitWithTimeOut (notify stm timeOut : Z) : hook :=
  event_hook false "rtNotifyWaitWithTimeOut" [notify; stm; timeOut] (waited_on notify stm).

Definition rtCntNotifyCreate (deviceId cntNotify : Z) : hook :=
  event_hook false "rtCntNotifyCreate" [deviceId; cntNotify] event_created.

Definition rtCntNotifyCreateWithFlag (deviceId cntNotify flags : Z) : hook :=
  event_hook false "rtCntNotifyCreateWithFlag" [deviceId; cntNotify; flags] event_created.

Definition aclrtCntNotifyCreateImpl (cntNotify flag : Z) : hook :=
  event_hook true "aclrtCntNotifyCreateImpl" [cntNotify; flag] event_created.

Definition rtCntNotifyRecord (inCntNotify stm info : Z) : hook :=
  event_hook false "rtCntNotifyRecord" [inCntNotify; stm; info] (recorded_on inCntNotify stm).

Definition rtCntNotifyWaitWithTimeout (inCntNotify stm info : Z) : hook :=
  event_hook false "rtCntNotifyWaitWithTimeout" [inCntNotify; stm; info] (waited_on inCntNotify stm).

Definition rtCntNotifyDestroy (inCntNotify : Z) : hook :=
  event_hook false "rtCntNotifyDestroy" [inCntNotify] (event_destroyed inCntNotify).

Definition aclrtCntNotifyDestroyImpl (cntNotify : Z) : hook :=
  event_hook true "aclrtCntNotifyDestroyImpl" [cntNotify] (event_destroyed cntNotify).

Definition rtsCntNotifyRecord (cntNotify stm info : Z) : hook :=
  event_hook false "rtsCntNotifyRecord" [cntNotify; stm; info] (recorded_on cntNotify stm).

Definition aclrtCntNotifyRecordImpl (cntNotify stream info : Z) : hook :=
  event_hook true "aclrtCntNotifyRecordImpl" [cntNotify; stream; info] (recorded_on cntNotify stream).

Definition rtsCntNotifyWaitWithTimeout (cntNotify stm info : Z) : hook :=
  event_hook false "rtsCntNotifyWaitWithTimeout" [cntNotify; stm; info] (waited_on cntNotify stm).

Definition aclrtCntNotifyWaitWithTimeoutImpl (cntNotify stream info : Z) : hook :=
  event_hook true "aclrtCntNotifyWaitWithTimeoutImpl" [cntNotify; stream; info] (waited_on cntNotify stream).

(** * The table of the hooks *)

(** A hook by its name, with the number of its arguments. *)
Definition no_hook : hook := fun s => (0, s).

Definition hook_table : list (string * nat * (list Z -> hook)) :=
  [ ("rtKernelLaunch", 6%nat, fun l => match l with [a; b; c; d; e; f] => rtKernelLaunch a b c d e f | _ => no_hook end);
    ("rtKernelLaunchWithHandle", 7%nat, fun l => match l with [a; b; c; d; e; f; g] => rtKernelLaunchWithHandle a b c
     d e f g | _ => no_hook end);
    ("rtKernelLaunchWithHandleV2", 7%nat, fun l => match l with [a; b; c; d; e; f; g] => rtKernelLaunchWithHandleV2 a
     b c d e f g | _ => no_hook end);
    ("rtKernelLaunchWithFlag", 6%nat, fun l => match l with [a; b; c; d; e; f] => rtKernelLaunchWithFlag a b c d e f
     | _ => no_hook end);
    ("rtKernelLaunchWithFlagV2", 7%nat, fun l => match l with [a; b; c; d; e; f; g] => rtKernelLaunchWithFlagV2 a b c
     d e f g | _ => no_hook end);
    ("rtKernelLaunchEx", 4%nat, fun l => match l with [a; b; c; d] => rtKernelLaunchEx a b c d | _ => no_hook end);
    ("rtKernelLaunchFwk", 5%nat, fun l => match l with [a; b; c; d; e] => rtKernelLaunchFwk a b c d e | _ => no_hook end);
    ("rtCpuKernelLaunchWithFlag", 7%nat, fun l => match l with [a; b; c; d; e; f; g] => rtCpuKernelLaunchWithFlag a b
     c d e f g | _ => no_hook end);
    ("rtAicpuKernelLaunchWithFlag", 6%nat, fun l => match l with [a; b; c; d; e; f] => rtAicpuKernelLaunchWithFlag a
     b c d e f | _ => no_hook end);
    ("rtAicpuKernelLaunchExWithArgs", 7%nat, fun l => match l with [a; b; c; d; e; f; g] =>
     rtAicpuKernelLaunchExWithArgs a b c d e f g | _ => no_hook end);
    ("rtLaunchKernelByFuncHandle", 4%nat, fun l => match l with [a; b; c; d] => rtLaunchKernelByFuncHandle a b c d |
     _ => no_hook end);
    ("rtLaunchKernelByFuncHandleV2", 5%nat, fun l => match l with [a; b; c; d; e] => rtLaunchKernelByFuncHandleV2 a b
     c d e | _ => no_hook end);
    ("rtLaunchKernelByFuncHandleV3", 5%nat, fun l => match l with [a; b; c; d; e] => rtLaunchKernelByFuncHandleV3 a b
     c d e | _ => no_hook end);
    ("aclrtLaunchKernelImpl", 5%nat, fun l => match l with [a; b; c; d; e] => aclrtLaunchKernelImpl a b c d e | _ =>
     no_hook end);
    ("rtVectorCoreKernelLaunchWithHandle", 7%nat, fun l => match l with [a; b; c; d; e; f; g] =>
     rtVectorCoreKernelLaunchWithHandle a b c d e f g | _ => no_hook end);
    ("rtVectorCoreKernelLaunch", 7%nat, fun l => match l with [a; b; c; d; e; f; g] => rtVectorCoreKernelLaunch a b c
     d e f g | _ => no_hook end);
    ("rtsLaunchKernelWithHostArgs", 8%nat, fun l => match l with [a; b; c; d; e; f; g; h] =>
     rtsLaunchKernelWithHostArgs a b c d e f g h | _ => no_hook end);
    ("aclrtLaunchKernelWithHostArgsImpl", 8%nat, fun l => match l with [a; b; c; d; e; f; g; h] =>
     aclrtLaunchKernelWithHostArgsImpl a b c d e f g h | _ => no_hook end);
    ("rtsLaunchKernelWithConfig", 6%nat, fun l => match l with [a; b; c; d; e; f] => rtsLaunchKernelWithConfig a b c
     d e f | _ => no_hook end);
    ("aclrtLaunchKernelWithConfigImpl", 6%nat, fun l => match l with [a; b; c; d; e; f] =>
     aclrtLaunchKernelWithConfigImpl a b c d e f | _ => no_hook end);
    ("rtsLaunchKernelWithDevArgs", 7%nat, fun l => match l with [a; b; c; d; e; f; g] => rtsLaunchKernelWithDevArgs a
     b c d e f g | _ => no_hook end);
    ("aclrtLaunchKernelV2Impl", 6%nat, fun l => match l with [a; b; c; d; e; f] => aclrtLaunchKernelV2Impl a b c d e
     f | _ => no_hook end);
    ("rtsLaunchRandomNumTask", 3%nat, fun l => match l with [a; b; c] => rtsLaunchRandomNumTask a b c | _ => no_hook end);
    ("aclrtRandomNumAsyncImpl", 3%nat, fun l => match l with [a; b; c] => aclrtRandomNumAsyncImpl a b c | _ =>
     no_hook end);
    ("rtsLaunchReduceAsyncTask", 3%nat, fun l => match l with [a; b; c] => rtsLaunchReduceAsyncTask a b c | _ =>
     no_hook end);
    ("aclrtReduceAsyncImpl", 7%nat, fun l => match l with [a; b; c; d; e; f; g] => aclrtReduceAsyncImpl a b c d e f g
     | _ => no_hook end);
    ("rtsLaunchUpdateTask", 4%nat, fun l => match l with [a; b; c; d] => rtsLaunchUpdateTask a b c d | _ => no_hook end);
    ("aclrtTaskUpdateAsyncImpl", 4%nat, fun l => match l with [a; b; c; d] => aclrtTaskUpdateAsyncImpl a b c d | _ =>
     no_hook end);
    ("rtLaunchKernelWithArgsArray", 5%nat, fun l => match l with [a; b; c; d; e] => rtLaunchKernelWithArgsArray a b c
     d e | _ => no_hook end);
    ("aclrtLaunchKernelWithArgsArrayImpl", 5%nat, fun l => match l with [a; b; c; d; e] =>
     aclrtLaunchKernelWithArgsArrayImpl a b c d e | _ => no_hook end);
    ("rtLaunchSIMTKernelWithHostArgs", 10%nat, fun l => match l with [a; b; c; d; e; f; g; h; i; j] =>
     rtLaunchSIMTKernelWithHostArgs a b c d e f g h i j | _ => no_hook end);
    ("aclrtLaunchSIMTKernelWithHostArgsImpl", 10%nat, fun l => match l with [a; b; c; d; e; f; g; h; i; j] =>
     aclrtLaunchSIMTKernelWithHostArgsImpl a b c d e f g h i j | _ => no_hook end);
    ("rtLaunchSIMTKernelWithArgsArray", 7%nat, fun l => match l with [a; b; c; d; e; f; g] =>
     rtLaunchSIMTKernelWithArgsArray a b c d e f g | _ => no_hook end);
    ("aclrtLaunchSIMTKernelWithArgsArrayImpl", 7%nat, fun l => match l with [a; b; c; d; e; f; g] =>
     aclrtLaunchSIMTKernelWithArgsArrayImpl a b c d e f g | _ => no_hook end);
    ("rtFftsPlusTaskLaunch", 2%nat, fun l => match l with [a; b] => rtFftsPlusTaskLaunch a b | _ => no_hook end);
    ("rtFftsPlusTaskLaunchWithFlag", 3%nat, fun l => match l with [a; b; c] => rtFftsPlusTaskLaunchWithFlag a b c | _
     => no_hook end);
    ("rtStarsTaskLaunch", 3%nat, fun l => match l with [a; b; c] => rtStarsTaskLaunch a b c | _ => no_hook end);
    ("rtStarsTaskLaunchWithFlag", 4%nat, fun l => match l with [a; b; c; d] => rtStarsTaskLaunchWithFlag a b c d | _
     => no_hook end);
    ("rtMultipleTaskInfoLaunch", 2%nat, fun l => match l with [a; b] => rtMultipleTaskInfoLaunch a b | _ => no_hook end);
    ("rtsStreamBeginTaskGrp", 1%nat, fun l => match l with [a] => rtsStreamBeginTaskGrp a | _ => no_hook end);
    ("aclmdlRICaptureTaskGrpBeginImpl", 1%nat, fun l => match l with [a] => aclmdlRICaptureTaskGrpBeginImpl a | _ =>
     no_hook end);
    ("rtsStreamEndTaskGrp", 2%nat, fun l => match l with [a; b] => rtsStreamEndTaskGrp a b | _ => no_hook end);
    ("aclmdlRICaptureTaskGrpEndImpl", 2%nat, fun l => match l with [a; b] => aclmdlRICaptureTaskGrpEndImpl a b | _ =>
     no_hook end);
    ("rtsStreamBeginTaskUpdate", 2%nat, fun l => match l with [a; b] => rtsStreamBeginTaskUpdate a b | _ => no_hook end);
    ("aclmdlRICaptureTaskUpdateBeginImpl", 2%nat, fun l => match l with [a; b] => aclmdlRICaptureTaskUpdateBeginImpl
     a b | _ => no_hook end);
    ("rtsStreamEndTaskUpdate", 1%nat, fun l => match l with [a] => rtsStreamEndTaskUpdate a | _ => no_hook end);
    ("aclmdlRICaptureTaskUpdateEndImpl", 1%nat, fun l => match l with [a] => aclmdlRICaptureTaskUpdateEndImpl a | _
     => no_hook end);
    ("rtModelExecute", 3%nat, fun l => match l with [a; b; c] => rtModelExecute a b c | _ => no_hook end);
    ("aclmdlRIExecuteAsyncImpl", 2%nat, fun l => match l with [a; b] => aclmdlRIExecuteAsyncImpl a b | _ => no_hook end);
    ("rtModelExecuteAsync", 3%nat, fun l => match l with [a; b; c] => rtModelExecuteAsync a b c | _ => no_hook end);
    ("rtsModelExecute", 2%nat, fun l => match l with [a; b] => rtsModelExecute a b | _ => no_hook end);
    ("aclmdlRIExecuteImpl", 2%nat, fun l => match l with [a; b] => aclmdlRIExecuteImpl a b | _ => no_hook end);
    ("rtModelExecuteSync", 4%nat, fun l => match l with [a; b; c; d] => rtModelExecuteSync a b c d | _ => no_hook end);
    ("rtStreamBeginCapture", 2%nat, fun l => match l with [a; b] => rtStreamBeginCapture a b | _ => no_hook end);
    ("aclmdlRICaptureBeginImpl", 2%nat, fun l => match l with [a; b] => aclmdlRICaptureBeginImpl a b | _ => no_hook end);
    ("rtStreamEndCapture", 2%nat, fun l => match l with [a; b] => rtStreamEndCapture a b | _ => no_hook end);
    ("aclmdlRICaptureEndImpl", 2%nat, fun l => match l with [a; b] => aclmdlRICaptureEndImpl a b | _ => no_hook end);
    ("rtsModelExecuteAsync", 2%nat, fun l => match l with [a; b] => rtsModelExecuteAsync a b | _ => no_hook end);
    ("rtEventCreate", 1%nat, fun l => match l with [a] => rtEventCreate a | _ => no_hook end);
    ("aclrtCreateEventImpl", 1%nat, fun l => match l with [a] => aclrtCreateEventImpl a | _ => no_hook end);
    ("rtsEventCreate", 2%nat, fun l => match l with [a; b] => rtsEventCreate a b | _ => no_hook end);
    ("rtsEventCreateEx", 2%nat, fun l => match l with [a; b] => rtsEventCreateEx a b | _ => no_hook end);
    ("rtEventCreateWithFlag", 2%nat, fun l => match l with [a; b] => rtEventCreateWithFlag a b | _ => no_hook end);
    ("aclrtCreateEventWithFlagImpl", 2%nat, fun l => match l with [a; b] => aclrtCreateEventWithFlagImpl a b | _ =>
     no_hook end);
    ("rtEventCreateExWithFlag", 2%nat, fun l => match l with [a; b] => rtEventCreateExWithFlag a b | _ => no_hook end);
    ("aclrtCreateEventExWithFlagImpl", 2%nat, fun l => match l with [a; b] => aclrtCreateEventExWithFlagImpl a b | _
     => no_hook end);
    ("rtStreamWaitEvent", 2%nat, fun l => match l with [a; b] => rtStreamWaitEvent a b | _ => no_hook end);
    ("aclrtStreamWaitEventImpl", 2%nat, fun l => match l with [a; b] => aclrtStreamWaitEventImpl a b | _ => no_hook end);
    ("rtEventRecord", 2%nat, fun l => match l with [a; b] => rtEventRecord a b | _ => no_hook end);
    ("aclrtRecordEventImpl", 2%nat, fun l => match l with [a; b] => aclrtRecordEventImpl a b | _ => no_hook end);
    ("aclrtRecordEventWithFlagImpl", 3%nat, fun l => match l with [a; b; c] => aclrtRecordEventWithFlagImpl a b c | _
     => no_hook end);
    ("rtEventDestroy", 1%nat, fun l => match l with [a] => rtEventDestroy a | _ => no_hook end);
    ("aclrtDestroyEventImpl", 1%nat, fun l => match l with [a] => aclrtDestroyEventImpl a | _ => no_hook end);
    ("rtStreamDestroy", 1%nat, fun l => match l with [a] => rtStreamDestroy a | _ => no_hook end);
    ("aclrtDestroyStream", 1%nat, fun l => match l with [a] => aclrtDestroyStream a | _ => no_hook end);
    ("rtsNotifyCreate", 2%nat, fun l => match l with [a; b] => rtsNotifyCreate a b | _ => no_hook end);
    ("aclrtCreateNotifyImpl", 2%nat, fun l => match l with [a; b] => aclrtCreateNotifyImpl a b | _ => no_hook end);
    ("rtNotifyRecord", 2%nat, fun l => match l with [a; b] => rtNotifyRecord a b | _ => no_hook end);
    ("rtNotifyDestroy", 1%nat, fun l => match l with [a] => rtNotifyDestroy a | _ => no_hook end);
    ("rtsNotifyWaitAndReset", 3%nat, fun l => match l with [a; b; c] => rtsNotifyWaitAndReset a b c | _ => no_hook end);
    ("aclrtWaitAndResetNotifyImpl", 3%nat, fun l => match l with [a; b; c] => aclrtWaitAndResetNotifyImpl a b c | _
     => no_hook end);
    ("rtStreamWaitEventWithTimeout", 3%nat, fun l => match l with [a; b; c] => rtStreamWaitEventWithTimeout a b c | _
     => no_hook end);
    ("rtEventDestroySync", 1%nat, fun l => match l with [a] => rtEventDestroySync a | _ => no_hook end);
    ("rtNotifyCreate", 2%nat, fun l => match l with [a; b] => rtNotifyCreate a b | _ => no_hook end);
    ("rtNotifyCreateWithFlag", 3%nat, fun l => match l with [a; b; c] => rtNotifyCreateWithFlag a b c | _ => no_hook end);
    ("rtNotifyWait", 2%nat, fun l => match l with [a; b] => rtNotifyWait a b | _ => no_hook end);
    ("rtNotifyWaitWithTimeOut", 3%nat, fun l => match l with [a; b; c] => rtNotifyWaitWithTimeOut a b c | _ =>
     no_hook end);
    ("rtCntNotifyCreate", 2%nat, fun l => match l with [a; b] => rtCntNotifyCreate a b | _ => no_hook end);
    ("rtCntNotifyCreateWithFlag", 3%nat, fun l => match l with [a; b; c] => rtCntNotifyCreateWithFlag a b c | _ =>
     no_hook end);
    ("aclrtCntNotifyCreateImpl", 2%nat, fun l => match l with [a; b] => aclrtCntNotifyCreateImpl a b | _ => no_hook end);
    ("rtCntNotifyRecord", 3%nat, fun l => match l with [a; b; c] => rtCntNotifyRecord a b c | _ => no_hook end);
    ("rtCntNotifyWaitWithTimeout", 3%nat, fun l => match l with [a; b; c] => rtCntNotifyWaitWithTimeout a b c | _ =>
     no_hook end);
    ("rtCntNotifyDestroy", 1%nat, fun l => match l with [a] => rtCntNotifyDestroy a | _ => no_hook end);
    ("aclrtCntNotifyDestroyImpl", 1%nat, fun l => match l with [a] => aclrtCntNotifyDestroyImpl a | _ => no_hook end);
    ("rtsCntNotifyRecord", 3%nat, fun l => match l with [a; b; c] => rtsCntNotifyRecord a b c | _ => no_hook end);
    ("aclrtCntNotifyRecordImpl", 3%nat, fun l => match l with [a; b; c] => aclrtCntNotifyRecordImpl a b c | _ =>
     no_hook end);
    ("rtsCntNotifyWaitWithTimeout", 3%nat, fun l => match l with [a; b; c] => rtsCntNotifyWaitWithTimeout a b c | _
     => no_hook end);
    ("aclrtCntNotifyWaitWithTimeoutImpl", 3%nat, fun l => match l with [a; b; c] => aclrtCntNotifyWaitWithTimeoutImpl
     a b c | _ => no_hook end) ].

End hooks.

(** * The symbols of the driver (ascend/hook.c, include/runtime_hook.h) *)

(** The names that [load_rt_libraries] looks up, by index. *)
Definition rt_library_entry : list string :=
  ["rtSetDevice"; "aclrtSetDeviceImpl"; "rtSetDeviceWithoutTsd"; "aclrtSetDeviceWithoutTsdVXXImpl";
   "rtGetSocVersion"; "rtMalloc"; "aclrtMallocImpl"; "aclrtMallocAlign32Impl"; "rtMallocCached";
   "aclrtMallocCachedImpl"; "rtMemAllocManaged"; "aclrtMemAllocManagedImpl"; "rtMallocPhysical"; "rtFreePhysical";
   "aclrtMallocPhysicalImpl"; "rtMemGetInfoEx"; "rtMallocHost"; "rtFreeHost"; "rtReserveMemAddress";
   "rtReleaseMemAddress"; "rtMapMem"; "rtUnmapMem"; "rtMemcpy"; "rtsPointerGetAttributes"; "rtMemcpyAsync";
   "rtMemGetAllocationGranularity"; "rtFree"; "rtsCheckMemType"; "rtMemcpyAsyncEx"; "rtsMemcpyBatch";
   "rtsMemcpyBatchAsync"; "rtMemcpy2d"; "rtMemcpy2dAsync"; "rtsSetMemcpyDesc"; "rtsMemcpyAsyncWithDesc";
   "rtMemcpyAsyncWithOffset"; "rtMemset"; "rtMemsetAsync"; "rtMemPrefetchToDevice"; "rtsIpcMemGetExportKey";
   "rtsIpcMemImportByKey"; "rtsValueWrite"; "rtsValueWait"; "aclrtGetMemInfoImpl"; "rtLaunchKernelByFuncHandleV3";
   "aclrtLaunchKernelImpl"; "rtsLaunchKernelWithHostArgs"; "aclrtLaunchKernelWithHostArgsImpl";
   "rtsLaunchKernelWithConfig"; "aclrtLaunchKernelWithConfigImpl"; "rtsLaunchKernelWithDevArgs";
   "aclrtLaunchKernelV2Impl"; "rtsLaunchRandomNumTask"; "aclrtRandomNumAsyncImpl"; "rtsLaunchReduceAsyncTask";
   "aclrtReduceAsyncImpl"; "rtsLaunchUpdateTask"; "aclrtTaskUpdateAsyncImpl"; "rtLaunchKernelWithArgsArray";
   "aclrtLaunchKernelWithArgsArrayImpl"; "rtLaunchSIMTKernelWithHostArgs";
   "aclrtLaunchSIMTKernelWithHostArgsImpl"; "rtLaunchSIMTKernelWithArgsArray";
   "aclrtLaunchSIMTKernelWithArgsArrayImpl"; "rtModelExecute"; "aclmdlRIExecuteAsyncImpl"; "rtStreamBeginCapture";
   "aclmdlRICaptureBeginImpl"; "rtStreamEndCapture"; "aclmdlRICaptureEndImpl"; "rtsModelExecute";
   "aclmdlRIExecuteImpl"; "rtsStreamBeginTaskGrp"; "aclmdlRICaptureTaskGrpBeginImpl"; "rtsStreamEndTaskGrp";
   "aclmdlRICaptureTaskGrpEndImpl"; "rtsStreamBeginTaskUpdate"; "aclmdlRICaptureTaskUpdateBeginImpl";
   "rtsStreamEndTaskUpdate"; "aclmdlRICaptureTaskUpdateEndImpl"; "rtStreamGetCaptureInfo"; "rtModelGetStreams";
   "rtStreamGetTasks"; "rtEventCreate"; "aclrtCreateEventImpl"; "rtEventCreateWithFlag";
   "aclrtCreateEventWithFlagImpl"; "rtEventCreateExWithFlag"; "aclrtCreateEventExWithFlagImpl";
   "rtStreamWaitEvent"; "aclrtStreamWaitEventImpl"; "rtEventRecord"; "aclrtRecordEventImpl";
   "aclrtRecordEventWithFlagImpl"; "rtEventElapsedTime"; "rtEventDestroy"; "aclrtDestroyEventImpl";
   "rtsNotifyCreate"; "aclrtCreateNotifyImpl"; "rtsNotifyWaitAndReset"; "aclrtWaitAndResetNotifyImpl";
   "rtCntNotifyCreate"; "rtCntNotifyCreateWithFlag"; "aclrtCntNotifyCreateImpl"; "rtCntNotifyDestroy";
   "aclrtCntNotifyDestroyImpl"; "rtsCntNotifyRecord"; "aclrtCntNotifyRecordImpl"; "rtsCntNotifyWaitWithTimeout";
   "aclrtCntNotifyWaitWithTimeoutImpl"; "rtStreamSynchronize"; "rtStreamDestroy"; "aclrtDestroyStream";
   "rtSetDeviceWithFlags"; "rtDvppMallocWithFlag"; "rtMemAlloc"; "rtCpuKernelLaunchWithFlag";
   "rtAicpuKernelLaunchExWithArgs"; "rtFftsPlusTaskLaunch"; "rtFftsPlusTaskLaunchWithFlag";
   "rtMultipleTaskInfoLaunch"; "rtSetDeviceEx"; "rtDvppMalloc"; "rtKernelLaunch"; "rtKernelLaunchWithHandle";
   "rtKernelLaunchWithHandleV2"; "rtKernelLaunchWithFlag"; "rtKernelLaunchWithFlagV2"; "rtKernelLaunchEx";
   "rtKernelLaunchFwk"; "rtAicpuKernelLaunchWithFlag"; "rtLaunchKernelByFuncHandle";
   "rtLaunchKernelByFuncHandleV2"; "rtVectorCoreKernelLaunchWithHandle"; "rtVectorCoreKernelLaunch";
   "rtStarsTaskLaunch"; "rtStarsTaskLaunchWithFlag"; "rtModelExecuteAsync"; "rtModelExecuteSync";
   "rtsModelExecuteAsync"; "rtsEventCreate"; "rtsEventCreateEx"; "rtNotifyRecord"; "rtNotifyDestroy";
   "rtStreamWaitEventWithTimeout"; "rtEventDestroySync"; "rtNotifyCreate"; "rtNotifyCreateWithFlag";
   "rtNotifyWait"; "rtNotifyWaitWithTimeOut"; "rtCntNotifyRecord"; "rtCntNotifyWaitWithTimeout"].

(** The enumeration that [RUNTIME_FIND_ENTRY] indexes the table with. *)
Definition runtime_hook_enum : list string :=
  ["rtSetDevice"; "aclrtSetDeviceImpl"; "rtSetDeviceWithoutTsd"; "aclrtSetDeviceWithoutTsdVXXImpl";
   "rtGetSocVersion"; "rtMalloc"; "aclrtMallocImpl"; "aclrtMallocAlign32Impl"; "rtMallocCached";
   "aclrtMallocCachedImpl"; "rtMemAllocManaged"; "aclrtMemAllocManagedImpl"; "rtMallocPhysical"; "rtFreePhysical";
   "aclrtMallocPhysicalImpl"; "rtMemGetInfoEx"; "rtMallocHost"; "rtFreeHost"; "rtReserveMemAddress";
   "rtReleaseMemAddress"; "rtMapMem"; "rtUnmapMem"; "rtMemcpy"; "rtsPointerGetAttributes"; "rtMemcpyAsync";
   "rtMemGetAllocationGranularity"; "rtFree"; "rtsCheckMemType"; "rtMemcpyAsyncEx"; "rtsMemcpyBatch";
   "rtsMemcpyBatchAsync"; "rtMemcpy2d"; "rtMemcpy2dAsync"; "rtsSetMemcpyDesc"; "rtsMemcpyAsyncWithDesc";
   "rtMemcpyAsyncWithOffset"; "rtMemset"; "rtMemsetAsync"; "rtMemPrefetchToDevice"; "rtsIpcMemGetExportKey";
   "rtsIpcMemImportByKey"; "rtsValueWrite"; "rtsValueWait"; "aclrtGetMemInfoImpl"; "rtLaunchKernelByFuncHandleV3";
   "aclrtLaunchKernelImpl"; "rtsLaunchKernelWithHostArgs"; "aclrtLaunchKernelWithHostArgsImpl";
   "rtsLaunchKernelWithConfig"; "aclrtLaunchKernelWithConfigImpl"; "rtsLaunchKernelWithDevArgs";
   "aclrtLaunchKernelV2Impl"; "rtsLaunchRandomNumTask"; "aclrtRandomNumAsyncImpl"; "rtsLaunchReduceAsyncTask";
   "aclrtReduceAsyncImpl"; "rtsLaunchUpdateTask"; "aclrtTaskUpdateAsyncImpl"; "rtLaunchKernelWithArgsArray";
   "aclrtLaunchKernelWithArgsArrayImpl"; "rtLaunchSIMTKernelWithHostArgs";
   "aclrtLaunchSIMTKernelWithHostArgsImpl"; "rtLaunchSIMTKernelWithArgsArray";
   "aclrtLaunchSIMTKernelWithArgsArrayImpl"; "rtModelExecute"; "aclmdlRIExecuteAsyncImpl"; "rtStreamBeginCapture";
   "aclmdlRICaptureBeginImpl"; "rtStreamEndCapture"; "aclmdlRICaptureEndImpl"; "rtsModelExecute";
   "aclmdlRIExecuteImpl"; "rtsStreamBeginTaskGrp"; "aclmdlRICaptureTaskGrpBeginImpl"; "rtsStreamEndTaskGrp";
   "aclmdlRICaptureTaskGrpEndImpl"; "rtsStreamBeginTaskUpdate"; "aclmdlRICaptureTaskUpdateBeginImpl";
   "rtsStreamEndTaskUpdate"; "aclmdlRICaptureTaskUpdateEndImpl"; "rtStreamGetCaptureInfo"; "rtModelGetStreams";
   "rtStreamGetTasks"; "rtEventCreate"; "aclrtCreateEventImpl"; "rtEventCreateWithFlag";
   "aclrtCreateEventWithFlagImpl"; "rtEventCreateExWithFlag"; "aclrtCreateEventExWithFlagImpl";
   "rtStreamWaitEvent"; "aclrtStreamWaitEventImpl"; "rtEventRecord"; "aclrtRecordEventImpl";
   "aclrtRecordEventWithFlagImpl"; "rtEventElapsedTime"; "rtEventDestroy"; "aclrtDestroyEventImpl";
   "rtsNotifyCreate"; "aclrtCreateNotifyImpl"; "rtsNotifyWaitAndReset"; "aclrtWaitAndResetNotifyImpl";
   "rtCntNotifyCreate"; "rtCntNotifyCreateWithFlag"; "aclrtCntNotifyCreateImpl"; "rtCntNotifyDestroy";
   "aclrtCntNotifyDestroyImpl"; "rtsCntNotifyRecord"; "aclrtCntNotifyRecordImpl"; "rtsCntNotifyWaitWithTimeout";
   "aclrtCntNotifyWaitWithTimeoutImpl"; "rtStreamSynchronize"; "rtStreamDestroy"; "aclrtDestroyStream";
   "rtSetDeviceWithFlags"; "rtDvppMallocWithFlag"; "rtMemAlloc"; "rtCpuKernelLaunchWithFlag";
   "rtAicpuKernelLaunchExWithArgs"; "rtFftsPlusTaskLaunch"; "rtFftsPlusTaskLaunchWithFlag";
   "rtMultipleTaskInfoLaunch"; "rtSetDeviceEx"; "rtDvppMalloc"; "rtKernelLaunch"; "rtKernelLaunchWithHandle";
   "rtKernelLaunchWithHandleV2"; "rtKernelLaunchWithFlag"; "rtKernelLaunchWithFlagV2"; "rtKernelLaunchEx";
   "rtKernelLaunchFwk"; "rtAicpuKernelLaunchWithFlag"; "rtLaunchKernelByFuncHandle";
   "rtLaunchKernelByFuncHandleV2"; "rtVectorCoreKernelLaunchWithHandle"; "rtVectorCoreKernelLaunch";
   "rtStarsTaskLaunch"; "rtStarsTaskLaunchWithFlag"; "rtModelExecuteAsync"; "rtModelExecuteSync";
   "rtsModelExecuteAsync"; "rtsEventCreate"; "rtsEventCreateEx"; "rtNotifyRecord"; "rtNotifyDestroy";
   "rtStreamWaitEventWithTimeout"; "rtEventDestroySync"; "rtNotifyCreate"; "rtNotifyCreateWithFlag";
   "rtNotifyWait"; "rtNotifyWaitWithTimeOut"; "rtCntNotifyRecord"; "rtCntNotifyWaitWithTimeout"].
