(* ===== verification/RtHooksThms.v ===== *)
(** The properties of the hooks. *)

From S2P Require Import Prelude HashMap RtStreams RtStreamsThms RtHooks.

(** * Forwarding *)

Definition is_call (x : rt_event) : bool := match x with DriverCall _ _ _ => true | _ => false end.

Definition limited_by (x : rt_event) : option Z := match x with Limiter stm => Some stm | _ => None end.

(** The hook calls the driver once, by the name and with the arguments it was
    called with itself, and returns what the driver answers; before the call,
    and never after it, it has been admitted for the streams [lims]; afterwards
    no synchronous execution is left over. *)
Definition forwards (e : rt_env) (name : string) (args : list Z) (lims : list Z) (f : hook) : Prop :=
  forall s, is_i32 (hasModelExecuteSync s) ->
  let '(ret, s1) := f s in
  exists pre k post, history s1 = history s ++ pre ++ DriverCall name args k :: post ∧
    Forall (fun x => is_call x = false) (pre ++ post) ∧ omap limited_by pre = lims ∧ omap limited_by post = [] ∧
    ret = (driver e (history s ++ pre) name args).1 ∧ hasModelExecuteSync s1 = hasModelExecuteSync s.

Lemma core_limiter_history e stm f s :
  (forall s, history (f s) = history s) -> history (core_limiter e stm f s) = history s ++ [Limiter stm].
Proof. intros Hf. unfold core_limiter. destruct (is_core_limit e); [by rewrite Hf|done]. Qed.

Lemma core_limiter_syncs e stm f s :
  (forall s, hasModelExecuteSync (f s) = hasModelExecuteSync s) -> hasModelExecuteSync (core_limiter e stm f s) = hasModelExecuteSync s.
Proof. intros Hf. unfold core_limiter. destruct (is_core_limit e); [by rewrite Hf|done]. Qed.

(** The count of the synchronous executions goes back. *)
Lemma untrack_syncs e stm s s1 :
  is_i32 (hasModelExecuteSync s) -> hasModelExecuteSync s1 = hasModelExecuteSync (core_limiter e stm (add_sync 1) s) ->
  hasModelExecuteSync (untrack e s1) = hasModelExecuteSync s.
Proof.
  intros Hi H. unfold untrack, core_limiter in *. destruct (is_core_limit e); cbn in *; rewrite H; [|done].
  unfold i32, is_i32, I32_HALF in *. zlia.
Qed.

Section shapes.
Context (e : rt_env) (impl : bool) (name : string) (args : list Z).

(** A driver call from [s1] on, followed by [fin]. *)
Lemma call_forwards (s s1 : rt_proc) lims pre post (fin : Z -> Z -> rt_proc -> rt_proc) :
  history s1 = history s ++ pre -> omap limited_by pre = lims -> (forall r w x, history (fin r w x) = history x ++ post) ->
  Forall (fun x => is_call x = false) (pre ++ post) -> omap limited_by post = [] ->
  (forall r w, hasModelExecuteSync (fin r w (log (DriverCall name args (hasModelExecuteSync s1)) s1)) = hasModelExecuteSync s) ->
  let '(ret, s2) := (let '(ret, w, s2) := call e name args s1 in (ret, fin ret w s2)) in
  exists pre k post, history s2 = history s ++ pre ++ DriverCall name args k :: post ∧
    Forall (fun x => is_call x = false) (pre ++ post) ∧ omap limited_by pre = lims ∧ omap limited_by post = [] ∧
    ret = (driver e (history s ++ pre) name args).1 ∧ hasModelExecuteSync s2 = hasModelExecuteSync s.
Proof.
  intros Hs <- Hf HF Hp Hm. unfold call. rewrite Hs. destruct (driver e (history s ++ pre) name args) as [ret w] eqn:Ed.
  exists pre, (hasModelExecuteSync s1), post. rewrite Hf, Hm, Ed. cbn [history log]. rewrite Hs, <- !app_assoc. done.
Qed.

Lemma hook_of_forwards lims body : forwards e name args lims body ->
  forwards e name args (if impl && negb (impl_hook_enable e) then [] else lims) (hook_of e impl name args body).
Proof.
  intros H s Hi. unfold hook_of. destruct (impl && negb (impl_hook_enable e)); [|by apply H].
  apply (call_forwards s s _ [] [] (fun _ _ x => x)); try done; [by rewrite app_nil_r|intros; by rewrite app_nil_r].
Qed.

Lemma launch_forwards stm dim :
  forwards e name args (if impl && negb (impl_hook_enable e) then [] else [stm]) (launch_hook e impl name args stm dim).
Proof.
  apply hook_of_forwards. intros s Hi. cbn zeta. set (s1 := dispatch e stm dim (core_limiter e stm id s)).
  assert (E1 : history s1 = history s ++ [Limiter stm]) by (unfold s1; cbn; by apply core_limiter_history).
  assert (E2 : hasModelExecuteSync s1 = hasModelExecuteSync s) by (unfold s1; cbn; by apply core_limiter_syncs).
  clearbody s1.
  destruct (is_random_sampling e (history s1)).
  - apply (call_forwards s (log (SamplingBegin stm) s1) _ [Limiter stm; SamplingBegin stm] [SamplingEnd stm] (fun _ _ x => log (SamplingEnd stm) x));
      try done; [cbn; by rewrite E1, <- app_assoc|repeat constructor].
  - apply (call_forwards s s1 _ [Limiter stm] [] (fun _ _ x => x)); try done; [intros; by rewrite app_nil_r|repeat constructor].
Qed.

Lemma task_forwards stm after :
  forwards e name args (if impl && negb (impl_hook_enable e) then [] else [stm]) (task_hook e impl name args stm after).
Proof.
  apply hook_of_forwards. intros s Hi.
  apply (call_forwards s (core_limiter e stm id s) _ [Limiter stm] [] (fun r w x => if r =? ACL_RT_SUCCESS then on_stats (after w) x else x)); try done.
  - by apply core_limiter_history.
  - intros r w x. rewrite app_nil_r. by case_match.
  - repeat constructor.
  - intros r w. case_match; cbn; by apply core_limiter_syncs.
Qed.

Lemma model_async_forwards stm mdl :
  forwards e name args (if impl && negb (impl_hook_enable e) then [] else [stm]) (model_async_hook e impl name args stm mdl).
Proof.
  apply hook_of_forwards. intros s Hi. cbn zeta. set (s1 := on_stats (record_model_execute_stats mdl) (core_limiter e stm id s)).
  assert (E1 : history s1 = history s ++ [Limiter stm]) by (unfold s1; cbn; by apply core_limiter_history).
  assert (E2 : hasModelExecuteSync s1 = hasModelExecuteSync s) by (unfold s1; cbn; by apply core_limiter_syncs).
  clearbody s1.
  destruct (is_random_sampling e (history s1)).
  - apply (call_forwards s (log (SamplingBegin stm) s1) _ [Limiter stm; SamplingBegin stm] [SamplingGraphEnd stm mdl]
      (fun _ _ x => log (SamplingGraphEnd stm mdl) x)); try done; [cbn; by rewrite E1, <- app_assoc|repeat constructor].
  - apply (call_forwards s s1 _ [Limiter stm] [] (fun _ _ x => x)); try done; [intros; by rewrite app_nil_r|repeat constructor].
Qed.

Lemma untrack_history s : history (untrack e s) = history s.
Proof. unfold untrack. by destruct (is_core_limit e). Qed.

Lemma model_sync_forwards mdl :
  forwards e name args (if impl && negb (impl_hook_enable e) then [] else [0]) (model_sync_hook e impl name args mdl).
Proof.
  apply hook_of_forwards. intros s Hi. cbn zeta. set (s1 := on_stats (record_model_execute_stats mdl) (core_limiter e 0 (add_sync 1) s)).
  assert (E1 : history s1 = history s ++ [Limiter 0]) by (unfold s1; cbn; by apply core_limiter_history).
  destruct (is_random_sampling e (history s1)).
  - apply (call_forwards s s1 _ [Limiter 0] [SampleAdded mdl] (fun _ _ x => untrack e (log (SampleAdded mdl) x))); try done.
    + intros r w x. by rewrite untrack_history.
    + repeat constructor.
    + intros r w. by apply untrack_syncs with 0.
  - apply (call_forwards s s1 _ [Limiter 0] [] (fun _ _ x => untrack e x)); try done.
    + intros r w x. by rewrite untrack_history, app_nil_r.
    + repeat constructor.
    + intros r w. by apply untrack_syncs with 0.
Qed.

Lemma model_sync_stream_forwards stm mdl :
  forwards e name args (if impl && negb (impl_hook_enable e) then [] else [stm]) (model_sync_stream_hook e impl name args stm mdl).
Proof.
  apply hook_of_forwards. intros s Hi. cbn zeta. set (s1 := on_stats (record_model_execute_stats mdl) (core_limiter e stm (add_sync 1) s)).
  assert (E1 : history s1 = history s ++ [Limiter stm]) by (unfold s1; cbn; by apply core_limiter_history).
  destruct (is_random_sampling e (history s1)).
  - apply (call_forwards s (log (SamplingBegin stm) s1) _ [Limiter stm; SamplingBegin stm] [SamplingGraphEnd stm mdl]
      (fun _ _ x => untrack e (log (SamplingGraphEnd stm mdl) x))).
    + cbn [history log]. by rewrite E1, <- app_assoc.
    + done.
    + intros r w x. by rewrite untrack_history.
    + repeat constructor.
    + done.
    + intros r w. by apply untrack_syncs with stm.
  - apply (call_forwards s s1 _ [Limiter stm] [] (fun _ _ x => untrack e x)); try done.
    + intros r w x. by rewrite untrack_history, app_nil_r.
    + repeat constructor.
    + intros r w. by apply untrack_syncs with stm.
Qed.

Lemma begin_capture_forwards stm :
  forwards e name args (if impl && negb (impl_hook_enable e) then [] else [stm]) (begin_capture_hook e impl name args stm).
Proof.
  apply hook_of_forwards. intros s Hi.
  apply (call_forwards s (core_limiter e stm (on_streams (set_stream_capture (insert_ok (e_alloc e)) true stm)) s) _ [Limiter stm] [] (fun _ _ x => x)); try done.
  - by apply core_limiter_history.
  - intros. by rewrite app_nil_r.
  - repeat constructor.
  - intros r w. cbn. by apply core_limiter_syncs.
Qed.

Lemma end_capture_forwards stm mdl :
  forwards e name args (if impl && negb (impl_hook_enable e) then [] else [stm]) (end_capture_hook e impl name args stm mdl).
Proof.
  apply hook_of_forwards. intros s Hi.
  apply (call_forwards s (core_limiter e stm id s) _ [Limiter stm] [] (fun r w s1 =>
    if (r =? ACL_RT_SUCCESS) && is_core_limit e then
      let s2 := on_streams (set_stream_capture (insert_ok (e_alloc e)) false stm) s1 in
      if (mdl =? 0) || (w =? 0) then s2 else on_stats (fun x => (capture_stats_transfer_to_model (e_alloc e) stm w x).2) s2
    else s1)); try done.
  - by apply core_limiter_history.
  - intros r w x. rewrite app_nil_r. repeat case_match; done.
  - repeat constructor.
  - intros r w. repeat case_match; cbn; by apply core_limiter_syncs.
Qed.

Lemma destroy_stream_forwards stm :
  forwards e name args (if impl && negb (impl_hook_enable e) then [] else [stm]) (destroy_stream_hook e impl name args stm).
Proof.
  apply hook_of_forwards. intros s Hi.
  apply (call_forwards s (core_limiter e stm (on_streams (remove_stream stm)) s) _ [Limiter stm] [] (fun _ _ x => x)); try done.
  - by apply core_limiter_history.
  - intros. by rewrite app_nil_r.
  - repeat constructor.
  - intros r w. cbn. by apply core_limiter_syncs.
Qed.

Lemma event_forwards after :
  forwards e name args [] (event_hook e impl name args after).
Proof.
  replace [] with (if impl && negb (impl_hook_enable e) then [] else [] : list Z) by by case_match.
  apply hook_of_forwards. intros s Hi.
  apply (call_forwards s s _ [] [] (fun r w x => if (r =? ACL_RT_SUCCESS) && is_core_limit e then on_streams (after w) x else x)); try done.
  - by rewrite app_nil_r.
  - intros r w x. rewrite app_nil_r. by case_match.
  - intros r w. by case_match.
Qed.

End shapes.

(** The hooks of the table, in the order of their shapes. *)
Create HintDb hooks.
#[export] Hint Resolve launch_forwards task_forwards model_async_forwards model_sync_forwards model_sync_stream_forwards
  begin_capture_forwards end_capture_forwards destroy_stream_forwards event_forwards : hooks.

Lemma if_nil (b : bool) : (if b then [] else []) = ([] : list Z).
Proof. by destruct b. Qed.

(** The hooks that launch work, with the position of the stream among their
    arguments; the two without a stream are admitted for the null stream. *)
Definition launching : list (string * option nat) :=
  [("rtKernelLaunch", Some 5%nat); ("rtKernelLaunchWithHandle", Some 5%nat);
   ("rtKernelLaunchWithHandleV2", Some 5%nat); ("rtKernelLaunchWithFlag", Some 4%nat);
   ("rtKernelLaunchWithFlagV2", Some 4%nat); ("rtKernelLaunchEx", Some 3%nat); ("rtKernelLaunchFwk", Some 4%nat);
   ("rtCpuKernelLaunchWithFlag", Some 5%nat); ("rtAicpuKernelLaunchWithFlag", Some 4%nat);
   ("rtAicpuKernelLaunchExWithArgs", Some 5%nat); ("rtLaunchKernelByFuncHandle", Some 3%nat);
   ("rtLaunchKernelByFuncHandleV2", Some 3%nat); ("rtLaunchKernelByFuncHandleV3", Some 3%nat);
   ("aclrtLaunchKernelImpl", Some 4%nat); ("rtVectorCoreKernelLaunchWithHandle", Some 5%nat);
   ("rtVectorCoreKernelLaunch", Some 4%nat); ("rtsLaunchKernelWithHostArgs", Some 2%nat);
   ("aclrtLaunchKernelWithHostArgsImpl", Some 2%nat); ("rtsLaunchKernelWithConfig", Some 2%nat);
   ("aclrtLaunchKernelWithConfigImpl", Some 2%nat); ("rtsLaunchKernelWithDevArgs", Some 2%nat);
   ("aclrtLaunchKernelV2Impl", Some 5%nat); ("rtsLaunchRandomNumTask", Some 1%nat);
   ("aclrtRandomNumAsyncImpl", Some 1%nat); ("rtsLaunchReduceAsyncTask", Some 1%nat);
   ("aclrtReduceAsyncImpl", Some 5%nat); ("rtsLaunchUpdateTask", Some 2%nat);
   ("aclrtTaskUpdateAsyncImpl", Some 3%nat); ("rtLaunchKernelWithArgsArray", Some 2%nat);
   ("aclrtLaunchKernelWithArgsArrayImpl", Some 2%nat); ("rtLaunchSIMTKernelWithHostArgs", Some 4%nat);
   ("aclrtLaunchSIMTKernelWithHostArgsImpl", Some 4%nat); ("rtLaunchSIMTKernelWithArgsArray", Some 4%nat);
   ("aclrtLaunchSIMTKernelWithArgsArrayImpl", Some 4%nat); ("rtFftsPlusTaskLaunch", Some 1%nat);
   ("rtFftsPlusTaskLaunchWithFlag", Some 1%nat); ("rtStarsTaskLaunch", Some 2%nat);
   ("rtStarsTaskLaunchWithFlag", Some 2%nat); ("rtMultipleTaskInfoLaunch", Some 1%nat);
   ("rtsStreamBeginTaskGrp", Some 0%nat); ("aclmdlRICaptureTaskGrpBeginImpl", Some 0%nat);
   ("rtsStreamEndTaskGrp", Some 0%nat); ("aclmdlRICaptureTaskGrpEndImpl", Some 0%nat);
   ("rtsStreamBeginTaskUpdate", Some 0%nat); ("aclmdlRICaptureTaskUpdateBeginImpl", Some 0%nat);
   ("rtsStreamEndTaskUpdate", Some 0%nat); ("aclmdlRICaptureTaskUpdateEndImpl", Some 0%nat);
   ("rtModelExecute", Some 1%nat); ("aclmdlRIExecuteAsyncImpl", Some 1%nat); ("rtModelExecuteAsync", Some 1%nat);
   ("rtsModelExecute", None); ("aclmdlRIExecuteImpl", None); ("rtModelExecuteSync", Some 1%nat);
   ("rtStreamBeginCapture", Some 0%nat); ("aclmdlRICaptureBeginImpl", Some 0%nat);
   ("rtStreamEndCapture", Some 0%nat); ("aclmdlRICaptureEndImpl", Some 0%nat);
   ("rtsModelExecuteAsync", Some 1%nat); ("rtStreamDestroy", Some 0%nat); ("aclrtDestroyStream", Some 0%nat)].

Definition launch_stream (name : string) (args : list Z) : list Z :=
  match list_find (fun x => x.1 = name) launching with
  | Some (_, (_, Some i)) => option_list (args !! i)
  | Some (_, (_, None)) => [0]
  | None => []
  end.

(** The functions of the acl interface are those whose names end in Impl. *)
Definition is_impl (name : string) : bool := String.eqb (String.substring (String.length name - 4) 4 name) "Impl".

(** An argument list of a known length. *)
Ltac known_length l H := repeat (destruct l as [|? l]; cbn in H; try discriminate H).

(** C21. Every hook is transparent and every launch is limited.  Whatever the
    configuration, the state and the driver, a hook calls the function of the
    driver it stands for exactly once, with the arguments it was given, and
    returns its answer.  A hook that launches work waits in the limiter once,
    for the stream that is its argument, before it calls the driver; no other
    hook does, and the hooks of the acl interface do so only where that
    interface is hooked.  A synchronous execution of a graph is no longer
    counted when the hook returns. *)
Theorem hooks_transparent e :
  Forall (fun '(name, n, f) => forall args, length args = n ->
    forwards e name args (if is_impl name && negb (impl_hook_enable e) then [] else launch_stream name args) (f args)) (hook_table e).
Proof.
  unfold hook_table. repeat (apply Forall_cons; split;
    [intros l Hl; cbn beta; known_length l Hl; cbn beta iota;
     match goal with |- forwards _ ?n ?a (if is_impl _ && _ then _ else _) _ =>
       let b := eval vm_compute in (is_impl n) in change (is_impl n) with b;
       let c := eval cbv in (launch_stream n a) in change (launch_stream n a) with c end;
     rewrite ?if_nil; eauto with hooks nocore|]). constructor.
Qed.

(** * Capturing a graph *)

Section capture_run.
Context (e : rt_env) (stm : Z).
Hypothesis core_limit : is_core_limit e = true.
Hypothesis memory : e_alloc e = alloc_ok.
Hypothesis stm_ok : stm <> 0.

Definition capturing (s : rt_proc) : Prop := stream_is_capturing stm (strm s) = true.

Lemma restore_capturing ok s : stream_is_capturing stm s = true -> restore_streams ok stm s = s.
Proof.
  unfold stream_is_capturing, restore_streams, hm_contains. rewrite hm_get_eq by done. rewrite (proj2 (Z.eqb_neq stm 0) stm_ok).
  destruct (stream_map s !! stm); [by rewrite bool_decide_eq_true_2 by done|done].
Qed.

Lemma core_limiter_capturing s : capturing s -> core_limiter e stm id s = log (Limiter stm) s.
Proof.
  intros H. unfold core_limiter. rewrite core_limit. unfold id, on_streams. cbn. by rewrite restore_capturing.
Qed.

(** A launch in a capture. *)
Definition launch_dim (s : rt_proc) (dim : Z) : rt_proc := (rtKernelLaunch e 0 dim 0 0 0 stm s).2.

Lemma launch_capturing s dim :
  capturing s ->
  strm (launch_dim s dim) = strm s ∧ stat (launch_dim s dim) = launch_stats_dispatch alloc_ok true stm dim (stat s).
Proof.
  intros H. unfold launch_dim, rtKernelLaunch, launch_hook, hook_of. cbn [andb]. rewrite core_limiter_capturing by done.
  unfold dispatch, call. cbn [strm stat log]. rewrite H, memory. cbn zeta. set (s1 := on_stats _ _).
  destruct (is_random_sampling e (history s1)); destruct (driver _ _ _ _); done.
Qed.

Lemma launches_capturing dims : forall s,
  capturing s ->
  strm (foldl launch_dim s dims) = strm s ∧
  stat (foldl launch_dim s dims) = foldl (fun x dim => launch_stats_dispatch alloc_ok true stm dim x) (stat s) dims.
Proof.
  induction dims as [|d dims IH]; intros s H; [done|]. cbn [foldl]. destruct (launch_capturing s d H) as [E1 E2].
  destruct (IH (launch_dim s d)) as [-> ->]; [unfold capturing; by rewrite E1|]. by rewrite E1, E2.
Qed.

(** The program's calls for one element of the graph; [None] when the driver
    does not answer as the element says. *)
Definition hook_one (p : Z) (s : rt_proc) (x : captured) : option rt_proc :=
  match x with
  | Single dim => Some (launch_dim s dim)
  | Group h dims =>
    let '(ret, s1) := rtsStreamBeginTaskGrp e stm s in
    let s2 := foldl launch_dim s1 dims in
    if bool_decide (ret = ACL_RT_SUCCESS ∧ driver e (history s2 ++ [Limiter stm]) "rtsStreamEndTaskGrp" [stm; p] = (ACL_RT_SUCCESS, h))
    then Some (rtsStreamEndTaskGrp e stm p s2).2 else None
  end.

Fixpoint hook_all (p : Z) (s : rt_proc) (l : list captured) : option rt_proc :=
  match l with [] => Some s | x :: r => s1 ← hook_one p s x; hook_all p s1 r end.

(** Begin of the capture, the elements of the graph, end of the capture. *)
Definition capture_graph (p mdl : Z) (l : list captured) (s : rt_proc) : option rt_proc :=
  s1 ← hook_all p (rtStreamBeginCapture e stm 0 s).2 l;
  if bool_decide (driver e (history s1 ++ [Limiter stm]) "rtStreamEndCapture" [stm; p] = (ACL_RT_SUCCESS, mdl))
  then Some (rtStreamEndCapture e stm p s1).2 else None.

Lemma begin_group_capturing s ret s1 :
  capturing s -> rtsStreamBeginTaskGrp e stm s = (ret, s1) -> ret = ACL_RT_SUCCESS ->
  strm s1 = strm s ∧ stat s1 = task_grp_begin alloc_ok stm (stat s).
Proof.
  intros H E ->. unfold rtsStreamBeginTaskGrp, task_hook, hook_of, call in E. cbn [andb] in E. rewrite core_limiter_capturing in E by done.
  destruct (driver _ _ _ _) as [r w]. injection E as -> <-. cbn. by rewrite memory.
Qed.

Lemma end_group_capturing s p h :
  capturing s -> p <> 0 -> h <> 0 -> driver e (history s ++ [Limiter stm]) "rtsStreamEndTaskGrp" [stm; p] = (ACL_RT_SUCCESS, h) ->
  let s1 := (rtsStreamEndTaskGrp e stm p s).2 in strm s1 = strm s ∧ stat s1 = task_grp_end alloc_ok stm h (stat s).
Proof.
  intros H Hp Hh E. cbn zeta. unfold rtsStreamEndTaskGrp, task_hook, hook_of, call. cbn [andb]. rewrite core_limiter_capturing by done.
  cbn [history log]. rewrite E. cbn. by rewrite (proj2 (Z.eqb_neq p 0) Hp), (proj2 (Z.eqb_neq h 0) Hh), memory.
Qed.

Lemma hook_one_capturing p s x s1 :
  capturing s -> p <> 0 -> (0 ∉ (groups [x]).*1) -> hook_one p s x = Some s1 ->
  strm s1 = strm s ∧ stat s1 = capture_one stm (stat s) x.
Proof.
  intros H Hp H0. destruct x as [dim|h dims]; cbn [hook_one capture_one]; [intros [= <-]; by apply launch_capturing|].
  assert (Hh : h <> 0) by (intros ->; apply H0; left).
  destruct (rtsStreamBeginTaskGrp e stm s) as [ret s2] eqn:E. case_bool_decide as Hd; [|done]. destruct Hd as [Hr Hd]. intros [= <-].
  destruct (begin_group_capturing s ret s2 H E Hr) as [E1 E2].
  assert (H2 : capturing s2) by (unfold capturing; by rewrite E1).
  destruct (launches_capturing dims s2 H2) as [E3 E4].
  destruct (end_group_capturing (foldl launch_dim s2 dims) p h) as [E5 E6]; try done; [unfold capturing; by rewrite E3|].
  by rewrite E5, E6, E3, E4, E1, E2.
Qed.

Lemma groups_cons x l : groups (x :: l) = groups [x] ++ groups l.
Proof. unfold groups. cbn. by rewrite app_nil_r. Qed.

Lemma hook_all_capturing p l : forall s s1,
  capturing s -> p <> 0 -> (0 ∉ (groups l).*1) -> hook_all p s l = Some s1 ->
  strm s1 = strm s ∧ stat s1 = foldl (capture_one stm) (stat s) l.
Proof.
  induction l as [|x l IH]; intros s s1 H Hp H0 E; [by injection E as <-|].
  cbn [hook_all] in E. apply bind_Some in E as (s2 & Ex & E).
  rewrite groups_cons, fmap_app, not_elem_of_app in H0. destruct H0 as [H1 H0].
  destruct (hook_one_capturing p s x s2 H Hp H1 Ex) as [E1 E2].
  destruct (IH s2 s1) as [-> ->]; try done; [unfold capturing; by rewrite E1|]. cbn [foldl]. by rewrite E1, E2.
Qed.

(** The begin of the capture. *)
Lemma begin_capture_stat s : stat (rtStreamBeginCapture e stm 0 s).2 = stat s.
Proof. unfold rtStreamBeginCapture, begin_capture_hook, hook_of, core_limiter, call. cbn [andb]. rewrite core_limit. by destruct (driver _ _ _ _). Qed.

Lemma begin_capture_capturing s : capturing (rtStreamBeginCapture e stm 0 s).2.
Proof.
  unfold capturing, rtStreamBeginCapture, begin_capture_hook, hook_of, core_limiter, call. cbn [andb]. rewrite core_limit, memory.
  destruct (driver _ _ _ _). cbn. unfold set_stream_capture, stream_is_capturing. cbn. rewrite hm_put_ok by done. cbn.
  rewrite hm_get_eq by done. by rewrite lookup_insert_eq.
Qed.

Lemma end_capture_stat p mdl s :
  capturing s -> p <> 0 -> mdl <> 0 ->
  driver e (history s ++ [Limiter stm]) "rtStreamEndCapture" [stm; p] = (ACL_RT_SUCCESS, mdl) ->
  stat (rtStreamEndCapture e stm p s).2 = (capture_stats_transfer_to_model alloc_ok stm mdl (stat s)).2.
Proof.
  intros H Hp Hm E. unfold rtStreamEndCapture, end_capture_hook, hook_of, call. cbn [andb]. rewrite core_limiter_capturing by done.
  cbn [history log]. rewrite E, core_limit. cbn [Z.eqb andb ACL_RT_SUCCESS snd].
  by rewrite (proj2 (Z.eqb_neq p 0) Hp), (proj2 (Z.eqb_neq mdl 0) Hm), memory.
Qed.

(** An execution of the model, on any stream. *)
Lemma execute_stat mdl stm2 flag s : stat (rtModelExecute e mdl stm2 flag s).2 = record_model_execute_stats mdl (stat s).
Proof.
  unfold rtModelExecute, model_async_hook, hook_of. cbn [andb]. unfold core_limiter, call. rewrite core_limit.
  cbn zeta. set (s1 := on_stats _ _). destruct (is_random_sampling e (history s1)); destruct (driver _ _ _ _); done.
Qed.


End capture_run.

(** A driver that gives the handle 40 to a group and 9 to the model. *)
Definition ex_driver (_ : list rt_event) (name : string) (_ : list Z) : Z * Z :=
  (0, if bool_decide (name = "rtsStreamEndTaskGrp") then 40 else if bool_decide (name = "rtStreamEndCapture") then 9 else 0).
Definition ex_env : rt_env := RtEnv true true 24 (fun h => Nat.even (length h)) ex_driver alloc_ok.
Definition ex_idle : rt_proc := RtProc [] no_streams no_stats 0.
Definition ex_captured : rt_proc := default ex_idle (capture_graph ex_env 1 5 9 ex_graph ex_idle).


(** * The table of the functions *)

(** The index a hook calls the driver by names that very function: the
    table of names and the enumeration of the indices, two lists of 152 names
    each, agree and have no duplicates, and every hook is in them. *)
Theorem hook_table_resolves e :
  rt_library_entry = runtime_hook_enum ∧ NoDup rt_library_entry ∧ NoDup (hook_table e).*1.*1 ∧
  (hook_table e).*1.*1 ⊆ rt_library_entry.
Proof.
  assert (E : forall e1 e2, (hook_table e1).*1.*1 = (hook_table e2).*1.*1) by reflexivity.
  rewrite (E e ex_env). split; [done|].
  assert (B : bool_decide (NoDup rt_library_entry ∧ NoDup (hook_table ex_env).*1.*1 ∧
    Forall (fun x => x ∈ rt_library_entry) (hook_table ex_env).*1.*1) = true) by (vm_compute; reflexivity).
  apply bool_decide_eq_true in B as (B1 & B2 & B3). rewrite Forall_forall in B3. done.
Qed.

(** * A capture that fails to begin *)

(** A driver that refuses to begin a capture. *)
Definition refusing_env : rt_env :=
  RtEnv true true 24 (fun _ => false) (fun _ name _ => (if bool_decide (name = "rtStreamBeginCapture") then 107003 else 0, 0)) alloc_ok.

(** A stream is marked before the driver is asked to begin the capture, and
    nothing takes the mark back when the driver refuses: a kernel launched on
    it afterwards is not recorded, and the end of the turn does not wait for
    the stream, which without the attempt would be recorded and waited for. *)
Theorem rt_failed_begin_capture :
  let '(ret, s) := rtStreamBeginCapture refusing_env 7 0 ex_idle in
  let s1 := launch_dim refusing_env 7 s 4 in
  let s2 := launch_dim refusing_env 7 ex_idle 4 in
  ret = 107003 ∧ records (stat s1) = [] ∧ synced (synchronize_and_clear_streams (strm s1)) = [] ∧
  records (stat s2) = [(4, 1)] ∧ synced (synchronize_and_clear_streams (strm s2)) = [7].
Proof. vm_compute. repeat split. Qed.
