(* ===== verification/RtDevice.v ===== *)
(** The memory functions of the device driver, as the runtime calls them
    (vcann-rt/src/swap_executor.c, swap_hook.c, ascend/memory.c).

    The driver is not part of the sources: it is the class [Device] of its
    functions on a state [D], and [DeviceLaws] states what its documentation
    promises of them.  A code of 0 is success.  [SimDevice], at the end, is a
    device that keeps the laws. *)

From S2P Require Import Prelude.

(** [P] is [rtDrvMemProp_t]. *)
Class Device (D P : Type) := {
  dev_granularity : P -> D -> Z * Z;
  (** size, properties, flags: code, handle *)
  dev_malloc_physical : Z -> P -> Z -> D -> Z * Z * D;
  dev_free_physical : Z -> D -> Z * D;
  dev_reserve : Z -> D -> Z * Z * D;
  dev_release : Z -> D -> Z * D;
  (** address, size, offset, handle, flags *)
  dev_map : Z -> Z -> Z -> Z -> Z -> D -> Z * D;
  dev_unmap : Z -> D -> Z * D;
  (** [rtMemcpy] from and to the device: the bytes that reach the host *)
  dev_copy_out : Z -> Z -> D -> Z * list Z * D;
  dev_copy_in : Z -> list Z -> D -> Z * D;
  (** [rtMemGetInfoEx]: code, free, total *)
  dev_mem_info : D -> Z * Z * Z;
  dev_acl_mem_info : D -> Z * Z * Z;
  (** the memory that DCMI reports as used: code, bytes *)
  dev_mem_used : D -> Z * Z;
  (** every other function, by its name *)
  dev_call : string -> list Z -> D -> Z * D;
  (** [side] of the properties, and the properties the runtime fills in *)
  prop_side : P -> Z;
  device_prop : P;
  ACL_MEM_LOCATION_TYPE_DEVICE : Z;
  ACL_ERROR_FAILURE : Z;
  ACL_ERROR_STORAGE_OVER_LIMIT : Z;
  ACL_ERROR_UNINITIALIZE : Z;
  RT_ERROR_INVALID_VALUE : Z;
}.

(** The physical memory by its handle, what is mapped at an address (handle,
    offset, size), and the addresses that are reserved. *)
Class DeviceLaws (D P : Type) `{Device D P} := {
  phys : D -> gmap Z (list Z);
  maps : D -> gmap Z (Z * Z * Z);
  reserved : D -> gset Z;
  granule : Z;
  granule_pos : 0 < granule;
  law_codes : ACL_ERROR_FAILURE <> 0 ∧ ACL_ERROR_STORAGE_OVER_LIMIT <> 0 ∧ ACL_ERROR_UNINITIALIZE <> 0 ∧ RT_ERROR_INVALID_VALUE <> 0;
  law_granularity d rc g : dev_granularity device_prop d = (rc, g) -> rc = 0 -> g = granule;
  law_malloc n p f d rc h d1 : dev_malloc_physical n p f d = (rc, h, d1) ->
    maps d1 = maps d ∧ reserved d1 = reserved d ∧
    if rc =? 0 then h <> 0 ∧ phys d !! h = None ∧ exists l, Z.of_nat (length l) = Z.max 0 n ∧ phys d1 = <[h := l]> (phys d) else phys d1 = phys d;
  law_free h d rc d1 : dev_free_physical h d = (rc, d1) ->
    maps d1 = maps d ∧ reserved d1 = reserved d ∧ phys d1 = if rc =? 0 then delete h (phys d) else phys d;
  law_reserve n d rc va d1 : dev_reserve n d = (rc, va, d1) ->
    maps d1 = maps d ∧ phys d1 = phys d ∧
    if rc =? 0 then va <> 0 ∧ (va ∉ reserved d) ∧ reserved d1 = {[va]} ∪ reserved d else reserved d1 = reserved d;
  law_release va d rc d1 : dev_release va d = (rc, d1) ->
    maps d1 = maps d ∧ phys d1 = phys d ∧ reserved d1 = if rc =? 0 then reserved d ∖ {[va]} else reserved d;
  law_map va n off h f d rc d1 : dev_map va n off h f d = (rc, d1) ->
    phys d1 = phys d ∧ reserved d1 = reserved d ∧ maps d1 = if rc =? 0 then <[va := (h, off, n)]> (maps d) else maps d;
  law_unmap va d rc d1 : dev_unmap va d = (rc, d1) ->
    phys d1 = phys d ∧ reserved d1 = reserved d ∧ maps d1 = if rc =? 0 then delete va (maps d) else maps d;
  law_copy_out va n d rc l d1 h off sz c : dev_copy_out va n d = (rc, l, d1) ->
    phys d1 = phys d ∧ maps d1 = maps d ∧ reserved d1 = reserved d ∧ Z.of_nat (length l) <= Z.max 0 n ∧
    (rc = 0 -> maps d !! va = Some (h, off, sz) -> phys d !! h = Some c -> l = take (Z.to_nat n) (drop (Z.to_nat off) c));
  law_copy_in va l d rc d1 h off sz c : dev_copy_in va l d = (rc, d1) ->
    maps d1 = maps d ∧ reserved d1 = reserved d ∧
    (maps d !! va = Some (h, off, sz) -> phys d !! h = Some c ->
     phys d1 = if rc =? 0 then <[h := take (Z.to_nat off) c ++ l ++ drop (Z.to_nat off + length l) c]> (phys d) else phys d);
}.

(** * A device *)

(** The laws hold of a device that keeps three maps and fails never, or at the
    calls that a script says. *)
Record sim := Sim {
  sim_phys : gmap Z (list Z);
  sim_maps : gmap Z (Z * Z * Z);
  sim_reserved : gset Z;
  sim_next : Z;
  sim_fails : list bool;
  sim_log : list (string * list Z);
}.

(** A call that the script lets fail has no effect. *)
Definition sim_step {A} (d : sim) (a0 : A) (f : sim -> A * sim) : Z * A * sim :=
  let rest := Sim (sim_phys d) (sim_maps d) (sim_reserved d) (sim_next d) (tail (sim_fails d)) (sim_log d) in
  if default false (head (sim_fails d)) then (1, a0, rest) else let '(x, d1) := f rest in (0, x, d1).

Definition sim_fresh (d : sim) : Z :=
  1 + Z.max (sim_next d) (foldr Z.max 0 (elements (dom (sim_phys d)) ++ elements (sim_reserved d) ++ elements (dom (sim_maps d)))).

Definition sim_put (p : gmap Z (list Z)) (m : gmap Z (Z * Z * Z)) (r : gset Z) (d : sim) : sim :=
  Sim p m r (sim_next d) (sim_fails d) (sim_log d).

Definition sim_read (va n : Z) (d : sim) : list Z :=
  match sim_maps d !! va with
  | Some (h, off, _) => take (Z.to_nat n) (drop (Z.to_nat off) (default [] (sim_phys d !! h)))
  | None => []
  end.

Definition sim_write (va : Z) (l : list Z) (d : sim) : sim :=
  match sim_maps d !! va with
  | Some (h, off, _) =>
    match sim_phys d !! h with
    | Some c => sim_put (<[h := take (Z.to_nat off) c ++ l ++ drop (Z.to_nat off + length l) c]> (sim_phys d)) (sim_maps d) (sim_reserved d) d
    | None => d
    end
  | None => d
  end.

(** The device has 1000 bytes. *)
Definition sim_used (d : sim) : Z := map_fold (fun _ l n => Z.of_nat (length l) + n) 0 (sim_phys d).

Definition drop_value {A} (x : Z * A * sim) : Z * sim := (x.1.1, x.2).

#[local] Instance SimDevice : Device sim unit := {
  dev_granularity _ _ := (0, 4);
  dev_malloc_physical n _ _ d := sim_step d 0 (fun d =>
    let h := sim_fresh d in (h, sim_put (<[h := replicate (Z.to_nat n) 0]> (sim_phys d)) (sim_maps d) (sim_reserved d) d));
  dev_free_physical h d := drop_value (sim_step d () (fun d => ((), sim_put (delete h (sim_phys d)) (sim_maps d) (sim_reserved d) d)));
  dev_reserve _ d := sim_step d 0 (fun d =>
    let va := sim_fresh d in (va, sim_put (sim_phys d) (sim_maps d) ({[va]} ∪ sim_reserved d) d));
  dev_release va d := drop_value (sim_step d () (fun d => ((), sim_put (sim_phys d) (sim_maps d) (sim_reserved d ∖ {[va]}) d)));
  dev_map va n off h _ d := drop_value (sim_step d () (fun d => ((), sim_put (sim_phys d) (<[va := (h, off, n)]> (sim_maps d)) (sim_reserved d) d)));
  dev_unmap va d := drop_value (sim_step d () (fun d => ((), sim_put (sim_phys d) (delete va (sim_maps d)) (sim_reserved d) d)));
  dev_copy_out va n d := sim_step d [] (fun d => (sim_read va n d, d));
  dev_copy_in va l d := drop_value (sim_step d () (fun d => ((), sim_write va l d)));
  dev_mem_info d := (0, 1000 - sim_used d, 1000);
  dev_acl_mem_info d := (0, 1000 - sim_used d, 1000);
  dev_mem_used d := (0, sim_used d);
  dev_call name args d := (0, Sim (sim_phys d) (sim_maps d) (sim_reserved d) (sim_next d) (sim_fails d) (sim_log d ++ [(name, args)]));
  prop_side _ := 1;
  device_prop := ();
  ACL_MEM_LOCATION_TYPE_DEVICE := 1;
  ACL_ERROR_FAILURE := 500000;
  ACL_ERROR_STORAGE_OVER_LIMIT := 200001;
  ACL_ERROR_UNINITIALIZE := 100001;
  RT_ERROR_INVALID_VALUE := 107000;
}.

Lemma foldr_max_bound (l : list Z) x : x ∈ l -> x <= foldr Z.max 0 l.
Proof. induction 1; cbn; lia. Qed.

Lemma sim_fresh_new d : sim_phys d !! sim_fresh d = None ∧ (sim_fresh d ∉ sim_reserved d) ∧ 0 < sim_fresh d.
Proof.
  set (l := elements (dom (sim_phys d)) ++ elements (sim_reserved d) ++ elements (dom (sim_maps d))).
  assert (H : forall x, x ∈ l -> x < sim_fresh d).
  { intros x Hx. pose proof (foldr_max_bound _ _ Hx). unfold sim_fresh. fold l. lia. }
  assert (Hp : 0 <= foldr Z.max 0 l) by (clear; induction l; cbn; lia).
  split; [|split].
  - apply not_elem_of_dom. intros Hi. enough (sim_fresh d < sim_fresh d) by lia. apply H. unfold l. set_solver.
  - intros Hi. enough (sim_fresh d < sim_fresh d) by lia. apply H. unfold l. set_solver.
  - unfold sim_fresh. fold l. lia.
Qed.

(** Both outcomes of a scripted call. *)
Ltac sim_cases H := cbn in H; unfold drop_value, sim_step in H; cbn in H;
  destruct (default false (head (sim_fails _))); cbn in H; simplify_eq; cbn.

#[local] Program Instance SimLaws : DeviceLaws sim unit := {
  phys := sim_phys;
  maps := sim_maps;
  reserved := sim_reserved;
  granule := 4;
}.
Next Obligation. done. Qed.
Next Obligation. done. Qed.
Next Obligation. intros d rc g [= <- <-] _. done. Qed.
Next Obligation.
  intros n p f d rc h d1 H. sim_cases H; [done|]. split; [done|]. split; [done|].
  match goal with |- context [sim_fresh ?x] => destruct (sim_fresh_new x) as (H1 & _ & H3) end.
  split; [lia|]. split; [done|]. eexists. split; [|done]. rewrite length_replicate. lia.
Qed.
Next Obligation. intros h d rc d1 H. by sim_cases H. Qed.
Next Obligation.
  intros n d rc va d1 H. sim_cases H; [done|]. split; [done|]. split; [done|].
  match goal with |- context [sim_fresh ?x] => destruct (sim_fresh_new x) as (_ & H2 & H3) end. split; [lia|done].
Qed.
Next Obligation. intros va d rc d1 H. by sim_cases H. Qed.
Next Obligation. intros va n off h f d rc d1 H. by sim_cases H. Qed.
Next Obligation. intros va d rc d1 H. by sim_cases H. Qed.
Next Obligation.
  intros va n d rc l d1 h off sz c H. sim_cases H; [split_and!; (done || lia)|]. split_and!; try done.
  - unfold sim_read. repeat case_match; cbn; try lia. rewrite length_take. lia.
  - intros _ Hm Hp. unfold sim_read. cbn. by rewrite Hm, Hp.
Qed.
Next Obligation.
  intros va l d rc d1 h off sz c H. sim_cases H; [done|]. unfold sim_write. cbn. split; [|split].
  - by repeat case_match.
  - by repeat case_match.
  - intros Hm Hp. by rewrite Hm, Hp.
Qed.
