(* ===== verification/SwapExec.v ===== *)
(** The swap executor, the swap hook and the monitor thread of a process
    (vcann-rt/src/swap_executor.c, swap_hook.c, swap_monitor_thread.c) and the
    request for memory (check_and_swap_out of vcann-rt/src/npu_manager.c).

    A process has the device, the bytes of the swap buffer, the tracker of its
    allocations, the shared state of the die and its two locks.  [None] is a
    call that is undefined or does not return. *)

From S2P Require Import Prelude CLib SwapTlsf ShmManager RtShm HashMap MemoryTracker RtDevice.

Definition SWAP_OUT_MAX_RETRY : nat := 10.

Section exec.
Context {D P : Type} `{Device D P}.

(** * The device and the swap buffer *)

Record world := World { w_dev : D; w_host : gmap Z Z }.

Definition host_write (a : Z) (l : list Z) (h : gmap Z Z) : gmap Z Z := list_to_map (zip (seqZ a (Z.of_nat (length l))) l) ∪ h.
Definition host_read (a n : Z) (h : gmap Z Z) : list Z := (fun i => default 0 (h !! i)) <$> seqZ a n.

(** A sequence of driver calls that stops at the first failure: the code of
    the failure, or a value. *)
Definition W (A : Type) : Type := world -> (Z + A) * world.

#[global] Instance W_ret : MRet W := fun A x w => (inr x, w).
#[global] Instance W_bind : MBind W := fun A B f m w =>
  match m w with (inl rc, w1) => (inl rc, w1) | (inr x, w1) => f x w1 end.

Definition on_dev {A} (r : Z * A * D) (w : world) : (Z + A) * world :=
  let '(rc, x, d) := r in (if rc =? 0 then inr x else inl rc, World d (w_host w)).

Definition rt_malloc_physical (n : Z) (p : P) (flags : Z) : W Z := fun w => on_dev (dev_malloc_physical n p flags (w_dev w)) w.
Definition rt_free_physical (h : Z) : W unit := fun w => on_dev (let '(rc, d) := dev_free_physical h (w_dev w) in (rc, (), d)) w.
Definition rt_reserve (n : Z) : W Z := fun w => on_dev (dev_reserve n (w_dev w)) w.
Definition rt_release (va : Z) : W unit := fun w => on_dev (let '(rc, d) := dev_release va (w_dev w) in (rc, (), d)) w.
Definition rt_map (va n off h flags : Z) : W unit := fun w => on_dev (let '(rc, d) := dev_map va n off h flags (w_dev w) in (rc, (), d)) w.
Definition rt_unmap (va : Z) : W unit := fun w => on_dev (let '(rc, d) := dev_unmap va (w_dev w) in (rc, (), d)) w.

(** [rtMemcpy] between the device and the buffer. *)
Definition rt_copy_out (dst va n : Z) : W unit := fun w =>
  let '(rc, l, d) := dev_copy_out va n (w_dev w) in (if rc =? 0 then inr () else inl rc, World d (host_write dst l (w_host w))).
Definition rt_copy_in (va src n : Z) : W unit := fun w =>
  on_dev (let '(rc, d) := dev_copy_in va (host_read src n (w_host w)) (w_dev w) in (rc, (), d)) w.

(** * The executor *)

(** The address a physical allocation is mapped at, or a new one for the time
    of the copy. *)
Definition map_for_copy (t : memory_tracker P) (r : memory_record) : W (Z * bool) :=
  let '(rc, va) := memory_tracker_get_map_va t (mr_ptr r) in
  if negb (rc =? ENPU_SUCCESS) || (va =? 0) then
    va1 ← rt_reserve (mr_size r); _ ← rt_map va1 (mr_size r) 0 (mr_handle r) 0; mret (va1, true)
  else mret (va, false).

(** One turn of the loop of [swap_executor_swap_out]; a failure leaves the
    rest of the turn. *)
Definition swap_out_record (base : Z) (t : memory_tracker P) (r : memory_record) (current_offset : Z) : W unit :=
  let dst := u64 (base + current_offset) in
  _ ← (if mr_is_physical r then
         '(va, flag) ← map_for_copy t r;
         _ ← rt_copy_out dst va (mr_size r);
         _ ← rt_unmap va;
         if (flag : bool) then rt_release va else mret ()
       else
         _ ← rt_copy_out dst (mr_ptr r) (mr_size r);
         rt_unmap (mr_ptr r));
  rt_free_physical (mr_handle r).

(** The loop: the tracker, the offset, the bytes swapped out, the number of
    records swapped out ([check_record]). *)
Fixpoint swap_out_loop (base : Z) (ps : list Z) (t : memory_tracker P) (current_offset act_swapped check_record : Z) (w : world) :
    option (memory_tracker P * Z * Z * world) :=
  match ps with
  | [] => Some (t, act_swapped, check_record, w)
  | p :: rest =>
    r ← record_at t p;
    if (mr_ptr r =? 0) || mr_is_swapped r then swap_out_loop base rest t current_offset act_swapped check_record w
    else
      match swap_out_record base t r current_offset w with
      | (inl _, w1) => swap_out_loop base rest t current_offset act_swapped check_record w1
      | (inr _, w1) =>
        t1 ← put_record p (memory_record_mark_swapped r current_offset) t;
        swap_out_loop base rest t1 (u64 (current_offset + mr_size r)) (u64 (act_swapped + mr_size r)) (u64 (check_record + 1)) w1
      end
  end.

Definition swap_executor_swap_out (base : Z) (t : memory_tracker P) (records : list Z) (count swap_offset act_swapped check_record : Z) (w : world) :
    option (Z * (memory_tracker P * Z * Z * world)) :=
  if count <=? 0 then Some (RT_FAIL, (t, act_swapped, check_record, w))
  else
    x ← swap_out_loop base (take (Z.to_nat count) records) t swap_offset act_swapped 0 w;
    Some (ENPU_SUCCESS, x).

(** What follows a failed call: the physical memory is given back. *)
Definition undo_malloc (h : Z) (w : world) : Z * world := (RT_FAIL, (rt_free_physical h w).2).

(** The code and what the pointers [ptr], [size] and [new_handle] refer to
    afterwards. *)
Definition swap_executor_swap_in (base ptr offset size handle : Z) (memcpy : bool) (w : world) : option (Z * (Z * Z * Z) * world) :=
  let '(rc, granularity) := dev_granularity device_prop (w_dev w) in
  if negb (rc =? 0) then Some (RT_FAIL, (ptr, size, handle), w)
  else if granularity =? 0 then None
  else
    let alignedSize := u64 (u64 (u64 (size + granularity) - 1) / granularity * granularity) in
    match rt_malloc_physical alignedSize device_prop 0 w with
    | (inl _, w1) => Some (RT_FAIL, (ptr, size, handle), w1)
    | (inr h, w1) =>
      let '(res, w2) := (if memcpy then mret ptr else rt_reserve alignedSize) w1 in
      match res with
      | inl rc => Some (rc, (ptr, size, h), w2)
      | inr va =>
        match rt_map va alignedSize 0 h 0 w2 with
        | (inl _, w3) => let '(rc, w4) := undo_malloc h w3 in Some (rc, (va, size, h), w4)
        | (inr _, w3) =>
          if negb memcpy then Some (ENPU_SUCCESS, (va, alignedSize, h), w3)
          else
            match rt_copy_in va (u64 (base + offset)) alignedSize w3 with
            | (inl _, w4) => let '(rc, w5) := undo_malloc h w4 in Some (rc, (va, alignedSize, h), w5)
            | (inr _, w4) => Some (ENPU_SUCCESS, (va, alignedSize, h), w4)
            end
        end
      end
    end.

(** The address of the new memory: the one the program had mapped, or a new one
    for the time of the copy; the former with its size, offset and flags. *)
Definition map_back (t : memory_tracker P) (handle size : Z) : W (Z * bool) :=
  let '(rc, va) := memory_tracker_get_map_va t handle in
  if negb (rc =? ENPU_SUCCESS) || (va =? 0) then va1 ← rt_reserve size; mret (va1, true) else mret (va, false).

Definition map_new (t : memory_tracker P) (va : Z) (flag : bool) (size h : Z) : W unit :=
  if flag then rt_map va size 0 h 0
  else match memory_tracker_get_map_prop t va with
       | (rc, Some (map_size, map_offset, map_flags)) => if rc =? ENPU_SUCCESS then rt_map va map_size map_offset h map_flags else rt_map va size 0 h 0
       | (_, None) => rt_map va size 0 h 0
       end.

Definition swap_executor_swap_in_physical (base : Z) (t : memory_tracker P) (handle offset size new_handle : Z) (w : world) :
    Z * (Z * Z) * world :=
  if handle =? 0 then (RT_FAIL, (size, new_handle), w)
  else
    let '(size1, prop, flags) :=
      match memory_tracker_get_handle_prop t handle with (_, Some x) => x | (_, None) => (size, device_prop, 0) end in
    match rt_malloc_physical size1 prop flags w with
    | (inl _, w1) => (RT_FAIL, (size1, new_handle), w1)
    | (inr h, w1) =>
      match map_back t handle size1 w1 with
      | (inl _, w2) => (RT_FAIL, (size1, h), w2)
      | (inr (va, flag), w2) =>
        match map_new t va flag size1 h w2 with
        | (inl _, w3) => let '(rc, w4) := undo_malloc h w3 in (rc, (size1, h), w4)
        | (inr _, w3) =>
          match rt_copy_in va (u64 (base + offset)) size1 w3 with
          | (inl _, w4) => let '(rc, w5) := undo_malloc h w4 in (rc, (size1, h), w5)
          | (inr _, w4) =>
            if flag then
              match rt_unmap va w4 with
              | (inl _, w5) => (RT_FAIL, (size1, h), w5)
              | (inr _, w5) => match rt_release va w5 with (inl _, w6) => (RT_FAIL, (size1, h), w6) | (inr _, w6) => (ENPU_SUCCESS, (size1, h), w6) end
              end
            else (ENPU_SUCCESS, (size1, h), w4)
          end
        end
      end
    end.

(** * The process *)

Record rt_mem := RtMem {
  m_world : world;
  m_tracker : memory_tracker P;
  m_check_record : Z;
  m_check_record_in : Z;
  m_shm : option shm_state;
  m_slot : Z;
  m_seen_seq : Z;
  m_tracker_lock : Z;
  m_swap_in_mutex : bool;
}.

(** The configuration of the process and the answers of the C library:
    [c_others] is the state in which a process that waits for the request for
    memory to be completed finds the die, when it ever is; [c_lock_rc] is what
    the lock of a swap-in answers. *)
Record rt_cfg := RtCfg {
  c_vnpu : Z;
  c_request : Z;
  c_limit : Z;
  c_base : Z;
  c_put_malloc : bool;
  c_env : tracker_env;
  c_remove_malloc : nat -> bool;
  c_node_malloc : bool;
  c_collect_malloc : bool;
  c_now : Z;
  c_others : shm_state -> world -> option (shm_state * world);
  c_lock_rc : Z;
}.

Context (cf : rt_cfg).

(** [get_swap_enabled] *)
Definition swap_enabled : bool := negb (c_request cf =? c_limit cf).

Definition set_world (w : world) (s : rt_mem) : rt_mem :=
  RtMem w (m_tracker s) (m_check_record s) (m_check_record_in s) (m_shm s) (m_slot s) (m_seen_seq s) (m_tracker_lock s) (m_swap_in_mutex s).
Definition set_tracker (t : memory_tracker P) (s : rt_mem) : rt_mem :=
  RtMem (m_world s) t (m_check_record s) (m_check_record_in s) (m_shm s) (m_slot s) (m_seen_seq s) (m_tracker_lock s) (m_swap_in_mutex s).
Definition set_shm (x : shm_state) (s : rt_mem) : rt_mem :=
  RtMem (m_world s) (m_tracker s) (m_check_record s) (m_check_record_in s) (Some x) (m_slot s) (m_seen_seq s) (m_tracker_lock s) (m_swap_in_mutex s).
Definition set_check_in (n : Z) (s : rt_mem) : rt_mem :=
  RtMem (m_world s) (m_tracker s) (m_check_record s) n (m_shm s) (m_slot s) (m_seen_seq s) (m_tracker_lock s) (m_swap_in_mutex s).
Definition set_check (n : Z) (s : rt_mem) : rt_mem :=
  RtMem (m_world s) (m_tracker s) n (m_check_record_in s) (m_shm s) (m_slot s) (m_seen_seq s) (m_tracker_lock s) (m_swap_in_mutex s).
Definition set_seen (q : Z) (s : rt_mem) : rt_mem :=
  RtMem (m_world s) (m_tracker s) (m_check_record s) (m_check_record_in s) (m_shm s) (m_slot s) q (m_tracker_lock s) (m_swap_in_mutex s).
Definition set_locks (n : Z) (b : bool) (s : rt_mem) : rt_mem :=
  RtMem (m_world s) (m_tracker s) (m_check_record s) (m_check_record_in s) (m_shm s) (m_slot s) (m_seen_seq s) n b.

(** The counters of the memory of a process and of its vNPU, changed by [f];
    nothing without an entry, and the one of the process with a slot only. *)
Definition set_p_used (x : Z) (p : process_entry) : process_entry :=
  mk_process (p_vcann_rt_id p) (p_pid p) (p_swapped p) (p_active p) (p_last_heartbeat_ns p) x (p_swap_offset p) (p_swap_size p)
    (p_ack_pending_seq p).

Definition account (f : Z -> Z) (slot : Z) (s : shm_state) : option shm_state :=
  match shm_get_entry s (c_vnpu cf) with
  | None => Some s
  | Some _ =>
    s1 ← (if 0 <=? slot then p ← process_at s (c_vnpu cf) slot; Some (put_process (c_vnpu cf) slot (set_p_used (f (p_hbm_used p)) p) s) else Some s);
    e ← entry_at s1 (c_vnpu cf);
    Some (put_entry (c_vnpu cf) (set_e_hbm_used (f (e_hbm_used e)) e) s1)
  end.

Definition account_mem (f : Z -> Z) (s : rt_mem) : option rt_mem :=
  match m_shm s with None => Some s | Some x => x1 ← account f (m_slot s) x; Some (set_shm x1 s) end.

(** * Requests for memory ([check_and_swap_out]) *)

(** [do ... while (!completed)] *)
Definition wait_completed (x : shm_state) (w : world) : option (shm_state * world) :=
  if out_completed (st_swap_out_cmd x) then Some (x, w)
  else '(x1, w1) ← c_others cf x w; if out_completed (st_swap_out_cmd x1) then Some (x1, w1) else None.

Definition request_swap_out (flag : Z) (x : shm_state) : shm_state :=
  let existing := out_action (st_swap_out_cmd x) in
  if (existing =? SWAP_OUT_NONE) || ((flag =? SWAP_OUT_FROM_ALL) && (existing =? SWAP_OUT_FROM_BORROWED))
  then set_st_cmds (st_swap_cmd x) (mk_swap_out_cmd (c_vnpu cf) flag false) x else x.

Fixpoint swap_out_retry (fuel : nat) (requested flag : Z) (s : rt_mem) : option (Z * rt_mem) :=
  match fuel with
  | O => Some (RT_FAIL, s)
  | S fuel1 =>
    let '(ret, freeSize, _) := dev_mem_info (w_dev (m_world s)) in
    if negb (ret =? 0) then Some (RT_FAIL, s)
    else if requested <=? freeSize then Some (ENPU_SUCCESS, s)
    else
      x ← m_shm s;
      '(x1, w1) ← wait_completed x (m_world s);
      '(x2, w2) ← wait_completed (request_swap_out flag x1) w1;
      swap_out_retry fuel1 requested flag (set_world w2 (set_shm x2 s))
  end.

Definition check_and_swap_out (requested flag : Z) (s : rt_mem) : option (Z * rt_mem) := swap_out_retry SWAP_OUT_MAX_RETRY requested flag s.

(** * The swap hook *)

(** [*ptr] after the call, 0 when nothing was written. *)
Definition swap_hook_malloc_mem (size : Z) (s : rt_mem) : option (Z * Z * rt_mem) :=
  '(rc, (ptr, size1, handle), w1) ← swap_executor_swap_in (c_base cf) 0 0 size 0 false (m_world s);
  let s1 := set_world w1 s in
  if negb (rc =? ENPU_SUCCESS) then Some (rc, ptr, s1)
  else
    '(rc, t1) ← memory_tracker_add (c_put_malloc cf) (c_env cf) (c_now cf) (m_tracker s1) ptr size1 handle false;
    let s2 := set_tracker t1 s1 in
    if negb (rc =? ENPU_SUCCESS) then Some (rc, ptr, s2)
    else s3 ← account_mem (fun x => u64 (x + size1)) s2; Some (ENPU_SUCCESS, ptr, s3).

Definition swap_hook_malloc_physical_mem (handle size : Z) (prop : P) (flags : Z) (s : rt_mem) : option (Z * rt_mem) :=
  '(rc, t1) ← memory_tracker_add (c_put_malloc cf) (c_env cf) (c_now cf) (m_tracker s) handle size handle true;
  let s1 := set_tracker t1 s in
  if negb (rc =? ENPU_SUCCESS) then Some (rc, s1)
  else
    let '(rc, t2) := memory_tracker_add_handle_record (c_node_malloc cf) t1 handle size prop flags in
    let s2 := set_tracker t2 s1 in
    if negb (rc =? ENPU_SUCCESS) then Some (rc, s2)
    else s3 ← account_mem (fun x => u64 (x + size)) s2; Some (ENPU_SUCCESS, s3).

(** One turn of the loop over the records. *)
Definition swap_in_one (i : nat) (s : rt_mem) : option rt_mem :=
  let p := record_addr (t_base (m_tracker s)) (Z.of_nat i) in
  r ← record_at (m_tracker s) p;
  if negb (mr_is_swapped r) then Some s
  else
    '(ret, r1, w1) ←
      (if mr_is_physical r then
         let '(ret, (size, handle), w1) :=
           swap_executor_swap_in_physical (c_base cf) (m_tracker s) (mr_ptr r) (mr_swap_offset r) (mr_size r) (mr_handle r) (m_world s) in
         Some (ret, mk_record (mr_ptr r) size handle (mr_is_swapped r) (mr_is_physical r) (mr_swap_offset r) (mr_alloc_time_ns r), w1)
       else
         '(ret, (ptr, size, handle), w1) ←
           swap_executor_swap_in (c_base cf) (mr_ptr r) (mr_swap_offset r) (mr_size r) (mr_handle r) true (m_world s);
         Some (ret, mk_record ptr size handle (mr_is_swapped r) (mr_is_physical r) (mr_swap_offset r) (mr_alloc_time_ns r), w1));
    t1 ← put_record p r1 (m_tracker s);
    let s1 := set_tracker t1 (set_world w1 s) in
    if negb (ret =? ENPU_SUCCESS) then Some s1
    else
      '(ret, t2) ← memory_tracker_mark_active t1 (mr_ptr r1) (mr_handle r1);
      if negb (ret =? ENPU_SUCCESS) then Some (set_tracker t2 s1) else Some (set_check_in (u64 (m_check_record_in s1 + 1)) (set_tracker t2 s1)).

Fixpoint swap_in_loop (is_ : list nat) (s : rt_mem) : option rt_mem :=
  match is_ with [] => Some s | i :: rest => s1 ← swap_in_one i s; swap_in_loop rest s1 end.

(** What follows the loop when the swapped size is not 0. *)
Definition restore_counters (used : Z) (s : rt_mem) : option rt_mem :=
  x ← m_shm s;
  p ← process_at x (c_vnpu cf) (m_slot s);
  let x1 := put_process (c_vnpu cf) (m_slot s) (set_p_used (u64 (p_hbm_used p + used)) p) x in
  x2 ← match shm_get_entry x1 (c_vnpu cf) with
       | None => Some x1
       | Some e => Some (put_entry (c_vnpu cf) (set_e_hbm_used (u64 (e_hbm_used e + used)) e) x1)
       end;
  x3 ← shm_set_process_swapped x2 (c_vnpu cf) (m_slot s) false;
  Some (set_shm x3 s).

Definition lock_tracker (s : rt_mem) : rt_mem := set_locks (m_tracker_lock s + 1) (m_swap_in_mutex s) s.
Definition unlock_tracker (s : rt_mem) : rt_mem := set_locks (m_tracker_lock s - 1) (m_swap_in_mutex s) s.

(** [EOWNERDEAD] *)
Definition OWNER_DEAD : Z := 130.

(** The part under both locks, after memory has been made available. *)
Definition swap_in_all (s : rt_mem) : option (Z * rt_mem) :=
  x ← m_shm s;
  p ← process_at x (c_vnpu cf) (m_slot s);
  let used := p_swap_size p in
  s1 ← swap_in_loop (seq 0 (Z.to_nat (t_count (m_tracker s)))) (set_check_in 0 s);
  s2 ← (if negb (used =? 0) then restore_counters used s1 else Some s1);
  Some (ENPU_SUCCESS, set_locks (m_tracker_lock s2 - 1) false s2).

Definition swap_in_locked (s : rt_mem) : option (Z * rt_mem) :=
  x ← m_shm s;
  p ← process_at x (c_vnpu cf) (m_slot s);
  '(ret, s1) ← check_and_swap_out (p_swap_size p) SWAP_OUT_FROM_ALL s;
  if negb (ret =? ENPU_SUCCESS) then Some (ret, s1) else swap_in_all s1.

(** [hook] is NULL when the initialisation has failed. *)
Definition swap_hook_check_and_swap_in (hook : bool) (s : rt_mem) : option (Z * rt_mem) :=
  if negb hook || negb swap_enabled then Some (ENPU_SUCCESS, s)
  else
    let s1 := lock_tracker s in
    if m_slot s1 <? 0 then Some (ENPU_SUCCESS, unlock_tracker s1)
    else
      swapped ← match m_shm s1 with None => Some false | Some x => shm_get_process_swapped x (c_vnpu cf) (m_slot s1) end;
      if negb swapped then Some (ENPU_SUCCESS, unlock_tracker s1)
      else if m_swap_in_mutex s1 then None
      else if negb ((c_lock_rc cf =? 0) || (c_lock_rc cf =? OWNER_DEAD)) then Some (RT_FAIL, s1)
      else swap_in_locked (set_locks (m_tracker_lock s1) true s1).

(** The code of a call whose failure is only logged. *)
Definition run_logged {A} (m : W A) (s : rt_mem) : bool * rt_mem :=
  let '(res, w1) := m (m_world s) in (match res with inl _ => false | inr _ => true end, set_world w1 s).

Definition swap_hook_free_mem (hook : bool) (ptr : Z) (s : rt_mem) : option (Z * rt_mem) :=
  if negb hook then Some (RT_FAIL, s)
  else
    match rt_unmap ptr (m_world s) with
    | (inl rc, w1) => Some (rc, set_world w1 s)
    | (inr _, w1) =>
      let s1 := set_world w1 s in
      found ← memory_tracker_find (m_tracker s1) ptr;
      match found with
      | None => Some (RT_FAIL, s1)
      | Some p =>
        r ← record_at (m_tracker s1) p;
        let '(freed, s2) := run_logged (rt_free_physical (mr_handle r)) s1 in
        let s3 := if freed then (run_logged (rt_release ptr) s2).2 else s2 in
        '(rc, t1) ← memory_tracker_remove (c_remove_malloc cf) (m_tracker s3) ptr;
        let s4 := set_tracker t1 s3 in
        if negb (rc =? ENPU_SUCCESS) then Some (rc, s4)
        else s5 ← account_mem (fun x => u64 (x - mr_size r)) s4; Some (ENPU_SUCCESS, s5)
      end
    end.

Definition swap_hook_free_physical_mem (hook : bool) (handle : Z) (s : rt_mem) : option (Z * rt_mem) :=
  if negb hook then Some (RT_FAIL, s)
  else
    found ← memory_tracker_find (m_tracker s) handle;
    match found with
    | None => match rt_free_physical handle (m_world s) with (inl rc, w1) => Some (rc, set_world w1 s) | (inr _, w1) => Some (0, set_world w1 s) end
    | Some p =>
      r ← record_at (m_tracker s) p;
      let s1 := (run_logged (rt_free_physical (mr_handle r)) s).2 in
      '(rc, t1) ← memory_tracker_remove (c_remove_malloc cf) (m_tracker s1) (mr_ptr r);
      let s2 := set_tracker t1 s1 in
      if negb (rc =? ENPU_SUCCESS) then Some (rc, s2)
      else
        let '(rc, t2) := memory_tracker_remove_handle_record t1 handle in
        let s3 := set_tracker t2 s2 in
        if negb (rc =? ENPU_SUCCESS) then Some (rc, s3)
        else s4 ← account_mem (fun x => u64 (x - mr_size r)) s3; Some (ENPU_SUCCESS, s4)
    end.

(** The code and the handle afterwards. *)
Definition swap_hook_map_mem (hook : bool) (devPtr size offset handle flags : Z) (s : rt_mem) : option (Z * Z * rt_mem) :=
  if negb hook then Some (RT_FAIL, handle, s)
  else
    found ← memory_tracker_find (m_tracker s) handle;
    match found with
    | None => Some (ENPU_SUCCESS, handle, s)
    | Some p =>
      r ← record_at (m_tracker s) p;
      let '(rc, t1) := memory_tracker_add_map_record (c_node_malloc cf) (m_tracker s) devPtr size offset (mr_ptr r) flags in
      Some (rc, mr_handle r, set_tracker t1 s)
    end.

Definition swap_hook_unmap_mem (hook : bool) (devPtr : Z) (s : rt_mem) : Z * rt_mem :=
  if negb hook then (RT_FAIL, s)
  else let '(rc, t1) := memory_tracker_remove_map_record (m_tracker s) devPtr in (rc, set_tracker t1 s).

(** * The monitor thread *)

(** [swap_ack_and_decrement] *)
Definition swap_ack_and_decrement (cmd_vnpu_id seq : Z) (s : rt_mem) : option rt_mem :=
  x ← m_shm s;
  '(_, x1) ← shm_try_ack_swap_cmd x cmd_vnpu_id (m_slot s) seq;
  Some (set_shm x1 s).

Definition clamp (act used : Z) : Z := if act <? used then act else used.

(** The counters after a swap-out of [act] bytes. *)
Definition discount (act : Z) (s : rt_mem) : option rt_mem :=
  x ← m_shm s;
  p ← process_at x (c_vnpu cf) (m_slot s);
  let dec := clamp act (p_hbm_used p) in
  let p1 := set_p_used (if 0 <? dec then u64 (p_hbm_used p - dec) else p_hbm_used p) (set_p_swap (p_swap_offset p) act p) in
  let x1 := put_process (c_vnpu cf) (m_slot s) p1 x in
  e ← entry_at x1 (c_vnpu cf);
  let dec := clamp act (e_hbm_used e) in
  let x2 := put_entry (c_vnpu cf) (set_e_hbm_used (if 0 <? dec then u64 (e_hbm_used e - dec) else e_hbm_used e) e) x1 in
  p2 ← process_at x2 (c_vnpu cf) (m_slot s);
  Some (set_shm (put_process (c_vnpu cf) (m_slot s) (set_p_swapped true p2) x2) s).

(** The swap-out under the lock of the tracker. *)
Definition swap_out_locked (s : rt_mem) : option rt_mem :=
  match memory_tracker_collect_records (c_collect_malloc cf) (m_tracker s) with
  | (_, None) => Some s
  | (_, Some (records, count)) =>
    if count =? 0 then Some s
    else
      x ← m_shm s;
      p ← process_at x (c_vnpu cf) (m_slot s);
      '(_, (t1, act, check, w1)) ←
        swap_executor_swap_out (c_base cf) (m_tracker s) records count (p_swap_offset p) 0 (m_check_record s) (m_world s);
      let s1 := set_check check (set_tracker t1 (set_world w1 s)) in
      if 0 <? act then discount act s1 else Some s1
  end.

(** One turn of the loop of the thread; it waits for the lock of the tracker. *)
Definition swap_monitor_round (s : rt_mem) : option rt_mem :=
  x ← m_shm s;
  let '(cmd_vnpu_id, action) := shm_check_swap_cmd x in
  if (action =? SWAP_ACTION_NONE) || negb (cmd_vnpu_id =? c_vnpu cf) || (action =? SWAP_ACTION_IN) || negb (action =? SWAP_ACTION_OUT)
  then Some s
  else
    let current_seq := cmd_seq (st_swap_cmd x) in
    if current_seq =? m_seen_seq s then Some s
    else
      let s1 := set_seen current_seq s in
      p ← process_at x (c_vnpu cf) (m_slot s1);
      s2 ← (if p_swapped p then Some s1
            else match shm_get_entry x (c_vnpu cf) with
                 | None => Some s1
                 | Some _ => if 0 <? m_tracker_lock s1 then None else swap_out_locked s1
                 end);
      swap_ack_and_decrement cmd_vnpu_id current_seq s2.

(** Before the loop. *)
Definition swap_monitor_begin (s : rt_mem) : option rt_mem :=
  x ← m_shm s;
  p ← process_at x (c_vnpu cf) (m_slot s);
  Some (set_shm (put_process (c_vnpu cf) (m_slot s) (set_p_swapped false p) x) s).

End exec.
Arguments world : clear implicits.
Arguments rt_mem : clear implicits.
Arguments rt_cfg : clear implicits.
