(* ===== verification/MemHooks.v ===== *)
(** The memory limiter (vcann-rt/src/mem_limiter.c) and the hooks on the
    memory functions of the driver (vcann-rt/src/ascend/memory.c). *)

From S2P Require Import Prelude CLib SwapTlsf ShmManager RtShm HashMap MemoryTracker RtDevice SwapExec.

(** What the hooks find: the code of [log_init], whether the initialisation has
    succeeded, whether the acl interface is hooked, whether there is a swap
    hook, and whether the lock file can be locked. *)
Record hook_env := HookEnv {
  h_log : Z;
  h_init : bool;
  h_impl : bool;
  h_hook : bool;
  h_lock_ok : bool;
}.

Section hooks.
Context {D P : Type} `{Device D P} (cf : rt_cfg D) (he : hook_env).

(** * The limiter *)

Definition get_mem_used (s : rt_mem D P) : Z * Z := dev_mem_used (w_dev (m_world s)).

Definition get_mem_dynamic_free (s : rt_mem D P) : Z := match m_shm s with None => 0 | Some x => shm_get_dynamic_free x end.

(** [__builtin_add_overflow] on [size_t] *)
Definition add_overflow (a b : Z) : bool := U64_MOD <=? a + b.

Definition memory_check (requested : Z) (s : rt_mem D P) : bool :=
  let '(ret, used) := get_mem_used s in
  if negb (ret =? 0) then false
  else if add_overflow requested used then false
  else if c_limit cf <? requested + used then false else true.

Definition memory_check_elastic (requested : Z) (s : rt_mem D P) : option (bool * rt_mem D P) :=
  let '(ret, used) := get_mem_used s in
  if negb (ret =? 0) then Some (false, s)
  else if add_overflow requested used then Some (false, s)
  else
    let new_total := requested + used in
    if c_limit cf <? new_total then Some (false, s)
    else if (c_request cf =? 0) || (new_total <=? c_request cf) then
      '(ret, s1) ← check_and_swap_out cf requested SWAP_OUT_FROM_BORROWED s;
      Some (ret =? ENPU_SUCCESS, s1)
    else
      let dynamic_free := get_mem_dynamic_free s in
      let borrow_needed := if c_request cf <? used then requested else u64 (new_total - c_request cf) in
      Some (borrow_needed <=? dynamic_free, s).

(** The argument [swap_enabled] is [get_swap_enabled()] at every call. *)
Definition guard_memory (requested : Z) (s : rt_mem D P) : option (Z * rt_mem D P) :=
  if negb (h_lock_ok he) then Some (ACL_ERROR_FAILURE, s)
  else
    '(ok, s1) ← (if swap_enabled cf then memory_check_elastic requested s else Some (memory_check requested s, s));
    Some (if (ok : bool) then ENPU_SUCCESS else ACL_ERROR_STORAGE_OVER_LIMIT, s1).

(** * The shapes of the hooks *)

Definition mem_hook : Type := rt_mem D P -> option (Z * rt_mem D P).

Definition on_device (f : D -> Z * D) : mem_hook := fun s =>
  let '(rc, d) := f (w_dev (m_world s)) in Some (rc, set_world (World d (w_host (m_world s))) s).

(** [log_init], [enpu_global_init] and [check_init_success] *)
Definition initialised (body : mem_hook) : mem_hook := fun s =>
  if negb (h_log he =? ENPU_SUCCESS) then Some (h_log he, s)
  else if negb (h_init he) then Some (ACL_ERROR_UNINITIALIZE, s) else body s.

(** The call is reached only after a successful swap-in. *)
Definition after_swap_in (body : mem_hook) : mem_hook := fun s =>
  '(ret, s1) ← swap_hook_check_and_swap_in cf (h_hook he) s;
  if negb (ret =? ENPU_SUCCESS) then Some (ret, s1) else body s1.

(** An allocation that is limited and forwarded. *)
Definition guarded_hook (impl : bool) (name : string) (args : list Z) (size : Z) : mem_hook := fun s =>
  if impl && negb (h_impl he) then on_device (dev_call name args) s
  else
    '(ret, s1) ← guard_memory size s;
    if negb (ret =? ENPU_SUCCESS) then Some (ret, s1) else on_device (dev_call name args) s1.

(** A function that uses device memory. *)
Definition touch_hook (name : string) (args : list Z) : mem_hook :=
  initialised (fun s =>
    match m_shm s with
    | None => on_device (dev_call name args) s
    | Some _ => after_swap_in (on_device (dev_call name args)) s
    end).

(** * Allocation and release *)

(** The code, [*devPtr] and the state; 0 when nothing is written. *)
Definition rtMalloc (devPtr size type moduleId : Z) (s : rt_mem D P) : option (Z * Z * rt_mem D P) :=
  '(ret, s1) ← guard_memory size s;
  if negb (ret =? ENPU_SUCCESS) then Some (ret, 0, s1)
  else if negb (h_hook he) then '(rc, s2) ← on_device (dev_call "rtMalloc" [devPtr; size; type; moduleId]) s1; Some (rc, 0, s2)
  else
    '(ret, s2) ← swap_hook_check_and_swap_in cf (h_hook he) s1;
    if negb (ret =? ENPU_SUCCESS) then Some (ret, 0, s2)
    else
      '(ret, ptr, s3) ← swap_hook_malloc_mem cf size s2;
      Some (if negb (ret =? ENPU_SUCCESS) then ret else 0, ptr, s3).

(** The code, [*handle] and the state; [prop] may be NULL. *)
Definition rtMallocPhysical (size : Z) (prop : option P) (flags : Z) (s : rt_mem D P) : option (Z * Z * rt_mem D P) :=
  let forward (p : P) (s : rt_mem D P) : Z * Z * rt_mem D P :=
    let '(rc, h, d) := dev_malloc_physical size p flags (w_dev (m_world s)) in (rc, h, set_world (World d (w_host (m_world s))) s) in
  match prop with
  | None => '(rc, s1) ← on_device (dev_call "rtMallocPhysical" [size; 0; flags]) s; Some (rc, 0, s1)
  | Some p =>
    if negb (prop_side p =? ACL_MEM_LOCATION_TYPE_DEVICE) then Some (forward p s)
    else
      '(ret, s1) ← guard_memory size s;
      if negb (ret =? ENPU_SUCCESS) then Some (ret, 0, s1)
      else if negb (h_hook he) then Some (forward p s1)
      else
        '(ret, s2) ← swap_hook_check_and_swap_in cf (h_hook he) s1;
        if negb (ret =? ENPU_SUCCESS) then Some (ret, 0, s2)
        else
          let '(ret, h, s3) := forward p s2 in
          if negb (ret =? 0) then Some (ret, h, s3)
          else '(ret, s4) ← swap_hook_malloc_physical_mem cf h size p flags s3; Some (if negb (ret =? ENPU_SUCCESS) then ret else 0, h, s4)
  end.

Definition rtFree (devPtr : Z) : mem_hook :=
  initialised (fun s =>
    match m_shm s with
    | None => on_device (dev_call "rtFree" [devPtr]) s
    | Some _ =>
      after_swap_in (fun s1 => '(ret, s2) ← swap_hook_free_mem cf (h_hook he) devPtr s1; Some (if negb (ret =? ENPU_SUCCESS) then ret else 0, s2)) s
    end).

Definition rtFreePhysical (handle : Z) : mem_hook :=
  initialised (fun s =>
    match m_shm s with
    | None => on_device (dev_free_physical handle) s
    | Some _ =>
      after_swap_in (fun s1 =>
        '(ret, s2) ← swap_hook_free_physical_mem cf (h_hook he) handle s1; Some (if negb (ret =? ENPU_SUCCESS) then ret else 0, s2)) s
    end).

Definition rtMapMem (devPtr size offset handle flags : Z) : mem_hook :=
  initialised (fun s =>
    match m_shm s with
    | None => on_device (dev_map devPtr size offset handle flags) s
    | Some _ =>
      after_swap_in (fun s1 =>
        '(ret, handle1, s2) ← swap_hook_map_mem cf (h_hook he) devPtr size offset handle flags s1;
        if negb (ret =? ENPU_SUCCESS) then Some (ret, s2) else on_device (dev_map devPtr size offset handle1 flags) s2) s
    end).

Definition rtUnmapMem (devPtr : Z) : mem_hook :=
  initialised (fun s =>
    match m_shm s with
    | None => on_device (dev_unmap devPtr) s
    | Some _ =>
      after_swap_in (fun s1 =>
        let '(ret, s2) := swap_hook_unmap_mem (h_hook he) devPtr s1 in
        if negb (ret =? ENPU_SUCCESS) then Some (ret, s2) else on_device (dev_unmap devPtr) s2) s
    end).

(** * What is free *)

(** The code and, when it is 0, ([*freeSize], [*totalSize]). *)
Definition mem_info (freeSize totalSize : Z) (body : Z -> Z -> Z * Z) (s : rt_mem D P) : Z * option (Z * Z) :=
  if negb (h_log he =? ENPU_SUCCESS) then (h_log he, None)
  else if negb (h_init he) then (ACL_ERROR_UNINITIALIZE, None)
  else if (freeSize =? 0) || (totalSize =? 0) then (RT_ERROR_INVALID_VALUE, None)
  else
    let quota := c_limit cf in
    let '(ret, used) := get_mem_used s in
    if negb (ret =? 0) then (RT_ERROR_INVALID_VALUE, None)
    else if quota <? used then (RT_ERROR_INVALID_VALUE, None)
    else (0, Some (body used (quota - used))).

Definition rtMemGetInfoEx (freeSize totalSize : Z) (s : rt_mem D P) : Z * option (Z * Z) :=
  mem_info freeSize totalSize (fun used remain =>
    let quota := c_limit cf in
    if negb (bool_decide (is_Some (m_shm s))) || (quota =? c_request cf) then (remain, quota)
    else
      let dynamic_free := get_mem_dynamic_free s in
      let request := c_request cf in
      (if used <? request then
         let free_mem_1 := u64 (request - used + dynamic_free) in
         let free_mem_2 := if free_mem_1 <? remain then free_mem_1 else remain in
         if request - used <? free_mem_2 then free_mem_2 else request - used
       else if dynamic_free <? remain then dynamic_free else remain, quota)) s.

Definition aclrtGetMemInfoImpl (free total : Z) (s : rt_mem D P) : Z * option (Z * Z) :=
  if negb (h_impl he) then let '(rc, f, n) := dev_acl_mem_info (w_dev (m_world s)) in (rc, if rc =? 0 then Some (f, n) else None)
  else mem_info free total (fun _ remain => (remain, c_limit cf)) s.

(** * Limited and forwarded *)

Definition aclrtMallocImpl (devPtr size policy : Z) : mem_hook :=
  guarded_hook true "aclrtMallocImpl" [devPtr; size; policy] size.

Definition aclrtMallocAlign32Impl (devPtr size policy : Z) : mem_hook :=
  guarded_hook true "aclrtMallocAlign32Impl" [devPtr; size; policy] size.

Definition rtMallocCached (devPtr size type moduleId : Z) : mem_hook :=
  guarded_hook false "rtMallocCached" [devPtr; size; type; moduleId] size.

Definition aclrtMallocCachedImpl (devPtr size policy : Z) : mem_hook :=
  guarded_hook true "aclrtMallocCachedImpl" [devPtr; size; policy] size.

Definition rtDvppMalloc (devPtr size moduleId : Z) : mem_hook :=
  guarded_hook false "rtDvppMalloc" [devPtr; size; moduleId] size.

Definition rtDvppMallocWithFlag (devPtr size flag moduleId : Z) : mem_hook :=
  guarded_hook false "rtDvppMallocWithFlag" [devPtr; size; flag; moduleId] size.

Definition rtMemAlloc (devPtr size policy advise cfg : Z) : mem_hook :=
  guarded_hook false "rtMemAlloc" [devPtr; size; policy; advise; cfg] size.

Definition rtMemAllocManaged (ptr size flag moduleId : Z) : mem_hook :=
  guarded_hook false "rtMemAllocManaged" [ptr; size; flag; moduleId] size.

Definition aclrtMemAllocManagedImpl (ptr size flag : Z) : mem_hook :=
  guarded_hook true "aclrtMemAllocManagedImpl" [ptr; size; flag] size.

Definition aclrtMallocPhysicalImpl (handle size prop flags : Z) : mem_hook :=
  guarded_hook true "aclrtMallocPhysicalImpl" [handle; size; prop; flags] size.

(** * Functions that use device memory *)

Definition rtMemcpy (dst destMax src cnt kind : Z) : mem_hook :=
  touch_hook "rtMemcpy" [dst; destMax; src; cnt; kind].

Definition rtsPointerGetAttributes (ptr attributes : Z) : mem_hook :=
  touch_hook "rtsPointerGetAttributes" [ptr; attributes].

Definition rtMemcpyAsync (dst destMax src cnt kind stm : Z) : mem_hook :=
  touch_hook "rtMemcpyAsync" [dst; destMax; src; cnt; kind; stm].

Definition rtsCheckMemType (addrs size memType checkResult reserve : Z) : mem_hook :=
  touch_hook "rtsCheckMemType" [addrs; size; memType; checkResult; reserve].

Definition rtMemcpyAsyncEx (dst destMax src cnt kind stm memcpyConfig : Z) : mem_hook :=
  touch_hook "rtMemcpyAsyncEx" [dst; destMax; src; cnt; kind; stm; memcpyConfig].

Definition rtsMemcpyBatch (dsts srcs sizes count attrs attrsIdxs numAttrs failIdx : Z) : mem_hook :=
  touch_hook "rtsMemcpyBatch" [dsts; srcs; sizes; count; attrs; attrsIdxs; numAttrs; failIdx].

Definition rtsMemcpyBatchAsync (dsts destMaxs srcs sizes count attrs attrsIdxs numAttrs failIdx stream : Z) : mem_hook :=
  touch_hook "rtsMemcpyBatchAsync" [dsts; destMaxs; srcs; sizes; count; attrs; attrsIdxs; numAttrs; failIdx; stream].

Definition rtMemcpy2d (dst dstPitch src srcPitch width height kind : Z) : mem_hook :=
  touch_hook "rtMemcpy2d" [dst; dstPitch; src; srcPitch; width; height; kind].

Definition rtMemcpy2dAsync (dst dstPitch src srcPitch width height kind stm : Z) : mem_hook :=
  touch_hook "rtMemcpy2dAsync" [dst; dstPitch; src; srcPitch; width; height; kind; stm].

Definition rtsSetMemcpyDesc (desc kind srcAddr dstAddr count config : Z) : mem_hook :=
  touch_hook "rtsSetMemcpyDesc" [desc; kind; srcAddr; dstAddr; count; config].

Definition rtsMemcpyAsyncWithDesc (desc kind config stream : Z) : mem_hook :=
  touch_hook "rtsMemcpyAsyncWithDesc" [desc; kind; config; stream].

Definition rtMemcpyAsyncWithOffset (dst dstMax dstDataOffset src cnt srcDataOffset kind stm : Z) : mem_hook :=
  touch_hook "rtMemcpyAsyncWithOffset" [dst; dstMax; dstDataOffset; src; cnt; srcDataOffset; kind; stm].

Definition rtMemset (devPtr destMax val cnt : Z) : mem_hook :=
  touch_hook "rtMemset" [devPtr; destMax; val; cnt].

Definition rtMemsetAsync (ptr destMax val cnt stm : Z) : mem_hook :=
  touch_hook "rtMemsetAsync" [ptr; destMax; val; cnt; stm].

Definition rtMemPrefetchToDevice (devPtr len devId : Z) : mem_hook :=
  touch_hook "rtMemPrefetchToDevice" [devPtr; len; devId].

Definition rtsIpcMemGetExportKey (ptr size key len flags : Z) : mem_hook :=
  touch_hook "rtsIpcMemGetExportKey" [ptr; size; key; len; flags].

Definition rtsIpcMemImportByKey (ptr key flags : Z) : mem_hook :=
  touch_hook "rtsIpcMemImportByKey" [ptr; key; flags].

Definition rtsValueWrite (devAddr value flag stm : Z) : mem_hook :=
  touch_hook "rtsValueWrite" [devAddr; value; flag; stm].

Definition rtsValueWait (devAddr value flag stm : Z) : mem_hook :=
  touch_hook "rtsValueWait" [devAddr; value; flag; stm].

(** The functions that use device memory, by name, with the number of their
    arguments. *)
Definition none : mem_hook := fun _ => None.

Definition touch_table : list (string * nat * (list Z -> mem_hook)) :=
  [ ("rtMemcpy", 5%nat, fun l => match l with [a; b; c; d; e] => rtMemcpy a b c d e | _ => none end);
    ("rtsPointerGetAttributes", 2%nat, fun l => match l with [a; b] => rtsPointerGetAttributes a b | _ => none end);
    ("rtMemcpyAsync", 6%nat, fun l => match l with [a; b; c; d; e; f] => rtMemcpyAsync a b c d e f | _ => none end);
    ("rtsCheckMemType", 5%nat, fun l => match l with [a; b; c; d; e] => rtsCheckMemType a b c d e | _ => none end);
    ("rtMemcpyAsyncEx", 7%nat, fun l => match l with [a; b; c; d; e; f; g] => rtMemcpyAsyncEx a b c d e f g | _ => none end);
    ("rtsMemcpyBatch", 8%nat, fun l => match l with [a; b; c; d; e; f; g; h] => rtsMemcpyBatch a b c d e f g h | _ => none end);
    ("rtsMemcpyBatchAsync", 10%nat, fun l => match l with [a; b; c; d; e; f; g; h; i; j] => rtsMemcpyBatchAsync a b c d e f g h i j | _ => none end);
    ("rtMemcpy2d", 7%nat, fun l => match l with [a; b; c; d; e; f; g] => rtMemcpy2d a b c d e f g | _ => none end);
    ("rtMemcpy2dAsync", 8%nat, fun l => match l with [a; b; c; d; e; f; g; h] => rtMemcpy2dAsync a b c d e f g h | _ => none end);
    ("rtsSetMemcpyDesc", 6%nat, fun l => match l with [a; b; c; d; e; f] => rtsSetMemcpyDesc a b c d e f | _ => none end);
    ("rtsMemcpyAsyncWithDesc", 4%nat, fun l => match l with [a; b; c; d] => rtsMemcpyAsyncWithDesc a b c d | _ => none end);
    ("rtMemcpyAsyncWithOffset", 8%nat, fun l => match l with [a; b; c; d; e; f; g; h] => rtMemcpyAsyncWithOffset a b c d e f g h | _ => none end);
    ("rtMemset", 4%nat, fun l => match l with [a; b; c; d] => rtMemset a b c d | _ => none end);
    ("rtMemsetAsync", 5%nat, fun l => match l with [a; b; c; d; e] => rtMemsetAsync a b c d e | _ => none end);
    ("rtMemPrefetchToDevice", 3%nat, fun l => match l with [a; b; c] => rtMemPrefetchToDevice a b c | _ => none end);
    ("rtsIpcMemGetExportKey", 5%nat, fun l => match l with [a; b; c; d; e] => rtsIpcMemGetExportKey a b c d e | _ => none end);
    ("rtsIpcMemImportByKey", 3%nat, fun l => match l with [a; b; c] => rtsIpcMemImportByKey a b c | _ => none end);
    ("rtsValueWrite", 4%nat, fun l => match l with [a; b; c; d] => rtsValueWrite a b c d | _ => none end);
    ("rtsValueWait", 4%nat, fun l => match l with [a; b; c; d] => rtsValueWait a b c d | _ => none end) ].

End hooks.
