(* ===== verification/SwapExecFacts.v ===== *)
(** The swap executor on a device that keeps its laws: what one record of a
    swap-out and of a swap-in does, also when calls of the driver fail. *)

From S2P Require Import Prelude CLib SwapTlsf ShmManager RtShm HashMap MemoryTracker MemoryTrackerThms RtDevice SwapExec.

(** * The swap buffer *)

Lemma host_write_frame a l h i : ~ (a <= i < a + Z.of_nat (length l)) -> host_write a l h !! i = h !! i.
Proof.
  intros Hi. unfold host_write. rewrite lookup_union_r; [done|]. apply not_elem_of_list_to_map.
  rewrite fst_zip by (rewrite length_seqZ; lia). rewrite elem_of_seqZ. lia.
Qed.

Lemma host_read_ext a n h1 h2 : (forall i, a <= i < a + n -> h1 !! i = h2 !! i) -> host_read a n h1 = host_read a n h2.
Proof. intros Hi. unfold host_read. apply list_fmap_ext. intros k x Hx. apply lookup_seqZ in Hx. rewrite Hi; [done|lia]. Qed.

Lemma host_read_write a l h : host_read a (Z.of_nat (length l)) (host_write a l h) = l.
Proof.
  unfold host_read. apply list_eq. intros k. rewrite list_lookup_fmap. destruct (l !! k) as [x|] eqn:E.
  - pose proof (lookup_lt_Some _ _ _ E). rewrite lookup_seqZ_lt by lia. cbn. f_equal. unfold host_write.
    rewrite (lookup_union_Some_l _ _ _ x); [done|]. apply elem_of_list_to_map_1.
    + rewrite fst_zip by (rewrite length_seqZ; lia). apply NoDup_seqZ.
    + apply list_elem_of_lookup. exists k. rewrite lookup_zip_with, lookup_seqZ_lt, E by lia. done.
  - apply lookup_ge_None in E. rewrite lookup_seqZ_ge by lia. done.
Qed.

Lemma length_host_read a n h : 0 <= n -> Z.of_nat (length (host_read a n h)) = n.
Proof. intros Hn. unfold host_read. rewrite length_fmap, length_seqZ. lia. Qed.

(** * A record of the tracker *)

Section tracker.
Context {P : Type}.
Implicit Types t : memory_tracker P.

Lemma record_at_live t i r : tracker_inv t -> live t !! i = Some r -> record_at t (record_addr (t_base t) (Z.of_nat i)) = Some r.
Proof.
  intros Hi Hr. unfold record_at. rewrite record_index_addr by (done || by eapply live_bound). cbn.
  by apply live_lookup in Hr as [_ ?].
Qed.

(** Writing a record with the same address. *)
Lemma put_live t i r r1 :
  tracker_inv t -> live t !! i = Some r -> mr_ptr r1 = mr_ptr r ->
  exists t1, put_record (record_addr (t_base t) (Z.of_nat i)) r1 t = Some t1 ∧ tracker_inv t1 ∧ live t1 = <[i := r1]> (live t) ∧
    t_base t1 = t_base t ∧ t_count t1 = t_count t ∧ t_map_records t1 = t_map_records t ∧ t_handle_records t1 = t_handle_records t.
Proof.
  intros Hi Hr Hp. pose proof (proj1 (live_lookup _ _ _) Hr) as [Hc Hrec]. unfold put_record.
  rewrite record_index_addr by (done || by eapply live_bound). cbn. rewrite Hrec. cbn. set (t1 := set_t_records _ t).
  assert (Hlive : live t1 = <[i := r1]> (live t)) by (unfold live, t1; cbn; by rewrite take_insert_lt).
  assert (Hptrs : mr_ptr <$> live t1 = mr_ptr <$> live t).
  { rewrite Hlive, list_fmap_insert, Hp. apply list_insert_id. by rewrite list_lookup_fmap, Hr. }
  exists t1. split; [done|]. split; [|done]. destruct Hi as [C L N B [D1 D2] (M & HM & Hix)].
  constructor; try done; [unfold t1; cbn; by rewrite length_insert| |].
  - split; [|by rewrite Hptrs]. rewrite Hlive. apply Forall_insert; [done|]. rewrite Hp. exact (Forall_lookup_1 _ _ _ _ D1 Hr).
  - exists M. split; [done|]. by eapply indexes_same.
Qed.

Lemma on_record_live f t i r :
  tracker_inv t -> live t !! i = Some r -> mr_ptr (f r) = mr_ptr r ->
  exists t1, on_record f t (mr_ptr r) = Some (ENPU_SUCCESS, t1) ∧ tracker_inv t1 ∧ live t1 = <[i := f r]> (live t) ∧
    t_base t1 = t_base t ∧ t_count t1 = t_count t ∧ t_map_records t1 = t_map_records t ∧ t_handle_records t1 = t_handle_records t.
Proof.
  intros Hi Hr Hp. pose proof (distinct_nonnull _ _ _ (ti_live _ Hi) Hr) as Hnz. pose proof (find_spec t (mr_ptr r) Hi Hnz) as Hf.
  rewrite (proj2 (tracked_Some t (mr_ptr r) r (ti_live _ Hi))) in Hf by eauto. destruct Hf as (j & Hj & _ & Ef & _).
  rewrite (distinct_inj _ _ _ _ _ (ti_live _ Hi) Hj Hr eq_refl) in Ef.
  destruct (put_live t i r (f r) Hi Hr Hp) as (t1 & E1 & Ht1 & Hrest). exists t1. split; [|done].
  unfold on_record. rewrite (proj2 (Z.eqb_neq _ _) Hnz), Ef. cbn. rewrite (record_at_live t i r Hi Hr). cbn. rewrite E1. done.
Qed.

(** The address at which a record is mapped, 0 for none. *)
Definition va_of t (r : memory_record) : Z := if mr_is_physical r then (memory_tracker_get_map_va t (mr_ptr r)).2 else mr_ptr r.

End tracker.

(** * Calls of the driver *)

Section device.
Context {D P : Type} `{DeviceLaws D P}.
Implicit Types (w : world D) (t : memory_tracker P) (r : memory_record).

Lemma rt_malloc_spec n p f w res w1 : rt_malloc_physical n p f w = (res, w1) ->
  maps (w_dev w1) = maps (w_dev w) ∧ reserved (w_dev w1) = reserved (w_dev w) ∧ w_host w1 = w_host w ∧
  match res with
  | inl rc => rc <> 0 ∧ phys (w_dev w1) = phys (w_dev w)
  | inr h => h <> 0 ∧ phys (w_dev w) !! h = None ∧ exists l, Z.of_nat (length l) = Z.max 0 n ∧ phys (w_dev w1) = <[h := l]> (phys (w_dev w))
  end.
Proof.
  unfold rt_malloc_physical, on_dev. destruct (dev_malloc_physical n p f (w_dev w)) as [[rc h] d] eqn:E. apply law_malloc in E as (E1 & E2 & E3).
  intros [= <- <-]. cbn. split; [done|]. split; [done|]. split; [done|]. destruct (Z.eqb_spec rc 0); done.
Qed.

Lemma rt_free_spec h w res w1 : rt_free_physical h w = (res, w1) ->
  maps (w_dev w1) = maps (w_dev w) ∧ reserved (w_dev w1) = reserved (w_dev w) ∧ w_host w1 = w_host w ∧
  phys (w_dev w1) = match res with inl _ => phys (w_dev w) | inr _ => delete h (phys (w_dev w)) end.
Proof.
  unfold rt_free_physical, on_dev. destruct (dev_free_physical h (w_dev w)) as [rc d] eqn:E. apply law_free in E as (E1 & E2 & E3).
  intros [= <- <-]. cbn. split; [done|]. split; [done|]. split; [done|]. by destruct (rc =? 0).
Qed.

Lemma rt_reserve_spec n w res w1 : rt_reserve n w = (res, w1) ->
  maps (w_dev w1) = maps (w_dev w) ∧ phys (w_dev w1) = phys (w_dev w) ∧ w_host w1 = w_host w ∧
  match res with
  | inl rc => rc <> 0 ∧ reserved (w_dev w1) = reserved (w_dev w)
  | inr va => va <> 0 ∧ (va ∉ reserved (w_dev w)) ∧ reserved (w_dev w1) = {[va]} ∪ reserved (w_dev w)
  end.
Proof.
  unfold rt_reserve, on_dev. destruct (dev_reserve n (w_dev w)) as [[rc va] d] eqn:E. apply law_reserve in E as (E1 & E2 & E3).
  intros [= <- <-]. cbn. split; [done|]. split; [done|]. split; [done|]. destruct (Z.eqb_spec rc 0); done.
Qed.

Lemma rt_release_spec va w res w1 : rt_release va w = (res, w1) ->
  maps (w_dev w1) = maps (w_dev w) ∧ phys (w_dev w1) = phys (w_dev w) ∧ w_host w1 = w_host w ∧
  reserved (w_dev w1) = match res with inl _ => reserved (w_dev w) | inr _ => reserved (w_dev w) ∖ {[va]} end.
Proof.
  unfold rt_release, on_dev. destruct (dev_release va (w_dev w)) as [rc d] eqn:E. apply law_release in E as (E1 & E2 & E3).
  intros [= <- <-]. cbn. split; [done|]. split; [done|]. split; [done|]. by destruct (rc =? 0).
Qed.

Lemma rt_map_spec va n off h f w res w1 : rt_map va n off h f w = (res, w1) ->
  phys (w_dev w1) = phys (w_dev w) ∧ reserved (w_dev w1) = reserved (w_dev w) ∧ w_host w1 = w_host w ∧
  maps (w_dev w1) = match res with inl _ => maps (w_dev w) | inr _ => <[va := (h, off, n)]> (maps (w_dev w)) end.
Proof.
  unfold rt_map, on_dev. destruct (dev_map va n off h f (w_dev w)) as [rc d] eqn:E. apply law_map in E as (E1 & E2 & E3).
  intros [= <- <-]. cbn. split; [done|]. split; [done|]. split; [done|]. by destruct (rc =? 0).
Qed.

Lemma rt_unmap_spec va w res w1 : rt_unmap va w = (res, w1) ->
  phys (w_dev w1) = phys (w_dev w) ∧ reserved (w_dev w1) = reserved (w_dev w) ∧ w_host w1 = w_host w ∧
  maps (w_dev w1) = match res with inl _ => maps (w_dev w) | inr _ => delete va (maps (w_dev w)) end.
Proof.
  unfold rt_unmap, on_dev. destruct (dev_unmap va (w_dev w)) as [rc d] eqn:E. apply law_unmap in E as (E1 & E2 & E3).
  intros [= <- <-]. cbn. split; [done|]. split; [done|]. split; [done|]. by destruct (rc =? 0).
Qed.

Lemma rt_copy_out_spec dst va n w res w1 : rt_copy_out dst va n w = (res, w1) -> 0 <= n ->
  phys (w_dev w1) = phys (w_dev w) ∧ maps (w_dev w1) = maps (w_dev w) ∧ reserved (w_dev w1) = reserved (w_dev w) ∧
  (forall i, ~ (dst <= i < dst + n) -> w_host w1 !! i = w_host w !! i) ∧
  (forall h c, res = inr () -> maps (w_dev w) !! va = Some (h, 0, n) -> phys (w_dev w) !! h = Some c -> Z.of_nat (length c) = n ->
   host_read dst n (w_host w1) = c).
Proof.
  unfold rt_copy_out. destruct (dev_copy_out va n (w_dev w)) as [[rc l] d] eqn:E. intros [= <- <-] Hn. cbn.
  destruct (law_copy_out va n (w_dev w) rc l d 0 0 0 [] E) as (E1 & E2 & E3 & Hl & _).
  split; [done|]. split; [done|]. split; [done|]. split.
  - intros i Hi. apply host_write_frame. lia.
  - intros h c Hr Hm Hp Hc. destruct (Z.eqb_spec rc 0) as [->|]; [|done].
    destruct (law_copy_out va n (w_dev w) 0 l d h 0 n c E) as (_ & _ & _ & _ & Hl1).
    specialize (Hl1 eq_refl Hm Hp). cbn in Hl1. rewrite drop_0, take_ge in Hl1 by lia. subst l. rewrite <- Hc. apply host_read_write.
Qed.

Lemma rt_copy_in_spec va src n w res w1 h c : rt_copy_in va src n w = (res, w1) ->
  maps (w_dev w1) = maps (w_dev w) ∧ reserved (w_dev w1) = reserved (w_dev w) ∧ w_host w1 = w_host w ∧
  (maps (w_dev w) !! va = Some (h, 0, n) -> phys (w_dev w) !! h = Some c -> Z.of_nat (length c) = n ->
   phys (w_dev w1) = match res with inl _ => phys (w_dev w) | inr _ => <[h := host_read src n (w_host w)]> (phys (w_dev w)) end).
Proof.
  unfold rt_copy_in, on_dev. destruct (dev_copy_in va (host_read src n (w_host w)) (w_dev w)) as [rc d] eqn:E.
  apply law_copy_in with (h := h) (off := 0) (sz := n) (c := c) in E as (E1 & E2 & E3).
  intros [= <- <-]. cbn. split; [done|]. split; [done|]. split; [done|]. intros Hm Hp Hc. rewrite E3 by done. destruct (rc =? 0); [|done].
  cbn [Z.to_nat take app Nat.add]. rewrite drop_ge; [by rewrite app_nil_r|].
  pose proof (length_host_read src n (w_host w) ltac:(lia)). lia.
Qed.

(** * One record of a swap-out *)

(** The parts of the device that a swap of one record leaves alone: the
    addresses that are reserved, except [va]. *)
Record frame (va : Z) w w1 : Prop := {
  fr_reserved : reserved (w_dev w) ⊆ reserved (w_dev w1);
  fr_maps a : a ∈ reserved (w_dev w) -> a <> va -> maps (w_dev w1) !! a = maps (w_dev w) !! a;
}.

Lemma frame_refl va w : frame va w w.
Proof. by split. Qed.

Lemma frame_same va w w1 : reserved (w_dev w1) = reserved (w_dev w) -> maps (w_dev w1) = maps (w_dev w) -> frame va w w1.
Proof. intros E1 E2. split; [by rewrite E1|]. intros a _ _. by rewrite E2. Qed.

Lemma frame_trans va w w1 w2 : frame va w w1 -> frame va w1 w2 -> frame va w w2.
Proof.
  intros [R1 M1] [R2 M2]. split; [set_solver|]. intros a Ha Hne. rewrite M2, M1; [done|done|done|set_solver|done].
Qed.

(** A new address may be reserved, mapped and released. *)
Lemma frame_fresh va va1 w w1 w2 :
  frame va w w1 -> (va1 ∉ reserved (w_dev w)) ->
  (forall a, a <> va1 -> maps (w_dev w2) !! a = maps (w_dev w1) !! a) -> reserved (w_dev w1) ∖ {[va1]} ⊆ reserved (w_dev w2) -> frame va w w2.
Proof.
  intros [R1 M1] Hf Hm Hr. split; [set_solver|]. intros a Ha Hne. rewrite Hm; [by apply M1|]. by intros ->.
Qed.

Definition mapped_ok t r w : Prop := va_of t r <> 0 -> maps (w_dev w) !! va_of t r = Some (mr_handle r, 0, mr_size r) ∧ va_of t r ∈ reserved (w_dev w).

(** What a swap-out of [r] leaves behind. *)
Definition out_result t r c dst w res w1 : Prop :=
  frame (va_of t r) w w1 ∧ (forall i, ~ (dst <= i < dst + mr_size r) -> w_host w1 !! i = w_host w !! i) ∧
  match res : Z + unit with
  | inl _ => phys (w_dev w1) = phys (w_dev w)
  | inr _ => phys (w_dev w1) = delete (mr_handle r) (phys (w_dev w)) ∧ host_read dst (mr_size r) (w_host w1) = c
  end.

Lemma free_out_result t r c dst w w1 res w2 :
  frame (va_of t r) w w1 -> (forall i, ~ (dst <= i < dst + mr_size r) -> w_host w1 !! i = w_host w !! i) ->
  phys (w_dev w1) = phys (w_dev w) -> host_read dst (mr_size r) (w_host w1) = c ->
  rt_free_physical (mr_handle r) w1 = (res, w2) -> out_result t r c dst w res w2.
Proof.
  intros Hf Hh Hp Hr E. apply rt_free_spec in E as (E1 & E2 & E3 & E4).
  split; [eapply frame_trans; [done|by apply frame_same]|]. rewrite E3. split; [done|]. rewrite E4, Hp. by destruct res.
Qed.

Lemma swap_out_plain base t r cur w res w1 c :
  mr_is_physical r = false -> swap_out_record base t r cur w = (res, w1) ->
  phys (w_dev w) !! mr_handle r = Some c -> Z.of_nat (length c) = mr_size r -> mr_ptr r <> 0 -> mapped_ok t r w ->
  out_result t r c (u64 (base + cur)) w res w1.
Proof.
  intros Hph E Hc Hl Hp Hm. unfold mapped_ok, va_of in Hm. rewrite Hph in Hm. destruct (Hm Hp) as [Hm1 Hm2].
  unfold swap_out_record in E. rewrite Hph in E. unfold mbind, W_bind in E.
  destruct (rt_copy_out (u64 (base + cur)) (mr_ptr r) (mr_size r) w) as [res1 w2] eqn:E1.
  apply rt_copy_out_spec in E1 as (A1 & A2 & A3 & A4 & A5); [|lia].
  assert (F1 : frame (va_of t r) w w2) by (by apply frame_same).
  destruct res1 as [rc|[]]; [injection E as <- <-; by split|].
  destruct (rt_unmap (mr_ptr r) w2) as [res2 w3] eqn:E2. apply rt_unmap_spec in E2 as (B1 & B2 & B3 & B4).
  assert (F2 : frame (va_of t r) w w3).
  { eapply frame_trans; [exact F1|]. split; [by rewrite B2|]. intros a _ Ha. rewrite B4. unfold va_of in Ha. rewrite Hph in Ha.
    destruct res2; [done|by rewrite lookup_delete_ne]. }
  destruct res2 as [rc|[]]; [injection E as <- <-; split; [done|]; rewrite B3; split; [done|by rewrite B1]|].
  eapply free_out_result; [exact F2| | | |exact E]; rewrite ?B3; [done|congruence|]. by apply (A5 (mr_handle r)).
Qed.

(** The address for the copy of a physical allocation. *)
Lemma map_for_copy_spec t r w res w1 :
  mr_is_physical r = true -> mapped_ok t r w -> map_for_copy t r w = (res, w1) ->
  frame (va_of t r) w w1 ∧ w_host w1 = w_host w ∧ phys (w_dev w1) = phys (w_dev w) ∧
  match res with
  | inl _ => True
  | inr (va, flag) => maps (w_dev w1) !! va = Some (mr_handle r, 0, mr_size r) ∧ if (flag : bool) then va ∉ reserved (w_dev w) else va = va_of t r
  end.
Proof.
  intros Hph Hm E0. unfold map_for_copy, memory_tracker_get_map_va in E0. unfold mapped_ok, va_of in Hm. rewrite Hph in Hm. cbn in E0, Hm.
  set (va := match list_find _ (t_map_records t) with Some (_, n) => mn_va n | None => 0 end) in *.
  destruct (Z.eqb_spec va 0) as [Hz|Hz]; cbn in E0.
  - unfold mbind, W_bind in E0. destruct (rt_reserve (mr_size r) w) as [[rc|va1] w3] eqn:E1; apply rt_reserve_spec in E1 as (B1 & B2 & B3 & B4).
    { injection E0 as <- <-. destruct B4 as [_ B4]. split; [by apply frame_same|done]. }
    destruct B4 as (_ & B4 & B5). assert (F1 : frame (va_of t r) w w3) by (split; [set_solver|intros a _ _; by rewrite B1]).
    destruct (rt_map va1 (mr_size r) 0 (mr_handle r) 0 w3) as [[rc|[]] w4] eqn:E2; apply rt_map_spec in E2 as (C1 & C2 & C3 & C4); injection E0 as <- <-.
    + split; [eapply frame_trans; [exact F1|by apply frame_same]|]. split; [congruence|]. split; [congruence|done].
    + split; [eapply frame_fresh; [exact F1|exact B4| |set_solver]; intros a Ha; by rewrite C4, lookup_insert_ne|].
      split; [congruence|]. split; [congruence|]. split; [by rewrite C4, lookup_insert_eq|done].
  - injection E0 as <- <-. split; [apply frame_refl|]. split; [done|]. split; [done|]. split; [by apply Hm|]. unfold va_of. by rewrite Hph.
Qed.

Lemma swap_out_physical base t r cur w res w1 c :
  mr_is_physical r = true -> swap_out_record base t r cur w = (res, w1) ->
  phys (w_dev w) !! mr_handle r = Some c -> Z.of_nat (length c) = mr_size r -> mapped_ok t r w ->
  out_result t r c (u64 (base + cur)) w res w1.
Proof.
  intros Hph E Hc Hl Hm. unfold swap_out_record in E. rewrite Hph in E. unfold mbind, W_bind in E.
  destruct (map_for_copy t r w) as [res0 w2] eqn:E0. apply map_for_copy_spec in E0 as Hmap; [|done|done].
  destruct Hmap as (F1 & Hh & Hp & Hv). destruct res0 as [rc|[va flag]]; [injection E as <- <-; split; [done|by rewrite Hh]|].
  destruct Hv as [Hv Hflag].
  destruct (rt_copy_out (u64 (base + cur)) va (mr_size r) w2) as [res1 w3] eqn:E1.
  apply rt_copy_out_spec in E1 as (A1 & A2 & A3 & A4 & A5); [|lia].
  assert (F2 : frame (va_of t r) w w3) by (eapply frame_trans; [exact F1|by apply frame_same]).
  assert (H3 : forall i, ~ (u64 (base + cur) <= i < u64 (base + cur) + mr_size r) -> w_host w3 !! i = w_host w !! i) by (intros i Hi; by rewrite A4, Hh).
  assert (P3 : phys (w_dev w3) = phys (w_dev w)) by congruence.
  destruct res1 as [rc|[]]; [injection E as <- <-; by split|].
  assert (R3 : host_read (u64 (base + cur)) (mr_size r) (w_host w3) = c) by (apply (A5 (mr_handle r)); [done|done|congruence|done]).
  destruct (rt_unmap va w3) as [res2 w4] eqn:E2. apply rt_unmap_spec in E2 as (B1 & B2 & B3 & B4).
  assert (F3 : frame (va_of t r) w w4).
  { assert (Hd : forall a, a <> va -> maps (w_dev w4) !! a = maps (w_dev w3) !! a) by (intros a Ha; rewrite B4; destruct res2; [done|by rewrite lookup_delete_ne]).
    destruct flag; [by apply (frame_fresh _ va w w3); [| | |rewrite B2; set_solver]|]. subst va. eapply frame_trans; [exact F2|].
    split; [by rewrite B2|]. intros a _ Ha. by apply Hd. }
  destruct res2 as [rc|[]]; [injection E as <- <-; split; [done|]; rewrite B3; split; [done|congruence]|].
  destruct flag.
  - destruct (rt_release va w4) as [res3 w5] eqn:E3. apply rt_release_spec in E3 as (C1 & C2 & C3 & C4).
    assert (F4 : frame (va_of t r) w w5).
    { apply (frame_fresh _ va w w4); [exact F3|exact Hflag|intros a _; by rewrite C1|rewrite C4; destruct res3; set_solver]. }
    destruct res3 as [rc|[]]; [injection E as <- <-; split; [done|]; rewrite C3, B3; split; [done|congruence]|].
    eapply free_out_result; [exact F4| | | |exact E]; rewrite ?C3, ?B3; [done|congruence|done].
  - cbn in E. eapply free_out_result; [exact F3| | | |exact E]; rewrite ?B3; [done|congruence|done].
Qed.

Lemma swap_out_record_spec base t r cur w res w1 c :
  swap_out_record base t r cur w = (res, w1) ->
  phys (w_dev w) !! mr_handle r = Some c -> Z.of_nat (length c) = mr_size r -> mr_ptr r <> 0 -> mapped_ok t r w ->
  out_result t r c (u64 (base + cur)) w res w1.
Proof. intros. destruct (mr_is_physical r) eqn:E; [by eapply swap_out_physical|by eapply swap_out_plain]. Qed.


(** * Where the bytes of the allocations are *)

Context (base : Z).

(** [c] is the content of the allocation: on the device, or in the buffer. *)
Definition holds w r (c : list Z) : Prop :=
  Z.of_nat (length c) = mr_size r ∧
  if mr_is_swapped r then host_read (base + mr_swap_offset r) (mr_size r) (w_host w) = c else phys (w_dev w) !! mr_handle r = Some c.

(** [C] gives the contents of the allocations by their address. *)
Record data_inv t w (C : gmap Z (list Z)) : Prop := {
  di_tracker : tracker_inv t;
  di_data i r : live t !! i = Some r -> exists c, C !! mr_ptr r = Some c ∧ holds w r c;
  di_handles i j r1 r2 : live t !! i = Some r1 -> live t !! j = Some r2 -> i <> j ->
    mr_is_swapped r1 = false -> mr_is_swapped r2 = false -> mr_handle r1 <> mr_handle r2;
  di_areas i j r1 r2 : live t !! i = Some r1 -> live t !! j = Some r2 -> i <> j -> mr_is_swapped r1 = true -> mr_is_swapped r2 = true ->
    mr_swap_offset r1 + mr_size r1 <= mr_swap_offset r2 ∨ mr_swap_offset r2 + mr_size r2 <= mr_swap_offset r1;
  di_bounds i r : live t !! i = Some r -> mr_is_swapped r = true -> 0 <= mr_swap_offset r ∧ base + mr_swap_offset r + mr_size r < U64_MOD;
  di_vas i j r1 r2 : live t !! i = Some r1 -> live t !! j = Some r2 -> i <> j -> va_of t r1 <> 0 -> va_of t r1 <> va_of t r2;
}.

Lemma holds_size w r c : holds w r c -> 0 <= mr_size r.
Proof. intros [Hl _]. lia. Qed.

Lemma va_of_same t t1 r r1 :
  t_map_records t1 = t_map_records t -> mr_ptr r1 = mr_ptr r -> mr_is_physical r1 = mr_is_physical r -> va_of t1 r1 = va_of t r.
Proof. intros E1 E2 E3. unfold va_of, memory_tracker_get_map_va. by rewrite E1, E2, E3. Qed.

(** The record [i] is replaced by [r1] and the world by [w1]. *)
Lemma data_inv_update t w C i r r1 t1 w1 c :
  data_inv t w C -> live t !! i = Some r -> tracker_inv t1 -> live t1 = <[i := r1]> (live t) -> t_map_records t1 = t_map_records t ->
  mr_ptr r1 = mr_ptr r -> mr_is_physical r1 = mr_is_physical r -> C !! mr_ptr r = Some c -> holds w1 r1 c ->
  (forall j x cx, live t !! j = Some x -> j <> i -> holds w x cx -> holds w1 x cx) ->
  (mr_is_swapped r1 = false -> forall j x, live t !! j = Some x -> j <> i -> mr_is_swapped x = false -> mr_handle x <> mr_handle r1) ->
  (mr_is_swapped r1 = true -> 0 <= mr_swap_offset r1 ∧ base + mr_swap_offset r1 + mr_size r1 < U64_MOD ∧
     forall j x, live t !! j = Some x -> j <> i -> mr_is_swapped x = true ->
       mr_swap_offset x + mr_size x <= mr_swap_offset r1 ∨ mr_swap_offset r1 + mr_size r1 <= mr_swap_offset x) ->
  data_inv t1 w1 C.
Proof.
  intros HI Hi Ht El Em Ep Eph Hc Hh Hoth Hact Hsw.
  assert (Hlk : forall j x, live t1 !! j = Some x -> (j = i ∧ x = r1) ∨ (j <> i ∧ live t !! j = Some x)).
  { intros j x. rewrite El. intros [(<- & <- & _)|[Hne Hj]]%list_lookup_insert_Some; [by left|by right]. }
  constructor; [done| | | | |].
  - intros j x [[-> ->]|[Hne Hj]]%Hlk; [rewrite Ep; by exists c|]. destruct (di_data _ _ _ HI j x Hj) as (cx & Hcx & Hx). exists cx. split; [done|by eapply Hoth].
  - intros j k x y [[-> ->]|[Hj1 Hj]]%Hlk [[-> ->]|[Hk1 Hk]]%Hlk Hne A1 A2; [done| | |by eapply (di_handles _ _ _ HI j k)].
    + intros E. by apply (Hact A1 k y Hk Hk1 A2).
    + by apply (Hact A2 j x Hj Hj1 A1).
  - intros j k x y [[-> ->]|[Hj1 Hj]]%Hlk [[-> ->]|[Hk1 Hk]]%Hlk Hne A1 A2; [done| | |by eapply (di_areas _ _ _ HI j k)].
    + destruct (Hsw A1) as (_ & _ & Hs). destruct (Hs k y Hk Hk1 A2); tauto.
    + destruct (Hsw A2) as (_ & _ & Hs). destruct (Hs j x Hj Hj1 A1); tauto.
  - intros j x [[-> ->]|[Hj1 Hj]]%Hlk A; [by destruct (Hsw A) as (? & ? & _)|by eapply (di_bounds _ _ _ HI)].
  - intros j k x y Hj Hk Hne. rewrite (va_of_same t t1 x x Em), (va_of_same t t1 y y Em) by done. revert Hj Hk.
    intros [[-> ->]|[Hj1 Hj]]%Hlk [[-> ->]|[Hk1 Hk]]%Hlk; [done| | |by eapply (di_vas _ _ _ HI j k)].
    + rewrite (va_of_same t t r r1) by done. by apply (di_vas _ _ _ HI i k).
    + rewrite (va_of_same t t r r1) by done. by apply (di_vas _ _ _ HI j i).
Qed.

(** * The loop of a swap-out *)

Fixpoint swapped_bytes (l : list memory_record) : Z :=
  match l with [] => 0 | r :: rest => (if mr_is_swapped r then mr_size r else 0) + swapped_bytes rest end.
Fixpoint all_bytes (l : list memory_record) : Z := match l with [] => 0 | r :: rest => mr_size r + all_bytes rest end.

(** What a swap never changes of a record. *)
Definition alloc_of r : Z * Z * bool := (mr_ptr r, mr_size r, mr_is_physical r).

Record same_tracker t t1 : Prop := {
  st_base : t_base t1 = t_base t;
  st_count : t_count t1 = t_count t;
  st_maps : t_map_records t1 = t_map_records t;
  st_handles : t_handle_records t1 = t_handle_records t;
  st_live : alloc_of <$> live t1 = alloc_of <$> live t;
}.

Lemma same_tracker_refl t : same_tracker t t.
Proof. by split. Qed.

Lemma same_tracker_trans t t1 t2 : same_tracker t t1 -> same_tracker t1 t2 -> same_tracker t t2.
Proof. intros [] []. split; congruence. Qed.

Lemma same_lookup t t1 i r1 : same_tracker t t1 -> live t1 !! i = Some r1 -> exists r, live t !! i = Some r ∧ alloc_of r1 = alloc_of r.
Proof.
  intros Hs Hi. pose proof (f_equal (fun l => l !! i) (st_live _ _ Hs)) as E. cbn in E. rewrite !list_lookup_fmap, Hi in E. cbn in E.
  destruct (live t !! i) as [r|]; [|done]. injection E as E1 E2 E3. exists r. split; [done|]. unfold alloc_of. congruence.
Qed.

(** One record of the tracker is replaced. *)
Lemma same_tracker_put t i r r1 t1 :
  live t !! i = Some r -> live t1 = <[i := r1]> (live t) -> alloc_of r1 = alloc_of r -> t_base t1 = t_base t -> t_count t1 = t_count t ->
  t_map_records t1 = t_map_records t -> t_handle_records t1 = t_handle_records t -> same_tracker t t1.
Proof.
  intros Hi El Ea. split; try done. rewrite El, list_fmap_insert, Ea. apply list_insert_id. by rewrite list_lookup_fmap, Hi.
Qed.

Lemma all_bytes_same l l1 : alloc_of <$> l1 = alloc_of <$> l -> all_bytes l1 = all_bytes l.
Proof.
  revert l1. induction l as [|r l IH]; intros [|r1 l1] E; try done. cbn in E. injection E as _ E _ E1. cbn. rewrite E. f_equal. by apply IH.
Qed.

(** The records from [i] on are on the device and mapped. *)
Definition resident_from t w (i : nat) : Prop :=
  forall j r, (i <= j)%nat -> live t !! j = Some r -> mr_is_swapped r = false ∧ mapped_ok t r w.

Lemma mapped_ok_frame t t1 r va w w1 :
  t_map_records t1 = t_map_records t -> frame va w w1 -> (va_of t r <> 0 -> va_of t r <> va) -> mapped_ok t r w -> mapped_ok t1 r w1.
Proof.
  intros E [F1 F2] Hne Hm. unfold mapped_ok. rewrite (va_of_same t t1 r r E) by done. intros Hz. destruct (Hm Hz) as [Hm1 Hm2].
  rewrite F2 by auto. split; [done|]. set_solver.
Qed.

(** After the record [i], which [w1] is the result of, the later ones are as
    before. *)
Lemma resident_next t t1 w w1 C i r :
  data_inv t w C -> resident_from t w i -> live t !! i = Some r -> frame (va_of t r) w w1 -> t_map_records t1 = t_map_records t ->
  (forall j, (S i <= j)%nat -> live t1 !! j = live t !! j) -> resident_from t1 w1 (S i).
Proof.
  intros HI Hr Hi HF Em Hl j x Hj Hx. rewrite Hl in Hx by done. destruct (Hr j x ltac:(lia) Hx) as [H1 H2]. split; [done|].
  apply (mapped_ok_frame t t1 x (va_of t r) w w1 Em HF); [|done]. apply (di_vas _ _ _ HI j i x r); try done. lia.
Qed.

(** The other records of a swap-out of the record [i]. *)
Lemma out_result_others t w C i r c cur res w1 :
  data_inv t w C -> live t !! i = Some r -> mr_is_swapped r = false -> 0 <= base -> 0 <= cur -> base + cur + mr_size r < U64_MOD -> 0 <= mr_size r ->
  (forall j x, live t !! j = Some x -> mr_is_swapped x = true -> mr_swap_offset x + mr_size x <= cur) ->
  out_result t r c (u64 (base + cur)) w res w1 ->
  forall j x cx, live t !! j = Some x -> j <> i -> holds w x cx -> holds w1 x cx.
Proof.
  intros HI Hi Ha Hb Hc Hbd Hsz Hbelow (_ & Hh & Hp) j x cx Hj Hne [Hl Hx]. split; [done|].
  destruct (mr_is_swapped x) eqn:Es.
  - rewrite <- Hx. apply host_read_ext. intros k Hk. apply Hh. rewrite u64_small by (unfold is_u64; lia). specialize (Hbelow j x Hj Es). lia.
  - assert (mr_handle r <> mr_handle x) by (eapply (di_handles _ _ _ HI i j); eauto).
    destruct res; [by rewrite Hp|]. destruct Hp as [-> _]. by rewrite lookup_delete_ne.
Qed.

(** The areas of the records are below the current offset and not below the
    first one. *)
Definition areas_in t (lo hi : Z) : Prop :=
  forall j x, live t !! j = Some x -> mr_is_swapped x = true -> lo <= mr_swap_offset x ∧ mr_swap_offset x + mr_size x <= hi.

(** The driver answers with success, and goes on to. *)
Record reliable (ok : D -> Prop) : Prop := {
  rel_granularity d : ok d -> (dev_granularity device_prop d).1 = 0;
  rel_malloc n p f d : ok d -> (dev_malloc_physical n p f d).1.1 = 0 ∧ ok (dev_malloc_physical n p f d).2;
  rel_free h d : ok d -> (dev_free_physical h d).1 = 0 ∧ ok (dev_free_physical h d).2;
  rel_reserve n d : ok d -> (dev_reserve n d).1.1 = 0 ∧ ok (dev_reserve n d).2;
  rel_release va d : ok d -> (dev_release va d).1 = 0 ∧ ok (dev_release va d).2;
  rel_map va n off h f d : ok d -> (dev_map va n off h f d).1 = 0 ∧ ok (dev_map va n off h f d).2;
  rel_unmap va d : ok d -> (dev_unmap va d).1 = 0 ∧ ok (dev_unmap va d).2;
  rel_copy_out va n d : ok d -> (dev_copy_out va n d).1.1 = 0 ∧ ok (dev_copy_out va n d).2;
  rel_copy_in va l d : ok d -> (dev_copy_in va l d).1 = 0 ∧ ok (dev_copy_in va l d).2;
}.

(** A sequence of calls that does not fail on such a driver. *)
Definition succeeds {A} (ok : D -> Prop) (m : W A) : Prop := forall w, ok (w_dev w) -> exists x w1, m w = (inr x, w1) ∧ ok (w_dev w1).

Lemma succeeds_bind {A B} ok (m : W A) (f : A -> W B) : succeeds ok m -> (forall x, succeeds ok (f x)) -> succeeds ok (m ≫= f).
Proof. intros Hm Hf w Hw. destruct (Hm w Hw) as (x & w1 & E & H1). destruct (Hf x w1 H1) as (y & w2 & E2 & H2). exists y, w2. split; [|done]. unfold mbind, W_bind. by rewrite E. Qed.

Lemma succeeds_ret {A} ok (x : A) : succeeds ok (mret x).
Proof. intros w Hw. by exists x, w. Qed.

Section reliable.
Context (ok : D -> Prop) (Hrel : reliable ok).

Lemma succeeds_malloc n p f : succeeds ok (rt_malloc_physical n p f).
Proof. intros w Hw. unfold rt_malloc_physical, on_dev. destruct (rel_malloc _ Hrel n p f _ Hw) as [E1 E2]. destruct (dev_malloc_physical _ _ _ _) as [[rc h] d]. cbn in *. subst. eauto. Qed.
Lemma succeeds_free h : succeeds ok (rt_free_physical h).
Proof. intros w Hw. unfold rt_free_physical, on_dev. destruct (rel_free _ Hrel h _ Hw) as [E1 E2]. destruct (dev_free_physical _ _) as [rc d]. cbn in *. subst. eauto. Qed.
Lemma succeeds_reserve n : succeeds ok (rt_reserve n).
Proof. intros w Hw. unfold rt_reserve, on_dev. destruct (rel_reserve _ Hrel n _ Hw) as [E1 E2]. destruct (dev_reserve _ _) as [[rc va] d]. cbn in *. subst. eauto. Qed.
Lemma succeeds_release va : succeeds ok (rt_release va).
Proof. intros w Hw. unfold rt_release, on_dev. destruct (rel_release _ Hrel va _ Hw) as [E1 E2]. destruct (dev_release _ _) as [rc d]. cbn in *. subst. eauto. Qed.
Lemma succeeds_map va n off h f : succeeds ok (rt_map va n off h f).
Proof. intros w Hw. unfold rt_map, on_dev. destruct (rel_map _ Hrel va n off h f _ Hw) as [E1 E2]. destruct (dev_map _ _ _ _ _ _) as [rc d]. cbn in *. subst. eauto. Qed.
Lemma succeeds_unmap va : succeeds ok (rt_unmap va).
Proof. intros w Hw. unfold rt_unmap, on_dev. destruct (rel_unmap _ Hrel va _ Hw) as [E1 E2]. destruct (dev_unmap _ _) as [rc d]. cbn in *. subst. eauto. Qed.
Lemma succeeds_copy_out dst va n : succeeds ok (rt_copy_out dst va n).
Proof. intros w Hw. unfold rt_copy_out. destruct (rel_copy_out _ Hrel va n _ Hw) as [E1 E2]. destruct (dev_copy_out _ _ _) as [[rc l] d]. cbn in *. subst. eauto. Qed.
Lemma succeeds_copy_in va src n : succeeds ok (rt_copy_in va src n).
Proof. intros w Hw. unfold rt_copy_in, on_dev. destruct (rel_copy_in _ Hrel va (host_read src n (w_host w)) _ Hw) as [E1 E2]. destruct (dev_copy_in _ _ _) as [rc d]. cbn in *. subst. eauto. Qed.

Lemma swap_out_succeeds b t r cur : succeeds ok (swap_out_record b t r cur).
Proof.
  unfold swap_out_record, map_for_copy. pose proof succeeds_free. pose proof succeeds_reserve. pose proof succeeds_release.
  pose proof succeeds_map. pose proof succeeds_unmap. pose proof succeeds_copy_out.
  apply succeeds_bind; [|auto]. case_match.
  - apply succeeds_bind.
    + destruct (memory_tracker_get_map_va t (mr_ptr r)) as [rc va]. case_match; [|apply succeeds_ret].
      repeat (apply succeeds_bind; [auto|intros ?]). apply succeeds_ret.
    + intros [va flag]. repeat (apply succeeds_bind; [auto|intros ?]). destruct flag; [auto|apply succeeds_ret].
  - apply succeeds_bind; auto.
Qed.

End reliable.

End device.

(** The loops of a swap-out and of a swap-in over the records of a process. *)

Section loops.
Context {D P : Type} `{DeviceLaws D P} (base : Z).
Implicit Types (w : world D) (t : memory_tracker P) (r : memory_record) (C : gmap Z (list Z)).

(** * The loop of a swap-out *)

Lemma all_bytes_nonneg t w C i : data_inv base t w C -> 0 <= all_bytes (drop i (live t)).
Proof.
  intros HI. assert (Hall : Forall (fun r => 0 <= mr_size r) (drop i (live t))).
  { apply Forall_drop, Forall_lookup_2. intros j r Hj. destruct (di_data _ _ _ _ HI j r Hj) as (c & _ & Hh). by eapply holds_size. }
  induction Hall; cbn; lia.
Qed.

Lemma data_inv_failed t w C i r w1 c cur rc :
  data_inv base t w C -> live t !! i = Some r -> mr_is_swapped r = false -> 0 <= base -> 0 <= cur -> base + cur + mr_size r < U64_MOD ->
  areas_in t 0 cur -> C !! mr_ptr r = Some c -> holds base w r c ->
  out_result t r c (u64 (base + cur)) w (inl rc) w1 -> data_inv base t w1 C.
Proof.
  intros HI Hi Ha Hb Hc Hbd Har HC Hh Ho. pose proof (holds_size _ _ _ _ Hh) as Hsz. pose proof Ho as (_ & _ & Hp).
  eapply (data_inv_update base t w C i r r t w1 c); try done.
  - apply (di_tracker _ _ _ _ HI).
  - symmetry. by apply list_insert_id.
  - destruct Hh as [Hl Hx]. split; [done|]. rewrite Ha in *. by rewrite Hp.
  - eapply (out_result_others base t w C i r c cur); try done. intros j x Hj Hx. by apply (Har j x).
  - intros _ j x Hj Hne Hx. apply (di_handles _ _ _ _ HI j i x r); done.
  - by rewrite Ha.
Qed.

Lemma data_inv_swapped t w C i r w1 c cur t1 :
  data_inv base t w C -> live t !! i = Some r -> mr_is_swapped r = false -> 0 <= base -> 0 <= cur -> base + cur + mr_size r < U64_MOD ->
  areas_in t 0 cur -> C !! mr_ptr r = Some c -> holds base w r c ->
  out_result t r c (u64 (base + cur)) w (inr ()) w1 ->
  tracker_inv t1 -> live t1 = <[i := memory_record_mark_swapped r cur]> (live t) -> t_map_records t1 = t_map_records t ->
  data_inv base t1 w1 C.
Proof.
  intros HI Hi Ha Hb Hc Hbd Har HC Hh Ho Ht El Em. pose proof (holds_size _ _ _ _ Hh) as Hsz. pose proof Ho as (_ & _ & _ & Hr).
  rewrite u64_small in Hr by (unfold is_u64; lia).
  eapply (data_inv_update base t w C i r (memory_record_mark_swapped r cur) t1 w1 c); try done.
  - destruct Hh as [Hl _]. split; done.
  - eapply (out_result_others base t w C i r c cur); try done. intros j x Hj Hx. by apply (Har j x).
  - cbn. intros _. split; [lia|]. split; [lia|]. intros j x Hj Hne Hx. left. by apply (Har j x).
Qed.

Lemma swap_out_loop_spec n C : forall i t cur act chk w,
  data_inv base t w C -> resident_from t w i -> (i + n = Z.to_nat (t_count t))%nat -> areas_in t 0 cur -> 0 <= base -> 0 <= cur ->
  base + cur + all_bytes (drop i (live t)) < U64_MOD -> 0 <= act -> act + all_bytes (drop i (live t)) < U64_MOD ->
  exists t1 act1 chk1 w1,
    swap_out_loop base (record_addr (t_base t) <$> seqZ (Z.of_nat i) (Z.of_nat n)) t cur act chk w = Some (t1, act1, chk1, w1) ∧
    data_inv base t1 w1 C ∧ same_tracker t t1 ∧ act1 = act + swapped_bytes (drop i (live t1)) ∧ take i (live t1) = take i (live t) ∧
    reserved (w_dev w) ⊆ reserved (w_dev w1) ∧
    forall ok, reliable ok -> ok (w_dev w) -> ok (w_dev w1) ∧ forall j r, (i <= j)%nat -> live t1 !! j = Some r -> mr_is_swapped r = true.
Proof.
  induction n as [|n IH]; intros i t cur act chk w HI Hres Hn Har Hb Hc Hbd Ha Hab.
  { exists t, act, chk, w. split; [done|]. split; [done|]. split; [apply same_tracker_refl|].
    rewrite drop_ge by (rewrite (live_length t (di_tracker _ _ _ _ HI)); lia). cbn. split; [lia|]. split; [done|]. split; [done|].
    intros ok Hok Hw. split; [done|]. intros j r Hj Hl. apply lookup_lt_Some in Hl. rewrite (live_length t (di_tracker _ _ _ _ HI)) in Hl. lia. }
  pose proof (di_tracker _ _ _ _ HI) as Ht. pose proof (live_length t Ht) as Hlen.
  destruct (lookup_lt_is_Some_2 (live t) i ltac:(lia)) as [r Hi]. destruct (Hres i r ltac:(lia) Hi) as [Hact Hmap].
  destruct (di_data _ _ _ _ HI i r Hi) as (c & HC & Hh). pose proof (holds_size _ _ _ _ Hh) as Hsz.
  rewrite (drop_S (live t) r i Hi) in Hbd, Hab. cbn [all_bytes] in Hbd, Hab. pose proof (all_bytes_nonneg t w C (S i) HI) as Hrest.
  rewrite seqZ_cons, fmap_cons by lia. cbn [swap_out_loop]. rewrite (record_at_live t i r Ht Hi). cbn [mbind option_bind].
  pose proof (distinct_nonnull _ _ _ (ti_live _ Ht) Hi) as Hp. rewrite (proj2 (Z.eqb_neq _ _) Hp), Hact. cbn [orb].
  replace (Z.succ (Z.of_nat i)) with (Z.of_nat (S i)) by lia. replace (Z.pred (Z.of_nat (S n))) with (Z.of_nat n) by lia.
  destruct (swap_out_record base t r cur w) as [res w1] eqn:E.
  assert (Hph : phys (w_dev w) !! mr_handle r = Some c) by (destruct Hh as [_ Hh]; by rewrite Hact in Hh).
  pose proof (swap_out_record_spec base t r cur w res w1 c E Hph (proj1 Hh) Hp Hmap) as Ho. pose proof Ho as ([HR _] & _).
  destruct res as [rc|[]].
  - pose proof (data_inv_failed t w C i r w1 c cur rc HI Hi Hact Hb Hc ltac:(lia) Har HC Hh Ho) as HI1.
    destruct (IH (S i) t cur act chk w1 HI1) as (t1 & act1 & chk1 & w2 & E1 & HI2 & Hst & Hac & Htk & HR2 & Hrel); try done; try lia.
    { eapply resident_next; [exact HI|exact Hres|exact Hi|by destruct Ho|done|done]. }
    exists t1, act1, chk1, w2. split; [done|]. split; [done|]. split; [done|].
    assert (Hi1 : live t1 !! i = Some r) by (rewrite <- (lookup_take_lt _ (S i)), Htk, lookup_take_lt by lia; done).
    split; [rewrite (drop_S _ r i Hi1); cbn; rewrite Hact; lia|]. split; [|split; [set_solver|]].
    { apply (f_equal (take i)) in Htk. rewrite !take_take in Htk. by replace (i `min` S i)%nat with i in Htk by lia. }
    intros ok Hok Hw. destruct (swap_out_succeeds ok Hok base t r cur w Hw) as (x & wx & Ex & _). congruence.
  - destruct (put_live t i r (memory_record_mark_swapped r cur) Ht Hi eq_refl) as (t2 & E2 & Ht2 & El2 & Eb & Ec & Em & Eh). rewrite E2. cbn [mbind option_bind].
    rewrite !(u64_small (_ + mr_size r)) by (unfold is_u64; lia). rewrite <- Eb.
    pose proof (data_inv_swapped t w C i r w1 c cur t2 HI Hi Hact Hb Hc ltac:(lia) Har HC Hh Ho Ht2 El2 Em) as HI2.
    assert (Hd2 : drop (S i) (live t2) = drop (S i) (live t)) by (rewrite El2; apply drop_insert_lt; lia).
    destruct (IH (S i) t2 (cur + mr_size r) (act + mr_size r) (u64 (chk + 1)) w1 HI2) as (t1 & act1 & chk1 & w2 & E1 & HI3 & Hst & Hac & Htk & HR2 & Hrel);
      rewrite ?Hd2; try lia.
    { eapply resident_next; [exact HI|exact Hres|exact Hi|by destruct Ho|done|]. intros j Hj. rewrite El2. apply list_lookup_insert_ne. lia. }
    { intros j x Hj Hx. rewrite El2 in Hj. apply list_lookup_insert_Some in Hj as [(<- & <- & _)|[_ Hj]]; [cbn; lia|].
      destruct (Har j x Hj Hx). lia. }
    exists t1, act1, chk1, w2. split; [done|]. split; [done|].
    split; [eapply same_tracker_trans; [eapply (same_tracker_put t i r); try done|exact Hst]|].
    assert (Hi2 : live t2 !! i = Some (memory_record_mark_swapped r cur)) by (rewrite El2; apply list_lookup_insert_eq; by eapply lookup_lt_Some).
    assert (Hi1 : live t1 !! i = Some (memory_record_mark_swapped r cur)) by (rewrite <- (lookup_take_lt _ (S i)), Htk, lookup_take_lt by lia; done).
    split; [rewrite (drop_S _ _ i Hi1); cbn; lia|]. split; [|split; [set_solver|]].
    { apply (f_equal (take i)) in Htk. rewrite !take_take in Htk. replace (i `min` S i)%nat with i in Htk by lia. rewrite Htk, El2. apply take_insert_ge. lia. }
    intros ok Hok Hw. destruct (swap_out_succeeds ok Hok base t r cur w Hw) as (x & wx & Ex & Hwx). rewrite E in Ex. injection Ex as <- <-.
    destruct (Hrel ok Hok Hwx) as [Hw2 Hall]. split; [done|]. intros j y Hj Hy. destruct (decide (j = i)) as [->|Hne]; [|apply (Hall j); [lia|done]].
    rewrite Hi1 in Hy. by injection Hy as <-.
Qed.

(** * One record of a swap-in *)

(** What is on the device stays there. *)
Definition phys_ext w w1 : Prop := forall h c, phys (w_dev w) !! h = Some c -> phys (w_dev w1) !! h = Some c.

Lemma phys_ext_malloc w w1 h l : phys (w_dev w) !! h = None -> phys (w_dev w1) = <[h := l]> (phys (w_dev w)) -> phys_ext w w1.
Proof. intros Hn E x c Hx. rewrite E, lookup_insert_ne; [done|]. intros ->. congruence. Qed.

(** A record comes back with its own memory: at [va], or not mapped. *)
Definition in_result va r c w rc h w1 : Prop :=
  frame va w w1 ∧ phys_ext w w1 ∧ w_host w1 = w_host w ∧
  (rc = ENPU_SUCCESS -> phys (w_dev w) !! h = None ∧ phys (w_dev w1) !! h = Some c ∧ (va <> 0 -> maps (w_dev w1) !! va = Some (h, 0, mr_size r))).

Lemma undo_result va r c w w1 w2 h l rc :
  frame va w w1 -> w_host w1 = w_host w -> phys (w_dev w) !! h = None -> phys (w_dev w1) = <[h := l]> (phys (w_dev w)) ->
  undo_malloc h w1 = (rc, w2) -> in_result va r c w rc h w2 ∧ rc <> ENPU_SUCCESS.
Proof.
  intros HF Hh Hn Hp E. unfold undo_malloc in E. destruct (rt_free_physical h w1) as [res w3] eqn:Ef. injection E as <- <-.
  apply rt_free_spec in Ef as (E1 & E2 & E3 & E4). split; [|done].
  split; [eapply frame_trans; [done|by apply frame_same]|]. split; [|split; [congruence|done]].
  intros x c' Hx. rewrite E4, Hp. assert (x <> h) by congruence. destruct res; [by rewrite lookup_insert_ne|by rewrite lookup_delete_ne, lookup_insert_ne].
Qed.

Lemma aligned_size size g : 0 < g -> 0 <= size -> size mod g = 0 -> size + g < U64_MOD ->
  u64 (u64 (u64 (size + g) - 1) / g * g) = size.
Proof.
  intros Hg Hs Hm Hb. rewrite (u64_small (size + g)), (u64_small (_ - 1)) by (unfold is_u64; lia).
  assert (E : (size + g - 1) / g * g = size).
  { pose proof (Z.div_mod size g ltac:(lia)) as Hd. rewrite Hm in Hd.
    replace (size + g - 1) with (size / g * g + (g - 1)) by lia.
    rewrite Z.div_add_l by lia. rewrite (Z.div_small (g - 1)) by lia. lia. }
  rewrite E. apply u64_small. unfold is_u64. lia.
Qed.

Lemma swap_in_plain r w c :
  mr_ptr r <> 0 -> mr_ptr r ∈ reserved (w_dev w) -> 0 <= base -> 0 <= mr_swap_offset r -> base + mr_swap_offset r + mr_size r < U64_MOD ->
  0 <= mr_size r -> mr_size r mod granule = 0 -> mr_size r + granule < U64_MOD -> host_read (base + mr_swap_offset r) (mr_size r) (w_host w) = c ->
  exists rc h w1, swap_executor_swap_in base (mr_ptr r) (mr_swap_offset r) (mr_size r) (mr_handle r) true w = Some (rc, (mr_ptr r, mr_size r, h), w1) ∧
    in_result (mr_ptr r) r c w rc h w1.
Proof.
  intros Hp Hres Hb Ho Hbd Hsz Hm Hov Hc. pose proof granule_pos as Hg. unfold swap_executor_swap_in.
  destruct (dev_granularity device_prop (w_dev w)) as [rc g] eqn:Eg.
  assert (Hfail : forall w1 h rc, frame (mr_ptr r) w w1 -> phys_ext w w1 -> w_host w1 = w_host w -> rc <> ENPU_SUCCESS -> in_result (mr_ptr r) r c w rc h w1)
    by (intros; split; [done|]; split; [done|]; split; done).
  destruct (Z.eqb_spec rc 0) as [Hrc|Hrc]; cbn [negb]; [|exists RT_FAIL, (mr_handle r), w; split; [done|apply Hfail; [apply frame_refl|by intros ? ?|done|done]]].
  apply law_granularity in Eg as ->; [|done]. rewrite (proj2 (Z.eqb_neq granule 0)) by lia. rewrite aligned_size by done.
  destruct (rt_malloc_physical (mr_size r) device_prop 0 w) as [res w1] eqn:E1. apply rt_malloc_spec in E1 as (A1 & A2 & A3 & A4).
  destruct res as [rc1|h]; [exists RT_FAIL, (mr_handle r), w1; split; [done|apply Hfail; [by apply frame_same|intros ? ?; by rewrite (proj2 A4)|done|done]]|].
  destruct A4 as (_ & Hn & l & Hl & Hph). cbn [mret W_ret].
  assert (F1 : frame (mr_ptr r) w w1) by (by apply frame_same).
  destruct (rt_map (mr_ptr r) (mr_size r) 0 h 0 w1) as [res w2] eqn:E2. apply rt_map_spec in E2 as (B1 & B2 & B3 & B4).
  assert (F2 : frame (mr_ptr r) w w2).
  { eapply frame_trans; [exact F1|]. split; [by rewrite B2|]. intros a _ Ha. rewrite B4. destruct res; [done|by rewrite lookup_insert_ne]. }
  destruct res as [rc1|[]].
  { destruct (undo_malloc h w2) as [rc2 w3] eqn:E3. exists rc2, h, w3. split; [done|].
    eapply undo_result; [exact F2|congruence|exact Hn| |exact E3]. rewrite B1. exact Hph. }
  cbn [negb]. destruct (rt_copy_in (mr_ptr r) (u64 (base + mr_swap_offset r)) (mr_size r) w2) as [res w3] eqn:E3.
  apply rt_copy_in_spec with (h := h) (c := l) in E3 as (C1 & C2 & C3 & C4).
  rewrite u64_small in C4 by (unfold is_u64; lia). rewrite B3, A3, Hc in C4. specialize (C4 ltac:(by rewrite B4, lookup_insert_eq) ltac:(by rewrite B1, Hph, lookup_insert_eq) ltac:(lia)).
  assert (F3 : frame (mr_ptr r) w w3) by (eapply frame_trans; [exact F2|by apply frame_same]).
  destruct res as [rc1|[]].
  { destruct (undo_malloc h w3) as [rc2 w4] eqn:E4. exists rc2, h, w4. split; [done|].
    eapply undo_result; [exact F3|congruence|exact Hn| |exact E4]. rewrite C4, B1. exact Hph. }
  exists ENPU_SUCCESS, h, w3. split; [done|]. split; [done|]. rewrite B1, Hph, insert_insert_eq in C4.
  split; [by eapply phys_ext_malloc|]. split; [congruence|]. intros _. split; [done|]. rewrite C4, lookup_insert_eq. split; [done|].
  intros _. by rewrite C1, B4, lookup_insert_eq.
Qed.

(** The address for a physical allocation that comes back, mapped. *)
Lemma map_back_spec t r h l w res w1 :
  mr_is_physical r = true -> (va_of t r <> 0 -> va_of t r ∈ reserved (w_dev w)) ->
  map_back t (mr_ptr r) (mr_size r) w = (res, w1) ->
  phys (w_dev w) !! h = Some l ->
  frame (va_of t r) w w1 ∧ w_host w1 = w_host w ∧ phys (w_dev w1) = phys (w_dev w) ∧
  match res with
  | inl _ => True
  | inr (va, flag) => if (flag : bool) then va_of t r = 0 ∧ va ∉ reserved (w_dev w) else va = va_of t r ∧ va <> 0
  end.
Proof.
  intros Hph Hres E Hl. unfold map_back, memory_tracker_get_map_va in E. unfold va_of. rewrite Hph. cbn in E |- *.
  set (va := match list_find _ (t_map_records t) with Some (_, n) => mn_va n | None => 0 end) in *.
  destruct (Z.eqb_spec va 0) as [Hz|Hz]; cbn in E.
  - unfold mbind, W_bind in E. destruct (rt_reserve (mr_size r) w) as [[rc|va1] w2] eqn:E1; apply rt_reserve_spec in E1 as (B1 & B2 & B3 & B4); injection E as <- <-.
    + destruct B4 as [_ B4]. split; [by apply frame_same|done].
    + destruct B4 as (_ & B4 & B5). split; [split; [set_solver|intros a _ _; by rewrite B1]|]. done.
  - injection E as <- <-. split; [apply frame_refl|done].
Qed.

Lemma map_new_spec t r va flag h w res w1 :
  (flag = false -> exists f, memory_tracker_get_map_prop t va = (ENPU_SUCCESS, Some (mr_size r, 0, f))) ->
  map_new t va flag (mr_size r) h w = (res, w1) ->
  phys (w_dev w1) = phys (w_dev w) ∧ reserved (w_dev w1) = reserved (w_dev w) ∧ w_host w1 = w_host w ∧
  maps (w_dev w1) = match res with inl _ => maps (w_dev w) | inr _ => <[va := (h, 0, mr_size r)]> (maps (w_dev w)) end.
Proof.
  intros Hf E. unfold map_new in E. destruct flag; [by apply rt_map_spec in E|]. destruct (Hf eq_refl) as (f & Ef). rewrite Ef in E. cbn in E.
  by apply rt_map_spec in E.
Qed.

(** The end of a swap-in of a physical allocation: an address reserved for the
    copy is unmapped and released. *)
Lemma unmap_release_spec va w res w1 :
  (_ ← rt_unmap va; rt_release va) w = (res, w1) ->
  phys (w_dev w1) = phys (w_dev w) ∧ w_host w1 = w_host w ∧ reserved (w_dev w) ∖ {[va]} ⊆ reserved (w_dev w1) ∧
  forall a, a <> va -> maps (w_dev w1) !! a = maps (w_dev w) !! a.
Proof.
  unfold mbind, W_bind. destruct (rt_unmap va w) as [[rc|[]] w2] eqn:E1; apply rt_unmap_spec in E1 as (A1 & A2 & A3 & A4).
  - intros [= <- <-]. split; [done|]. split; [done|]. split; [set_solver|]. intros a _. by rewrite A4.
  - intros E2. apply rt_release_spec in E2 as (B1 & B2 & B3 & B4). split; [congruence|]. split; [congruence|].
    split; [rewrite B4, A2; destruct res; set_solver|]. intros a Ha. by rewrite B1, A4, lookup_delete_ne.
Qed.

Lemma in_result_failed va r c w rc h w1 :
  frame va w w1 -> phys_ext w w1 -> w_host w1 = w_host w -> rc <> ENPU_SUCCESS -> in_result va r c w rc h w1.
Proof. intros. split; [done|]. split; [done|]. split; done. Qed.

Lemma swap_in_physical t r w c :
  mr_is_physical r = true -> mr_ptr r <> 0 -> (va_of t r <> 0 -> va_of t r ∈ reserved (w_dev w)) ->
  0 <= base -> 0 <= mr_swap_offset r -> base + mr_swap_offset r + mr_size r < U64_MOD -> 0 <= mr_size r ->
  (forall x, (memory_tracker_get_handle_prop t (mr_ptr r)).2 = Some x -> x.1.1 = mr_size r) ->
  (va_of t r <> 0 -> exists f, memory_tracker_get_map_prop t (va_of t r) = (ENPU_SUCCESS, Some (mr_size r, 0, f))) ->
  host_read (base + mr_swap_offset r) (mr_size r) (w_host w) = c ->
  exists rc h w1, swap_executor_swap_in_physical base t (mr_ptr r) (mr_swap_offset r) (mr_size r) (mr_handle r) w = (rc, (mr_size r, h), w1) ∧
    in_result (va_of t r) r c w rc h w1.
Proof.
  intros Hph Hp Hres Hb Ho Hbd Hsz Hprop Hmapp Hc. unfold swap_executor_swap_in_physical. rewrite (proj2 (Z.eqb_neq _ _) Hp).
  assert (Eprop : exists p f, match memory_tracker_get_handle_prop t (mr_ptr r) with (_, Some x) => x | (_, None) => (mr_size r, device_prop, 0) end = (mr_size r, p, f)).
  { destruct (memory_tracker_get_handle_prop t (mr_ptr r)) as [rc [[[sz p] f]|]]; [|eauto]. specialize (Hprop _ eq_refl). cbn in Hprop. subst. eauto. }
  destruct Eprop as (p & f & ->).
  destruct (rt_malloc_physical (mr_size r) p f w) as [res w1] eqn:E1. apply rt_malloc_spec in E1 as (A1 & A2 & A3 & A4).
  assert (F1 : frame (va_of t r) w w1) by (by apply frame_same).
  destruct res as [rc1|h]; [do 3 eexists; split; [done|apply in_result_failed; [done|intros ? ?; by rewrite (proj2 A4)|done|done]]|].
  destruct A4 as (_ & Hn & l & Hl & Hp1).
  destruct (map_back t (mr_ptr r) (mr_size r) w1) as [res w2] eqn:E2.
  apply (map_back_spec t r h l) in E2 as (F2 & B1 & B2 & B3); [|done|by rewrite A2|by rewrite Hp1, lookup_insert_eq].
  assert (F02 : frame (va_of t r) w w2) by (by eapply frame_trans). assert (P2 : phys (w_dev w2) = <[h := l]> (phys (w_dev w))) by congruence.
  destruct res as [rc1|[va flag]]; [do 3 eexists; split; [done|apply in_result_failed; [done|by eapply phys_ext_malloc|congruence|done]]|].
  rewrite A2 in B3. assert (Hflag : flag = false -> exists g, memory_tracker_get_map_prop t va = (ENPU_SUCCESS, Some (mr_size r, 0, g))).
  { intros ->. destruct B3 as [-> Hz]. by apply Hmapp. }
  destruct (map_new t va flag (mr_size r) h w2) as [res w3] eqn:E3. apply (map_new_spec t r) in E3 as (C1 & C2 & C3 & C4); [|done].
  assert (F03 : frame (va_of t r) w w3).
  { assert (Hm : forall a, a <> va -> maps (w_dev w3) !! a = maps (w_dev w2) !! a) by (intros a Ha; rewrite C4; destruct res; [done|by rewrite lookup_insert_ne]).
    destruct flag; [apply (frame_fresh _ va w w2); [done|by destruct B3|done|rewrite C2; set_solver]|]. destruct B3 as [-> _].
    eapply frame_trans; [exact F02|]. split; [by rewrite C2|]. intros a _ Ha. by apply Hm. }
  destruct res as [rc1|[]].
  { destruct (undo_malloc h w3) as [rc2 w4] eqn:E4. do 3 eexists. split; [done|]. eapply undo_result; [exact F03|congruence|exact Hn|rewrite C1; exact P2|exact E4]. }
  destruct (rt_copy_in va (u64 (base + mr_swap_offset r)) (mr_size r) w3) as [res w4] eqn:E4.
  apply rt_copy_in_spec with (h := h) (c := l) in E4 as (G1 & G2 & G3 & G4).
  rewrite u64_small in G4 by (unfold is_u64; lia). rewrite C3, B1, A3, Hc in G4.
  specialize (G4 ltac:(by rewrite C4, lookup_insert_eq) ltac:(by rewrite C1, P2, lookup_insert_eq) ltac:(lia)).
  assert (F04 : frame (va_of t r) w w4) by (eapply frame_trans; [exact F03|by apply frame_same]).
  destruct res as [rc1|[]].
  { destruct (undo_malloc h w4) as [rc2 w5] eqn:E5. do 3 eexists. split; [done|]. eapply undo_result; [exact F04|congruence|exact Hn|rewrite G4, C1; exact P2|exact E5]. }
  assert (P4 : phys (w_dev w4) = <[h := c]> (phys (w_dev w))) by (by rewrite G4, C1, P2, insert_insert_eq).
  destruct flag.
  - destruct B3 as [Hz Hva]. destruct ((_ ← rt_unmap va; rt_release va) w4) as [res w6] eqn:E6. pose proof E6 as E6'.
    apply unmap_release_spec in E6 as (K1 & K2 & K3 & K4).
    assert (F06 : frame (va_of t r) w w6) by (by apply (frame_fresh _ va w w4)).
    assert (P6 : phys (w_dev w6) = <[h := c]> (phys (w_dev w))) by congruence.
    unfold mbind, W_bind in E6'. destruct (rt_unmap va w4) as [[rc5|[]] w5].
    { injection E6' as <- <-. do 3 eexists. split; [done|]. apply in_result_failed; [done|by eapply phys_ext_malloc|congruence|done]. }
    destruct (rt_release va w5) as [[rc6|[]] w7]; injection E6' as <- <-; do 3 eexists; (split; [done|]).
    { apply in_result_failed; [done|by eapply phys_ext_malloc|congruence|done]. }
    split; [done|]. split; [by eapply phys_ext_malloc|]. split; [congruence|]. intros _. split; [done|]. rewrite P6, lookup_insert_eq. done.
  - do 3 eexists. split; [done|]. destruct B3 as [-> _]. split; [done|]. split; [by eapply phys_ext_malloc|]. split; [congruence|]. intros _.
    split; [done|]. rewrite P4, lookup_insert_eq. split; [done|]. intros _. by rewrite G1, C4, lookup_insert_eq.
Qed.

(** * The loop of a swap-in *)

(** An allocation that comes back with its size: a plain one is a multiple of
    the granule; of a physical one the recorded sizes are its own, and it is
    mapped whole. *)
Definition restorable t r : Prop :=
  0 <= mr_size r ∧
  if mr_is_physical r then
    (forall x, (memory_tracker_get_handle_prop t (mr_ptr r)).2 = Some x -> x.1.1 = mr_size r) ∧
    (va_of t r <> 0 -> exists f, memory_tracker_get_map_prop t (va_of t r) = (ENPU_SUCCESS, Some (mr_size r, 0, f)))
  else mr_size r mod granule = 0 ∧ mr_size r + granule < U64_MOD.

Lemma restorable_same t t1 r r1 : same_tracker t t1 -> alloc_of r1 = alloc_of r -> restorable t r -> restorable t1 r1.
Proof.
  intros Hs [= E1 E2 E3]. unfold restorable. rewrite E2, E3, E1. rewrite (va_of_same t t1 r r1) by (done || apply (st_maps _ _ Hs)).
  unfold memory_tracker_get_handle_prop, memory_tracker_get_map_prop. by rewrite (st_maps _ _ Hs), (st_handles _ _ Hs).
Qed.

(** The addresses of the allocations are reserved. *)
Definition vas_reserved t w : Prop := forall i r, live t !! i = Some r -> va_of t r <> 0 -> va_of t r ∈ reserved (w_dev w).

Definition with_swap r size handle swapped off : memory_record :=
  mk_record (mr_ptr r) size handle swapped (mr_is_physical r) off (mr_alloc_time_ns r).

Context (cf : rt_cfg D) (Hbase : c_base cf = base).
Implicit Types s : rt_mem D P.

(** The other parts of the process. *)
Definition same_process s s1 : Prop :=
  m_shm s1 = m_shm s ∧ m_slot s1 = m_slot s ∧ m_seen_seq s1 = m_seen_seq s ∧ m_tracker_lock s1 = m_tracker_lock s ∧
  m_swap_in_mutex s1 = m_swap_in_mutex s ∧ m_check_record s1 = m_check_record s.

Lemma same_process_trans s s1 s2 : same_process s s1 -> same_process s1 s2 -> same_process s s2.
Proof. unfold same_process. intros (?&?&?&?&?&?) (?&?&?&?&?&?). split_and!; congruence. Qed.

(** The executor on the record [i], either kind. *)
Lemma swap_in_executor s i r c :
  live (m_tracker s) !! i = Some r -> mr_ptr r <> 0 -> 0 <= base -> restorable (m_tracker s) r -> vas_reserved (m_tracker s) (m_world s) ->
  0 <= mr_swap_offset r -> base + mr_swap_offset r + mr_size r < U64_MOD ->
  host_read (base + mr_swap_offset r) (mr_size r) (w_host (m_world s)) = c ->
  exists rc h w1,
    (if mr_is_physical r then
       let '(ret, (size, handle), w1) :=
         swap_executor_swap_in_physical (c_base cf) (m_tracker s) (mr_ptr r) (mr_swap_offset r) (mr_size r) (mr_handle r) (m_world s) in
       Some (ret, with_swap r size handle (mr_is_swapped r) (mr_swap_offset r), w1)
     else
       '(ret, (ptr, size, handle), w1) ←
         swap_executor_swap_in (c_base cf) (mr_ptr r) (mr_swap_offset r) (mr_size r) (mr_handle r) true (m_world s);
       Some (ret, mk_record ptr size handle (mr_is_swapped r) (mr_is_physical r) (mr_swap_offset r) (mr_alloc_time_ns r), w1)) =
    Some (rc, with_swap r (mr_size r) h (mr_is_swapped r) (mr_swap_offset r), w1) ∧
    in_result (va_of (m_tracker s) r) r c (m_world s) rc h w1.
Proof.
  intros Hi Hp Hb [Hsz Hsw] Hv Ho Hbd Hc. rewrite Hbase. specialize (Hv i r Hi). destruct (mr_is_physical r) eqn:Eph.
  - destruct Hsw as [S1 S2]. destruct (swap_in_physical (m_tracker s) r (m_world s) c) as (rc & h & w1 & -> & Hr); try done. eauto.
  - destruct Hsw as [S1 S2]. unfold va_of in *. rewrite Eph in *.
    destruct (swap_in_plain r (m_world s) c) as (rc & h & w1 & -> & Hr); try done; [by apply Hv|].
    exists rc, h, w1. split; [|done]. cbn. unfold with_swap. by rewrite Eph.
Qed.

(** On a driver that does not fail neither does the executor. *)
Lemma swap_in_plain_ok ok ptr off size handle w rc x w1 :
  reliable ok -> ok (w_dev w) -> swap_executor_swap_in base ptr off size handle true w = Some (rc, x, w1) -> rc = ENPU_SUCCESS ∧ ok (w_dev w1).
Proof.
  intros Hok Hw. unfold swap_executor_swap_in. pose proof (rel_granularity _ Hok _ Hw) as Hg.
  destruct (dev_granularity device_prop (w_dev w)) as [rc0 g]. cbn in Hg. subst rc0. cbn [Z.eqb negb]. destruct (g =? 0); [done|].
  edestruct (succeeds_malloc ok Hok) as (h & w2 & -> & H2); [exact Hw|]. cbn [mret W_ret].
  edestruct (succeeds_map ok Hok) as (u & w3 & -> & H3); [exact H2|]. cbn [negb].
  edestruct (succeeds_copy_in ok Hok) as (u' & w4 & -> & H4); [exact H3|]. by intros [= <- _ <-].
Qed.

Lemma swap_in_physical_ok ok t ptr off size handle w rc x w1 :
  ptr <> 0 -> reliable ok -> ok (w_dev w) -> swap_executor_swap_in_physical base t ptr off size handle w = (rc, x, w1) -> rc = ENPU_SUCCESS ∧ ok (w_dev w1).
Proof.
  intros Hp Hok Hw. unfold swap_executor_swap_in_physical. rewrite (proj2 (Z.eqb_neq _ _) Hp).
  set (y := match memory_tracker_get_handle_prop t ptr with (_, Some z) => z | (_, None) => (size, device_prop, 0) end). destruct y as [[sz p] f].
  edestruct (succeeds_malloc ok Hok) as (h & w2 & -> & H2); [exact Hw|].
  assert (Hb : succeeds ok (map_back t ptr sz)).
  { unfold map_back. destruct (memory_tracker_get_map_va t ptr) as [rc0 va]. case_match; [|apply succeeds_ret].
    apply succeeds_bind; [by apply succeeds_reserve|intros ?; apply succeeds_ret]. }
  destruct (Hb w2 H2) as ([va flag] & w3 & -> & H3).
  assert (Hn : succeeds ok (map_new t va flag sz h)) by (unfold map_new; repeat case_match; by apply succeeds_map).
  destruct (Hn w3 H3) as (u & w4 & -> & H4). edestruct (succeeds_copy_in ok Hok) as (u' & w5 & -> & H5); [exact H4|].
  destruct flag; [|by intros [= <- _ <-]].
  edestruct (succeeds_unmap ok Hok) as (u1 & w6 & -> & H6); [exact H5|]. edestruct (succeeds_release ok Hok) as (u2 & w7 & -> & H7); [exact H6|].
  by intros [= <- _ <-].
Qed.

(** The record [i] after a turn of the loop. *)
Lemma data_inv_in t w C i r c rc h w1 t1 r1 :
  data_inv base t w C -> live t !! i = Some r -> mr_is_swapped r = true -> C !! mr_ptr r = Some c -> Z.of_nat (length c) = mr_size r ->
  host_read (base + mr_swap_offset r) (mr_size r) (w_host w) = c ->
  in_result (va_of t r) r c w rc h w1 -> tracker_inv t1 -> live t1 = <[i := r1]> (live t) -> t_map_records t1 = t_map_records t ->
  r1 = (if rc =? ENPU_SUCCESS then with_swap r (mr_size r) h false 0 else with_swap r (mr_size r) h true (mr_swap_offset r)) ->
  data_inv base t1 w1 C.
Proof.
  intros HI Hi Hs HC Hl Hh (HF & He & Hw & Hok) Ht El Em ->.
  eapply (data_inv_update base t w C i r); try done; try (by case_match).
  - destruct (Z.eqb_spec rc ENPU_SUCCESS) as [E|E]; (split; [done|]); cbn; [by apply Hok|by rewrite Hw].
  - intros j x cx Hj Hne [Hlx Hx]. split; [done|]. destruct (mr_is_swapped x); [by rewrite Hw|by apply He].
  - destruct (Z.eqb_spec rc ENPU_SUCCESS) as [E|E]; [|done]. cbn. intros _ j x Hj Hne Hx Eh. destruct (Hok E) as [Hn _].
    destruct (di_data _ _ _ _ HI j x Hj) as (cx & _ & _ & Hp). rewrite Hx, Eh in Hp. congruence.
  - destruct (Z.eqb_spec rc ENPU_SUCCESS) as [E|E]; [done|]. cbn. intros _. destruct (di_bounds _ _ _ _ HI i r Hi Hs). split; [done|]. split; [done|].
    intros j x Hj Hne Hx. by apply (di_areas _ _ _ _ HI j i x r).
Qed.

(** A turn of the loop: everything but the record [i] is as before, and on a
    driver that does not fail the record is back. *)
Record turn_result (i : nat) (va : Z) s s1 : Prop := {
  tr_tracker : same_tracker (m_tracker s) (m_tracker s1);
  tr_process : same_process s s1;
  tr_frame : frame va (m_world s) (m_world s1);
  tr_others j : j <> i -> live (m_tracker s1) !! j = live (m_tracker s) !! j;
}.

Lemma swap_in_one_spec s i r C :
  data_inv base (m_tracker s) (m_world s) C -> live (m_tracker s) !! i = Some r -> 0 <= base -> restorable (m_tracker s) r ->
  vas_reserved (m_tracker s) (m_world s) ->
  exists s1, swap_in_one cf i s = Some s1 ∧ data_inv base (m_tracker s1) (m_world s1) C ∧ turn_result i (va_of (m_tracker s) r) s s1 ∧
    forall ok, reliable ok -> ok (w_dev (m_world s)) -> ok (w_dev (m_world s1)) ∧
      forall r1, live (m_tracker s1) !! i = Some r1 -> mr_is_swapped r1 = false ∧
        ((mr_is_swapped r = false -> mapped_ok (m_tracker s) r (m_world s)) -> mapped_ok (m_tracker s1) r1 (m_world s1)).
Proof.
  intros HI Hi Hb Hsw Hv. pose proof (di_tracker _ _ _ _ HI) as Ht. pose proof (distinct_nonnull _ _ _ (ti_live _ Ht) Hi) as Hp.
  unfold swap_in_one. rewrite (record_at_live _ i r Ht Hi). cbn [mbind option_bind].
  destruct (mr_is_swapped r) eqn:Es; cbn [negb].
  2:{ exists s. split; [done|]. split; [done|]. split; [split; [apply same_tracker_refl|by split_and!|apply frame_refl|done]|].
      intros ok Hok Hw. split; [done|]. intros r1 Hr1. rewrite Hi in Hr1. injection Hr1 as <-. split; [done|]. intros Hm. by apply Hm. }
  destruct (di_data _ _ _ _ HI i r Hi) as (c & HC & Hl & Hh). rewrite Es in Hh. destruct (di_bounds _ _ _ _ HI i r Hi Es) as [B1 B2].
  destruct (swap_in_executor s i r c Hi Hp Hb Hsw Hv B1 B2 Hh) as (rc & h & w1 & E & Hres). rewrite Es in E. unfold with_swap in E.
  pose proof E as Ein. rewrite E. cbn [mbind option_bind]. clear E.
  set (r1 := mk_record (mr_ptr r) (mr_size r) h true (mr_is_physical r) (mr_swap_offset r) (mr_alloc_time_ns r)) in *.
  destruct (put_live (m_tracker s) i r r1 Ht Hi eq_refl) as (t1 & Et1 & Ht1 & El1 & Eb1 & Ec1 & Em1 & Eh1). rewrite Et1. cbn [mbind option_bind].
  set (s1 := set_tracker t1 (set_world w1 s)).
  assert (Hrel : forall ok, reliable ok -> ok (w_dev (m_world s)) -> rc = ENPU_SUCCESS ∧ ok (w_dev w1)).
  { intros ok Hok Hw. clear Et1. rewrite Hbase in Ein. destruct (mr_is_physical r).
    - destruct (swap_executor_swap_in_physical base (m_tracker s) (mr_ptr r) (mr_swap_offset r) (mr_size r) (mr_handle r) (m_world s)) as [[rc' [sz' h']] w'] eqn:Ex.
      injection Ein as -> _ _ ->. by eapply swap_in_physical_ok.
    - destruct (swap_executor_swap_in base (mr_ptr r) (mr_swap_offset r) (mr_size r) (mr_handle r) true (m_world s)) as [[[rc' [[p' sz'] h']] w']|] eqn:Ex; [|done].
      cbn in Ein. injection Ein as -> _ _ _ ->. by eapply swap_in_plain_ok. }
  destruct (Z.eqb_spec rc ENPU_SUCCESS) as [Erc|Erc]; cbn [negb].
  - destruct (on_record_live (fun x => mk_record (mr_ptr x) (mr_size x) h false (mr_is_physical x) 0 (mr_alloc_time_ns x)) t1 i r1 Ht1) as (t2 & Et2 & Ht2 & El2 & Eb2 & Ec2 & Em2 & Eh2);
      [rewrite El1; apply list_lookup_insert_eq; by eapply lookup_lt_Some|done|].
    unfold memory_tracker_mark_active. cbn [mr_ptr mr_handle r1] in Et2 |- *. rewrite Et2. cbn [mbind option_bind negb Z.eqb ENPU_SUCCESS].
    rewrite El1, list_insert_insert_eq in El2. cbn in El2. fold (with_swap r (mr_size r) h false 0) in El2.
    eexists. split; [done|]. cbn [m_tracker m_world set_check_in set_tracker set_world s1].
    assert (HI2 : data_inv base t2 w1 C).
    { eapply (data_inv_in (m_tracker s) (m_world s) C i r c rc h w1); try done; [congruence|]. by rewrite Erc. }
    split; [done|]. split.
    { split; cbn; [eapply (same_tracker_put _ i r (with_swap r (mr_size r) h false 0)); try done; congruence|by split_and!|by destruct Hres|].
      intros j Hj. rewrite El2. by apply list_lookup_insert_ne. }
    intros ok Hok Hw. split; [by apply (Hrel ok)|]. intros x Hx. rewrite El2, list_lookup_insert_eq in Hx by (by eapply lookup_lt_Some). injection Hx as <-.
    split; [done|]. intros _. unfold mapped_ok. rewrite (va_of_same (m_tracker s) t2 r) by (done || congruence). intros Hz. destruct Hres as ([HR _] & _ & _ & Hok').
    destruct (Hok' Erc) as (_ & _ & Hm). split; [by apply Hm|]. apply HR. by apply (Hv i r).
  - exists s1. split; [done|]. cbn [m_tracker m_world set_tracker set_world s1].
    split; [eapply (data_inv_in (m_tracker s) (m_world s) C i r c rc h w1 t1 r1); try done; by rewrite (proj2 (Z.eqb_neq _ _) Erc)|]. split.
    { split; cbn; [by eapply (same_tracker_put _ i r r1)|by split_and!|by destruct Hres|].
      intros j Hj. rewrite El1. by apply list_lookup_insert_ne. }
    intros ok Hok Hw. by destruct (Hrel ok Hok Hw).
Qed.

(** The allocations that are on the device are mapped. *)
Definition all_mapped t w : Prop := forall i r, live t !! i = Some r -> mr_is_swapped r = false -> mapped_ok t r w.

Lemma all_mapped_turn s s1 i r C :
  data_inv base (m_tracker s) (m_world s) C -> live (m_tracker s) !! i = Some r -> turn_result i (va_of (m_tracker s) r) s s1 ->
  (forall r1, live (m_tracker s1) !! i = Some r1 -> mapped_ok (m_tracker s1) r1 (m_world s1)) ->
  all_mapped (m_tracker s) (m_world s) -> all_mapped (m_tracker s1) (m_world s1).
Proof.
  intros HI Hi HT H1 Hp j x Hj Hx. destruct (decide (j = i)) as [->|Hne]; [by apply H1|].
  rewrite (tr_others _ _ _ _ HT) in Hj by done. eapply mapped_ok_frame; [apply HT|apply HT| |by eapply Hp].
  intros Hz. by apply (di_vas _ _ _ _ HI j i x r).
Qed.

Lemma swap_in_loop_spec C : forall n i s,
  data_inv base (m_tracker s) (m_world s) C -> (i + n = length (live (m_tracker s)))%nat -> 0 <= base ->
  (forall j r, live (m_tracker s) !! j = Some r -> restorable (m_tracker s) r) -> vas_reserved (m_tracker s) (m_world s) ->
  exists s1, swap_in_loop cf (seq i n) s = Some s1 ∧ data_inv base (m_tracker s1) (m_world s1) C ∧
    same_tracker (m_tracker s) (m_tracker s1) ∧ same_process s s1 ∧ (forall j, (j < i)%nat -> live (m_tracker s1) !! j = live (m_tracker s) !! j) ∧
    vas_reserved (m_tracker s1) (m_world s1) ∧
    forall ok, reliable ok -> ok (w_dev (m_world s)) -> all_mapped (m_tracker s) (m_world s) ->
      ok (w_dev (m_world s1)) ∧ all_mapped (m_tracker s1) (m_world s1) ∧ forall j r, (i <= j)%nat -> live (m_tracker s1) !! j = Some r -> mr_is_swapped r = false.
Proof.
  induction n as [|n IH]; intros i s HI Hn Hb Hsw Hv; cbn [seq swap_in_loop].
  { exists s. split; [done|]. split; [done|]. split; [apply same_tracker_refl|]. split; [by split_and!|]. split; [done|]. split; [done|].
    intros ok Hok Hw Hp. split; [done|]. split; [done|]. intros j r Hj Hr. apply lookup_lt_Some in Hr. lia. }
  destruct (lookup_lt_is_Some_2 (live (m_tracker s)) i) as [r Hr]; [lia|].
  destruct (swap_in_one_spec s i r C HI Hr Hb (Hsw i r Hr) Hv) as (s1 & E1 & HI1 & HT & Hok1). rewrite E1. cbn [mbind option_bind].
  pose proof (tr_tracker _ _ _ _ HT) as Hst.
  assert (Hlen : length (live (m_tracker s1)) = length (live (m_tracker s))).
  { rewrite <- (length_fmap alloc_of (live (m_tracker s1))), (st_live _ _ Hst). apply length_fmap. }
  destruct (IH (S i) s1) as (s2 & E2 & HI2 & Hst2 & Hsp2 & Ho2 & Hv2 & Hok2); [done|lia|done| | |].
  { intros j x Hj. destruct (same_lookup _ _ _ _ Hst Hj) as (y & Hy & Hxy). eapply restorable_same; [done|done|by eapply Hsw]. }
  { intros j x Hj. destruct (same_lookup _ _ _ _ Hst Hj) as (y & Hy & Hxy). unfold alloc_of in Hxy. injection Hxy as X1 X2 X3.
    rewrite (va_of_same (m_tracker s) (m_tracker s1) y x) by (done || apply Hst). intros Hz. apply (fr_reserved _ _ _ (tr_frame _ _ _ _ HT)). by eapply Hv. }
  exists s2. split; [done|]. split; [done|]. split; [by eapply same_tracker_trans|]. split; [eapply same_process_trans; [apply HT|done]|].
  split; [intros j Hj; rewrite Ho2 by lia; apply HT; lia|]. split; [done|].
  intros ok Hok Hw Hp. destruct (Hok1 ok Hok Hw) as [Hw1 Hi1].
  assert (Hp1 : all_mapped (m_tracker s1) (m_world s1)).
  { apply (all_mapped_turn s s1 i r C HI Hr HT); [|exact Hp]. intros r1 Hr1. apply (Hi1 r1 Hr1). intros Hx. by eapply Hp. }
  destruct (Hok2 ok Hok Hw1 Hp1) as (A & B & Cc). split; [done|]. split; [done|]. intros j x Hj Hx. destruct (decide (j = i)) as [->|Hne].
  - rewrite Ho2 in Hx by lia. by apply (Hi1 x Hx).
  - eapply (Cc j x); [lia|done].
Qed.

End loops.
