(* ===== verification/SwapCycle.v ===== *)
(** The swap of a process from the command to the return of its memory: what
    the monitor thread and the swap hook do to the contents of the allocations
    and to the counters of the die. *)

From S2P Require Import Prelude CLib SwapTlsf ShmManager ShmFacts RtShm HashMap MemoryTracker MemoryTrackerThms RtDevice SwapExec SwapExecFacts.

(** * The slot of the process *)

Section slot.
Context (v i : Z) (Hv : 0 <= v < 128) (Hi : 0 <= i < 64).

(** The vNPU is allocated, [used] is its counter and [p] the slot. *)
Record cell (x : shm_state) (used : Z) (p : process_entry) : Prop := {
  ce_wf : shm_wf x;
  ce_live : vnpu_bitmap_test (st_bitmap x) v = true;
  ce_entry : exists e, entry_at x v = Some e ∧ e_hbm_used e = used;
  ce_process : process_at x v i = Some p;
}.

Lemma cell_put_process x used p p1 : cell x used p -> cell (put_process v i p1 x) used p1.
Proof.
  intros [Hwf Hb (e & He & Hu) Hp]. split.
  - by apply put_process_wf.
  - by rewrite (put_process_eq x v e).
  - rewrite (put_process_eq x v e) by done. eexists. rewrite entry_at_put by (done || lia). by rewrite decide_True.
  - rewrite (put_process_eq x v e) by done. unfold process_at. rewrite entry_at_put, decide_True by (done || lia). cbn [mbind option_bind].
    rewrite (proj2 (Z.ltb_ge i 0)) by lia. apply list_lookup_insert_eq. unfold process_at in Hp. rewrite He in Hp. cbn in Hp.
    rewrite (proj2 (Z.ltb_ge i 0)) in Hp by lia. by eapply lookup_lt_Some.
Qed.

Lemma cell_put_used x used p e n : cell x used p -> entry_at x v = Some e -> cell (put_entry v (set_e_hbm_used n e) x) n p.
Proof.
  intros [Hwf Hb _ Hp] He. split.
  - apply put_entry_wf; [done|]. exact (entry_at_entry_wf x v e Hwf He).
  - done.
  - eexists. rewrite entry_at_put by (done || lia). by rewrite decide_True.
  - unfold process_at in *. rewrite He in Hp. by rewrite entry_at_put, decide_True by (done || lia).
Qed.

Lemma cell_cmds x used p c o : cell x used p -> cell (set_st_cmds c o x) used p.
Proof. intros [Hwf Hb He Hp]. by split; [apply set_cmds_wf| | |]. Qed.

Lemma vnpu_in_die : vnpu_id_in_die v = true.
Proof. by apply in_die_spec. Qed.

Lemma slot_fits : slot_in_range i = true.
Proof. unfold slot_in_range, MAX_PROCESSES_PER_VNPU. lia. Qed.

Lemma cell_get_entry x used p : cell x used p -> exists e, shm_get_entry x v = Some e ∧ entry_at x v = Some e ∧ e_hbm_used e = used.
Proof. intros [Hwf Hb (e & He & Hu) Hp]. exists e. unfold shm_get_entry. by rewrite vnpu_in_die, Hb. Qed.

(** What an acknowledgement leaves alone. *)
Definition same_memory (p p1 : process_entry) : Prop :=
  p_hbm_used p1 = p_hbm_used p ∧ p_swapped p1 = p_swapped p ∧ p_swap_size p1 = p_swap_size p ∧ p_swap_offset p1 = p_swap_offset p.

Lemma cell_ack x used p q : cell x used p -> exists rc x1 p1, shm_try_ack_swap_cmd x v i q = Some (rc, x1) ∧ cell x1 used p1 ∧ same_memory p p1 ∧
  (q <> 0 -> p_ack_pending_seq p1 = 0).
Proof.
  intros Hc. unfold shm_try_ack_swap_cmd. rewrite vnpu_in_die, slot_fits. cbn [negb orb]. destruct (Z.eqb_spec q 0) as [->|Hq].
  { by exists (-1), x, p. }
  rewrite (ce_process _ _ _ Hc). cbn [mbind option_bind]. pose proof (cell_put_process x used p (set_p_ack 0 p) Hc) as Hc1.
  destruct (negb (p_ack_pending_seq p =? q)); [by eexists _, _, _|]. cbv zeta. set (x2 := set_st_cmds _ _ _).
  assert (Hc2 : cell x2 used (set_p_ack 0 p)) by (by apply cell_cmds). unfold swap_cmd_finish_if_epoch.
  destruct (negb (cmd_seq (st_swap_cmd x2) =? q)); [by eexists _, _, _|]. destruct (negb _); [by eexists _, _, _|].
  unfold shm_swap_ack_done. rewrite vnpu_in_die, (proj2 (Z.eqb_neq _ _) Hq). destruct (ce_entry _ _ _ Hc2) as (e & He & _). rewrite He. cbn [negb mbind option_bind].
  destruct (negb (negb _)); [by eexists _, _, _|]. eexists _, _, _. split; [done|]. split; [by apply cell_cmds|done].
Qed.

End slot.

(** * The monitor thread *)

Section swap.
Context {D P : Type} `{DeviceLaws D P} (cf : rt_cfg D).
Implicit Types (s : rt_mem D P) (t : memory_tracker P) (w : world D) (C : gmap Z (list Z)).

Notation base := (c_base cf).
Notation slot_is s := (cell (c_vnpu cf) (m_slot s)).

Lemma discount_spec act s x used p :
  0 <= c_vnpu cf < 128 -> 0 <= m_slot s < 64 -> m_shm s = Some x -> slot_is s x used p ->
  0 < act -> act <= p_hbm_used p < U64_MOD -> act <= used < U64_MOD ->
  exists x1 p1, discount cf act s = Some (set_shm x1 s) ∧ slot_is s x1 (used - act) p1 ∧
    p_hbm_used p1 = p_hbm_used p - act ∧ p_swapped p1 = true ∧ p_swap_size p1 = act ∧ p_swap_offset p1 = p_swap_offset p.
Proof.
  intros Hv Hi Hx Hc Ha Hp Hu. unfold discount. rewrite Hx. cbn [mbind option_bind]. rewrite (ce_process _ _ _ _ _ Hc). cbn [mbind option_bind].
  assert (Hclamp : forall n, act <= n < U64_MOD -> (if 0 <? clamp act n then u64 (n - clamp act n) else n) = n - act).
  { intros n Hn. unfold clamp. destruct (Z.ltb_spec act n); (rewrite (proj2 (Z.ltb_lt 0 _)) by lia); rewrite u64_small by (unfold is_u64; lia); lia. }
  rewrite Hclamp by done. set (p1 := set_p_used _ _). pose proof (cell_put_process _ _ Hv Hi x used p p1 Hc) as Hc1.
  destruct (ce_entry _ _ _ _ _ Hc1) as (e & He & Heu). rewrite He. cbn [mbind option_bind]. rewrite Heu, Hclamp by done.
  pose proof (cell_put_used _ _ Hv _ _ _ e (used - act) Hc1 He) as Hc2. rewrite (ce_process _ _ _ _ _ Hc2). cbn [mbind option_bind].
  pose proof (cell_put_process _ _ Hv Hi _ _ _ (set_p_swapped true p1) Hc2) as Hc3. eexists _, _. by split; [|split].
Qed.

(** A process that is asked to give its memory back: its allocations are on the
    device and counted, and its buffer has room for them. *)
Record out_ready s C (x : shm_state) (used : Z) (p : process_entry) : Prop := {
  or_vnpu : 0 <= c_vnpu cf < 128;
  or_slot : 0 <= m_slot s < 64;
  or_data : data_inv base (m_tracker s) (m_world s) C;
  or_resident : resident_from (m_tracker s) (m_world s) 0;
  or_restorable j r : live (m_tracker s) !! j = Some r -> restorable (m_tracker s) r;
  or_shm : m_shm s = Some x;
  or_cell : slot_is s x used p;
  or_here : p_swapped p = false;
  or_unlocked : m_tracker_lock s = 0;
  or_cmd : shm_check_swap_cmd x = (c_vnpu cf, SWAP_ACTION_OUT);
  or_new : cmd_seq (st_swap_cmd x) <> m_seen_seq s;
  or_base : 0 <= base;
  or_room : 0 <= p_swap_offset p ∧ base + p_swap_offset p + all_bytes (live (m_tracker s)) < U64_MOD;
  or_counted : all_bytes (live (m_tracker s)) <= p_hbm_used p < U64_MOD;
  or_counted_vnpu : all_bytes (live (m_tracker s)) <= used < U64_MOD;
}.

(** [n] bytes are in the buffer. *)
Record out_done s s1 C (used : Z) (p : process_entry) (n : Z) : Prop := {
  od_data : data_inv base (m_tracker s1) (m_world s1) C;
  od_tracker : same_tracker (m_tracker s) (m_tracker s1);
  od_reserved : vas_reserved (m_tracker s1) (m_world s1);
  od_bytes : n = swapped_bytes (live (m_tracker s1));
  od_slot : m_slot s1 = m_slot s;
  od_locks : m_tracker_lock s1 = m_tracker_lock s ∧ m_swap_in_mutex s1 = m_swap_in_mutex s;
  od_shm : exists x1 p1, m_shm s1 = Some x1 ∧ slot_is s x1 (used - n) p1 ∧ p_swapped p1 = (0 <? n) ∧ p_hbm_used p1 = p_hbm_used p - n ∧
    p_swap_offset p1 = p_swap_offset p ∧ (0 < n -> p_swap_size p1 = n);
}.

Lemma resident_reserved t w : resident_from t w 0 -> vas_reserved t w.
Proof. intros Hr j r Hj Hz. destruct (Hr j r ltac:(lia) Hj) as [_ Hm]. by apply Hm. Qed.

Lemma swapped_none l : (forall j r, l !! j = Some r -> mr_is_swapped r = false) -> swapped_bytes l = 0.
Proof.
  induction l as [|r l IH]; intros Hl; [done|]. cbn. rewrite (Hl 0%nat r eq_refl), IH; [done|]. intros j x Hj. by apply (Hl (S j) x).
Qed.

Lemma vas_reserved_same t t1 w w1 : same_tracker t t1 -> reserved (w_dev w) ⊆ reserved (w_dev w1) -> vas_reserved t w -> vas_reserved t1 w1.
Proof.
  intros Hst Hr Hv j x Hj. destruct (same_lookup _ _ _ _ Hst Hj) as (y & Hy & Hxy). unfold alloc_of in Hxy. injection Hxy as X1 X2 X3.
  rewrite (va_of_same t t1 y x) by (done || apply Hst). intros Hz. apply Hr. by eapply Hv.
Qed.

Lemma swapped_bytes_bounds t w C : data_inv base t w C -> 0 <= swapped_bytes (live t) <= all_bytes (live t).
Proof.
  intros HI. assert (Hl : forall r, r ∈ live t -> 0 <= mr_size r).
  { intros r [j Hj]%list_elem_of_lookup. destruct (di_data _ _ _ _ HI j r Hj) as (c & _ & Hh). by eapply holds_size. }
  induction (live t) as [|r l IH]; cbn; [lia|]. assert (0 <= mr_size r) by (apply Hl; set_solver).
  specialize (IH (fun x Hx => Hl x (list_elem_of_further x r _ Hx))). destruct (mr_is_swapped r); lia.
Qed.

(** Nothing is copied. *)
Lemma out_done_none s C x used p s1 :
  out_ready s C x used p -> m_tracker s1 = m_tracker s -> m_world s1 = m_world s -> m_shm s1 = m_shm s -> m_slot s1 = m_slot s ->
  m_tracker_lock s1 = m_tracker_lock s -> m_swap_in_mutex s1 = m_swap_in_mutex s -> out_done s s1 C used p 0.
Proof.
  intros Hr Et Ew Ex Es El Em. split; rewrite ?Et, ?Ew, ?Ex; try done.
  - apply Hr.
  - apply resident_reserved, Hr.
  - symmetry. apply swapped_none. intros j r Hj. apply (or_resident _ _ _ _ _ Hr j r); [lia|done].
  - rewrite (or_shm _ _ _ _ _ Hr). exists x, p. rewrite !Z.sub_0_r. split_and!; try done; [apply Hr|apply Hr].
Qed.

Lemma swap_out_locked_spec s C x used p s0 :
  out_ready s C x used p -> s0 = set_seen (cmd_seq (st_swap_cmd x)) s ->
  exists s1, swap_out_locked cf s0 = Some s1 ∧ m_seen_seq s1 = cmd_seq (st_swap_cmd x) ∧
    out_done s s1 C used p (swapped_bytes (live (m_tracker s1))) ∧
    forall ok, reliable ok -> ok (w_dev (m_world s)) -> c_collect_malloc cf = true -> t_count (m_tracker s) < I32_HALF ->
      ok (w_dev (m_world s1)) ∧ forall j r, live (m_tracker s1) !! j = Some r -> mr_is_swapped r = true.
Proof.
  intros Hr ->. unfold swap_out_locked. set (s0 := set_seen _ s).
  pose proof (or_data _ _ _ _ _ Hr) as HI. pose proof (di_tracker _ _ _ _ HI) as Ht. pose proof (ti_count _ Ht) as Hct. pose proof (ti_cap _ Ht) as Hcp.
  assert (Hno : forall s1, m_tracker s1 = m_tracker s -> m_world s1 = m_world s -> m_shm s1 = m_shm s -> m_slot s1 = m_slot s ->
    m_tracker_lock s1 = m_tracker_lock s -> m_swap_in_mutex s1 = m_swap_in_mutex s -> out_done s s1 C used p (swapped_bytes (live (m_tracker s1)))).
  { intros s1 Et Ew Ex Es El Em. pose proof (out_done_none _ _ _ _ _ s1 Hr Et Ew Ex Es El Em) as Hd. by rewrite <- (od_bytes _ _ _ _ _ _ Hd). }
  unfold memory_tracker_collect_records. change (m_tracker s0) with (m_tracker s).
  destruct (c_collect_malloc cf) eqn:Ec; cbn [negb]; [|by exists s0; split_and!; [..|apply Hno|]].
  destruct (Z.eqb_spec (i32 (t_count (m_tracker s))) 0) as [E0|E0].
  { exists s0. split_and!; [done|done|by apply Hno|]. intros ok Hok Hw _ Hlt. rewrite i32_small in E0 by (unfold is_i32; lia).
    split; [done|]. intros j r Hj. change (m_tracker s0) with (m_tracker s) in Hj. apply lookup_lt_Some in Hj. rewrite (live_length _ Ht) in Hj. lia. }
  change (m_shm s0) with (m_shm s). rewrite (or_shm _ _ _ _ _ Hr). cbn [mbind option_bind]. change (m_slot s0) with (m_slot s).
  rewrite (ce_process _ _ _ _ _ (or_cell _ _ _ _ _ Hr)). cbn [mbind option_bind]. change (m_world s0) with (m_world s). unfold swap_executor_swap_out.
  destruct (Z.leb_spec (i32 (t_count (m_tracker s))) 0) as [E1|E1]; cbn [mbind option_bind].
  { eexists. split; [done|]. split_and!; [done|by apply Hno|]. intros ok Hok Hw _ Hlt. rewrite i32_small in E1, E0 by (unfold is_i32; lia). lia. }
  assert (Hlt : t_count (m_tracker s) < I32_HALF).
  { destruct (Z.eq_dec (t_count (m_tracker s)) I32_HALF) as [E|]; [|lia]. rewrite E in E1. by vm_compute in E1. }
  rewrite i32_small by (unfold is_i32; lia). rewrite take_ge by (rewrite length_fmap, length_seqZ; lia).
  destruct (or_room _ _ _ _ _ Hr) as [Ho Hrm]. pose proof (or_counted _ _ _ _ _ Hr). pose proof (or_counted_vnpu _ _ _ _ _ Hr).
  pose proof (or_base _ _ _ _ _ Hr) as Hb.
  destruct (swap_out_loop_spec base (Z.to_nat (t_count (m_tracker s))) C 0 (m_tracker s) (p_swap_offset p) 0 0 (m_world s)) as
    (t1 & act & chk & w1 & E & HI1 & Hst & Ea & _ & Hres & Hok); try done; try (rewrite drop_0); try lia; [apply Hr|..].
  { intros j r Hj Hs. destruct (or_resident _ _ _ _ _ Hr j r ltac:(lia) Hj). congruence. }
  rewrite Z2Nat.id in E by lia. change (Z.of_nat 0) with 0 in E. rewrite E. cbn [mbind option_bind]. rewrite drop_0 in Ea. rewrite Z.add_0_l in Ea.
  set (s1 := set_check chk (set_tracker t1 (set_world w1 s0))).
  pose proof (swapped_bytes_bounds _ _ _ HI1) as Hsb. rewrite (all_bytes_same _ _ (st_live _ _ Hst)) in Hsb.
  assert (Hv1 : vas_reserved t1 w1) by (eapply vas_reserved_same; [done|done|]; apply resident_reserved, Hr).
  assert (Hend : forall ok, reliable ok -> ok (w_dev (m_world s)) -> true = true -> t_count (m_tracker s) < I32_HALF ->
    ok (w_dev w1) ∧ forall j r, live t1 !! j = Some r -> mr_is_swapped r = true).
  { intros ok Hrel Hw _ _. destruct (Hok ok Hrel Hw) as [A B]. split; [done|]. intros j r. apply B. lia. }
  destruct (Z.ltb_spec 0 act) as [Hp|Hp].
  - destruct (discount_spec act s1 x used p) as (x1 & p1 & Ed & Hc & P1 & P2 & P3 & P4); try apply Hr; try lia.
    eexists. split; [exact Ed|]. split; [done|]. split; [|exact Hend]. split; try done. cbn. rewrite <- Ea. exists x1, p1. split_and!; try done. by rewrite P2, (proj2 (Z.ltb_lt _ _)).
  - exists s1. split; [done|]. split; [done|]. split; [|exact Hend]. split; try done. cbn. rewrite <- Ea. assert (act = 0) as -> by lia. rewrite !Z.sub_0_r.
    exists x, p. split_and!; try done; apply Hr.
Qed.

Lemma monitor_round_spec s C x used p :
  out_ready s C x used p ->
  exists s1, swap_monitor_round cf s = Some s1 ∧ out_done s s1 C used p (swapped_bytes (live (m_tracker s1))) ∧
    forall ok, reliable ok -> ok (w_dev (m_world s)) -> c_collect_malloc cf = true -> t_count (m_tracker s) < I32_HALF ->
      ok (w_dev (m_world s1)) ∧ forall j r, live (m_tracker s1) !! j = Some r -> mr_is_swapped r = true.
Proof.
  intros Hr. unfold swap_monitor_round. rewrite (or_shm _ _ _ _ _ Hr). cbn [mbind option_bind]. rewrite (or_cmd _ _ _ _ _ Hr). rewrite Z.eqb_refl. cbn [negb orb].
  change (SWAP_ACTION_OUT =? SWAP_ACTION_NONE) with false. change (SWAP_ACTION_OUT =? SWAP_ACTION_IN) with false. rewrite Z.eqb_refl. cbn [negb orb].
  rewrite (proj2 (Z.eqb_neq _ _) (or_new _ _ _ _ _ Hr)). set (s0 := set_seen _ s). change (m_slot s0) with (m_slot s). change (m_tracker_lock s0) with (m_tracker_lock s).
  rewrite (ce_process _ _ _ _ _ (or_cell _ _ _ _ _ Hr)), (or_unlocked _ _ _ _ _ Hr). cbn [mbind option_bind]. rewrite (or_here _ _ _ _ _ Hr).
  destruct (cell_get_entry _ _ (or_vnpu _ _ _ _ _ Hr) _ _ _ (or_cell _ _ _ _ _ Hr)) as (e & -> & _). change (0 <? 0) with false. cbn iota.
  destruct (swap_out_locked_spec s C x used p s0 Hr eq_refl) as (s1 & -> & _ & Hd & Hok). cbn [mbind option_bind].
  destruct (od_shm _ _ _ _ _ _ Hd) as (x1 & p1 & Ex & Hc & P1 & P2 & P3 & P4).
  destruct (cell_ack _ _ (or_vnpu _ _ _ _ _ Hr) (or_slot _ _ _ _ _ Hr) x1 _ p1 (cmd_seq (st_swap_cmd x)) Hc) as (rc & x2 & p2 & Ea & Hc2 & (M1 & M2 & M3 & M4) & _).
  unfold swap_ack_and_decrement. rewrite Ex. cbn [mbind option_bind]. rewrite (od_slot _ _ _ _ _ _ Hd), Ea. cbn [mbind option_bind].
  eexists. split; [done|]. split; [|exact Hok]. destruct Hd as [A1 A2 A3 A4 A5 A6 A7]. split; try done.
  exists x2, p2. split; [done|]. split; [exact Hc2|]. rewrite M1, M2, M3, M4. split_and!; [exact P1|exact P2|exact P3|exact P4].
Qed.

(** * The swap hook *)

Lemma restore_spec n s x used p :
  0 <= c_vnpu cf < 128 -> 0 <= m_slot s < 64 -> m_shm s = Some x -> slot_is s x used p ->
  0 <= n -> 0 <= p_hbm_used p -> 0 <= used -> p_hbm_used p + n < U64_MOD -> used + n < U64_MOD ->
  exists x1 p1, restore_counters cf n s = Some (set_shm x1 s) ∧ slot_is s x1 (used + n) p1 ∧
    p_hbm_used p1 = p_hbm_used p + n ∧ p_swapped p1 = false ∧ p_swap_offset p1 = p_swap_offset p.
Proof.
  intros Hv Hi Hx Hc Hn Hp0 Hu0 Hp Hu. unfold restore_counters. rewrite Hx. cbn [mbind option_bind]. rewrite (ce_process _ _ _ _ _ Hc). cbn [mbind option_bind].
  rewrite (u64_small (p_hbm_used p + n)) by (unfold is_u64; lia). set (p1 := set_p_used _ _).
  pose proof (cell_put_process _ _ Hv Hi x used p p1 Hc) as Hc1. destruct (cell_get_entry _ _ Hv _ _ _ Hc1) as (e & -> & He & Heu). cbn [mbind option_bind].
  rewrite Heu, (u64_small (used + n)) by (unfold is_u64; lia). pose proof (cell_put_used _ _ Hv _ _ _ e (used + n) Hc1 He) as Hc2.
  unfold shm_set_process_swapped. rewrite (vnpu_in_die _ Hv), (slot_fits _ Hi), (ce_process _ _ _ _ _ Hc2). cbn [negb orb mbind option_bind].
  pose proof (cell_put_process _ _ Hv Hi _ _ _ (set_p_swapped false p1) Hc2) as Hc3. eexists _, _. by split; [|split].
Qed.

(** A process whose memory is in the buffer, as far as it could be moved. *)
Record in_ready s C (used : Z) (p : process_entry) : Prop := {
  ir_vnpu : 0 <= c_vnpu cf < 128;
  ir_slot : 0 <= m_slot s < 64;
  ir_base : 0 <= base;
  ir_data : data_inv base (m_tracker s) (m_world s) C;
  ir_restorable j r : live (m_tracker s) !! j = Some r -> restorable (m_tracker s) r;
  ir_reserved : vas_reserved (m_tracker s) (m_world s);
  ir_cell : exists x, m_shm s = Some x ∧ slot_is s x used p;
  ir_counted : 0 <= p_hbm_used p ∧ 0 <= used ∧ 0 < p_swap_size p ∧ p_hbm_used p + p_swap_size p < U64_MOD ∧ used + p_swap_size p < U64_MOD;
}.

Record in_done s s1 C (used : Z) (p : process_entry) : Prop := {
  id_data : data_inv base (m_tracker s1) (m_world s1) C;
  id_tracker : same_tracker (m_tracker s) (m_tracker s1);
  id_slot : m_slot s1 = m_slot s;
  id_shm : exists x1 p1, m_shm s1 = Some x1 ∧ slot_is s x1 (used + p_swap_size p) p1 ∧
    p_hbm_used p1 = p_hbm_used p + p_swap_size p ∧ p_swapped p1 = false ∧ p_swap_offset p1 = p_swap_offset p;
}.

Lemma swap_in_all_spec s C used p :
  in_ready s C used p ->
  exists s1, swap_in_all cf s = Some (ENPU_SUCCESS, s1) ∧ in_done s s1 C used p ∧ m_tracker_lock s1 = m_tracker_lock s - 1 ∧ m_swap_in_mutex s1 = false ∧
    forall ok, reliable ok -> ok (w_dev (m_world s)) -> all_mapped (m_tracker s) (m_world s) ->
      ok (w_dev (m_world s1)) ∧ resident_from (m_tracker s1) (m_world s1) 0.
Proof.
  intros Hr. destruct (ir_cell _ _ _ _ Hr) as (x & Hx & Hc). unfold swap_in_all. rewrite Hx. cbn [mbind option_bind].
  rewrite (ce_process _ _ _ _ _ Hc). cbn [mbind option_bind]. destruct (ir_counted _ _ _ _ Hr) as (C1 & C2 & C3 & C4 & C5).
  pose proof (di_tracker _ _ _ _ (ir_data _ _ _ _ Hr)) as Ht.
  destruct (swap_in_loop_spec base cf eq_refl C (Z.to_nat (t_count (m_tracker s))) 0 (set_check_in 0 s)) as (s1 & -> & HI1 & Hst & Hsp & _ & Hv1 & Hok);
    try apply Hr; [cbn; by rewrite live_length|]. cbn [mbind option_bind]. rewrite (proj2 (Z.eqb_neq _ _)) by lia. cbn [negb].
  destruct Hsp as (S1 & S2 & S3 & S4 & S5 & S6). cbn in S1, S2, S4, S5.
  destruct (restore_spec (p_swap_size p) s1 x used p) as (x1 & p1 & Er & Hc1 & P1 & P2 & P3); try (by rewrite ?S1, ?S2; try apply Hr); try lia.
  rewrite Er. cbn [mbind option_bind]. eexists. split; [done|]. split; [|split; [cbn; lia|split; [done|]]].
  - split; try done; cbn. exists x1, p1. rewrite <- S2. done.
  - intros ok Hrel Hw Hp. destruct (Hok ok Hrel Hw Hp) as (A & B & E). split; [done|]. cbn. intros j r Hj Hl. split; [by apply (E j)|]. apply (B j r Hl). by apply (E j).
Qed.

(** * Waiting for memory *)

(** While the process waits the others leave its memory, its area of the buffer
    and its counters alone. *)
Definition others_quiet t (slot : Z) : Prop :=
  forall x w x1 w1, c_others cf x w = Some (x1, w1) ->
    phys (w_dev w1) = phys (w_dev w) ∧ reserved (w_dev w1) = reserved (w_dev w) ∧
    (forall j r, live t !! j = Some r -> mr_is_swapped r = true ->
      host_read (base + mr_swap_offset r) (mr_size r) (w_host w1) = host_read (base + mr_swap_offset r) (mr_size r) (w_host w)) ∧
    forall used p, cell (c_vnpu cf) slot x used p -> exists used1 p1, cell (c_vnpu cf) slot x1 used1 p1 ∧ same_memory p p1 ∧
      (0 <= used ∧ used + p_swap_size p < U64_MOD -> 0 <= used1 ∧ used1 + p_swap_size p < U64_MOD).

Lemma in_ready_others s C used p x w used1 p1 :
  in_ready s C used p -> slot_is s x used1 p1 -> same_memory p p1 -> 0 <= used1 -> used1 + p_swap_size p < U64_MOD ->
  phys (w_dev w) = phys (w_dev (m_world s)) -> reserved (w_dev w) = reserved (w_dev (m_world s)) ->
  (forall j r, live (m_tracker s) !! j = Some r -> mr_is_swapped r = true ->
    host_read (base + mr_swap_offset r) (mr_size r) (w_host w) = host_read (base + mr_swap_offset r) (mr_size r) (w_host (m_world s))) ->
  in_ready (set_world w (set_shm x s)) C used1 p1.
Proof.
  intros Hr Hc (M1 & M2 & M3 & M4) U0 U1 Ep Er Eh. destruct (ir_counted _ _ _ _ Hr) as (C1 & C2 & C3 & C4 & C5). split; try apply Hr.
  - cbn. destruct (ir_data _ _ _ _ Hr) as [A1 A2 A3 A4 A5 A6]. split; try done. intros j r Hj. destruct (A2 j r Hj) as (c & Hcc & Hl & Hh).
    exists c. split; [done|]. split; [done|]. destruct (mr_is_swapped r) eqn:Es; [by rewrite (Eh j)|by rewrite Ep].
  - cbn. intros j r Hj Hz. rewrite Er. by apply (ir_reserved _ _ _ _ Hr j r).
  - exists x. by split.
  - rewrite M1, M3. lia.
Qed.

Lemma wait_completed_quiet s C used p x w x1 w1 :
  in_ready s C used p -> others_quiet (m_tracker s) (m_slot s) -> m_shm s = Some x -> m_world s = w ->
  wait_completed cf x w = Some (x1, w1) ->
  exists used1 p1, in_ready (set_world w1 (set_shm x1 s)) C used1 p1 ∧ same_memory p p1.
Proof.
  intros Hr Hq Hx Hw. destruct (ir_cell _ _ _ _ Hr) as (x0 & Hx0 & Hc). assert (x0 = x) as -> by congruence.
  destruct (ir_counted _ _ _ _ Hr) as (C1 & C2 & C3 & C4 & C5). unfold wait_completed. destruct (out_completed _).
  { intros [= <- <-]. exists used, p. split; [|done]. apply (in_ready_others s C used p); try done; by rewrite Hw. }
  destruct (c_others cf x w) as [[x2 w2]|] eqn:Eo; [|done]. cbn [mbind option_bind]. destruct (out_completed _); [|done]. intros [= <- <-].
  destruct (Hq _ _ _ _ Eo) as (Q1 & Q2 & Q3 & Q4). destruct (Q4 _ _ Hc) as (used1 & p1 & Hc1 & Hm & Hu). destruct (Hu (conj C2 C5)) as [U0 U1]. exists used1, p1. split; [|done].
  apply (in_ready_others s C used p); try done; by rewrite Hw.
Qed.

(** A process that has asked for memory is as it was. *)
Lemma in_ready_request s C used p x flag :
  in_ready s C used p -> m_shm s = Some x -> in_ready (set_shm (request_swap_out cf flag x) s) C used p.
Proof.
  intros Hr Hx. destruct (ir_cell _ _ _ _ Hr) as (x0 & Hx0 & Hc). assert (x0 = x) as -> by congruence. split; try apply Hr.
  exists (request_swap_out cf flag x). split; [done|]. cbn. unfold request_swap_out. case_match; [by apply cell_cmds|done].
Qed.

Lemma swap_out_retry_quiet : forall fuel n flag s C used p rc s1,
  in_ready s C used p -> others_quiet (m_tracker s) (m_slot s) -> swap_out_retry cf fuel n flag s = Some (rc, s1) ->
  (exists used1 p1, in_ready s1 C used1 p1 ∧ same_memory p p1) ∧ m_tracker s1 = m_tracker s ∧ m_slot s1 = m_slot s ∧
  m_tracker_lock s1 = m_tracker_lock s ∧ m_swap_in_mutex s1 = m_swap_in_mutex s.
Proof.
  induction fuel as [|fuel IH]; intros n flag s C used p rc s1 Hr Hq; cbn [swap_out_retry].
  { intros [= <- <-]. by split; [exists used, p|]. }
  destruct (dev_mem_info _) as [[ret free] total]. destruct (negb (ret =? 0)); [intros [= <- <-]; by split; [exists used, p|]|].
  destruct (n <=? free); [intros [= <- <-]; by split; [exists used, p|]|]. destruct (m_shm s) as [x|] eqn:Ex; [|done]. cbn [mbind option_bind].
  destruct (wait_completed cf x (m_world s)) as [[x1 w1]|] eqn:E1; [|done]. cbn [mbind option_bind].
  destruct (wait_completed_quiet _ _ _ _ _ _ _ _ Hr Hq Ex eq_refl E1) as (u1 & p1 & Hr1 & Hm1).
  pose proof (in_ready_request _ _ _ _ x1 flag Hr1 eq_refl) as Hr2.
  destruct (wait_completed cf (request_swap_out cf flag x1) w1) as [[x2 w2]|] eqn:E2; [|done]. cbn [mbind option_bind].
  destruct (wait_completed_quiet _ _ _ _ _ _ _ _ Hr2 Hq eq_refl eq_refl E2) as (u2 & p2 & Hr3 & Hm2). intros E3.
  destruct (IH n flag (set_world w2 (set_shm x2 s)) C u2 p2 rc s1) as ((u3 & p3 & Hr4 & Hm3) & A1 & A2 & A3 & A4); try done.
  split; [|done]. exists u3, p3. split; [done|]. unfold same_memory in *. intuition congruence.
Qed.

(** The swap hook of a process that is swapped out. *)
Lemma swap_in_step s x used p :
  0 <= c_vnpu cf < 128 -> 0 <= m_slot s < 64 -> swap_enabled cf = true -> c_lock_rc cf = 0 -> m_shm s = Some x -> slot_is s x used p -> p_swapped p = true ->
  swap_hook_check_and_swap_in cf true s = if m_swap_in_mutex s then None else swap_in_locked cf (set_locks (m_tracker_lock s + 1) true s).
Proof.
  intros Hv Hi He Hl Hx Hc Hp. unfold swap_hook_check_and_swap_in. rewrite He. cbn [negb orb m_slot lock_tracker set_locks m_shm m_swap_in_mutex].
  rewrite (proj2 (Z.ltb_ge _ _)), Hx by lia. unfold shm_get_process_swapped. rewrite (vnpu_in_die _ Hv), (slot_fits _ Hi). cbn [negb orb].
  rewrite (ce_process _ _ _ _ _ Hc). cbn [mbind option_bind]. by rewrite Hp, Hl.
Qed.

(** With enough memory on the device everything is brought back at once. *)
Lemma swap_in_enough s C used p free total :
  in_ready s C used p -> p_swapped p = true -> swap_enabled cf = true -> c_lock_rc cf = 0 -> m_swap_in_mutex s = false ->
  dev_mem_info (w_dev (m_world s)) = (0, free, total) -> p_swap_size p <= free ->
  exists s1, swap_hook_check_and_swap_in cf true s = Some (ENPU_SUCCESS, s1) ∧ in_done s s1 C used p ∧
    m_tracker_lock s1 = m_tracker_lock s ∧ m_swap_in_mutex s1 = false ∧
    forall ok, reliable ok -> ok (w_dev (m_world s)) -> all_mapped (m_tracker s) (m_world s) -> ok (w_dev (m_world s1)) ∧ resident_from (m_tracker s1) (m_world s1) 0.
Proof.
  intros Hr Hp He Hl Hm Hf Hn. destruct (ir_cell _ _ _ _ Hr) as (x & Hx & Hc). rewrite (swap_in_step s x used p), Hm; try done; try apply Hr.
  unfold swap_in_locked. cbn [m_shm set_locks m_slot]. rewrite Hx. cbn [mbind option_bind]. rewrite (ce_process _ _ _ _ _ Hc). cbn [mbind option_bind].
  unfold check_and_swap_out, SWAP_OUT_MAX_RETRY. cbn [swap_out_retry m_world set_locks]. rewrite Hf. cbn [negb Z.eqb]. rewrite (proj2 (Z.leb_le _ _) Hn). cbn [mbind option_bind].
  set (s0 := set_locks _ true s). assert (Hr0 : in_ready s0 C used p) by (destruct Hr; by split).
  destruct (swap_in_all_spec _ _ _ _ Hr0) as (s1 & E & Hd & L1 & L2 & Hok). exists s1. split; [exact E|]. split; [destruct Hd; by split|].
  split; [rewrite L1; cbn; lia|done].
Qed.

Lemma swapped_every l : (forall j r, l !! j = Some r -> mr_is_swapped r = true) -> swapped_bytes l = all_bytes l.
Proof.
  induction l as [|r l IH]; intros Hl; [done|]. cbn. rewrite (Hl 0%nat r eq_refl), IH; [done|]. intros j x Hj. by apply (Hl (S j) x).
Qed.

(** On every branch of the swap hook the contents are kept. *)
Lemma swap_in_keeps_data s C used p hook rc s1 :
  in_ready s C used p -> others_quiet (m_tracker s) (m_slot s) -> swap_hook_check_and_swap_in cf hook s = Some (rc, s1) ->
  data_inv base (m_tracker s1) (m_world s1) C ∧ same_tracker (m_tracker s) (m_tracker s1).
Proof.
  intros Hr Hq. pose proof (ir_data _ _ _ _ Hr) as HI. pose proof (same_tracker_refl (m_tracker s)) as Hst. unfold swap_hook_check_and_swap_in.
  destruct (negb hook || _); [by intros [= _ <-]|]. destruct (_ <? 0); [by intros [= _ <-]|].
  destruct (match m_shm _ with None => _ | Some _ => _ end) as [b|]; [|done]. cbn [mbind option_bind].
  destruct (negb b); [by intros [= _ <-]|]. destruct (m_swap_in_mutex _); [done|]. destruct (negb _); [by intros [= _ <-]|].
  set (s0 := set_locks _ true _). assert (Hr0 : in_ready s0 C used p) by (destruct Hr; by split). unfold swap_in_locked.
  destruct (m_shm s0) as [x|]; [|done]. cbn [mbind option_bind]. destruct (process_at x _ _) as [p0|]; [|done]. cbn [mbind option_bind].
  destruct (check_and_swap_out cf _ _ s0) as [[ret s2]|] eqn:Ec; [|done]. cbn [mbind option_bind].
  destruct (swap_out_retry_quiet _ _ _ _ _ _ _ _ _ Hr0 Hq Ec) as ((u2 & p2 & Hr2 & _) & Et & _).
  destruct (negb (ret =? ENPU_SUCCESS)). { intros [= _ <-]. split; [apply Hr2|by rewrite Et]. }
  destruct (swap_in_all_spec _ _ _ _ Hr2) as (s3 & -> & Hd & _). intros [= _ <-]. split; [apply Hd|]. pose proof (id_tracker _ _ _ _ _ Hd) as Hst3. by rewrite Et in Hst3.
Qed.

Lemma out_done_ready s s1 C x used p x1 p1 n :
  out_ready s C x used p -> out_done s s1 C used p n -> m_shm s1 = Some x1 -> slot_is s x1 (used - n) p1 -> p_hbm_used p1 = p_hbm_used p - n ->
  0 < n -> p_swap_size p1 = n -> in_ready s1 C (used - n) p1.
Proof.
  intros Hr Hd Hx Hc Hu Hn Hs. pose proof (or_counted _ _ _ _ _ Hr) as K1. pose proof (or_counted_vnpu _ _ _ _ _ Hr) as K2.
  pose proof (swapped_bytes_bounds _ _ _ (od_data _ _ _ _ _ _ Hd)) as Hb. rewrite <- (od_bytes _ _ _ _ _ _ Hd), (all_bytes_same _ _ (st_live _ _ (od_tracker _ _ _ _ _ _ Hd))) in Hb.
  split; try apply Hr; try apply Hd.
  - rewrite (od_slot _ _ _ _ _ _ Hd). apply Hr.
  - intros j r Hj. destruct (same_lookup _ _ _ _ (od_tracker _ _ _ _ _ _ Hd) Hj) as (y & Hy & Hxy). eapply restorable_same; [apply Hd|done|by eapply (or_restorable _ _ _ _ _ Hr)].
  - exists x1. by rewrite (od_slot _ _ _ _ _ _ Hd).
  - lia.
Qed.

End swap.
