(* ===== verification/SwapThms.v ===== *)
(** A process of the simulated device: a plain allocation of 4 bytes and a
    physical one of 8 bytes, mapped, in the slot 0 of the vNPU 3, and an
    allocation of another process. *)

From S2P Require Import Prelude CLib SwapTlsf ShmManager ShmFacts RtShm HashMap MemoryTracker MemoryTrackerThms RtDevice SwapExec SwapExecFacts SwapCycle.

#[local] Existing Instance SimDevice.
#[local] Existing Instance SimLaws.

(** * The tracker *)

Definition ex_tracker_made : option (memory_tracker unit) :=
  t ← memory_tracker_create true tracker_env_fine 8;
  '(_, t1) ← memory_tracker_add true tracker_env_fine 5 t 100 4 1 false;
  '(_, t2) ← memory_tracker_add true tracker_env_fine 6 t1 2 8 2 true;
  let t3 := (memory_tracker_add_handle_record true t2 2 8 () 0).2 in
  Some (memory_tracker_add_map_record true t3 200 8 0 2 0).2.

Definition ex_tracker : memory_tracker unit := default (mk_tracker (mk_hashmap [] 0 0) 0 [] 0 0 [] []) ex_tracker_made.

Lemma ex_tracker_inv : tracker_inv ex_tracker.
Proof.
  unfold ex_tracker, ex_tracker_made.
  assert (He : env_serves tracker_env_fine 4096) by (constructor; (lia || reflexivity || (split; reflexivity))).
  destruct (create_inv (P := unit) tracker_env_fine 4096 8 He) as (t & E & Hinv & Hcap & Hcnt); [vm_compute; split; discriminate || reflexivity|].
  rewrite E. cbn [mbind option_bind]. assert (Hn : tracked t !! 100 = None) by (vm_compute in E; injection E as <-; reflexivity).
  destruct (add_spec tracker_env_fine 4096 5 t 100 4 1 false Hinv) as [Hadd _]; [rewrite Hcap, Hcnt; vm_compute; split; discriminate || reflexivity|done..|].
  destruct (Hadd He) as (t1 & E1 & Hinv1 & _ & Htr1). rewrite E1. cbn [mbind option_bind].
  assert (Hc1 : t_capacity t1 = 8 ∧ t_count t1 = 1) by (vm_compute in E; injection E as <-; vm_compute in E1; by injection E1 as <-). destruct Hc1 as [Hc1 Hc1'].
  destruct (add_spec tracker_env_fine 4096 6 t1 2 8 2 true Hinv1) as [Hadd2 _]; [rewrite Hc1, Hc1'; vm_compute; split; discriminate || reflexivity|done..| |].
  { rewrite Htr1. rewrite lookup_insert_ne by done. vm_compute in E. injection E as <-. reflexivity. }
  destruct (Hadd2 He) as (t2 & -> & [A1 A2 A3 A4 A5 A6] & _). cbn. by split.
Qed.

Lemma ex_live : live ex_tracker = [mk_record 100 4 1 false false 0 5; mk_record 2 8 2 false true 0 6].
Proof. vm_compute. reflexivity. Qed.

(** * The device, the die and the process *)

Definition ex_plain : list Z := [1; 2; 3; 4].
Definition ex_physical : list Z := [11; 12; 13; 14; 15; 16; 17; 18].

Definition ex_device (extra : list Z) (fails : list bool) : sim :=
  Sim {[1 := ex_plain; 2 := ex_physical; 3 := extra]} {[100 := (1, 0, 4); 200 := (2, 0, 8)]} {[100; 200]} 200 fails [].

Definition ex_contents : gmap Z (list Z) := {[100 := ex_plain; 2 := ex_physical]}.

(** The swap-out command [seq] for the vNPU. *)
Definition ex_command (seq : Z) (x : shm_state) : shm_state :=
  set_st_cmds (mk_swap_cmd EmptyString 3 SWAP_ACTION_OUT false 1 seq 0) (st_swap_out_cmd x) x.

Definition ex_slot : process_entry := mk_process 1 42 false true 0 12 16 12 1.
Definition ex_vnpu : vnpu_shm_entry := mk_entry 3 100 200 20 0 true 0 (ex_slot :: replicate 63 process0).
Definition ex_die : shm_state :=
  mk_shm_state SHM_STATE_VERSION 0 "die" 104857670 (<[3%nat := ex_vnpu]> (replicate 128 entry0)) (8, 0) 0 true swap_cmd0 swap_out_cmd0 2.

(** The requests for memory of the process are answered, with no memory. *)
Definition ex_others (x : shm_state) (w : world sim) : option (shm_state * world sim) :=
  Some (set_st_cmds (st_swap_cmd x) (set_out_completed true (st_swap_out_cmd x)) x, w).

Definition ex_cfg : rt_cfg sim :=
  RtCfg 3 100 200 1000 true tracker_env_fine (fun _ => true) true true 7 ex_others 0.

Definition ex_proc (extra : list Z) (fails : list bool) : rt_mem sim unit :=
  RtMem (World (ex_device extra fails) ∅) ex_tracker 0 0 (Some (ex_command 1 ex_die)) 0 0 0 false.

(** * The process can be asked for its memory *)


Lemma ex_live_cases j r : live ex_tracker !! j = Some r ->
  j = 0%nat ∧ r = mk_record 100 4 1 false false 0 5 ∨ j = 1%nat ∧ r = mk_record 2 8 2 false true 0 6.
Proof. rewrite ex_live. destruct j as [|[|j]]; cbn; intros Hj; simplify_eq; [by left|by right]. Qed.

Lemma ex_data extra fails : data_inv 1000 ex_tracker (m_world (ex_proc extra fails)) ex_contents.
Proof.
  split.
  - apply ex_tracker_inv.
  - intros j r Hj. apply ex_live_cases in Hj as [[_ ->]|[_ ->]]; eexists; (split; [vm_compute; reflexivity|]); split; reflexivity.
  - intros i j r1 r2 Hi Hj Hne _ _. apply ex_live_cases in Hi as [[-> ->]|[-> ->]]; apply ex_live_cases in Hj as [[-> ->]|[-> ->]]; done.
  - intros i j r1 r2 Hi _ _ Hs _. by apply ex_live_cases in Hi as [[_ ->]|[_ ->]].
  - intros i r Hi Hs. by apply ex_live_cases in Hi as [[_ ->]|[_ ->]].
  - intros i j r1 r2 Hi Hj Hne _.
    apply ex_live_cases in Hi as [[-> ->]|[-> ->]]; apply ex_live_cases in Hj as [[-> ->]|[-> ->]]; (congruence || (vm_compute; discriminate)).
Qed.

Lemma ex_resident extra fails : resident_from ex_tracker (m_world (ex_proc extra fails)) 0.
Proof.
  intros j r _ Hj. apply ex_live_cases in Hj as [[_ ->]|[_ ->]]; (split; [done|]); intros _.
  - change (va_of ex_tracker _) with 100. split; [reflexivity|]. cbn. set_solver.
  - change (va_of ex_tracker _) with 200. split; [reflexivity|]. cbn. set_solver.
Qed.

Lemma ex_cell seq : cell 3 0 (ex_command seq ex_die) 20 ex_slot.
Proof.
  split; [|reflexivity|by eexists|reflexivity]. split; [reflexivity| |done|done]. cbn [st_entries ex_command set_st_cmds ex_die].
  apply Forall_insert; [apply Forall_replicate|]; reflexivity.
Qed.

Lemma ex_restorable j r : live ex_tracker !! j = Some r -> restorable ex_tracker r.
Proof.
  intros Hj. apply ex_live_cases in Hj as [[_ ->]|[_ ->]]; (split; [discriminate|]); cbn [mr_is_physical]; [split; reflexivity|].
  split; [|intros _; exists 0; reflexivity]. intros x Hx. vm_compute in Hx. injection Hx as <-. reflexivity.
Qed.

Lemma ex_proc_ready extra fails : out_ready ex_cfg (ex_proc extra fails) ex_contents (ex_command 1 ex_die) 20 ex_slot.
Proof.
  split; [| |exact (ex_data extra fails)|exact (ex_resident extra fails)|exact ex_restorable|reflexivity|exact (ex_cell 1)|reflexivity..| | | | |];
    cbn [c_vnpu c_base ex_cfg m_slot m_tracker m_seen_seq ex_proc]; rewrite ?ex_live; vm_compute; split_and?; discriminate || reflexivity.
Qed.

(** No call of the driver fails. *)
Lemma sim_reliable : reliable (fun d : sim => sim_fails d = []).
Proof.
  split; intros; cbn; unfold drop_value, sim_step; cbn; try done;
    match goal with H : sim_fails _ = [] |- _ => rewrite ?H end; cbn; try done; split; try done.
  unfold sim_write. repeat case_match; cbn; rewrite ?H; done.
Qed.

Lemma ex_quiet t slot : others_quiet ex_cfg t slot.
Proof.
  intros x w x1 w1 [= <- <-]. split_and!; try done. intros used p Hc. exists used, p. split; [by apply cell_cmds|]. by split.
Qed.

(** After the command. *)
Definition ex_swapped (extra : list Z) (fails : list bool) : rt_mem sim unit :=
  default (ex_proc extra fails) (swap_monitor_round ex_cfg (ex_proc extra fails)).

Definition ex_slot_swapped : process_entry := mk_process 1 42 true true 0 0 16 12 0.

Lemma ex_swapped_ready extra : in_ready ex_cfg (ex_swapped extra []) ex_contents 8 ex_slot_swapped.
Proof.
  destruct (monitor_round_spec _ _ _ _ _ _ (ex_proc_ready extra [])) as (s1 & E & Hd & _). unfold ex_swapped. rewrite E. cbn [default].
  destruct (od_shm _ _ _ _ _ _ _ Hd) as (x1 & p1 & Ex & Hc & _).
  assert (Hn : swapped_bytes (live (m_tracker s1)) = 12) by (vm_compute in E; injection E as <-; reflexivity).
  assert (Hp : p1 = ex_slot_swapped).
  { pose proof (ce_process _ _ _ _ _ Hc) as Hp. clear -E Ex Hp. vm_compute in E. injection E as <-. cbn in Ex. injection Ex as <-. vm_compute in Hp. by injection Hp. }
  rewrite Hn in *. subst p1. change (id s1) with s1. change 8 with (20 - 12). eapply (out_done_ready _ _ s1 _ _ _ _ x1 _ 12); [apply (ex_proc_ready extra [])|exact Hd|exact Ex|exact Hc|reflexivity..].
Qed.

(** Swapping a process out and in keeps the contents of its allocations as long
    as every allocation comes back before the next command, and what happens
    when one does not. *)



(** C40. A swap-in that cannot get the memory it needs blocks the die.  It
    returns its error with the lock of the tracker and the lock of the swap-ins
    of the die held, although the process is still swapped out, so that the next
    function that needs the memory does not return. *)
Theorem failed_swap_in_blocks {D P} `{DeviceLaws D P} (cf : rt_cfg D) (s : rt_mem D P) C used p rc s1 :
  in_ready cf s C used p -> others_quiet cf (m_tracker s) (m_slot s) -> p_swapped p = true -> swap_enabled cf = true ->
  m_swap_in_mutex s = false -> c_lock_rc cf = 0 ->
  swap_hook_check_and_swap_in cf true s = Some (rc, s1) -> rc <> ENPU_SUCCESS ->
  m_tracker_lock s1 = m_tracker_lock s + 1 ∧ m_swap_in_mutex s1 = true ∧ swap_hook_check_and_swap_in cf true s1 = None.
Proof.
  intros Hr Hq Hp He Hm Hl. destruct (ir_cell _ _ _ _ _ Hr) as (x & Hx & Hc). pose proof (ir_slot _ _ _ _ _ Hr) as Hi. pose proof (ir_vnpu _ _ _ _ _ Hr) as Hv.
  rewrite (swap_in_step cf s x used p Hv Hi He Hl Hx Hc Hp), Hm. set (s0 := set_locks _ true _). assert (Hr0 : in_ready cf s0 C used p) by (destruct Hr; by split).
  unfold swap_in_locked. destruct (m_shm s0) as [x0|]; [|done]. cbn [mbind option_bind]. destruct (process_at x0 _ _) as [p0|]; [|done]. cbn [mbind option_bind].
  destruct (check_and_swap_out cf _ _ s0) as [[ret s2]|] eqn:Ec; [|done]. cbn [mbind option_bind].
  destruct (swap_out_retry_quiet cf _ _ _ _ _ _ _ _ _ Hr0 Hq Ec) as ((u2 & p2 & Hr2 & (_ & M2 & _)) & _ & Es & El & Em).
  destruct (negb (ret =? ENPU_SUCCESS)); [|destruct (swap_in_all_spec _ _ _ _ _ Hr2) as (s3 & -> & _); congruence]. intros [= <- <-] _.
  split; [done|]. split; [done|]. destruct (ir_cell _ _ _ _ _ Hr2) as (x2 & Hx2 & Hc2).
  rewrite (swap_in_step cf s2 x2 u2 p2 Hv); [by rewrite Em|apply Hr2|done|done|done|done|congruence].
Qed.

(** The rest of the device is taken, and the other processes give nothing up. *)
Lemma failed_swap_in_blocks_witness :
  exists s1, swap_hook_check_and_swap_in (H := SimDevice) ex_cfg true (ex_swapped (replicate 990 0) []) = Some (RT_FAIL, s1) ∧
    swap_hook_check_and_swap_in (H := SimDevice) ex_cfg true s1 = None.
Proof.
  destruct (swap_hook_check_and_swap_in (H := SimDevice) ex_cfg true (ex_swapped (replicate 990 0) [])) as [[rc s1]|] eqn:E; [|vm_compute in E; discriminate].
  assert (rc = RT_FAIL) as -> by (vm_compute in E; injection E as <- _; reflexivity). exists s1. split; [reflexivity|].
  apply (failed_swap_in_blocks (H0 := SimLaws) ex_cfg (ex_swapped (replicate 990 0) []) ex_contents 8 ex_slot_swapped RT_FAIL s1 (ex_swapped_ready _) (ex_quiet _ _) eq_refl eq_refl eq_refl eq_refl E).
  discriminate.
Defined.

(** * A partial swap-in *)

(** The next command for the vNPU, with the ack of the process pending. *)
Definition ex_next_command (s : rt_mem sim unit) : rt_mem sim unit :=
  match m_shm s with
  | Some x => match process_at x 3 0 with Some p => set_shm (ex_command 2 (put_process 3 0 (set_p_ack 2 p) x)) s | None => s end
  | None => s
  end.

