(* ===== verification/MemHooksThms.v ===== *)
(** The memory hooks: calls of a process that has been swapped out, the limit,
    and the free memory that a program is told. *)

From S2P Require Import Prelude CLib SwapTlsf ShmManager ShmFacts RtShm HashMap MemoryTracker MemoryTrackerThms RtDevice SwapExec SwapExecFacts SwapCycle SwapThms MemHooks.

Section hooks.
Context {D P : Type} `{DeviceLaws D P} (cf : rt_cfg D) (he : hook_env).
Implicit Types s : rt_mem D P.

(** * The table *)

(** Every entry is the hook of its name. *)
Definition entry_ok (e : string * nat * (list Z -> mem_hook (D := D) (P := P))) : Prop :=
  forall args, length args = e.1.2 -> e.2 args = touch_hook cf he e.1.1 args.

Ltac args_of l := repeat (destruct l as [|? l]; try done).

Lemma touch_table_ok : Forall entry_ok (touch_table cf he).
Proof. unfold touch_table. repeat apply List.Forall_cons; [..|apply List.Forall_nil]; intros l Hl; cbn in Hl; args_of l. Qed.

(** * The limiter *)

Lemma guard_over_limit n s used :
  get_mem_used s = (0, used) -> c_limit cf < n + used -> exists rc, guard_memory cf he n s = Some (rc, s) ∧ rc <> 0.
Proof.
  intros Hu Hn. destruct law_codes as (K1 & K2 & _). unfold guard_memory. destruct (h_lock_ok he); [|by eexists]. cbn [negb].
  assert (Hf : (if swap_enabled cf then memory_check_elastic cf n s else Some (memory_check cf n s, s)) = Some (false, s)); [|rewrite Hf; by eexists].
  unfold memory_check_elastic, memory_check. rewrite Hu. cbn [Z.eqb negb]. rewrite (proj2 (Z.ltb_lt _ _) Hn). by destruct (add_overflow n used), (swap_enabled cf).
Qed.

Lemma guarded_over_limit impl name args n s used :
  (impl = true -> h_impl he = true) -> get_mem_used s = (0, used) -> c_limit cf < n + used ->
  exists rc, guarded_hook cf he impl name args n s = Some (rc, s) ∧ rc <> 0.
Proof.
  intros Hi Hu Hn. unfold guarded_hook. destruct (guard_over_limit n s used Hu Hn) as (rc & -> & Hrc).
  assert (impl && negb (h_impl he) = false) as -> by (destruct impl; [by rewrite Hi|done]). cbn [mbind option_bind].
  unfold ENPU_SUCCESS. rewrite (proj2 (Z.eqb_neq _ _) Hrc). by exists rc.
Qed.

(** The memory that the elastic limiter may hand out. *)
Definition elastic_free (s : rt_mem D P) (used : Z) : Z :=
  Z.min (c_limit cf - used) (Z.max 0 (c_request cf - used) + get_mem_dynamic_free s).

Lemma dynamic_free_nonneg s : 0 <= get_mem_dynamic_free s.
Proof. unfold get_mem_dynamic_free, shm_get_dynamic_free. destruct (m_shm s); [|done]. repeat case_match; try done; apply u64_range. Qed.

Lemma elastic_exact n s used free total :
  get_mem_used s = (0, used) -> 0 <= used <= c_limit cf -> 0 <= n -> c_limit cf < U64_MOD -> 0 < c_request cf <= c_limit cf ->
  dev_mem_info (w_dev (m_world s)) = (0, free, total) -> n <= free ->
  memory_check_elastic cf n s = Some (n <=? elastic_free s used, s).
Proof.
  intros Hu Hul Hn Hl Hr Hf Hnf. pose proof (dynamic_free_nonneg s) as Hd. unfold memory_check_elastic. rewrite Hu. cbn [Z.eqb negb]. unfold elastic_free, add_overflow.
  destruct (Z.leb_spec U64_MOD (n + used)); [f_equal; f_equal; symmetry; apply Z.leb_gt; lia|]. cbv zeta.
  destruct (Z.ltb_spec (c_limit cf) (n + used)); [f_equal; f_equal; symmetry; apply Z.leb_gt; lia|].
  rewrite (proj2 (Z.eqb_neq (c_request cf) 0)) by lia. cbn [orb]. destruct (Z.leb_spec (n + used) (c_request cf)).
  - unfold check_and_swap_out, SWAP_OUT_MAX_RETRY. cbn [swap_out_retry]. rewrite Hf. cbn [Z.eqb negb]. rewrite (proj2 (Z.leb_le n free) Hnf). cbn [mbind option_bind].
    f_equal. f_equal. symmetry. apply Z.leb_le. lia.
  - rewrite (u64_small (n + used - c_request cf)) by (unfold is_u64; lia). f_equal. f_equal. apply eq_true_iff_eq. rewrite !Z.leb_le.
    destruct (Z.ltb_spec (c_request cf) used); lia.
Qed.

Lemma mem_info_elastic s used x fp tp :
  h_log he = ENPU_SUCCESS -> h_init he = true -> fp <> 0 -> tp <> 0 -> m_shm s = Some x -> swap_enabled cf = true ->
  get_mem_used s = (0, used) -> 0 <= used <= c_limit cf -> 0 < c_request cf <= c_limit cf ->
  c_request cf + get_mem_dynamic_free s < U64_MOD ->
  rtMemGetInfoEx cf he fp tp s = (0, Some (elastic_free s used, c_limit cf)).
Proof.
  intros Hlog Hinit Hfp Htp Hx He Hu Hul Hr Hd. pose proof (dynamic_free_nonneg s) as Hd0. unfold rtMemGetInfoEx, mem_info. rewrite Hlog, Hinit, Hu.
  change (negb (ENPU_SUCCESS =? ENPU_SUCCESS)) with false. cbn [negb Z.eqb]. rewrite (proj2 (Z.eqb_neq fp 0)), (proj2 (Z.eqb_neq tp 0)) by done. cbn [orb].
  rewrite (proj2 (Z.ltb_ge _ _)) by lia. rewrite bool_decide_eq_true_2 by (by rewrite Hx). unfold swap_enabled in He. apply negb_true_iff in He.
  rewrite Z.eqb_sym, He. cbn [negb orb]. unfold elastic_free. f_equal. f_equal. f_equal.
  destruct (Z.ltb_spec used (c_request cf)).
  - rewrite u64_small by (unfold is_u64; lia). destruct (Z.ltb_spec (c_request cf - used + get_mem_dynamic_free s) (c_limit cf - used)); case_match; lia.
  - case_match; lia.
Qed.

End hooks.

(** C25. What a program is told to be free is what it can allocate.  For a
    process that may use more than it has requested, [rtMemGetInfoEx] reports
    the smaller of the limit's rest and of the unused part of the request with
    what nobody has requested; the limiter then lets an allocation pass exactly
    when its size is at most that, and changes nothing, as long as the device
    has the memory at hand. *)
Theorem mem_info_exact {D P} `{DeviceLaws D P} (cf : rt_cfg D) (he : hook_env) (s : rt_mem D P) used x fp tp n avail total :
  h_log he = ENPU_SUCCESS -> h_init he = true -> h_lock_ok he = true -> fp <> 0 -> tp <> 0 -> m_shm s = Some x -> swap_enabled cf = true ->
  get_mem_used s = (0, used) -> 0 <= used <= c_limit cf -> c_limit cf < U64_MOD -> 0 < c_request cf <= c_limit cf ->
  c_request cf + get_mem_dynamic_free s < U64_MOD ->
  dev_mem_info (w_dev (m_world s)) = (0, avail, total) -> 0 <= n <= avail ->
  exists free, rtMemGetInfoEx cf he fp tp s = (0, Some (free, c_limit cf)) ∧
    free = Z.min (c_limit cf - used) (Z.max 0 (c_request cf - used) + get_mem_dynamic_free s) ∧
    guard_memory cf he n s = Some (if n <=? free then ENPU_SUCCESS else ACL_ERROR_STORAGE_OVER_LIMIT, s).
Proof.
  intros Hlog Hinit Hlock Hfp Htp Hx He Hu Hul Hl Hr Hd Ha Hn. exists (elastic_free cf s used). split; [by eapply mem_info_elastic|]. split; [done|].
  unfold guard_memory. rewrite Hlock, He. cbn [negb]. rewrite (elastic_exact cf n s used avail total) by (done || lia). done.
Qed.

Definition ex_hook_env (hook : bool) : hook_env := HookEnv 0 true true hook true.

(** 42 of the 100 requested bytes are in use and 70 are left on the die: 128 can
    be had, 129 are refused. *)
Lemma mem_info_exact_witness :
  rtMemGetInfoEx (H := SimDevice) ex_cfg (ex_hook_env true) 1 1 (ex_proc (replicate 30 0) []) = (0, Some (128, 200)) ∧
  guard_memory (H := SimDevice) ex_cfg (ex_hook_env true) 128 (ex_proc (replicate 30 0) []) = Some (ENPU_SUCCESS, ex_proc (replicate 30 0) []) ∧
  guard_memory (H := SimDevice) ex_cfg (ex_hook_env true) 129 (ex_proc (replicate 30 0) []) = Some (200001, ex_proc (replicate 30 0) []).
Proof.
  pose proof (fun n => mem_info_exact (H0 := SimLaws) ex_cfg (ex_hook_env true) (ex_proc (replicate 30 0) []) 42 (ex_command 1 ex_die) 1 1 n 958 1000) as Hm.
  destruct (Hm 128) as (free & E1 & E2 & E3); [vm_compute; split_and?; first [reflexivity|discriminate]..|].
  destruct (Hm 129) as (free' & F1 & F2 & F3); [vm_compute; split_and?; first [reflexivity|discriminate]..|].
  assert (free = 128) as -> by (rewrite E2; vm_compute; reflexivity). assert (free' = 128) as -> by (rewrite F2; vm_compute; reflexivity).
  split; [exact E1|]. split; [exact E3|exact F3].
Defined.





(** Without a swap hook, which a failed initialisation leaves, [rtMalloc] is
    still forwarded to the driver, but no memory can be given back or mapped any
    more: the four functions return an error and the driver is not reached. *)
Theorem degraded_hooks_refuse {D P} `{Device D P} (cf : rt_cfg D) (he : hook_env) (s : rt_mem D P) x a n b c d e s1 :
  h_log he = ENPU_SUCCESS -> h_init he = true -> h_hook he = false -> m_shm s = Some x -> guard_memory cf he n s = Some (ENPU_SUCCESS, s1) ->
  rtMalloc cf he a n b c s = ('(rc, s2) ← on_device (dev_call "rtMalloc" [a; n; b; c]) s1; Some (rc, 0, s2)) ∧
  rtFree cf he a s = Some (RT_FAIL, s) ∧ rtFreePhysical cf he a s = Some (RT_FAIL, s) ∧
  rtMapMem cf he a n d b e s = Some (RT_FAIL, s) ∧ rtUnmapMem cf he a s = Some (RT_FAIL, s).
Proof.
  intros Hl Hi Hh Hx Hg. split; [unfold rtMalloc; by rewrite Hg, Hh|].
  unfold rtFree, rtFreePhysical, rtMapMem, rtUnmapMem, initialised, after_swap_in, swap_hook_check_and_swap_in, swap_hook_free_mem, swap_hook_free_physical_mem, swap_hook_map_mem, swap_hook_unmap_mem.
  rewrite Hl, Hi, Hh, Hx. split_and!; reflexivity.
Qed.
