(* ===== verification/McsMem.v ===== *)
(** The memory quota of the library mcs: the table of the live allocations and
    the hooks on the memory functions (mcs/common/memory.c), the test of a
    request (mcs/common/mem_limiter.c) and the counter of the process
    (mcs/src/mcs_mem.c).

    The driver is the class [McsRuntime]: the functions that [dlsym] finds under
    a name, on a device of type [D].  Its documented behaviour is the class
    [McsRuntimeLaws], with the allocations that are live on the device. *)

From S2P Require Import Prelude CLib.

(** * The table of the live allocations *)

Definition MEM_TRACK_SLOTS : Z := 65536.
Definition MEM_TRACK_MASK : Z := MEM_TRACK_SLOTS - 1.
Definition SIZE_MAX : Z := UINT64_MAX.

Record mem_track_slot := Slot { sl_key : Z; sl_size : Z }.

Definition empty_slot : mem_track_slot := Slot 0 0.

(** [g_mem_track]: the slots that have been written; the others are zero. *)
Notation mem_table := (gmap Z mem_track_slot).

Definition slot_at (t : mem_table) (i : Z) : mem_track_slot := default empty_slot (t !! i).

Definition uint32 (x : Z) : Z := x mod 2 ^ 32.

Definition mem_track_hash (key : Z) : Z := Z.land (uint32 (u64 (Z.shiftr key 4 * 2654435761))) MEM_TRACK_MASK.

(** The loop of the insertion and of the removal: the index of the first slot
    that is empty or holds [key], from [probe] on, within [n] rounds. *)
Fixpoint mem_track_probe (t : mem_table) (key idx probe : Z) (n : nat) : option Z :=
  match n with
  | O => None
  | S n =>
    let i := Z.land (uint32 (idx + probe)) MEM_TRACK_MASK in
    if (sl_key (slot_at t i) =? 0) || (sl_key (slot_at t i) =? key) then Some i
    else mem_track_probe t key idx (probe + 1) n
  end.

Definition mem_track_find (t : mem_table) (key : Z) : option Z :=
  mem_track_probe t key (mem_track_hash key) 0 (Z.to_nat MEM_TRACK_SLOTS).

Definition mem_track_insert (key size : Z) (t : mem_table) : Z * mem_table :=
  match mem_track_find t key with
  | None => (SIZE_MAX, t)
  | Some i =>
    let slot := slot_at t i in
    if sl_key slot =? 0 then (size, <[i := Slot key size]> t)
    else ((if sl_size slot <? size then size - sl_size slot else 0), <[i := Slot (sl_key slot) size]> t)
  end.

Definition mem_track_erase (key : Z) (t : mem_table) : Z * mem_table :=
  match mem_track_find t key with
  | None => (0, t)
  | Some i =>
    let slot := slot_at t i in
    if sl_key slot =? 0 then (0, t) else (sl_size slot, <[i := empty_slot]> t)
  end.

(** * The counter and the test *)

Definition MCS_MB_TO_B : Z := 1024 * 1024.
Definition ACL_ERROR_STORAGE_OVER_LIMIT : Z := 500006.

(** [g_mem_hooks_active], [g_mem_track], [g_mem_used_local], the quota of the
    configuration in MB, and the flag [in_guard] of the calling thread. *)
Record mcs_mem := mk_mcs_mem {
  mm_active : bool;
  mm_track : mem_table;
  mm_used : Z;
  mm_quota : Z;
  mm_in_guard : bool;
}.

Definition set_mm_track (t : mem_table) (s : mcs_mem) : mcs_mem := mk_mcs_mem (mm_active s) t (mm_used s) (mm_quota s) (mm_in_guard s).
Definition set_mm_used (u : Z) (s : mcs_mem) : mcs_mem := mk_mcs_mem (mm_active s) (mm_track s) u (mm_quota s) (mm_in_guard s).
Definition set_in_guard (b : bool) (s : mcs_mem) : mcs_mem := mk_mcs_mem (mm_active s) (mm_track s) (mm_used s) (mm_quota s) b.

Definition activate_mem_hooks (s : mcs_mem) : mcs_mem := mk_mcs_mem true (mm_track s) (mm_used s) (mm_quota s) (mm_in_guard s).

Definition get_mem_limit_quota (s : mcs_mem) : Z := u64 (u64 (mm_quota s) * MCS_MB_TO_B).

(** The code and [*used]; the callers pass the address of a variable. *)
Definition mcs_get_mem_used (s : mcs_mem) : Z * Z := (0, mm_used s).

Definition on_mem_alloc (size : Z) (s : mcs_mem) : mcs_mem := set_mm_used (u64 (mm_used s + size)) s.

Definition on_mem_free (size : Z) (s : mcs_mem) : mcs_mem :=
  if mm_used s <? size then set_mm_used 0 s else set_mm_used (mm_used s - size) s.

Definition mcs_memory_check (requested : Z) (s : mcs_mem) : bool :=
  let '(ret, used) := mcs_get_mem_used s in
  if negb (ret =? 0) then false
  else
    let quota := get_mem_limit_quota s in
    let total := u64 (requested + used) in
    if U64_MOD <=? requested + used then false else if quota <? total then false else true.

Definition mcs_guard_memory (requested : Z) (s : mcs_mem) : Z * mcs_mem :=
  if mm_in_guard s then ((if mcs_memory_check requested s then 0 else ACL_ERROR_STORAGE_OVER_LIMIT), s)
  else
    let s1 := set_in_guard true s in
    if negb (mcs_memory_check requested s1) then (ACL_ERROR_STORAGE_OVER_LIMIT, set_in_guard false s1)
    else (0, set_in_guard false s1).

(** * The hooks *)

(** What [dlsym(RTLD_NEXT, name)] finds.  An allocation gets whether the
    pointer for the result is not NULL, the size and the other arguments, and
    gives the code and the pointer or the handle it has written.  A query of
    the memory gives the code and the free and the total size it has written. *)
Class McsRuntime (D : Type) := {
  dlsym_alloc : string -> option (D -> bool -> Z -> list Z -> Z * Z * D);
  dlsym_free : string -> option (D -> Z -> Z * D);
  dlsym_info : string -> option (D -> Z -> Z * option (Z * Z) * D);
}.

Section hooks.
Context {D : Type} `{McsRuntime D}.

(** The key of an allocation: a pointer that is not NULL, or a handle (a 32-bit
    integer) that is shifted and marked with bit 0. *)
Definition pointer_key (p : Z) : option Z := if p =? 0 then None else Some p.
Definition handle_key (h : Z) : Z := Z.lor (u64 (Z.shiftl (uint32 h) 1)) 1.

(** The common body of the hooks that allocate. *)
Definition mcs_alloc (name : string) (key_of : Z -> option Z) (out : bool) (size : Z) (args : list Z) (s : mcs_mem) (d : D) : Z * mcs_mem * D :=
  if negb (mm_active s) then
    match dlsym_alloc name with None => (-1, s, d) | Some real => let '(ret, _, d1) := real d out size args in (ret, s, d1) end
  else
    let '(ret, s1) := mcs_guard_memory size s in
    if negb (ret =? 0) then (ret, s1, d)
    else
      match dlsym_alloc name with
      | None => (-1, s1, d)
      | Some real =>
        let '(ret, p, d1) := real d out size args in
        match (if (ret =? 0) && out then key_of p else None) with
        | None => (ret, s1, d1)
        | Some key =>
          let '(delta, t) := mem_track_insert key size (mm_track s1) in
          let s2 := set_mm_track t s1 in
          (ret, (if negb (delta =? SIZE_MAX) then on_mem_alloc delta s2 else s2), d1)
        end
      end.

Definition mcs_rtMalloc := mcs_alloc "rtMalloc" pointer_key.
Definition mcs_rtMallocCached := mcs_alloc "rtMallocCached" pointer_key.
Definition mcs_rtDvppMalloc := mcs_alloc "rtDvppMalloc" pointer_key.
Definition mcs_rtDvppMallocWithFlag := mcs_alloc "rtDvppMallocWithFlag" pointer_key.
Definition mcs_rtMemAlloc := mcs_alloc "rtMemAlloc" pointer_key.
Definition mcs_rtMemAllocManaged := mcs_alloc "rtMemAllocManaged" pointer_key.
Definition mcs_rtMallocPhysical := mcs_alloc "rtMallocPhysical" (fun h => Some (handle_key h)).

(** The common body of the hooks that free. *)
Definition mcs_free (name : string) (devPtr : Z) (s : mcs_mem) (d : D) : Z * mcs_mem * D :=
  match dlsym_free name with
  | None => (-1, s, d)
  | Some real =>
    let '(ret, d1) := real d devPtr in
    if negb (mm_active s) then (ret, s, d1)
    else if (ret =? 0) && negb (devPtr =? 0) then
      let '(size, t) := mem_track_erase devPtr (mm_track s) in (ret, on_mem_free size (set_mm_track t s), d1)
    else (ret, s, d1)
  end.

Definition mcs_rtFree := mcs_free "rtFree".
Definition mcs_rtDvppFree := mcs_free "rtDvppFree".
Definition mcs_rtMemFree := mcs_free "rtMemFree".

(** The code, and [*freeSize] and [*totalSize] if they are written. *)
Definition mcs_rtMemGetInfoEx (memInfoType : Z) (s : mcs_mem) (d : D) : Z * option (Z * Z) * D :=
  if negb (mm_active s) then
    match dlsym_info "rtMemGetInfoEx" with None => (-1, None, d) | Some real => real d memInfoType end
  else
    let quota := get_mem_limit_quota s in
    let '(ret, used) := mcs_get_mem_used s in
    if negb (ret =? 0) then (-1, None, d)
    else (0, Some ((if quota <=? used then 0 else quota - used), quota), d).

End hooks.

(** * Facts about the table *)

Lemma land_mask x : Z.land x MEM_TRACK_MASK = x mod 65536.
Proof. change MEM_TRACK_MASK with (Z.ones 16). by rewrite Z.land_ones. Qed.

Lemma hash_eq key : mem_track_hash key = (key / 16 mod 65536 * 2654435761) mod 65536.
Proof.
  unfold mem_track_hash, uint32, u64. rewrite land_mask, Z.shiftr_div_pow2 by lia. change (2 ^ 4) with 16.
  rewrite !Z.mod_mod_divide by (first [by exists 65536 | by exists (U64_MOD / 65536)]).
  by rewrite Zmult_mod_idemp_l.
Qed.

Lemma hash_range key : 0 <= mem_track_hash key < 65536.
Proof. rewrite hash_eq. apply Z.mod_pos_bound. lia. Qed.

(** The multiplier is odd, so the hash depends on bits 4 to 19 of the key and
    tells them apart: addresses that agree there share a home. *)
Lemma hash_same a b : mem_track_hash a = mem_track_hash b <-> a / 16 mod 65536 = b / 16 mod 65536.
Proof.
  rewrite !hash_eq. split; [|by intros ->]. intros E.
  assert (Hinv : forall x, (x mod 65536 * 2654435761) mod 65536 * 12113 mod 65536 = x mod 65536).
  { intros x. rewrite Zmult_mod_idemp_l, <- Z.mul_assoc, <- (Zmult_mod_idemp_r _ _ 65536). change ((2654435761 * 12113) mod 65536) with 1.
    by rewrite Z.mul_1_r, Z.mod_mod. }
  rewrite <- (Hinv (a / 16)), <- (Hinv (b / 16)). by rewrite E.
Qed.

Lemma probe_index idx p : 0 <= idx < 65536 -> 0 <= p < 65536 -> Z.land (uint32 (idx + p)) MEM_TRACK_MASK = (idx + p) mod 65536.
Proof. intros Hi Hp. rewrite land_mask. unfold uint32. by rewrite (Z.mod_small (idx + p)) by lia. Qed.

Definition free_or (t : mem_table) (key i : Z) : bool := (sl_key (slot_at t i) =? 0) || (sl_key (slot_at t i) =? key).

Lemma probe_spec t key idx n : forall p, 0 <= idx < 65536 -> 0 <= p -> p + Z.of_nat n <= 65536 ->
  match mem_track_probe t key idx p n with
  | Some i => 0 <= i < 65536 ∧ free_or t key i = true
  | None => forall j, p <= j < p + Z.of_nat n -> free_or t key ((idx + j) mod 65536) = false
  end.
Proof.
  induction n as [|n IH]; intros p Hi Hp Hn; cbn [mem_track_probe]; [intros j; lia|]. rewrite probe_index by lia. fold (free_or t key ((idx + p) mod 65536)).
  destruct (free_or t key ((idx + p) mod 65536)) eqn:E; [split; [apply Z.mod_pos_bound; lia|done]|].
  specialize (IH (p + 1) Hi ltac:(lia) ltac:(lia)). destruct (mem_track_probe t key idx (p + 1) n); [done|].
  intros j Hj. destruct (decide (j = p)) as [->|]; [done|]. apply IH. lia.
Qed.

Lemma track_find_spec t key :
  match mem_track_find t key with
  | Some i => 0 <= i < 65536 ∧ free_or t key i = true
  | None => forall j, 0 <= j < 65536 -> free_or t key ((mem_track_hash key + j) mod 65536) = false
  end.
Proof.
  assert (Hn : Z.of_nat (Z.to_nat MEM_TRACK_SLOTS) = 65536) by (by rewrite Z2Nat.id). unfold mem_track_find. generalize dependent (Z.to_nat MEM_TRACK_SLOTS). intros n Hn.
  pose proof (probe_spec t key (mem_track_hash key) n 0 (hash_range key) ltac:(lia) ltac:(lia)) as HS. by rewrite Hn in HS.
Qed.

Lemma find_some t key i : mem_track_find t key = Some i -> 0 <= i < 65536 ∧ free_or t key i = true.
Proof. intros E. pose proof (track_find_spec t key) as HS. by rewrite E in HS. Qed.

(** The search covers the whole table. *)
Lemma find_none t key i : mem_track_find t key = None -> 0 <= i < 65536 -> free_or t key i = false.
Proof.
  intros E Hi. pose proof (track_find_spec t key) as HS. rewrite E in HS. specialize (HS ((i - mem_track_hash key) mod 65536) ltac:(apply Z.mod_pos_bound; lia)).
  by rewrite Zplus_mod_idemp_r, Zplus_minus, Z.mod_small in HS by lia.
Qed.

(** A key whose home is empty or holds it is found there. *)
Lemma find_home t key : free_or t key (mem_track_hash key) = true -> mem_track_find t key = Some (mem_track_hash key).
Proof.
  intros E. unfold mem_track_find. assert (Hn : (0 < Z.to_nat MEM_TRACK_SLOTS)%nat) by (unfold MEM_TRACK_SLOTS; lia).
  destruct (Z.to_nat MEM_TRACK_SLOTS) as [|n]; [lia|]. cbn [mem_track_probe].
  rewrite probe_index by (pose proof (hash_range key); lia). rewrite Z.add_0_r, Z.mod_small by apply hash_range. fold (free_or t key (mem_track_hash key)). by rewrite E.
Qed.

(** There is an empty slot. *)
Definition track_room (t : mem_table) : Prop := exists i, 0 <= i < MEM_TRACK_SLOTS ∧ sl_key (slot_at t i) = 0.

Lemma track_find_room t key : track_room t -> is_Some (mem_track_find t key).
Proof.
  intros (i & Hi & Hk). destruct (mem_track_find t key) eqn:E; [done|]. exfalso. pose proof (find_none t key i E Hi) as HF. unfold free_or in HF. by rewrite Hk in HF.
Qed.

(** The bytes of all slots. *)
Definition slots_total (t : mem_table) : Z := map_fold (fun _ s n => sl_size s + n) 0 t.
Definition live_total (m : gmap Z Z) : Z := map_fold (fun _ v n => v + n) 0 m.
Definition sizes_ok (t : mem_table) : Prop := forall i s, t !! i = Some s -> 0 <= sl_size s.

Lemma slots_total_insert t i s : slots_total (<[i := s]> t) = slots_total t - sl_size (slot_at t i) + sl_size s.
Proof.
  assert (HI : forall m, m !! i = None -> slots_total (<[i := s]> m) = sl_size s + slots_total m) by (intros m Hm; apply (map_fold_insert_L (fun _ s n => sl_size s + n)); [intros; lia|done]).
  unfold slot_at. destruct (t !! i) as [s0|] eqn:E; cbn; [|rewrite HI by done; lia].
  rewrite <- insert_delete_eq, HI by apply lookup_delete_eq. assert (slots_total t = sl_size s0 + slots_total (delete i t)); [|lia].
  unfold slots_total. apply (map_fold_delete_L (fun _ s n => sl_size s + n)); [intros; lia|done].
Qed.

Lemma total_insert m k v : m !! k = None -> live_total (<[k := v]> m) = v + live_total m.
Proof. intros E. apply (map_fold_insert_L (fun _ v n => v + n)); [intros; lia|done]. Qed.

Lemma total_delete m k v : m !! k = Some v -> live_total m = v + live_total (delete k m).
Proof. intros E. rewrite <- (insert_delete_id m k v E) at 1. apply total_insert, lookup_delete_eq. Qed.

Lemma slots_total_nonneg t : sizes_ok t -> 0 <= slots_total t.
Proof.
  unfold slots_total. induction t as [|i s t Hi IH] using map_ind; intros HS; [by rewrite map_fold_empty|]. rewrite (map_fold_insert_L _ _ i); [|intros; lia|done].
  assert (0 <= sl_size s) by (apply (HS i); by rewrite lookup_insert_eq). assert (0 <= map_fold (fun _ s n => sl_size s + n) 0 t); [|lia].
  apply IH. intros j s' E. apply (HS j). rewrite lookup_insert_ne; [done|]. congruence.
Qed.

Lemma sizes_ok_insert t i s : sizes_ok t -> 0 <= sl_size s -> sizes_ok (<[i := s]> t).
Proof. intros HS Hs j s' E. apply lookup_insert_Some in E as [[_ <-]|[_ E]]; [done|by apply (HS j)]. Qed.

Lemma slot_at_size t i : sizes_ok t -> 0 <= sl_size (slot_at t i) <= slots_total t.
Proof.
  intros HS. pose proof (slots_total_nonneg (<[i := empty_slot]> t) (sizes_ok_insert t i empty_slot HS ltac:(done))) as HN. rewrite slots_total_insert in HN. cbn in HN.
  split; [|lia]. unfold slot_at. destruct (t !! i) eqn:E; cbn; [by apply (HS i)|done].
Qed.

(** Allocations that each have a slot of their own do not exceed the slots. *)
Lemma total_le_slots m : forall t, sizes_ok t -> (forall k v, m !! k = Some v -> exists i, t !! i = Some (Slot k v)) -> live_total m <= slots_total t.
Proof.
  induction m as [|k v m Hk IH] using map_ind; intros t HS Hm; [by apply slots_total_nonneg|]. rewrite total_insert by done.
  destruct (Hm k v) as [i Hi]; [by rewrite lookup_insert_eq|]. pose proof (slots_total_insert t i empty_slot) as HT. unfold slot_at in HT. rewrite Hi in HT. cbn in HT.
  assert (live_total m <= slots_total (<[i := empty_slot]> t)); [|lia]. apply IH; [by apply sizes_ok_insert|]. intros k1 v1 E.
  assert (k1 <> k) by (intros ->; congruence). destruct (Hm k1 v1) as [j Hj]; [by rewrite lookup_insert_ne|]. exists j. rewrite lookup_insert_ne; [done|]. intros <-. congruence.
Qed.

(** * The allocations of the device *)

Definition pointer_allocs : list string := ["rtMalloc"; "rtMallocCached"; "rtDvppMalloc"; "rtDvppMallocWithFlag"; "rtMemAlloc"; "rtMemAllocManaged"].
Definition free_names : list string := ["rtFree"; "rtDvppFree"; "rtMemFree"].

(** A call that succeeds returns an address or a handle that is not in use, and
    the allocation is live until it is freed; a call that fails changes
    nothing.  An allocation is known by its key. *)
Class McsRuntimeLaws (D : Type) `{McsRuntime D} := {
  live : D -> gmap Z Z;
  live_range d k v : live d !! k = Some v -> k <> 0 ∧ 0 <= v;
  pointer_success name real d out size args p d1 :
    name ∈ pointer_allocs -> dlsym_alloc name = Some real -> is_u64 size -> real d out size args = (0, p, d1) ->
    out = true ∧ p <> 0 ∧ live d !! p = None ∧ live d1 = <[p := size]> (live d);
  handle_success real d out size args h d1 :
    dlsym_alloc "rtMallocPhysical" = Some real -> is_u64 size -> real d out size args = (0, h, d1) ->
    out = true ∧ live d !! handle_key h = None ∧ live d1 = <[handle_key h := size]> (live d);
  alloc_failure name real d out size args ret p d1 : dlsym_alloc name = Some real -> real d out size args = (ret, p, d1) -> ret <> 0 -> live d1 = live d;
  free_success name real d p d1 :
    name ∈ free_names -> dlsym_free name = Some real -> real d p = (0, d1) -> live d1 = delete p (live d) ∧ (p <> 0 -> is_Some (live d !! p));
  free_failure name real d p ret d1 : dlsym_free name = Some real -> real d p = (ret, d1) -> ret <> 0 -> live d1 = live d;
}.

Section accounting.
Context {D : Type} `{McsRuntimeLaws D}.

Definition mcs_alloc_hooks : list (bool -> Z -> list Z -> mcs_mem -> D -> Z * mcs_mem * D) :=
  [mcs_rtMalloc; mcs_rtMallocCached; mcs_rtDvppMalloc; mcs_rtDvppMallocWithFlag; mcs_rtMemAlloc; mcs_rtMemAllocManaged; mcs_rtMallocPhysical].
Definition mcs_free_hooks : list (Z -> mcs_mem -> D -> Z * mcs_mem * D) := [mcs_rtFree; mcs_rtDvppFree; mcs_rtMemFree].

(** What the counting of an allocation does to the state. *)
Definition recorded (k size : Z) (s : mcs_mem) : mcs_mem :=
  let '(delta, t) := mem_track_insert k size (mm_track s) in
  if negb (delta =? SIZE_MAX) then on_mem_alloc delta (set_mm_track t s) else set_mm_track t s.

Definition forgotten (k : Z) (s : mcs_mem) : mcs_mem :=
  let '(size, t) := mem_track_erase k (mm_track s) in on_mem_free size (set_mm_track t s).

Lemma guard_eq size s : mcs_guard_memory size s = ((if mcs_memory_check size s then 0 else ACL_ERROR_STORAGE_OVER_LIMIT), s).
Proof. destruct s as [a t u q []]; [done|]. unfold mcs_guard_memory. cbn [mm_in_guard]. assert (E : mcs_memory_check size (set_in_guard true (mk_mcs_mem a t u q false)) = mcs_memory_check size (mk_mcs_mem a t u q false)) by done. rewrite E. by destruct (mcs_memory_check size (mk_mcs_mem a t u q false)). Qed.

Lemma check_eq size s : is_u64 size -> 0 <= mm_used s -> mcs_memory_check size s = (size + mm_used s <=? get_mem_limit_quota s).
Proof.
  intros Hs Hu. assert (Hq : is_u64 (get_mem_limit_quota s)) by apply u64_range. unfold mcs_memory_check, mcs_get_mem_used. change (negb (0 =? 0)) with false. cbn iota.
  destruct (Z.leb_spec U64_MOD (size + mm_used s)); [symmetry; apply Z.leb_gt; mlia|]. rewrite u64_small by mlia.
  destruct (Z.ltb_spec (get_mem_limit_quota s) (size + mm_used s)); symmetry; [by apply Z.leb_gt|by apply Z.leb_le].
Qed.

Lemma over_limit h out size args s d : h ∈ mcs_alloc_hooks -> mm_active s = true -> is_u64 size -> 0 <= mm_used s -> get_mem_limit_quota s < size + mm_used s ->
  h out size args s d = (ACL_ERROR_STORAGE_OVER_LIMIT, s, d).
Proof.
  intros Hh Ha Hs Hu Hq. assert (Hall : forall name key_of, mcs_alloc name key_of out size args s d = (ACL_ERROR_STORAGE_OVER_LIMIT, s, d)).
  { intros name key_of. unfold mcs_alloc. rewrite Ha, guard_eq, check_eq by done. by rewrite (proj2 (Z.leb_gt _ _)). }
  unfold mcs_alloc_hooks in Hh. rewrite !elem_of_cons, elem_of_nil in Hh. destruct_or! Hh; try done; subst h; apply Hall.
Qed.

(** An allocation through a hook is refused by the limiter, or fails, or is
    live afterwards and counted. *)
Lemma mcs_alloc_cases h out size args s d : h ∈ mcs_alloc_hooks -> mm_active s = true -> is_u64 size -> 0 <= mm_used s ->
  let '(ret, s1, d1) := h out size args s d in
  (ret <> 0 ∧ s1 = s ∧ live d1 = live d) ∨
  (ret = 0 ∧ size + mm_used s <= get_mem_limit_quota s ∧ exists k, live d !! k = None ∧ live d1 = <[k := size]> (live d) ∧ s1 = recorded k size s).
Proof.
  intros Hh Ha Hs Hu.
  assert (exists name key_of, h = mcs_alloc name key_of ∧ (forall real p d1, dlsym_alloc name = Some real -> real d out size args = (0, p, d1) ->
    out = true ∧ exists k, key_of p = Some k ∧ live d !! k = None ∧ live d1 = <[k := size]> (live d))) as (name & key_of & -> & Hlaw).
  { unfold mcs_alloc_hooks in Hh. rewrite !elem_of_cons, elem_of_nil in Hh.
    assert (Hp : forall name, name ∈ pointer_allocs -> forall real p d1, dlsym_alloc name = Some real -> real d out size args = (0, p, d1) ->
      out = true ∧ exists k, pointer_key p = Some k ∧ live d !! k = None ∧ live d1 = <[k := size]> (live d)).
    { intros name Hn real p d1 E Er. destruct (pointer_success name real d out size args p d1 Hn E Hs Er) as (Ho & Hp & Hl). split; [done|]. exists p. unfold pointer_key. by rewrite (proj2 (Z.eqb_neq p 0)). }
    destruct_or! Hh; try done; subst h; eexists _, _; (split; [reflexivity|]); try (apply Hp; set_solver).
    intros real h d1 E Er. destruct (handle_success real d out size args h d1 E Hs Er) as [Ho Hl]. split; [done|]. by exists (handle_key h). }
  unfold mcs_alloc. rewrite Ha, guard_eq, check_eq by done. cbn [negb].
  destruct (Z.leb_spec (size + mm_used s) (get_mem_limit_quota s)) as [Hq|Hq]; cbn; [|by left].
  destruct (dlsym_alloc name) as [real|] eqn:E; [|by left]. destruct (real d out size args) as [[ret p] d1] eqn:Er. destruct (Z.eqb_spec ret 0) as [->|Hr].
  - destruct (Hlaw real p d1 eq_refl Er) as (-> & k & Hk & Hf & Hl). cbn [andb]. rewrite Hk. unfold recorded. cbn iota. destruct (mem_track_insert k size (mm_track s)) as [delta t] eqn:Ei.
    right. split; [done|]. split; [done|]. exists k. rewrite Ei. by destruct (delta =? SIZE_MAX).
  - cbn. left. split; [done|]. split; [done|]. by apply (alloc_failure name real d out size args ret p d1).
Qed.

Lemma free_cases h p s d : h ∈ mcs_free_hooks -> mm_active s = true ->
  let '(ret, s1, d1) := h p s d in
  (s1 = s ∧ live d1 = live d) ∨ (ret = 0 ∧ is_Some (live d !! p) ∧ live d1 = delete p (live d) ∧ s1 = forgotten p s).
Proof.
  intros Hh Ha. assert (exists name, h = mcs_free name ∧ name ∈ free_names) as (name & -> & Hn).
  { unfold mcs_free_hooks in Hh. rewrite !elem_of_cons, elem_of_nil in Hh. destruct_or! Hh; try done; subst h; eexists; (split; [reflexivity|set_solver]). }
  unfold mcs_free. destruct (dlsym_free name) as [real|] eqn:E; [|by left]. destruct (real d p) as [ret d1] eqn:Er. rewrite Ha. cbn [negb].
  destruct (Z.eqb_spec ret 0) as [->|Hr]; cbn [andb]; [|left; split; [done|by apply (free_failure name real d p ret d1)]].
  destruct (free_success name real d p d1 Hn E Er) as [Hl Hp]. destruct (Z.eqb_spec p 0) as [->|Hp0]; cbn [negb].
  - left. split; [done|]. rewrite Hl. apply delete_id. destruct (live d !! 0) eqn:E0; [|done]. by apply live_range in E0 as [].
  - unfold forgotten. destruct (mem_track_erase p (mm_track s)). right. auto.
Qed.

(** * The quota is a bound *)

(** What a process can reach after the hooks have been activated: calls of the
    hooks, and frees that are not intercepted ([rtFreePhysical]), as long as the
    table has an empty slot. *)
Inductive mem_reach : mcs_mem -> D -> Prop :=
  | reach_start s d : mm_active s = true -> mm_track s = ∅ -> mm_used s = 0 -> live d = ∅ -> mem_reach s d
  | reach_alloc h out size args s d ret s1 d1 :
      mem_reach s d -> h ∈ mcs_alloc_hooks -> is_u64 size -> track_room (mm_track s) -> h out size args s d = (ret, s1, d1) -> mem_reach s1 d1
  | reach_free h p s d ret s1 d1 : mem_reach s d -> h ∈ mcs_free_hooks -> h p s d = (ret, s1, d1) -> mem_reach s1 d1
  | reach_other s d d1 : mem_reach s d -> live d1 ⊆ live d -> mem_reach s d1.

Record mem_inv (s : mcs_mem) (d : D) : Prop := {
  mi_active : mm_active s = true;
  mi_sizes : sizes_ok (mm_track s);
  mi_slots : forall k v, live d !! k = Some v -> exists i, mm_track s !! i = Some (Slot k v);
  mi_used : slots_total (mm_track s) <= mm_used s <= get_mem_limit_quota s;
}.

Lemma mcs_quota_range s : 0 <= get_mem_limit_quota s < SIZE_MAX.
Proof.
  unfold get_mem_limit_quota. assert (E : forall x, u64 (x * MCS_MB_TO_B) = x mod 2 ^ 44 * MCS_MB_TO_B) by (intros x; apply (Zmult_mod_distr_r x (2 ^ 44) MCS_MB_TO_B)).
  rewrite E. pose proof (Z.mod_pos_bound (u64 (mm_quota s)) (2 ^ 44) ltac:(lia)). unfold SIZE_MAX, UINT64_MAX, U64_MOD, MCS_MB_TO_B. lia.
Qed.

Lemma inv_used_nonneg s d : mem_inv s d -> 0 <= mm_used s.
Proof. intros [_ HS _ HU]. pose proof (slots_total_nonneg _ HS). lia. Qed.

Lemma recorded_inv k size s d d1 : mem_inv s d -> 0 <= size -> size + mm_used s <= get_mem_limit_quota s -> track_room (mm_track s) ->
  live d !! k = None -> live d1 = <[k := size]> (live d) -> mem_inv (recorded k size s) d1.
Proof.
  intros Hinv Hsz Hq Hf Hfresh Hl. pose proof (inv_used_nonneg s d Hinv) as Hu. destruct Hinv as [HA HS HL HU].
  pose proof (mcs_quota_range s) as Hqr. unfold recorded, mem_track_insert.
  destruct (track_find_room (mm_track s) k Hf) as [i Hi]. rewrite Hi. destruct (find_some _ _ _ Hi) as [_ Hfree]. set (slot := slot_at (mm_track s) i) in *.
  pose proof (slot_at_size (mm_track s) i HS) as Hold. fold slot in Hold.
  assert (Hslots : forall key, key = k -> forall k1 v, live d1 !! k1 = Some v -> exists j, <[i := Slot key size]> (mm_track s) !! j = Some (Slot k1 v)).
  { intros key -> k1 v. rewrite Hl, lookup_insert_Some. intros [[<- <-]|[Hne E]]; [exists i; by rewrite lookup_insert_eq|]. destruct (HL k1 v E) as [j Hj]. exists j.
    destruct (decide (i = j)) as [<-|]; [exfalso|by rewrite lookup_insert_ne]. unfold free_or, slot_at in Hfree. rewrite Hj in Hfree. cbn in Hfree. destruct (live_range d k1 v E).
    destruct (Z.eqb_spec k1 0); [done|]. destruct (Z.eqb_spec k1 k); [congruence|done]. }
  assert (Hstep : forall delta key, 0 <= delta <= size -> size - sl_size slot <= delta -> key = k ->
    mem_inv (if negb (delta =? SIZE_MAX) then on_mem_alloc delta (set_mm_track (<[i := Slot key size]> (mm_track s)) s) else set_mm_track (<[i := Slot key size]> (mm_track s)) s) d1).
  { intros delta key Hd Hd1 Hkey. rewrite (proj2 (Z.eqb_neq delta SIZE_MAX)) by lia. cbn [negb].
    constructor; cbn [on_mem_alloc set_mm_used set_mm_track mm_track mm_active mm_used]; [done|by apply sizes_ok_insert|by apply Hslots|].
    rewrite slots_total_insert. fold slot. cbn [sl_size]. rewrite u64_small by (unfold SIZE_MAX in Hqr; mlia). change (get_mem_limit_quota (on_mem_alloc _ _)) with (get_mem_limit_quota s). lia. }
  apply orb_true_iff in Hfree. fold slot in Hfree. destruct (Z.eqb_spec (sl_key slot) 0) as [E0|E0]; [apply Hstep; lia|].
  destruct Hfree as [Hfree|Hfree]; [done|]. apply Z.eqb_eq in Hfree. apply Hstep; [..|done]; destruct (Z.ltb_spec (sl_size slot) size); lia.
Qed.

Lemma forgotten_inv k s d d1 : mem_inv s d -> is_Some (live d !! k) -> live d1 = delete k (live d) -> mem_inv (forgotten k s) d1.
Proof.
  intros Hinv Hk Hl. pose proof (inv_used_nonneg s d Hinv) as Hu. destruct Hinv as [HA HS HL HU]. unfold forgotten, mem_track_erase.
  assert (Hsame : mem_inv (on_mem_free 0 (set_mm_track (mm_track s) s)) d1).
  { unfold on_mem_free. cbn [set_mm_track mm_used]. rewrite (proj2 (Z.ltb_ge _ _)) by lia. rewrite Z.sub_0_r. constructor; cbn; [done|done| |done].
    intros k1 v E. rewrite Hl in E. apply lookup_delete_Some in E as [_ E]. by apply HL. }
  destruct (mem_track_find (mm_track s) k) as [i|] eqn:Hi; [|done]. destruct (find_some _ _ _ Hi) as [_ Hfree]. apply orb_true_iff in Hfree.
  pose proof (slot_at_size (mm_track s) i HS) as Hold. destruct (Z.eqb_spec (sl_key (slot_at (mm_track s) i)) 0) as [E0|E0]; [done|].
  destruct Hfree as [Hfree|Hfree]; [done|]. apply Z.eqb_eq in Hfree. unfold on_mem_free. cbn [set_mm_track mm_used]. rewrite (proj2 (Z.ltb_ge _ _)) by lia.
  constructor; cbn [set_mm_used set_mm_track mm_track mm_active mm_used]; [done|by apply sizes_ok_insert| |rewrite slots_total_insert; cbn [sl_size empty_slot]; change (get_mem_limit_quota (set_mm_used _ _)) with (get_mem_limit_quota s); lia].
  intros k1 v E. rewrite Hl in E. apply lookup_delete_Some in E as [Hne E]. destruct (HL k1 v E) as [j Hj]. exists j. destruct (decide (i = j)) as [<-|]; [exfalso|by rewrite lookup_insert_ne].
  apply Hne. rewrite <- Hfree. unfold slot_at. by rewrite Hj.
Qed.

Lemma mem_reach_inv s d : mem_reach s d -> mem_inv s d.
Proof.
  induction 1 as [s d Ha Ht Hu Hl|h out size args s d ret s1 d1 _ IH Hh Hs Hf E|h p s d ret s1 d1 _ IH Hh E|s d d1 _ IH Hl].
  - assert (is_u64 (get_mem_limit_quota s)) by apply u64_range. constructor; [done|..]; rewrite ?Ht, ?Hu; [by intros i x E|rewrite Hl; by intros k v E|]. change (slots_total ∅) with 0. mlia.
  - pose proof (mcs_alloc_cases h out size args s d Hh (mi_active _ _ IH) Hs (inv_used_nonneg _ _ IH)) as HC. rewrite E in HC. destruct HC as [(_ & -> & HL)|(_ & Hq & k & Hk & HL & ->)].
    + destruct IH as [? ? HI ?]. constructor; [done|done| |done]. by rewrite HL.
    + apply (recorded_inv k size s d); [done|mlia|done..].
  - pose proof (free_cases h p s d Hh (mi_active _ _ IH)) as HC. rewrite E in HC. destruct HC as [(-> & HL)|(_ & Hp & HL & ->)].
    + destruct IH as [? ? HI ?]. constructor; [done|done| |done]. by rewrite HL.
    + by apply (forgotten_inv p s d).
  - destruct IH as [? ? HI ?]. constructor; [done|done| |done]. intros k v E. by apply HI, (lookup_weaken _ _ _ _ E Hl).
Qed.

(** * The counter is exact when no two keys share a home *)

Definition homes_distinct (m : gmap Z Z) : Prop :=
  forall k1 k2, is_Some (m !! k1) -> is_Some (m !! k2) -> k1 / 16 mod 65536 = k2 / 16 mod 65536 -> k1 = k2.

Inductive exact_reach : mcs_mem -> D -> Prop :=
  | exact_start s d : mm_active s = true -> mm_track s = ∅ -> mm_used s = 0 -> live d = ∅ -> exact_reach s d
  | exact_alloc h out size args s d ret s1 d1 :
      exact_reach s d -> h ∈ mcs_alloc_hooks -> is_u64 size -> h out size args s d = (ret, s1, d1) -> homes_distinct (live d1) -> exact_reach s1 d1
  | exact_free h p s d ret s1 d1 : exact_reach s d -> h ∈ mcs_free_hooks -> h p s d = (ret, s1, d1) -> exact_reach s1 d1.

Record exact_inv (s : mcs_mem) (d : D) : Prop := {
  ei_active : mm_active s = true;
  ei_home : forall k v, live d !! k = Some v -> slot_at (mm_track s) (mem_track_hash k) = Slot k v;
  ei_key : forall i, sl_key (slot_at (mm_track s) i) <> 0 -> is_Some (live d !! sl_key (slot_at (mm_track s) i)) ∧ mem_track_hash (sl_key (slot_at (mm_track s) i)) = i;
  ei_used : mm_used s = live_total (live d) ∧ 0 <= mm_used s <= get_mem_limit_quota s;
}.

Lemma slot_at_insert t i s j : slot_at (<[i := s]> t) j = if decide (i = j) then s else slot_at t j.
Proof. unfold slot_at. destruct (decide (i = j)) as [->|]; [by rewrite lookup_insert_eq|by rewrite lookup_insert_ne]. Qed.

Lemma total_nonneg_delete d k v : live d !! k = Some v -> 0 <= v <= live_total (live d).
Proof.
  intros E. rewrite (total_delete _ _ _ E). destruct (live_range d k v E). assert (Hn : forall m : gmap Z Z, (forall k v, m !! k = Some v -> 0 <= v) -> 0 <= live_total m).
  { induction m as [|k1 v1 m Hk IH] using map_ind; intros Hm; [done|]. rewrite total_insert by done. assert (0 <= v1) by (apply (Hm k1); by rewrite lookup_insert_eq).
    assert (0 <= live_total m); [|lia]. apply IH. intros k2 v2 E2. apply (Hm k2). rewrite lookup_insert_ne; [done|congruence]. }
  assert (0 <= live_total (delete k (live d))); [|lia]. apply Hn. intros k1 v1 E1. apply lookup_delete_Some in E1 as [_ E1]. by apply live_range in E1 as [].
Qed.

Lemma recorded_exact k size s d d1 : exact_inv s d -> 0 <= size -> size + mm_used s <= get_mem_limit_quota s -> live d !! k = None -> live d1 = <[k := size]> (live d) ->
  homes_distinct (live d1) -> exact_inv (recorded k size s) d1.
Proof.
  intros [HA HH HK [HU HB]] Hsz Hq Hfresh Hl Hd. pose proof (mcs_quota_range s) as Hqr.
  assert (Hk1 : live d1 !! k = Some size) by (rewrite Hl; apply lookup_insert_eq). destruct (live_range d1 k size Hk1) as [Hk0 _].
  assert (Hempty : sl_key (slot_at (mm_track s) (mem_track_hash k)) = 0).
  { destruct (decide (sl_key (slot_at (mm_track s) (mem_track_hash k)) = 0)) as [|Hne]; [done|exfalso]. destruct (HK _ Hne) as [Hlive Hh].
    assert (sl_key (slot_at (mm_track s) (mem_track_hash k)) = k) as E; [|rewrite E, Hfresh in Hlive; by destruct Hlive].
    apply Hd; [|by exists size|by apply hash_same]. rewrite Hl, lookup_insert_is_Some'. by right. }
  unfold recorded, mem_track_insert. rewrite find_home by (unfold free_or; by rewrite Hempty). rewrite Hempty. change (0 =? 0) with true. cbn iota.
  rewrite (proj2 (Z.eqb_neq size SIZE_MAX)) by lia. cbn [negb]. unfold on_mem_alloc. cbn [set_mm_track mm_used]. rewrite u64_small by (unfold SIZE_MAX in Hqr; mlia).
  constructor; cbn [set_mm_used set_mm_track mm_track mm_active mm_used]; [done|..].
  - intros k1 v. rewrite Hl, slot_at_insert, lookup_insert_Some. intros [[<- <-]|[Hne E]]; [by rewrite decide_True|]. rewrite decide_False; [by apply HH|].
    intros Hh. apply Hne, Hd; [by exists size|rewrite Hl, lookup_insert_is_Some'; right; by exists v|by apply hash_same].
  - intros i. rewrite slot_at_insert. destruct (decide (mem_track_hash k = i)) as [<-|Hne]; cbn [sl_key]; intros Hkey; [by rewrite Hk1|]. destruct (HK i Hkey). rewrite Hl, lookup_insert_is_Some'. auto.
  - rewrite Hl, total_insert by done. change (get_mem_limit_quota (set_mm_used _ _)) with (get_mem_limit_quota s). lia.
Qed.

Lemma forgotten_exact k s d d1 : exact_inv s d -> is_Some (live d !! k) -> live d1 = delete k (live d) -> exact_inv (forgotten k s) d1.
Proof.
  intros [HA HH HK [HU HB]] [v Hk] Hl. destruct (live_range d k v Hk) as [Hk0 Hv]. pose proof (HH k v Hk) as Hhome. pose proof (total_nonneg_delete d k v Hk) as Ht.
  unfold forgotten, mem_track_erase. rewrite find_home by (unfold free_or; rewrite Hhome; cbn [sl_key]; rewrite Z.eqb_refl; apply orb_true_r). rewrite Hhome. cbn [sl_key sl_size].
  rewrite (proj2 (Z.eqb_neq k 0)) by done. unfold on_mem_free. cbn [set_mm_track mm_used]. rewrite (proj2 (Z.ltb_ge _ _)) by lia.
  constructor; cbn [set_mm_used set_mm_track mm_track mm_active mm_used]; [done|..].
  - intros k1 v1 E. rewrite Hl in E. apply lookup_delete_Some in E as [Hne E]. rewrite slot_at_insert, decide_False; [by apply HH|]. intros Hh. pose proof (HH k1 v1 E) as E1.
    rewrite <- Hh, Hhome in E1. congruence.
  - intros i. rewrite slot_at_insert. destruct (decide (mem_track_hash k = i)) as [<-|Hne]; cbn [sl_key empty_slot]; [done|]. intros Hkey. destruct (HK i Hkey) as [Hs Hh].
    split; [|done]. rewrite Hl, lookup_delete_ne; [done|]. intros E. by rewrite <- E in Hh.
  - rewrite Hl. pose proof (total_delete _ _ _ Hk). change (get_mem_limit_quota (set_mm_used _ _)) with (get_mem_limit_quota s). lia.
Qed.

Lemma exact_reach_inv s d : exact_reach s d -> exact_inv s d.
Proof.
  assert (Hsame : forall s d d1, exact_inv s d -> live d1 = live d -> exact_inv s d1) by (intros ? ? ? [] E; constructor; rewrite ?E; auto).
  induction 1 as [s d Ha Ht Hu Hl|h out size args s d ret s1 d1 _ IH Hh Hs E Hd|h p s d ret s1 d1 _ IH Hh E].
  - pose proof (mcs_quota_range s). constructor; [done|..]; rewrite ?Ht, ?Hu, ?Hl; [by intros k v E|by intros i []|]. change (live_total ∅) with 0. lia.
  - destruct (ei_used _ _ IH) as [_ HB]. pose proof (mcs_alloc_cases h out size args s d Hh (ei_active _ _ IH) Hs (proj1 HB)) as HC. rewrite E in HC.
    destruct HC as [(_ & -> & HL)|(_ & Hq & k & Hk & HL & ->)]; [by apply (Hsame s d)|]. apply (recorded_exact k size s d); [done|mlia|done..].
  - pose proof (free_cases h p s d Hh (ei_active _ _ IH)) as HC. rewrite E in HC. destruct HC as [(-> & HL)|(_ & Hp & HL & ->)]; [by apply (Hsame s d)|by apply (forgotten_exact p s d)].
Qed.



End accounting.

(** * Addresses that share a home *)

Lemma find_second t key i : mem_track_hash key = i -> free_or t key i = false -> free_or t key ((i + 1) mod 65536) = true -> mem_track_find t key = Some ((i + 1) mod 65536).
Proof.
  intros Hi E1 E2. unfold mem_track_find. assert (Hn : (1 < Z.to_nat MEM_TRACK_SLOTS)%nat) by (unfold MEM_TRACK_SLOTS; lia). pose proof (hash_range key) as HR.
  destruct (Z.to_nat MEM_TRACK_SLOTS) as [|[|n]]; [lia..|]. cbn [mem_track_probe]. rewrite Hi in *. rewrite !probe_index by lia. rewrite Z.add_0_r, (Z.mod_small i), Z.add_0_l by lia.
  fold (free_or t key i). fold (free_or t key ((i + 1) mod 65536)). by rewrite E1, E2.
Qed.

(** Two keys with the same home are recorded next to each other; the removal of
    the first hides the second. *)
Lemma erase_hides A B a b : A <> 0 -> B <> 0 -> A <> B -> A / 16 mod 65536 = B / 16 mod 65536 ->
  exists t1 t2 t3, mem_track_insert A a ∅ = (a, t1) ∧ mem_track_insert B b t1 = (b, t2) ∧ mem_track_erase A t2 = (a, t3) ∧ mem_track_erase B t3 = (0, t3).
Proof.
  intros HA HB HAB Hh. apply hash_same in Hh. pose proof (hash_range A) as HR. set (i := mem_track_hash A) in *. set (j := (i + 1) mod 65536).
  assert (Hij : i <> j) by (unfold j; destruct (decide (i = 65535)) as [->|]; [done|rewrite Z.mod_small; lia]).
  set (t1 := <[i := Slot A a]> ∅ : mem_table). set (t2 := <[j := Slot B b]> t1). set (t3 := <[i := empty_slot]> t2). exists t1, t2, t3.
  assert (S1 : slot_at t1 i = Slot A a) by (unfold t1; by rewrite slot_at_insert, decide_True).
  assert (S1j : slot_at t1 j = empty_slot) by (unfold t1; by rewrite slot_at_insert, decide_False).
  assert (S2 : slot_at t2 i = Slot A a) by (unfold t2; by rewrite slot_at_insert, decide_False).
  assert (S3 : slot_at t3 i = empty_slot) by (unfold t3; by rewrite slot_at_insert, decide_True).
  unfold mem_track_insert, mem_track_erase. split_and!.
  - by rewrite find_home.
  - rewrite (find_second t1 B i) by (first [by symmetry|unfold free_or; fold j; by rewrite ?S1j|unfold free_or; rewrite S1; cbn; by rewrite !(proj2 (Z.eqb_neq _ _))]). fold j. by rewrite S1j.
  - rewrite find_home by (fold i; unfold free_or; rewrite S2; cbn; rewrite Z.eqb_refl; apply orb_true_r). fold i. rewrite S2. cbn. by rewrite (proj2 (Z.eqb_neq A 0)).
  - rewrite find_home by (rewrite <- Hh; unfold free_or; by rewrite S3). rewrite <- Hh. by rewrite S3.
Qed.

(** C36. Freed memory stays charged.  When two addresses agree in bits 4 to 19,
    as all addresses that are aligned to 1 MB do, freeing the first empties its
    slot and ends the search for the second there, so that the free of the
    second is not counted: with nothing allocated any more the counter is the
    size of the second allocation, and requests that fit the quota are
    refused. *)
Theorem mcs_freed_stays_charged {D} `{McsRuntime D} malloc free s (d d1 d2 d3 d4 : D) A B a b args :
  dlsym_alloc "rtMalloc" = Some malloc -> dlsym_free "rtFree" = Some free ->
  mm_active s = true -> mm_track s = ∅ -> mm_used s = 0 -> is_u64 a -> is_u64 b -> a + b <= get_mem_limit_quota s ->
  A <> 0 -> B <> 0 -> A <> B -> A / 16 mod 65536 = B / 16 mod 65536 ->
  malloc d true a args = (0, A, d1) -> malloc d1 true b args = (0, B, d2) -> free d2 A = (0, d3) -> free d3 B = (0, d4) ->
  exists s1 s2 s3 s4, mcs_rtMalloc true a args s d = (0, s1, d1) ∧ mcs_rtMalloc true b args s1 d1 = (0, s2, d2) ∧
    mcs_rtFree A s2 d2 = (0, s3, d3) ∧ mcs_rtFree B s3 d3 = (0, s4, d4) ∧ mm_used s4 = b ∧
    forall c, is_u64 c -> get_mem_limit_quota s - b < c -> mcs_rtMalloc true c args s4 d4 = (ACL_ERROR_STORAGE_OVER_LIMIT, s4, d4).
Proof.
  intros Em Ef Ha Ht Hu Hsa Hsb Hq HA HB HAB Hh E1 E2 E3 E4. pose proof (mcs_quota_range s) as Hqr. destruct (erase_hides A B a b HA HB HAB Hh) as (t1 & t2 & t3 & T1 & T2 & T3 & T4).
  destruct s as [ac t u q g]. cbn in Ha, Ht, Hu. subst ac t u. set (st := fun t u => mk_mcs_mem true t u q g).
  assert (Hst : forall t u, get_mem_limit_quota (st t u) = get_mem_limit_quota (mk_mcs_mem true ∅ 0 q g)) by done. set (quota := get_mem_limit_quota (mk_mcs_mem true ∅ 0 q g)) in *.
  assert (HM : forall size t u dd dd1 p t', is_u64 size -> 0 <= u -> size + u <= quota -> malloc dd true size args = (0, p, dd1) -> p <> 0 -> mem_track_insert p size t = (size, t') ->
    mcs_rtMalloc true size args (st t u) dd = (0, st t' (u + size), dd1)).
  { intros size t u dd dd1 p t' Hs Hu Hfit Em1 Hp Ei. unfold mcs_rtMalloc, mcs_alloc. rewrite guard_eq, check_eq, Hst by done. rewrite (proj2 (Z.leb_le _ _)) by done. cbn.
    rewrite Em, Em1. cbn. unfold pointer_key. rewrite (proj2 (Z.eqb_neq p 0)), Ei by done. rewrite (proj2 (Z.eqb_neq size SIZE_MAX)) by lia. cbn.
    unfold on_mem_alloc, set_mm_track, set_mm_used. cbn. rewrite u64_small by (unfold SIZE_MAX in Hqr; mlia). done. }
  assert (HF : forall p t u dd dd1 size t', free dd p = (0, dd1) -> p <> 0 -> mem_track_erase p t = (size, t') -> size <= u -> mcs_rtFree p (st t u) dd = (0, st t' (u - size), dd1)).
  { intros p t u dd dd1 size t' Ef1 Hp Ei Hsz. unfold mcs_rtFree, mcs_free. rewrite Ef, Ef1. cbn. rewrite (proj2 (Z.eqb_neq p 0)) by done. cbn. rewrite Ei. unfold on_mem_free. cbn.
    by rewrite (proj2 (Z.ltb_ge _ _)) by lia. }
  assert (0 <= a) by mlia. assert (0 <= b) by mlia.
  exists (st t1 (0 + a)), (st t2 (0 + a + b)), (st t3 (0 + a + b - a)), (st t3 (0 + a + b - a - 0)). split_and!.
  - by apply (HM a ∅ 0 d d1 A t1); [..|lia| | |].
  - by apply (HM b t1 (0 + a) d1 d2 B t2); [|lia..| | |].
  - apply (HF A t2 (0 + a + b) d2 d3 a t3); [done..|lia].
  - apply (HF B t3 (0 + a + b - a) d3 d4 0 t3); [done..|lia].
  - cbn. lia.
  - intros c Hc Hcq. apply over_limit; [by left|done|done|cbn; lia|]. rewrite Hst. cbn. lia.
Qed.

(** * A driver for the examples *)

(** The allocations and the alignment of the addresses. *)
Record mcs_sim := McsSim { ms_live : gmap Z Z; ms_align : positive }.

Definition ms_max (m : gmap Z Z) : Z := map_fold (fun k _ n => Z.max k n) 0 m.
Definition ms_view (d : mcs_sim) : gmap Z Z := filter (fun kv => kv.1 <> 0 ∧ 0 <= kv.2) (ms_live d).
Definition ms_put (k size : Z) (d : mcs_sim) : mcs_sim := McsSim (<[k := size]> (ms_live d)) (ms_align d).

Definition ms_malloc (d : mcs_sim) (out : bool) (size : Z) (args : list Z) : Z * Z * mcs_sim :=
  if out then let p := (ms_max (ms_live d) / Z.pos (ms_align d) + 1) * Z.pos (ms_align d) in (0, p, ms_put p size d) else (1, 0, d).

Definition ms_physical (d : mcs_sim) (out : bool) (size : Z) (args : list Z) : Z * Z * mcs_sim :=
  let h := ms_max (ms_live d) in if out && (h <? 2 ^ 30) then (0, h, ms_put (handle_key h) size d) else (1, 0, d).

Definition ms_free (d : mcs_sim) (p : Z) : Z * mcs_sim :=
  if bool_decide (p = 0 ∨ is_Some (ms_view d !! p)) then (0, McsSim (delete p (ms_live d)) (ms_align d)) else (1, d).

Definition mcs_sim_runtime : McsRuntime mcs_sim := {|
  dlsym_alloc name := if bool_decide (name ∈ pointer_allocs) then Some ms_malloc else if bool_decide (name = "rtMallocPhysical") then Some ms_physical else None;
  dlsym_free name := if bool_decide (name ∈ free_names) then Some ms_free else None;
  dlsym_info name := None;
|}.

Lemma ms_max_le m : 0 <= ms_max m ∧ forall k, is_Some (m !! k) -> k <= ms_max m.
Proof.
  unfold ms_max. induction m as [|k v m Hk [IH0 IH]] using map_ind; [split; [done|]; intros k []; set_solver|]. rewrite map_fold_insert_L; [|intros; lia|done].
  split; [lia|]. intros k1 Hk1. apply lookup_insert_is_Some' in Hk1 as [->|Hk1]; [lia|]. apply IH in Hk1. lia.
Qed.

Lemma ms_fresh m k : ms_max m < k -> m !! k = None.
Proof. intros Hk. destruct (m !! k) eqn:E; [|done]. pose proof (proj2 (ms_max_le m) k ltac:(by rewrite E)). lia. Qed.

Lemma ms_view_put k size d : k <> 0 -> 0 <= size -> ms_live d !! k = None -> ms_view d !! k = None ∧ ms_view (ms_put k size d) = <[k := size]> (ms_view d).
Proof. intros Hk Hs E. unfold ms_view, ms_put. cbn. split; [by apply map_lookup_filter_None_2; left|]. by rewrite map_filter_insert_True. Qed.

Lemma handle_key_eq h : 0 <= h < 2 ^ 31 -> handle_key h = 2 * h + 1.
Proof.
  intros Hh. unfold handle_key, uint32. rewrite Z.mod_small, Z.shiftl_mul_pow2, u64_small by (try lia; mlia). change (2 ^ 1) with 2. rewrite Z.mul_comm. rewrite <- Z.add_nocarry_lor; [done|].
  apply Z.bits_inj'. intros n Hn. rewrite Z.land_spec, Z.bits_0. destruct (decide (n = 0)) as [->|]; [by rewrite Z.testbit_even_0|]. change 1 with (2 ^ 0). by rewrite Z.pow2_bits_false, andb_false_r by lia.
Qed.

Lemma ms_malloc_success d out size args p d1 : is_u64 size -> ms_malloc d out size args = (0, p, d1) ->
  out = true ∧ p <> 0 ∧ ms_view d !! p = None ∧ ms_view d1 = <[p := size]> (ms_view d).
Proof.
  unfold ms_malloc. destruct out; [|done]. intros Hs [= <- <-]. destruct (ms_max_le (ms_live d)) as [Hm _]. set (a := Z.pos (ms_align d)).
  assert (ms_max (ms_live d) < (ms_max (ms_live d) / a + 1) * a). { rewrite (Z.div_mod (ms_max (ms_live d)) a) at 1 by done. pose proof (Z.mod_pos_bound (ms_max (ms_live d)) a ltac:(done)). lia. }
  split; [done|]. split; [lia|]. apply ms_view_put; [lia|mlia|by apply ms_fresh].
Qed.

#[export] Instance mcs_sim_laws : McsRuntimeLaws mcs_sim (H := mcs_sim_runtime).
Proof.
  refine {| live := ms_view |}.
  - intros d k v E. apply map_lookup_filter_Some in E as [_ E]. exact E.
  - cbn. intros name real d out size args p d1 Hn. rewrite bool_decide_true by done. intros [= <-]. apply ms_malloc_success.
  - cbn. intros real d out size args h d1 [= <-] Hs. unfold ms_physical. destruct out; cbn [andb]; [|done]. destruct (Z.ltb_spec (ms_max (ms_live d)) (2 ^ 30)); [|done].
    intros [= <- <-]. destruct (ms_max_le (ms_live d)) as [Hm _]. split; [done|]. rewrite handle_key_eq by lia. apply ms_view_put; [lia|mlia|apply ms_fresh; lia].
  - cbn. intros name real d out size args ret p d1. case_bool_decide; [|case_bool_decide; [|done]]; intros [= <-]; unfold ms_malloc, ms_physical.
    + destruct out; intros [= <- <- <-] Hr; done.
    + destruct (out && _); intros [= <- <- <-] Hr; done.
  - cbn. intros name real d p d1 Hn. rewrite bool_decide_true by done. intros [= <-]. unfold ms_free. case_bool_decide as Hp; [|done]. intros [= <-].
    split; [|by destruct Hp]. unfold ms_view. cbn. by rewrite map_filter_delete.
  - cbn. intros name real d p ret d1. case_bool_decide; [|done]. intros [= <-]. unfold ms_free. case_bool_decide; intros [= <- <-] Hr; done.
Defined.

Definition mcs_demo : mcs_mem := mk_mcs_mem true ∅ 0 1 false.
Definition demo_call (size : Z) (x : mcs_mem * mcs_sim) : mcs_mem * mcs_sim :=
  let '(_, s, d) := mcs_rtMalloc (H := mcs_sim_runtime) true size [] x.1 x.2 in (s, d).

Lemma demo_call_eq size s d : exists ret, mcs_rtMalloc (H := mcs_sim_runtime) true size [] s d = (ret, (demo_call size (s, d)).1, (demo_call size (s, d)).2).
Proof. unfold demo_call. cbn. destruct (mcs_rtMalloc true size [] s d) as [[ret s1] d1]. by exists ret. Qed.



Lemma mcs_freed_stays_charged_witness :
  exists s1 s2 s3 s4 d1 d2 d3 d4, mcs_rtMalloc (H := mcs_sim_runtime) true 1000 [] mcs_demo (McsSim ∅ 1048576) = (0, s1, d1) ∧
    mcs_rtMalloc (H := mcs_sim_runtime) true 24 [] s1 d1 = (0, s2, d2) ∧ mcs_rtFree (H := mcs_sim_runtime) 1048576 s2 d2 = (0, s3, d3) ∧
    mcs_rtFree (H := mcs_sim_runtime) 2097152 s3 d3 = (0, s4, d4) ∧ ms_view d4 = ∅ ∧ mm_used s4 = 24 ∧
    mcs_rtMalloc (H := mcs_sim_runtime) true 1048576 [] s4 d4 = (ACL_ERROR_STORAGE_OVER_LIMIT, s4, d4).
Proof.
  set (d0 := McsSim ∅ 1048576). set (d1 := ms_put 1048576 1000 d0). set (d2 := ms_put 2097152 24 d1). set (d3 := (ms_free d2 1048576).2). set (d4 := (ms_free d3 2097152).2).
  destruct (mcs_freed_stays_charged (H := mcs_sim_runtime) ms_malloc ms_free mcs_demo d0 d1 d2 d3 d4 1048576 2097152 1000 24 []) as (s1 & s2 & s3 & s4 & H1 & H2 & H3 & H4 & Hu & Hc);
    [first [reflexivity|mlia|discriminate|vm_compute; first [reflexivity|discriminate]]..|].
  exists s1, s2, s3, s4, d1, d2, d3, d4. split_and!; [exact H1|exact H2|exact H3|exact H4|vm_compute; reflexivity|exact Hu|]. apply Hc; [mlia|]. vm_compute. reflexivity.
Defined.
