(* ===== verification/McsConfig.v ===== *)
(** The configuration of the library mcs (mcs/src/mcs_config.c), the core counts
    it reports (mcs/src/mcs_device.c), the resolution of the runtime's symbols
    (mcs/src/mcs_rtapi.c) and the interposed functions (mcs/src/mcs_intercept.c).

    The file is a string, and the answers of the driver are arguments of the
    functions that ask for them.  What waits for other processes, the gate
    before a launch, is in McsSched. *)

From S2P Require Import Prelude CLib McsMem.

(** * Strings of the C library *)

Definition char_is (n : N) (c : Ascii.ascii) : bool := N.eqb (Ascii.N_of_ascii c) n.

(** The string at an address: what comes before the first zero byte. *)
Fixpoint c_str (s : string) : string :=
  match s with
  | EmptyString => EmptyString
  | String c rest => if char_is 0 c then EmptyString else String c (c_str rest)
  end.

(** [fgets] with a buffer for [n] characters: the line and the rest of the file. *)
Fixpoint fgets (n : nat) (s : string) : string * string :=
  match n, s with
  | S n, String c rest =>
    if char_is 10 c then (String c EmptyString, rest) else let '(line, r) := fgets n rest in (String c line, r)
  | _, _ => (EmptyString, s)
  end.

(** The part before the first ['='] and the part after it. *)
Fixpoint split_eq (s : string) : option (string * string) :=
  match s with
  | EmptyString => None
  | String c rest =>
    if char_is 61 c then Some (EmptyString, rest) else '(k, v) ← split_eq rest; Some (String c k, v)
  end.

(** Without the newlines, carriage returns and spaces at the end. *)
Fixpoint trim_end (s : string) : string :=
  match s with
  | EmptyString => EmptyString
  | String c rest =>
    let r := trim_end rest in
    if str_empty r && (char_is 10 c || char_is 13 c || char_is 32 c) then EmptyString else String c r
  end.

Definition is_space (c : Ascii.ascii) : bool := let n := Ascii.N_of_ascii c in N.eqb n 32 || (N.leb 9 n && N.leb n 13).
Definition digit_of (c : Ascii.ascii) : option Z :=
  let n := Z.of_N (Ascii.N_of_ascii c) in if (48 <=? n) && (n <=? 57) then Some (n - 48) else None.

Fixpoint skip_spaces (s : string) : string :=
  match s with String c rest => if is_space c then skip_spaces rest else s | EmptyString => s end.

(** The digits at the start: their number, their value and the rest. *)
Fixpoint digits (s : string) (n acc : Z) : Z * Z * string :=
  match s with
  | String c rest => match digit_of c with Some d => digits rest (n + 1) (10 * acc + d) | None => (n, acc, s) end
  | EmptyString => (n, acc, s)
  end.

Definition LONG_MAX : Z := 2 ^ 63 - 1.
Definition LONG_MIN : Z := - 2 ^ 63.

(** [strtol(s, &end, 10)]: the result, whether [errno] is set, and the string at
    [end], or [None] when nothing was read and [end] is [s]. *)
Definition strtol (s : string) : Z * bool * option string :=
  let s1 := skip_spaces s in
  let '(neg, s2) := match s1 with
                    | String c rest => if char_is 45 c then (true, rest) else if char_is 43 c then (false, rest) else (false, s1)
                    | EmptyString => (false, s1)
                    end in
  let '(n, v, rest) := digits s2 0 0 in
  if n =? 0 then (0, false, None)
  else
    let x := if (neg : bool) then - v else v in
    if LONG_MAX <? x then (LONG_MAX, true, Some rest)
    else if x <? LONG_MIN then (LONG_MIN, true, Some rest)
    else (x, false, Some rest).

(** * The configuration file *)

Definition MCS_SHM_ID_LEN : Z := 128.
Definition MCS_MAX_AICORE_QUOTA : Z := 100.
Definition MCS_MIN_AICORE_QUOTA : Z := 1.
Definition MCS_MAX_VNPU : Z := 100.
Definition MCS_MAX_LINE_LENGTH : Z := 256.
Definition MCS_KEY_SIZE : Z := 64.

Record mcs_config := mk_mcs_config {
  mc_phy_npu_id : Z;
  mc_vnpu_id : Z;
  mc_aicore_quota : Z;
  mc_memory_quota : Z;
  mc_vnpu_priority : Z;
  mc_shm_id : string;
}.

Definition mcs_config_zero : mcs_config := mk_mcs_config 0 0 0 0 0 EmptyString.

(** The flags [found_*] of the loop. *)
Record mcs_found := McsFound { fo_phy : bool; fo_vnpu : bool; fo_aicore : bool; fo_memory : bool; fo_shm : bool }.

Definition mcs_parse_line (line : string) (key_size value_size : Z) : option (string * string) :=
  '(key, val) ← split_eq line;
  if key_size <=? Z.of_nat (String.length key) then None
  else
    let value := trim_end val in
    if value_size <=? Z.of_nat (String.length value) then None else Some (key, value).

Definition mcs_parse_int32 (value : string) : option Z :=
  if str_empty value then None
  else
    let '(result, errno, endptr) := strtol value in
    match endptr with
    | None => None
    | Some rest =>
      if errno || negb (str_empty rest) then None
      else if (result <? - I32_HALF) || (I32_HALF - 1 <? result) then None
      else Some result
    end.

(** A value outside the range of its key stops the loading ([None]). *)
Definition parse_in (value : string) (low high : Z) : option Z :=
  x ← mcs_parse_int32 value; if (x <? low) || (high <? x) then None else Some x.

(** One round of the loop. *)
Definition config_line (line : string) (st : mcs_config * mcs_found) : option (mcs_config * mcs_found) :=
  let '(c, f) := st in
  match line with
  | EmptyString => Some st
  | String c0 _ =>
    if char_is 10 c0 || char_is 35 c0 then Some st
    else
      match mcs_parse_line line MCS_KEY_SIZE MCS_SHM_ID_LEN with
      | None => Some st
      | Some (key, value) =>
        let '(mk_mcs_config phy vnpu aicore memory prio shm) := c in
        let '(McsFound f1 f2 f3 f4 f5) := f in
        if String.eqb key "physical-npu-id" then
          x ← parse_in value 0 (I32_HALF - 1); Some (mk_mcs_config x vnpu aicore memory prio shm, McsFound true f2 f3 f4 f5)
        else if String.eqb key "virtual-npu-id" then
          x ← parse_in value 0 (MCS_MAX_VNPU - 1); Some (mk_mcs_config phy x aicore memory prio shm, McsFound f1 true f3 f4 f5)
        else if String.eqb key "aicore-quota" then
          x ← parse_in value MCS_MIN_AICORE_QUOTA MCS_MAX_AICORE_QUOTA; Some (mk_mcs_config phy vnpu x memory prio shm, McsFound f1 f2 true f4 f5)
        else if String.eqb key "memory-quota" then
          x ← mcs_parse_int32 value; Some (mk_mcs_config phy vnpu aicore x prio shm, McsFound f1 f2 f3 true f5)
        else if String.eqb key "vnpu_priority" then
          x ← parse_in value 0 1; Some (mk_mcs_config phy vnpu aicore memory x shm, f)
        else if String.eqb key "priority" then
          x ← parse_in value 0 1; Some (mk_mcs_config phy vnpu aicore memory x shm, f)
        else if String.eqb key "shm-id" then
          Some (mk_mcs_config phy vnpu aicore memory prio (prefix_of_len (Z.to_nat MCS_SHM_ID_LEN - 1) value), McsFound f1 f2 f3 f4 true)
        else Some st
      end
  end.

(** The loop over the lines; [fuel] is at least the length of the file. *)
Fixpoint config_lines (fuel : nat) (file : string) (st : mcs_config * mcs_found) : option (mcs_config * mcs_found) :=
  match fuel with
  | O => Some st
  | S fuel =>
    if str_empty file then Some st
    else
      let '(line, rest) := fgets (Z.to_nat MCS_MAX_LINE_LENGTH - 1) file in
      st1 ← config_line (c_str line) st; config_lines fuel rest st1
  end.

(** [file] is the content of the file, [None] if it cannot be opened. *)
Definition mcs_load_config (file : option string) (cfg : mcs_config) : Z * mcs_config :=
  match file with
  | None => (-1, cfg)
  | Some text =>
    match config_lines (String.length text) text (cfg, McsFound false false false false false) with
    | None => (-1, mcs_config_zero)
    | Some (c, f) =>
      if negb (fo_phy f) || negb (fo_vnpu f) || negb (fo_aicore f) || negb (fo_memory f) || negb (fo_shm f) then (-1, mcs_config_zero)
      else if (mc_aicore_quota c <? MCS_MIN_AICORE_QUOTA) || (MCS_MAX_AICORE_QUOTA <? mc_aicore_quota c) then (-1, mcs_config_zero)
      else if 1 <? mc_vnpu_priority c then (-1, mcs_config_zero)
      else if mc_phy_npu_id c <? 0 then (-1, mcs_config_zero)
      else if mc_memory_quota c <=? 0 then (-1, mcs_config_zero)
      else (0, c)
    end
  end.

(** * The counts of the cores *)

(** [None]: the product is beyond [INT32_MAX]. *)
Definition mcs_calc_limited_aicore (physical_count quota_percent : Z) : option Z :=
  if (physical_count <=? 0) || (quota_percent <=? 0) then Some 0
  else if I32_HALF <=? physical_count * quota_percent then None
  else
    let result := Z.quot (physical_count * quota_percent) 100 in
    Some (if result <? 1 then 1 else result).

Definition MCS_MODULE_TYPE_AICORE : Z := 4.
Definition MCS_MODULE_TYPE_VECTOR_CORE : Z := 7.
Definition MCS_INFO_TYPE_CORE_NUM : Z := 3.
Definition MCS_INFO_TYPE_CUBE_NUM : Z := 2002410074.
Definition RT_DEV_RES_CUBE_CORE : Z := 0.
Definition RT_DEV_RES_TYPE_MAX : Z := 2.

Record mcs_device := mk_mcs_device {
  dv_physical_aicube : Z;
  dv_physical_aivector : Z;
  dv_limited_aicube : Z;
  dv_limited_aivector : Z;
  dv_initialized : bool;
}.

Definition mcs_device_init (physical_aicube physical_aivector quota_percent : Z) : option mcs_device :=
  c ← mcs_calc_limited_aicore physical_aicube quota_percent;
  v ← mcs_calc_limited_aicore physical_aivector quota_percent;
  Some (mk_mcs_device physical_aicube physical_aivector c v true).

(** The code and [*val], for a [val] that is not NULL. *)
Definition mcs_rtGetDeviceInfo_hook (dv : mcs_device) (moduleType infoType : Z) : Z * option Z :=
  if negb (dv_initialized dv) then (-1, None)
  else if (moduleType =? MCS_MODULE_TYPE_AICORE) && ((infoType =? MCS_INFO_TYPE_CORE_NUM) || (infoType =? MCS_INFO_TYPE_CUBE_NUM)) then (0, Some (dv_limited_aicube dv))
  else if (moduleType =? MCS_MODULE_TYPE_VECTOR_CORE) && (infoType =? MCS_INFO_TYPE_CORE_NUM) then (0, Some (dv_limited_aivector dv))
  else (-1, None).

(** * The symbols of the runtime *)

Definition kNames : list string :=
  ["rtSetDevice"; "rtGetDeviceInfo"; "rtGetAiCoreCount"; "rtKernelLaunch"; "rtKernelLaunchWithHandle"; "rtKernelLaunchWithHandleV2";
   "rtKernelLaunchWithFlag"; "rtKernelLaunchWithFlagV2"; "rtVectorCoreKernelLaunchWithHandle"; "rtVectorCoreKernelLaunch"; "rtKernelLaunchEx";
   "rtKernelLaunchFwk"; "rtLaunchKernelByFuncHandle"; "rtLaunchKernelByFuncHandleV2"; "rtLaunchKernelByFuncHandleV3";
   "rtsLaunchKernelWithDevArgs"; "rtsLaunchKernelWithConfig"; "rtsLaunchKernelWithHostArgs"; "rtLaunchKernelWithArgsArray";
   "rtsGetResInCurrentThread"].

Section symbols.
Context {F : Type}.

(** The answers of one call: whether [dlopen] succeeds, the seconds of the clock
    at the two tests of the window, and [dlsym] on [RTLD_NEXT], [RTLD_DEFAULT]
    and the library. *)
Record sym_env := SymEnv {
  se_dlopen : bool;
  se_sec1 : Z;
  se_sec2 : Z;
  se_next : string -> option F;
  se_default : string -> option F;
  se_library : string -> option F;
}.

(** For each name the function and its bit of [attempted]: the pointers
    [real_*] and the entries of [rt_library_entry]; then whether
    [g_runtime_handle] is set and the second of the last window. *)
Record symbols := Symbols {
  sy_real : list (option F * bool);
  sy_entry : list (string * (option F * bool));
  sy_handle : bool;
  sy_last : option Z;
}.

Definition mcs_open_runtime (env : sym_env) (st : symbols) : bool * symbols :=
  let h := sy_handle st || se_dlopen env in (h, Symbols (sy_real st) (sy_entry st) h (sy_last st)).

Definition mcs_retry_window_open (sec : Z) (st : symbols) : bool * symbols :=
  if match sy_last st with None => true | Some l => 2 <=? sec - l end
  then (true, Symbols (sy_real st) (sy_entry st) (sy_handle st) (Some sec)) else (false, st).

Definition or_else (a b : option F) : option F := match a with Some _ => a | None => b end.

Definition load_entry (env : sym_env) (available : bool) (name : string) (x : option F * bool) : option F * bool :=
  match x.1 with
  | Some _ => x
  | None =>
    if negb available && x.2 then x
    else (or_else (or_else (se_default env name) (se_next env name)) (if available then se_library env name else None), true)
  end.

Definition load_rt_libraries (env : sym_env) (st : symbols) : symbols :=
  let '(available, st1) := mcs_open_runtime env st in
  let '(go, st2) := if available then (true, st1) else mcs_retry_window_open (se_sec2 env) st1 in
  if negb go then st2
  else Symbols (sy_real st2) ((fun e => (e.1, load_entry env available e.1 e.2)) <$> sy_entry st2) (sy_handle st2) (sy_last st2).

Definition load_real (env : sym_env) (available : bool) (name : string) (x : option F * bool) : option F * bool :=
  if (match x.1 with Some _ => true | None => false end) || x.2 then x
  else
    let f := or_else (se_next env name) (if available then se_library env name else None) in
    (f, match f with None => true | Some _ => x.2 end).

Definition load_real_functions (env : sym_env) (st : symbols) : symbols :=
  let '(available, st1) := mcs_open_runtime env st in
  let '(go, st2) := if available then (true, st1) else mcs_retry_window_open (se_sec1 env) st1 in
  if negb go then load_rt_libraries env st2
  else load_rt_libraries env (Symbols (zip_with (load_real env available) kNames (sy_real st2)) (sy_entry st2) (sy_handle st2) (sy_last st2)).

(** The state at the start of the process. *)
Definition symbols_start (entries : list string) : symbols :=
  Symbols ((fun _ => (None, false)) <$> kNames) ((fun n => (n, (None, false))) <$> entries) false None.

End symbols.
Arguments sym_env : clear implicits.
Arguments symbols : clear implicits.

(** * The interposed functions *)

(** The globals of mcs_intercept.c, mcs_config.c and mcs_device.c, and those of
    the memory quota. *)
Record mcs_process := mk_mcs_process {
  pr_initialized : bool;
  pr_attached : bool;
  pr_vnpu_id : Z;
  pr_config : mcs_config;
  pr_device : mcs_device;
  pr_lazy_aicube : Z;
  pr_mem : mcs_mem;
}.

(** The content of the configuration file, the functions of the driver that are
    resolved, with their answers, and the code of [mcs_shm_init]. *)
Record mcs_env := mk_mcs_env {
  me_file : option string;
  me_set_device : option (Z -> Z);
  me_core_count : option (Z * Z);
  me_device_info : option (Z -> Z -> Z -> Z * option Z);
  me_shm : Z;
  me_thread_res : option (Z -> Z * option Z);
}.

(** The quota of the memory is a field of the configuration. *)
Definition set_pr_config (c : mcs_config) (p : mcs_process) : mcs_process :=
  let m := pr_mem p in
  mk_mcs_process (pr_initialized p) (pr_attached p) (pr_vnpu_id p) c (pr_device p) (pr_lazy_aicube p)
    (mk_mcs_mem (mm_active m) (mm_track m) (mm_used m) (mc_memory_quota c) (mm_in_guard m)).
Definition set_pr_vnpu (v : Z) (p : mcs_process) : mcs_process :=
  mk_mcs_process (pr_initialized p) (pr_attached p) v (pr_config p) (pr_device p) (pr_lazy_aicube p) (pr_mem p).
Definition set_pr_device (dv : mcs_device) (p : mcs_process) : mcs_process :=
  mk_mcs_process (pr_initialized p) (pr_attached p) (pr_vnpu_id p) (pr_config p) dv (pr_lazy_aicube p) (pr_mem p).
Definition set_pr_lazy (n : Z) (p : mcs_process) : mcs_process :=
  mk_mcs_process (pr_initialized p) (pr_attached p) (pr_vnpu_id p) (pr_config p) (pr_device p) n (pr_mem p).
Definition set_pr_running (p : mcs_process) : mcs_process :=
  mk_mcs_process true true (pr_vnpu_id p) (pr_config p) (pr_device p) (pr_lazy_aicube p) (activate_mem_hooks (pr_mem p)).

(** The number of cube cores: the static one, or the one of the device. *)
Definition physical_cubes (env : mcs_env) : Z :=
  let n := match me_core_count env with Some (ret, v) => if ret =? 0 then v else 0 | None => 0 end in
  if n <=? 0 then match me_device_info env with Some f => default n (f 0 MCS_MODULE_TYPE_AICORE MCS_INFO_TYPE_CORE_NUM).2 | None => n end else n.

Definition physical_vectors (env : mcs_env) : Z :=
  match me_device_info env with Some f => default 0 (f 0 MCS_MODULE_TYPE_VECTOR_CORE MCS_INFO_TYPE_CORE_NUM).2 | None => 0 end.

(** [None]: undefined, a count of cores beyond [INT32_MAX] / quota. *)
Definition mcs_do_init (env : mcs_env) (p : mcs_process) : option (Z * mcs_process) :=
  if pr_initialized p then Some (0, p)
  else
    let '(ret, c) := mcs_load_config (me_file env) (pr_config p) in
    let p1 := set_pr_config c p in
    if negb (ret =? 0) then Some (-1, p1)
    else
      let p2 := set_pr_vnpu (mc_vnpu_id c) p1 in
      if (pr_vnpu_id p2 <? 0) || (MCS_MAX_VNPU <=? pr_vnpu_id p2) then Some (-1, p2)
      else
        let aicube := physical_cubes env in
        if aicube <=? 0 then Some (-1, p2)
        else
          dv ← mcs_device_init (i32 aicube) (i32 (physical_vectors env)) (mc_aicore_quota c);
          let p3 := set_pr_device dv p2 in
          if negb (me_shm env =? 0) then Some (-1, p3) else Some (0, set_pr_running p3).

Definition mcs_rtSetDevice (devId : Z) (env : mcs_env) (p : mcs_process) : option (Z * mcs_process) :=
  '(ret, p1) ← mcs_do_init env p;
  if negb (ret =? 0) then Some (-1, p1)
  else Some (match me_set_device env with Some real => real devId | None => -1 end, p1).

(** The code and [*val]; [val] is not NULL. *)
Definition mcs_rtGetDeviceInfo (deviceId moduleType infoType : Z) (env : mcs_env) (p : mcs_process) : Z * option Z :=
  let pass := match me_device_info env with Some real => real deviceId moduleType infoType | None => (-1, None) end in
  if pr_initialized p then
    let '(ret, v) := mcs_rtGetDeviceInfo_hook (pr_device p) moduleType infoType in
    if ret =? 0 then (0, v) else pass
  else pass.

Definition mcs_lazy_limited_aicube (env : mcs_env) (p : mcs_process) : option (Z * mcs_process) :=
  if 0 <? pr_lazy_aicube p then Some (pr_lazy_aicube p, p)
  else
    match me_core_count env with
    | None => Some (0, p)
    | Some (ret, physical) =>
      let '(lret, p1) := if mc_aicore_quota (pr_config p) <=? 0 then let '(r, c) := mcs_load_config (me_file env) (pr_config p) in (r, set_pr_config c p) else (0, p) in
      if negb (lret =? 0) then Some (0, p1)
      else if negb (ret =? 0) || (physical =? 0) then Some (0, p1)
      else
        n ← mcs_calc_limited_aicore (i32 physical) (mc_aicore_quota (pr_config p1));
        Some (uint32 n, set_pr_lazy (uint32 n) p1)
    end.

(** The code and [*aiCoreCnt]; [aiCoreCnt] is not NULL. *)
Definition mcs_rtGetAiCoreCount (env : mcs_env) (p : mcs_process) : option (Z * option Z * mcs_process) :=
  if pr_initialized p then Some (0, Some (uint32 (dv_limited_aicube (pr_device p))), p)
  else
    '(limited, p1) ← mcs_lazy_limited_aicube env p;
    if 0 <? limited then Some (0, Some limited, p1)
    else
      match me_core_count env with
      | Some (ret, v) => Some (ret, (if ret =? 0 then Some v else None), p1)
      | None => Some (-1, None, p1)
      end.

Definition mcs_rtsGetResInCurrentThread (type : Z) (env : mcs_env) (p : mcs_process) : Z * option Z :=
  if pr_initialized p && (0 <=? type) && (type <? RT_DEV_RES_TYPE_MAX) then
    (0, Some (uint32 (if type =? RT_DEV_RES_CUBE_CORE then dv_limited_aicube (pr_device p) else dv_limited_aivector (pr_device p))))
  else match me_thread_res env with Some real => real type | None => (-1, None) end.

(** What a launch asks of the gate: the vNPU and its priority, unless the
    process is not initialised. *)
Definition mcs_before_kernel_launch (p : mcs_process) : option (Z * Z) :=
  if negb (pr_initialized p) || negb (pr_attached p) then None else Some (pr_vnpu_id p, mc_vnpu_priority (pr_config p)).

(** The pointer [real_<name>]. *)
Definition real_of {F} (name : string) (st : symbols F) : option F :=
  '(_, (_, x)) ← list_find (fun e : string * (option F * bool) => e.1 = name) (zip kNames (sy_real st)); x.1.

(** The common body of the launches: the gate, then the driver with the same
    arguments. *)
Definition mcs_launch (name : string) (args : list Z) (st : symbols (list Z -> Z)) (p : mcs_process) : option (Z * Z) * Z :=
  (mcs_before_kernel_launch p, match real_of name st with Some real => real args | None => -1 end).

Definition mcs_rtKernelLaunch := mcs_launch "rtKernelLaunch".
Definition mcs_rtKernelLaunchWithHandle := mcs_launch "rtKernelLaunchWithHandle".
Definition mcs_rtKernelLaunchWithHandleV2 := mcs_launch "rtKernelLaunchWithHandleV2".
Definition mcs_rtKernelLaunchWithFlag := mcs_launch "rtKernelLaunchWithFlag".
Definition mcs_rtKernelLaunchWithFlagV2 := mcs_launch "rtKernelLaunchWithFlagV2".
Definition mcs_rtVectorCoreKernelLaunchWithHandle := mcs_launch "rtVectorCoreKernelLaunchWithHandle".
Definition mcs_rtVectorCoreKernelLaunch := mcs_launch "rtVectorCoreKernelLaunch".
Definition mcs_rtKernelLaunchEx := mcs_launch "rtKernelLaunchEx".
Definition mcs_rtKernelLaunchFwk := mcs_launch "rtKernelLaunchFwk".
Definition mcs_rtLaunchKernelByFuncHandle := mcs_launch "rtLaunchKernelByFuncHandle".
Definition mcs_rtLaunchKernelByFuncHandleV2 := mcs_launch "rtLaunchKernelByFuncHandleV2".
Definition mcs_rtLaunchKernelByFuncHandleV3 := mcs_launch "rtLaunchKernelByFuncHandleV3".
Definition mcs_rtsLaunchKernelWithDevArgs := mcs_launch "rtsLaunchKernelWithDevArgs".
Definition mcs_rtsLaunchKernelWithConfig := mcs_launch "rtsLaunchKernelWithConfig".
Definition mcs_rtsLaunchKernelWithHostArgs := mcs_launch "rtsLaunchKernelWithHostArgs".
Definition mcs_rtLaunchKernelWithArgsArray := mcs_launch "rtLaunchKernelWithArgsArray".

(** The interposed launches, by name. *)
Definition mcs_launches : list (string * (list Z -> symbols (list Z -> Z) -> mcs_process -> option (Z * Z) * Z)) :=
  [("rtKernelLaunch", mcs_rtKernelLaunch); ("rtKernelLaunchWithHandle", mcs_rtKernelLaunchWithHandle);
   ("rtKernelLaunchWithHandleV2", mcs_rtKernelLaunchWithHandleV2); ("rtKernelLaunchWithFlag", mcs_rtKernelLaunchWithFlag);
   ("rtKernelLaunchWithFlagV2", mcs_rtKernelLaunchWithFlagV2); ("rtVectorCoreKernelLaunchWithHandle", mcs_rtVectorCoreKernelLaunchWithHandle);
   ("rtVectorCoreKernelLaunch", mcs_rtVectorCoreKernelLaunch); ("rtKernelLaunchEx", mcs_rtKernelLaunchEx);
   ("rtKernelLaunchFwk", mcs_rtKernelLaunchFwk); ("rtLaunchKernelByFuncHandle", mcs_rtLaunchKernelByFuncHandle);
   ("rtLaunchKernelByFuncHandleV2", mcs_rtLaunchKernelByFuncHandleV2); ("rtLaunchKernelByFuncHandleV3", mcs_rtLaunchKernelByFuncHandleV3);
   ("rtsLaunchKernelWithDevArgs", mcs_rtsLaunchKernelWithDevArgs); ("rtsLaunchKernelWithConfig", mcs_rtsLaunchKernelWithConfig);
   ("rtsLaunchKernelWithHostArgs", mcs_rtsLaunchKernelWithHostArgs); ("rtLaunchKernelWithArgsArray", mcs_rtLaunchKernelWithArgsArray)].

(** * Facts *)

(** The state of a name after the first search with the result [f]. *)
Definition decided {F} (f : option F) : option F * bool := (f, match f with None => true | Some _ => false end).

Section symbol_facts.
Context {F : Type}.
Implicit Types (st : symbols F) (env : sym_env F).

Lemma load_rt_libraries_real env st : sy_real (load_rt_libraries env st) = sy_real st.
Proof. unfold load_rt_libraries, mcs_open_runtime, mcs_retry_window_open. cbn. by repeat case_match; simplify_eq. Qed.

Definition first_search (env : sym_env F) (name : string) : option F := or_else (se_next env name) (if se_dlopen env then se_library env name else None).

Lemma first_load env entries : sy_real (load_real_functions env (symbols_start entries)) = (fun n => decided (first_search env n)) <$> kNames.
Proof.
  unfold load_real_functions, mcs_open_runtime, mcs_retry_window_open, symbols_start. cbn -[kNames load_rt_libraries zip_with].
  assert (E : forall a, a = se_dlopen env -> zip_with (load_real env a) kNames ((fun _ => (None, false)) <$> kNames) = (fun n => decided (first_search env n)) <$> kNames).
  { intros a ->. generalize kNames as l. induction l as [|n l IH]; [done|]. cbn [fmap list_fmap zip_with]. rewrite IH. by unfold load_real, decided, first_search; cbn; destruct (or_else _ _). }
  destruct (se_dlopen env) eqn:Eo; cbn -[kNames load_rt_libraries zip_with]; rewrite load_rt_libraries_real; by apply E.
Qed.

Lemma load_decided env st g : sy_real st = (fun n => decided (g n)) <$> kNames -> sy_real (load_real_functions env st) = (fun n => decided (g n)) <$> kNames.
Proof.
  intros Hst. assert (E : forall a, zip_with (load_real env a) kNames (sy_real st) = sy_real st).
  { intros a. rewrite Hst. generalize kNames as l. induction l as [|n l IH]; [done|]. cbn [fmap list_fmap zip_with]. rewrite IH. f_equal. unfold load_real, decided. by destruct (g n). }
  unfold load_real_functions, mcs_open_runtime, mcs_retry_window_open. cbn -[kNames load_rt_libraries zip_with].
  repeat case_match; simplify_eq; rewrite load_rt_libraries_real; cbn [sy_real] in *; by rewrite ?E.
Qed.

Lemma real_of_decided st g name : sy_real st = (fun n => decided (g n)) <$> kNames -> name ∈ kNames -> real_of name st = g name.
Proof.
  intros Hst Hn. unfold real_of. rewrite Hst. unfold kNames in Hn. rewrite !elem_of_cons, elem_of_nil in Hn. destruct_or! Hn; try done; subst name; reflexivity.
Qed.

End symbol_facts.

(** The symbols after a first call and any later ones. *)
Definition symbols_after {F} (entries : list string) (env : sym_env F) (envs : list (sym_env F)) : symbols F :=
  foldl (fun st e => load_real_functions e st) (load_real_functions env (symbols_start entries)) envs.

Lemma symbols_after_real {F} (env : sym_env F) entries envs name : name ∈ kNames -> real_of name (symbols_after entries env envs) = first_search env name.
Proof.
  intros Hn. apply real_of_decided; [|done]. unfold symbols_after. pose proof (first_load env entries) as E. revert E. generalize (load_real_functions env (symbols_start entries)).
  induction envs as [|e envs IH]; intros st E; cbn [foldl]; [done|]. apply IH. by apply load_decided.
Qed.

(** The first search decides.  Whatever later calls of
    [load_real_functions] find, the pointers are those of the first one: a
    symbol that is missing then, because the runtime is not loaded yet, is never
    looked up again.  Each of the sixteen launches asks the gate and calls the
    function of its name with the same arguments, or fails when that first
    search did not find it. *)
Theorem mcs_first_search_decides entries (env : sym_env (list Z -> Z)) envs :
  (forall name, name ∈ kNames -> real_of name (symbols_after entries env envs) = first_search env name) ∧
  (forall name launch args p, (name, launch) ∈ mcs_launches ->
    launch args (symbols_after entries env envs) p = (mcs_before_kernel_launch p, match first_search env name with Some real => real args | None => -1 end)).
Proof.
  split; [intros name; apply symbols_after_real|]. intros name launch args p Hl.
  assert (launch = mcs_launch name ∧ name ∈ kNames) as [-> Hn].
  { unfold mcs_launches in Hl. rewrite !elem_of_cons, elem_of_nil in Hl. destruct_or! Hl; try done; injection Hl as -> ->; (split; [reflexivity|unfold kNames; set_solver]). }
  unfold mcs_launch. by rewrite symbols_after_real.
Qed.

(** * What a loaded configuration guarantees *)

Record config_ok (c : mcs_config) : Prop := {
  co_phy : 0 <= mc_phy_npu_id c < I32_HALF;
  co_vnpu : 0 <= mc_vnpu_id c < MCS_MAX_VNPU;
  co_aicore : MCS_MIN_AICORE_QUOTA <= mc_aicore_quota c <= MCS_MAX_AICORE_QUOTA;
  co_memory : 0 < mc_memory_quota c < I32_HALF;
  co_priority : mc_vnpu_priority c = 0 ∨ mc_vnpu_priority c = 1;
  co_shm : (String.length (mc_shm_id c) < Z.to_nat MCS_SHM_ID_LEN)%nat;
}.

(** What the loop has established of the keys found so far. *)
Record loading (st : mcs_config * mcs_found) : Prop := {
  lo_phy : fo_phy st.2 = true -> 0 <= mc_phy_npu_id st.1 < I32_HALF;
  lo_vnpu : fo_vnpu st.2 = true -> 0 <= mc_vnpu_id st.1 < MCS_MAX_VNPU;
  lo_aicore : fo_aicore st.2 = true -> MCS_MIN_AICORE_QUOTA <= mc_aicore_quota st.1 <= MCS_MAX_AICORE_QUOTA;
  lo_memory : fo_memory st.2 = true -> mc_memory_quota st.1 < I32_HALF;
  lo_priority : 0 <= mc_vnpu_priority st.1;
  lo_shm : fo_shm st.2 = true -> (String.length (mc_shm_id st.1) < Z.to_nat MCS_SHM_ID_LEN)%nat;
}.

Lemma parse_int32_range value x : mcs_parse_int32 value = Some x -> is_i32 x.
Proof.
  unfold mcs_parse_int32. destruct (str_empty value); [done|]. destruct (strtol value) as [[r e] [rest|]]; [|done]. destruct (e || negb (str_empty rest)); [done|].
  destruct (Z.ltb_spec r (- I32_HALF)), (Z.ltb_spec (I32_HALF - 1) r); cbn; try done. intros [= <-]. mlia.
Qed.

Lemma parse_in_range value low high x : parse_in value low high = Some x -> low <= x <= high.
Proof.
  unfold parse_in. destruct (mcs_parse_int32 value) as [y|]; cbn; [|done]. destruct (Z.ltb_spec y low), (Z.ltb_spec high y); cbn; try done. intros [= <-]. lia.
Qed.

Lemma config_line_loading line st st1 : loading st -> config_line line st = Some st1 -> loading st1.
Proof.
  destruct st as [[phy vnpu aicore memory prio shm] [f1 f2 f3 f4 f5]]. intros [L1 L2 L3 L4 L5 L6]. cbn in *. unfold config_line. destruct line as [|c0 line]; [by intros [= <-]|].
  destruct (char_is 10 c0 || char_is 35 c0); [by intros [= <-]|]. destruct (mcs_parse_line _ _ _) as [[key value]|]; [|by intros [= <-]].
  assert (Hshm : (String.length (prefix_of_len (Z.to_nat MCS_SHM_ID_LEN - 1) value) < Z.to_nat MCS_SHM_ID_LEN)%nat).
  { rewrite prefix_of_len_length. change (Z.to_nat MCS_SHM_ID_LEN) with 128%nat. lia. }
  repeat (destruct (String.eqb key _); [first [destruct (parse_in value _ _) as [x|] eqn:E; [|done]; apply parse_in_range in E|destruct (mcs_parse_int32 value) as [x|] eqn:E; [|done]; apply parse_int32_range in E|idtac];
    intros [= <-]; constructor; cbn; intros; first [by auto|mlia]|]).
  by intros [= <-].
Qed.

Lemma config_lines_loading fuel : forall file st st1, loading st -> config_lines fuel file st = Some st1 -> loading st1.
Proof.
  induction fuel as [|fuel IH]; intros file st st1 Hl; cbn [config_lines]; [by intros [= <-]|]. destruct (str_empty file); [by intros [= <-]|].
  destruct (fgets _ file) as [line rest]. destruct (config_line (c_str line) st) as [st2|] eqn:E; [|done]. cbn. apply IH. by apply (config_line_loading (c_str line) st).
Qed.

(** The fuel is enough: a line has at least one character. *)
Lemma fgets_shorter n s : str_empty s = false -> (String.length (fgets (S n) s).2 < String.length s)%nat.
Proof.
  assert (H : forall n s, (String.length (fgets n s).2 <= String.length s)%nat).
  { clear. induction n as [|n IH]; intros [|c s]; cbn; try lia. destruct (char_is 10 c); cbn; [lia|]. specialize (IH s). destruct (fgets n s). cbn in *. lia. }
  destruct s as [|c s]; [done|]. intros _. cbn. destruct (char_is 10 c); cbn; [lia|]. specialize (H n s). destruct (fgets n s). cbn in *. lia.
Qed.

Lemma config_lines_fuel n : forall file st m, (String.length file <= n)%nat -> config_lines (n + m) file st = config_lines n file st.
Proof.
  induction n as [|n IH]; intros file st m Hn.
  - destruct file; [|cbn in Hn; lia]. by destruct m.
  - cbn [config_lines Nat.add]. destruct (str_empty file) eqn:E; [done|]. change (Z.to_nat MCS_MAX_LINE_LENGTH - 1)%nat with 255%nat.
    pose proof (fgets_shorter 254 file E) as HS. destruct (fgets 255 file) as [line rest]. cbn [snd] in HS. destruct (config_line (c_str line) st) as [st1|]; [|done]. cbn. apply IH. lia.
Qed.

Lemma load_config_ok file cfg c : 0 <= mc_vnpu_priority cfg -> mcs_load_config file cfg = (0, c) -> config_ok c.
Proof.
  intros Hp. unfold mcs_load_config. destruct file as [text|]; [|done]. destruct (config_lines _ _ _) as [[c1 f]|] eqn:E; [|done].
  apply config_lines_loading in E as [L1 L2 L3 L4 L5 L6]; [|by constructor]. cbn in *. destruct f as [[] [] [] [] []]; cbn in *; try done.
  destruct (Z.ltb_spec (mc_aicore_quota c1) MCS_MIN_AICORE_QUOTA), (Z.ltb_spec MCS_MAX_AICORE_QUOTA (mc_aicore_quota c1)); cbn; try done.
  destruct (Z.ltb_spec 1 (mc_vnpu_priority c1)); [done|]. destruct (Z.ltb_spec (mc_phy_npu_id c1) 0); [done|]. destruct (Z.leb_spec (mc_memory_quota c1) 0); [done|].
  intros [= <-]. specialize (L1 eq_refl). specialize (L4 eq_refl). constructor; auto; lia.
Qed.

Lemma mcs_config_result file cfg ret c : ret <> 0 -> mcs_load_config file cfg = (ret, c) -> c = mcs_config_zero ∨ c = cfg.
Proof. intros Hr. unfold mcs_load_config. destruct file as [text|]; [|intros [= _ <-]; by right]. intros E. left. by repeat case_match; simplify_eq. Qed.

(** C35. A configuration that loads is valid: the vNPU indexes the shared arrays,
    the quotas are in their ranges, the priority is 0 or 1 and the name of the
    shared memory fits its field.  A file that is refused leaves the
    configuration zero, and a file that cannot be opened leaves it as it is. *)
Theorem mcs_config_valid file cfg : 0 <= mc_vnpu_priority cfg ->
  let '(ret, c) := mcs_load_config file cfg in
  (ret = 0 ∧ config_ok c) ∨ (ret = -1 ∧ c = mcs_config_zero) ∨ (ret = -1 ∧ file = None ∧ c = cfg).
Proof.
  intros Hp. destruct (mcs_load_config file cfg) as [ret c] eqn:E. destruct (decide (ret = 0)) as [->|Hr]; [left; split; [done|by apply (load_config_ok file cfg)]|right].
  unfold mcs_load_config in E. destruct file as [text|]; [left|by simplify_eq; right]. by repeat case_match; simplify_eq.
Qed.

(** * Core counts *)

Lemma limited_eq n quota c : 0 < n -> MCS_MIN_AICORE_QUOTA <= quota <= MCS_MAX_AICORE_QUOTA -> mcs_calc_limited_aicore n quota = Some c ->
  c = Z.max 1 (n * quota / 100) ∧ 1 <= c <= n.
Proof.
  unfold MCS_MIN_AICORE_QUOTA, MCS_MAX_AICORE_QUOTA. intros Hn Hq. unfold mcs_calc_limited_aicore. rewrite (proj2 (Z.leb_gt n 0)), (proj2 (Z.leb_gt quota 0)) by lia. cbn [orb].
  destruct (Z.leb_spec I32_HALF (n * quota)); [done|]. rewrite Z.quot_div_nonneg by nia. intros [= <-].
  assert (n * quota / 100 <= n) by (apply Z.div_le_upper_bound; nia). destruct (Z.ltb_spec (n * quota / 100) 1); lia.
Qed.

(** The limit of cube cores that the process reports. *)
Definition reports_cubes (n : Z) (p : mcs_process) : Prop :=
  forall env dev, mcs_rtGetAiCoreCount env p = Some (0, Some n, p) ∧
    mcs_rtGetDeviceInfo dev MCS_MODULE_TYPE_AICORE MCS_INFO_TYPE_CORE_NUM env p = (0, Some n) ∧
    mcs_rtGetDeviceInfo dev MCS_MODULE_TYPE_AICORE MCS_INFO_TYPE_CUBE_NUM env p = (0, Some n) ∧
    mcs_rtsGetResInCurrentThread RT_DEV_RES_CUBE_CORE env p = (0, Some n).

Lemma uint32_small x : 0 <= x < I32_HALF -> uint32 x = x.
Proof. intros Hx. unfold uint32. apply Z.mod_small. mlia. Qed.

(** A successful initialisation, step by step. *)
Lemma do_init_running env p p1 : pr_initialized p = false -> 0 <= mc_vnpu_priority (pr_config p) -> mcs_do_init env p = Some (0, p1) ->
  exists c dv, mcs_load_config (me_file env) (pr_config p) = (0, c) ∧ config_ok c ∧ 0 < physical_cubes env ∧
    mcs_device_init (i32 (physical_cubes env)) (i32 (physical_vectors env)) (mc_aicore_quota c) = Some dv ∧
    p1 = set_pr_running (set_pr_device dv (set_pr_vnpu (mc_vnpu_id c) (set_pr_config c p))).
Proof.
  intros Hi Hp. unfold mcs_do_init. rewrite Hi. destruct (mcs_load_config (me_file env) (pr_config p)) as [ret c] eqn:El. destruct (Z.eqb_spec ret 0) as [->|]; cbn [negb]; [|done].
  pose proof (load_config_ok _ _ _ Hp El) as Hok. destruct ((_ <? 0) || _); [done|]. destruct (Z.leb_spec (physical_cubes env) 0); [done|].
  destruct (mcs_device_init _ _ _) as [dv|] eqn:Ed; [|done]. cbn [mbind option_bind]. destruct (me_shm env =? 0); cbn [negb]; [|done]. intros [= <-]. by exists c, dv.
Qed.

Lemma do_init_fails env p r p1 : pr_initialized p = false -> r <> 0 -> mcs_do_init env p = Some (r, p1) -> pr_initialized p1 = false.
Proof.
  intros Hi Hr. unfold mcs_do_init. rewrite Hi. destruct (mcs_load_config (me_file env) (pr_config p)) as [ret c]. destruct (negb (ret =? 0)); [by intros [= <- <-]|].
  destruct ((_ <? 0) || _); [by intros [= <- <-]|]. destruct (_ <=? 0); [by intros [= <- <-]|]. destruct (mcs_device_init _ _ _); [|done]. cbn [mbind option_bind].
  destruct (negb _); [by intros [= <- <-]|]. intros [= <- _]. done.
Qed.

(** C33. Once [rtSetDevice] has initialised a process, every query reports the
    quota: the largest whole number of cube cores within the percentage of the
    device, but at least one and never more than there are; and the memory
    hooks are active with the quota of the file.  Otherwise [rtSetDevice]
    fails. *)
Theorem mcs_start_limits devId env p ret p1 :
  pr_initialized p = false -> 0 <= mc_vnpu_priority (pr_config p) -> physical_cubes env < I32_HALF -> mcs_rtSetDevice devId env p = Some (ret, p1) ->
  if pr_initialized p1 then
    exists n, config_ok (pr_config p1) ∧ n = Z.max 1 (physical_cubes env * mc_aicore_quota (pr_config p1) / 100) ∧ 1 <= n <= physical_cubes env ∧
      reports_cubes n p1 ∧ mm_active (pr_mem p1) = true ∧ get_mem_limit_quota (pr_mem p1) = mc_memory_quota (pr_config p1) * MCS_MB_TO_B
  else ret = -1.
Proof.
  intros Hi Hp Hc. unfold mcs_rtSetDevice. destruct (mcs_do_init env p) as [[r p2]|] eqn:E; [|done]. cbn [mbind option_bind]. destruct (Z.eqb_spec r 0) as [->|Hr]; cbn [negb]; intros [= <- <-].
  - destruct (do_init_running env p p2 Hi Hp E) as (c & dv & El & Hok & Hpos & Ed & ->). cbn [pr_initialized set_pr_running pr_config set_pr_device set_pr_vnpu set_pr_config pr_mem].
    rewrite (i32_small (physical_cubes env)) in Ed by mlia. unfold mcs_device_init in Ed. destruct (mcs_calc_limited_aicore (physical_cubes env) (mc_aicore_quota c)) as [n|] eqn:En; cbn in Ed; [|done].
    destruct (mcs_calc_limited_aicore (i32 (physical_vectors env)) (mc_aicore_quota c)); cbn in Ed; [|done]. injection Ed as <-. destruct (limited_eq _ _ _ Hpos (co_aicore _ Hok) En) as [Hn Hr]. exists n.
    split; [done|]. split; [done|]. split; [done|]. split; [|split; [done|]].
    + intros env1 dev. unfold mcs_rtGetAiCoreCount, mcs_rtGetDeviceInfo, mcs_rtsGetResInCurrentThread. cbn. by rewrite uint32_small by lia.
    + unfold get_mem_limit_quota. cbn [mm_quota activate_mem_hooks]. pose proof (co_memory _ Hok). rewrite (u64_small (mc_memory_quota c)) by mlia. apply u64_small. unfold MCS_MB_TO_B. mlia.
  - by rewrite (do_init_fails env p r p2 Hi Hr E).
Qed.

(** What a file says of the cores does not depend on the configuration before. *)
Definition same_found (st st1 : mcs_config * mcs_found) : Prop := st.2 = st1.2 ∧ (fo_aicore st.2 = true -> mc_aicore_quota st.1 = mc_aicore_quota st1.1).

Lemma config_line_same line st st1 : same_found st st1 -> option_Forall2 same_found (config_line line st) (config_line line st1).
Proof.
  destruct st as [[phy vnpu aicore memory prio shm] f], st1 as [[phy1 vnpu1 aicore1 memory1 prio1 shm1] f1]. intros [Hf Ha]. cbn in Hf, Ha. subst f1. destruct f as [f1 f2 f3 f4 f5].
  unfold config_line. destruct line as [|c0 line]; [by constructor|]. destruct (char_is 10 c0 || char_is 35 c0); [by constructor|]. destruct (mcs_parse_line _ _ _) as [[key value]|]; [|by constructor].
  repeat (destruct (String.eqb key _); [first [destruct (parse_in value _ _)|destruct (mcs_parse_int32 value)|idtac]; cbn; by constructor|]). by constructor.
Qed.

Lemma config_lines_same fuel : forall file st st1, same_found st st1 -> option_Forall2 same_found (config_lines fuel file st) (config_lines fuel file st1).
Proof.
  induction fuel as [|fuel IH]; intros file st st1 HS; cbn [config_lines]; [by constructor|]. destruct (str_empty file); [by constructor|]. destruct (fgets _ file) as [line rest].
  destruct (config_line_same (c_str line) st st1 HS); cbn; [by apply IH|constructor].
Qed.

Lemma load_config_same file cfg cfg1 c c1 : mcs_load_config file cfg = (0, c) -> mcs_load_config file cfg1 = (0, c1) -> mc_aicore_quota c = mc_aicore_quota c1.
Proof.
  unfold mcs_load_config. destruct file as [text|]; [|done].
  destruct (config_lines_same (String.length text) text (cfg, McsFound false false false false false) (cfg1, McsFound false false false false false)) as [[c2 f2] [c3 f3] [Hf Ha]|]; [by split| |done].
  cbn in Hf, Ha. subst f3. destruct f2 as [[] [] [] [] []]; cbn; try done. intros E1 E2.
  assert (c = c2) as -> by (clear E2; by repeat case_match; simplify_eq). assert (c1 = c3) as -> by (clear E1; by repeat case_match; simplify_eq). by apply Ha.
Qed.

(** An early query agrees with the later ones.  A query of the core count
    before [rtSetDevice] reads the file by itself and answers what all queries
    answer after a successful start, so that a value cached by the application
    is within the quota. *)
Theorem mcs_lazy_count_agrees devId env p v r x p1 ret p2 :
  pr_initialized p = false -> pr_lazy_aicube p = 0 -> pr_config p = mcs_config_zero -> me_core_count env = Some (0, v) -> 0 < v < I32_HALF ->
  mcs_rtGetAiCoreCount env p = Some (r, x, p1) -> mcs_rtSetDevice devId env p1 = Some (ret, p2) -> pr_initialized p2 = true ->
  exists n, r = 0 ∧ x = Some n ∧ n = Z.max 1 (v * mc_aicore_quota (pr_config p2) / 100) ∧ reports_cubes n p2.
Proof.
  intros Hi Hlz Hcz Hcc Hv. unfold mcs_rtGetAiCoreCount, mcs_lazy_limited_aicube. rewrite Hi, Hlz, Hcc, Hcz. cbn [Z.ltb Z.compare mc_aicore_quota mcs_config_zero]. change (0 <=? 0) with true. cbn iota.
  destruct (mcs_load_config (me_file env) mcs_config_zero) as [lret c] eqn:El.
  assert (Hcubes : physical_cubes env = v). { unfold physical_cubes. rewrite Hcc. change (0 =? 0) with true. cbn iota. by rewrite (proj2 (Z.leb_gt v 0)) by lia. }
  destruct (Z.eqb_spec lret 0) as [->|Hl].
  - cbn [negb orb]. change (negb (0 =? 0)) with false. rewrite (proj2 (Z.eqb_neq v 0)), i32_small by (try mlia; lia). cbn [orb].
    pose proof (load_config_ok _ _ _ (Z.le_refl 0 : 0 <= mc_vnpu_priority mcs_config_zero) El) as Hok. cbn [pr_config set_pr_config].
    destruct (mcs_calc_limited_aicore v (mc_aicore_quota c)) as [n|] eqn:En; [|done]. cbn [mbind option_bind]. destruct (limited_eq _ _ _ (proj1 Hv) (co_aicore _ Hok) En) as [Hn Hr].
    rewrite uint32_small by lia. rewrite (proj2 (Z.ltb_lt 0 n)) by lia. intros [= <- <- <-] Hset Hinit. exists n. split; [done|]. split; [done|].
    assert (Hprio : 0 <= mc_vnpu_priority c) by (destruct (co_priority _ Hok); lia).
    unfold mcs_rtSetDevice in Hset. destruct (mcs_do_init _ _) as [[r2 p3]|] eqn:Ed; [|done]. cbn [mbind option_bind] in Hset. destruct (Z.eqb_spec r2 0) as [->|Hr2]; cbn [negb] in Hset; injection Hset as <- <-.
    + destruct (do_init_running env (set_pr_lazy n (set_pr_config c p)) _ Hi Hprio Ed) as (c2 & dv & El2 & Hok2 & Hpos & Edv & ->). cbn [pr_config set_pr_lazy set_pr_config] in El2.
      pose proof (load_config_same _ _ _ _ _ El El2) as Hq. cbn [pr_config set_pr_running set_pr_device set_pr_vnpu set_pr_config]. rewrite <- Hq. split; [done|].
      rewrite Hcubes, (i32_small v) in Edv by mlia. unfold mcs_device_init in Edv. rewrite <- Hq, En in Edv. cbn in Edv.
      destruct (mcs_calc_limited_aicore (i32 (physical_vectors env)) (mc_aicore_quota c)); cbn in Edv; [|done]. injection Edv as <-.
      intros env1 dev. unfold mcs_rtGetAiCoreCount, mcs_rtGetDeviceInfo, mcs_rtsGetResInCurrentThread. cbn. by rewrite uint32_small by lia.
    + by rewrite (do_init_fails env (set_pr_lazy n (set_pr_config c p)) _ _ Hi Hr2 Ed) in Hinit.
  - cbn [negb mbind option_bind]. change (0 <? 0) with false. cbn iota. intros [= <- <- <-] Hset Hinit. exfalso.
    assert (Hc0 : mcs_load_config (me_file env) (pr_config (set_pr_config c p)) = (lret, c)).
    { cbn. destruct (mcs_config_result (me_file env) mcs_config_zero lret c Hl El) as [->| ->]; done. }
    unfold mcs_rtSetDevice, mcs_do_init in Hset. rewrite Hc0 in Hset. cbn [pr_initialized set_pr_config] in Hset. rewrite Hi in Hset. rewrite (proj2 (Z.eqb_neq lret 0)) in Hset by done. cbn in Hset.
    injection Hset as <- <-. cbn in Hinit. by rewrite Hi in Hinit.
Qed.

(** * Examples *)

Fixpoint text_of (l : list string) : string :=
  match l with [] => EmptyString | x :: rest => x +:+ String (Ascii.ascii_of_N 10) (text_of rest) end.

Definition mcs_demo_file : string :=
  text_of ["# mcs"; "physical-npu-id=0"; "virtual-npu-id=3"; "aicore-quota=30 "; "memory-quota=8192"; "vnpu_priority=1"; "shm-id=/mcs0"; "unknown"].

Definition mcs_demo_config : mcs_config := mk_mcs_config 0 3 30 8192 1 "/mcs0".

Definition mcs_demo_process : mcs_process :=
  mk_mcs_process false false 0 mcs_config_zero (mk_mcs_device 0 0 0 0 false) 0 (mk_mcs_mem false ∅ 0 0 false).

Definition mcs_demo_env : mcs_env := mk_mcs_env (Some mcs_demo_file) (Some (fun _ => 0)) (Some (0, 24)) (Some (fun _ _ _ => (0, Some 48))) 0 None.

Definition mcs_demo_started (p : mcs_process) : mcs_process := default p (snd <$> mcs_rtSetDevice 0 mcs_demo_env p).

Lemma mcs_config_valid_witness : mcs_load_config (Some mcs_demo_file) mcs_config_zero = (0, mcs_demo_config) ∧ config_ok mcs_demo_config.
Proof.
  pose proof (mcs_config_valid (Some mcs_demo_file) mcs_config_zero ltac:(cbn; lia)) as HV. assert (E : mcs_load_config (Some mcs_demo_file) mcs_config_zero = (0, mcs_demo_config)) by (vm_compute; reflexivity).
  rewrite E in HV. split; [done|]. destruct HV as [[_ Hok]|[[Hr _]|[Hr _]]]; [exact Hok|discriminate Hr..].
Defined.

Lemma mcs_start_limits_witness : reports_cubes 7 (mcs_demo_started mcs_demo_process).
Proof.
  pose proof (mcs_start_limits 0 mcs_demo_env mcs_demo_process 0 (mcs_demo_started mcs_demo_process) eq_refl ltac:(cbn; lia) ltac:(vm_compute; reflexivity) ltac:(vm_compute; reflexivity)) as HS.
  assert (Ei : pr_initialized (mcs_demo_started mcs_demo_process) = true) by (vm_compute; reflexivity). rewrite Ei in HS. destruct HS as (n & _ & Hn & _ & Hr & _).
  assert (E7 : n = 7) by (rewrite Hn; vm_compute; reflexivity). rewrite E7 in Hr. exact Hr.
Defined.

Lemma mcs_lazy_count_agrees_witness :
  exists p1, mcs_rtGetAiCoreCount mcs_demo_env mcs_demo_process = Some (0, Some 7, p1) ∧ reports_cubes 7 (mcs_demo_started p1).
Proof.
  set (p1 := match mcs_rtGetAiCoreCount mcs_demo_env mcs_demo_process with Some (_, _, p1) => p1 | None => mcs_demo_process end). exists p1. split; [vm_compute; reflexivity|].
  destruct (mcs_lazy_count_agrees 0 mcs_demo_env mcs_demo_process 24 0 (Some 7) p1 0 (mcs_demo_started p1)) as (n & _ & Hn & _ & Hr); [try (vm_compute; reflexivity)..|].
  - split; reflexivity.
  - injection Hn as <-. exact Hr.
Defined.
