(* ===== verification/McsSched.v ===== *)
(** The gate before the kernel launches of the library mcs and the set-up of its
    shared memory (mcs/src/mcs_sched.c).

    The processes of all vNPUs share one state.  Each runs the function as a
    sequence of atomic steps, one access to the shared state at a time; a
    schedule is a list of labels that say whose turn it is or how far the clock
    moves. *)

From S2P Require Import Prelude CLib McsConfig.

Definition MCS_MAGIC_INITIALIZING : Z := 1296257792.
Definition MCS_MAGIC_INITIALIZED : Z := 1296257793.
Definition MCS_NO_TASK_TIMEOUT_NS : Z := 5000000.
Definition MCS_HIGH_LAUNCH_BURST_DEFAULT : Z := 300.

(** [mcs_shared_state_t]; of the mutex, whether it is initialised as shared. *)
Record mcs_shared := McsShared {
  ms_mutex : bool;
  ms_last : list Z;
  ms_high_count : Z;
  ms_priority : list Z;
  ms_magic : Z;
}.

Definition set_ms_last (l : list Z) (s : mcs_shared) : mcs_shared := McsShared (ms_mutex s) l (ms_high_count s) (ms_priority s) (ms_magic s).
Definition set_ms_count (n : Z) (s : mcs_shared) : mcs_shared := McsShared (ms_mutex s) (ms_last s) n (ms_priority s) (ms_magic s).
Definition set_ms_priority (l : list Z) (s : mcs_shared) : mcs_shared := McsShared (ms_mutex s) (ms_last s) (ms_high_count s) l (ms_magic s).
Definition set_ms_magic (n : Z) (s : mcs_shared) : mcs_shared := McsShared (ms_mutex s) (ms_last s) (ms_high_count s) (ms_priority s) n.

(** A fresh page of shared memory, and what [memset] leaves. *)
Definition mcs_shared_zero : mcs_shared := McsShared false (replicate (Z.to_nat MCS_MAX_VNPU) 0) 0 (replicate (Z.to_nat MCS_MAX_VNPU) 0) 0.

Definition at_index (l : list Z) (i : Z) : Z := default 0 (l !! Z.to_nat i).

Definition bad_vnpu (v : Z) : bool := (v <? 0) || (MCS_MAX_VNPU <=? v).

(** * The single functions *)

Definition mark (v now : Z) (s : mcs_shared) : mcs_shared := set_ms_last (<[Z.to_nat v := now]> (ms_last s)) s.

Definition mcs_mark_active (v now : Z) (s : mcs_shared) : mcs_shared := if bad_vnpu v then s else mark v now s.

(** The body of the loop for the vNPU [i]. *)
Definition high_active (now my_vnpu_id : Z) (s : mcs_shared) (i : Z) : bool :=
  if i =? my_vnpu_id then false
  else if negb (at_index (ms_priority s) i =? 1) then false
  else
    let last := at_index (ms_last s) i in
    if last =? 0 then false
    else if (last <=? now) && (now - last <=? MCS_NO_TASK_TIMEOUT_NS) then true
    else (now <? last) && (last - now <=? MCS_NO_TASK_TIMEOUT_NS).

Definition mcs_has_high_priority_active (now my_vnpu_id : Z) (s : mcs_shared) : bool :=
  if bad_vnpu my_vnpu_id then false
  else if negb (at_index (ms_priority s) my_vnpu_id =? 0) then false
  else existsb (fun i => high_active now my_vnpu_id s (Z.of_nat i)) (seq 0 (Z.to_nat MCS_MAX_VNPU)).

(** The limit of a process, from its environment. *)
Definition mcs_high_launch_burst_limit (env : option string) : Z :=
  match env with
  | Some s =>
    if str_empty s then MCS_HIGH_LAUNCH_BURST_DEFAULT
    else
      let '(parsed, _, rest) := strtol s in
      match rest with
      | Some r => if str_empty r && (1 <=? parsed) then parsed else MCS_HIGH_LAUNCH_BURST_DEFAULT
      | None => MCS_HIGH_LAUNCH_BURST_DEFAULT
      end
  | None => MCS_HIGH_LAUNCH_BURST_DEFAULT
  end.

(** * The gate as steps *)

(** Where a process is in [mcs_before_launch]: outside; high priority, counted
    but not marked; at the head of the wait loop; in the search for an active
    vNPU, with its time and the next vNPU; before the test of the count; asleep;
    past the loop, because of a full burst or because nothing is active; and
    past the reset of the count. *)
Inductive gate_pc :=
  | G_idle
  | G_poll
  | G_scan (now i : Z)
  | G_count
  | G_sleep
  | G_pass (burst : bool)
  | G_mark.

(** A process: its vNPU, its priority, its place, and, for the statements, how
    often it has passed the loop, and how often because of a full burst. *)
Record launcher := Launcher { la_vnpu : Z; la_priority : Z; la_pc : gate_pc; la_passes : Z; la_bursts : Z }.

Definition set_la_pc (pc : gate_pc) (p : launcher) : launcher := Launcher (la_vnpu p) (la_priority p) pc (la_passes p) (la_bursts p).
Definition passed (burst : bool) (p : launcher) : launcher :=
  Launcher (la_vnpu p) (la_priority p) G_mark (la_passes p + 1) (la_bursts p + (if burst then 1 else 0)).

(** One access of [mcs_before_launch]; the third component says whether a launch
    of high priority has been counted. *)
Definition mcs_before_launch (limit now : Z) (p : launcher) (s : mcs_shared) : launcher * mcs_shared * bool :=
  match la_pc p with
  | G_idle =>
    if bad_vnpu (la_vnpu p) then (p, s, false)
    else if la_priority p =? 1 then (set_la_pc G_mark p, set_ms_count (u64 (ms_high_count s + 1)) s, true)
    else (set_la_pc G_poll p, s, false)
  | G_poll => ((if at_index (ms_priority s) (la_vnpu p) =? 0 then set_la_pc (G_scan now 0) p else set_la_pc (G_pass false) p), s, false)
  | G_scan t i =>
    ((if MCS_MAX_VNPU <=? i then set_la_pc (G_pass false) p
      else if high_active t (la_vnpu p) s i then set_la_pc G_count p else set_la_pc (G_scan t (i + 1)) p), s, false)
  | G_count => ((if ms_high_count s <? limit then set_la_pc G_sleep p else set_la_pc (G_pass true) p), s, false)
  | G_sleep => (set_la_pc G_poll p, s, false)
  | G_pass burst => (passed burst p, set_ms_count 0 s, false)
  | G_mark => (set_la_pc G_idle p, mark (la_vnpu p) now s, false)
  end.

(** The shared state, the clock, the processes and the number of launches of
    high priority. *)
Record gate := Gate { ga_state : mcs_shared; ga_now : Z; ga_procs : list launcher; ga_highs : Z }.

Inductive gate_label :=
  | Run (i : nat)
  | Tick (n : Z)
  | Reg (v priority : Z).

Definition gate_step (limit : Z) (g : gate) (l : gate_label) : gate :=
  match l with
  | Run i =>
    match ga_procs g !! i with
    | None => g
    | Some p =>
      let '(p1, s1, high) := mcs_before_launch limit (ga_now g) p (ga_state g) in
      Gate s1 (ga_now g) (<[i := p1]> (ga_procs g)) (ga_highs g + (if high then 1 else 0))
    end
  | Tick n => Gate (ga_state g) (ga_now g + Z.max 0 n) (ga_procs g) (ga_highs g)
  | Reg v prio => Gate (set_ms_priority (<[Z.to_nat v := prio]> (ms_priority (ga_state g))) (ga_state g)) (ga_now g) (ga_procs g) (ga_highs g)
  end.

Definition gate_run (limit : Z) (g : gate) (ls : list gate_label) : gate := foldl (gate_step limit) g ls.

(** * At most one launch of a process in a burst *)

(** All processes are outside, and nothing has been counted. *)
Definition gate_start (g : gate) : Prop :=
  ms_high_count (ga_state g) = 0 ∧ ga_highs g = 0 ∧ Forall (fun p => la_pc p = G_idle ∧ la_passes p = 0 ∧ la_bursts p = 0) (ga_procs g).

(** [h] is the number of launches of high priority at the last reset by the
    process: what it has passed in bursts is paid by those before, and what is
    counted has come since. *)
Definition burst_paid (limit : Z) (g : gate) (p : launcher) : Prop :=
  exists h, 0 <= la_bursts p ∧ la_bursts p * limit <= h ∧ h + ms_high_count (ga_state g) <= ga_highs g ∧ (la_pc p = G_pass true -> h + limit <= ga_highs g).

Record gate_inv (limit : Z) (g : gate) : Prop := {
  gi_count : 0 <= ms_high_count (ga_state g);
  gi_paid : Forall (burst_paid limit g) (ga_procs g);
}.

(** A step by one process, seen by another. *)
Lemma paid_other limit g p s1 highs procs now : 0 <= ms_high_count s1 -> ga_highs g <= highs ->
  (ms_high_count s1 - ms_high_count (ga_state g) <= highs - ga_highs g) -> burst_paid limit g p -> burst_paid limit (Gate s1 now procs highs) p.
Proof. intros H0 H1 H2 (h & P1 & P2 & P3 & P4). exists h. cbn. split_and!; [done|done|lia|]. intros E. specialize (P4 E). lia. Qed.

Lemma before_launch_count limit now p s : 0 <= ms_high_count s ->
  let '(_, s1, high) := mcs_before_launch limit now p s in 0 <= ms_high_count s1 <= ms_high_count s + (if high then 1 else 0).
Proof.
  intros H0. unfold mcs_before_launch. destruct (la_pc p); cbn; try lia. destruct (bad_vnpu _); cbn; [lia|]. destruct (_ =? 1); cbn; [|lia].
  pose proof (Z.mod_le (ms_high_count s + 1) U64_MOD). pose proof (u64_range (ms_high_count s + 1)). unfold u64 in *. mlia.
Qed.

Lemma paid_self limit g p : 1 <= limit -> 0 <= ms_high_count (ga_state g) -> burst_paid limit g p ->
  let '(p1, s1, high) := mcs_before_launch limit (ga_now g) p (ga_state g) in
  forall procs now, burst_paid limit (Gate s1 now procs (ga_highs g + (if high : bool then 1 else 0))) p1.
Proof.
  intros Hl H0 Hp. pose proof (before_launch_count limit (ga_now g) p (ga_state g) H0) as HC. revert HC.
  destruct (mcs_before_launch limit (ga_now g) p (ga_state g)) as [[p1 s1] high] eqn:E. intros HC procs now.
  pose proof (paid_other limit g p s1 (ga_highs g + (if high then 1 else 0)) procs now ltac:(lia) ltac:(destruct high; lia) ltac:(lia) Hp) as Hpo.
  destruct Hpo as (h & P1 & P2 & P3 & P4). cbn in P3, P4. destruct Hp as (h0 & _ & Q2 & Q3 & Q4).
  assert (Hmove : forall pc, pc <> G_pass true -> p1 = set_la_pc pc p -> burst_paid limit (Gate s1 now procs (ga_highs g + (if high then 1 else 0))) p1).
  { intros pc Hpc ->. exists h. cbn. split_and!; done. }
  unfold mcs_before_launch in E. destruct (la_pc p) eqn:Epc; [destruct (bad_vnpu (la_vnpu p)); [|destruct (_ =? 1)]|destruct (_ =? 0)|destruct (_ <=? i); [|destruct (high_active _ _ _ _)]|destruct (Z.ltb_spec (ms_high_count (ga_state g)) limit)| | |];
    injection E as <- <- <-; try (eapply Hmove; [|reflexivity]; done).
  - exists h. cbn in *. split_and!; [done|done|done|]. by rewrite Epc.
  - exists h0. cbn in *. split_and!; [done|done|lia|]. intros _. lia.
  - exists (ga_highs g). cbn. destruct burst; [|split_and!; [lia|nia|lia|done]]. specialize (Q4 eq_refl). split_and!; [lia|nia|lia|done].
Qed.

Lemma gate_step_inv limit g l : 1 <= limit -> gate_inv limit g -> gate_inv limit (gate_step limit g l).
Proof.
  intros Hl [H0 HP]. destruct l as [i|n|v prio]; cbn [gate_step].
  - destruct (ga_procs g !! i) as [p|] eqn:Ei; [|by constructor]. pose proof (before_launch_count limit (ga_now g) p (ga_state g) H0) as HC.
    pose proof (paid_self limit g p Hl H0 (Forall_lookup_1 _ _ _ _ HP Ei)) as HS. destruct (mcs_before_launch limit (ga_now g) p (ga_state g)) as [[p1 s1] high]. constructor; cbn; [lia|].
    apply Forall_insert; [|apply HS]. eapply Forall_impl; [exact HP|]. intros q. apply paid_other; destruct high; lia.
  - constructor; [done|]. cbn. eapply Forall_impl; [exact HP|]. intros q. apply paid_other; lia || done.
  - constructor; [done|]. cbn. eapply Forall_impl; [exact HP|]. intros q. apply paid_other; cbn; lia || done.
Qed.

Lemma gate_run_inv limit ls : forall g, 1 <= limit -> gate_inv limit g -> gate_inv limit (gate_run limit g ls).
Proof. induction ls as [|l ls IH]; intros g Hl Hg; [done|]. cbn. apply IH; [done|]. by apply gate_step_inv. Qed.

Lemma gate_start_inv limit g : gate_start g -> gate_inv limit g.
Proof.
  intros (Hc & Hh & HF). constructor; [lia|]. eapply Forall_impl; [exact HF|]. intros p (Hpc & _ & Hb). exists 0. rewrite Hb, Hc, Hh, Hpc. split_and!; [lia|lia|lia|done].
Qed.

Definition all_bursts (g : gate) : Z := foldr (fun p n => la_bursts p + n) 0 (ga_procs g).

(** C30. A burst pays for one launch of each process.  Whatever the processes do,
    a process of normal priority that passes the gate because the burst is full
    does so at most once for every [limit] launches of high priority; so [n]
    processes together do it at most [n] times. *)
Theorem mcs_burst_bound limit g ls : 1 <= limit -> gate_start g ->
  let g1 := gate_run limit g ls in
  (forall p, p ∈ ga_procs g1 -> la_bursts p * limit <= ga_highs g1) ∧ all_bursts g1 * limit <= Z.of_nat (length (ga_procs g1)) * ga_highs g1.
Proof.
  intros Hl Hs g1. destruct (gate_run_inv limit ls g Hl (gate_start_inv limit g Hs)) as [H0 HP]. fold g1 in H0, HP.
  assert (HB : Forall (fun p => la_bursts p * limit <= ga_highs g1) (ga_procs g1)) by (eapply Forall_impl; [exact HP|]; intros p (h & P1 & P2 & P3 & _); lia).
  split; [by apply Forall_forall|]. unfold all_bursts. induction HB as [|p l Hp _ IH]; cbn; [lia|]. inversion_clear HP. specialize (IH ltac:(done)). lia.
Qed.

(** A burst for two processes: vNPU 0 launches with high priority, vNPU 1 and 2
    wait. *)
Definition two_at (n : Z) (p q : launcher) : gate :=
  Gate (McsShared true (1 :: replicate 99 0) n (1 :: replicate 99 0) MCS_MAGIC_INITIALIZED) 1 [Launcher 0 1 G_idle 0 0; p; q] n.
Definition two_waiting (n : Z) : gate := two_at n (Launcher 1 0 G_idle 0 0) (Launcher 2 0 G_idle 0 0).

Definition high_launches (n : nat) : list gate_label := concat (replicate n [Run 0; Run 0]).

Lemma high_launches_run limit n : forall k, 0 <= k -> k + Z.of_nat n < U64_MOD -> gate_run limit (two_waiting k) (high_launches n) = two_waiting (k + Z.of_nat n).
Proof.
  induction n as [|n IH]; intros k Hk Hn; [by rewrite Z.add_0_r|]. change (high_launches (S n)) with ([Run 0; Run 0] ++ high_launches n). unfold gate_run. rewrite foldl_app.
  assert (E : foldl (gate_step limit) (two_waiting k) [Run 0; Run 0] = two_waiting (k + 1)) by (cbn; rewrite u64_small by mlia; by rewrite Z.add_0_r).
  rewrite E. fold (gate_run limit (two_waiting (k + 1)) (high_launches n)). rewrite IH by lia. f_equal. lia.
Qed.

(** A step that counts nothing. *)
Lemma gate_step_run limit s now procs highs i p p1 s1 : procs !! i = Some p -> mcs_before_launch limit now p s = (p1, s1, false) ->
  gate_step limit (Gate s now procs highs) (Run i) = Gate s1 now (<[i := p1]> procs) highs.
Proof. intros Hi E. cbn. rewrite Hi, E. by rewrite Z.add_0_r. Qed.

(** A process that finds vNPU 0 active and the burst full. *)
Lemma reads_full limit g i v a b : ga_procs g !! i = Some (Launcher v 0 G_idle a b) -> bad_vnpu v = false -> at_index (ms_priority (ga_state g)) v = 0 ->
  high_active (ga_now g) v (ga_state g) 0 = true -> limit <= ms_high_count (ga_state g) ->
  foldl (gate_step limit) g [Run i; Run i; Run i; Run i] = Gate (ga_state g) (ga_now g) (<[i := Launcher v 0 (G_pass true) a b]> (ga_procs g)) (ga_highs g).
Proof.
  intros Hi Hv Hp Ha Hc. assert (Hlt : (i < length (ga_procs g))%nat) by (by eapply lookup_lt_Some). destruct g as [s now procs highs]. cbn [ga_state ga_now ga_procs ga_highs] in *. cbn [foldl].
  rewrite (gate_step_run limit s now procs highs i _ (Launcher v 0 G_poll a b) s Hi) by (unfold mcs_before_launch; cbn; by rewrite Hv).
  rewrite (gate_step_run limit s now _ highs i (Launcher v 0 G_poll a b) (Launcher v 0 (G_scan now 0) a b) s) by (first [by rewrite list_lookup_insert_eq|unfold mcs_before_launch; cbn; by rewrite Hp]). rewrite list_insert_insert_eq.
  rewrite (gate_step_run limit s now _ highs i (Launcher v 0 (G_scan now 0) a b) (Launcher v 0 G_count a b) s) by (first [by rewrite list_lookup_insert_eq|unfold mcs_before_launch; cbn; by rewrite Ha]). rewrite list_insert_insert_eq.
  rewrite (gate_step_run limit s now _ highs i (Launcher v 0 G_count a b) (Launcher v 0 (G_pass true) a b) s) by (first [by rewrite list_lookup_insert_eq|unfold mcs_before_launch; cbn; by rewrite (proj2 (Z.ltb_ge _ _))]).
  by rewrite list_insert_insert_eq.
Qed.

(** The entitlement is not consumed atomically.  For every limit there is a
    schedule in which two processes of normal priority pass the gate in one and
    the same burst, while a vNPU of high priority is active: both read the full
    count before either resets it. *)
Theorem mcs_burst_shared limit : 1 <= limit < U64_MOD ->
  exists g ls, gate_start g ∧ let g1 := gate_run limit g ls in
    ga_highs g1 = limit ∧ (la_bursts <$> ga_procs g1) = [0; 1; 1] ∧ mcs_has_high_priority_active (ga_now g1) 1 (ga_state g1) = true.
Proof.
  intros Hl. exists (two_waiting 0), (high_launches (Z.to_nat limit) ++ [Run 1; Run 1; Run 1; Run 1; Run 2; Run 2; Run 2; Run 2; Run 1; Run 2]%nat).
  split; [split; [done|]; split; [done|]; by repeat constructor|]. unfold gate_run. rewrite foldl_app. fold (gate_run limit (two_waiting 0) (high_launches (Z.to_nat limit))).
  rewrite high_launches_run by lia. rewrite Z.add_0_l, Z2Nat.id by lia.
  change [Run 1; Run 1; Run 1; Run 1; Run 2; Run 2; Run 2; Run 2; Run 1; Run 2]%nat with ([Run 1; Run 1; Run 1; Run 1] ++ [Run 2; Run 2; Run 2; Run 2] ++ [Run 1; Run 2])%nat.
  rewrite !foldl_app. rewrite (reads_full limit _ 1 1 0 0), (reads_full limit _ 2 2 0 0) by (reflexivity || (cbn [two_waiting two_at ga_state ms_high_count]; lia)).
  split; [cbn; lia|]. split; vm_compute; reflexivity.
Qed.

(** * The gate opens *)

(** A process of high priority never waits, and the search is within the table. *)
Definition place_ok (p : launcher) : Prop :=
  (la_priority p = 1 -> la_pc p = G_idle ∨ la_pc p = G_mark) ∧ (forall t k, la_pc p = G_scan t k -> 0 <= k <= MCS_MAX_VNPU).

Lemma place_ok_step limit now p s : place_ok p -> place_ok (mcs_before_launch limit now p s).1.1.
Proof.
  unfold place_ok, MCS_MAX_VNPU. intros [H1 H2]. unfold mcs_before_launch.
  destruct (la_pc p) as [| |t k| | |b|] eqn:E; cbn; try (split; [by intros Hp; destruct (H1 Hp)|by intros]); try (split; [by intros _; (left + right)|by intros]).
  - destruct (bad_vnpu _); cbn; [by rewrite E|]. destruct (Z.eqb_spec (la_priority p) 1); cbn; (split; [by auto|by intros]).
  - destruct (_ =? 0); cbn; (split; [by intros Hp; destruct (H1 Hp)|intros ? ? [= <- <-]; lia || by intros]).
  - specialize (H2 t k eq_refl). unfold MCS_MAX_VNPU. destruct (Z.leb_spec 100 k); cbn; [split; [by intros Hp; destruct (H1 Hp)|by intros]|].
    destruct (high_active _ _ _ _); cbn; (split; [by intros Hp; destruct (H1 Hp)|]); [by intros|intros ? ? [= <- <-]; lia].
  - destruct (_ <? _); cbn; (split; [by intros Hp; destruct (H1 Hp)|by intros]).
Qed.

(** How many steps of its own a waiting process is away from passing when the
    burst is full. *)
Definition steps_left (pc : gate_pc) : option Z :=
  match pc with
  | G_pass _ => Some 1
  | G_count => Some 2
  | G_scan _ k => Some (103 - k)
  | G_poll => Some 104
  | G_sleep => Some 105
  | G_idle | G_mark => None
  end.

Fixpoint own_steps (i : nat) (ls : list gate_label) : Z :=
  match ls with
  | [] => 0
  | Run j :: rest => (if decide (i = j) then 1 else 0) + own_steps i rest
  | _ :: rest => own_steps i rest
  end.

(** A waiting step with a full burst leads closer to the pass, or is the pass. *)
Lemma waiting_step limit now p s d : limit <= ms_high_count s -> place_ok p -> steps_left (la_pc p) = Some d ->
  let '(p1, s1, high) := mcs_before_launch limit now p s in
  high = false ∧ ((la_passes p1 = la_passes p + 1) ∨ (s1 = s ∧ la_passes p1 = la_passes p ∧ exists d1, steps_left (la_pc p1) = Some d1 ∧ d1 < d)).
Proof.
  intros Hc [_ Hk] Hd. unfold mcs_before_launch. destruct (la_pc p) as [| |t k| | |b|] eqn:E; cbn in Hd; try done; simplify_eq; cbn; (split; [done|]); try (by left); right; (split; [done|]).
  - destruct (_ =? 0); cbn; (split; [done|]); eexists; (split; [done|lia]).
  - specialize (Hk t k eq_refl). unfold MCS_MAX_VNPU in *. destruct (Z.leb_spec 100 k); cbn; [split; [done|]; eexists; split; [done|lia]|].
    destruct (high_active _ _ _ _); cbn; (split; [done|]); eexists; (split; [done|lia]).
  - rewrite (proj2 (Z.ltb_ge _ _)) by done. cbn. split; [done|]. eexists. split; [done|lia].
  - split; [done|]. eexists. split; [done|lia].
Qed.

Lemma passes_mono limit now p s : la_passes p <= la_passes (mcs_before_launch limit now p s).1.1.
Proof. unfold mcs_before_launch. destruct (la_pc p); cbn; repeat case_match; cbn; lia. Qed.

Lemma high_outside_step limit now q s : 0 <= ms_high_count s < UINT64_MAX -> la_priority q = 1 -> place_ok q ->
  let '(q1, s1, high) := mcs_before_launch limit now q s in la_priority q1 = 1 ∧ ms_high_count s <= ms_high_count s1 <= ms_high_count s + 1.
Proof.
  intros Hc Hp [HP _]. unfold mcs_before_launch. destruct (HP Hp) as [-> | ->]; cbn; [|lia]. destruct (bad_vnpu _); [lia|]. rewrite Hp. cbn. rewrite u64_small by (unfold UINT64_MAX in Hc; mlia). lia.
Qed.

(** Process [i] waits, all others have high priority, and the burst is full. *)
Record opening (limit : Z) (i : nat) (m : Z) (g : gate) (d : Z) : Prop := {
  op_places : Forall place_ok (ga_procs g);
  op_others : forall j q, j <> i -> ga_procs g !! j = Some q -> la_priority q = 1;
  op_count : 0 <= limit <= ms_high_count (ga_state g);
  op_self : exists p, ga_procs g !! i = Some p ∧ la_passes p = m ∧ steps_left (la_pc p) = Some d;
}.

Definition has_passed (i : nat) (m : Z) (g : gate) : Prop := exists p, ga_procs g !! i = Some p ∧ m < la_passes p.

Lemma has_passed_step limit i m g l : has_passed i m g -> has_passed i m (gate_step limit g l).
Proof.
  intros (p & Hi & Hm). destruct l as [j|n|v pr]; cbn; [|by exists p..]. destruct (ga_procs g !! j) as [q|] eqn:Hj; [|by exists p].
  pose proof (passes_mono limit (ga_now g) q (ga_state g)) as HM. destruct (mcs_before_launch limit (ga_now g) q (ga_state g)) as [[q1 s1] high]. cbn in HM. destruct (decide (j = i)) as [->|Hne].
  - exists q1. cbn. rewrite list_lookup_insert_eq by (by eapply lookup_lt_Some). split; [done|]. simplify_eq. lia.
  - exists p. cbn. by rewrite list_lookup_insert_ne.
Qed.

Lemma opening_step limit i m g d l : opening limit i m g d -> ms_high_count (ga_state g) < UINT64_MAX ->
  (has_passed i m (gate_step limit g l)) ∨
  (ms_high_count (ga_state (gate_step limit g l)) <= ms_high_count (ga_state g) + 1 ∧ exists d1, d1 + own_steps i [l] <= d ∧ opening limit i m (gate_step limit g l) d1).
Proof.
  intros [HP HO HC (p & Hi & Hm & Hd)] Hmax. destruct l as [j|n|v pr]; [|right; cbn; split; [lia|]; exists d; (split; [lia|]; constructor; [done|done|done|by exists p])..].
  cbn [gate_step own_steps]. destruct (ga_procs g !! j) as [q|] eqn:Hj; [|right; split; [lia|]; exists d; rewrite decide_False by congruence; split; [lia|]; constructor; [done|done|done|by exists p]].
  pose proof (Forall_lookup_1 _ _ _ _ HP Hj) as Hq. pose proof (place_ok_step limit (ga_now g) q (ga_state g) Hq) as Hq1. destruct (decide (i = j)) as [<-|Hne].
  - simplify_eq. pose proof (waiting_step limit (ga_now g) p (ga_state g) d (proj2 HC) Hq Hd) as HW. destruct (mcs_before_launch limit (ga_now g) p (ga_state g)) as [[p1 s1] high]. cbn in Hq1.
    destruct HW as [-> [Hpass|(-> & Hsame & d1 & Hd1 & Hlt)]]; [left; exists p1; cbn; rewrite list_lookup_insert_eq by (by eapply lookup_lt_Some); split; [done|lia]|right].
    cbn. split; [lia|]. exists d1. split; [lia|]. constructor; cbn; [by apply Forall_insert| |done|exists p1; rewrite list_lookup_insert_eq by (by eapply lookup_lt_Some); split_and!; [done|lia|done]].
    intros j q Hne Hj1. rewrite list_lookup_insert_ne in Hj1 by done. by apply (HO j).
  - pose proof (high_outside_step limit (ga_now g) q (ga_state g) ltac:(lia) (HO j q (not_eq_sym Hne) Hj) Hq) as HW.
    destruct (mcs_before_launch limit (ga_now g) q (ga_state g)) as [[q1 s1] high]. cbn in Hq1. destruct HW as [Hpr Hc]. right. cbn. split; [lia|]. exists d. split; [lia|].
    constructor; cbn; [by apply Forall_insert| |lia|exists p; by rewrite list_lookup_insert_ne]. intros k r Hk Hr. apply list_lookup_insert_Some in Hr as [(-> & -> & _)|[_ Hr]]; [done|by apply (HO k)].
Qed.

Lemma opening_run limit i m ls : forall g d, opening limit i m g d -> ms_high_count (ga_state g) + Z.of_nat (length ls) <= UINT64_MAX -> d <= own_steps i ls -> has_passed i m (gate_run limit g ls).
Proof.
  assert (Hmono : forall ls g, has_passed i m g -> has_passed i m (gate_run limit g ls)) by (clear; induction ls as [|l ls IH]; intros g Hg; [done|]; apply IH; by apply has_passed_step).
  induction ls as [|l ls IH]; intros g d Ho Hmax Hd.
  - exfalso. destruct Ho as [HP _ _ (p & Hi & _ & Hs)]. pose proof (proj2 (Forall_lookup_1 _ _ _ _ HP Hi)) as Hk. cbn in Hd. unfold MCS_MAX_VNPU in Hk.
    destruct (la_pc p) as [| |t k| | |b|]; cbn in Hs; simplify_eq; try lia. specialize (Hk t k eq_refl). lia.
  - cbn [length] in Hmax. destruct (opening_step limit i m g d l Ho ltac:(lia)) as [Hp|[Hc (d1 & Hd1 & Ho1)]]; [exact (Hmono ls _ Hp)|]. apply (IH _ d1); [done|lia|].
    destruct l; cbn [own_steps] in *; lia.
Qed.

Lemma places_run limit ls : forall g, Forall place_ok (ga_procs g) -> Forall place_ok (ga_procs (gate_run limit g ls)).
Proof.
  induction ls as [|l ls IH]; intros g Hg; [done|]. cbn. apply IH. destruct l as [j|n|v pr]; cbn; [|done..]. destruct (ga_procs g !! j) as [q|] eqn:Hj; [|done].
  pose proof (place_ok_step limit (ga_now g) q (ga_state g) (Forall_lookup_1 _ _ _ _ Hg Hj)). destruct (mcs_before_launch _ _ _ _) as [[q1 s1] high]. by apply Forall_insert.
Qed.

Lemma places_start g : gate_start g -> Forall place_ok (ga_procs g).
Proof. intros (_ & _ & HF). eapply Forall_impl; [exact HF|]. intros p (Hpc & _). split; [by left|]. rewrite Hpc. by intros. Qed.

(** C29. No starvation of a single process of normal priority.  Once the launches
    of high priority since the last reset reach the limit, the process passes
    the gate within 105 steps of its own, however the others, all of high
    priority, go on launching and however the clock moves. *)
Theorem mcs_gate_opens limit g0 ls0 ls i p d : gate_start g0 -> let g := gate_run limit g0 ls0 in
  ga_procs g !! i = Some p -> steps_left (la_pc p) = Some d -> (forall j q, j <> i -> ga_procs g !! j = Some q -> la_priority q = 1) ->
  0 <= limit <= ms_high_count (ga_state g) -> ms_high_count (ga_state g) + Z.of_nat (length ls) <= UINT64_MAX -> 105 <= own_steps i ls ->
  exists p1, ga_procs (gate_run limit g ls) !! i = Some p1 ∧ la_passes p < la_passes p1.
Proof.
  intros Hs g Hi Hd Ho Hc Hmax Hown. pose proof (places_run limit ls0 g0 (places_start g0 Hs)) as HP. fold g in HP. apply (opening_run limit i (la_passes p) ls g d); [|done|].
  - constructor; [done|done|done|by exists p].
  - pose proof (proj2 (Forall_lookup_1 _ _ _ _ HP Hi)) as Hk. destruct (la_pc p) as [| |t k| | |b|]; cbn in Hd; simplify_eq; try lia. specialize (Hk t k eq_refl). lia.
Qed.

(** * The set-up of the shared memory *)

(** Where a process is in [mcs_shm_init] after the mapping: it has read the
    magic number; is about to exchange it; has claimed the set-up; has cleared
    the page; has initialised the mutex; sleeps; returns; has registered its
    priority ([mcs_do_init]). *)
Inductive init_pc :=
  | I_load
  | I_test (observed : Z)
  | I_cas (observed : Z)
  | I_memset
  | I_mutex
  | I_publish
  | I_sleep
  | I_register
  | I_done.

Record starter := Starter { st_vnpu : Z; st_priority : Z; st_pc : init_pc }.

Definition set_st_pc (pc : init_pc) (p : starter) : starter := Starter (st_vnpu p) (st_priority p) pc.

(** The two steps of [mcs_shared_state_init]. *)
Definition init_memset (s : mcs_shared) : mcs_shared := mcs_shared_zero.
Definition init_mutex (s : mcs_shared) : mcs_shared := McsShared true (ms_last s) (ms_high_count s) (ms_priority s) (ms_magic s).

Definition mcs_shm_init (p : starter) (s : mcs_shared) : starter * mcs_shared :=
  match st_pc p with
  | I_load => (set_st_pc (I_test (ms_magic s)) p, s)
  | I_test observed =>
    (set_st_pc (if observed =? MCS_MAGIC_INITIALIZED then I_register else if negb (observed =? MCS_MAGIC_INITIALIZING) then I_cas observed else I_sleep) p, s)
  | I_cas observed =>
    if ms_magic s =? observed then (set_st_pc I_memset p, set_ms_magic MCS_MAGIC_INITIALIZING s) else (set_st_pc (I_test (ms_magic s)) p, s)
  | I_memset => (set_st_pc I_mutex p, init_memset s)
  | I_mutex => (set_st_pc I_publish p, init_mutex s)
  | I_publish => (set_st_pc I_register p, set_ms_magic MCS_MAGIC_INITIALIZED s)
  | I_sleep => (set_st_pc I_load p, s)
  | I_register => (set_st_pc I_done p, set_ms_priority (<[Z.to_nat (st_vnpu p) := st_priority p]> (ms_priority s)) s)
  | I_done => (p, s)
  end.

Definition setup_step (x : list starter * mcs_shared) (i : nat) : list starter * mcs_shared :=
  match x.1 !! i with
  | None => x
  | Some p => let '(p1, s1) := mcs_shm_init p x.2 in (<[i := p1]> x.1, s1)
  end.

Definition setup_run (x : list starter * mcs_shared) (ls : list nat) : list starter * mcs_shared := foldl setup_step x ls.

(** After the publication: processes that have not started, or are on the way
    that leaves the page alone, and those that are done have registered. *)
Definition joins (s : mcs_shared) (p : starter) : Prop :=
  match st_pc p with
  | I_load | I_register => True
  | I_test o => o = MCS_MAGIC_INITIALIZED
  | I_done => at_index (ms_priority s) (st_vnpu p) = st_priority p
  | _ => False
  end.

Definition setup_inv (x : list starter * mcs_shared) : Prop :=
  ms_magic x.2 = MCS_MAGIC_INITIALIZED ∧ length (ms_priority x.2) = Z.to_nat MCS_MAX_VNPU ∧ NoDup (st_vnpu <$> x.1) ∧
  Forall (fun p => bad_vnpu (st_vnpu p) = false ∧ joins x.2 p) x.1.

Lemma bad_vnpu_range v : bad_vnpu v = false -> 0 <= v < MCS_MAX_VNPU.
Proof. unfold bad_vnpu. intros E. apply orb_false_elim in E as [E1 E2]. apply Z.ltb_ge in E1. apply Z.leb_gt in E2. lia. Qed.

Lemma joins_other s p q v : joins s q -> st_vnpu q <> v -> 0 <= st_vnpu q -> 0 <= v -> joins (set_ms_priority (<[Z.to_nat v := p]> (ms_priority s)) s) q.
Proof. intros Hj Hne Hq Hv. unfold joins in *. destruct (st_pc q); try done. unfold at_index in *. cbn. rewrite list_lookup_insert_ne by lia. done. Qed.

Lemma init_step_inv x i : setup_inv x -> setup_inv (setup_step x i).
Proof.
  destruct x as [ps s]. intros (Hm & Hlen & Hnd & HF). cbn in *. unfold setup_step. cbn. destruct (ps !! i) as [p|] eqn:Hi; [|done]. destruct (Forall_lookup_1 _ _ _ _ HF Hi) as [Hv Hj].
  assert (Hsame : forall pc, joins s (set_st_pc pc p) -> setup_inv (<[i := set_st_pc pc p]> ps, s)).
  { intros pc Hpc. split_and!; cbn; [done|done| |by apply Forall_insert]. by rewrite list_fmap_insert, list_insert_id by (by rewrite list_lookup_fmap, Hi). }
  unfold mcs_shm_init, joins in *. destruct (st_pc p) eqn:Epc; try done.
  - by apply Hsame.
  - subst observed. by apply Hsame.
  - pose proof (bad_vnpu_range _ Hv) as Hr. split_and!; cbn; [done|by rewrite length_insert|by rewrite list_fmap_insert, list_insert_id by (by rewrite list_lookup_fmap, Hi)|].
    apply Forall_lookup. intros j q Hq. apply list_lookup_insert_Some in Hq as [(-> & <- & _)|[Hne Hq]].
    + split; [done|]. cbn. unfold at_index. rewrite list_lookup_insert_eq; [done|]. rewrite Hlen. unfold MCS_MAX_VNPU in *. lia.
    + destruct (Forall_lookup_1 _ _ _ _ HF Hq) as [Hvq Hjq]. split; [done|]. apply joins_other; [done| |by apply bad_vnpu_range in Hvq as []|lia].
      intros E. apply Hne. apply (NoDup_lookup _ _ _ (st_vnpu p) Hnd); rewrite list_lookup_fmap; [by rewrite Hi|by rewrite Hq; cbn; rewrite E].
  - rewrite list_insert_id; [by split_and!|]. done.
Qed.

Lemma init_run_inv ls : forall x, setup_inv x -> setup_inv (setup_run x ls).
Proof. induction ls as [|i ls IH]; intros x Hx; [done|]. apply IH. by apply init_step_inv. Qed.

(** The first process alone: eight steps are enough. *)
Lemma init_alone p ps s : st_pc p = I_load -> length (ms_priority s) = Z.to_nat MCS_MAX_VNPU -> bad_vnpu (st_vnpu p) = false -> ms_magic s <> MCS_MAGIC_INITIALIZING ->
  exists s1, setup_run (p :: ps, s) (replicate 8 0%nat) = (set_st_pc I_done p :: ps, s1) ∧ ms_magic s1 = MCS_MAGIC_INITIALIZED ∧
    length (ms_priority s1) = Z.to_nat MCS_MAX_VNPU ∧ at_index (ms_priority s1) (st_vnpu p) = st_priority p.
Proof.
  destruct p as [v pr pc]. cbn [st_pc st_vnpu st_priority]. intros -> Hlen Hv Hm. pose proof (bad_vnpu_range _ Hv) as Hr. unfold MCS_MAX_VNPU in Hr.
  assert (Hat : forall l : list Z, length l = Z.to_nat MCS_MAX_VNPU -> at_index (<[Z.to_nat v := pr]> l) v = pr) by (intros l Hl; unfold at_index; rewrite list_lookup_insert_eq; [done|rewrite Hl; unfold MCS_MAX_VNPU; lia]).
  destruct (decide (ms_magic s = MCS_MAGIC_INITIALIZED)) as [E|E].
  - exists (set_ms_priority (<[Z.to_nat v := pr]> (ms_priority s)) s). split; [|cbn; rewrite length_insert; auto].
    unfold setup_run. cbn [replicate foldl]. unfold setup_step at 8. cbn [lookup list_lookup fst snd mcs_shm_init st_pc set_st_pc]. cbn. by rewrite E.
  - exists (set_ms_priority (<[Z.to_nat v := pr]> (ms_priority mcs_shared_zero)) (set_ms_magic MCS_MAGIC_INITIALIZED (init_mutex mcs_shared_zero))).
    split; [|cbn -[mcs_shared_zero]; rewrite length_insert; split_and!; [done|done|by apply Hat]].
    unfold setup_run. cbn -[Z.eqb mcs_shared_zero]. rewrite (proj2 (Z.eqb_neq (ms_magic s) MCS_MAGIC_INITIALIZED)), (proj2 (Z.eqb_neq (ms_magic s) MCS_MAGIC_INITIALIZING)) by done.
    cbn -[Z.eqb mcs_shared_zero]. rewrite Z.eqb_refl. done.
Qed.

(** In order, the set-up is done once.  When the first process finishes the
    set-up before the others begin, whatever the page held, then under every
    schedule of the others the page stays published, and each that has returned
    has its priority registered. *)
Theorem mcs_init_in_order p ps s ls :
  NoDup (st_vnpu <$> p :: ps) -> Forall (fun q => bad_vnpu (st_vnpu q) = false ∧ st_pc q = I_load) (p :: ps) ->
  length (ms_priority s) = Z.to_nat MCS_MAX_VNPU -> ms_magic s <> MCS_MAGIC_INITIALIZING ->
  let '(ps1, s1) := setup_run (p :: ps, s) (replicate 8 0%nat ++ ls) in
  ms_magic s1 = MCS_MAGIC_INITIALIZED ∧ forall q, q ∈ ps1 -> st_pc q = I_done -> at_index (ms_priority s1) (st_vnpu q) = st_priority q.
Proof.
  intros Hnd HF Hlen Hm. inversion HF as [|? ? [Hv Hpc] HF1]; subst. destruct (init_alone p ps s Hpc Hlen Hv Hm) as (s0 & E & Hm0 & Hl0 & Hp0). unfold setup_run in *. rewrite foldl_app, E.
  pose proof (init_run_inv ls (set_st_pc I_done p :: ps, s0)) as HI. unfold setup_run in HI. destruct (foldl setup_step (set_st_pc I_done p :: ps, s0) ls) as [ps1 s1].
  destruct HI as (Hm1 & _ & _ & HF2). { split_and!; [done|done|done|]. constructor; [done|]. eapply Forall_impl; [exact HF1|]. intros q [Hq Hqpc]. split; [done|]. cbn. unfold joins. by rewrite Hqpc. }
  split; [done|]. intros q Hq Hd. apply (proj1 (Forall_forall _ _) HF2) in Hq as [_ Hj]. unfold joins in Hj. by rewrite Hd in Hj.
Qed.


(** * One round of the wait loop *)

(** [n] steps of one process while nothing else happens. *)
Fixpoint alone (limit now : Z) (n : nat) (x : launcher * mcs_shared) : launcher * mcs_shared :=
  match n with
  | O => x
  | S n => alone limit now n (mcs_before_launch limit now x.1 x.2).1
  end.

Lemma scan_alone limit now t s v pr a b n : forall k, Z.of_nat (k + n) = MCS_MAX_VNPU ->
  exists m, (m <= S n)%nat ∧ alone limit now m (Launcher v pr (G_scan t (Z.of_nat k)) a b, s) =
    (Launcher v pr (if existsb (fun i => high_active t v s (Z.of_nat i)) (seq k n) then G_count else G_pass false) a b, s).
Proof.
  induction n as [|n IH]; intros k Hk.
  - exists 1%nat. split; [lia|]. cbn. rewrite (proj2 (Z.leb_le _ _)) by lia. done.
  - cbn [seq existsb]. destruct (high_active t v s (Z.of_nat k)) eqn:E; cbn [orb].
    + exists 1%nat. split; [lia|]. cbn. rewrite (proj2 (Z.leb_gt _ _)) by lia. by rewrite E.
    + destruct (IH (S k) ltac:(lia)) as (m & Hm & Hrun). exists (S m). split; [lia|]. cbn. rewrite (proj2 (Z.leb_gt _ _)) by lia. rewrite E. cbn.
      replace (Z.of_nat k + 1) with (Z.of_nat (S k)) by lia. exact Hrun.
Qed.

Lemma alone_app limit now n m : forall x, alone limit now (n + m) x = alone limit now m (alone limit now n x).
Proof. induction n as [|n IH]; intros x; [done|]. cbn. apply IH. Qed.

Lemma high_active_spec now v s i :
  high_active now v s i = true <-> i <> v ∧ at_index (ms_priority s) i = 1 ∧ at_index (ms_last s) i <> 0 ∧ Z.abs (now - at_index (ms_last s) i) <= MCS_NO_TASK_TIMEOUT_NS.
Proof.
  unfold high_active. destruct (Z.eqb_spec i v); [split; [done|by intros []]|]. destruct (Z.eqb_spec (at_index (ms_priority s) i) 1); cbn [negb]; [|split; [done|by intros (_ & ? & _)]].
  destruct (Z.eqb_spec (at_index (ms_last s) i) 0); [split; [done|by intros (_ & _ & ? & _)]|]. set (last := at_index (ms_last s) i) in *.
  destruct (Z.leb_spec last now), (Z.leb_spec (now - last) MCS_NO_TASK_TIMEOUT_NS), (Z.ltb_spec now last), (Z.leb_spec (last - now) MCS_NO_TASK_TIMEOUT_NS); cbn; (split; [intros Hx|intros (_ & _ & _ & Hx)]); try done; try lia; split_and!; done || lia.
Qed.

(** A round of the wait loop decides as documented.  A process of normal
    priority that is not interrupted passes when no other vNPU of high priority
    has launched within 5 ms, or when the burst is full, and sleeps otherwise;
    the round reads the shared state and does not change it. *)
Theorem mcs_poll_correct limit now p s : la_pc p = G_poll -> bad_vnpu (la_vnpu p) = false ->
  (exists n, (n <= 103)%nat ∧ alone limit now n (p, s) =
    (set_la_pc (if mcs_has_high_priority_active now (la_vnpu p) s then if ms_high_count s <? limit then G_sleep else G_pass true else G_pass false) p, s)) ∧
  (mcs_has_high_priority_active now (la_vnpu p) s = true <->
    at_index (ms_priority s) (la_vnpu p) = 0 ∧ exists i, 0 <= i < MCS_MAX_VNPU ∧ i <> la_vnpu p ∧ at_index (ms_priority s) i = 1 ∧
      at_index (ms_last s) i <> 0 ∧ Z.abs (now - at_index (ms_last s) i) <= MCS_NO_TASK_TIMEOUT_NS).
Proof.
  intros Hpc Hv. destruct p as [v pr pc a b]. cbn [la_pc la_vnpu] in *. subst pc. unfold mcs_has_high_priority_active. rewrite Hv. destruct (Z.eqb_spec (at_index (ms_priority s) v) 0) as [E|E]; cbn [negb]; split.
  - destruct (scan_alone limit now now s v pr a b 100 0 eq_refl) as (m & Hm & Hrun). change (Z.to_nat MCS_MAX_VNPU) with 100%nat.
    assert (H1 : alone limit now (S m) (Launcher v pr G_poll a b, s) = alone limit now m (Launcher v pr (G_scan now (Z.of_nat 0)) a b, s)) by (cbn [alone mcs_before_launch fst snd la_pc la_vnpu]; by rewrite E).
    destruct (existsb _ (seq 0 100)); [|exists (S m); split; [lia|]; by rewrite H1, Hrun]. exists (S m + 1)%nat. split; [lia|]. rewrite alone_app, H1, Hrun. cbn. by destruct (_ <? _).
  - rewrite existsb_exists. split.
    + intros (i & Hi & Ha). apply in_seq in Hi. apply high_active_spec in Ha. split; [done|]. exists (Z.of_nat i). change (Z.to_nat MCS_MAX_VNPU) with 100%nat in Hi. unfold MCS_MAX_VNPU. split; [lia|done].
    + intros (_ & i & Hi & Ha). exists (Z.to_nat i). split; [apply in_seq; lia|]. rewrite Z2Nat.id by lia. by apply high_active_spec.
  - exists 1%nat. split; [lia|]. cbn. by rewrite (proj2 (Z.eqb_neq _ _)).
  - split; [done|by intros []].
Qed.

(** * Examples *)

Lemma mcs_burst_bound_witness : all_bursts (gate_run 2 (two_waiting 0) (high_launches 2 ++ [Run 1; Run 1; Run 1; Run 1; Run 1]%nat)) * 2 <= 3 * 2.
Proof. apply (mcs_burst_bound 2 (two_waiting 0) (high_launches 2 ++ [Run 1; Run 1; Run 1; Run 1; Run 1]%nat)); [lia|]. split; [done|]. split; [done|]. by repeat constructor. Defined.

Lemma mcs_burst_shared_witness : exists g ls, gate_start g ∧ ga_highs (gate_run 300 g ls) = 300 ∧ (la_bursts <$> ga_procs (gate_run 300 g ls)) = [0; 1; 1].
Proof. destruct (mcs_burst_shared 300 ltac:(mlia)) as (g & ls & Hs & Hh & Hb & _). exists g, ls. exact (conj Hs (conj Hh Hb)). Defined.

(** One process waits, the other launches. *)
Definition one_waiting : gate := Gate (McsShared true (1 :: replicate 99 0) 0 (1 :: replicate 99 0) MCS_MAGIC_INITIALIZED) 1 [Launcher 0 1 G_idle 0 0; Launcher 1 0 G_idle 0 0] 0.
Definition waiting_schedule : list gate_label := [Run 1; Run 1; Run 0; Run 0]%nat.
Definition polling_schedule : list gate_label := concat (replicate 105 [Run 1; Run 0; Run 0]%nat).

Lemma mcs_gate_opens_witness : exists p1, ga_procs (gate_run 1 (gate_run 1 one_waiting waiting_schedule) polling_schedule) !! 1%nat = Some p1 ∧ 0 < la_passes p1.
Proof.
  apply (mcs_gate_opens 1 one_waiting waiting_schedule polling_schedule 1%nat (Launcher 1 0 (G_scan 1 0) 0 0) 103).
  - split; [done|]. split; [done|]. by repeat constructor.
  - vm_compute. reflexivity.
  - reflexivity.
  - intros [|[|j]] q Hj Hq; [vm_compute in Hq; by injection Hq as <-|done|by vm_compute in Hq].
  - vm_compute. split; discriminate.
  - vm_compute. discriminate.
  - vm_compute. discriminate.
Defined.

Lemma mcs_poll_correct_witness :
  exists n, (n <= 103)%nat ∧ alone 2 5 n (Launcher 1 0 G_poll 0 0, ga_state one_waiting) = (Launcher 1 0 G_sleep 0 0, ga_state one_waiting).
Proof. exact (proj1 (mcs_poll_correct 2 5 (Launcher 1 0 G_poll 0 0) (ga_state one_waiting) eq_refl eq_refl)). Defined.

Lemma mcs_init_in_order_witness :
  let '(ps, s) := setup_run ([Starter 0 1 I_load; Starter 1 0 I_load], mcs_shared_zero) (replicate 8 0%nat ++ [1; 1; 1]%nat) in
  (st_pc <$> ps) = [I_done; I_done] ∧ at_index (ms_priority s) 0 = 1.
Proof.
  pose proof (mcs_init_in_order (Starter 0 1 I_load) [Starter 1 0 I_load] mcs_shared_zero [1; 1; 1]%nat) as HI.
  destruct (setup_run ([Starter 0 1 I_load; Starter 1 0 I_load], mcs_shared_zero) (replicate 8 0%nat ++ [1; 1; 1]%nat)) as [ps s] eqn:E.
  assert (Eps : ps = [Starter 0 1 I_done; Starter 1 0 I_done]).
  { transitivity ((setup_run ([Starter 0 1 I_load; Starter 1 0 I_load], mcs_shared_zero) (replicate 8 0%nat ++ [1; 1; 1]%nat)).1); [by rewrite E|]. vm_compute. reflexivity. }
  destruct HI as [_ HI]; [by repeat (constructor; [set_solver|]); constructor|by repeat constructor|done|done|]. subst ps. split; [done|].
  apply (HI (Starter 0 1 I_done)); [by left|done].
Defined.
